(* ===== verification/_CoqProject ===== *)
-Q . S2P
Prelude.v
Text.v
Protocol.v
Ipc.v
TipModel.v
TipService.v
TipRefinement.v
TipWorker.v
TipWorkerSafety.v
Windows.v
TipBroker.v
TipChannel.v
TipChannelSafety.v
Injector.v
InjectorSafety.v
FileNames.v
FileCore.v
Dispatcher.v
DispatcherSafety.v
AppState.v
AppStateSafety.v
Limits.v
Pairing.v
PairingSafety.v
Server.v
ServerSafety.v
Disk.v
DiskLogic.v
Diagnostics.v
Store.v
SampleStore.v
Targets.v
StoreSafety.v
StoreBatches.v
TargetsSafety.v
Coordinator.v
Outbound.v
DataServer.v
SampleCoordinator.v
DataServerLogic.v
CoordinatorSafety.v
ActiveBatch.v
DataServerSafety.v
Listeners.v
UploadSafety.v
UploadCompletes.v
Addresses.v
AppActions.v
AppActionsSafety.v
Update.v
SampleUpdate.v
UpdateSafety.v
Authenticode.v
Identity.v
SampleIdentity.v
Settings.v
SettingsSafety.v
Floating.v
Layout.v
Pages.v
PagesLayout.v
PagesResize.v
Window.v
WindowSafety.v
SampleWindow.v
Clipboard.v
Fetch.v
Service.v
Registration.v
Gdi.v
Components.v
Render.v
RenderSafety.v
Fonts.v
Pixels.v
Startup.v
StartupSafety.v
