(* ===== verification/Prelude.v ===== *)
(** * FlowType: a verification library

    FlowType types what is written on a phone into the focused window of a
    Windows computer. Three processes take part, all in [src/windows]: the
    desktop app ([flowtype-app]) talks to the phones over WebSockets; the
    elevated injector ([flowtype-injector]) owns the input session; a text
    service ([flowtype-tip]) is loaded into each application and edits its
    document through the Text Services Framework. What they share is
    [flowtype-core]. A text goes phone, connection ([Server]), dispatcher
    ([Dispatcher]), pipe ([Ipc]), injector ([Injector]), broker ([TipBroker]),
    text service ([TipService]), document; its acknowledgement comes back the
    same way.

    ** The files

    - [Prelude]: results, the state-and-error monad [sr] of the async code,
      machine integers, bytes, lists, stable sorting, [star], [bool_to_prop],
      [split_code] and the hint database [flow].
    - [Text]: Rust strings as their UTF-8 bytes ([string]), UTF-16 lengths,
      ASCII classes, decimals, separators.
    - [Protocol]: [core/lib.rs], [protocol.rs], [session.rs]: the messages of
      the phone protocol, their validators, [AppliedState].
    - [Ipc]: [core/ipc.rs]: requests and responses of the injector pipe and the
      length-prefixed framing.
    - [TipModel]: [core/tip.rs]: commands of the text service and its reference
      session [TipSessionModel], the abstract specification.
    - [TipService]: [tip/composition.rs], [service.rs], [host.rs]: the edit
      sessions, the sinks, the Scintilla fallback and the controller over an
      arbitrary editor. [TipRefinement]: the controller implements the
      reference session, also with callbacks of the editor in between.
    - [TipWorker]: [tip/ipc.rs], [lifetime.rs], [factory.rs] and the message window of
      [service.rs]: the thread that carries commands from the pipe to the
      controller, and what keeps the library loaded, as events of a host process.
      [TipWorkerSafety]: its properties over all runs.
    - [Windows]: [injector/input_monitor.rs], [target.rs]: the hooks and the
      target window; class [Win32].
    - [TipBroker]: [injector/tip_broker.rs]: the registry of text services,
      sending by generation, [begin_for_target]; class [TipPipes]. [TipChannel]: the
      thread and the queue of one text service, the waiting call and the clock, step by
      step; [TipChannelSafety]: its properties.
    - [Injector]: [injector/main.rs]: the session and every request; class
      [InjectorHost]. [InjectorSafety]: its properties, among them that the
      injector and the text service agree on the session after every request as long as
      the text services answer in time.
    - [FileNames], [FileCore]: [core/file_transfer.rs]: names, paths,
      messages, validators and states of file transfers.
    - [Dispatcher]: [app/injector.rs], [injector_dispatcher.rs]: opening and
      verifying the pipe, one request at a time, recovery; class [AppPipe].
      [DispatcherSafety]: its properties.
    - [AppState]: the part of [app/main.rs] [AppState] that connections share,
      and the lease of the input. [AppStateSafety]: its properties.
    - [Limits]: the connection limiters of [app/main.rs] and
      [network_server.rs] and the admission of [run_network].
    - [Pairing]: [app/pairing_store.rs] and [authenticate_phone].
      [PairingSafety]: its properties.
    - [Server]: [app/network_server.rs] [serve_connection] from the challenge
      to the leases dropped at its end; class [Surroundings].
      [ServerSafety]: its properties.
    - [Disk]: the file system with its failures and stops, and
      [app/atomic_file.rs]. [DiskLogic]: the rules for programs on it.
    - [Diagnostics]: [core/diagnostics.rs], the bounded log, and [core/diff.rs], with
      their properties.
    - [Store], [Targets]: [app/file_transfer_store.rs]. [StoreSafety],
      [StoreBatches], [TargetsSafety]: their properties; [SampleStore]: a
      concrete codec and disk for the witnesses.
    - [Coordinator], [Outbound], [DataServer]: [app/file_transfer_server.rs]: the
      coordinator and its control messages, transfers to the phone, the requests
      that carry files. [DataServerLogic]: the rules of [DiskLogic] for its
      programs; [SampleCoordinator]: a concrete one. [CoordinatorSafety],
      [ActiveBatch], [DataServerSafety], [UploadSafety], [UploadCompletes]: their
      properties.
    - [Addresses]: [app/network_address.rs] and the pairing code. [AppActions]: the rest
      of [AppState]: the queues of file offers and what the window asks for.
      [AppActionsSafety]: its properties.
    - [Identity], [Settings]: [app/identity.rs]; [settings.rs], [i18n.rs]. [SampleIdentity]
      and [SettingsSafety]: a concrete one, and the properties of the settings.
    - [Floating]: [app/ui_floating.rs], the floating ball, with its properties.
    - [Layout], [Pages]: [app/ui_layout.rs] in exact single precision, and the
      controls of every page ([ui_pages.rs], [ui_state.rs]). [PagesLayout],
      [PagesResize]: their properties.
    - [Window]: [app/ui.rs], [ui_actions.rs], [ui_commands.rs], [ui_tray.rs]: every
      message of the main window over the app. [WindowSafety], [SampleWindow]: its
      properties, and a concrete window.
    - [Clipboard]: [app/clipboard.rs], with its properties.
    - [Gdi], [Components], [Render]: [app/ui_paint.rs]; [ui_components.rs],
      [ui_theme.rs]; [ui_render.rs], [ui_direct2d.rs]: what is painted, by GDI over a
      store of its objects and by Direct2D as a list of calls. [RenderSafety]: their
      properties. [Fonts]: the fonts and the surface kept between paintings.
      [Pixels]: the bytes of the ball in binary32 arithmetic.
    - [Fetch]: [http_get] of [app/update.rs] and [read_response_with_timeout] of
      [app/injector.rs]: bounded fetching and waiting, with their properties.
    - [Service]: [injector/main.rs] [main], the pipe and its clients, [speech.rs],
      [diagnostics.rs]: the injector process over system calls that answer as they like.
    - [Registration]: [tip/registration.rs], [lib.rs], [factory.rs]: the text service in
      the registry; class [RegistrySystem], in which the framework of Windows may write
      anything anywhere.
    - [Startup]: [app/main.rs] [main], [SingleInstance], [ui.rs] [run]: a process as a
      program that calls the system, and the processes of a session interleaved.
      [StartupSafety]: its properties, among them that the window starts as
      [WindowSafety] asks.
    - [Update]: [app/update.rs]: manifests, the worker and the installation.
      [SampleUpdate], [UpdateSafety]: a concrete world, and its properties over
      all runs. [Authenticode]: the signature of an installer.
    - [Listeners]: [run_file_transfer_server] and [serve_request]: the data connections
      and their jobs.

    Definitions keep the names of the code; a comment in brackets before a
    definition names the file and symbol it translates ([core/], [app/],
    [injector/], [tip/] stand for [src/windows/flowtype-core/src/] and so on).

    ** What the theorems show

    - Text reaches the document as acknowledged: the reference session
      ([controller_refines_model], [controller_run_refines]), writes only over
      the last text ([update_writes_over_last_text]), agreement of injector and
      text service ([handle_request_lockstep]), outcomes of applying
      ([apply_state_outcome]), of a lost pipe ([request_blocking_outcome]) and
      of a connection ([acknowledgements_are_confirmed],
      [input_gets_one_answer]); ends ([finished_session_replays],
      [input_session_is_tracked], [abandoned_session_is_cancelled],
      [monitor_while_session]); the thread in between ([exchanges_are_rounds]), whose
      code stays ([unloaded_code_is_not_running]); its channel
      ([answers_are_its_own], [sent_call_returns]).
    - Who may type: [authenticate_outcome], [token_pairs_once],
      [auth_payload_inj], [foreign_message_asks_nothing],
      [input_belongs_to_last_claim], [superseded_connection_is_silent],
      [connect_verified], [served_client_is_verified], [stale_key_is_refused], [begin_refused_while_busy].
    - Files arrive whole: [acknowledged_bytes_survive],
      [only_verified_files_are_published], [undisturbed_upload_succeeds],
      [verified_upload_is_published], [targets_are_distinct],
      [manifest_framing_is_irrelevant], [served_range_is_a_slice].
    - The store over failures and stops: [manifest_all_or_nothing],
      [update_state_is_atomic], [manifest_reads_back], [index_agrees_with_scan],
      [progress_roundtrip], [progress_is_per_entry], [progress_summary_adds_up],
      [all_entries_terminal_spec].
    - Who may transfer: [authorized_exactly], [operations_are_exclusive],
      [revoked_phone_loses_access], [unpaired_phone_is_locked_out],
      [one_batch_per_phone]; offers outlive a connection ([waiting_offer_is_queued]).
    - The window (its status page is not laid out anew on a resize, and more than four
      phones need a window above the minimum): [pairing_code_is_on_show], [unpair_button_unpairs_the_named],
      [buttons_fit], [resize_is_rebuild], [ball_gesture], [dropped_ball_comes_back].
    - What is painted: [renderers_tell_the_same], [painting_leaks_nothing],
      [window_gives_its_fonts_back], [surface_is_given_back],
      [qr_is_drawn_exactly], [ball_stays_on_its_surface], [hover_ends];
      [bitmap_shows_picture], [clipboard_is_left_clean].
    - The processes: [app_runs_once], [code_is_on_show_from_the_start],
      [preview_is_never_refused], [service_serves_only_the_app], [unregister_undoes_register],
      [failed_request_keeps_nothing].
    - What is kept: [identity_is_stable], [settings_refine_preferences],
      [log_stays_small], [line_is_logged], [transition_gives_current].
    - Updates: [manifest_accepted_exactly], [latest_release_is_highest],
      [launched_installer_was_verified], [accepted_exactly], [versions_never_fall],
      [shown_button_works], [restart_restores].
    - Bounds and termination: [fetch_is_bounded], [response_is_read_whole],
      [begin_for_target_outcome], [admission_exact],
      [control_connections_bounded], [data_connections_bounded], [handshakes_end],
      [reserve_fresh],
      [sanitized_name_is_windows_safe], [framing_roundtrip].
    - What is shown: [status_names_newest], [status_changes_are_announced],
      [switch_resolved_once].
    - Where code and intention differ: [timed_out_begin_acknowledges_unheld_text],
      [new_connection_finds_no_session], [repeated_finish_is_not_acknowledged],
      [failed_pairing_restores_token], [sanitizer_keeps_device_name],
      [padding_ticket_is_accepted], [create_batch_is_not_atomic],
      [restart_offers_running_version], [retry_download_does_nothing],
      [unpairing_leaves_connections], [failed_exists_replaces_identity],
      [trimmed_folder_is_another], [double_click_also_switches],
      [unpaired_ball_is_green], [narrowed_status_overflows],
      [error_text_is_covered], [fifth_phone_is_below_the_window],
      [reopened_page_shows_a_dead_code], [renamed_phone_shows_the_others_status],
      [namesakes_are_both_connected], [reconnecting_announces_again],
      [unanswered_length_overflows], [left_pipe_serves_nobody],
      [failed_registration_is_left], [start_during_the_end_is_lost],
      [frozen_client_blocks_the_injector], [jobs_outlive_connections],
      [returned_code_is_open_off_its_page], [unreadable_batch_admits_another].

    ** How the code is modelled

    State is passed explicitly; a Rust [Result] is [result] or the monad [sr];
    a mutex is a field and is never poisoned, because no holder of one panics.
    The outside is a class whose operations are arbitrary: the editor of TSF,
    the desktop ([Win32]), the pipes ([TipPipes], [AppPipe]), sockets and other
    tasks ([Surroundings]). Its laws are documented behaviour: time does not go
    back, a sleep takes at least its time, a wait for a notification may end early (but
    not for ever without time going on), hash maps iterate over their entries in some
    order. Between the steps of a connection [other_tasks] may change
    the shared state arbitrarily; the hooks and the pipes of the injector act at
    every call ([settle]). JSON, Base64, SHA-256, ECDSA and Unicode case
    mapping are parameters; a decoded message is its value.

    The disk runs on a schedule of outcomes: each call is done, fails, or stops
    the machine part of the way. A stop loses any of the sectors that were not
    synced; what is journaled (names, directories, the replacement of a file)
    stays. A theorem that says nothing of the schedule holds for all of them;
    one on a [quiet] disk is about a run without faults. A handler of the
    coordinator runs as one program, but between the frames of a body other
    connections act ([be_others]). The updater's worker and window take turns at
    the steps of [Event], each with what it finds outside.

    Loops that wait are given fuel: [BEGIN_FUEL] is 1501 rounds, one more than
    the 1500 ms of [begin_for_target] have milliseconds, and one for every wait that ends
    before a millisecond has passed ([cut_short]); [CONNECT_FUEL] is 51
    rounds, one more than 5000 ms have sleeps of 100 ms; name reservation takes
    more tries than names are in use. That the fuel suffices is part of the
    theorems about them.

    The window handles one message at a time; what the system answers meanwhile is a
    record [Answers], and between two messages the rest of the app may do anything
    that makes no pairing code ([app_goes_on]); phones take the code and put it back in
    steps of their own ([window_step]). The layouts compute with exact multiples
    of 2^-23, which every value of the code is; the ball is drawn with the binary32
    operations of [SpecFloat]. GDI is a store of objects and contexts in which every
    creation may fail; what Windows paints for a call is the call.

    ** Not modelled

    What only calls the system: creating windows, menus and the Direct2D target, the
    look of a font, listing the adapters, TLS and HTTP (hyper), BITS, and the checks of
    WinVerifyTrust itself. Serde, Base64, hashes and signatures are parameters. The
    Android client, the installer and the spikes are in other languages or experiments;
    [build.rs] only draws the icon of the program. *)

From stdpp Require Export base tactics option list numbers strings gmap fin_maps.
From Stdlib Require Export ZArith Lia Sorting.Sorted.

#[global] Open Scope Z_scope.

Declare Scope flow_scope.
Delimit Scope flow_scope with flow.

(** ** Results: Rust's [Result<A, E>]

    The error type comes first so that [result E] is a monad; [x ← c; k] is
    the [?] operator. *)

Inductive result (E A : Type) : Type :=
| Ok (value : A)
| Err (error : E).
Arguments Ok {E A} value.
Arguments Err {E A} error.

#[global] Instance result_ret {E} : MRet (result E) := @Ok E.
#[global] Instance result_bind {E} : MBind (result E) := λ A B f c,
  match c with Ok a => f a | Err e => Err e end.
#[global] Instance result_fmap {E} : FMap (result E) := λ A B f c,
  match c with Ok a => Ok (f a) | Err e => Err e end.
#[global] Instance result_eq_dec {E A} `{EqDecision E, EqDecision A} :
  EqDecision (result E A).
Proof. solve_decision. Defined.

Definition is_ok {E A} (r : result E A) : bool :=
  match r with Ok _ => true | Err _ => false end.

Definition map_err {E F A} (f : E → F) (r : result E A) : result F A :=
  match r with Ok a => Ok a | Err e => Err (f e) end.

Definition ok_or {E A} (o : option A) (e : E) : result E A :=
  match o with Some a => Ok a | None => Err e end.

(** [guard_err b e] is the early return [if b { return Err(e) }]. *)
Definition guard_err {E} (b : bool) (e : E) : result E unit :=
  if b then Err e else Ok tt.

Lemma result_bind_Ok {E A B} (c : result E A) (f : A → result E B) b :
  (x ← c; f x) = Ok b ↔ ∃ a, c = Ok a ∧ f a = Ok b.
Proof. destruct c; cbn; naive_solver. Qed.

Lemma result_bind_Err {E A B} (c : result E A) (f : A → result E B) e :
  (x ← c; f x) = Err e ↔ c = Err e ∨ ∃ a, c = Ok a ∧ f a = Err e.
Proof. destruct c; cbn; naive_solver. Qed.

Lemma guard_err_Ok {E} (b : bool) (e : E) u :
  guard_err b e = Ok u ↔ b = false.
Proof. destruct b, u; cbn; naive_solver. Qed.

Lemma guard_err_Err {E} (b : bool) (e e' : E) :
  guard_err b e = Err e' ↔ b = true ∧ e = e'.
Proof. destruct b; cbn; naive_solver. Qed.

(** ** Programs with a state that may fail: [async fn] with [?]

    The state is kept when the program fails. *)

Definition sr (S E A : Type) : Type := S → result E A * S.
#[global] Instance sr_ret {S E} : MRet (sr S E) := λ A a s, (Ok a, s).
#[global] Instance sr_bind {S E} : MBind (sr S E) := λ A B f c s,
  match c s with (Ok a, s) => f a s | (Err e, s) => (Err e, s) end.
Definition sr_fail {S E A} (e : E) : sr S E A := λ s, (Err e, s).
Definition sr_get {S E} : sr S E S := λ s, (Ok s, s).
Definition sr_modify {S E} (f : S → S) : sr S E unit := λ s, (Ok tt, f s).
Definition sr_lift {S E A} (r : result E A) : sr S E A := λ s, (r, s).

Lemma sr_bind_Ok {S E A B} (c : sr S E A) (f : A → sr S E B) s a t :
  c s = (Ok a, t) → (x ← c; f x) s = f a t.
Proof. intros E'. unfold mbind, sr_bind. by rewrite E'. Qed.

Lemma sr_bind_Err {S E A B} (c : sr S E A) (f : A → sr S E B) s e t :
  c s = (Err e, t) → (x ← c; f x) s = (Err e, t).
Proof. intros E'. unfold mbind, sr_bind. by rewrite E'. Qed.

Lemma sr_bind_inv {S E A B} (c : sr S E A) (f : A → sr S E B) s b t :
  (x ← c; f x) s = (Ok b, t) → ∃ a u, c s = (Ok a, u) ∧ f a u = (Ok b, t).
Proof. unfold mbind, sr_bind. destruct (c s) as [[a|e] u]; [eauto | done]. Qed.

Lemma sr_bind_assoc {S E A B C} (c : sr S E A) (f : A → sr S E B) (g : B → sr S E C) s :
  (y ← (x ← c; f x); g y) s = (x ← c; y ← f x; g y) s.
Proof. unfold mbind, sr_bind. by destruct (c s) as [[a|e] u]. Qed.

Lemma sr_bind_ext {S E A B} (c : sr S E A) (f g : A → sr S E B) s :
  (∀ a t, c s = (Ok a, t) → f a t = g a t) → (x ← c; f x) s = (x ← c; g x) s.
Proof. unfold mbind, sr_bind. destruct (c s) as [[a|e] u]; naive_solver. Qed.

#[global] Arguments sr_ret / {_ _} _ _ _.
#[global] Arguments sr_bind / {_ _} _ _ _ _ _.

(** ** Machine integers

    [u64], [u32], [i64] values are [Z] in range; wrap-around, checked and
    saturating operations are written out. *)

Definition U64_MAX : Z := 2 ^ 64 - 1.
Definition U32_MAX : Z := 2 ^ 32 - 1.
Definition I64_MAX : Z := 2 ^ 63 - 1.

Definition wrap64 (z : Z) : Z := z mod 2 ^ 64.

Definition checked_add64 (a b : Z) : option Z :=
  if U64_MAX <? a + b then None else Some (a + b).
Definition checked_mul64 (a b : Z) : option Z :=
  if U64_MAX <? a * b then None else Some (a * b).
Definition saturating_add64 (a b : Z) : Z := Z.min (a + b) U64_MAX.
Definition saturating_sub (a b : Z) : Z := Z.max (a - b) 0.

Lemma checked_add64_Some a b c :
  checked_add64 a b = Some c ↔ c = a + b ∧ a + b ≤ U64_MAX.
Proof. unfold checked_add64. destruct (Z.ltb_spec U64_MAX (a + b)); naive_solver lia. Qed.

(** ** Byte sequences of fixed width: [to_le_bytes] and [from_le_bytes]

    A byte is a [Z] in [0, 256). *)

Definition byte_ok (b : Z) : Prop := 0 ≤ b < 256.

Fixpoint to_le_bytes (n : nat) (z : Z) : list Z :=
  match n with
  | O => []
  | S n => z mod 256 :: to_le_bytes n (z / 256)
  end.

Fixpoint from_le_bytes (l : list Z) : Z :=
  match l with
  | [] => 0
  | b :: l => b + 256 * from_le_bytes l
  end.

Lemma to_le_bytes_length n z : length (to_le_bytes n z) = n.
Proof. revert z. induction n; intros; cbn; [done | by rewrite IHn]. Qed.

Lemma to_le_bytes_ok n z : Forall byte_ok (to_le_bytes n z).
Proof.
  revert z. induction n; intros; cbn; constructor; [| done].
  apply Z.mod_pos_bound. lia.
Qed.

Lemma from_to_le_bytes n z :
  0 ≤ z < 256 ^ Z.of_nat n → from_le_bytes (to_le_bytes n z) = z.
Proof.
  revert z. induction n as [|n IH]; intros z Hz; cbn [to_le_bytes from_le_bytes].
  - change (256 ^ Z.of_nat 0) with 1 in Hz. lia.
  - rewrite Nat2Z.inj_succ, Z.pow_succ_r in Hz by lia.
    rewrite IH; [pose proof (Z.div_mod z 256); lia |].
    split; [apply Z.div_pos; lia | apply Z.div_lt_upper_bound; lia].
Qed.

Lemma from_le_bytes_bound l :
  Forall byte_ok l → 0 ≤ from_le_bytes l < 256 ^ Z.of_nat (length l).
Proof.
  induction 1 as [|b l Hb Hl IH]; cbn [from_le_bytes length]; [lia |].
  rewrite Nat2Z.inj_succ, Z.pow_succ_r by lia. unfold byte_ok in Hb. lia.
Qed.

Lemma to_from_le_bytes l :
  Forall byte_ok l → to_le_bytes (length l) (from_le_bytes l) = l.
Proof.
  induction 1 as [|b l Hb Hl IH]; [done |].
  cbn [from_le_bytes length to_le_bytes]. unfold byte_ok in Hb.
  rewrite (Z.mul_comm 256), Z.mod_add, Z.mod_small by lia.
  rewrite Z.div_add, Z.div_small by lia. by rewrite Z.add_0_l, IH.
Qed.

(** ** Lists *)

Definition zlength {A} (l : list A) : Z := Z.of_nat (length l).

Lemma zlength_nonneg {A} (l : list A) : 0 ≤ zlength l.
Proof. unfold zlength. lia. Qed.

Lemma zlength_app {A} (l k : list A) : zlength (l ++ k) = zlength l + zlength k.
Proof. unfold zlength. rewrite length_app. lia. Qed.

Lemma zlength_cons {A} (x : A) l : zlength (x :: l) = zlength l + 1.
Proof. unfold zlength. cbn. lia. Qed.

(** [take_while] and [drop_while], as [Iterator::take_while]. *)
Fixpoint take_while {A} (p : A → bool) (l : list A) : list A :=
  match l with
  | [] => []
  | x :: l => if p x then x :: take_while p l else []
  end.

Fixpoint drop_while {A} (p : A → bool) (l : list A) : list A :=
  match l with
  | [] => []
  | x :: l' => if p x then drop_while p l' else l
  end.

Lemma take_drop_while {A} (p : A → bool) l : take_while p l ++ drop_while p l = l.
Proof. induction l as [|x l IH]; cbn; [done |]. destruct (p x); cbn; by rewrite ?IH. Qed.

Lemma take_while_Forall {A} (p : A → bool) l :
  Forall (λ x, p x = true) (take_while p l).
Proof. induction l as [|x l IH]; cbn; [done |]. destruct (p x) eqn:?; by constructor. Qed.

Lemma drop_while_head {A} (p : A → bool) l x k :
  drop_while p l = x :: k → p x = false.
Proof.
  induction l as [|y l IH]; cbn; [done |].
  destruct (p y) eqn:E; [done | intros [= <- <-]; done].
Qed.

Lemma filter_none {A} (P : A → Prop) `{∀ x, Decision (P x)} l :
  Forall (λ x, ¬ P x) l → filter P l = [].
Proof. induction 1; [done |]. by rewrite filter_cons_False. Qed.

Lemma filter_all {A} (P : A → Prop) `{∀ x, Decision (P x)} l : Forall P l → filter P l = l.
Proof. induction 1; [done |]. rewrite filter_cons_True by done. by f_equal. Qed.

Lemma StronglySorted_suffix {A} (R : A → A → Prop) l k :
  StronglySorted R (l ++ k) → StronglySorted R k.
Proof. induction l as [|x l IH]; cbn; [done |]. by intros [? _]%StronglySorted_inv; apply IH. Qed.

Lemma StronglySorted_snoc {A} (R : A → A → Prop) l x :
  StronglySorted R l → Forall (λ y, R y x) l → StronglySorted R (l ++ [x]).
Proof.
  induction 1 as [|y l Hl IH Hy]; intros Hx; cbn; [by repeat constructor |].
  apply Forall_cons in Hx as [Hyx Hx]. constructor; [by apply IH |].
  apply Forall_app. split; [done | by constructor].
Qed.

(** Stable sorting by a boolean order: [sort_by] and [sort_by_key]. *)
Section stable_sort.
Context {A : Type} (leb : A → A → bool).

Fixpoint insert_sorted (x : A) (l : list A) : list A :=
  match l with
  | [] => [x]
  | y :: l' => if leb x y then x :: l else y :: insert_sorted x l'
  end.

Definition stable_sort (l : list A) : list A := foldr insert_sorted [] l.

Lemma insert_sorted_perm x l : insert_sorted x l ≡ₚ x :: l.
Proof.
  induction l as [|y l IH]; cbn; [done |].
  destruct (leb x y); [done |]. rewrite IH. apply Permutation_swap.
Qed.

Lemma stable_sort_perm l : stable_sort l ≡ₚ l.
Proof. induction l as [|x l IH]; cbn; [done |]. by rewrite insert_sorted_perm, IH. Qed.

Lemma elem_of_stable_sort x l : x ∈ stable_sort l ↔ x ∈ l.
Proof. by rewrite (stable_sort_perm l). Qed.

Context (leb_total : ∀ x y, leb x y = false → leb y x = true).

Lemma stable_sort_HdRel x y l :
  HdRel (λ a b, leb a b = true) x l → leb x y = true →
  HdRel (λ a b, leb a b = true) x (insert_sorted y l).
Proof.
  intros H1 H2. destruct l as [|z l]; cbn; [by constructor |].
  destruct (leb y z); constructor; [done | by inversion H1].
Qed.

Lemma stable_sort_sorted l : Sorted (λ a b, leb a b = true) (stable_sort l).
Proof.
  induction l as [|x l IH]; [constructor |].
  change (stable_sort (x :: l)) with (insert_sorted x (stable_sort l)).
  induction IH as [|y k Hk IHk Hd]; cbn; [auto using Sorted, HdRel |].
  destruct (leb x y) eqn:E.
  { auto using Sorted, HdRel. }
  constructor; [done | apply stable_sort_HdRel; auto].
Qed.
End stable_sort.

(** ** Reachability

    [star R s t]: zero or more steps; used with an invariant preserved by
    each step. *)
Section reachability.
Context {S : Type} (R : S → S → Prop).

Inductive star : S → S → Prop :=
| star_refl s : star s s
| star_step s t u : R s t → star t u → star s u.

Lemma star_invariant (P : S → Prop) :
  (∀ s t, P s → R s t → P t) → ∀ s t, star s t → P s → P t.
Proof. intros HR s t. induction 1; eauto. Qed.

Lemma star_trans s t u : star s t → star t u → star s u.
Proof. induction 1; eauto using star. Qed.
End reachability.

(** ** Automation *)

Create HintDb flow discriminated.
#[export] Hint Resolve zlength_nonneg to_le_bytes_ok to_le_bytes_length : flow.
#[export] Hint Constructors star : flow.

(** Turn the boolean tests of the code into the propositions they decide. *)
Ltac bool_to_prop :=
  repeat match goal with
  | H : (_ && _)%bool = true |- _ => apply andb_true_iff in H as [? ?]
  | H : (_ && _)%bool = false |- _ => apply andb_false_iff in H
  | H : (_ || _)%bool = false |- _ => apply orb_false_iff in H as [? ?]
  | H : (_ || _)%bool = true |- _ => apply orb_true_iff in H
  | H : negb _ = true |- _ => apply negb_true_iff in H
  | H : negb _ = false |- _ => apply negb_false_iff in H
  | H : (_ <? _) = true |- _ => apply Z.ltb_lt in H
  | H : (_ <? _) = false |- _ => apply Z.ltb_ge in H
  | H : (_ <=? _) = true |- _ => apply Z.leb_le in H
  | H : (_ <=? _) = false |- _ => apply Z.leb_gt in H
  | H : (_ =? _) = true |- _ => apply Z.eqb_eq in H
  | H : (_ =? _) = false |- _ => apply Z.eqb_neq in H
  | H : bool_decide _ = true |- _ => apply bool_decide_eq_true_1 in H
  | H : bool_decide _ = false |- _ => apply bool_decide_eq_false_1 in H
  end.

(** Case analysis on every test and match of the code under study. *)
Ltac split_code :=
  repeat first [ progress simplify_eq/=
               | progress bool_to_prop
               | case_match ].
