(* ===== verification/Text.v ===== *)
(** * Rust strings

    A Rust [str] is a sequence of UTF-8 bytes; it is modelled by [string],
    whose characters are its bytes, so that [len], equality and hashing are
    those of the bytes. [chars] decodes the Unicode scalar values and
    [of_chars] encodes them; the functions of the standard library that the
    code uses on characters ([is_control], [split], [len_utf16], ...) are
    defined on the decoded list. *)

From S2P Require Import Prelude.

(** ** Bytes of a string *)

Definition byte_of_ascii (a : Ascii.ascii) : Z := Z.of_N (Ascii.N_of_ascii a).
Definition ascii_of_byte (b : Z) : Ascii.ascii := Ascii.ascii_of_N (Z.to_N b).

Fixpoint bytes_of (s : string) : list Z :=
  match s with
  | EmptyString => []
  | String a s => byte_of_ascii a :: bytes_of s
  end.

Fixpoint of_bytes (l : list Z) : string :=
  match l with
  | [] => EmptyString
  | b :: l => String (ascii_of_byte b) (of_bytes l)
  end.

(** [str::len]: the number of bytes. *)
Definition str_len (s : string) : Z := zlength (bytes_of s).
Definition str_is_empty (s : string) : bool := bool_decide (s = EmptyString).

Lemma byte_of_ascii_ok a : byte_ok (byte_of_ascii a).
Proof.
  unfold byte_ok, byte_of_ascii. pose proof (Ascii.N_ascii_bounded a). lia.
Qed.

Lemma byte_ascii_byte b : byte_ok b → byte_of_ascii (ascii_of_byte b) = b.
Proof.
  unfold byte_ok, byte_of_ascii, ascii_of_byte. intros Hb.
  rewrite Ascii.N_ascii_embedding; lia.
Qed.

Lemma ascii_byte_ascii a : ascii_of_byte (byte_of_ascii a) = a.
Proof.
  unfold byte_of_ascii, ascii_of_byte. rewrite N2Z.id. apply Ascii.ascii_N_embedding.
Qed.

Lemma bytes_of_ok s : Forall byte_ok (bytes_of s).
Proof. induction s; cbn; constructor; auto using byte_of_ascii_ok. Qed.

Lemma bytes_of_of_bytes l : Forall byte_ok l → bytes_of (of_bytes l) = l.
Proof. induction 1 as [|b l Hb Hl IH]; cbn; [done |]. by rewrite IH, byte_ascii_byte. Qed.

Lemma of_bytes_bytes_of s : of_bytes (bytes_of s) = s.
Proof. induction s as [|a s IH]; cbn; [done |]. by rewrite IH, ascii_byte_ascii. Qed.

Lemma bytes_of_inj s t : bytes_of s = bytes_of t → s = t.
Proof. intros H. by rewrite <- (of_bytes_bytes_of s), H, of_bytes_bytes_of. Qed.

Lemma bytes_of_app s t : bytes_of (s +:+ t) = bytes_of s ++ bytes_of t.
Proof.
  induction s as [|a s IH]; [done |].
  change (byte_of_ascii a :: bytes_of (s +:+ t) = byte_of_ascii a :: bytes_of s ++ bytes_of t).
  by rewrite IH.
Qed.

Lemma str_len_nonneg s : 0 ≤ str_len s.
Proof. apply zlength_nonneg. Qed.
#[export] Hint Resolve bytes_of_ok str_len_nonneg : flow.

(** ** Unicode scalar values *)

Definition scalar (c : Z) : Prop := 0 ≤ c < 0xD800 ∨ 0xE000 ≤ c < 0x110000.
#[export] Instance scalar_dec c : Decision (scalar c).
Proof. unfold scalar. apply _. Defined.

(** [char::len_utf8], [char::len_utf16] *)
Definition len_utf8 (c : Z) : Z :=
  if c <? 0x80 then 1 else if c <? 0x800 then 2 else if c <? 0x10000 then 3 else 4.
Definition len_utf16 (c : Z) : Z := if c <? 0x10000 then 1 else 2.

(** [char::encode_utf8] *)
Definition encode_utf8 (c : Z) : list Z :=
  if c <? 0x80 then [c]
  else if c <? 0x800 then [192 + c / 64; 128 + c mod 64]
  else if c <? 0x10000 then
    [224 + c / 4096; 128 + (c / 64) mod 64; 128 + c mod 64]
  else
    [240 + c / 262144; 128 + (c / 4096) mod 64; 128 + (c / 64) mod 64; 128 + c mod 64].

(** [char::encode_utf16] *)
Definition encode_utf16 (c : Z) : list Z :=
  if c <? 0x10000 then [c]
  else [0xD800 + (c - 0x10000) / 1024; 0xDC00 + (c - 0x10000) mod 1024].

(** Decoding of a valid UTF-8 sequence, by the lead byte. *)
Fixpoint decode_utf8 (l : list Z) : list Z :=
  match l with
  | [] => []
  | b0 :: l1 =>
    if b0 <? 128 then b0 :: decode_utf8 l1 else
    match l1 with
    | [] => []
    | b1 :: l2 =>
      if b0 <? 224 then ((b0 - 192) * 64 + (b1 - 128)) :: decode_utf8 l2 else
      match l2 with
      | [] => []
      | b2 :: l3 =>
        if b0 <? 240 then
          ((b0 - 224) * 4096 + (b1 - 128) * 64 + (b2 - 128)) :: decode_utf8 l3 else
        match l3 with
        | [] => []
        | b3 :: l4 =>
          ((b0 - 240) * 262144 + (b1 - 128) * 4096 + (b2 - 128) * 64 + (b3 - 128))
            :: decode_utf8 l4
        end
      end
    end
  end.

Definition chars (s : string) : list Z := decode_utf8 (bytes_of s).
Definition of_chars (cs : list Z) : string := of_bytes (cs ≫= encode_utf8).

Lemma encode_utf8_ok c : scalar c → Forall byte_ok (encode_utf8 c).
Proof.
  unfold scalar, encode_utf8, byte_ok. intros Hc.
  repeat case_match; bool_to_prop; repeat constructor;
    Z.to_euclidean_division_equations; lia.
Qed.

Lemma encode_utf8_length c : zlength (encode_utf8 c) = len_utf8 c.
Proof. unfold encode_utf8, len_utf8. by repeat case_match. Qed.

Lemma decode_encode_utf8 c l :
  scalar c → decode_utf8 (encode_utf8 c ++ l) = c :: decode_utf8 l.
Proof.
  unfold scalar, encode_utf8. intros Hc.
  repeat case_match; bool_to_prop; cbn [app decode_utf8].
  - rewrite (proj2 (Z.ltb_lt _ _)) by lia. done.
  - rewrite (proj2 (Z.ltb_ge _ _)), (proj2 (Z.ltb_lt _ _))
      by (Z.to_euclidean_division_equations; lia).
    f_equal. Z.to_euclidean_division_equations; lia.
  - rewrite !(proj2 (Z.ltb_ge _ _)), (proj2 (Z.ltb_lt _ _))
      by (Z.to_euclidean_division_equations; lia).
    f_equal. Z.to_euclidean_division_equations; lia.
  - rewrite !(proj2 (Z.ltb_ge _ _)) by (Z.to_euclidean_division_equations; lia).
    f_equal. Z.to_euclidean_division_equations; lia.
Qed.

Lemma encode_all_ok cs : Forall scalar cs → Forall byte_ok (cs ≫= encode_utf8).
Proof.
  induction 1; cbn; [constructor |]. apply Forall_app; auto using encode_utf8_ok.
Qed.

Lemma chars_of_chars cs : Forall scalar cs → chars (of_chars cs) = cs.
Proof.
  intros Hcs. unfold chars, of_chars. rewrite bytes_of_of_bytes by auto using encode_all_ok.
  induction Hcs as [|c cs Hc Hcs IH]; [done |].
  cbn. by rewrite decode_encode_utf8, IH.
Qed.

Lemma of_chars_inj cs ds :
  Forall scalar cs → Forall scalar ds → of_chars cs = of_chars ds → cs = ds.
Proof. intros Hc Hd H. by rewrite <- (chars_of_chars cs), H, chars_of_chars. Qed.

Lemma of_chars_app cs ds : of_chars (cs ++ ds) = of_chars cs +:+ of_chars ds.
Proof.
  unfold of_chars. rewrite bind_app. generalize (cs ≫= encode_utf8) as l. intros l.
  induction l as [|b l IH]; cbn; [done |]. by rewrite IH.
Qed.

(** The strings a Rust [str] can hold. *)
Definition valid_str (s : string) : Prop := ∃ cs, Forall scalar cs ∧ s = of_chars cs.

Lemma valid_of_chars cs : Forall scalar cs → valid_str (of_chars cs).
Proof. intros H. by exists cs. Qed.

Lemma chars_scalar s : valid_str s → Forall scalar (chars s).
Proof. intros (cs & Hcs & ->). by rewrite chars_of_chars. Qed.

Lemma of_chars_chars s : valid_str s → of_chars (chars s) = s.
Proof. intros (cs & Hcs & ->). by rewrite chars_of_chars. Qed.

Lemma of_chars_nil_inv cs : Forall scalar cs → of_chars cs = EmptyString → cs = [].
Proof. intros Hcs H. apply (of_chars_inj cs []); [done | constructor | done]. Qed.

Definition utf8_units (cs : list Z) : Z := foldr (λ c n, len_utf8 c + n) 0 cs.
Definition utf16_units (cs : list Z) : Z := foldr (λ c n, len_utf16 c + n) 0 cs.

(** [str.encode_utf16().collect()] *)
Definition utf16_of (s : string) : list Z := chars s ≫= encode_utf16.

Lemma str_len_of_chars cs : Forall scalar cs → str_len (of_chars cs) = utf8_units cs.
Proof.
  intros Hcs. unfold str_len, of_chars. rewrite bytes_of_of_bytes by auto using encode_all_ok.
  induction Hcs as [|c cs Hc Hcs IH]; [done |].
  cbn [utf8_units foldr mbind list_bind]. rewrite zlength_app, encode_utf8_length.
  by rewrite IH.
Qed.

Lemma len_utf16_bounds c : 1 ≤ len_utf16 c ≤ 2.
Proof. unfold len_utf16. case_match; lia. Qed.

Lemma len_utf8_bounds c : 1 ≤ len_utf8 c ≤ 4.
Proof. unfold len_utf8. repeat case_match; lia. Qed.

Lemma encode_utf16_length c : zlength (encode_utf16 c) = len_utf16 c.
Proof. unfold encode_utf16, len_utf16. by case_match. Qed.

Lemma utf16_units_app cs ds : utf16_units (cs ++ ds) = utf16_units cs + utf16_units ds.
Proof. unfold utf16_units. induction cs as [|c cs IH]; cbn [app foldr]; lia. Qed.

Lemma utf16_units_nonneg cs : 0 ≤ utf16_units cs.
Proof.
  unfold utf16_units. induction cs as [|c cs IH]; cbn; [lia |].
  pose proof (len_utf16_bounds c). lia.
Qed.

Lemma utf8_units_nonneg cs : 0 ≤ utf8_units cs.
Proof.
  unfold utf8_units. induction cs as [|c cs IH]; cbn; [lia |].
  pose proof (len_utf8_bounds c). lia.
Qed.
#[export] Hint Resolve chars_scalar valid_of_chars utf16_units_nonneg : flow.

(** ** Character and byte classes *)

(** [char::is_control]: the general category Cc. *)
Definition is_control (c : Z) : bool :=
  (c <? 0x20) || ((0x7F <=? c) && (c <? 0xA0)).

(** [char::is_whitespace]: the property White_Space. *)
Definition is_whitespace (c : Z) : bool :=
  ((9 <=? c) && (c <=? 13)) || (c =? 0x20) || (c =? 0x85) || (c =? 0xA0) ||
  (c =? 0x1680) || ((0x2000 <=? c) && (c <=? 0x200A)) || (c =? 0x2028) ||
  (c =? 0x2029) || (c =? 0x202F) || (c =? 0x205F) || (c =? 0x3000).

Definition is_ascii_digit (b : Z) : bool := (48 <=? b) && (b <=? 57).
Definition is_ascii_lowercase (b : Z) : bool := (97 <=? b) && (b <=? 122).
Definition is_ascii_uppercase (b : Z) : bool := (65 <=? b) && (b <=? 90).
Definition is_ascii_alphanumeric (b : Z) : bool :=
  is_ascii_digit b || is_ascii_lowercase b || is_ascii_uppercase b.
Definition is_ascii_hexdigit (b : Z) : bool :=
  is_ascii_digit b || ((97 <=? b) && (b <=? 102)) || ((65 <=? b) && (b <=? 70)).

Definition to_ascii_uppercase (b : Z) : Z := if is_ascii_lowercase b then b - 32 else b.
Definition to_ascii_lowercase (b : Z) : Z := if is_ascii_uppercase b then b + 32 else b.
Definition str_to_ascii_lowercase (s : string) : string :=
  of_bytes (to_ascii_lowercase <$> bytes_of s).
Definition eq_ignore_ascii_case (s t : string) : bool :=
  bool_decide (to_ascii_lowercase <$> bytes_of s = to_ascii_lowercase <$> bytes_of t).

(** ** Searching and splitting *)

(** [split(sep)]: always at least one piece. *)
Fixpoint split_on (sep : Z) (l : list Z) : list (list Z) :=
  match l with
  | [] => [[]]
  | c :: l =>
    match split_on sep l with
    | piece :: rest => if c =? sep then [] :: piece :: rest else (c :: piece) :: rest
    | [] => [[c]]
    end
  end.

Definition join_with (sep : Z) (pieces : list (list Z)) : list Z :=
  match pieces with
  | [] => []
  | p :: ps => p ++ (ps ≫= λ q, sep :: q)
  end.

Lemma split_on_cons sep l : ∃ p ps, split_on sep l = p :: ps.
Proof.
  induction l as [|c l (p & ps & IH)]; cbn; [by exists [], [] |].
  rewrite IH. case_match; eauto.
Qed.

Lemma join_split sep l : join_with sep (split_on sep l) = l.
Proof.
  induction l as [|c l IH]; cbn; [done |].
  destruct (split_on_cons sep l) as (p & ps & E). rewrite E in *.
  destruct (Z.eqb_spec c sep) as [->|]; cbn in *; by rewrite IH.
Qed.

Lemma split_on_no_sep sep l : Forall (λ p, sep ∉ p) (split_on sep l).
Proof.
  induction l as [|c l IH]; cbn.
  { constructor; [apply not_elem_of_nil | constructor]. }
  destruct (split_on_cons sep l) as (p & ps & E). rewrite E in *.
  inversion IH; subst. case_match; bool_to_prop; constructor; auto.
  - apply not_elem_of_nil.
  - by apply not_elem_of_cons.
Qed.

Lemma split_on_sublist sep l P : Forall P l → Forall (Forall P) (split_on sep l).
Proof.
  induction 1 as [|c l Hc Hl IH]; cbn; [by repeat constructor |].
  destruct (split_on_cons sep l) as (p & ps & E). rewrite E in *.
  inversion IH; subst. case_match; repeat constructor; auto.
Qed.

(** [trim_end] and [trim]. *)
Definition trim_end (cs : list Z) : list Z :=
  reverse (drop_while is_whitespace (reverse cs)).
Definition trim (cs : list Z) : list Z := trim_end (drop_while is_whitespace cs).

(** The first piece of [value.split(sep).next()]. *)
Definition before_sep (sep : Z) (l : list Z) : list Z :=
  take_while (λ c, negb (c =? sep)) l.

Lemma before_sep_split sep l : head (split_on sep l) = Some (before_sep sep l).
Proof.
  unfold before_sep. induction l as [|c l IH]; cbn; [done |].
  destruct (split_on_cons sep l) as (p & ps & E). rewrite E in *. cbn in IH.
  case_match; cbn; congruence.
Qed.

(** [name.rsplit_once(sep)]: the parts around the last separator. *)
Fixpoint rsplit_once (sep : Z) (l : list Z) : option (list Z * list Z) :=
  match l with
  | [] => None
  | c :: l' =>
    match rsplit_once sep l' with
    | Some (a, b) => Some (c :: a, b)
    | None => if c =? sep then Some ([], l') else None
    end
  end.

Lemma rsplit_once_Some sep l a b :
  rsplit_once sep l = Some (a, b) → l = a ++ sep :: b ∧ sep ∉ b.
Proof.
  revert a b. induction l as [|c l IH]; cbn; intros a b; [done |].
  destruct (rsplit_once sep l) as [[a' b']|] eqn:E.
  - intros [= <- <-]. destruct (IH a' b' eq_refl) as [-> ?]. done.
  - case_match; [|done]. intros [= <- <-]. bool_to_prop; subst. split; [done |].
    clear -E. induction l as [|d l IH]; [apply not_elem_of_nil |].
    cbn in E. destruct (rsplit_once sep l) as [[? ?]|]; [done |].
    case_match; [done |]. bool_to_prop. apply not_elem_of_cons. auto.
Qed.

(** [split_once(sep)]. *)
Fixpoint split_once (sep : Z) (l : list Z) : option (list Z * list Z) :=
  match l with
  | [] => None
  | c :: l' =>
    if c =? sep then Some ([], l')
    else match split_once sep l' with
         | Some (a, b) => Some (c :: a, b)
         | None => None
         end
  end.

Lemma split_once_Some sep l a b :
  split_once sep l = Some (a, b) → l = a ++ sep :: b ∧ sep ∉ a.
Proof.
  revert a b. induction l as [|c l IH]; cbn; intros a b; [done |].
  case_match; bool_to_prop.
  - intros [= <- <-]. subst. split; [done | apply not_elem_of_nil].
  - destruct (split_once sep l) as [[a' b']|]; [|done]. intros [= <- <-].
    destruct (IH a' b' eq_refl) as [-> ?]. split; [done |]. by apply not_elem_of_cons.
Qed.

(** [strip_prefix] and [starts_with]. *)
Fixpoint strip_prefix (p l : list Z) : option (list Z) :=
  match p, l with
  | [], _ => Some l
  | c :: p, d :: l => if c =? d then strip_prefix p l else None
  | _ :: _, [] => None
  end.

Lemma strip_prefix_Some p l r : strip_prefix p l = Some r ↔ l = p ++ r.
Proof.
  revert l. induction p as [|c p IH]; intros l; cbn; [naive_solver |].
  destruct l as [|d l]; [naive_solver |].
  case_match; bool_to_prop; subst; [rewrite IH |]; naive_solver.
Qed.

(** ** Decimal numbers: [str::parse::<u64>] on the bytes

    An optional [+] sign, at least one digit, the value within [max]. *)

Fixpoint parse_digits (max acc : Z) (l : list Z) : option Z :=
  match l with
  | [] => Some acc
  | b :: l =>
    if is_ascii_digit b then
      let acc' := acc * 10 + (b - 48) in
      if max <? acc' then None else parse_digits max acc' l
    else None
  end.

Definition parse_unsigned (max : Z) (l : list Z) : option Z :=
  match l with
  | [] => None
  | [43] => None
  | 43 :: l => parse_digits max 0 l
  | _ => parse_digits max 0 l
  end.

Lemma parse_digits_bound max acc l n :
  0 ≤ acc ≤ max → parse_digits max acc l = Some n → 0 ≤ n ≤ max.
Proof.
  revert acc. induction l as [|b l IH]; cbn; intros acc Hacc; [naive_solver |].
  unfold is_ascii_digit. case_match; [|done]. case_match; [done |].
  bool_to_prop. apply IH. lia.
Qed.

Lemma parse_unsigned_bound max l n :
  0 ≤ max → parse_unsigned max l = Some n → 0 ≤ n ≤ max.
Proof.
  intros Hmax. unfold parse_unsigned.
  repeat case_match; try done; subst; apply parse_digits_bound; lia.
Qed.

(** Decimal printing, as [format!("{number}")]. *)
Fixpoint digits_fuel (fuel : nat) (n : Z) (acc : list Z) : list Z :=
  match fuel with
  | O => acc
  | S fuel =>
    let acc := (48 + n mod 10) :: acc in
    if n <? 10 then acc else digits_fuel fuel (n / 10) acc
  end.

(** Twenty decimal digits hold every [u64]. *)
Definition decimal (n : Z) : list Z := digits_fuel 20 n [].

(** Decimal printing is injective, of digits only, and as long as the number. *)
Definition digits_value (l : list Z) : Z := foldl (λ acc b, acc * 10 + (b - 48)) 0 l.

Lemma digits_value_app l k :
  digits_value (l ++ k) = foldl (λ acc b, acc * 10 + (b - 48)) (digits_value l) k.
Proof. apply foldl_app. Qed.

Lemma digits_fuel_spec fuel n acc :
  0 ≤ n < 10 ^ Z.of_nat fuel →
  ∃ ds, digits_fuel fuel n acc = ds ++ acc ∧ digits_value ds = n
    ∧ Forall (λ b, is_ascii_digit b = true) ds
    ∧ ∀ k, 0 < k → n < 10 ^ k → zlength ds ≤ k.
Proof.
  revert n acc. induction fuel as [|fuel IH]; intros n acc Hn.
  { change (10 ^ Z.of_nat 0) with 1 in Hn. exists []. cbn. split_and!; [done | cbn; lia | constructor |].
    intros. unfold zlength. cbn. lia. }
  rewrite Nat2Z.inj_succ, Z.pow_succ_r in Hn by lia. cbn [digits_fuel].
  pose proof (Z.div_mod n 10 ltac:(lia)) as Hdm. pose proof (Z.mod_pos_bound n 10 ltac:(lia)).
  assert (is_ascii_digit (48 + n mod 10) = true) as Hdigit.
  { unfold is_ascii_digit. apply andb_true_iff. rewrite !Z.leb_le. lia. }
  destruct (Z.ltb_spec n 10).
  - exists [48 + n mod 10]. split_and!; [done | cbn; rewrite Z.mod_small by lia; lia | by constructor |].
    intros. unfold zlength. cbn. lia.
  - destruct (IH (n / 10) ((48 + n mod 10) :: acc)) as (ds & -> & Hv & Hd & Hl).
    { split; [apply Z.div_pos; lia | apply Z.div_lt_upper_bound; lia]. }
    exists (ds ++ [48 + n mod 10]). split_and!.
    + by rewrite <- app_assoc.
    + rewrite digits_value_app, Hv. cbn. lia.
    + apply Forall_app. by split; [| constructor].
    + intros k Hk Hnk. rewrite zlength_app. change (zlength [_]) with 1.
      destruct (decide (k = 1)) as [->|]; [lia |].
      specialize (Hl (k - 1) ltac:(lia)).
      assert (n / 10 < 10 ^ (k - 1)); [| lia]. apply Z.div_lt_upper_bound; [lia |].
      rewrite <- Z.pow_succ_r by lia. by replace (Z.succ (k - 1)) with k by lia.
Qed.

Lemma decimal_spec n : 0 ≤ n < 10 ^ 20 →
  digits_value (decimal n) = n ∧ Forall (λ b, is_ascii_digit b = true) (decimal n)
  ∧ ∀ k, 0 < k → n < 10 ^ k → zlength (decimal n) ≤ k.
Proof.
  intros Hn. destruct (digits_fuel_spec 20 n [] Hn) as (ds & Hd & ?).
  unfold decimal. rewrite Hd, app_nil_r. done.
Qed.

Lemma decimal_inj n m : 0 ≤ n < 10 ^ 20 → 0 ≤ m < 10 ^ 20 → decimal n = decimal m → n = m.
Proof.
  intros Hn Hm Heq. destruct (decimal_spec n Hn) as [<- _]. destruct (decimal_spec m Hm) as [<- _].
  by rewrite Heq.
Qed.

(** What follows the last separator is determined. *)
Lemma last_sep_inj {A} (x : A) a b c d :
  a ++ x :: b = c ++ x :: d → x ∉ b → x ∉ d → b = d.
Proof.
  intros Heq Hb Hd. apply (f_equal reverse) in Heq.
  rewrite !reverse_app, !reverse_cons, <- !app_assoc in Heq. cbn in Heq.
  assert (∀ (l k l' k' : list A), l ++ x :: l' = k ++ x :: k' → x ∉ l → x ∉ k → l = k) as Hinj.
  { induction l as [|y l IH]; intros [|z k] l' k'; cbn; intros E Hl Hk; [done | ..].
    - injection E as -> _. rewrite not_elem_of_cons in Hk. naive_solver.
    - injection E as -> _. rewrite not_elem_of_cons in Hl. naive_solver.
    - injection E as -> E. rewrite not_elem_of_cons in Hl, Hk. f_equal. naive_solver. }
  apply Hinj in Heq; [by apply (inj reverse) | by rewrite elem_of_reverse..].
Qed.

(** [text.contains(needle)]. *)
Fixpoint contains (needle l : list Z) : bool :=
  bool_decide (is_Some (strip_prefix needle l)) || match l with [] => false | _ :: l => contains needle l end.
