(* ===== verification/Protocol.v ===== *)
(** * The phone protocol and the sequence state

    [flowtype-core/src/lib.rs], [protocol.rs] and [session.rs]: the messages
    between the phone and the PC, their validation, and the classification of
    an incoming snapshot against the last applied one. JSON (serde) is not
    modelled: a message is the value it decodes to. *)

From S2P Require Import Prelude Text.

(** [core/lib.rs PROTOCOL_VERSION] *)
Definition PROTOCOL_VERSION : Z := 2.
(** [core/lib.rs INJECTOR_IPC_VERSION] *)
Definition INJECTOR_IPC_VERSION : Z := 6.
(** [core/lib.rs TIP_IPC_VERSION] *)
Definition TIP_IPC_VERSION : Z := 8.
(** [core/lib.rs MAX_MESSAGE_BYTES] *)
Definition MAX_MESSAGE_BYTES : Z := 1024 * 1024.

(** ** Messages from the phone *)

(** [core/protocol.rs Snapshot] *)
Record Snapshot := mkSnapshot {
  snap_protocol_version : Z;
  snap_phone_id : string;
  snap_session_id : string;
  snap_sequence : Z;
  snap_full_text : string;
  snap_replaces_session_id : option string;
  snap_attach_existing : bool;
}.

(** [core/protocol.rs ClientSessionState] *)
Inductive ClientSessionState := ClientActive | ClientFinishing.

(** [core/protocol.rs Resume] *)
Record Resume := mkResume {
  resume_protocol_version : Z;
  resume_phone_id : string;
  resume_session_id : string;
  resume_last_ack_sequence : Z;
  resume_sequence : Z;
  resume_full_text : string;
  resume_session_state : ClientSessionState;
}.

(** [core/protocol.rs Cancel] *)
Record Cancel := mkCancel {
  cancel_protocol_version : Z;
  cancel_phone_id : string;
  cancel_session_id : string;
}.

(** [core/protocol.rs Probe] *)
Record Probe := mkProbe {
  probe_protocol_version : Z;
  probe_phone_id : string;
}.

(** [core/protocol.rs HealthCheck] *)
Record HealthCheck := mkHealthCheck {
  health_protocol_version : Z;
  health_phone_id : string;
}.

(** [core/protocol.rs SwitchAck] *)
Record SwitchAck := mkSwitchAck {
  switch_protocol_version : Z;
  switch_request_id : string;
  switch_pc_id : string;
  switch_accepted : bool;
}.

(** [core/protocol.rs ClientMessage] *)
Inductive ClientMessage :=
| CmStart (s : Snapshot)
| CmUpdate (s : Snapshot)
| CmFinish (s : Snapshot)
| CmResume (r : Resume)
| CmCancel (c : Cancel)
| CmProbe (p : Probe)
| CmHealthCheck (h : HealthCheck)
| CmSwitchAck (a : SwitchAck).

(** ** Messages to the phone *)

(** [core/protocol.rs ServerSessionState] *)
Inductive ServerSessionState := ServerActive | ServerFinished.
(** [core/protocol.rs ProbeState] *)
Inductive ProbeState := ProbeReady | ProbeUnsupported | ProbeInvalid.
(** [core/protocol.rs TargetState] *)
Inductive TargetState := TargetActive | TargetNotForegroundState | TargetInvalidState.

(** [core/protocol.rs ErrorCode] *)
Inductive ErrorCode :=
| AuthFailed | SessionBusy | SessionUnknown | SessionFinishedCode
| SequenceConflictCode | TextTooLarge | TargetUnavailable | TargetInvalidCode
| TargetModifiedCode | TargetSubmittedCode | InjectorUnavailable
| RecoveryRequired | InjectionUnknownCode | InvalidMessage | UnsupportedProtocolCode.

(** [core/protocol.rs Ack] *)
Record Ack := mkAck {
  ack_protocol_version : Z;
  ack_session_id : string;
  ack_applied_sequence : Z;
  ack_session_state : ServerSessionState;
}.

(** [core/protocol.rs Target] *)
Record Target := mkTarget {
  target_protocol_version : Z;
  target_session_id : string;
  target_state : TargetState;
  target_name : option string;
}.

(** [core/protocol.rs SwitchComputer] *)
Record SwitchComputer := mkSwitchComputer {
  sc_protocol_version : Z;
  sc_pc_id : string;
  sc_pc_name : string;
  sc_request_id : string;
}.

(** [core/protocol.rs ProbeResult] *)
Record ProbeResult := mkProbeResult {
  pr_protocol_version : Z;
  pr_target_state : ProbeState;
  pr_target_name : option string;
  pr_activity_age_ms : option Z;
}.

(** [core/protocol.rs HealthAck] *)
Record HealthAck := mkHealthAck { ha_protocol_version : Z }.

(** [core/protocol.rs ProtocolError] *)
Record ProtocolError := mkProtocolError {
  pe_protocol_version : Z;
  pe_code : ErrorCode;
  pe_session_id : option string;
}.

(** [core/protocol.rs ServerMessage] *)
Inductive ServerMessage :=
| SmAck (a : Ack)
| SmTarget (t : Target)
| SmSwitchComputer (s : SwitchComputer)
| SmProbeResult (p : ProbeResult)
| SmHealthAck (h : HealthAck)
| SmError (e : ProtocolError).

(** ** Validation *)

(** [core/protocol.rs ValidationError] *)
Inductive ValidationError :=
| UnsupportedProtocol | MissingIdentifier | InvalidSequence | MessageTooLarge.

(** [core/protocol.rs Snapshot::validate] *)
Definition Snapshot_validate (self : Snapshot) : result ValidationError unit :=
  _ ← guard_err (negb (snap_protocol_version self =? PROTOCOL_VERSION)) UnsupportedProtocol;
  _ ← guard_err (str_is_empty (snap_phone_id self) || str_is_empty (snap_session_id self))
        MissingIdentifier;
  _ ← guard_err
        (match snap_replaces_session_id self with
         | Some replaced =>
           str_is_empty replaced || bool_decide (replaced = snap_session_id self)
         | None => false
         end) MissingIdentifier;
  _ ← guard_err (snap_sequence self <=? 0) InvalidSequence;
  _ ← guard_err (MAX_MESSAGE_BYTES <? str_len (snap_full_text self)) MessageTooLarge;
  Ok tt.

(** [core/protocol.rs Resume::validate] *)
Definition Resume_validate (self : Resume) : result ValidationError unit :=
  _ ← guard_err (negb (resume_protocol_version self =? PROTOCOL_VERSION)) UnsupportedProtocol;
  _ ← guard_err (str_is_empty (resume_phone_id self) || str_is_empty (resume_session_id self))
        MissingIdentifier;
  _ ← guard_err
        ((resume_sequence self <=? 0) || (resume_last_ack_sequence self <? 0)
         || (resume_sequence self <? resume_last_ack_sequence self)) InvalidSequence;
  _ ← guard_err (MAX_MESSAGE_BYTES <? str_len (resume_full_text self)) MessageTooLarge;
  Ok tt.

(** [core/protocol.rs Cancel::validate] *)
Definition Cancel_validate (self : Cancel) : result ValidationError unit :=
  _ ← guard_err (negb (cancel_protocol_version self =? PROTOCOL_VERSION)) UnsupportedProtocol;
  _ ← guard_err (str_is_empty (cancel_phone_id self) || str_is_empty (cancel_session_id self))
        MissingIdentifier;
  Ok tt.

(** [core/protocol.rs Probe::validate] *)
Definition Probe_validate (self : Probe) : result ValidationError unit :=
  _ ← guard_err (negb (probe_protocol_version self =? PROTOCOL_VERSION)) UnsupportedProtocol;
  _ ← guard_err (str_is_empty (probe_phone_id self)) MissingIdentifier;
  Ok tt.

(** [core/protocol.rs HealthCheck::validate] *)
Definition HealthCheck_validate (self : HealthCheck) : result ValidationError unit :=
  _ ← guard_err (negb (health_protocol_version self =? PROTOCOL_VERSION)) UnsupportedProtocol;
  _ ← guard_err (str_is_empty (health_phone_id self)) MissingIdentifier;
  Ok tt.

(** [core/protocol.rs SwitchAck::validate] *)
Definition SwitchAck_validate (self : SwitchAck) : result ValidationError unit :=
  _ ← guard_err (negb (switch_protocol_version self =? PROTOCOL_VERSION)) UnsupportedProtocol;
  _ ← guard_err (str_is_empty (switch_request_id self) || str_is_empty (switch_pc_id self))
        MissingIdentifier;
  Ok tt.

(** ** The last applied state *)

(** [core/session.rs AppliedState] *)
Record AppliedState := mkAppliedState {
  as_sequence : Z;
  as_text : string;
  as_finished : bool;
}.

(** [core/session.rs IncomingDisposition] *)
Inductive IncomingDisposition := Apply | Duplicate | Stale | Conflict | Finished.
#[export] Instance IncomingDisposition_eq_dec : EqDecision IncomingDisposition.
Proof. solve_decision. Defined.

(** [core/session.rs AppliedState::new] *)
Definition AppliedState_new (sequence : Z) (text : string) : AppliedState :=
  {| as_sequence := sequence; as_text := text; as_finished := false |}.

(** [core/session.rs AppliedState::classify] *)
Definition classify (self : AppliedState) (sequence : Z) (text : string) : IncomingDisposition :=
  if as_finished self then Finished
  else if sequence <? as_sequence self then Stale
  else if sequence =? as_sequence self then
    if bool_decide (text = as_text self) then Duplicate else Conflict
  else Apply.

(** [core/session.rs AppliedState::mark_applied] *)
Definition mark_applied (self : AppliedState) (sequence : Z) (text : string)
    (finished : bool) : AppliedState :=
  {| as_sequence := sequence; as_text := text; as_finished := finished |}.

(** ** Properties of validation *)

Lemma str_is_empty_true s : str_is_empty s = true ↔ s = EmptyString.
Proof. apply bool_decide_eq_true. Qed.
Lemma str_is_empty_false s : str_is_empty s = false ↔ s ≠ EmptyString.
Proof. apply bool_decide_eq_false. Qed.

(** What a well-formed snapshot is, field by field. *)
Definition snapshot_ok (s : Snapshot) : Prop :=
  snap_protocol_version s = PROTOCOL_VERSION ∧
  snap_phone_id s ≠ EmptyString ∧ snap_session_id s ≠ EmptyString ∧
  (∀ r, snap_replaces_session_id s = Some r → r ≠ EmptyString ∧ r ≠ snap_session_id s) ∧
  0 < snap_sequence s ∧ str_len (snap_full_text s) ≤ MAX_MESSAGE_BYTES.

Definition resume_ok (r : Resume) : Prop :=
  resume_protocol_version r = PROTOCOL_VERSION ∧
  resume_phone_id r ≠ EmptyString ∧ resume_session_id r ≠ EmptyString ∧
  0 ≤ resume_last_ack_sequence r ≤ resume_sequence r ∧ 0 < resume_sequence r ∧
  str_len (resume_full_text r) ≤ MAX_MESSAGE_BYTES.

Ltac solve_validate :=
  unfold guard_err, str_is_empty in *; cbn in *;
  repeat first [ progress simplify_eq/= | progress bool_to_prop | case_match
               | match goal with H : _ ∨ _ |- _ => destruct H end ];
  try (repeat split; intros; simplify_eq; (done || lia)).

Lemma Snapshot_validate_ok s : Snapshot_validate s = Ok tt ↔ snapshot_ok s.
Proof.
  unfold Snapshot_validate, snapshot_ok. split.
  - intros H. solve_validate.
  - intros (? & ? & ? & Hr & ? & ?).
    unfold guard_err, str_is_empty. repeat (rewrite bool_decide_eq_false_2 by done).
    rewrite (proj2 (Z.eqb_eq _ _)), (proj2 (Z.leb_gt _ _)), (proj2 (Z.ltb_ge _ _)) by lia.
    cbn. destruct (snap_replaces_session_id s) as [r|]; [|done].
    destruct (Hr r eq_refl). by rewrite !bool_decide_eq_false_2 by done.
Qed.

Lemma Resume_validate_ok r : Resume_validate r = Ok tt ↔ resume_ok r.
Proof.
  unfold Resume_validate, resume_ok. split.
  - intros H. solve_validate.
  - intros (? & ? & ? & ? & ? & ?).
    unfold guard_err, str_is_empty. repeat (rewrite bool_decide_eq_false_2 by done).
    rewrite (proj2 (Z.eqb_eq _ _)), (proj2 (Z.leb_gt _ _)), !(proj2 (Z.ltb_ge _ _)) by lia.
    done.
Qed.

(** A snapshot validates exactly when its version is the protocol's, its
    identifiers are present, the session it replaces is another named one, its
    sequence is positive and its text fits a message; and a text that is too
    long is reported only when every other field is in order, a bad sequence
    only when version and identifiers are. *)
Theorem snapshot_validate_spec s :
  (Snapshot_validate s = Ok tt ↔ snapshot_ok s) ∧
  (Snapshot_validate s = Err UnsupportedProtocol ↔ snap_protocol_version s ≠ PROTOCOL_VERSION) ∧
  (Snapshot_validate s = Err MessageTooLarge →
     snap_phone_id s ≠ EmptyString ∧ snap_session_id s ≠ EmptyString ∧ 0 < snap_sequence s
     ∧ MAX_MESSAGE_BYTES < str_len (snap_full_text s)) ∧
  (Snapshot_validate s = Err InvalidSequence →
     snap_phone_id s ≠ EmptyString ∧ snap_session_id s ≠ EmptyString ∧ snap_sequence s ≤ 0).
Proof.
  split; [apply Snapshot_validate_ok |].
  unfold Snapshot_validate. repeat split; intros; solve_validate.
Qed.

(** ** Properties of the sequence state *)

(** A receiver: apply what [classify] says to apply, ignore the rest. *)
Definition receive (st : AppliedState) (m : Z * string * bool) : AppliedState :=
  let '(sequence, text, finished) := m in
  match classify st sequence text with
  | Apply => mark_applied st sequence text finished
  | _ => st
  end.

Lemma receive_step st m :
  as_sequence st ≤ as_sequence (receive st m) ∧
  (as_finished st = true → receive st m = st) ∧
  (as_sequence (receive st m) = as_sequence st → receive st m = st).
Proof.
  destruct m as [[sq t] f]. unfold receive, classify, mark_applied.
  destruct st as [s0 t0 f0]; cbn. destruct f0; cbn; [split_and!; intros; lia || done |].
  repeat case_match; bool_to_prop; cbn in *; split_and!; intros; try done; lia.
Qed.

(** However snapshots arrive (repeated, reordered, conflicting), a receiver
    that follows [classify] never moves its sequence backwards, never changes
    the text under a sequence it already accepted, and never changes a
    finished session. *)
Theorem classify_run_safe st ms :
  let st' := foldl receive st ms in
  as_sequence st ≤ as_sequence st' ∧
  (as_sequence st' = as_sequence st → st' = st) ∧
  (as_finished st = true → st' = st).
Proof.
  cbn. revert st. induction ms as [|m ms IH]; intros st; cbn; [done |].
  destruct (IH (receive st m)) as (H1 & H2 & H3).
  destruct (receive_step st m) as (R1 & R2 & R3).
  split_and!; [lia | |].
  - intros E. assert (as_sequence (receive st m) = as_sequence st) as E' by lia.
    rewrite (R3 E') in *. auto.
  - intros F. rewrite (R2 F) in *. auto.
Qed.
