(* ===== verification/Ipc.v ===== *)
(** * The app-injector pipe

    [flowtype-core/src/ipc.rs]: the requests and responses between the desktop
    app and the elevated injector, and the length-prefixed framing shared by
    both pipes. The encoder of a message (serde_json) is a parameter; its
    round trip is the hypothesis of the framing theorem. *)

From S2P Require Import Prelude Text Protocol.

(** [core/ipc.rs InjectorRequest] *)
Inductive InjectorRequest :=
| ReqHello
| BeginSession (session_id : string) (replaces_session_id : option string)
    (sequence : Z) (full_text : string) (attach_existing : bool)
| ApplyState (session_id : string) (sequence : Z) (full_text : string)
| FinishSession (session_id : string) (sequence : Z)
| QuerySession (session_id : string)
| ProbeTarget
| CancelInvalidSession (session_id : string).

(** [core/ipc.rs InjectorResponse] *)
Inductive InjectorResponse :=
| RespHello (ipc_version : Z) (instance_id executable_path : string) (elevated : bool)
| SessionBegun (target_name : string)
| RespApplied (sequence : Z)
| RespFinished (sequence : Z)
| SessionActive (session_id : string) (sequence : Z) (full_text : string)
| SessionFinished (session_id : string) (sequence : Z) (full_text : string)
| SessionMissing
| TargetReady (target_name : string) (activity_age_ms : Z)
| RespCancelled
| TargetNotForeground (target_name : string)
| TargetInvalid
| TargetModified
| TargetSubmitted
| TargetUnsupported
| TsfUnavailable
| InjectionUnknown
| InvalidRequest.
#[export] Instance InjectorResponse_eq_dec : EqDecision InjectorResponse.
Proof. solve_decision. Defined.

(** Causes of an [io::Error] of the framing. *)
Inductive io_error := TooLarge | UnexpectedEof | BadPayload.

Section framing.
Context {A : Type} (encode : A → list Z) (decode : list Z → option A).

(** [read_exact]: the next [n] bytes of the stream and the rest. *)
Definition read_exact (n : nat) (stream : list Z) : result io_error (list Z * list Z) :=
  if decide (length stream < n)%nat then Err UnexpectedEof
  else Ok (take n stream, drop n stream).

(** [core/ipc.rs write_message] The stream after the write. *)
Definition write_message (stream : list Z) (message : A) : result io_error (list Z) :=
  let payload := encode message in
  if MAX_MESSAGE_BYTES <? zlength payload then Err TooLarge
  else Ok (stream ++ to_le_bytes 4 (zlength payload) ++ payload).

(** [core/ipc.rs read_message] The message and what is left of the stream. *)
Definition read_message (stream : list Z) : result io_error (A * list Z) :=
  '(header, stream) ← read_exact 4 stream;
  let length := from_le_bytes header in
  if MAX_MESSAGE_BYTES <? length then Err TooLarge else
  '(payload, stream) ← read_exact (Z.to_nat length) stream;
  match decode payload with
  | Some message => Ok (message, stream)
  | None => Err BadPayload
  end.

Lemma read_exact_app n l r : length l = n → read_exact n (l ++ r) = Ok (l, r).
Proof.
  intros <-. unfold read_exact. rewrite decide_False by (rewrite length_app; lia).
  by rewrite take_app_length, drop_app_length.
Qed.

Lemma read_message_frame payload rest :
  zlength payload ≤ MAX_MESSAGE_BYTES →
  read_message (to_le_bytes 4 (zlength payload) ++ payload ++ rest) =
  match decode payload with
  | Some message => Ok (message, rest)
  | None => Err BadPayload
  end.
Proof.
  intros Hlen. unfold read_message.
  rewrite (read_exact_app 4) by apply to_le_bytes_length. cbn [mbind result_bind].
  rewrite from_to_le_bytes.
  2:{ pose proof (zlength_nonneg payload). unfold MAX_MESSAGE_BYTES in Hlen.
      change (256 ^ Z.of_nat 4) with 4294967296. lia. }
  rewrite (proj2 (Z.ltb_ge _ _)) by lia.
  rewrite read_exact_app by (unfold zlength; lia). done.
Qed.

(** Frames read one after the other give the messages written one after the other. *)
Fixpoint write_all (stream : list Z) (ms : list A) : result io_error (list Z) :=
  match ms with
  | [] => Ok stream
  | m :: ms => stream ← write_message stream m; write_all stream ms
  end.

Fixpoint read_n (n : nat) (stream : list Z) : result io_error (list A * list Z) :=
  match n with
  | O => Ok ([], stream)
  | S n => '(m, stream) ← read_message stream; '(ms, stream) ← read_n n stream;
           Ok (m :: ms, stream)
  end.

(** The bytes of one message on the wire. *)
Definition frame (m : A) : list Z := to_le_bytes 4 (zlength (encode m)) ++ encode m.

Lemma write_all_frames s ms out :
  write_all s ms = Ok out →
  out = s ++ (ms ≫= frame) ∧ Forall (λ m, zlength (encode m) ≤ MAX_MESSAGE_BYTES) ms.
Proof.
  revert s. induction ms as [|m ms IH]; cbn; intros s.
  { intros [= <-]. by rewrite app_nil_r. }
  unfold write_message. case_match; [done |]. bool_to_prop. cbn. intros Hw.
  apply IH in Hw as [-> Hms]. split; [| by constructor].
  unfold frame. by rewrite <- !app_assoc.
Qed.

Lemma read_n_frames ms rest :
  (∀ m, decode (encode m) = Some m) →
  Forall (λ m, zlength (encode m) ≤ MAX_MESSAGE_BYTES) ms →
  read_n (length ms) ((ms ≫= frame) ++ rest) = Ok (ms, rest).
Proof.
  intros Hdec. induction 1 as [|m ms Hm Hms IH]; cbn [length read_n]; [done |].
  change ((m :: ms) ≫= frame) with (frame m ++ (ms ≫= frame)). unfold frame at 1.
  rewrite <- !app_assoc, read_message_frame, Hdec by done.
  cbn [mbind result_bind]. by rewrite IH.
Qed.

Lemma read_message_size stream m rest :
  read_message stream = Ok (m, rest) →
  ∃ payload, decode payload = Some m ∧ zlength payload ≤ MAX_MESSAGE_BYTES.
Proof.
  unfold read_message, read_exact. intros ([h s1] & H1 & H)%result_bind_Ok.
  case_match; [done |]. bool_to_prop.
  apply result_bind_Ok in H as ([payload s2] & H2 & H).
  repeat case_match; simplify_eq/=. eexists; split; [done |].
  unfold zlength, MAX_MESSAGE_BYTES in *. rewrite length_take. lia.
Qed.
End framing.

(** Messages written to the pipe one after the other are read back in order
    and unchanged, and exactly their bytes are consumed; a payload above the
    limit is refused before anything is written, and a declared length above
    the limit is refused before any payload is read. *)
Theorem framing_roundtrip {A} (encode : A → list Z) (decode : list Z → option A)
    (Hcodec : ∀ m, decode (encode m) = Some m) :
  (∀ stream ms out rest, write_all encode stream ms = Ok out →
     ∃ frames, out = stream ++ frames ∧
       read_n decode (length ms) (frames ++ rest) = Ok (ms, rest)) ∧
  (∀ stream m, MAX_MESSAGE_BYTES < zlength (encode m) →
     write_message encode stream m = Err TooLarge) ∧
  (∀ n payload, MAX_MESSAGE_BYTES < n < 2 ^ 32 →
     read_message decode (to_le_bytes 4 n ++ payload) = Err TooLarge).
Proof.
  split_and!.
  - intros stream ms out rest H. apply write_all_frames in H as [-> Hms].
    exists (ms ≫= frame encode). split; [done |]. by apply read_n_frames.
  - intros stream m H. unfold write_message. by rewrite (proj2 (Z.ltb_lt _ _)).
  - intros n payload Hn. unfold read_message.
    rewrite read_exact_app by apply to_le_bytes_length. cbn [mbind result_bind].
    rewrite from_to_le_bytes by (unfold MAX_MESSAGE_BYTES in Hn; cbn; lia).
    by rewrite (proj2 (Z.ltb_lt _ _)) by lia.
Qed.

(** A codec for the witness: the bytes of a string. *)
Lemma framing_roundtrip_witness :
  (∀ s : string, Some (of_bytes (bytes_of s)) = Some s) ∧
  read_n (Some ∘ of_bytes) 2
    (to_le_bytes 4 2 ++ bytes_of "hi" ++ to_le_bytes 4 3 ++ bytes_of "you" ++ [7])
  = Ok (["hi"; "you"]%string, [7]).
Proof.
  assert (∀ s : string, (Some ∘ of_bytes) (bytes_of s) = Some s) as H
    by (intros s; cbn; by rewrite of_bytes_bytes_of).
  split; [exact H |].
  destruct (framing_roundtrip bytes_of (Some ∘ of_bytes) H) as (H1 & _ & _).
  destruct (H1 [] ["hi"; "you"]%string _ [7] eq_refl) as (fr & E & R).
  vm_compute in E. rewrite <- E in R. exact R.
Defined.
