(* ===== verification/TipModel.v ===== *)
(** * The injector-TIP protocol and the reference session

    [flowtype-core/src/tip.rs]: the commands of the injector to the text
    service loaded in the target application (the TIP), its responses, and
    [TipSessionModel], the reference of what a session does without a host.
    The text service itself is in [TipService], which refines it. *)

From S2P Require Import Prelude Text Protocol.

(** [core/tip.rs TipHello] *)
Record TipHello := mkTipHello {
  hello_ipc_version : Z;
  hello_component_version : string;
  hello_process_id : Z;
  hello_thread_id : Z;
}.

(** [core/tip.rs TipCommand] *)
Inductive TipCommand :=
| TcBegin (session_id : string) (sequence : Z) (full_text : string) (attach_existing : bool)
| TcUpdate (session_id : string) (sequence : Z) (full_text : string)
| TcFinish (session_id : string) (sequence : Z)
| TcCancel (session_id : string)
| TcQuery (session_id : string)
| TcPing.

(** [core/tip.rs TipResponse] *)
Inductive TipResponse :=
| TrReady
| TrBegun (session_id : string)
| TrApplied (session_id : string) (sequence : Z)
| TrFinished (session_id : string) (sequence : Z)
| TrCancelled (session_id : string)
| TrNoFocus
| TrSessionMismatch
| TrSequenceConflict
| TrCompositionTerminated
| TrSessionActive (session_id : string) (sequence : Z)
| TrRebindRejected
| TrEditRejected.
#[export] Instance TipResponse_eq_dec : EqDecision TipResponse.
Proof. solve_decision. Defined.

(** [core/tip.rs TipSessionModel] *)
Record TipSessionModel := mkTipSessionModel {
  tm_session_id : option string;
  tm_sequence : Z;
  tm_text : string;
  tm_composition_ended : bool;
  tm_target_modified : bool;
}.

Definition TipSessionModel_default : TipSessionModel :=
  mkTipSessionModel None 0 EmptyString false false.

(** [core/tip.rs TipSessionModel::begin] *)
Definition tm_begin (self : TipSessionModel) (session_id : string) (sequence : Z)
    (full_text : string) : TipSessionModel * result TipResponse unit :=
  if bool_decide (tm_session_id self = Some session_id) then
    (self, if tm_target_modified self then Err TrCompositionTerminated else Ok tt)
  else
    match tm_session_id self with
    | Some _ => (self, Err TrSessionMismatch)
    | None => (mkTipSessionModel (Some session_id) sequence full_text false false, Ok tt)
    end.

(** [core/tip.rs TipSessionModel::update] *)
Definition tm_update (self : TipSessionModel) (session_id : string) (sequence : Z)
    (full_text : string) : TipSessionModel * result TipResponse bool :=
  if negb (bool_decide (tm_session_id self = Some session_id)) then
    (self, Err TrSessionMismatch)
  else if tm_target_modified self then (self, Err TrCompositionTerminated)
  else if sequence <? tm_sequence self then (self, Ok false)
  else if sequence =? tm_sequence self then
    (self, if bool_decide (tm_text self = full_text) then Ok false
           else Err TrSequenceConflict)
  else
    (mkTipSessionModel (tm_session_id self) sequence full_text
       (tm_composition_ended self) (tm_target_modified self), Ok true).

(** [core/tip.rs TipSessionModel::terminate] *)
Definition tm_terminate (self : TipSessionModel) : TipSessionModel :=
  mkTipSessionModel (tm_session_id self) (tm_sequence self) (tm_text self)
    (tm_composition_ended self) true.

(** [core/tip.rs TipSessionModel::end_composition] *)
Definition tm_end_composition (self : TipSessionModel) : TipSessionModel :=
  mkTipSessionModel (tm_session_id self) (tm_sequence self) (tm_text self)
    true (tm_target_modified self).

(** [core/tip.rs TipSessionModel::clear] *)
Definition tm_clear (self : TipSessionModel) : TipSessionModel := TipSessionModel_default.

(** [core/tip.rs TipSessionModel::finish] *)
Definition tm_finish (self : TipSessionModel) (session_id : string) (sequence : Z)
    : TipSessionModel * result TipResponse unit :=
  if negb (bool_decide (tm_session_id self = Some session_id))
     || negb (tm_sequence self =? sequence) then (self, Err TrSessionMismatch)
  else if tm_target_modified self then (self, Err TrCompositionTerminated)
  else (tm_clear self, Ok tt).

(** [core/tip.rs TipSessionModel::cancel] *)
Definition tm_cancel (self : TipSessionModel) (session_id : string)
    : TipSessionModel * result TipResponse unit :=
  if negb (bool_decide (tm_session_id self = Some session_id)) then
    (self, Err TrSessionMismatch)
  else (tm_clear self, Ok tt).
