(* ===== verification/TipService.v ===== *)
(** * The text service (TIP)

    [flowtype-tip/src/composition.rs], [service.rs] and [host.rs]: the COM text
    service that runs in the target application. [CompositionState] is the
    session kept beside the host's document, [EditSession] the edits made under
    a TSF document lock, [Controller] the commands of the injector.

    The Text Services Framework and the Scintilla editor are not code of the
    repository: they are the class [TsfHost], an arbitrary host state with the
    calls the code makes. A call may fail, may change the host in any way and
    may deliver the callbacks the service registered ([OnEndEdit],
    [OnCompositionTerminated]); the callbacks run the code's own handlers
    before the call returns, as COM delivers them. The text of every
    successful write ([SetText]) is recorded in [ts_writes]; nothing reads it. *)

From S2P Require Import Prelude Text TipModel.

(** Interfaces a context is cast to. *)
Inductive tsf_interface := ITfSource | ITfInsertAtSelection | ITfContextComposition.

(** The callbacks a host can deliver, with their argument. *)
Inductive tsf_callback (C : Type) :=
| OnEndEdit (context : C)
| OnCompositionTerminated.
Arguments OnEndEdit {C} context.
Arguments OnCompositionTerminated {C}.

(** Scintilla messages of [host.rs]. *)
Inductive sci_message :=
| SCI_INSERTTEXT (pos : Z) (text : list Z)
| SCI_GETCHARAT (pos : Z)
| SCI_GETCURRENTPOS
| SCI_GETANCHOR
| SCI_GOTOPOS (pos : Z)
| SCI_DELETERANGE (start len : Z).

(** What the code calls of TSF and of the focused editor window. [None] is a
    failing HRESULT. Reads do not change the host. *)
Class TsfHost (H C R K : Type) := {
  tsf_context_eq :: EqDecision C;
  (* reads *)
  is_thread_focus : H → Z → option bool;
  focus_top_context : H → Z → option C;
  cast_ok : H → C → tsf_interface → bool;
  get_selection : H → C → option R;
  get_text : H → R → Z → option (list Z);
  is_empty : H → R → option bool;
  compare_start_to_end : H → R → R → option Z;
  acp_extent : H → R → option (option (Z * Z));
  get_focus_window : H → option Z;
  window_class : H → Z → string;
  (* calls *)
  advise_sink : H → C → H * option Z;
  unadvise_sink : H → Z → H;
  request_sync_lock : H → C → Z → H * option unit;
  release_lock : H → C → H;
  request_async_session : H → C → Z → H * option unit;
  insert_query_only : H → C → H * option R;
  clone_range : H → R → H * option R;
  set_gravity : H → R → H * option unit;
  acp_set_extent : H → R → Z → Z → H * option unit;
  shift_start : H → R → Z → H * option Z;
  start_composition : H → C → R → H * option K;
  end_composition : H → K → H * option unit;
  set_text : H → R → list Z → H * option unit;
  collapse_to_end : H → R → H * option unit;
  set_selection : H → C → R → H * option unit;
  sci_send : H → Z → sci_message → H * Z;
  create_message_window : H → H * option Z;
  destroy_window : H → Z → H;
  start_worker : H → Z → H * Z;
  stop_worker : H → Z → H;
  (* callbacks due after a call *)
  take_callbacks : H → list (tsf_callback C) * H;
}.

Section service.
Context {H C R K : Type} `{Host : TsfHost H C R K}.

(** ** State *)

(** [tip/composition.rs CompositionState] *)
Record CompositionState := mkCompositionState {
  cs_session_id : option string;
  cs_sequence : Z;
  cs_text : string;
  cs_context : option C;
  cs_composition : option K;
  cs_range : option R;
  cs_edit_sink : option Z;
  cs_applying_remote_edit : bool;
  cs_terminated : bool;
  cs_target_modified : bool;
}.

(** [tip/composition.rs:30-45 CompositionState::default] *)
Definition CompositionState_default : CompositionState :=
  mkCompositionState None 0 EmptyString None None None None false false false.

Definition set_applying (b : bool) (c : CompositionState) : CompositionState :=
  mkCompositionState (cs_session_id c) (cs_sequence c) (cs_text c) (cs_context c)
    (cs_composition c) (cs_range c) (cs_edit_sink c) b (cs_terminated c) (cs_target_modified c).
Definition set_terminated (b : bool) (c : CompositionState) : CompositionState :=
  mkCompositionState (cs_session_id c) (cs_sequence c) (cs_text c) (cs_context c)
    (cs_composition c) (cs_range c) (cs_edit_sink c) (cs_applying_remote_edit c) b
    (cs_target_modified c).
Definition set_target_modified (b : bool) (c : CompositionState) : CompositionState :=
  mkCompositionState (cs_session_id c) (cs_sequence c) (cs_text c) (cs_context c)
    (cs_composition c) (cs_range c) (cs_edit_sink c) (cs_applying_remote_edit c)
    (cs_terminated c) b.
Definition set_edit_sink (s : option Z) (c : CompositionState) : CompositionState :=
  mkCompositionState (cs_session_id c) (cs_sequence c) (cs_text c) (cs_context c)
    (cs_composition c) (cs_range c) s (cs_applying_remote_edit c)
    (cs_terminated c) (cs_target_modified c).
Definition take_composition (c : CompositionState) : CompositionState :=
  mkCompositionState (cs_session_id c) (cs_sequence c) (cs_text c) (cs_context c)
    None (cs_range c) (cs_edit_sink c) (cs_applying_remote_edit c)
    (cs_terminated c) (cs_target_modified c).

(** [tip/composition.rs CompositionState::set_composition] *)
Definition set_composition (k : K) (r : R) (c : CompositionState) : CompositionState :=
  mkCompositionState (cs_session_id c) (cs_sequence c) (cs_text c) (cs_context c)
    (Some k) (Some r) (cs_edit_sink c) (cs_applying_remote_edit c)
    false (cs_target_modified c).

(** [tip/composition.rs CompositionState::applied] *)
Definition cs_applied (sequence : Z) (text : string) (c : CompositionState) : CompositionState :=
  mkCompositionState (cs_session_id c) sequence text (cs_context c)
    (cs_composition c) (cs_range c) (cs_edit_sink c) (cs_applying_remote_edit c)
    (cs_terminated c) (cs_target_modified c).

(** [tip/composition.rs CompositionState::has_composition] *)
Definition has_composition (c : CompositionState) : bool :=
  negb (cs_terminated c) && bool_decide (is_Some (cs_composition c)).

(** The composition state, the host, and the writes made so far. *)
Record tip_state := mkTipState {
  ts_cs : CompositionState;
  ts_host : H;
  ts_writes : list (R * list Z);
}.

Definition with_cs (f : CompositionState → CompositionState) (s : tip_state) : tip_state :=
  mkTipState (f (ts_cs s)) (ts_host s) (ts_writes s).
Definition with_host (h : H) (s : tip_state) : tip_state :=
  mkTipState (ts_cs s) h (ts_writes s).

(** ** The state before the edit: what the service expects of the document *)

(** [tip/composition.rs CompositionState::matches_expected_range]
    The range holds exactly the last applied text and the caret is collapsed
    at its end. *)
Definition matches_expected_range (c : CompositionState) (h : H) (context : C) (range : R)
    : option bool :=
  let expected := utf16_of (cs_text c) in
  actual ← get_text h range (zlength expected + 1);
  if negb (zlength actual =? zlength expected) || negb (bool_decide (actual = expected))
  then Some false
  else
    selected ← get_selection h context;
    empty ← is_empty h selected;
    if negb empty then Some false
    else order ← compare_start_to_end h selected range; Some (order =? 0).

(** [tip/composition.rs CompositionState::matches_expected_edit_state] *)
Definition matches_expected_edit_state (c : CompositionState) (h : H) (context : C)
    : option bool :=
  range ← cs_range c; matches_expected_range c h context range.

(** [tip/composition.rs CompositionState::mark_external_edit] *)
Definition mark_external_edit (s : tip_state) : tip_state :=
  with_cs (set_target_modified true) s.

(** [self.edit_sink.take()] and [UnadviseSink]. The source releases a sink
    without calling it. *)
Definition drop_edit_sink (s : tip_state) : tip_state :=
  match cs_edit_sink (ts_cs s) with
  | Some cookie =>
    mkTipState (set_edit_sink None (ts_cs s)) (unadvise_sink (ts_host s) cookie) (ts_writes s)
  | None => s
  end.

(** [tip/composition.rs CompositionState::mark_terminated] *)
Definition mark_terminated (s : tip_state) : tip_state :=
  drop_edit_sink (with_cs (take_composition ∘ set_terminated true) s).

(** [tip/composition.rs CompositionState::composition_terminated] *)
Definition composition_terminated (s : tip_state) : tip_state :=
  mark_terminated
    (if cs_applying_remote_edit (ts_cs s) then s else mark_external_edit s).

(** [tip/composition.rs CompositionState::clear] *)
Definition cs_clear (s : tip_state) : tip_state :=
  with_cs (λ _, CompositionState_default) (drop_edit_sink s).

(** ** Callbacks *)

(** [tip/composition.rs TextEditSink_Impl::OnEndEdit] [client] is the sink's
    client id. The asynchronous session it requests is run by the host later
    ([run_force_finish]). *)
Definition on_end_edit (client : Z) (context : C) (s : tip_state) : tip_state :=
  let c := ts_cs s in
  if bool_decide (cs_session_id c = None) || cs_applying_remote_edit c
     || cs_terminated c || cs_target_modified c then s
  else if default true (matches_expected_edit_state c (ts_host s) context) then s
  else
    let s := mark_external_edit s in
    if has_composition (ts_cs s) then
      with_host (request_async_session (ts_host s) context client).1 s
    else s.

(** [tip/composition.rs CompositionSink_Impl::OnCompositionTerminated] *)
Definition on_composition_terminated (s : tip_state) : tip_state :=
  composition_terminated s.

Definition run_callback (client : Z) (s : tip_state) (cb : tsf_callback C) : tip_state :=
  match cb with
  | OnEndEdit context => on_end_edit client context s
  | OnCompositionTerminated => on_composition_terminated s
  end.

(** Deliver the callbacks a call left due. *)
Definition deliver (client : Z) (s : tip_state) : tip_state :=
  let '(cbs, h) := take_callbacks (ts_host s) in
  foldl (run_callback client) (with_host h s) cbs.
End service.
Arguments CompositionState : clear implicits.
Arguments tip_state : clear implicits.

(** ** Edit sessions

    [hr A] is code that may fail with an HRESULT and works on the state; a
    host call delivers the callbacks due before the code goes on. *)

Section edit.
Context {H C R K : Type} `{Host : TsfHost H C R K} (client : Z).
Local Abbreviation st := (tip_state H C R K).

Definition hr (A : Type) : Type := st → option A * st.
#[global] Instance hr_ret : MRet hr := λ A a s, (Some a, s).
#[global] Instance hr_bind : MBind hr := λ A B f c s,
  match c s with (Some a, s') => f a s' | (None, s') => (None, s') end.

Definition E_FAIL {A} : hr A := λ s, (None, s).
Definition call {A} (op : H → H * option A) : hr A := λ s,
  let '(h, r) := op (ts_host s) in (r, deliver client (with_host h s)).
Definition query {A} (op : H → option A) : hr A := λ s, (op (ts_host s), s).
Definition modify (f : st → st) : hr unit := λ s, (Some tt, f s).
Definition gets {A} (f : CompositionState C R K → A) : hr A := λ s, (Some (f (ts_cs s)), s).
(** [let _ = c], [c.is_err()]: run and keep going. *)
Definition attempt {A} (c : hr A) : hr (option A) := λ s, let '(r, s) := c s in (Some r, s).
Definition is_Some_b {A} (o : option A) : bool := match o with Some _ => true | None => false end.
Definition fail_if (b : bool) : hr unit := if b then E_FAIL else mret tt.

(** [range.SetText]: a successful write is recorded. *)
Definition write_text (range : R) (text : list Z) : hr unit := λ s,
  let '(h, r) := set_text (ts_host s) range text in
  let s := mkTipState (ts_cs s) h
             (match r with Some _ => ts_writes s ++ [(range, text)] | None => ts_writes s end) in
  (r, deliver client s).

(** [tip/composition.rs EditAction] *)
Inductive EditAction :=
| EditBegin (initial_text : string) (attach_existing : bool)
| EditUpdate (text : string)
| EditFinish
| EditForceFinish.

(** [tip/composition.rs FinishCause] *)
Inductive FinishCause := Phone | Forced.

(** [tip/composition.rs FinishCause::validates_snapshot] *)
Definition validates_snapshot (self : FinishCause) : bool :=
  match self with Phone => true | Forced => false end.

(** [tip/composition.rs set_caret_to_composition_end] *)
Definition set_caret_to_composition_end (context : C) (range : R) : hr unit :=
  caret ← call (λ h, clone_range h range);
  _ ← call (λ h, collapse_to_end h caret);
  call (λ h, set_selection h context caret).

(** [tip/composition.rs current_selection_range] *)
Definition current_selection_range (context : C) : hr R :=
  range ← query (λ h, get_selection h context);
  call (λ h, clone_range h range).

(** [tip/composition.rs utf16_text_matches] *)
Definition utf16_text_matches (expected actual : list Z) (actual_len : Z) : bool :=
  (actual_len =? zlength expected) &&
  ((actual_len <=? zlength actual)
   && bool_decide (take (Z.to_nat actual_len) actual = expected)).

(** [tip/composition.rs match_exact_suffix] The buffer holds one unit more than
    expected; [GetText] fills a prefix of it and reports its length. *)
Definition match_exact_suffix (candidate : R) (expected : list Z) : hr (option R) :=
  text ← attempt (query (λ h, get_text h candidate (zlength expected + 1)));
  match text with
  | None => mret None
  | Some actual =>
    if utf16_text_matches expected actual (zlength actual)
    then mret (Some candidate) else mret None
  end.

(** [tip/composition.rs range_with_exact_suffix] *)
Definition range_with_exact_suffix (range : R) (text : string) : hr (option R) :=
  let expected := utf16_of text in
  let length := zlength expected in
  if 2 ^ 31 - 1 <? length then mret None
  else if length =? 0 then mret None
  else
    empty ← attempt (query (λ h, is_empty h range));
    if negb (bool_decide (empty = Some true)) then mret None
    else
      candidate ← call (λ h, clone_range h range);
      let by_shift : hr (option R) :=
        shifted ← attempt (call (λ h, shift_start h candidate (- length)));
        match shifted with
        | None => mret None
        | Some shifted =>
          if negb (shifted =? - length) then mret None
          else match_exact_suffix candidate expected
        end in
      extent ← (λ s : st, (Some (acp_extent (ts_host s) candidate), s));
      match extent with
      | Some (Some (anchor, 0)) =>
        if anchor <? length then mret None
        else
          set ← attempt (call (λ h, acp_set_extent h candidate (anchor - length) length));
          match set with
          | Some _ => match_exact_suffix candidate expected
          | None => by_shift
          end
      | _ => by_shift
      end.

(** ** The Scintilla fallback ([host.rs]) *)

(** [tip/host.rs ExistingSuffixReplacement] *)
Record ExistingSuffixReplacement := mkReplacement {
  esr_editor : Z;
  esr_start : Z;
  esr_text : list Z;
}.

Definition sci (editor : Z) (m : sci_message) : hr Z := λ s,
  let '(h, r) := sci_send (ts_host s) editor m in (Some r, deliver client (with_host h s)).

(** [tip/host.rs scintilla_byte] [as u8] *)
Definition scintilla_byte (r : Z) : Z := r mod 256.

(** [tip/host.rs scintilla_position] A negative result is no position. *)
Definition scintilla_position (editor : Z) (m : sci_message) : hr (option Z) :=
  r ← sci editor m; mret (if r <? 0 then None else Some r).

(** [tip/host.rs has_window_class] *)
Definition has_window_class (h : H) (window : Z) (expected : string) : bool :=
  eq_ignore_ascii_case (window_class h window) expected.

(** The comparison loop of [replace_exact_suffix]. *)
Fixpoint sci_matches (editor start : Z) (text : list Z) : hr bool :=
  match text with
  | [] => mret true
  | expected :: text =>
    actual ← sci editor (SCI_GETCHARAT start);
    if scintilla_byte actual =? expected then sci_matches editor (start + 1) text
    else mret false
  end.

(** [tip/host.rs replace_exact_suffix] *)
Definition replace_exact_suffix (text : string) : hr (option ExistingSuffixReplacement) :=
  let bytes := bytes_of text in
  let len := zlength bytes in
  if bool_decide (0 ∈ bytes) then mret None
  else if len =? 0 then mret None
  else
    focus ← (λ s : st, (Some (get_focus_window (ts_host s)), s));
    match focus with
    | None => mret None
    | Some editor =>
      scintilla ← (λ s : st, (Some (has_window_class (ts_host s) editor "Scintilla"), s));
      if negb scintilla then mret None
      else
        caret ← scintilla_position editor SCI_GETCURRENTPOS;
        match caret with
        | None => mret None
        | Some caret =>
          anchor ← scintilla_position editor SCI_GETANCHOR;
          match anchor with
          | None => mret None
          | Some anchor =>
            if negb (caret =? anchor) || (caret <? len) then mret None
            else
              let start := caret - len in
              same ← sci_matches editor start bytes;
              if negb same then mret None
              else
                _ ← sci editor (SCI_DELETERANGE start len);
                pos ← scintilla_position editor SCI_GETCURRENTPOS;
                (* || does not evaluate its right operand when the left holds *)
                if negb (bool_decide (pos = Some start)) then mret None
                else
                  anchor ← scintilla_position editor SCI_GETANCHOR;
                  if negb (bool_decide (anchor = Some start)) then mret None
                  else mret (Some (mkReplacement editor start bytes))
          end
        end
    end.

(** [tip/host.rs ExistingSuffixReplacement::drop] An uncommitted replacement
    puts the deleted text back. *)
Definition restore_suffix (r : ExistingSuffixReplacement) : hr unit :=
  _ ← sci (esr_editor r) (SCI_INSERTTEXT (esr_start r) (esr_text r));
  _ ← sci (esr_editor r) (SCI_GOTOPOS (esr_start r + zlength (esr_text r)));
  mret tt.

(** Rust drops [host_replacement] on every early return before [commit]. *)
Definition with_replacement {A} (r : option ExistingSuffixReplacement) (c : hr A) : hr A :=
  result ← attempt c;
  match result, r with
  | Some a, _ => mret a
  | None, Some r => _ ← restore_suffix r; E_FAIL
  | None, None => E_FAIL
  end.

(** ** The edits *)

Definition reads {A} (f : H → A) : hr A := λ s, (Some (f (ts_host s)), s).

(** [tip/composition.rs EditSession_Impl::begin] *)
Definition edit_begin (context : C) (initial_text : string) (attach_existing : bool) : hr unit :=
  insert_ok ← reads (λ h, cast_ok h context ITfInsertAtSelection);
  _ ← fail_if (negb insert_ok);
  range ←
    (if attach_existing then
       selection ← attempt (current_selection_range context);
       match selection with
       | Some range => mret range
       | None => call (λ h, insert_query_only h context)
       end
     else call (λ h, insert_query_only h context));
  attached_range ←
    (if attach_existing then range_with_exact_suffix range initial_text else mret None);
  host_replacement ←
    (if attach_existing && negb (is_Some_b attached_range)
     then replace_exact_suffix initial_text else mret None);
  with_replacement host_replacement (
    tracked ←
      (match attached_range with
       | Some existing => mret (existing, true)
       | None =>
         if is_Some_b host_replacement
         then r ← call (λ h, insert_query_only h context); mret (r, false)
         else r ← call (λ h, clone_range h range); mret (r, false)
       end : hr (R * bool));
    let '(tracked_range, text_already_present) := (tracked : R * bool) in
    _ ← call (λ h, set_gravity h tracked_range);
    composition_ok ← reads (λ h, cast_ok h context ITfContextComposition);
    _ ← fail_if (negb composition_ok);
    _ ← modify (with_cs (set_terminated false));
    composition ← call (λ h, start_composition h context tracked_range);
    terminated ← gets cs_terminated;
    _ ← fail_if terminated;
    clone ← call (λ h, clone_range h tracked_range);
    _ ← modify (with_cs (set_composition composition clone));
    _ ← (if text_already_present then mret tt
         else write_text tracked_range (utf16_of initial_text));
    mret tracked_range)
  ≫= set_caret_to_composition_end context.

(** [tip/composition.rs EditSession_Impl::update] *)
Definition edit_update (context : C) (text : string) : hr unit :=
  modified ← gets cs_target_modified;
  _ ← fail_if modified;
  matches ← (λ s, (matches_expected_edit_state (ts_cs s) (ts_host s) context, s));
  if negb matches then
    _ ← modify mark_external_edit;
    composition ← gets cs_composition;
    _ ← (match composition with
         | Some k => _ ← attempt (call (λ h, end_composition h k)); mret tt
         | None => mret tt
         end);
    E_FAIL
  else
    range ← (λ s, (cs_range (ts_cs s), s));
    _ ← write_text range (utf16_of text);
    modified ← gets cs_target_modified;
    _ ← fail_if modified;
    set_caret_to_composition_end context range.

(** [tip/composition.rs EditSession_Impl::finish] *)
Definition edit_finish (context : C) (cause : FinishCause) : hr unit :=
  _ ← (if validates_snapshot cause then
         modified ← gets cs_target_modified;
         _ ← fail_if modified;
         matches ← (λ s, (matches_expected_edit_state (ts_cs s) (ts_host s) context, s));
         fail_if (negb matches)
       else mret tt);
  composition ← gets cs_composition;
  result ← attempt (match composition with
                    | Some k => call (λ h, end_composition h k)
                    | None => mret tt
                    end);
  _ ← (match cause with Forced => modify mark_terminated | Phone => mret tt end);
  ((λ s : st, (result : option unit, s)) : hr unit).

(** [tip/composition.rs EditSession_Impl::DoEditSession] *)
Definition DoEditSession (context : C) (action : EditAction) : hr unit :=
  match action with
  | EditBegin initial_text attach_existing => edit_begin context initial_text attach_existing
  | EditUpdate text => edit_update context text
  | EditFinish => edit_finish context Phone
  | EditForceFinish => edit_finish context Forced
  end.

(** [tip/composition.rs request_edit] The guard holds from the request until
    the lock is released, the callbacks due at the release included. *)
Definition request_edit (context : C) (action : EditAction) : hr unit := λ s,
  let s := with_cs (set_applying true) s in
  let '(r, s) :=
    match call (λ h, request_sync_lock h context client) s with
    | (None, s) => (None, s)
    | (Some _, s) =>
      let '(r, s) := DoEditSession context action s in
      (r, deliver client (with_host (release_lock (ts_host s) context) s))
    end in
  (r, with_cs (set_applying false) s).

(** [tip/composition.rs request_async_force_finish] The session it queues, run
    by the host when it grants the lock. *)
Definition run_force_finish (context : C) : st → st := λ s,
  let '(_, s) := DoEditSession context EditForceFinish s in
  deliver client (with_host (release_lock (ts_host s) context) s).

(** [tip/composition.rs CompositionState::start_session] *)
Definition start_session (session_id : string) (context : C) : hr unit :=
  sink ← gets cs_edit_sink;
  _ ← (match sink with
       | Some _ => mret tt
       | None =>
         source_ok ← reads (λ h, cast_ok h context ITfSource);
         _ ← fail_if (negb source_ok);
         cookie ← call (λ h, advise_sink h context);
         modify (with_cs (set_edit_sink (Some cookie)))
       end);
  modify (with_cs (λ c, mkCompositionState (Some session_id) 0 EmptyString (Some context)
    (cs_composition c) (cs_range c) (cs_edit_sink c) (cs_applying_remote_edit c)
    (cs_terminated c) false)).
End edit.

(** ** The controller ([service.rs]) *)

Section controller.
Context {H C R K : Type} `{Host : TsfHost H C R K}.

(** [tip/service.rs Controller] [pending_commands] is the queue the window
    procedure takes a command from before it calls [handle_command]. *)
Record Controller := mkController {
  ct_thread_manager : option Z;
  ct_client_id : Z;
  ct_window : option Z;
  ct_worker : option Z;
  ct_tip : tip_state H C R K;
}.

Definition ct_cs (self : Controller) : CompositionState C R K := ts_cs (ct_tip self).
Definition on_tip {A} (f : Z → tip_state H C R K → A * tip_state H C R K) (self : Controller)
    : A * Controller :=
  let '(r, t) := f (ct_client_id self) (ct_tip self) in
  (r, mkController (ct_thread_manager self) (ct_client_id self) (ct_window self)
        (ct_worker self) t).
Definition ct_edit (context : C) (action : EditAction) (self : Controller)
    : option unit * Controller :=
  on_tip (λ client, request_edit client context action) self.
Definition ct_modify (f : tip_state H C R K → tip_state H C R K) (self : Controller) : Controller :=
  (on_tip (λ _ t, (tt, f t)) self).2.

(** End the composition, if any, and forget the session. *)
Definition force_finish (context : C) (self : Controller) : Controller :=
  (ct_edit context EditForceFinish self).2.

(** [tip/service.rs Controller::deactivate] *)
Definition deactivate (self : Controller) : Controller :=
  let self := match ct_worker self with
    | Some w => mkController (ct_thread_manager self) (ct_client_id self) (ct_window self) None
                  (with_host (stop_worker (ts_host (ct_tip self)) w) (ct_tip self))
    | None => self end in
  let self := match ct_window self with
    | Some w => mkController (ct_thread_manager self) (ct_client_id self) None (ct_worker self)
                  (with_host (destroy_window (ts_host (ct_tip self)) w) (ct_tip self))
    | None => self end in
  let self := match cs_context (ct_cs self) with
    | Some context => if has_composition (ct_cs self) then force_finish context self else self
    | None => self end in
  let self := ct_modify cs_clear self in
  mkController None 0 (ct_window self) (ct_worker self) (ct_tip self).

(** [tip/service.rs Controller::activate] *)
Definition activate (thread_manager client_id : Z) (self : Controller) : option unit * Controller :=
  let self := deactivate self in
  let self := mkController (Some thread_manager) client_id (ct_window self) (ct_worker self)
                (ct_tip self) in
  let '(h, window) := create_message_window (ts_host (ct_tip self)) in
  let self := ct_modify (with_host h) self in
  match window with
  | None => (None, self)
  | Some window =>
    let '(h, worker) := start_worker (ts_host (ct_tip self)) window in
    (Some tt, mkController (ct_thread_manager self) (ct_client_id self) (Some window)
                (Some worker) (with_host h (ct_tip self)))
  end.

(** [tip/service.rs Controller::focused_context] *)
Definition focused_context (self : Controller) : option C :=
  manager ← ct_thread_manager self;
  focus ← is_thread_focus (ts_host (ct_tip self)) manager;
  if negb focus then None else focus_top_context (ts_host (ct_tip self)) manager.

(** [tip/service.rs Controller::active_focused_context] *)
Definition active_focused_context (self : Controller) : option C :=
  focused ← focused_context self;
  active ← cs_context (ct_cs self);
  if bool_decide (focused = active) then Some active else None.

(** [tip/service.rs Controller::begin] *)
Definition ct_begin (session_id : string) (sequence : Z) (full_text : string)
    (attach_existing : bool) (self : Controller) : TipResponse * Controller :=
  if bool_decide (cs_session_id (ct_cs self) = Some session_id) then
    (if cs_target_modified (ct_cs self) then TrCompositionTerminated else TrBegun session_id, self)
  else if bool_decide (is_Some (cs_session_id (ct_cs self))) then (TrRebindRejected, self)
  else
    match focused_context self with
    | None => (TrNoFocus, self)
    | Some context =>
      let reject self := (TrEditRejected, ct_modify cs_clear (force_finish context self)) in
      match on_tip (λ client, start_session client session_id context) self with
      | (None, self) => reject self
      | (Some _, self) =>
        match ct_edit context (EditBegin full_text attach_existing) self with
        | (None, self) => reject self
        | (Some _, self) =>
          (TrBegun session_id, ct_modify (with_cs (cs_applied sequence full_text)) self)
        end
      end
    end.

(** [tip/service.rs Controller::update] *)
Definition ct_update (session_id : string) (sequence : Z) (full_text : string)
    (self : Controller) : TipResponse * Controller :=
  if negb (bool_decide (cs_session_id (ct_cs self) = Some session_id)) then
    (TrSessionMismatch, self)
  else if cs_target_modified (ct_cs self) then (TrCompositionTerminated, self)
  else
    let current_sequence := cs_sequence (ct_cs self) in
    if sequence <? current_sequence then (TrApplied session_id current_sequence, self)
    else if sequence =? current_sequence then
      (if bool_decide (cs_text (ct_cs self) = full_text) then TrApplied session_id sequence
       else TrSequenceConflict, self)
    else
      match active_focused_context self with
      | None => (TrNoFocus, self)
      | Some context =>
        match ct_edit context (EditUpdate full_text) self with
        | (None, self) =>
          (if cs_target_modified (ct_cs self) then TrCompositionTerminated else TrEditRejected, self)
        | (Some _, self) =>
          (TrApplied session_id sequence, ct_modify (with_cs (cs_applied sequence full_text)) self)
        end
      end.

(** [tip/service.rs Controller::finish] *)
Definition ct_finish (session_id : string) (sequence : Z) (self : Controller)
    : TipResponse * Controller :=
  if negb (bool_decide (cs_session_id (ct_cs self) = Some session_id))
     || negb (cs_sequence (ct_cs self) =? sequence) then (TrSessionMismatch, self)
  else if cs_target_modified (ct_cs self) then (TrCompositionTerminated, self)
  else
    match cs_context (ct_cs self) with
    | None => (TrCompositionTerminated, self)
    | Some context =>
      match ct_edit context EditFinish self with
      | (None, self) => (TrEditRejected, self)
      | (Some _, self) => (TrFinished session_id sequence, ct_modify cs_clear self)
      end
    end.

(** [tip/service.rs Controller::cancel] *)
Definition ct_cancel (session_id : string) (self : Controller) : TipResponse * Controller :=
  if negb (bool_decide (cs_session_id (ct_cs self) = Some session_id)) then
    (TrSessionMismatch, self)
  else
    let self := match cs_context (ct_cs self) with
      | Some context => if has_composition (ct_cs self) then force_finish context self else self
      | None => self end in
    (TrCancelled session_id, ct_modify cs_clear self).

(** [tip/service.rs Controller::query] *)
Definition ct_query (session_id : string) (self : Controller) : TipResponse * Controller :=
  (if bool_decide (cs_session_id (ct_cs self) = Some session_id) then
     if cs_target_modified (ct_cs self) then TrCompositionTerminated
     else TrSessionActive session_id (cs_sequence (ct_cs self))
   else TrSessionMismatch, self).

(** [tip/service.rs Controller::handle_command] *)
Definition handle_command (self : Controller) (command : TipCommand) : TipResponse * Controller :=
  match command with
  | TcPing => (TrReady, self)
  | TcBegin session_id sequence full_text attach_existing =>
    ct_begin session_id sequence full_text attach_existing self
  | TcUpdate session_id sequence full_text => ct_update session_id sequence full_text self
  | TcFinish session_id sequence => ct_finish session_id sequence self
  | TcCancel session_id => ct_cancel session_id self
  | TcQuery session_id => ct_query session_id self
  end.
End controller.
Arguments Controller : clear implicits.
