(* ===== verification/TipRefinement.v ===== *)
(** * The text service implements the reference session

    What an edit session keeps of the composition state whatever the host
    does, when it writes to the document, and the refinement of
    [TipModel.TipSessionModel] by [TipService.Controller]. *)

From S2P Require Import Prelude Text TipModel TipService.

(** ** The promise of the text service to the injector

    [tip_contract m cmd resp m'] : in session [m] the command [cmd] may be
    answered [resp], and leaves the session [m']. Where the reference model
    accepts, the host may still refuse the edit. *)

Definition tip_contract (m : TipSessionModel) (cmd : TipCommand) (resp : TipResponse)
    (m' : TipSessionModel) : Prop :=
  match cmd with
  | TcPing => resp = TrReady ∧ m' = m
  | TcBegin sid seq text _ =>
    match tm_begin m sid seq text with
    | (_, Err TrSessionMismatch) => resp = TrRebindRejected ∧ m' = m
    | (_, Err e) => resp = e ∧ m' = m
    | (m1, Ok _) =>
      (resp = TrBegun sid ∧ m' = m1)
      ∨ (tm_session_id m = None
         ∧ ((resp = TrNoFocus ∧ m' = m) ∨ (resp = TrEditRejected ∧ m' = tm_clear m)))
    end
  | TcUpdate sid seq text =>
    match tm_update m sid seq text with
    | (_, Err e) => resp = e ∧ m' = m
    | (_, Ok false) => resp = TrApplied sid (tm_sequence m) ∧ m' = m
    | (m1, Ok true) =>
      (resp = TrApplied sid seq ∧ m' = m1)
      ∨ (resp = TrNoFocus ∧ m' = m)
      ∨ (resp = TrEditRejected ∧ m' = m)
      ∨ (resp = TrCompositionTerminated ∧ m' = tm_terminate m)
    end
  | TcFinish sid seq =>
    match tm_finish m sid seq with
    | (_, Err e) => resp = e ∧ m' = m
    | (m1, Ok _) => (resp = TrFinished sid seq ∧ m' = m1) ∨ (resp = TrEditRejected ∧ m' = m)
    end
  | TcCancel sid =>
    match tm_cancel m sid with
    | (_, Err e) => resp = e ∧ m' = m
    | (m1, Ok _) => resp = TrCancelled sid ∧ m' = m1
    end
  | TcQuery sid =>
    m' = m ∧
    resp = if bool_decide (tm_session_id m = Some sid) then
             if tm_target_modified m then TrCompositionTerminated
             else TrSessionActive sid (tm_sequence m)
           else TrSessionMismatch
  end.

(** The same fields in the service and in the model; [tm_composition_ended] is
    read by neither. *)
Definition models {C K R} (c : CompositionState C R K) (m : TipSessionModel) : Prop :=
  cs_session_id c = tm_session_id m ∧ cs_sequence c = tm_sequence m
  ∧ cs_text c = tm_text m ∧ cs_target_modified c = tm_target_modified m
  ∧ tm_composition_ended m = false
  ∧ (is_Some (cs_session_id c) → is_Some (cs_context c))
  ∧ (cs_session_id c = None → cs_sequence c = 0 ∧ cs_text c = EmptyString)
  ∧ cs_applying_remote_edit c = false.

(** ** What host calls keep *)

Section quiet.
Context {H C R K : Type} `{Host : TsfHost H C R K} (client : Z).
Implicit Types s t : tip_state H C R K.

Definition session_of (c : CompositionState C R K) :=
  (cs_session_id c, cs_sequence c, cs_text c, cs_context c, cs_applying_remote_edit c).

(** The session fields and the modified mark are kept. *)
Definition same (c c' : CompositionState C R K) : Prop :=
  session_of c' = session_of c ∧ cs_target_modified c' = cs_target_modified c.

#[export] Instance same_refl : Reflexive same.
Proof. by intros c. Qed.
#[export] Instance same_trans : Transitive same.
Proof. intros a b c [H1 H2] [H3 H4]. split; congruence. Qed.

Lemma same_applying c c' : same c c' →
  cs_applying_remote_edit c' = cs_applying_remote_edit c.
Proof. unfold same, session_of. naive_solver. Qed.

(** [quiet c]: under the remote-edit guard, [c] keeps the session. *)
Definition quiet {A} (c : hr A) : Prop :=
  ∀ s, cs_applying_remote_edit (ts_cs s) = true → same (ts_cs s) (ts_cs (c s).2).

Lemma drop_edit_sink_same s : same (ts_cs s) (ts_cs (drop_edit_sink s)).
Proof. unfold drop_edit_sink. by case_match. Qed.

Lemma mark_terminated_same s : same (ts_cs s) (ts_cs (mark_terminated s)).
Proof. unfold mark_terminated. by rewrite <- drop_edit_sink_same. Qed.

Lemma run_callback_quiet s cb :
  cs_applying_remote_edit (ts_cs s) = true →
  same (ts_cs s) (ts_cs (run_callback client s cb)).
Proof.
  intros Ha. destruct cb; cbn.
  - unfold on_end_edit. by rewrite Ha, orb_true_r.
  - unfold on_composition_terminated, composition_terminated.
    rewrite Ha. apply mark_terminated_same.
Qed.

Lemma deliver_quiet s :
  cs_applying_remote_edit (ts_cs s) = true →
  same (ts_cs s) (ts_cs (deliver client s)).
Proof.
  unfold deliver. destruct (take_callbacks (ts_host s)) as [cbs h].
  intros Ha. change (ts_cs s) with (ts_cs (with_host h s)) in Ha |- *.
  revert Ha. generalize (with_host h s). clear.
  induction cbs as [|cb cbs IH]; intros s Ha; cbn [foldl]; [reflexivity |].
  pose proof (run_callback_quiet s cb Ha) as Hs.
  etrans; [apply Hs | apply IH]. by rewrite (same_applying _ _ Hs).
Qed.

Lemma quiet_ret {A} (a : A) : quiet (mret a).
Proof. by intros s. Qed.
Lemma quiet_fail {A} : quiet (E_FAIL : hr A).
Proof. by intros s. Qed.
Lemma quiet_read {A} (f : tip_state H C R K → option A) : quiet (λ s, (f s, s)).
Proof. by intros s. Qed.
Lemma quiet_bind {A B} (c : hr A) (f : A → hr B) :
  quiet c → (∀ a, quiet (f a)) → quiet (c ≫= f).
Proof.
  intros Hc Hf s Ha. unfold mbind, hr_bind. pose proof (Hc s Ha) as Hs.
  destruct (c s) as [[a|] t]; cbn in *; [| done].
  etrans; [apply Hs | apply Hf]. by rewrite (same_applying _ _ Hs).
Qed.
Lemma quiet_attempt {A} (c : hr A) : quiet c → quiet (attempt c).
Proof. intros Hc s Ha. pose proof (Hc s Ha). unfold attempt. by destruct (c s). Qed.
Lemma quiet_call {A} (op : H → H * option A) : quiet (call client op).
Proof.
  intros s Ha. unfold call. destruct (op (ts_host s)) as [h r].
  apply (deliver_quiet (with_host h s) Ha).
Qed.
Lemma quiet_sci editor m : quiet (sci client editor m).
Proof.
  intros s Ha. unfold sci. destruct (sci_send _ _ _) as [h r].
  apply (deliver_quiet (with_host h s) Ha).
Qed.
Lemma quiet_write range text : quiet (write_text client range text).
Proof.
  intros s Ha. unfold write_text. destruct (set_text _ _ _) as [h r].
  apply (deliver_quiet (mkTipState _ _ _) Ha).
Qed.
Lemma quiet_modify f :
  (∀ s, same (ts_cs s) (ts_cs (f s))) → quiet (modify f).
Proof. intros Hf s _. apply Hf. Qed.
End quiet.

Create HintDb quiet discriminated.
#[export] Hint Resolve quiet_ret quiet_fail quiet_read quiet_bind quiet_attempt quiet_call
  quiet_sci quiet_write quiet_modify mark_terminated_same : quiet.

(** Go through a program of host calls, one bind or case at a time. *)
Ltac quiet_step :=
  repeat match goal with
    | |- ∀ _, _ => intro
    | |- quiet (λ _, _) => solve [intros ? _; reflexivity]
    | |- quiet (query _) => solve [intros ? _; reflexivity]
    | |- quiet (gets _) => solve [intros ? _; reflexivity]
    | |- quiet (reads _) => solve [intros ? _; reflexivity]
    | |- quiet (fail_if ?b) => destruct b; intros ? _; reflexivity
    | |- _ => solve [auto with quiet]
    | |- quiet (_ ≫= _) => apply quiet_bind
    | |- quiet (attempt _) => apply quiet_attempt
    | |- quiet (modify _) => apply quiet_modify
    | |- same _ _ => solve [split; reflexivity]
    | |- quiet _ => case_match
    end.

Section edits.
Context {H C R K : Type} `{Host : TsfHost H C R K} (client : Z).
Implicit Types s t : tip_state H C R K.

Lemma set_caret_quiet context range :
  quiet (set_caret_to_composition_end client context range).
Proof. unfold set_caret_to_composition_end. quiet_step. Qed.

Lemma current_selection_range_quiet context : quiet (current_selection_range client context).
Proof. unfold current_selection_range. quiet_step. Qed.

Lemma match_exact_suffix_quiet candidate expected :
  quiet (match_exact_suffix candidate expected : hr (option R)).
Proof. unfold match_exact_suffix. quiet_step. Qed.
Hint Resolve set_caret_quiet current_selection_range_quiet match_exact_suffix_quiet : quiet.

Lemma range_with_exact_suffix_quiet range text :
  quiet (range_with_exact_suffix client range text).
Proof. unfold range_with_exact_suffix. quiet_step. Qed.

Lemma sci_matches_quiet editor start text : quiet (sci_matches client editor start text).
Proof. revert start. induction text; intros; cbn [sci_matches]; quiet_step. Qed.
Hint Resolve sci_matches_quiet : quiet.

Lemma scintilla_position_quiet editor m : quiet (scintilla_position client editor m).
Proof. unfold scintilla_position. quiet_step. Qed.
Hint Resolve scintilla_position_quiet : quiet.

Lemma replace_exact_suffix_quiet text : quiet (replace_exact_suffix client text).
Proof. unfold replace_exact_suffix. quiet_step. Qed.

Lemma restore_suffix_quiet r : quiet (restore_suffix client r).
Proof. unfold restore_suffix. quiet_step. Qed.
Hint Resolve range_with_exact_suffix_quiet replace_exact_suffix_quiet restore_suffix_quiet : quiet.

Lemma edit_begin_quiet context text attach : quiet (edit_begin client context text attach).
Proof. unfold edit_begin, with_replacement. quiet_step. Qed.

Lemma edit_finish_quiet context cause : quiet (edit_finish client context cause).
Proof. unfold edit_finish. quiet_step. Qed.

(** An update that fails may have marked the target modified; one that
    succeeds found it unmarked. *)
Lemma edit_update_session context text s :
  cs_applying_remote_edit (ts_cs s) = true →
  let r := edit_update client context text s in
  session_of (ts_cs r.2) = session_of (ts_cs s)
  ∧ match r.1 with
    | Some _ => cs_target_modified (ts_cs s) = false ∧ cs_target_modified (ts_cs r.2) = false
    | None => cs_target_modified (ts_cs s) = true → cs_target_modified (ts_cs r.2) = true
    end.
Proof.
  intros Ha. unfold edit_update, gets, fail_if, mbind, hr_bind, E_FAIL, modify. cbn.
  destruct (cs_target_modified (ts_cs s)) eqn:Hm; cbn; [by rewrite Hm |].
  destruct (matches_expected_edit_state _ _ _) as [b|]; cbn; [| by rewrite Hm].
  destruct b; cbn.
  - destruct (cs_range (ts_cs s)) as [range|]; cbn; [| by rewrite Hm].
    destruct (quiet_write client range (utf16_of text) s Ha) as [Hw Hwm].
    destruct (write_text _ _ _ s) as [[[]|] t]; cbn in *; [| done].
    rewrite Hwm, Hm. cbn.
    assert (cs_applying_remote_edit (ts_cs t) = true) as Hat
      by (unfold session_of in Hw; congruence).
    destruct (set_caret_quiet context range t Hat) as [Hs Hsm].
    destruct (set_caret_to_composition_end _ _ _ t) as [[[]|] u]; cbn in *;
      (split; [congruence |]); [split |]; congruence.
  - destruct (cs_composition (ts_cs s)) as [k|]; cbn; [| done].
    destruct (quiet_call client (λ h, end_composition h k) (mark_external_edit s) Ha) as [Hc Hcm].
    unfold attempt. destruct (call _ _ _) as [r t]; cbn in *. by rewrite Hc.
Qed.
End edits.

Section requests.
Context {H C R K : Type} `{Host : TsfHost H C R K} (client : Z).
Implicit Types s t : tip_state H C R K.

Definition session_id_text (c : CompositionState C R K) :=
  (cs_session_id c, cs_sequence c, cs_text c, cs_context c).

Lemma DoEditSession_session context action s :
  cs_applying_remote_edit (ts_cs s) = true →
  let r := DoEditSession client context action s in
  session_of (ts_cs r.2) = session_of (ts_cs s)
  ∧ match action, r.1 with
    | EditUpdate _, Some _ =>
      cs_target_modified (ts_cs s) = false ∧ cs_target_modified (ts_cs r.2) = false
    | EditUpdate _, None =>
      cs_target_modified (ts_cs s) = true → cs_target_modified (ts_cs r.2) = true
    | _, _ => cs_target_modified (ts_cs r.2) = cs_target_modified (ts_cs s)
    end.
Proof.
  intros Ha. destruct action as [text attach|text| |]; cbn.
  - apply (edit_begin_quiet client context text attach s Ha).
  - apply (edit_update_session client context text s Ha).
  - apply (edit_finish_quiet client context Phone s Ha).
  - apply (edit_finish_quiet client context Forced s Ha).
Qed.

(** What a request keeps: the session always, the modified mark unless it is an
    update that fails. *)
Lemma request_edit_session context action s :
  let r := request_edit client context action s in
  session_id_text (ts_cs r.2) = session_id_text (ts_cs s)
  ∧ cs_applying_remote_edit (ts_cs r.2) = false
  ∧ match action, r.1 with
    | EditUpdate _, Some _ =>
      cs_target_modified (ts_cs s) = false ∧ cs_target_modified (ts_cs r.2) = false
    | EditUpdate _, None =>
      cs_target_modified (ts_cs s) = true → cs_target_modified (ts_cs r.2) = true
    | _, _ => cs_target_modified (ts_cs r.2) = cs_target_modified (ts_cs s)
    end.
Proof.
  unfold request_edit. cbv zeta. set (s0 := with_cs (set_applying true) s).
  destruct (quiet_call client (λ h, request_sync_lock h context client) s0) as [Hl Hlm];
    [done |].
  destruct (call _ _ s0) as [[[]|] s1]; cbn in *;
    [| unfold session_of, session_id_text in *; cbn in *; split_and!; [congruence | done |];
       destruct action; congruence].
  assert (cs_applying_remote_edit (ts_cs s1) = true) as Ha1
    by (unfold session_of in Hl; cbn in Hl; congruence).
  pose proof (DoEditSession_session context action s1 Ha1) as [He Hem].
  destruct (DoEditSession client context action s1) as [r s2]; cbn in *.
  destruct (deliver_quiet client (with_host (release_lock (ts_host s2) context) s2)) as [Hd Hdm];
    [unfold session_of in He; cbn; congruence |].
  unfold session_of, session_id_text in *; cbn in *.
  split_and!; [congruence | done |].
  rewrite Hdm. destruct action; rewrite ?Hem, ?Hlm; try done.
  destruct r as [[]|]; cbn in *; rewrite <- Hlm; done.
Qed.

(** Callbacks delivered between commands keep the session; they may only set
    the modified mark. *)
Lemma deliver_session s :
  session_of (ts_cs (deliver client s)) = session_of (ts_cs s)
  ∧ (cs_target_modified (ts_cs s) = true → cs_target_modified (ts_cs (deliver client s)) = true).
Proof.
  unfold deliver. destruct (take_callbacks (ts_host s)) as [cbs h].
  change (ts_cs s) with (ts_cs (with_host h s)). generalize (with_host h s). clear.
  induction cbs as [|cb cbs IH]; intros s; cbn [foldl]; [done |].
  assert (session_of (ts_cs (run_callback client s cb)) = session_of (ts_cs s)
    ∧ (cs_target_modified (ts_cs s) = true →
       cs_target_modified (ts_cs (run_callback client s cb)) = true)) as [H1 H2].
  { destruct cb; cbn.
    - unfold on_end_edit. repeat (case_match; try done).
    - unfold on_composition_terminated, composition_terminated.
      destruct (cs_applying_remote_edit (ts_cs s)).
      + destruct (mark_terminated_same s) as [? Hm]. by rewrite Hm.
      + by destruct (mark_terminated_same (mark_external_edit s)) as [? ->]. }
  destruct (IH (run_callback client s cb)) as [H3 H4]. split; [congruence | auto].
Qed.
End requests.

(** ** The controller refines the reference session *)

Section refinement.
Context {H C R K : Type} `{Host : TsfHost H C R K}.
Implicit Types self : Controller H C R K.
Implicit Types m : TipSessionModel.

Lemma cs_clear_default (s : tip_state H C R K) : ts_cs (cs_clear s) = CompositionState_default.
Proof. done. Qed.

Lemma models_default : models (CompositionState_default (C:=C) (R:=R) (K:=K)) TipSessionModel_default.
Proof. unfold models. cbn. by split_and!. Qed.

(** The session fields decide the relation. *)
Lemma models_same (c c' : CompositionState C R K) m :
  models c m → session_id_text c' = session_id_text c →
  cs_target_modified c' = cs_target_modified c → cs_applying_remote_edit c' = false →
  models c' m.
Proof. unfold models, session_id_text. intros Hm [= -> -> -> ->] -> ->. naive_solver. Qed.

Lemma models_modified (c c' : CompositionState C R K) m :
  models c m → session_id_text c' = session_id_text c →
  cs_target_modified c' = true → cs_applying_remote_edit c' = false →
  models c' (tm_terminate m).
Proof. unfold models, session_id_text. intros Hm [= -> -> -> ->] -> ->. cbn. naive_solver. Qed.

Lemma start_session_started client sid context (s : tip_state H C R K) u s' :
  start_session client sid context s = (Some u, s') →
  cs_applying_remote_edit (ts_cs s) = false →
  session_id_text (ts_cs s') = (Some sid, 0, EmptyString, Some context)
  ∧ cs_target_modified (ts_cs s') = false ∧ cs_applying_remote_edit (ts_cs s') = false.
Proof.
  unfold start_session, gets, reads, fail_if, E_FAIL, mbind, hr_bind. cbn.
  intros Hs Ha. destruct (cs_edit_sink (ts_cs s)) as [k|]; cbn in Hs.
  { injection Hs as _ <-. done. }
  destruct (cast_ok _ _ _); cbn in Hs; [| done].
  unfold call in Hs. destruct (advise_sink _ _) as [h [cookie|]]; cbn in Hs; [| done].
  injection Hs as _ <-. cbn. split_and!; try done.
  destruct (deliver_session client (with_host h s)) as [Hd _].
  unfold session_of in Hd. cbn in Hd. congruence.
Qed.

Lemma ct_edit_session context action self :
  let r := ct_edit context action self in
  session_id_text (ct_cs r.2) = session_id_text (ct_cs self)
  ∧ cs_applying_remote_edit (ct_cs r.2) = false
  ∧ match action, r.1 with
    | EditUpdate _, Some _ =>
      cs_target_modified (ct_cs self) = false ∧ cs_target_modified (ct_cs r.2) = false
    | EditUpdate _, None =>
      cs_target_modified (ct_cs self) = true → cs_target_modified (ct_cs r.2) = true
    | _, _ => cs_target_modified (ct_cs r.2) = cs_target_modified (ct_cs self)
    end.
Proof.
  unfold ct_edit, on_tip, ct_cs.
  pose proof (request_edit_session (ct_client_id self) context action (ct_tip self)) as Hr.
  by destruct (request_edit _ _ _ _) as [[[]|] t].
Qed.

Lemma ct_clear_default self : ct_cs (ct_modify cs_clear self) = CompositionState_default.
Proof. done. Qed.

(** A session of another model state is refused without a change. *)
Lemma ct_begin_refines self m sid seq text attach :
  models (ct_cs self) m →
  let r := ct_begin sid seq text attach self in
  ∃ m', models (ct_cs r.2) m' ∧ tip_contract m (TcBegin sid seq text attach) r.1 m'.
Proof.
  intros Hm. pose proof Hm as (Hid & Hseq & Htext & Hmod & Hend & Hctx & Hnone & Happ).
  unfold ct_begin, tip_contract, tm_begin. rewrite Hid, Hmod.
  destruct (decide (tm_session_id m = Some sid)) as [Hs|Hs].
  { rewrite (bool_decide_eq_true_2 _ Hs). exists m. destruct (tm_target_modified m); cbn; auto. }
  rewrite (bool_decide_eq_false_2 _ Hs).
  destruct (tm_session_id m) as [other|] eqn:Hmid.
  { rewrite bool_decide_eq_true_2 by done. exists m. auto. }
  rewrite bool_decide_eq_false_2 by (by intros [? [=]]).
  destruct (focused_context self) as [context|]; cbn; [| exists m; auto 6].
  unfold on_tip. destruct (start_session _ _ _ _) as [[u|] t] eqn:Hst; cbn;
    [| exists TipSessionModel_default; split; [apply models_default | auto 6]].
  destruct (start_session_started _ _ _ _ _ _ Hst Happ) as (Ht & Htm & Hta).
  set (self1 := mkController _ _ _ _ t).
  pose proof (ct_edit_session context (EditBegin text attach) self1) as (He & Hea & Hem).
  destruct (ct_edit _ _ self1) as [[[]|] self2]; cbn in *;
    [| exists TipSessionModel_default; split; [apply models_default | auto 6]].
  eexists. split; [| by left].
  unfold self1, ct_cs, session_id_text in *. cbn in *. injection He as He1 He2 He3 He4.
  injection Ht as Ht1 Ht2 Ht3 Ht4.
  unfold models, cs_applied. cbn. split_and!; try done; try congruence.
  intros _. rewrite He4, Ht4. done.
Qed.

Lemma ct_update_refines self m sid seq text :
  models (ct_cs self) m →
  let r := ct_update sid seq text self in
  ∃ m', models (ct_cs r.2) m' ∧ tip_contract m (TcUpdate sid seq text) r.1 m'.
Proof.
  intros Hm. pose proof Hm as (Hid & Hseq & Htext & Hmod & Hend & Hctx & Hnone & Happ).
  unfold ct_update, tip_contract, tm_update. rewrite Hid, Hseq, Hmod, Htext.
  case_bool_decide as Hs; cbn; [| by exists m].
  destruct (tm_target_modified m) eqn:Hmm; [by exists m |].
  destruct (seq <? tm_sequence m); [by exists m |].
  destruct (Z.eqb_spec seq (tm_sequence m)) as [->|]; [exists m; by case_bool_decide |].
  destruct (active_focused_context self) as [context|]; [| exists m; auto].
  pose proof (ct_edit_session context (EditUpdate text) self) as (He & Hea & Hem).
  destruct (ct_edit context (EditUpdate text) self) as [[[]|] self2]; cbn in *.
  - eexists. split; [| by left]. unfold ct_cs, session_id_text in *. cbn in *.
    injection He as He1 He2 He3 He4. unfold models. cbn. rewrite He1, He4.
    split_and!; try done; try congruence; try tauto.
  - destruct (cs_target_modified (ct_cs self2)) eqn:Hm2.
    + exists (tm_terminate m). split; [by eapply models_modified | auto].
    + exists m. split; [eapply models_same; [done..| congruence | done] | auto].
Qed.

Lemma ct_finish_refines self m sid seq :
  models (ct_cs self) m →
  let r := ct_finish sid seq self in
  ∃ m', models (ct_cs r.2) m' ∧ tip_contract m (TcFinish sid seq) r.1 m'.
Proof.
  intros Hm. pose proof Hm as (Hid & Hseq & Htext & Hmod & Hend & Hctx & Hnone & Happ).
  unfold ct_finish, tip_contract, tm_finish. rewrite Hid, Hseq, Hmod.
  destruct (decide (tm_session_id m = Some sid)) as [Hs|Hs].
  2: { rewrite (bool_decide_eq_false_2 _ Hs). by exists m. }
  rewrite (bool_decide_eq_true_2 _ Hs). cbn.
  destruct (tm_sequence m =? seq); cbn; [| by exists m].
  destruct (tm_target_modified m) eqn:Hmm; [by exists m |].
  destruct Hctx as [context Hctx]; [by rewrite Hid, Hs |]. rewrite Hctx.
  pose proof (ct_edit_session context EditFinish self) as (He & Hea & Hem).
  destruct (ct_edit context EditFinish self) as [[[]|] self2]; cbn in *.
  - exists TipSessionModel_default. split; [apply models_default | by left].
  - exists m. split; [by eapply models_same | by right].
Qed.

Lemma ct_cancel_refines self m sid :
  models (ct_cs self) m →
  let r := ct_cancel sid self in
  ∃ m', models (ct_cs r.2) m' ∧ tip_contract m (TcCancel sid) r.1 m'.
Proof.
  intros Hm. pose proof Hm as (Hid & _).
  unfold ct_cancel, tip_contract, tm_cancel. rewrite Hid.
  case_bool_decide; cbn; [| by exists m].
  exists TipSessionModel_default. split; [apply models_default | done].
Qed.

(** C3. Controller refinement. Whatever the host
    does, the answer of [handle_command] to a command and the session it
    leaves are those the reference session allows: a session is opened, moved
    forward, closed and refused exactly as in [TipSessionModel], except that
    the host may refuse an edit, which leaves the session as it was, closes it
    ([Begin]) or marks its target modified ([Update]). *)
Theorem controller_refines_model self m command :
  models (ct_cs self) m →
  let r := handle_command self command in
  ∃ m', models (ct_cs r.2) m' ∧ tip_contract m command r.1 m'.
Proof.
  intros Hm. destruct command as [sid seq text attach|sid seq text|sid seq|sid|sid|]; cbn -[tip_contract].
  - by apply ct_begin_refines.
  - by apply ct_update_refines.
  - by apply ct_finish_refines.
  - by apply ct_cancel_refines.
  - exists m. split; [done |]. pose proof Hm as (-> & -> & _ & -> & _). done.
  - by exists m.
Qed.
End refinement.

(** ** When the service writes to the document *)

Section writes.
Context {H C R K : Type} `{Host : TsfHost H C R K} (client : Z).
Implicit Types s t : tip_state H C R K.

(** [silent c]: [c] writes nothing. *)
Definition silent {A} (c : hr A) : Prop := ∀ s, ts_writes (c s).2 = ts_writes s.

Lemma drop_edit_sink_writes s : ts_writes (drop_edit_sink s) = ts_writes s.
Proof. unfold drop_edit_sink. by case_match. Qed.

Lemma deliver_writes s : ts_writes (deliver client s) = ts_writes s.
Proof.
  unfold deliver. destruct (take_callbacks (ts_host s)) as [cbs h].
  change (ts_writes s) with (ts_writes (with_host h s)). generalize (with_host h s). clear.
  induction cbs as [|cb cbs IH]; intros s; cbn [foldl]; [done |]. rewrite IH.
  destruct cb; cbn.
  - unfold on_end_edit. by repeat case_match.
  - unfold on_composition_terminated, composition_terminated, mark_terminated.
    rewrite drop_edit_sink_writes. by case_match.
Qed.

Lemma silent_call {A} (op : H → H * option A) : silent (call client op).
Proof.
  intros s. unfold call. destruct (op (ts_host s)) as [h r].
  apply (deliver_writes (with_host h s)).
Qed.

Lemma silent_bind {A B} (c : hr A) (f : A → hr B) :
  silent c → (∀ a, silent (f a)) → silent (c ≫= f).
Proof.
  intros Hc Hf s. unfold mbind, hr_bind. pose proof (Hc s) as Hs.
  destruct (c s) as [[a|] t]; cbn in *; [| done]. by rewrite Hf.
Qed.

Lemma silent_set_caret context range : silent (set_caret_to_composition_end client context range).
Proof.
  unfold set_caret_to_composition_end.
  apply silent_bind; [apply silent_call | intros caret].
  apply silent_bind; [apply silent_call | intros _]. apply silent_call.
Qed.

(** The range holds exactly [text] and the caret is at its end. *)
Definition holds_exactly (h : H) (context : C) (range : R) (text : string) : Prop :=
  get_text h range (zlength (utf16_of text) + 1) = Some (utf16_of text)
  ∧ ∃ selected, get_selection h context = Some selected
    ∧ is_empty h selected = Some true ∧ compare_start_to_end h selected range = Some 0.

Lemma matches_expected_spec (c : CompositionState C R K) h context :
  matches_expected_edit_state c h context = Some true ↔
  ∃ range, cs_range c = Some range ∧ holds_exactly h context range (cs_text c).
Proof.
  unfold matches_expected_edit_state, matches_expected_range, holds_exactly.
  destruct (cs_range c) as [range|]; cbn; [| naive_solver].
  set (e := utf16_of (cs_text c)).
  destruct (get_text h range (zlength e + 1)) as [actual|] eqn:Htext; cbn;
    [| split; [done | intros (? & [= <-] & ? & _); congruence]].
  destruct (Z.eqb_spec (zlength actual) (zlength e)) as [Hl|Hl]; cbn;
    [| split; [done | intros (? & [= <-] & ? & _); congruence]].
  case_bool_decide as Ha; cbn; [| split; [done | intros (? & [= <-] & ? & _); congruence]].
  destruct (get_selection h context) as [sel|] eqn:Hsel; cbn;
    [| split; [done | intros (? & [= <-] & _ & ? & ? & _); congruence]].
  destruct (is_empty h sel) as [[]|] eqn:Hemp; cbn;
    [| split; [done | intros (? & [= <-] & _ & ? & ? & ? & _); congruence]..].
  destruct (compare_start_to_end h sel range) as [z|] eqn:Hcmp; cbn;
    [| split; [done | intros (? & [= <-] & _ & ? & ? & ? & ?); congruence]].
  split.
  - intros [= Hz]. apply Z.eqb_eq in Hz as ->. subst actual. eauto 10.
  - intros (? & [= <-] & _ & ? & ? & _ & ?). by replace z with 0 by congruence.
Qed.

Lemma edit_update_writes context text s :
  let r := edit_update client context text s in
  ts_writes r.2 = ts_writes s
  ∨ cs_target_modified (ts_cs s) = false
    ∧ ∃ range, cs_range (ts_cs s) = Some range
      ∧ holds_exactly (ts_host s) context range (cs_text (ts_cs s))
      ∧ ts_writes r.2 = ts_writes s ++ [(range, utf16_of text)].
Proof.
  unfold edit_update, gets, fail_if, mbind, hr_bind, E_FAIL, modify. cbn.
  destruct (cs_target_modified (ts_cs s)) eqn:Hm; cbn; [by left |].
  destruct (matches_expected_edit_state _ _ _) as [b|] eqn:Hmatch; cbn; [| by left].
  destruct b; cbn.
  - apply matches_expected_spec in Hmatch as (range & Hr & Hh). rewrite Hr. cbn.
    unfold write_text. destruct (set_text _ _ _) as [h [[]|]]; cbn;
      [| left; by rewrite deliver_writes].
    right. split; [done |]. exists range. split_and!; [done.. |].
    set (s1 := deliver client _).
    assert (ts_writes s1 = ts_writes s ++ [(range, utf16_of text)]) as Hw
      by (unfold s1; by rewrite deliver_writes).
    destruct (cs_target_modified (ts_cs s1)); cbn; [done |].
    by rewrite silent_set_caret.
  - left. destruct (cs_composition (ts_cs s)) as [k|]; cbn; [| done].
    unfold attempt. pose proof (silent_call (λ h, end_composition h k) (mark_external_edit s)) as Hc.
    by destruct (call _ _ _) as [r t].
Qed.
End writes.

(** ** Runs of the service *)

Section runs.
Context {H C R K : Type} `{Host : TsfHost H C R K}.
Implicit Types self : Controller H C R K.
Implicit Types m : TipSessionModel.

(** What the host may do between commands: deliver callbacks, and grant the
    asynchronous session an [OnEndEdit] asked for. *)
Inductive tip_environment : Controller H C R K → Controller H C R K → Prop :=
| env_deliver self :
  tip_environment self (on_tip (λ client t, (tt, deliver client t)) self).2
| env_force_finish self context :
  tip_environment self (on_tip (λ client t, (tt, run_force_finish client context t)) self).2
| env_host self h : tip_environment self (ct_modify (with_host h) self).

(** The exchanges of a run of the service. *)
Inductive tip_run : Controller H C R K → list (TipCommand * TipResponse) → Controller H C R K → Prop :=
| tip_run_nil self : tip_run self [] self
| tip_run_env self self1 self2 t :
  tip_environment self self1 → tip_run self1 t self2 → tip_run self t self2
| tip_run_command self command self2 t :
  tip_run (handle_command self command).2 t self2 →
  tip_run self ((command, (handle_command self command).1) :: t) self2.

(** The runs the contract allows; a session's target may be modified at any
    moment. *)
Inductive contract_run : TipSessionModel → list (TipCommand * TipResponse) → TipSessionModel → Prop :=
| contract_run_nil m : contract_run m [] m
| contract_run_modified m m2 t :
  contract_run (tm_terminate m) t m2 → contract_run m t m2
| contract_run_command m command resp m1 m2 t :
  tip_contract m command resp m1 → contract_run m1 t m2 →
  contract_run m ((command, resp) :: t) m2.

Lemma models_environment self self' m :
  models (ct_cs self) m → tip_environment self self' →
  models (ct_cs self') m ∨ models (ct_cs self') (tm_terminate m).
Proof.
  intros Hm He. pose proof Hm as (_ & _ & _ & Hmod & _ & _ & _ & Happ).
  assert (∀ t : tip_state H C R K, session_of (ts_cs t) = session_of (ct_cs self) →
    (cs_target_modified (ct_cs self) = true → cs_target_modified (ts_cs t) = true) →
    models (ts_cs t) m ∨ models (ts_cs t) (tm_terminate m)) as Hkeep.
  { intros t Ht Hk. unfold session_of in Ht.
    injection Ht as H1 H2 H3 H4 H5.
    assert (session_id_text (ts_cs t) = session_id_text (ct_cs self)) as Hst
      by (unfold session_id_text; congruence).
    destruct (cs_target_modified (ts_cs t)) eqn:Hmt.
    - right. eapply models_modified; [done..| congruence].
    - left. eapply models_same; [done..| | congruence].
      destruct (cs_target_modified (ct_cs self)); [| done]. by specialize (Hk eq_refl). }
  destruct He as [self|self context|self h]; unfold on_tip, ct_modify, ct_cs in *; cbn.
  - apply Hkeep; apply deliver_session.
  - unfold run_force_finish, DoEditSession, edit_finish, gets, mbind, hr_bind, modify, attempt. cbn.
    set (s := ct_tip self) in *.
    assert (∀ s1 : tip_state H C R K, session_of (ts_cs s1) = session_of (ts_cs s) →
      (cs_target_modified (ts_cs s) = true → cs_target_modified (ts_cs s1) = true) →
      let s2 := mark_terminated s1 in
      let s3 := deliver (ct_client_id self)
                  (with_host (release_lock (ts_host s2) context) s2) in
      models (ts_cs s3) m ∨ models (ts_cs s3) (tm_terminate m)) as Hend.
    { intros s1 H1 H2 s2 s3. destruct (mark_terminated_same s1) as [H3 H4].
      destruct (deliver_session (ct_client_id self)
        (with_host (release_lock (ts_host s2) context) s2)) as [H5 H6].
      apply Hkeep; [etrans; [apply H5 |]; etrans; [apply H3 | apply H1] |].
      intros Ht. apply H6. cbn. unfold s2. rewrite H4. auto. }
    destruct (cs_composition (ts_cs s)) as [k|]; cbn.
    + unfold call. destruct (end_composition (ts_host s) k) as [h r]. cbn.
      destruct (deliver_session (ct_client_id self) (with_host h s)). apply Hend; done.
    + by apply Hend.
  - left. done.
Qed.

(** C20. Run refinement. Every exchange of a run of the
    service, the host's callbacks and asynchronous sessions interleaved at
    will, is a run of the reference session. *)
Theorem controller_run_refines self self' m t :
  models (ct_cs self) m → tip_run self t self' →
  ∃ m', models (ct_cs self') m' ∧ contract_run m t m'.
Proof.
  intros Hm Hr. revert m Hm. induction Hr as [self|self self1 self2 t He Hr IH|self cmd self2 t Hr IH];
    intros m Hm.
  - exists m. eauto using contract_run.
  - destruct (models_environment _ _ _ Hm He) as [Hm1|Hm1];
      destruct (IH _ Hm1) as (m' & ? & ?); eauto using contract_run.
  - assert (∃ m1, models (ct_cs (handle_command self cmd).2) m1
      ∧ tip_contract m cmd (handle_command self cmd).1 m1) as (m1 & Hm1 & Hc).
    { destruct cmd; cbn -[tip_contract]; eauto using ct_begin_refines, ct_update_refines,
        ct_finish_refines, ct_cancel_refines.
      - exists m. split; [done |]. pose proof Hm as (-> & -> & _ & -> & _). done.
      - by exists m. }
    destruct (IH _ Hm1) as (m' & ? & ?). eauto using contract_run.
Qed.

(** The host as the edit finds it: the lock granted and the callbacks due at
    the grant delivered. *)
Definition locked (self : Controller H C R K) (context : C) : H :=
  ts_host (call (ct_client_id self) (λ h, request_sync_lock h context (ct_client_id self))
             (with_cs (set_applying true) (ct_tip self))).2.

(** C2. Update safety. An [Update] writes to the
    document at most once, and only when it continues the open, unmodified
    session with a newer sequence and the composition held, under the document
    lock, exactly the text last applied with the caret at its end; what it
    writes is the phone's full text. *)
Theorem update_writes_over_last_text self sid seq text :
  let r := handle_command self (TcUpdate sid seq text) in
  ts_writes (ct_tip r.2) = ts_writes (ct_tip self)
  ∨ cs_session_id (ct_cs self) = Some sid
    ∧ cs_target_modified (ct_cs self) = false
    ∧ cs_sequence (ct_cs self) < seq
    ∧ ∃ context range,
        active_focused_context self = Some context
        ∧ holds_exactly (locked self context) context range (cs_text (ct_cs self))
        ∧ ts_writes (ct_tip r.2) = ts_writes (ct_tip self) ++ [(range, utf16_of text)].
Proof.
  cbn. unfold ct_update.
  case_bool_decide as Hs; cbn; [| by left].
  destruct (cs_target_modified (ct_cs self)) eqn:Hm; [by left |].
  destruct (Z.ltb_spec seq (cs_sequence (ct_cs self))); [by left |].
  destruct (Z.eqb_spec seq (cs_sequence (ct_cs self))); [by left |].
  destruct (active_focused_context self) as [context|]; [| by left].
  unfold ct_edit, on_tip, request_edit, locked. cbv zeta.
  set (s0 := with_cs (set_applying true) (ct_tip self)).
  set (lock := call _ _).
  pose proof (silent_call (ct_client_id self)
    (λ h, request_sync_lock h context (ct_client_id self)) s0 : _ = _) as Hw0.
  pose proof (quiet_call (ct_client_id self)
    (λ h, request_sync_lock h context (ct_client_id self)) s0 eq_refl) as [Hq0 _].
  fold lock in Hw0, Hq0. destruct (lock s0) as [[[]|] s1] eqn:Hlock; cbn in *; [| by left].
  pose proof (edit_update_writes (ct_client_id self) context text s1) as Hu. cbn in Hu.
  destruct (edit_update (ct_client_id self) context text s1) as [r s2]. cbn in Hu.
  set (s3 := deliver _ _).
  assert (ts_writes s3 = ts_writes s2) as Hw3 by (unfold s3; by rewrite deliver_writes).
  assert (cs_text (ts_cs s1) = cs_text (ct_cs self)) as Ht
    by (unfold session_of in Hq0; unfold ct_cs; cbn in Hq0; congruence).
  destruct Hu as [Hu|(_ & range & _ & Hh & Hu)].
  - left. destruct r; cbn; congruence.
  - right. split_and!; [done.. | lia |]. exists context, range. rewrite <- Ht.
    fold lock. rewrite Hlock. split_and!; [done.. |]. destruct r; cbn; congruence.
Qed.
End runs.

(** ** A host to run the service on

    A document of UTF-16 units with its caret at the end, one context, every
    call accepted. *)
#[export] Instance plain_host : TsfHost (list Z) unit unit unit := {|
  is_thread_focus _ _ := Some true; focus_top_context _ _ := Some tt;
  cast_ok _ _ _ := true; get_selection _ _ := Some tt;
  get_text h _ n := Some (take (Z.to_nat n) h); is_empty _ _ := Some true;
  compare_start_to_end _ _ _ := Some 0; acp_extent _ _ := None;
  get_focus_window _ := None; window_class _ _ := EmptyString;
  advise_sink h _ := (h, Some 1); unadvise_sink h _ := h;
  request_sync_lock h _ _ := (h, Some tt); release_lock h _ := h;
  request_async_session h _ _ := (h, Some tt);
  insert_query_only h _ := (h, Some tt); clone_range h _ := (h, Some tt);
  set_gravity h _ := (h, Some tt); acp_set_extent h _ _ _ := (h, None);
  shift_start h _ _ := (h, None); start_composition h _ _ := (h, Some tt);
  end_composition h _ := (h, Some tt); set_text _ _ t := (t, Some tt);
  collapse_to_end h _ := (h, Some tt); set_selection h _ _ := (h, Some tt);
  sci_send h _ _ := (h, 0); create_message_window h := (h, Some 7);
  destroy_window h _ := h; start_worker h _ := (h, 9); stop_worker h _ := h;
  take_callbacks h := ([], h);
|}.

Definition fresh_controller : Controller (list Z) unit unit unit :=
  mkController None 0 None None (mkTipState CompositionState_default [] []).

(** [Controller::default] after [activate]. *)
Definition active_controller : Controller (list Z) unit unit unit :=
  (activate 3 4 fresh_controller).2.

Lemma active_controller_models : models (ct_cs active_controller) TipSessionModel_default.
Proof. apply models_default. Qed.

Example active_controller_dictates :
  let c1 := (handle_command active_controller (TcBegin "s" 0 "" false)).2 in
  let '(r, c2) := handle_command c1 (TcUpdate "s" 1 "hi") in
  r = TrApplied "s" 1 ∧ ts_host (ct_tip c2) = [104; 105]
  ∧ (handle_command c2 (TcFinish "s" 1)).1 = TrFinished "s" 1.
Proof. by vm_compute. Qed.

Lemma controller_refines_model_witness :
  models (ct_cs active_controller) TipSessionModel_default ∧
  ∃ m', models (ct_cs (handle_command active_controller (TcBegin "s" 0 "" false)).2) m'
    ∧ tip_contract TipSessionModel_default (TcBegin "s" 0 "" false)
        (handle_command active_controller (TcBegin "s" 0 "" false)).1 m'.
Proof.
  split; [apply active_controller_models |].
  apply (controller_refines_model active_controller TipSessionModel_default).
  apply active_controller_models.
Defined.

Lemma controller_run_refines_witness :
  let run := [(TcBegin "s" 0 "" false, TrBegun "s"); (TcPing, TrReady)] in
  ∃ self', tip_run active_controller run self'
    ∧ ∃ m', models (ct_cs self') m' ∧ contract_run TipSessionModel_default run m'.
Proof.
  assert (∃ self', tip_run active_controller
    [(TcBegin "s" 0 "" false, TrBegun "s"); (TcPing, TrReady)] self') as [self' Hr].
  { eexists. refine (tip_run_command active_controller (TcBegin "s" 0 "" false) _ _ _).
    refine (tip_run_command _ TcPing _ _ _). apply tip_run_nil. }
  exists self'. split; [exact Hr |].
  apply (controller_run_refines active_controller self' TipSessionModel_default _
    active_controller_models Hr).
Defined.
