(* ===== verification/TipWorker.v ===== *)
(** * The worker of the text service

    [flowtype-tip/src/ipc.rs], [lifetime.rs], [factory.rs] and the message window of
    [service.rs]: in every thread of a host process a service has a worker that carries
    the commands of the injector from a pipe to the thread of the controller and the
    answers back; the library counts what still needs its code. What the pipe, the
    random numbers and the message queue answer is part of an event. *)

From S2P Require Import Prelude Text Protocol TipModel TipService.
Local Open Scope Z_scope.

(** ** Commands that wait *)

(** A channel: the worker that receives, and the how manieth of its channels it is. *)
Notation channel := (Z * Z)%type.

(** [tip/ipc.rs PendingCommand] *)
Record PendingCommand := mkPending { pn_command : TipCommand; pn_response : channel }.

(** The map of [PendingCommands]. *)
Notation PendingCommands := (gmap Z PendingCommand).

(** [tip/ipc.rs PendingCommands::insert] [randoms] are the numbers drawn. *)
Definition pc_insert (randoms : list Z) (pending : PendingCommand) (commands : PendingCommands)
    : option Z * PendingCommands :=
  match filter (λ token, token ≠ 0 ∧ commands !! token = None) (take 16 randoms) with
  | token :: _ => (Some token, <[token := pending]> commands)
  | [] => (None, commands)
  end.

(** [tip/ipc.rs PendingCommands::take] *)
Definition pc_take (token : Z) (commands : PendingCommands) : option PendingCommand * PendingCommands :=
  (commands !! token, delete token commands).

(** [tip/ipc.rs PendingCommands::remove] *)
Definition pc_remove (token : Z) (commands : PendingCommands) : PendingCommands := delete token commands.

(** [tip/ipc.rs PendingCommands::try_clear] *)
Definition pc_try_clear (locked : bool) (commands : PendingCommands) : PendingCommands :=
  if locked then commands else ∅.

(** ** A worker *)

(** Where the thread is in [run]. *)
Inductive Phase :=
| Connecting | Reading
| Waiting (token number : Z) (answer : option TipResponse)
| Replying (response : TipResponse)
| Gone.
#[export] Instance Phase_eq_dec : EqDecision Phase.
Proof. solve_decision. Defined.

(** What happens on a pipe: it is opened and takes the greeting, a command is read, the
    controller carries it out, the answer is written, and the pipe is closed. *)
Inductive Exchange :=
| ExOpened | ExRead (c : TipCommand) | ExDone (c : TipCommand) (r : TipResponse) | ExWrote (r : TipResponse) | ExClosed.

(** [tip/ipc.rs Worker] With its thread; [wk_number] is the number of channels made. *)
Record Worker := mkWorker {
  wk_service : Z;
  wk_running : bool;
  wk_phase : Phase;
  wk_number : Z;
  wk_log : list Exchange;
}.

Definition at_phase (phase : Phase) (k : Worker) : Worker :=
  mkWorker (wk_service k) (wk_running k) phase (wk_number k) (wk_log k).
Definition logged (e : Exchange) (k : Worker) : Worker :=
  mkWorker (wk_service k) (wk_running k) (wk_phase k) (wk_number k) (wk_log k ++ [e]).

(** A pipe is opened, and is closed by the end of the loop that reads it. *)
Definition connected (k : Worker) : Worker := at_phase Reading (logged ExOpened k).
Definition disconnected (k : Worker) : Worker := at_phase Connecting (logged ExClosed k).

Definition next_channel (k : Worker) : Worker :=
  mkWorker (wk_service k) (wk_running k) (wk_phase k) (wk_number k + 1) (wk_log k).
Definition stopped (k : Worker) : Worker :=
  mkWorker (wk_service k) false (wk_phase k) (wk_number k) (wk_log k).

(** What the outside answers the thread in its next step: the pipe is opened and takes
    the greeting; a command is read, numbers are drawn and the message is posted; 50 ms
    pass; the pipe takes the answer. *)
Inductive WorkerAct :=
| Opened (ok greeted : bool)
| Read (command : option TipCommand) (randoms : list Z) (posted : bool)
| Waited
| Written (ok : bool).

(** [tip/ipc.rs run] A step of the thread [w], with the commands of its service. *)
Definition run (w : Z) (a : WorkerAct) (k : Worker) (commands : PendingCommands) : Worker * PendingCommands :=
  match wk_phase k, a with
  | Connecting, Opened ok greeted =>
    if negb (wk_running k) then (at_phase Gone k, commands)
    else (if ok && greeted then connected k else k, commands)
  | Reading, Read command randoms posted =>
    if negb (wk_running k) then (disconnected k, commands)
    else match command with
         | None => (disconnected k, commands)
         | Some command =>
           let k := logged (ExRead command) (next_channel k) in
           match pc_insert randoms (mkPending command (w, wk_number k)) commands with
           | (None, commands) => (disconnected k, commands)
           | (Some token, commands) =>
             if posted then (at_phase (Waiting token (wk_number k) None) k, commands)
             else (disconnected k, pc_remove token commands)
           end
         end
  | Waiting token number (Some response), Waited => (at_phase (Replying response) k, commands)
  | Waiting token number None, Waited =>
    (* the sender is gone when the command is *)
    if wk_running k && bool_decide (is_Some (commands !! token)) then (k, commands)
    else (disconnected k, pc_remove token commands)
  | Replying response, Written ok =>
    if ok then (at_phase Reading (logged (ExWrote response) k), commands) else (disconnected k, commands)
  | _, _ => (k, commands)
  end.

(** ** The process *)

Section process.
Context {H C R K : Type} `{Host : TsfHost H C R K}.

(** [tip/service.rs TextService] Its controller and worker. *)
Record TextService := mkService {
  sv_controller : Controller H C R K;
  sv_worker : option Z;
}.

(** [tip/lifetime.rs:3-5 OBJECTS] The library in a process: its services, the commands of
    each (which its workers share), the workers, the number of its other objects (class
    factories and the sinks of edits), and the counters. *)
Record Process := mkProcess {
  pr_services : gmap Z TextService;
  pr_pending : gmap Z PendingCommands;
  pr_workers : gmap Z Worker;
  pr_others : Z;
  pr_objects : Z;
  pr_locks : Z;
  pr_keep_loaded : bool;
  pr_terminating : bool;
  pr_next : Z;
}.

Definition on_services (f : gmap Z TextService → gmap Z TextService) (p : Process) : Process :=
  mkProcess (f (pr_services p)) (pr_pending p) (pr_workers p) (pr_others p) (pr_objects p) (pr_locks p)
    (pr_keep_loaded p) (pr_terminating p) (pr_next p).
Definition on_workers (f : gmap Z Worker → gmap Z Worker) (p : Process) : Process :=
  mkProcess (pr_services p) (pr_pending p) (f (pr_workers p)) (pr_others p) (pr_objects p) (pr_locks p)
    (pr_keep_loaded p) (pr_terminating p) (pr_next p).
Definition on_pending (f : gmap Z PendingCommands → gmap Z PendingCommands) (p : Process) : Process :=
  mkProcess (pr_services p) (f (pr_pending p)) (pr_workers p) (pr_others p) (pr_objects p) (pr_locks p)
    (pr_keep_loaded p) (pr_terminating p) (pr_next p).
Definition counted (factories objects locks : Z) (p : Process) : Process :=
  mkProcess (pr_services p) (pr_pending p) (pr_workers p) factories objects locks
    (pr_keep_loaded p) (pr_terminating p) (pr_next p).
Definition next_id (p : Process) : Process :=
  mkProcess (pr_services p) (pr_pending p) (pr_workers p) (pr_others p) (pr_objects p) (pr_locks p)
    (pr_keep_loaded p) (pr_terminating p) (pr_next p + 1).

Definition commands_of (s : Z) (p : Process) : PendingCommands := default ∅ (pr_pending p !! s).

(** [tip/lifetime.rs ObjectGuard::new] *)
Definition ObjectGuard_new (p : Process) : Process :=
  counted (pr_others p) ((pr_objects p + 1) mod 2 ^ 32) (pr_locks p) p.

(** [tip/lifetime.rs ObjectGuard::drop] *)
Definition ObjectGuard_drop (p : Process) : Process :=
  counted (pr_others p) ((pr_objects p - 1) mod 2 ^ 32) (pr_locks p) p.

(** [tip/lifetime.rs keep_loaded_until_process_exit] *)
Definition keep_loaded_until_process_exit (p : Process) : Process :=
  mkProcess (pr_services p) (pr_pending p) (pr_workers p) (pr_others p) (pr_objects p) (pr_locks p) true
    (pr_terminating p) (pr_next p).

(** [tip/lifetime.rs set_server_lock] *)
Definition set_server_lock (locked : bool) (p : Process) : Process :=
  counted (pr_others p) (pr_objects p) (if locked then (pr_locks p + 1) mod 2 ^ 32 else Z.max 0 (pr_locks p - 1)) p.

(** [tip/lifetime.rs can_unload] *)
Definition can_unload (p : Process) : bool := negb (pr_keep_loaded p) && (pr_objects p =? 0) && (pr_locks p =? 0).

(** A step of the thread [w]. *)
Definition worker_step (w : Z) (a : WorkerAct) (p : Process) : Process :=
  match pr_workers p !! w with
  | None => p
  | Some k =>
    let '(k', commands) := run w a k (commands_of (wk_service k) p) in
    on_workers <[w := k']> (on_pending <[wk_service k := commands]> p)
  end.

(** [tip/ipc.rs Worker::start] *)
Definition Worker_start (s : Z) (p : Process) : Z * Process :=
  (pr_next p, next_id (on_workers <[pr_next p := mkWorker s true Connecting 0 []]> p)).

(** [tip/ipc.rs Worker::stop] [during] is what threads do while it waits, at most a
    quarter of a second; [locked] is whether the lock of the commands is then held. *)
Definition Worker_stop (s w : Z) (during : list (Z * WorkerAct)) (locked : bool) (p : Process) : Process :=
  if pr_terminating p then p
  else
    let p := on_workers (alter stopped w) p in
    let p := foldl (λ p '(w, a), worker_step w a p) p during in
    let p := match wk_phase <$> pr_workers p !! w with
             | Some Gone => p
             | _ => keep_loaded_until_process_exit p
             end in
    on_pending <[s := pc_try_clear locked (commands_of s p)]> p.

(** The worker of a service is taken and stopped; stopping does not look at the service. *)
Definition stop_taken (s : Z) (during : list (Z * WorkerAct)) (locked : bool) (p : Process) : Process :=
  match pr_services p !! s with
  | Some sv =>
    match sv_worker sv with
    | Some w => on_services <[s := mkService (sv_controller sv) None]> (Worker_stop s w during locked p)
    | None => p
    end
  | None => p
  end.

Definition on_controller (f : Controller H C R K → Controller H C R K) (s : Z) : Process → Process :=
  on_services (alter (λ sv, mkService (f (sv_controller sv)) (sv_worker sv)) s).

(** [tip/service.rs:115-135 Controller::deactivate] The rest is [deactivate] of [TipService]. *)
Definition Controller_deactivate (s : Z) (during : list (Z * WorkerAct)) (locked : bool) (p : Process) : Process :=
  on_controller deactivate s (stop_taken s during locked p).

(** [tip/service.rs:99-113 Controller::activate] A thread starts only in a process that goes on. *)
Definition Controller_activate (s thread_manager client_id : Z) (during : list (Z * WorkerAct)) (locked : bool)
    (p : Process) : Process :=
  let p := stop_taken s during locked p in
  match pr_services p !! s with
  | None => p
  | Some sv =>
    let '(started, controller) := activate thread_manager client_id (sv_controller sv) in
    match started with
    | Some _ =>
      if pr_terminating p then on_services <[s := mkService controller None]> p
      else let '(w, p) := Worker_start s p in on_services <[s := mkService controller (Some w)]> p
    | None => on_services <[s := mkService controller None]> p
    end
  end.

(** [mpsc::Sender::send]: an answer reaches the worker that still waits at the channel. *)
Definition send_answer (r : TipResponse) (ch : channel) : gmap Z Worker → gmap Z Worker :=
  alter (λ k, match wk_phase k with
              | Waiting token number None => if number =? ch.2 then at_phase (Waiting token number (Some r)) k else k
              | _ => k
              end) ch.1.

(** [tip/service.rs window_proc] [WM_TIP_COMMAND] with any number, whoever posted it. A
    process that ends dispatches no messages. *)
Definition tip_command (s token : Z) (p : Process) : Process :=
  match pr_services p !! s, pr_terminating p with
  | None, _ | _, true => p
  | Some sv, false =>
    let '(taken, commands) := pc_take token (commands_of s p) in
    let p := on_pending <[s := commands]> p in
    match taken with
    | None => p
    | Some pending =>
      let '(response, controller) := handle_command (sv_controller sv) (pn_command pending) in
      let p := on_services <[s := mkService controller (sv_worker sv)]> p in
      on_workers (λ workers, send_answer response (pn_response pending)
                    (alter (logged (ExDone (pn_command pending) response)) (pn_response pending).1 workers)) p
    end
  end.

(** [tip/service.rs TextService::new] *)
Definition TextService_new (h : Controller H C R K) (p : Process) : Process :=
  next_id (on_services <[pr_next p := mkService h None]> (ObjectGuard_new p)).

(** [tip/service.rs TextService::drop] The guard is dropped after it. *)
Definition TextService_drop (s : Z) (during : list (Z * WorkerAct)) (locked : bool) (p : Process) : Process :=
  match pr_services p !! s with
  | None => p
  | Some _ => ObjectGuard_drop (on_services (delete s) (Controller_deactivate s during locked p))
  end.

(** [tip/factory.rs ClassFactory::new] *)
Definition ClassFactory_new (p : Process) : Process :=
  let p := ObjectGuard_new p in counted (pr_others p + 1) (pr_objects p) (pr_locks p) p.
Definition ClassFactory_drop (p : Process) : Process :=
  if 0 <? pr_others p
  then let p := ObjectGuard_drop p in counted (pr_others p - 1) (pr_objects p) (pr_locks p) p
  else p.

(** [tip/composition.rs:346-350 EditOperation::begin] A sink of a composition (one of edits,
    [start_session], is made the same); its number is counted with the factories'. *)
Definition sink_new : Process → Process := ClassFactory_new.

(** [tip/composition.rs:582-586 CompositionSink] The framework may hold a sink for longer
    than the session; its guard is dropped with it. *)
Definition sink_drop : Process → Process := ClassFactory_drop.

(** The process begins to end: the system has ended all its other threads. *)
Definition begin_exit (p : Process) : Process :=
  mkProcess (pr_services p) (pr_pending p) (at_phase Gone <$> pr_workers p) (pr_others p) (pr_objects p) (pr_locks p)
    (pr_keep_loaded p) true (pr_next p).

Inductive HostEvent :=
| Thread (w : Z) (a : WorkerAct)
| TipCommandMessage (s token : Z)
| CreateInstance (h : Controller H C R K)
| Activate (s thread_manager client_id : Z) (during : list (Z * WorkerAct)) (locked : bool)
| Deactivate (s : Z) (during : list (Z * WorkerAct)) (locked : bool)
| Release (s : Z) (during : list (Z * WorkerAct)) (locked : bool)
| GetFactory | ReleaseFactory | GetSink | ReleaseSink | LockServer (locked : bool) | ProcessExit.

Definition host_step (p : Process) (e : HostEvent) : Process :=
  match e with
  | Thread w a => worker_step w a p
  | TipCommandMessage s token => tip_command s token p
  | CreateInstance h => TextService_new h p
  | Activate s thread_manager client_id during locked => Controller_activate s thread_manager client_id during locked p
  | Deactivate s during locked => Controller_deactivate s during locked p
  | Release s during locked => TextService_drop s during locked p
  | GetFactory => ClassFactory_new p
  | ReleaseFactory => ClassFactory_drop p
  | GetSink => sink_new p
  | ReleaseSink => sink_drop p
  | LockServer locked => set_server_lock locked p
  | ProcessExit => begin_exit p
  end.

Definition loaded : Process := mkProcess ∅ ∅ ∅ 0 0 0 false false 0.
Definition host_run (events : list HostEvent) : Process := foldl host_step loaded events.
End process.
Arguments Process : clear implicits.
Arguments TextService : clear implicits.
Arguments HostEvent : clear implicits.
