(* ===== verification/TipWorkerSafety.v ===== *)
(** * The worker answers what it reads, and its code stays

    Over every run of a host process, with any number of services that are activated,
    deactivated and released, and with threads that run on after they were to stop. *)

From S2P Require Import Prelude Text Protocol TipModel TipService TipRefinement TipWorker.
Local Open Scope Z_scope.

(** ** One command at a time *)

(** What is owed on a pipe after what happened on it: nothing while it is shut or idle,
    the outcome of the command that was read, or the answer of the controller. *)
Inductive Owed := Shut | Idle | Outcome (c : TipCommand) | Answer (r : TipResponse).

(** The pipes of a worker, one after the other: on an open pipe a command is read only
    when nothing is owed, it is carried out once, and what the controller answered is
    written; a pipe may be given up at any point, and then nothing more happens on it. *)
Inductive rounds : list Exchange → Owed → Prop :=
| rounds_nil : rounds [] Shut
| rounds_opened l : rounds l Shut → rounds (l ++ [ExOpened]) Idle
| rounds_read l c : rounds l Idle → rounds (l ++ [ExRead c]) (Outcome c)
| rounds_done l c r : rounds l (Outcome c) → rounds (l ++ [ExDone c r]) (Answer r)
| rounds_wrote l r : rounds l (Answer r) → rounds (l ++ [ExWrote r]) Idle
| rounds_closed l o : rounds l o → o ≠ Shut → rounds (l ++ [ExClosed]) Shut.
#[local] Hint Constructors rounds : core.

(** What is owed where the thread is. *)
Definition phase_log (k : Worker) : Prop :=
  match wk_phase k with
  | Connecting => rounds (wk_log k) Shut
  | Reading => rounds (wk_log k) Idle
  | Waiting _ _ None => ∃ c, rounds (wk_log k) (Outcome c)
  | Waiting _ _ (Some r) | Replying r => rounds (wk_log k) (Answer r)
  | Gone => ∃ o, rounds (wk_log k) o
  end.

Lemma phase_log_rounds k : phase_log k → ∃ o, rounds (wk_log k) o.
Proof. unfold phase_log. repeat case_match; naive_solver. Qed.

Definition waits (k : Worker) : Prop := ∃ token number, wk_phase k = Waiting token number None.

(** What a step of a thread does. *)
Inductive ran (w : Z) (k : Worker) (commands : PendingCommands) : Worker → PendingCommands → Prop :=
| ran_same : ran w k commands k commands
| ran_on k' : ¬ waits k → (phase_log k → phase_log k') → wk_service k' = wk_service k → wk_phase k ≠ Gone →
    ran w k commands k' commands
| ran_posted k' c token number : wk_phase k = Reading → wk_service k' = wk_service k →
    wk_phase k' = Waiting token number None → wk_log k' = wk_log k ++ [ExRead c] →
    ran w k commands k' (<[token := mkPending c (w, number)]> commands)
| ran_gave_up token number : wk_phase k = Waiting token number None →
    ran w k commands (disconnected k) (delete token commands).

Lemma ran_elsewhere w k commands k' :
  match wk_phase k with Waiting _ _ None | Gone => False | _ => True end →
  (phase_log k → phase_log k') → wk_service k' = wk_service k → ran w k commands k' commands.
Proof.
  intros Hp Hl Hs. apply ran_on; [| done | done |].
  - intros (t & n & Hw). by rewrite Hw in Hp.
  - intros Hg. by rewrite Hg in Hp.
Qed.

Lemma pc_insert_spec randoms pending commands :
  match pc_insert randoms pending commands with
  | (Some token, commands') => commands !! token = None ∧ commands' = <[token := pending]> commands
  | (None, commands') => commands' = commands
  end.
Proof.
  unfold pc_insert. destruct (filter _ _) as [|token l] eqn:E; [done |].
  assert (token ∈ filter (λ token, token ≠ 0 ∧ commands !! token = None) (take 16 randoms)) as Hin by (rewrite E; left).
  apply list_elem_of_filter in Hin as [[_ Hnone] _]. done.
Qed.

Lemma run_ran w a k commands : ran w k commands (run w a k commands).1 (run w a k commands).2.
Proof.
  pose proof (ran_elsewhere w k commands) as Hon. unfold run.
  destruct (wk_phase k) as [| | token number [r |] | r |] eqn:Hp; destruct a as [ok greeted | command randoms posted | | ok];
    try apply ran_same.
  - repeat case_match; apply Hon; try done; unfold phase_log; rewrite Hp; cbn; eauto.
  - destruct (wk_running k); [| apply Hon; [done | unfold phase_log; rewrite Hp; cbn; eauto | done]]. cbn [negb].
    destruct command as [command |]; [| apply Hon; [done | unfold phase_log; rewrite Hp; cbn; eauto | done]].
    pose proof (pc_insert_spec randoms (mkPending command (w, wk_number (logged (ExRead command) (next_channel k)))) commands) as Hins.
    destruct (pc_insert _ _ _) as [[token |] commands']; [destruct Hins as [Hfree ->]; destruct posted | subst commands'].
    + by apply ran_posted.
    + unfold pc_remove. rewrite delete_insert_id by done. apply Hon; [done | | done]. unfold phase_log. rewrite Hp. cbn. eauto.
    + apply Hon; [done | | done]. unfold phase_log. rewrite Hp. cbn. eauto.
  - apply Hon; [done | unfold phase_log; by rewrite Hp | done].
  - case_match; [apply ran_same | by eapply ran_gave_up].
  - destruct ok; (apply Hon; [done | | done]); unfold phase_log; rewrite Hp; cbn; eauto.
Qed.

(** ** What holds in every run *)

Section safety.
Context {H C R K : Type} `{Host : TsfHost H C R K}.
Notation Process := (Process H C R K).
Implicit Types (p : Process).

(** A command that waits is the one its worker read last and waits for. *)
Definition awaited p : Prop :=
  ∀ s token pn, commands_of s p !! token = Some pn →
  ∃ k, pr_workers p !! (pn_response pn).1 = Some k ∧ wk_service k = s ∧
    wk_phase k = Waiting token (pn_response pn).2 None ∧ rounds (wk_log k) (Outcome (pn_command pn)).

Record orderly p : Prop := {
  or_log : map_Forall (λ _ k, phase_log k) (pr_workers p);
  or_awaited : pr_terminating p = false → awaited p;
}.

Lemma commands_of_insert s s' cs p :
  commands_of s' (on_pending <[s := cs]> p) = if bool_decide (s = s') then cs else commands_of s' p.
Proof.
  unfold commands_of. cbn. case_bool_decide as Hs; [subst; by rewrite lookup_insert_eq | by rewrite lookup_insert_ne].
Qed.

Lemma worker_step_orderly w a p : orderly p → orderly (worker_step w a p).
Proof.
  intros [Hlog Haw]. unfold worker_step. destruct (pr_workers p !! w) as [k |] eqn:Hk; [| done].
  pose proof (run_ran w a k (commands_of (wk_service k) p)) as Hran.
  destruct (run w a k (commands_of (wk_service k) p)) as [k' commands]. cbn [fst snd] in Hran.
  pose proof (Hlog _ _ Hk) as Hl. cbn in Hl. split.
  - cbn. apply map_Forall_insert_2; [| done]. inversion Hran as [| k1 Hw Hkl Hs | k1 c token number Hp Hs Hp' Hl' | token number Hp]; subst; auto.
    + unfold phase_log in *. rewrite Hp', Hl'. rewrite Hp in Hl. eauto.
    + unfold phase_log in *. rewrite Hp in Hl. cbn. destruct Hl as (c & Hl). eauto.
  - intros Ht. specialize (Haw Ht). rename Haw into Hawaited. intros s token pn. change (pr_workers _) with (<[w := k']> (pr_workers p)).
    change (commands_of s (on_workers _ ?q)) with (commands_of s q). rewrite commands_of_insert. intros Hpn.
    (* commands other workers wait for *)
    assert (∀ s t pn, commands_of s p !! t = Some pn → (pn_response pn).1 ≠ w →
      ∃ k, <[w := k']> (pr_workers p) !! (pn_response pn).1 = Some k ∧ wk_service k = s ∧
        wk_phase k = Waiting t (pn_response pn).2 None ∧ rounds (wk_log k) (Outcome (pn_command pn))) as Hother.
    { intros s0 t0 pn0 Hpn0 Hw. rewrite lookup_insert_ne by done. by apply Hawaited. }
    (* commands this worker waits for *)
    assert (∀ s t pn, commands_of s p !! t = Some pn → (pn_response pn).1 = w →
      wk_phase k = Waiting t (pn_response pn).2 None ∧ wk_service k = s ∧ rounds (wk_log k) (Outcome (pn_command pn))) as Hown.
    { intros s0 t0 pn0 Hpn0 Hw. destruct (Hawaited _ _ _ Hpn0) as (k0 & Hk0 & Hs & Hp & Hl0).
      rewrite Hw, Hk in Hk0. simplify_eq. eauto. }
    inversion Hran as [| k1 Hnw Hkl Hs | k1 c token' number Hp Hs Hp' Hl' | token' number Hp]; subst.
    + assert (commands_of s p !! token = Some pn) as Hin by (case_bool_decide; [by subst | done]).
      destruct (decide ((pn_response pn).1 = w)) as [Hw | Hw]; [| by apply Hother].
      destruct (Hown _ _ _ Hin Hw) as (Hph & Hsv & Hll). exists k'. by rewrite Hw, lookup_insert_eq.
    + assert (commands_of s p !! token = Some pn) as Hin by (case_bool_decide; [by subst | done]).
      destruct (decide ((pn_response pn).1 = w)) as [Hw | Hw]; [| by apply Hother].
      destruct (Hown _ _ _ Hin Hw) as (Hph & _). destruct Hnw. by eexists _, _.
    + assert (commands_of s p !! token = Some pn ∨ wk_service k = s ∧ token' = token ∧ pn = mkPending c (w, number)) as [Hin | (Hsv & -> & ->)].
      { case_bool_decide as Hsv; [| by left]. apply lookup_insert_Some in Hpn as [[-> <-] | [_ Hpn]]; [by right |].
        left. by rewrite <- Hsv. }
      * destruct (decide ((pn_response pn).1 = w)) as [Hw | Hw]; [| by apply Hother].
        destruct (Hown _ _ _ Hin Hw) as (Hph & _). congruence.
      * cbn. exists k'. rewrite lookup_insert_eq. split_and!; try done; [by rewrite Hs |].
        unfold phase_log in Hl. rewrite Hp in Hl. rewrite Hl'. auto.
    + assert (commands_of s p !! token = Some pn ∧ (s = wk_service k → token ≠ token')) as [Hin Hne].
      { case_bool_decide as Hsv; [| by split; [| intros ->]].
        apply lookup_delete_Some in Hpn as [Hne Hpn]. subst. split; [done | by intros _]. }
      destruct (decide ((pn_response pn).1 = w)) as [Hw | Hw]; [| by apply Hother].
      destruct (Hown _ _ _ Hin Hw) as (Hph & Hsv & _). rewrite Hp in Hph. injection Hph as -> _. by destruct Hne.
Qed.

(** Orderliness reads the workers, their commands and whether the process ends. *)
Lemma orderly_same p p' :
  pr_workers p' = pr_workers p → pr_pending p' = pr_pending p → pr_terminating p' = pr_terminating p →
  orderly p → orderly p'.
Proof.
  intros Hw Hp Ht [Hlog Haw]. split; [by rewrite Hw |]. rewrite Ht. intros Hnt s token pn. unfold commands_of.
  rewrite Hp, Hw. by apply Haw.
Qed.

Lemma fewer_commands_orderly f p :
  (∀ s token pn, commands_of s (on_pending f p) !! token = Some pn → commands_of s p !! token = Some pn) →
  orderly p → orderly (on_pending f p).
Proof. intros Hf [Hlog Haw]. split; [done |]. intros Ht s token pn Hpn%Hf. by apply Haw. Qed.

Lemma tip_command_orderly s token p : orderly p → orderly (tip_command s token p).
Proof.
  intros Hp. unfold tip_command. destruct (pr_services p !! s) as [sv |]; [| done].
  destruct (pr_terminating p) eqn:Ht; [done |]. destruct Hp as [Hlog Haw]. specialize (Haw Ht). unfold pc_take.
  assert (∀ s' t pn, commands_of s' (on_pending <[s := delete token (commands_of s p)]> p) !! t = Some pn →
    commands_of s' p !! t = Some pn ∧ (s' = s → t ≠ token)) as Hdel.
  { intros s' t pn. rewrite commands_of_insert. case_bool_decide as Hs; [subst | by split; [| intros ->]].
    by intros [? ?]%lookup_delete_Some. }
  destruct (commands_of s p !! token) as [pending |] eqn:Hpending.
  - destruct (handle_command (sv_controller sv) (pn_command pending)) as [response controller].
    destruct (Haw _ _ _ Hpending) as (k & Hk & Hs & Hp & Hr).
    set (w := (pn_response pending).1) in *.
    pose (k' := at_phase (Waiting token (pn_response pending).2 (Some response)) (logged (ExDone (pn_command pending) response) k)).
    assert (∀ m : gmap Z Worker, m !! w = Some k →
      send_answer response (pn_response pending) (alter (logged (ExDone (pn_command pending) response)) w m) = <[w := k']> m) as Hsend.
    { intros m Hm. apply map_eq. intros w'. unfold send_answer. fold w. destruct (decide (w = w')) as [<- | Hw].
      - rewrite lookup_insert_eq, !lookup_alter_eq, Hm. cbn. by rewrite Hp, Z.eqb_refl.
      - by rewrite lookup_insert_ne, !lookup_alter_ne. }
    split.
    + cbn. rewrite Hsend by done. apply map_Forall_insert_2; [| done]. unfold phase_log. cbn. auto.
    + intros _ s' t pn Hpn. change (commands_of s' (on_workers _ (on_services _ ?q))) with (commands_of s' q) in Hpn.
      apply Hdel in Hpn as [Hpn Hne]. destruct (Haw _ _ _ Hpn) as (k0 & Hk0 & Hs0 & Hp0 & Hl0). cbn. rewrite Hsend by done.
      exists k0. rewrite lookup_insert_ne; [done |]. intros Hw. rewrite <- Hw, Hk in Hk0. injection Hk0 as <-.
      rewrite Hp in Hp0. injection Hp0 as <- _. by apply Hne; [congruence |].
  - apply fewer_commands_orderly; [by intros s' t pn [? _]%Hdel | by split].
Qed.

Lemma steps_orderly during p : orderly p → orderly (foldl (λ p '(w, a), worker_step w a p) p during).
Proof. revert p. induction during as [|[w a] during IH]; intros p Hp; [done |]. by apply IH, worker_step_orderly. Qed.

Lemma stopped_orderly w p : orderly p → orderly (on_workers (alter stopped w) p).
Proof.
  intros [Hlog Haw]. split.
  - intros w' k' Hk'. cbn in Hk'. destruct (decide (w = w')) as [<- | Hw].
    + rewrite lookup_alter_eq in Hk'. apply fmap_Some in Hk' as (k & Hk & ->). apply (Hlog _ _ Hk).
    + rewrite lookup_alter_ne in Hk' by done. apply (Hlog _ _ Hk').
  - intros Ht s token pn Hpn. destruct (Haw Ht s token pn Hpn) as (k & Hk & Hall). cbn.
    destruct (decide (w = (pn_response pn).1)) as [-> | Hw].
    + rewrite lookup_alter_eq, Hk. by exists (stopped k).
    + rewrite lookup_alter_ne by done. by exists k.
Qed.

Lemma stop_orderly s w during locked p : orderly p → orderly (Worker_stop s w during locked p).
Proof.
  intros Hp. unfold Worker_stop. destruct (pr_terminating p); [done |].
  apply (stopped_orderly w), (steps_orderly during) in Hp. revert Hp.
  generalize (foldl (λ p '(w, a), worker_step w a p) (on_workers (alter stopped w) p) during). intros p' Hp'.
  apply fewer_commands_orderly.
  - intros s' t pn. rewrite commands_of_insert. case_bool_decide as Hs; [subst | done]. by destruct locked.
  - repeat case_match; try done; by eapply orderly_same; [| | | exact Hp'].
Qed.

Lemma stop_taken_orderly s during locked p : orderly p → orderly (stop_taken s during locked p).
Proof.
  intros Hp. unfold stop_taken. repeat case_match; try done. eapply orderly_same; [| | | by apply stop_orderly]; done.
Qed.

Lemma deactivate_orderly s during locked p : orderly p → orderly (Controller_deactivate s during locked p).
Proof.
  intros Hp. unfold Controller_deactivate, on_controller.
  eapply orderly_same; [| | | by apply (stop_taken_orderly s during locked)]; done.
Qed.

(** ** Whose worker it is *)

(** A worker that runs is its service's, or the library stays loaded. *)
Record kept p : Prop := {
  k_numbered : ∀ w, is_Some (pr_workers p !! w) → w < pr_next p;
  k_services : ∀ s, is_Some (pr_services p !! s) → s < pr_next p;
  k_others : 0 ≤ pr_others p;
  k_objects : pr_objects p = (Z.of_nat (size (pr_services p)) + pr_others p) mod 2 ^ 32;
  k_alive w k : pr_workers p !! w = Some k → wk_phase k ≠ Gone →
    pr_keep_loaded p = true ∨ ∃ s sv, pr_services p !! s = Some sv ∧ sv_worker sv = Some w;
  k_exit w k : pr_terminating p = true → pr_workers p !! w = Some k → wk_phase k = Gone;
}.

(** Threads do nothing but go on or end. *)
Record threads_only p p' : Prop := {
  to_services : pr_services p' = pr_services p;
  to_others : pr_others p' = pr_others p;
  to_objects : pr_objects p' = pr_objects p;
  to_loaded : pr_keep_loaded p' = pr_keep_loaded p;
  to_terminating : pr_terminating p' = pr_terminating p;
  to_next : pr_next p' = pr_next p;
  to_workers w k' : pr_workers p' !! w = Some k' →
    ∃ k, pr_workers p !! w = Some k ∧ (wk_phase k = Gone → wk_phase k' = Gone);
}.
#[export] Instance threads_only_pre : PreOrder threads_only.
Proof.
  split; [intros p; split; eauto |]. intros p1 p2 p3 [] [H1 H2 H3 H4 H5 H6 Hw]. split; [congruence.. |].
  intros w k' (k2 & Hk2 & Hg2)%Hw. destruct (to_workers0 _ _ Hk2) as (k & Hk & Hg). eauto.
Qed.

Lemma worker_step_threads w a p : threads_only p (worker_step w a p).
Proof.
  unfold worker_step. destruct (pr_workers p !! w) as [k |] eqn:Hk; [| done].
  pose proof (run_ran w a k (commands_of (wk_service k) p)) as Hran.
  destruct (run w a k (commands_of (wk_service k) p)) as [k' commands]. cbn [fst snd] in Hran.
  split; [done.. |]. intros w' k0. cbn. intros [[<- <-] | [Hw Hk0]]%lookup_insert_Some; [| eauto].
  exists k. split; [done |]. intros Hg. inversion Hran; subst; congruence.
Qed.

Lemma steps_threads during p : threads_only p (foldl (λ p '(w, a), worker_step w a p) p during).
Proof.
  revert p. induction during as [|[w a] during IH]; intros p; [done |]. etrans; [apply (worker_step_threads w a) | apply IH].
Qed.

Lemma stopped_threads w p : threads_only p (on_workers (alter stopped w) p).
Proof.
  split; [done.. |]. intros w' k'. cbn. destruct (decide (w = w')) as [<- | Hw].
  - rewrite lookup_alter_eq. intros (k & Hk & ->)%fmap_Some. by exists k.
  - rewrite lookup_alter_ne by done. eauto.
Qed.

Lemma pending_threads f p : threads_only p (on_pending f p).
Proof. split; eauto. Qed.

Lemma kept_threads p p' : threads_only p p' → kept p → kept p'.
Proof.
  intros [Hs Hf Ho Hl Ht Hn Hw] [K1 K2 K3 K4 K5 K6]. split.
  - intros w [k' (k & Hk & _)%Hw]. rewrite Hn. eauto.
  - by rewrite Hs, Hn.
  - by rewrite Hf.
  - by rewrite Ho, Hs, Hf.
  - intros w k' (k & Hk & Hg)%Hw Halive. rewrite Hl, Hs. eapply K5; [done | auto].
  - intros w k' Hterm (k & Hk & Hg)%Hw. apply Hg, (K6 w); [by rewrite <- Ht | done].
Qed.

(** A service is replaced whose worker is kept, or gone, or the library stays. *)
Lemma kept_replace s sv sv' p :
  pr_services p !! s = Some sv →
  (∀ w k, sv_worker sv = Some w → pr_workers p !! w = Some k → wk_phase k ≠ Gone →
     pr_keep_loaded p = true ∨ sv_worker sv' = Some w) →
  kept p → kept (on_services <[s := sv']> p).
Proof.
  intros Hs Hw [K1 K2 K3 K4 K5 K6]. split; try done.
  - intros s' [sv0 Hsv]. cbn in Hsv. apply lookup_insert_Some in Hsv as [[<- _] | [_ ?]]; eauto.
  - cbn. by rewrite map_size_insert_Some by eauto.
  - intros w k Hk Halive. cbn. destruct (K5 w k Hk Halive) as [Hl | (s' & sv0 & Hs' & Hw')]; [by left |].
    destruct (decide (s = s')) as [<- | Hne].
    + simplify_eq. destruct (Hw w k Hw' Hk Halive) as [? | ?]; [by left |]. right. exists s, sv'. by rewrite lookup_insert_eq.
    + right. exists s', sv0. by rewrite lookup_insert_ne.
Qed.

Lemma kept_loaded p : kept p → kept (keep_loaded_until_process_exit p).
Proof. intros [K1 K2 K3 K4 K5 K6]. split; try done. intros. by left. Qed.

(** After a worker was to stop it is gone, or the library stays. *)
Lemma stop_outcome s w during locked p :
  kept p →
  let p' := Worker_stop s w during locked p in
  kept p' ∧ pr_services p' = pr_services p ∧
  (∀ k, pr_workers p' !! w = Some k → wk_phase k ≠ Gone → pr_keep_loaded p' = true).
Proof.
  intros Hp. cbn zeta. unfold Worker_stop. destruct (pr_terminating p) eqn:Ht.
  { split; [done |]. split; [done |]. intros k Hk Halive. by destruct (Halive (k_exit p Hp w k Ht Hk)). }
  pose proof (stopped_threads w p) as H1. pose proof (steps_threads during (on_workers (alter stopped w) p)) as H2.
  set (p2 := foldl _ _ during) in *. assert (threads_only p p2) as H12 by (by etrans).
  pose proof (kept_threads _ _ H12 Hp) as Hp2. pose proof (to_services _ _ H12) as Hs2. cbn zeta.
  set (p3 := match wk_phase <$> pr_workers p2 !! w with Some Gone => p2 | _ => keep_loaded_until_process_exit p2 end).
  assert (kept p3 ∧ pr_services p3 = pr_services p2 ∧ pr_workers p3 = pr_workers p2 ∧
    (pr_keep_loaded p3 = true ∨ wk_phase <$> pr_workers p2 !! w = Some Gone)) as (Hp3 & Hs3 & Hw3 & Hdone).
  { subst p3. repeat case_match; (split; [by (exact Hp2 || apply kept_loaded) |]); auto. }
  split; [by eapply kept_threads; [apply pending_threads |] |].
  split; [by cbn; rewrite Hs3, Hs2 |]. intros k Hk Halive. cbn in *. destruct Hdone as [? | Hgone]; [done |].
  rewrite Hw3 in Hk. rewrite Hk in Hgone. cbn in Hgone. congruence.
Qed.

Definition resting s p : Prop := ∀ sv, pr_services p !! s = Some sv → sv_worker sv = None.

Lemma stop_taken_kept s during locked p :
  kept p → kept (stop_taken s during locked p) ∧ resting s (stop_taken s during locked p).
Proof.
  intros Hp. unfold stop_taken, resting. destruct (pr_services p !! s) as [sv |] eqn:Hs; [| split; [done |]; intros; congruence].
  destruct (sv_worker sv) as [w |] eqn:Hw; [| split; [done |]; intros; congruence].
  destruct (stop_outcome s w during locked p Hp) as (Hp' & Hs' & Hgone). split.
  - apply (kept_replace s sv); [by rewrite Hs' | | done]. intros w' k Hw' Hk Halive. rewrite Hw in Hw'. injection Hw' as <-.
    left. eauto.
  - intros sv0. cbn. rewrite lookup_insert_eq. by intros [= <-].
Qed.

Lemma on_controller_kept f s p : kept p → kept (on_controller f s p).
Proof.
  intros Hp. unfold on_controller. destruct (pr_services p !! s) as [sv |] eqn:Hs.
  - replace (on_services _ p) with (on_services <[s := mkService (f (sv_controller sv)) (sv_worker sv)]> p);
      [apply (kept_replace s sv); auto |].
    unfold on_services. f_equal. apply map_eq. intros s'. destruct (decide (s = s')) as [<- | Hne].
    + by rewrite lookup_insert_eq, lookup_alter_eq, Hs.
    + by rewrite lookup_insert_ne, lookup_alter_ne.
  - replace (on_services _ p) with p; [done |]. destruct p. unfold on_services. cbn in *. f_equal.
    apply map_eq. intros s'. destruct (decide (s = s')) as [<- | Hne]; [by rewrite lookup_alter_eq, Hs | by rewrite lookup_alter_ne].
Qed.

Lemma deactivate_kept s during locked p :
  kept p → kept (Controller_deactivate s during locked p) ∧ resting s (Controller_deactivate s during locked p).
Proof.
  intros Hp. unfold Controller_deactivate. destruct (stop_taken_kept s during locked p Hp) as [Hk Hr].
  split; [by apply on_controller_kept |]. intros sv. unfold on_controller. cbn. rewrite lookup_alter_eq.
  intros (sv0 & Hsv0 & ->)%fmap_Some. cbn. by apply Hr.
Qed.

(** ** Every event *)

Definition sound p : Prop := orderly p ∧ kept p.

Lemma start_sound s controller p :
  pr_terminating p = false → (∃ sv, pr_services p !! s = Some sv) → resting s p → sound p →
  sound (on_services <[s := mkService controller (Some (pr_next p))]> (Worker_start s p).2).
Proof.
  intros Ht (sv & Hs) Hrest [[Hlog Haw] [K1 K2 K3 K4 K5 K6]]. unfold Worker_start. cbn [snd].
  assert (pr_workers p !! pr_next p = None) as Hfresh.
  { destruct (pr_workers p !! pr_next p) eqn:E; [| done]. specialize (K1 (pr_next p) ltac:(eauto)). lia. }
  split; split; cbn.
  - apply map_Forall_insert_2; [constructor | done].
  - intros _ s' token pn Hpn. destruct (Haw Ht s' token pn Hpn) as (k & Hk & Hall). exists k.
    cbn. rewrite lookup_insert_ne; [done |]. intros Heq. by rewrite <- Heq, Hfresh in Hk.
  - intros w [k Hk]. apply lookup_insert_Some in Hk as [[<- _] | [_ Hk]]; [lia |]. specialize (K1 w ltac:(eauto)). lia.
  - intros s' [sv' Hs']. apply lookup_insert_Some in Hs' as [[<- _] | [_ Hs']]; [specialize (K2 s ltac:(eauto)); lia |].
    specialize (K2 s' ltac:(eauto)). lia.
  - done.
  - by rewrite map_size_insert_Some by eauto.
  - intros w k Hk Halive. apply lookup_insert_Some in Hk as [[<- _] | [Hne Hk]].
    + right. eexists s, _. by rewrite lookup_insert_eq.
    + destruct (K5 w k Hk Halive) as [? | (s' & sv' & Hs' & Hw')]; [by left | right].
      exists s', sv'. rewrite lookup_insert_ne; [done |]. intros <-. by rewrite (Hrest sv' Hs') in Hw'.
  - congruence.
Qed.

Lemma replace_sound s sv sv' p :
  pr_services p !! s = Some sv → sv_worker sv = None → sound p → sound (on_services <[s := sv']> p).
Proof.
  intros Hs Hw [Ho Hk]. split; [eapply orderly_same; [| | | exact Ho]; done |].
  apply (kept_replace s sv); [done | | done]. intros. congruence.
Qed.

Lemma activate_sound s thread_manager client_id during locked p :
  sound p → sound (Controller_activate s thread_manager client_id during locked p).
Proof.
  intros [Ho Hk]. unfold Controller_activate. destruct (stop_taken_kept s during locked p Hk) as [Hk' Hrest].
  pose proof (stop_taken_orderly s during locked p Ho) as Ho'. revert Ho' Hk' Hrest. generalize (stop_taken s during locked p).
  intros p1 Ho1 Hk1 Hrest. destruct (pr_services p1 !! s) as [sv |] eqn:Hs; [| by split].
  pose proof (Hrest sv Hs) as Hsv. destruct (activate thread_manager client_id (sv_controller sv)) as [started controller].
  destruct started as [u |]; [| by apply (replace_sound s sv)].
  destruct (pr_terminating p1) eqn:Ht; [by apply (replace_sound s sv) |].
  pose proof (start_sound s controller p1 Ht ltac:(eauto) Hrest (conj Ho1 Hk1)) as Hstart. done.
Qed.

Lemma tip_command_kept s token p : kept p → kept (tip_command s token p).
Proof.
  intros Hp. unfold tip_command. destruct (pr_services p !! s) as [sv |] eqn:Hs; [| done].
  destruct (pr_terminating p); [done |]. unfold pc_take.
  destruct (commands_of s p !! token) as [pending |]; [| by eapply kept_threads; [apply pending_threads |]].
  destruct (handle_command (sv_controller sv) (pn_command pending)) as [response controller].
  eapply kept_threads; [| apply (kept_replace s sv (mkService controller (sv_worker sv))); [exact Hs | by auto | exact Hp]].
  split; [done.. |]. intros w k' Hk'. cbn in *. unfold send_answer in Hk'.
  assert (∀ (f : Worker → Worker) (m : gmap Z Worker) i k, alter f i m !! w = Some k → (∀ k, wk_phase k = Gone → wk_phase (f k) = Gone) →
    ∃ k0, m !! w = Some k0 ∧ (wk_phase k0 = Gone → wk_phase k = Gone)) as Halter.
  { intros f m i k. destruct (decide (i = w)) as [<- | Hne].
    - rewrite lookup_alter_eq. intros (k0 & Hk0 & ->)%fmap_Some Hf. eauto.
    - rewrite lookup_alter_ne by done. eauto. }
  apply Halter in Hk' as (k1 & Hk1 & Hg1); [| intros k Hg; by rewrite Hg].
  apply Halter in Hk1 as (k2 & Hk2 & Hg2); [eauto | done].
Qed.

Lemma counted_kept factories objects locks p :
  0 ≤ factories → objects = (Z.of_nat (size (pr_services p)) + factories) mod 2 ^ 32 → kept p → kept (counted factories objects locks p).
Proof. intros Hf Ho [K1 K2 K3 K4 K5 K6]. by split. Qed.

Lemma wrapped_next a b d n : b = a + d → (a mod n + d) mod n = b mod n.
Proof. intros ->. apply Zplus_mod_idemp_l. Qed.

Lemma guard_kept p n : kept p → n = (pr_objects p + 1) mod 2 ^ 32 → ∀ h,
  kept (next_id (on_services <[pr_next p := mkService h None]> (counted (pr_others p) n (pr_locks p) p))).
Proof.
  intros [K1 K2 K3 K4 K5 K6] -> h.
  assert (pr_services p !! pr_next p = None) as Hfresh.
  { destruct (pr_services p !! pr_next p) eqn:E; [| done]. specialize (K2 (pr_next p) ltac:(eauto)). lia. }
  split; cbn; try done.
  - intros w Hw%K1. lia.
  - intros s [sv Hs]. apply lookup_insert_Some in Hs as [[<- _] | [_ Hs]]; [lia |]. specialize (K2 s ltac:(eauto)). lia.
  - rewrite map_size_insert_None, K4 by done. apply wrapped_next. lia.
  - intros w k Hk Halive. destruct (K5 w k Hk Halive) as [? | (s & sv & Hs & Hw)]; [by left | right].
    exists s, sv. rewrite lookup_insert_ne; [done |]. intros <-. congruence.
Qed.

Lemma release_kept s p : kept p → resting s p → is_Some (pr_services p !! s) → kept (ObjectGuard_drop (on_services (delete s) p)).
Proof.
  intros [K1 K2 K3 K4 K5 K6] Hrest [sv Hs]. split; cbn; try done.
  - intros s' [sv' Hs']. apply lookup_delete_Some in Hs' as [_ Hs']. eauto.
  - rewrite map_size_delete_Some by eauto. rewrite K4. rewrite <- Z.add_opp_r. apply wrapped_next.
    assert (size (pr_services p) ≠ 0%nat) by (intros Hempty%map_size_empty_inv; by rewrite Hempty in Hs). lia.
  - intros w k Hk Halive. destruct (K5 w k Hk Halive) as [? | (s' & sv' & Hs' & Hw)]; [by left | right].
    exists s', sv'. rewrite lookup_delete_ne; [done |]. intros <-. by rewrite (Hrest sv' Hs') in Hw.
Qed.

Lemma stop_services s during locked p :
  kept p → is_Some (pr_services p !! s) → is_Some (pr_services (Controller_deactivate s during locked p) !! s).
Proof.
  intros Hp [sv Hs]. unfold Controller_deactivate, on_controller, stop_taken. rewrite Hs. cbn.
  destruct (sv_worker sv) as [w |]; cbn; rewrite lookup_alter_eq; [rewrite lookup_insert_eq | rewrite Hs]; by eexists.
Qed.

Lemma exit_sound p : sound p → sound (begin_exit p).
Proof.
  intros [[Hlog Haw] [K1 K2 K3 K4 K5 K6]]. split; split; cbn; try done.
  - intros w k. rewrite lookup_fmap. intros (k0 & Hk0 & ->)%fmap_Some. exact (phase_log_rounds _ (Hlog _ _ Hk0)).
  - intros w [k Hk]. rewrite lookup_fmap in Hk. apply fmap_Some in Hk as (k0 & Hk0 & _). eauto.
  - intros w k. rewrite lookup_fmap. by intros (k0 & _ & ->)%fmap_Some.
  - intros w k _. rewrite lookup_fmap. by intros (k0 & _ & ->)%fmap_Some.
Qed.

(** Class factories and sinks come and go. *)
Lemma others_sound p : sound p → sound (ClassFactory_new p).
Proof.
  intros [Ho Hk]. pose proof (k_objects p Hk) as Hobj. pose proof (k_others p Hk) as Hothers.
  split; [by eapply orderly_same; [| | | exact Ho] |]. unfold ClassFactory_new, ObjectGuard_new. cbn.
  apply (counted_kept (pr_others p + 1) _ (pr_locks p) p); [lia | | done]. rewrite Hobj. apply wrapped_next. lia.
Qed.

Lemma fewer_others_sound p : sound p → sound (ClassFactory_drop p).
Proof.
  intros Hp. pose proof Hp as [Ho Hk]. pose proof (k_objects p Hk) as Hobj.
  unfold ClassFactory_drop. destruct (Z.ltb_spec 0 (pr_others p)); [| done].
  split; [by eapply orderly_same; [| | | exact Ho] |]. cbn.
  apply (counted_kept (pr_others p - 1) _ (pr_locks p) p); [lia | | done]. rewrite Hobj, <- Z.add_opp_r. apply wrapped_next. lia.
Qed.

Lemma host_step_sound p e : sound p → sound (host_step p e).
Proof.
  intros Hp. pose proof Hp as [Ho Hk].
  destruct e as [w a | s token | h | s tm client during locked | s during locked | s during locked | | | | | locked |]; cbn [host_step].
  - split; [by apply worker_step_orderly | by eapply kept_threads; [apply worker_step_threads |]].
  - split; [by apply tip_command_orderly | by apply tip_command_kept].
  - split; [by eapply orderly_same; [| | | exact Ho] | by apply guard_kept].
  - by apply activate_sound.
  - split; [by apply deactivate_orderly | by apply deactivate_kept].
  - unfold TextService_drop. destruct (pr_services p !! s) eqn:Hs; [| done].
    destruct (deactivate_kept s during locked p Hk) as [Hk' Hr]. split.
    + eapply orderly_same; [| | | by apply (deactivate_orderly s during locked)]; done.
    + apply release_kept; [done | done |]. apply stop_services; eauto.
  - by apply others_sound.
  - by apply fewer_others_sound.
  - by apply others_sound.
  - by apply fewer_others_sound.
  - split; [by eapply orderly_same; [| | | exact Ho] |]. unfold set_server_lock.
    apply counted_kept; [by apply k_others | by apply k_objects | done].
  - by apply exit_sound.
Qed.

Lemma loaded_sound : sound loaded.
Proof. split; split; cbn; try done; try (by intros ? []); by intros ? ? ?. Qed.

Lemma host_run_sound events : sound (host_run events).
Proof.
  unfold host_run. assert (∀ p, sound p → sound (foldl host_step p events)) as Hrun; [| apply Hrun, loaded_sound].
  induction events as [|e events IH]; intros p Hp; [done |]. by apply IH, host_step_sound.
Qed.

Lemma pc_insert_first token randoms pending (commands : PendingCommands) :
  token ≠ 0 → commands !! token = None →
  pc_insert (token :: randoms) pending commands = (Some token, <[token := pending]> commands).
Proof. intros Hz Hfree. unfold pc_insert. cbn [take]. by rewrite filter_cons_True. Qed.

(** An undisturbed round: a command that is read, whose message is dispatched and whose
    answer the pipe takes, is answered with what the controller says of it. *)
Lemma round_goes_through p w k sv c token randoms :
  pr_workers p !! w = Some k → wk_phase k = Reading → wk_running k = true → pr_terminating p = false →
  pr_services p !! wk_service k = Some sv → token ≠ 0 → commands_of (wk_service k) p !! token = None →
  let r := (handle_command (sv_controller sv) c).1 in
  ∃ k', pr_workers (foldl host_step p [Thread w (Read (Some c) (token :: randoms) true);
          TipCommandMessage (wk_service k) token; Thread w Waited; Thread w (Written true)]) !! w = Some k' ∧
    wk_phase k' = Reading ∧ wk_log k' = wk_log k ++ [ExRead c; ExDone c r; ExWrote r].
Proof.
  intros Hk Hp Hr Ht Hs Hz Hfree. cbn [foldl host_step]. unfold worker_step at 3. rewrite Hk. unfold run. rewrite Hp, Hr. cbn [negb].
  rewrite pc_insert_first by done.
  unfold tip_command. cbn [pr_services pr_terminating on_workers on_pending]. rewrite Hs, Ht. unfold pc_take.
  change (commands_of ?s (on_workers _ ?q)) with (commands_of s q).
  rewrite commands_of_insert, bool_decide_eq_true_2, lookup_insert_eq by done.
  cbn [pn_command pn_response]. destruct (handle_command (sv_controller sv) c) as [r h]. cbn [fst].
  unfold worker_step at 2. cbn [pr_workers on_workers on_services on_pending fst]. unfold send_answer. cbn [fst snd].
  rewrite lookup_alter_eq, lookup_alter_eq, lookup_insert_eq. cbn. rewrite Z.eqb_refl. cbn.
  unfold worker_step. cbn. rewrite lookup_insert_eq. cbn. rewrite lookup_insert_eq. eexists. split; [done |].
  split; [done |]. cbn. by rewrite <- !app_assoc.
Qed.
(** C13. (invariant) Whatever the pipes, the message queues, the injector and the host do,
    also when a service is activated anew while an old thread of it still runs: on every
    pipe the worker reads a command only when the command before it was answered, the
    controller carries out what was read at most once, and what is written is what it
    answered to that command; a pipe on which an answer was not written carries nothing
    more. And a command that is read while its service is there, whose message is
    dispatched and whose answer the pipe takes, is answered, and the next is read. *)
Theorem exchanges_are_rounds (events : list (HostEvent H C R K)) w k :
  let p := host_run events in
  pr_workers p !! w = Some k →
  (∃ owed, rounds (wk_log k) owed) ∧
  ∀ sv c token randoms,
    wk_phase k = Reading → wk_running k = true → pr_terminating p = false →
    pr_services p !! wk_service k = Some sv → token ≠ 0 → commands_of (wk_service k) p !! token = None →
    let r := (handle_command (sv_controller sv) c).1 in
    ∃ k', pr_workers (host_run (events ++ [Thread w (Read (Some c) (token :: randoms) true);
            TipCommandMessage (wk_service k) token; Thread w Waited; Thread w (Written true)])) !! w = Some k' ∧
      wk_phase k' = Reading ∧ wk_log k' = wk_log k ++ [ExRead c; ExDone c r; ExWrote r].
Proof.
  intros p Hk. destruct (host_run_sound events) as [[Hlog _] _]. split; [by apply phase_log_rounds, (Hlog w) |].
  intros sv c token randoms. unfold host_run. rewrite foldl_app. by apply round_goes_through.
Qed.

(** C14. (safety) The library is given up to be unloaded only when none of its threads
    still runs its code: a thread that did not end in time keeps it loaded, whatever
    services, factories and locks come and go. *)
Theorem unloaded_code_is_not_running events w k :
  let p := host_run events in
  Z.of_nat (size (pr_services p)) + pr_others p < 2 ^ 32 →
  can_unload p = true → pr_workers p !! w = Some k → wk_phase k = Gone.
Proof.
  cbn zeta. intros Hsize Hunload Hw. destruct (host_run_sound events) as [_ [_ _ K3 K4 K5 _]].
  unfold can_unload in Hunload. apply andb_true_iff in Hunload as [Hunload _].
  apply andb_true_iff in Hunload as [Hkeep Hobj]. apply Z.eqb_eq in Hobj. rewrite Z.mod_small in K4 by lia.
  destruct (decide (wk_phase k = Gone)) as [| Halive]; [done | exfalso].
  destruct (K5 w k Hw Halive) as [Hl | (s & sv & Hs & _)]; [by rewrite Hl in Hkeep |].
  assert (size (pr_services (host_run events)) = 0%nat) as Hempty by lia.
  apply map_size_empty_inv in Hempty. by rewrite Hempty in Hs.
Qed.
End safety.

(** ** On a sample *)

(** A service is activated and answers a ping; an update is read while the service is
    deactivated, and the thread does not end in time. *)
Definition sample_events : list (HostEvent (list Z) unit unit unit) :=
  [GetFactory; CreateInstance fresh_controller; ReleaseFactory; Activate 0 3 4 [] false;
   Thread 1 (Opened true true); Thread 1 (Read (Some TcPing) [0; 7] true); TipCommandMessage 0 8; TipCommandMessage 0 7;
   Thread 1 Waited; Thread 1 (Written true); Thread 1 (Read (Some (TcQuery "s")) [7] true);
   Release 0 [] false].

Example sample_log :
  wk_log <$> pr_workers (host_run sample_events) !! 1
  = Some [ExOpened; ExRead TcPing; ExDone TcPing TrReady; ExWrote TrReady; ExRead (TcQuery "s")].
Proof. vm_compute. reflexivity. Qed.
Example sample_stays_loaded : can_unload (host_run sample_events) = false ∧ pr_objects (host_run sample_events) = 0.
Proof. vm_compute. split; reflexivity. Qed.

(** The worker of the sample after its first round, and a second. *)
Lemma exchanges_are_rounds_witness :
  ∃ k k', pr_workers (host_run (take 10 sample_events)) !! 1 = Some k ∧ (∃ owed, rounds (wk_log k) owed) ∧
    wk_log k' = wk_log k ++ [ExRead TcPing; ExDone TcPing TrReady; ExWrote TrReady].
Proof.
  destruct (pr_workers (host_run (take 10 sample_events)) !! 1) as [k |] eqn:Hk; [| vm_compute in Hk; discriminate].
  destruct (pr_services (host_run (take 10 sample_events)) !! 0) as [sv |] eqn:Hs; [| vm_compute in Hs; discriminate].
  destruct (exchanges_are_rounds (take 10 sample_events) 1 k Hk) as [Hr Hround].
  assert (wk_phase k = Reading ∧ wk_running k = true ∧ wk_service k = 0) as (Hp & Hrun & Hsv)
    by (vm_compute in Hk; injection Hk as <-; auto).
  rewrite Hsv in Hround.
  destruct (Hround sv TcPing 7 [] Hp Hrun) as (k' & _ & _ & Hl);
    [vm_compute; reflexivity | exact Hs | discriminate | vm_compute; reflexivity |].
  exists k, k'. split; [reflexivity | split; [exact Hr | exact Hl]].
Defined.

(** The same with a thread that ends when it is told to. *)
Definition ended_events : list (HostEvent (list Z) unit unit unit) :=
  take 11 sample_events ++ [Release 0 [(1, Waited); (1, Opened true true)] false].

Lemma unloaded_code_is_not_running_witness :
  can_unload (host_run ended_events) = true ∧
  ∃ k, pr_workers (host_run ended_events) !! 1 = Some k ∧ wk_phase k = Gone.
Proof.
  split; [vm_compute; reflexivity |].
  destruct (pr_workers (host_run ended_events) !! 1) as [k |] eqn:Hk; [| vm_compute in Hk; discriminate].
  exists k. split; [reflexivity |]. apply (unloaded_code_is_not_running ended_events 1 k).
  - vm_compute. reflexivity.
  - vm_compute. reflexivity.
  - exact Hk.
Defined.
