(* ===== verification/Windows.v ===== *)
(** * The injector's view of the desktop

    [flowtype-injector/src/target.rs] and [input_monitor.rs]: the window a
    session writes to, and the monitor that counts the physical key and mouse
    events made while a session is open. Win32 is not code of the repository:
    it is the class [Win32], reads of and calls on an arbitrary desktop. *)

From S2P Require Import Prelude Text.

(** ** The input monitor *)

(** [injector/input_monitor.rs:17-19 static] The three process-wide atomics. *)
Record InputMonitor := mkInputMonitor {
  PHYSICAL_INPUT_EPOCH : Z;
  LAST_PHYSICAL_RETURN_EPOCH : Z;
  MONITOR_ACTIVE : bool;
}.

Definition InputMonitor_initial : InputMonitor := mkInputMonitor 0 0 false.

(** What a low-level hook is called with: the message, the event's flags, and
    the key code of a keyboard event. *)
Inductive input_event :=
| KeyboardEvent (code message flags vkCode : Z)
| MouseEvent (code message flags : Z).

Definition WM_KEYDOWN : Z := 0x0100.
Definition WM_SYSKEYDOWN : Z := 0x0104.
Definition LLKHF_INJECTED : Z := 0x10.
Definition LLMHF_INJECTED : Z := 0x01.
Definition WM_LBUTTONDOWN : Z := 0x0201.
Definition WM_LBUTTONDBLCLK : Z := 0x0203.
Definition WM_RBUTTONDOWN : Z := 0x0204.
Definition WM_RBUTTONDBLCLK : Z := 0x0206.
Definition WM_MBUTTONDOWN : Z := 0x0207.
Definition WM_MBUTTONDBLCLK : Z := 0x0209.
Definition WM_XBUTTONDOWN : Z := 0x020B.
Definition WM_XBUTTONDBLCLK : Z := 0x020D.
Definition WM_MOUSEWHEEL : Z := 0x020A.
Definition WM_MOUSEHWHEEL : Z := 0x020E.

(** [injector/input_monitor.rs is_physical_keyboard_event] *)
Definition is_physical_keyboard_event (message flags : Z) : bool :=
  ((message =? WM_KEYDOWN) || (message =? WM_SYSKEYDOWN))
  && (Z.land flags LLKHF_INJECTED =? 0).

(** [injector/input_monitor.rs is_physical_mouse_event] *)
Definition is_physical_mouse_event (message flags : Z) : bool :=
  bool_decide (message ∈ [WM_LBUTTONDOWN; WM_LBUTTONDBLCLK; WM_RBUTTONDOWN; WM_RBUTTONDBLCLK;
    WM_MBUTTONDOWN; WM_MBUTTONDBLCLK; WM_XBUTTONDOWN; WM_XBUTTONDBLCLK;
    WM_MOUSEWHEEL; WM_MOUSEHWHEEL])
  && (Z.land flags LLMHF_INJECTED =? 0).

(** [injector/input_monitor.rs epoch] *)
Definition epoch (m : InputMonitor) : Z := PHYSICAL_INPUT_EPOCH m.

(** [injector/input_monitor.rs last_event_was_return] *)
Definition last_event_was_return (m : InputMonitor) : bool :=
  (LAST_PHYSICAL_RETURN_EPOCH m =? epoch m) && negb (LAST_PHYSICAL_RETURN_EPOCH m =? 0).

(** [injector/input_monitor.rs keyboard_hook] *)
Definition keyboard_hook (code message flags vkCode : Z) (m : InputMonitor) : InputMonitor :=
  if (0 <=? code) && is_physical_keyboard_event message flags then
    let epoch := wrap64 (PHYSICAL_INPUT_EPOCH m + 1) in
    mkInputMonitor epoch (if vkCode =? 0x0d then epoch else 0) (MONITOR_ACTIVE m)
  else m.

(** [injector/input_monitor.rs mouse_hook] *)
Definition mouse_hook (code message flags : Z) (m : InputMonitor) : InputMonitor :=
  if (0 <=? code) && is_physical_mouse_event message flags then
    mkInputMonitor (wrap64 (PHYSICAL_INPUT_EPOCH m + 1)) 0 (MONITOR_ACTIVE m)
  else m.

(** The hooks are installed only while a monitor is active. *)
Definition run_hook (m : InputMonitor) (e : input_event) : InputMonitor :=
  if MONITOR_ACTIVE m then
    match e with
    | KeyboardEvent code message flags vkCode => keyboard_hook code message flags vkCode m
    | MouseEvent code message flags => mouse_hook code message flags m
    end
  else m.

Definition set_active (b : bool) (m : InputMonitor) : InputMonitor :=
  mkInputMonitor (PHYSICAL_INPUT_EPOCH m) (LAST_PHYSICAL_RETURN_EPOCH m) b.

(** [injector/input_monitor.rs InputMonitor::start] [hooked] is whether both
    hooks were installed in time. *)
Definition InputMonitor_start (hooked : bool) (m : InputMonitor) : option unit * InputMonitor :=
  if hooked then (Some tt, set_active true m) else (None, set_active false m).

(** [injector/input_monitor.rs InputMonitor::drop] *)
Definition InputMonitor_drop (m : InputMonitor) : InputMonitor := set_active false m.

(** ** The target window *)

(** What the code asks of Windows. A window is its handle, 0 is null. The
    chain of windows below one in the z-order, as [GetWindow(GW_HWNDNEXT)]
    visits it until it returns null, is a list. *)
Class Win32 (W : Type) := {
  GetForegroundWindow : W → Z;
  z_order_below : W → Z → list Z;
  IsWindowVisible : W → Z → bool;
  IsWindow : W → Z → bool;
  window_thread_id : W → Z → Z;
  window_process_id : W → Z → Z;
  process_image_path : W → Z → option string;
  GetClassNameW : W → Z → string;
  GetWindowTextLengthW : W → Z → Z;
  GetWindowTextW : W → Z → string;
  GetLastInputInfo : W → option Z;
  GetTickCount : W → Z;
  GetCurrentThreadId : W → Z;
  AttachThreadInput : W → Z → Z → bool → W * bool;
  SetForegroundWindow : W → Z → W * bool;
}.

(** [injector/target.rs TargetWindow] *)
Record TargetWindow := mkTarget { tw_handle : Z; tw_process_id : Z }.
#[export] Instance TargetWindow_eq_dec : EqDecision TargetWindow.
Proof. solve_decision. Defined.

Section target.
Context {W : Type} `{Win32 W}.

(** [injector/target.rs TargetWindow::from_handle] *)
Definition from_handle (w : W) (handle : Z) : option TargetWindow :=
  if handle =? 0 then None
  else
    let process_id := window_process_id w handle in
    if negb (process_id =? 0) then Some (mkTarget handle process_id) else None.

(** [injector/target.rs TargetWindow::process_name] The text after the last
    backslash or slash of the image path. *)
Definition process_name (w : W) (self : TargetWindow) : string :=
  match process_image_path w (tw_process_id self) with
  | None => EmptyString
  | Some path =>
    of_bytes (reverse (take_while (λ b, negb ((b =? 92) || (b =? 47))) (reverse (bytes_of path))))
  end.

(** [injector/target.rs is_remote_desktop_process_name] *)
Definition is_remote_desktop_process_name (name : string) : bool :=
  bool_decide (str_to_ascii_lowercase name ∈
    ["mstsc.exe"; "msrdc.exe"; "rdclient.exe"; "windows365.exe"]%string).

(** [injector/target.rs TargetWindow::is_remote_desktop_client] *)
Definition is_remote_desktop_client (w : W) (self : TargetWindow) : bool :=
  if is_remote_desktop_process_name (process_name w self) then true
  else bool_decide (str_to_ascii_lowercase (GetClassNameW w (tw_handle self)) ∈
    ["tscshellcontainerclass"; "rail_window"; "msrdcwindow"]%string).

(** [injector/target.rs TargetWindow::is_flowtype_window] *)
Definition is_flowtype_window (w : W) (self : TargetWindow) : bool :=
  eq_ignore_ascii_case (process_name w self) "flowtype.exe".

(** The loop of [capture_foreground] over the windows below. *)
Fixpoint first_external (w : W) (candidates : list Z) : option TargetWindow :=
  match candidates with
  | [] => None
  | candidate :: rest =>
    if IsWindowVisible w candidate then
      match from_handle w candidate with
      | Some target =>
        if negb (is_flowtype_window w target) then Some target else first_external w rest
      | None => first_external w rest
      end
    else first_external w rest
  end.

(** [injector/target.rs TargetWindow::capture_foreground] *)
Definition capture_foreground (w : W) : option TargetWindow :=
  let foreground := GetForegroundWindow w in
  current ← from_handle w foreground;
  if negb (is_flowtype_window w current) then Some current
  else first_external w (z_order_below w foreground).

(** [injector/target.rs TargetWindow::is_foreground] *)
Definition is_foreground (w : W) (self : TargetWindow) : bool :=
  let foreground := GetForegroundWindow w in
  (foreground =? tw_handle self)
  || match from_handle w foreground with
     | Some window => is_flowtype_window w window
     | None => false
     end.

(** [injector/target.rs TargetWindow::is_valid] *)
Definition is_valid (w : W) (self : TargetWindow) : bool :=
  if negb (IsWindow w (tw_handle self)) then false
  else window_process_id w (tw_handle self) =? tw_process_id self.

(** [injector/target.rs TargetWindow::thread_id] *)
Definition thread_id (w : W) (self : TargetWindow) : Z := window_thread_id w (tw_handle self).

(** [injector/target.rs TargetWindow::title] [GetWindowTextW] is the text that is copied. *)
Definition title (w : W) (self : TargetWindow) : string :=
  if GetWindowTextLengthW w (tw_handle self) <=? 0 then "当前窗口" else GetWindowTextW w (tw_handle self).

(** [injector/target.rs TargetWindow::activity_age_ms] *)
Definition activity_age_ms (w : W) : Z :=
  match GetLastInputInfo w with
  | None => I64_MAX
  | Some dwTime => (GetTickCount w - dwTime) mod 2 ^ 32
  end.

(** [injector/target.rs TargetWindow::activate_for_input] *)
Definition activate_for_input (w : W) (self : TargetWindow) : W * bool :=
  if GetForegroundWindow w =? tw_handle self then (w, true)
  else
    let foreground := GetForegroundWindow w in
    let foreground_thread := if foreground =? 0 then 0 else window_thread_id w foreground in
    let target_thread := thread_id w self in
    let current_thread := GetCurrentThreadId w in
    let '(w, attached_foreground) :=
      if negb (foreground_thread =? 0) && negb (foreground_thread =? current_thread)
      then AttachThreadInput w current_thread foreground_thread true else (w, false) in
    let '(w, attached_target) :=
      if negb (target_thread =? 0) && negb (target_thread =? current_thread)
      then AttachThreadInput w current_thread target_thread true else (w, false) in
    let '(w, activated) := SetForegroundWindow w (tw_handle self) in
    let w := if attached_target then (AttachThreadInput w current_thread target_thread false).1
             else w in
    let w := if attached_foreground
             then (AttachThreadInput w current_thread foreground_thread false).1 else w in
    (w, activated && (GetForegroundWindow w =? tw_handle self)).
End target.

(** ** What the counters record *)

Definition is_physical (e : input_event) : bool :=
  match e with
  | KeyboardEvent code message flags _ => (0 <=? code) && is_physical_keyboard_event message flags
  | MouseEvent code message flags => (0 <=? code) && is_physical_mouse_event message flags
  end.

Definition is_return (e : input_event) : bool :=
  match e with KeyboardEvent _ _ _ vkCode => vkCode =? 0x0d | MouseEvent _ _ _ => false end.

Definition physical_events (es : list input_event) : list input_event :=
  filter (λ e, is_physical e = true) es.

Lemma run_hook_active m e : MONITOR_ACTIVE (run_hook m e) = MONITOR_ACTIVE m.
Proof.
  unfold run_hook. case_match eqn:Ha; [| done].
  destruct e; cbn; unfold keyboard_hook, mouse_hook; by repeat case_match.
Qed.

Lemma run_hook_physical m e :
  MONITOR_ACTIVE m = true →
  run_hook m e =
  if is_physical e then
    let epoch := wrap64 (PHYSICAL_INPUT_EPOCH m + 1) in
    mkInputMonitor epoch (if is_return e then epoch else 0) true
  else m.
Proof.
  intros Ha. unfold run_hook. rewrite Ha.
  destruct e; cbn; unfold keyboard_hook, mouse_hook; rewrite Ha; by case_match.
Qed.

Lemma physical_events_cons e es :
  physical_events (e :: es) = if is_physical e then e :: physical_events es else physical_events es.
Proof. unfold physical_events. rewrite filter_cons. by destruct (is_physical e). Qed.

(** Over a session of fewer than 2^64 physical events, the epoch counts them
    and the return mark is that of the last one. *)
Lemma run_hooks_counts es m :
  MONITOR_ACTIVE m = true → 0 ≤ PHYSICAL_INPUT_EPOCH m →
  PHYSICAL_INPUT_EPOCH m + zlength (physical_events es) < 2 ^ 64 →
  let m' := foldl run_hook m es in
  PHYSICAL_INPUT_EPOCH m' = PHYSICAL_INPUT_EPOCH m + zlength (physical_events es)
  ∧ (physical_events es ≠ [] →
     last_event_was_return m' = match last (physical_events es) with
                                | Some e => is_return e | None => false end)
  ∧ (physical_events es = [] → m' = m).
Proof.
  revert m. induction es as [|e es IH]; intros m Ha H0 Hmax; cbv zeta; cbn [foldl].
  { change (physical_events []) with (@nil input_event). split_and!; [unfold zlength; cbn; lia | done..]. }
  rewrite physical_events_cons in *. pose proof (zlength_nonneg (physical_events es)).
  rewrite run_hook_physical by done. destruct (is_physical e); [| by apply IH].
  rewrite zlength_cons in Hmax. unfold wrap64. rewrite Z.mod_small by lia.
  set (m1 := mkInputMonitor _ _ _).
  destruct (IH m1) as (H1 & H2 & H3); [done | unfold m1; cbn [PHYSICAL_INPUT_EPOCH]; lia.. |].
  split_and!; [rewrite H1; unfold m1, zlength; cbn [PHYSICAL_INPUT_EPOCH length]; lia | | done].
  intros _. rewrite last_cons. destruct (last (physical_events es)) as [e'|] eqn:Hl.
  - rewrite H2; [done | intros Hn; by rewrite Hn in Hl].
  - apply last_None in Hl. rewrite (H3 Hl). unfold last_event_was_return, epoch, m1. cbn.
    destruct (is_return e); cbn; [rewrite Z.eqb_refl; cbn; apply negb_true_iff, Z.eqb_neq; lia |].
    by rewrite andb_false_r.
Qed.

(** Input monitor. While a session's monitor is active (and over fewer than
    2^64 physical events) the input epoch is unchanged exactly when no physical
    key or click reached the desktop, and after one the monitor reports a
    return exactly when the last physical event was the Return key; injected
    and mouse-move events count for nothing. *)
Theorem monitor_sees_physical_input es m :
  MONITOR_ACTIVE m = true → 0 ≤ epoch m →
  epoch m + zlength (physical_events es) < 2 ^ 64 →
  let m' := foldl run_hook m es in
  (epoch m' = epoch m ↔ Forall (λ e, is_physical e = false) es)
  ∧ (epoch m' ≠ epoch m →
     last_event_was_return m' = true ↔
     ∃ e, last (physical_events es) = Some e ∧ is_return e = true).
Proof.
  intros Ha H0 Hmax. destruct (run_hooks_counts es m Ha H0 Hmax) as (H1 & H2 & _).
  unfold epoch in *. cbv zeta. rewrite H1. split.
  - pose proof (zlength_nonneg (physical_events es)).
    assert (physical_events es = [] ↔ Forall (λ e, is_physical e = false) es) as <-.
    { clear. induction es as [|e es IH]; [by split |].
      rewrite physical_events_cons, Forall_cons. destruct (is_physical e); [naive_solver |].
      naive_solver. }
    split; [| intros ->; unfold zlength; cbn; lia]. intros Hz.
    destruct (physical_events es); [done |]. unfold zlength in Hz. cbn in Hz. lia.
  - intros Hne. rewrite H2 by (intros Hn; rewrite Hn in Hne; unfold zlength in Hne; cbn in Hne; lia).
    destruct (last (physical_events es)); naive_solver.
Qed.

Lemma monitor_sees_physical_input_witness :
  let es := [MouseEvent 0 0x0200 0; KeyboardEvent 0 WM_KEYDOWN LLKHF_INJECTED 65;
             KeyboardEvent 0 WM_KEYDOWN 0 0x0d] in
  let m := set_active true InputMonitor_initial in
  last_event_was_return (foldl run_hook m es) = true
  ∧ (epoch (foldl run_hook m es) = epoch m ↔ Forall (λ e, is_physical e = false) es).
Proof.
  split; [by vm_compute |].
  apply (monitor_sees_physical_input
    [MouseEvent 0 0x0200 0; KeyboardEvent 0 WM_KEYDOWN LLKHF_INJECTED 65;
     KeyboardEvent 0 WM_KEYDOWN 0 0x0d] (set_active true InputMonitor_initial));
    [done | done | by vm_compute].
Defined.
