(* ===== verification/TipBroker.v ===== *)
(** * The broker of text services

    [flowtype-injector/src/tip_broker.rs]: the registry of the text services
    connected to the injector, one per thread of a target process, and the
    commands sent to them. The connection threads run concurrently: after every
    exchange and every wait the registry takes the connections and
    disconnections that happened meanwhile ([client_events]). The pipe, the
    clock and the iteration order of [HashMap] are the class [TipPipes]. *)

From S2P Require Import Prelude Text Protocol TipModel.

(** [injector/tip_broker.rs TipKey] *)
Record TipKey := mkTipKey {
  tk_process_id : Z;
  tk_thread_id : Z;
  tk_generation : Z;
}.
#[export] Instance TipKey_eq_dec : EqDecision TipKey.
Proof. solve_decision. Defined.

(** [injector/tip_broker.rs TipBeginError] *)
Inductive TipBeginError := Unavailable | Unsupported | RebindRejected.
#[export] Instance TipBeginError_eq_dec : EqDecision TipBeginError.
Proof. solve_decision. Defined.

(** [injector/tip_broker.rs TipBegin] *)
Record TipBegin := mkTipBegin {
  tb_session_id : string;
  tb_sequence : Z;
  tb_full_text : string;
  tb_attach_existing : bool;
}.

(** Kinds of [io::Error] of an exchange. *)
Inductive tip_error := NotConnected | BrokenPipe | TimedOut | PipeFailed.
#[export] Instance tip_error_eq_dec : EqDecision tip_error.
Proof. solve_decision. Defined.
Definition tip_result := result tip_error TipResponse.

(** [injector/tip_broker.rs RegistryState] with [NEXT_GENERATION]. A client is
    known by its key; its channel is the key's. *)
Record RegistryState := mkRegistryState {
  clients : gmap (Z * Z) TipKey;
  next_generation : Z;
}.

(** [injector/tip_broker.rs:28-28 NEXT_GENERATION] *)
Definition RegistryState_initial : RegistryState := mkRegistryState ∅ 1.

(** [injector/tip_broker.rs hello_is_compatible] *)
Definition hello_is_compatible (hello : TipHello) : bool :=
  hello_ipc_version hello =? TIP_IPC_VERSION.

(** [injector/tip_broker.rs:208-242 TipRegistry::serve_client] Up to the
    registration: what the thread of a new pipe does with the client's hello
    ([None] if it cannot be read) and the process id of the pipe's other end. *)
Definition register_client (hello : option TipHello) (pipe_process_id : option Z)
    (state : RegistryState) : option TipKey * RegistryState :=
  match hello with
  | None => (None, state)
  | Some hello =>
    if negb (hello_is_compatible hello) then (None, state)
    else if negb (bool_decide (pipe_process_id = Some (hello_process_id hello))) then (None, state)
    else
      let key := mkTipKey (hello_process_id hello) (hello_thread_id hello)
                   (next_generation state) in
      (Some key, mkRegistryState (<[(tk_process_id key, tk_thread_id key) := key]> (clients state))
                   (wrap64 (next_generation state + 1)))
  end.

(** [injector/tip_broker.rs:252-265 TipRegistry::serve_client] The end of the
    thread of [key]: only its own registration is removed. *)
Definition unregister_client (key : TipKey) (state : RegistryState) : RegistryState :=
  match clients state !! (tk_process_id key, tk_thread_id key) with
  | Some client =>
    if tk_generation client =? tk_generation key then
      mkRegistryState (delete (tk_process_id key, tk_thread_id key) (clients state))
        (next_generation state)
    else state
  | None => state
  end.

Inductive client_event :=
| ClientConnected (hello : option TipHello) (pipe_process_id : option Z)
| ClientLeft (key : TipKey).

Definition on_client_event (state : RegistryState) (e : client_event) : RegistryState :=
  match e with
  | ClientConnected hello pid => (register_client hello pid state).2
  | ClientLeft key => unregister_client key state
  end.

(** What the broker uses of the system. [tip_exchange] is one request through a
    client's channel that comes back: its thread writes the command to the pipe and
    reads the response, and the caller waits for it at most [TIP_RESPONSE_TIMEOUT].
    [TipChannel] has the channel step by step, and shows when a request does not
    come back because the queue is full. A wait may end at once, because it is notified or
    for no reason: [cut_short] is how many of the waits to come end without the clock having
    moved, any number. *)
Class TipPipes (W : Type) := {
  now_ms : W → Z;
  tip_exchange : W → TipKey → TipCommand → W * tip_result;
  wait_changed : W → Z → W;
  client_events : W → list client_event * W;
  map_order : W → list TipKey → list TipKey;
  map_order_perm : ∀ w l, map_order w l ≡ₚ l;
  (* [Instant] never goes back *)
  exchange_clock : ∀ w key c, now_ms w ≤ now_ms (tip_exchange w key c).1;
  events_clock : ∀ w, now_ms (client_events w).2 = now_ms w;
  wait_clock : ∀ w d, now_ms w ≤ now_ms (wait_changed w d);
  (* a wait moves the clock, or is one of those that do not *)
  cut_short : W → nat;
  exchange_cut : ∀ w key c, (cut_short (tip_exchange w key c).1 <= cut_short w)%nat;
  events_cut : ∀ w, (cut_short (client_events w).2 <= cut_short w)%nat;
  wait_cut : ∀ w d, (cut_short (wait_changed w d) <= cut_short w)%nat ∧
    (now_ms (wait_changed w d) = now_ms w → (cut_short (wait_changed w d) < cut_short w)%nat);
}.

Section broker.
Context {W : Type} `{TipPipes W}.

(** The system, the registry, and the exchanges made so far; nothing reads the
    last. *)
Record broker := mkBroker {
  br_world : W;
  br_registry : RegistryState;
  br_log : list (TipKey * TipCommand * tip_result);
}.

(** The registry after what happened on the connection threads. *)
Definition settle_clients (b : broker) : broker :=
  let '(es, w) := client_events (br_world b) in
  mkBroker w (foldl on_client_event (br_registry b) es) (br_log b).

(** [injector/tip_broker.rs TipRegistry::send_to] *)
Definition send_to (key : TipKey) (command : TipCommand) (b : broker) : tip_result * broker :=
  let '(w, response) := tip_exchange (br_world b) key command in
  (response, settle_clients (mkBroker w (br_registry b) (br_log b ++ [(key, command, response)]))).

(** [injector/tip_broker.rs TipRegistry::send] *)
Definition send (key : TipKey) (command : TipCommand) (b : broker) : tip_result * broker :=
  match clients (br_registry b) !! (tk_process_id key, tk_thread_id key) with
  | Some client =>
    if tk_generation client =? tk_generation key then send_to client command b
    else (Err NotConnected, b)
  | None => (Err NotConnected, b)
  end.

(** [injector/tip_broker.rs TipRegistry::candidates] *)
Definition candidates (process_id : Z) (b : broker) : list TipKey :=
  filter (λ key, tk_process_id key = process_id)
    (map_order (br_world b) (map_to_list (clients (br_registry b))).*2).

(** [candidates.sort_by_key(|client| client.key.thread_id != preferred)]:
    [false] sorts before [true]. *)
Definition preferred_first (preferred_thread_id : Z) : list TipKey → list TipKey :=
  stable_sort (λ a b, implb (negb (tk_thread_id a =? preferred_thread_id))
                            (negb (tk_thread_id b =? preferred_thread_id))).

Definition begin_command (begin : TipBegin) : TipCommand :=
  TcBegin (tb_session_id begin) (tb_sequence begin) (tb_full_text begin) (tb_attach_existing begin).

(** The loop over the candidates: [inl] returns from [begin_for_target], [inr]
    goes on with [target_rejected]. *)
Fixpoint begin_candidates (begin : TipBegin) (cs : list TipKey) (target_rejected : bool)
    (b : broker) : (result TipBeginError TipKey + bool) * broker :=
  match cs with
  | [] => (inr target_rejected, b)
  | client :: cs =>
    let '(response, b) := send_to client (begin_command begin) b in
    if bool_decide (response = Ok (TrBegun (tb_session_id begin))) then (inl (Ok client), b)
    else
      let target_rejected :=
        match response with
        | Ok TrNoFocus | Ok TrEditRejected => true
        | _ => target_rejected
        end in
      match response with
      | Ok TrRebindRejected => (inl (Err RebindRejected), b)
      | _ => begin_candidates begin cs target_rejected b
      end
  end.

(** [injector/tip_broker.rs:30-30 TIP_RETRY_INTERVAL] *)
Definition TIP_RETRY_INTERVAL : Z := 100.

(** [injector/tip_broker.rs:84-143 TipRegistry::begin_for_target] The loop;
    [None] is out of fuel. *)
Fixpoint begin_loop (fuel : nat) (process_id preferred_thread_id : Z) (begin : TipBegin)
    (deadline : Z) (target_rejected : bool) (b : broker)
    : option (result TipBeginError TipKey * broker) :=
  match fuel with
  | O => None
  | S fuel =>
    let cs := preferred_first preferred_thread_id (candidates process_id b) in
    match begin_candidates begin cs target_rejected b with
    | (inl r, b) => Some (r, b)
    | (inr target_rejected, b) =>
      let now := now_ms (br_world b) in
      if deadline <=? now then
        Some (Err (if target_rejected then Unsupported else Unavailable), b)
      else
        let wait := Z.min (deadline - now) TIP_RETRY_INTERVAL in
        let b := settle_clients (mkBroker (wait_changed (br_world b) wait) (br_registry b)
                                   (br_log b)) in
        begin_loop fuel process_id preferred_thread_id begin deadline target_rejected b
    end
  end.

(** [injector/tip_broker.rs TipRegistry::begin_for_target] *)
Definition begin_for_target (fuel : nat) (process_id preferred_thread_id : Z) (begin : TipBegin)
    (timeout : Z) (b : broker) : option (result TipBeginError TipKey * broker) :=
  begin_loop fuel process_id preferred_thread_id begin (now_ms (br_world b) + timeout) false b.

(** ** The registry *)

(** Every client is filed under its own process and thread, with a generation
    already given out. *)
Definition registry_ok (s : RegistryState) : Prop :=
  ∀ p t key, clients s !! (p, t) = Some key →
    tk_process_id key = p ∧ tk_thread_id key = t ∧ tk_generation key < next_generation s.

Lemma register_client_ok hello pid s :
  registry_ok s → next_generation s + 1 < 2 ^ 64 → 0 ≤ next_generation s →
  registry_ok (register_client hello pid s).2
  ∧ next_generation s ≤ next_generation (register_client hello pid s).2 ≤ next_generation s + 1.
Proof.
  intros Hs Hmax H0. unfold register_client.
  destruct hello as [hello|]; [| cbn; auto with lia].
  do 2 (case_match; [cbn; auto with lia |]). cbn. unfold wrap64.
  rewrite Z.mod_small by lia. split; [| lia].
  intros p tid key. cbn. rewrite lookup_insert_Some. intros [[[= <- <-] <-]|[_ Hl]]; cbn; [lia |].
  destruct (Hs _ _ _ Hl) as (? & ? & ?). lia.
Qed.

Lemma unregister_client_sub key s :
  next_generation (unregister_client key s) = next_generation s
  ∧ ∀ i c, clients (unregister_client key s) !! i = Some c → clients s !! i = Some c.
Proof.
  unfold unregister_client. repeat case_match; try done. split; [done |].
  intros i c. cbn. rewrite lookup_delete_Some. tauto.
Qed.

Lemma unregister_client_ok key s : registry_ok s → registry_ok (unregister_client key s).
Proof.
  intros Hs p tid k Hk. destruct (unregister_client_sub key s) as [-> Hsub].
  by apply Hs, Hsub.
Qed.

(** The generation of [key] is not the one registered. *)
Definition stale (key : TipKey) (s : RegistryState) : Prop :=
  tk_generation key < next_generation s
  ∧ ∀ client, clients s !! (tk_process_id key, tk_thread_id key) = Some client →
      tk_generation client ≠ tk_generation key.

Lemma on_client_event_stale key s e :
  registry_ok s → stale key s → 0 ≤ next_generation s → next_generation s + 1 < 2 ^ 64 →
  registry_ok (on_client_event s e) ∧ stale key (on_client_event s e)
  ∧ next_generation s ≤ next_generation (on_client_event s e) ≤ next_generation s + 1.
Proof.
  intros Hs [Hg Hst] H0 Hmax. destruct e as [hello pid|left]; cbn.
  - destruct (register_client_ok hello pid s Hs Hmax H0) as [H1 H2]. split_and!; [done | | lia..].
    split; [lia |]. revert H1 H2. unfold register_client.
    destruct hello as [hello|]; [| intros _ _; apply Hst].
    do 2 (case_match; [intros _ _; apply Hst |]). cbn. intros _ _ client.
    rewrite lookup_insert_Some. intros [[_ <-]|[_ Hl]]; cbn; [lia | by apply Hst].
  - destruct (unregister_client_sub left s) as [Hn Hsub].
    split_and!; [by apply unregister_client_ok | | lia..].
    split; [lia |]. intros client Hc. by apply Hst, Hsub.
Qed.

Lemma stale_events key es s :
  registry_ok s → stale key s → 0 ≤ next_generation s →
  next_generation s + zlength es < 2 ^ 64 →
  stale key (foldl on_client_event s es).
Proof.
  revert s. induction es as [|e es IH]; intros s Hs Hst H0 Hmax; cbn [foldl]; [done |].
  rewrite zlength_cons in Hmax. pose proof (zlength_nonneg es) as Hz.
  destruct (on_client_event_stale key s e) as (H1 & H2 & H3); [done.. | lia |].
  apply IH; [done.. | lia | lia].
Qed.

(** Stale keys. A key whose generation is no longer registered (its client
    left, or its thread connected again) reaches no client ever after, whatever
    connects and leaves: [send] fails with [NotConnected] and sends nothing. *)
Theorem stale_key_is_refused key command es (b : broker) :
  registry_ok (br_registry b) → stale key (br_registry b) → 0 ≤ next_generation (br_registry b) →
  next_generation (br_registry b) + zlength es < 2 ^ 64 →
  let b' := mkBroker (br_world b) (foldl on_client_event (br_registry b) es) (br_log b) in
  send key command b' = (Err NotConnected, b').
Proof.
  intros Hok Hs H0 Hmax b'. destruct (stale_events key es _ Hok Hs H0 Hmax) as [_ Hno].
  unfold send, b'. cbn. destruct (clients _ !! _) as [client|] eqn:Hl; [| done].
  specialize (Hno client eq_refl). by rewrite (proj2 (Z.eqb_neq _ _) Hno).
Qed.

(** ** Opening a session *)

Definition log_entry : Type := TipKey * TipCommand * tip_result.

(** An exchange of [begin_for_target]: the begin command, to a client of the
    target process. *)
Definition begin_entry (process_id : Z) (begin : TipBegin) (e : log_entry) : Prop :=
  tk_process_id e.1.1 = process_id ∧ e.1.2 = begin_command begin.

Definition refused_focus (e : log_entry) : Prop :=
  e.2 = Ok TrNoFocus ∨ e.2 = Ok TrEditRejected.
Definition begun (begin : TipBegin) (e : log_entry) : Prop :=
  e.2 = Ok (TrBegun (tb_session_id begin)).

(** What the exchanges made so far say of [target_rejected]. *)
Definition begin_log (process_id : Z) (begin : TipBegin) (log : list log_entry)
    (target_rejected : bool) : Prop :=
  Forall (begin_entry process_id begin) log
  ∧ Forall (λ e, ¬ begun begin e ∧ e.2 ≠ Ok TrRebindRejected) log
  ∧ (target_rejected = true ↔ Exists refused_focus log).

(** What a result says of the exchanges made for it. *)
Definition begin_outcome (process_id : Z) (begin : TipBegin) (log : list log_entry)
    (r : result TipBeginError TipKey) : Prop :=
  match r with
  | Ok key => ∃ log' tr, begin_log process_id begin log' tr ∧ tk_process_id key = process_id
      ∧ log = log' ++ [(key, begin_command begin, Ok (TrBegun (tb_session_id begin)))]
  | Err RebindRejected => ∃ log' tr key, begin_log process_id begin log' tr
      ∧ tk_process_id key = process_id
      ∧ log = log' ++ [(key, begin_command begin, Ok TrRebindRejected)]
  | Err Unsupported => begin_log process_id begin log true
  | Err Unavailable => begin_log process_id begin log false
  end.

(** Time goes on between two states of the world. *)
Record later (w w' : W) : Prop := { la_clock : now_ms w ≤ now_ms w'; la_cut : (cut_short w' <= cut_short w)%nat }.
#[local] Instance later_pre : PreOrder later.
Proof. split; [by split | intros a b c [] []; split; lia]. Qed.

Lemma settle_clients_spec (b : broker) :
  br_log (settle_clients b) = br_log b ∧ now_ms (br_world (settle_clients b)) = now_ms (br_world b)
  ∧ later (br_world b) (br_world (settle_clients b)).
Proof.
  unfold settle_clients. pose proof (events_clock (br_world b)) as Hc. pose proof (events_cut (br_world b)) as Hn.
  destruct (client_events (br_world b)). cbn in *. split_and!; [done.. |]. split; cbn; lia.
Qed.

Lemma send_to_spec key c (b : broker) :
  let r := send_to key c b in
  br_log r.2 = br_log b ++ [(key, c, r.1)] ∧ later (br_world b) (br_world r.2).
Proof.
  unfold send_to. pose proof (exchange_clock (br_world b) key c) as Hc. pose proof (exchange_cut (br_world b) key c) as Hn.
  destruct (tip_exchange _ _ _) as [w r]. cbn in *.
  destruct (settle_clients_spec (mkBroker w (br_registry b) (br_log b ++ [(key, c, r)]))) as (-> & _ & Hl).
  split; [done |]. etrans; [| exact Hl]. by split.
Qed.

Lemma begin_log_snoc p begin log tr e :
  begin_log p begin log tr → begin_entry p begin e → ¬ begun begin e →
  e.2 ≠ Ok TrRebindRejected →
  begin_log p begin (log ++ [e])
    (match e.2 with Ok TrNoFocus | Ok TrEditRejected => true | _ => tr end).
Proof.
  intros (H1 & H2 & H3) He Hb Hr. unfold begin_log.
  rewrite !Forall_app, !Forall_singleton, Exists_app, Exists_cons, Exists_nil.
  split_and!; [done.. |]. unfold refused_focus in *.
  destruct (e.2) as [[]|]; rewrite ?H3; naive_solver.
Qed.

Lemma begin_candidates_spec p begin cs tr (b : broker) log0 log :
  Forall (λ key, tk_process_id key = p) cs →
  br_log b = log0 ++ log → begin_log p begin log tr →
  let r := begin_candidates begin cs tr b in
  later (br_world b) (br_world r.2)
  ∧ ∃ log', br_log r.2 = log0 ++ log'
    ∧ match r.1 with
      | inl res => begin_outcome p begin log' res
      | inr tr' => begin_log p begin log' tr'
      end.
Proof.
  revert tr b log. induction cs as [|key cs IH]; intros tr b log Hcs Hlog Hb; cbn.
  { split; [done |]. by exists log. }
  apply Forall_cons in Hcs as [Hp Hcs].
  destruct (send_to_spec key (begin_command begin) b) as [Hl Hc].
  destruct (send_to key (begin_command begin) b) as [resp b1]. cbn in *.
  rewrite Hlog, <- app_assoc in Hl.
  case_bool_decide as Hbegun; cbn.
  { split; [done |]. eexists. split; [done |]. subst resp. by exists log, tr. }
  assert (begin_entry p begin (key, begin_command begin, resp)) as He by done.
  destruct (decide (resp = Ok TrRebindRejected)) as [->|Hreb]; cbn.
  { split; [done |]. eexists. split; [done |]. by exists log, tr, key. }
  pose proof (begin_log_snoc _ _ _ _ _ Hb He Hbegun Hreb) as Hsnoc. cbn in Hsnoc.
  destruct (IH _ b1 _ Hcs Hl Hsnoc) as [H1 H2].
  destruct resp as [[]|]; (split; [by etrans | exact H2]) || done.
Qed.

Lemma candidates_process p pref (b : broker) :
  Forall (λ key, tk_process_id key = p) (preferred_first pref (candidates p b)).
Proof.
  apply Forall_forall. intros key Hk. unfold preferred_first in Hk.
  rewrite elem_of_stable_sort in Hk. unfold candidates in Hk.
  by apply list_elem_of_filter in Hk as [? _].
Qed.

(** The candidates alone give a session or a refused one. *)
Lemma begin_candidates_refusal begin cs tr (b : broker) r b' :
  begin_candidates begin cs tr b = (inl r, b') → r ≠ Err Unsupported ∧ r ≠ Err Unavailable.
Proof.
  revert tr b. induction cs as [|key cs IH]; intros tr b; cbn; [done |].
  destruct (send_to key _ b) as [resp b1]. case_bool_decide; [by intros [= <- _] |].
  destruct resp as [[]|]; try (apply IH). by intros [= <- _].
Qed.

(** A refusal is not before the deadline. *)
Definition not_before (deadline : Z) (r : result TipBeginError TipKey) (b : broker) : Prop :=
  match r with Err Unsupported | Err Unavailable => deadline ≤ now_ms (br_world b) | _ => True end.

Lemma begin_loop_spec fuel p pref begin deadline tr (b : broker) log0 log :
  br_log b = log0 ++ log → begin_log p begin log tr →
  deadline - now_ms (br_world b) + Z.of_nat (cut_short (br_world b)) < Z.of_nat fuel → (cut_short (br_world b) < fuel)%nat →
  ∃ r b' log', begin_loop fuel p pref begin deadline tr b = Some (r, b')
    ∧ br_log b' = log0 ++ log' ∧ begin_outcome p begin log' r ∧ not_before deadline r b'.
Proof.
  revert tr b log. induction fuel as [|fuel IH]; intros tr b log Hlog Hb Hf H0; [lia |].
  cbn [begin_loop].
  destruct (begin_candidates_spec p begin _ tr b log0 log (candidates_process p pref b) Hlog Hb)
    as [[Hc Hn] (log1 & Hl1 & Hr)].
  destruct (begin_candidates begin _ tr b) as [[r|tr1] b1] eqn:E; cbn in *.
  { exists r, b1, log1. split_and!; [done.. |]. destruct (begin_candidates_refusal _ _ _ _ _ _ E) as [? ?].
    by destruct r as [|[]]. }
  destruct (Z.leb_spec deadline (now_ms (br_world b1))).
  { eexists _, b1, log1. split; [done |]. split; [done |]. by destruct tr1. }
  set (w2 := wait_changed _ _).
  pose proof (wait_clock (br_world b1) (Z.min (deadline - now_ms (br_world b1)) TIP_RETRY_INTERVAL)) as Hw.
  destruct (wait_cut (br_world b1) (Z.min (deadline - now_ms (br_world b1)) TIP_RETRY_INTERVAL)) as [Hcut Hstill].
  fold w2 in Hw, Hcut, Hstill. set (b2 := settle_clients _).
  destruct (settle_clients_spec (mkBroker w2 (br_registry b1) (br_log b1))) as (Hl2 & Hc2 & [_ Hn2]).
  fold b2 in Hl2, Hc2, Hn2. cbn in Hl2, Hc2, Hn2.
  destruct (decide (now_ms w2 = now_ms (br_world b1))) as [He | He].
  - specialize (Hstill He). apply (IH tr1 b2 log1); [congruence | done | rewrite Hc2; lia | lia].
  - apply (IH tr1 b2 log1); [congruence | done | rewrite Hc2; lia | lia].
Qed.

End broker.
Arguments broker : clear implicits.

(** ** A system to run the broker on

    The world is the clock, and the waits that will be cut short; every text service has no
    focus. *)
#[export] Instance deaf_pipes : TipPipes (Z * nat) := {|
  now_ms w := w.1;
  tip_exchange w _ _ := ((w.1 + 10, w.2), Ok TrNoFocus);
  wait_changed w d := match w.2 with O => (w.1 + Z.max d 1, O) | S n => (w.1, n) end;
  client_events w := ([], w);
  map_order _ l := l;
  map_order_perm _ _ := reflexivity _;
  exchange_clock w _ _ := ltac:(cbn; lia);
  events_clock w := eq_refl;
  wait_clock w d := ltac:(destruct w as [? []]; cbn; lia);
  cut_short w := w.2;
  exchange_cut w _ _ := ltac:(cbn; lia);
  events_cut w := ltac:(cbn; lia);
  wait_cut w d := ltac:(destruct w as [? []]; cbn; lia);
|}.

Definition one_client : broker (Z * nat) :=
  mkBroker (0, 3%nat) (register_client (Some (mkTipHello TIP_IPC_VERSION "0.2.1" 7 8)) (Some 7)
    RegistryState_initial).2 [].

Example deaf_begin :
  (default (Ok (mkTipKey 0 0 0), one_client)
     (begin_for_target 200 7 8 (mkTipBegin "s" 1 "x" false) 150 one_client)).1 = Err Unsupported.
Proof. by vm_compute. Qed.


Lemma one_client_ok : registry_ok (br_registry one_client).
Proof.
  apply (register_client_ok (Some (mkTipHello TIP_IPC_VERSION "0.2.1" 7 8)) (Some 7)
    RegistryState_initial); [by intros ??? ? | by vm_compute..].
Qed.

(** The key of the first connection, after its thread connected again. *)
Definition reconnected : broker (Z * nat) :=
  mkBroker (0, O) (on_client_event (br_registry one_client)
    (ClientConnected (Some (mkTipHello TIP_IPC_VERSION "0.2.1" 7 8)) (Some 7))) [].

Lemma stale_key_is_refused_witness :
  send (mkTipKey 7 8 1) TcPing
    (mkBroker (0, O) (foldl on_client_event (br_registry reconnected) [ClientLeft (mkTipKey 7 8 1)]) [])
  = (Err NotConnected,
     mkBroker (0, O) (foldl on_client_event (br_registry reconnected) [ClientLeft (mkTipKey 7 8 1)]) []).
Proof.
  apply (stale_key_is_refused (mkTipKey 7 8 1) TcPing [ClientLeft (mkTipKey 7 8 1)] reconnected).
  - apply (register_client_ok (Some (mkTipHello TIP_IPC_VERSION "0.2.1" 7 8)) (Some 7)
      (br_registry one_client)); [apply one_client_ok | by vm_compute..].
  - split; [by vm_compute |]. intros client Hc. vm_compute in Hc. by injection Hc as <-.
  - by vm_compute.
  - by vm_compute.
Defined.
