(* ===== verification/TipChannel.v ===== *)
(** * The channel to a text service

    [flowtype-injector/src/tip_broker.rs serve_client] and [send_to], step by step: the
    thread of a connected text service with its queue of requests, the thread of the
    injector that waits for an answer, the clock. [TipBroker.tip_exchange] is one request
    through this channel that comes back. *)

From S2P Require Import Prelude Text Protocol TipModel TipBroker.

(** ** State *)

(** [injector/tip_broker.rs BrokerRequest] The channel of its answer is a number of its own. *)
Record BrokerRequest := mkRequest { rq_id : Z; rq_command : TipCommand }.

(** [injector/tip_broker.rs:29-29 TIP_RESPONSE_TIMEOUT] *)
Definition TIP_RESPONSE_TIMEOUT : Z := 1500.
(** [injector/tip_broker.rs:236-236 sync_channel] Requests that may wait to be taken. *)
Definition CHANNEL_BOUND : Z := 8.

Inductive Phase := PhHello | PhQuarantined | PhServing (key : TipKey) | PhEnded.

(** The thread of the injector: it is blocked in [SyncSender::send], or has sent at a time
    and waits for the answer until a deadline. *)
Inductive Caller := CallerIdle | CallerSending (r : BrokerRequest) | CallerWaiting (r : BrokerRequest) (sent : Z).

Record Connection := mkConnection {
  cn_registry : RegistryState;
  cn_phase : Phase;
  cn_queue : list BrokerRequest;
  cn_busy : option BrokerRequest;
  cn_caller : Caller;
  cn_now : Z;
  cn_next : Z;
  (* what went over the pipe, and what the calls gave with the times they were sent and
     came back at *)
  cn_written : list BrokerRequest;
  cn_answers : list TipResponse;
  cn_results : list (BrokerRequest * Z * Z * tip_result);
}.

Implicit Type c : Connection.

Definition on_registry (f : RegistryState → RegistryState) c : Connection :=
  mkConnection (f (cn_registry c)) (cn_phase c) (cn_queue c) (cn_busy c) (cn_caller c) (cn_now c) (cn_next c)
    (cn_written c) (cn_answers c) (cn_results c).
Definition set_phase p c : Connection :=
  mkConnection (cn_registry c) p (cn_queue c) (cn_busy c) (cn_caller c) (cn_now c) (cn_next c)
    (cn_written c) (cn_answers c) (cn_results c).
Definition set_queue q c : Connection :=
  mkConnection (cn_registry c) (cn_phase c) q (cn_busy c) (cn_caller c) (cn_now c) (cn_next c)
    (cn_written c) (cn_answers c) (cn_results c).
Definition set_busy b c : Connection :=
  mkConnection (cn_registry c) (cn_phase c) (cn_queue c) b (cn_caller c) (cn_now c) (cn_next c)
    (cn_written c) (cn_answers c) (cn_results c).
Definition set_caller k c : Connection :=
  mkConnection (cn_registry c) (cn_phase c) (cn_queue c) (cn_busy c) k (cn_now c) (cn_next c)
    (cn_written c) (cn_answers c) (cn_results c).
Definition set_now t c : Connection :=
  mkConnection (cn_registry c) (cn_phase c) (cn_queue c) (cn_busy c) (cn_caller c) t (cn_next c)
    (cn_written c) (cn_answers c) (cn_results c).
Definition wrote r c : Connection :=
  mkConnection (cn_registry c) (cn_phase c) (cn_queue c) (cn_busy c) (cn_caller c) (cn_now c) (cn_next c)
    (cn_written c ++ [r]) (cn_answers c) (cn_results c).
Definition read r c : Connection :=
  mkConnection (cn_registry c) (cn_phase c) (cn_queue c) (cn_busy c) (cn_caller c) (cn_now c) (cn_next c)
    (cn_written c) (cn_answers c ++ [r]) (cn_results c).

(** The call comes back. *)
Definition returns (r : BrokerRequest) (sent : Z) (result : tip_result) c : Connection :=
  mkConnection (cn_registry c) (cn_phase c) (cn_queue c) (cn_busy c) CallerIdle (cn_now c) (cn_next c)
    (cn_written c) (cn_answers c) (cn_results c ++ [(r, sent, cn_now c, result)]).

(** ** The caller *)

(** [injector/tip_broker.rs:247-247 TipRegistry::serve_client] What is
    sent on the answer channel of a request reaches the call that waits for it; one that
    has given up is not there any more. *)
Definition deliver (r : BrokerRequest) (result : tip_result) c : Connection :=
  match cn_caller c with
  | CallerWaiting waiting sent => if rq_id waiting =? rq_id r then returns waiting sent result c else c
  | _ => c
  end.

(** [injector/tip_broker.rs:160-166 TipRegistry::send_to] [SyncSender::send]
    waits while the queue is full and fails when the receiver is gone. *)
Definition try_to_send c : Connection :=
  match cn_caller c with
  | CallerSending r =>
    match cn_phase c with
    | PhEnded => returns r (cn_now c) (Err BrokenPipe) c
    | _ => if zlength (cn_queue c) <? CHANNEL_BOUND
           then set_caller (CallerWaiting r (cn_now c)) (set_queue (cn_queue c ++ [r]) c)
           else c
    end
  | _ => c
  end.

(** [injector/tip_broker.rs TipRegistry::send_to] It starts: the client was found in the
    registry before, and may have left since. *)
Definition start_call (command : TipCommand) c : Connection :=
  match cn_caller c, cn_phase c with
  | CallerIdle, (PhServing _ | PhEnded) =>
    let r := mkRequest (cn_next c) command in
    try_to_send (mkConnection (cn_registry c) (cn_phase c) (cn_queue c) (cn_busy c) (CallerSending r) (cn_now c) (cn_next c + 1)
                   (cn_written c) (cn_answers c) (cn_results c))
  | _, _ => c
  end.

(** [injector/tip_broker.rs:167-169 TipRegistry::send_to] A millisecond passes; [recv_timeout]
    gives up at its deadline. *)
Definition tick c : Connection :=
  let c := set_now (cn_now c + 1) c in
  match cn_caller c with
  | CallerWaiting r sent => if sent + TIP_RESPONSE_TIMEOUT <=? cn_now c then returns r sent (Err TimedOut) c else c
  | _ => c
  end.

(** ** The thread of the client *)

(** The queue is dropped with the answer channels in it; a call that waits for one of them
    is told so, and one that is about to send finds the channel closed. *)
Definition drop_queue c : Connection :=
  let dropped := cn_queue c in
  let c := set_queue [] c in
  try_to_send
    match cn_caller c with
    | CallerWaiting waiting sent =>
      if existsb (λ r, rq_id r =? rq_id waiting) dropped then returns waiting sent (Err TimedOut) c else c
    | _ => c
    end.

(** [injector/tip_broker.rs:252-265 TipRegistry::serve_client] After the loop. *)
Definition end_thread (key : TipKey) c : Connection :=
  on_registry (unregister_client key) (drop_queue (set_phase PhEnded (set_busy None c))).

(** The exchange with the pipe failed: the call is answered so and the loop left. *)
Definition exchange_failed (key : TipKey) (r : BrokerRequest) c : Connection :=
  end_thread key (deliver r (Err PipeFailed) c).

(** [injector/tip_broker.rs:208-242 TipRegistry::serve_client] The hello; an incompatible
    client is kept connected and told nothing ([quarantine_incompatible_client]). *)
Definition greet (hello : option TipHello) (pipe_process_id : option Z) c : Connection :=
  match cn_phase c with
  | PhHello =>
    let '(key, registry) := register_client hello pipe_process_id (cn_registry c) in
    let c := on_registry (λ _, registry) c in
    match key with
    | Some key => set_phase (PhServing key) c
    | None =>
      match hello with
      | Some hello => set_phase (if hello_is_compatible hello then PhEnded else PhQuarantined) c
      | None => set_phase PhEnded c
      end
    end
  | _ => c
  end.

(** [injector/tip_broker.rs:243-244 TipRegistry::serve_client] The next request is taken from
    the queue and its command written. *)
Definition take_request (written : bool) c : Connection :=
  match cn_phase c, cn_busy c, cn_queue c with
  | PhServing key, None, r :: queue =>
    let c := try_to_send (set_queue queue c) in
    if written then wrote r (set_busy (Some r) c) else exchange_failed key r c
  | _, _, _ => c
  end.

(** [injector/tip_broker.rs:245-251 TipRegistry::serve_client] What is read is the answer. *)
Definition read_answer (response : option TipResponse) c : Connection :=
  match cn_phase c, cn_busy c with
  | PhServing key, Some r =>
    match response with
    | Some response => deliver r (Ok response) (read response (set_busy None c))
    | None => exchange_failed key r c
    end
  | _, _ => c
  end.

(** [receiver] ends when nobody can send any more: the registry has another client for the
    thread, or none. *)
Definition senders_gone c : Connection :=
  match cn_phase c, cn_busy c, cn_queue c, cn_caller c with
  | PhServing key, None, [], CallerIdle =>
    if bool_decide (clients (cn_registry c) !! (tk_process_id key, tk_thread_id key) = Some key) then c else end_thread key c
  | _, _, _, _ => c
  end.

Inductive Event :=
| EvHello (hello : option TipHello) (pipe_process_id : option Z)
| EvQuarantineEnds
| EvCall (command : TipCommand)
| EvTake (written : bool)
| EvAnswer (response : option TipResponse)
| EvSendersGone
| EvTick
| EvElsewhere (e : client_event).

Definition step c (e : Event) : Connection :=
  match e with
  | EvHello hello pid => greet hello pid c
  | EvQuarantineEnds => match cn_phase c with PhQuarantined => set_phase PhEnded c | _ => c end
  | EvCall command => start_call command c
  | EvTake written => take_request written c
  | EvAnswer response => read_answer response c
  | EvSendersGone => senders_gone c
  | EvTick => tick c
  | EvElsewhere e => on_registry (λ s, on_client_event s e) c
  end.

Definition connected (registry : RegistryState) (now : Z) : Connection :=
  mkConnection registry PhHello [] None CallerIdle now 0 [] [] [].
Definition run (registry : RegistryState) (now : Z) (es : list Event) : Connection :=
  foldl step (connected registry now) es.
