(* ===== verification/TipChannelSafety.v ===== *)
(** * The channel to a text service: its properties

    Every answer is the answer to the command it is given for, commands go out once and
    in order, a call that was sent comes back in time; and a client that stops answering
    makes a later call wait for ever. *)

From S2P Require Import Prelude Text Protocol TipModel TipBroker TipChannel.

Implicit Type c : Connection.

(** ** Requests are numbered in the order they are sent *)

(** What a call that is blocked will send. *)
Definition pending c : list BrokerRequest := match cn_caller c with CallerSending r => [r] | _ => [] end.
Definition numbered (next : Z) (l : list BrokerRequest) : Prop :=
  StronglySorted Z.lt (rq_id <$> l) ∧ Forall (λ r, rq_id r < next) l.

Lemma waiting_numbered_snoc next l r : numbered next l → rq_id r = next → numbered (next + 1) (l ++ [r]).
Proof.
  intros [Hs Hn] <-. split.
  - rewrite fmap_app. apply StronglySorted_snoc; [done |]. by apply Forall_fmap.
  - apply Forall_app. split; [eapply Forall_impl; [done |]; cbn; lia | repeat constructor; lia].
Qed.

Lemma Forall_sublist {A} (P : A → Prop) l k : l `sublist_of` k → Forall P k → Forall P l.
Proof.
  rewrite !Forall_forall. intros Hsub Hk x Hx. apply Hk. eapply elem_of_submseteq; [done | by apply sublist_submseteq].
Qed.

Lemma numbered_sublist next l k : l `sublist_of` k → numbered next k → numbered next l.
Proof.
  intros Hsub [Hs Hn]. split.
  - induction Hsub as [| x l k Hsub IH | x l k Hsub IH]; cbn in *; [constructor | |].
    + apply StronglySorted_inv in Hs as [Hs Hx]. apply Forall_cons in Hn as [_ Hn]. constructor; [auto |].
      rewrite Forall_fmap in Hx |- *. eapply Forall_sublist; eassumption.
    + apply StronglySorted_inv in Hs as [Hs _]. apply Forall_cons in Hn as [_ Hn]. auto.
  - eapply Forall_sublist; eassumption.
Qed.

Lemma numbered_inj next l r1 r2 : numbered next l → r1 ∈ l → r2 ∈ l → rq_id r1 = rq_id r2 → r1 = r2.
Proof.
  intros [Hs _] H1 H2 Heq. induction l as [|x l IH]; [by apply not_elem_of_nil in H1 |]. cbn in Hs.
  apply StronglySorted_inv in Hs as [Hs Hx]. rewrite Forall_fmap, Forall_forall in Hx.
  apply elem_of_cons in H1 as [-> | H1], H2 as [-> | H2]; [done | | | auto].
  - specialize (Hx _ H2). cbn in Hx. lia.
  - specialize (Hx _ H1). cbn in Hx. lia.
Qed.

Lemma numbered_before next l k r1 r2 : numbered next (l ++ k) → r1 ∈ l → r2 ∈ k → rq_id r1 < rq_id r2.
Proof.
  intros [Hs _] H1 H2. induction l as [|x l IH]; [by apply not_elem_of_nil in H1 |]. cbn in Hs.
  apply StronglySorted_inv in Hs as [Hs Hx]. rewrite Forall_fmap, Forall_forall in Hx.
  apply elem_of_cons in H1 as [-> | H1]; [apply (Hx r2); set_solver | auto].
Qed.

(** ** What holds of a connection *)

(** A call came back in time, and an answer is what was read for its command. *)
Definition result_ok (written : list BrokerRequest) (answers : list TipResponse) (x : BrokerRequest * Z * Z * tip_result) : Prop :=
  let '(r, sent, back, result) := x in
  sent ≤ back ≤ sent + TIP_RESPONSE_TIMEOUT ∧
  ∀ a, result = Ok a → ∃ i, written !! i = Some r ∧ answers !! i = Some a.

Record chan_inv c : Prop := {
  ci_numbered : numbered (cn_next c) (cn_written c ++ cn_queue c ++ pending c);
  ci_room : zlength (cn_queue c) ≤ CHANNEL_BOUND;
  ci_pairs : match cn_busy c with
             | Some r => ∃ ws, cn_written c = ws ++ [r] ∧ length ws = length (cn_answers c)
             | None => match cn_phase c with PhEnded => True | _ => length (cn_answers c) = length (cn_written c) end
             end;
  ci_phase : match cn_phase c with PhServing _ => True | _ => cn_queue c = [] ∧ cn_busy c = None ∧ cn_caller c = CallerIdle end;
  ci_caller : match cn_caller c with
              | CallerIdle => True
              | CallerSending _ => zlength (cn_queue c) = CHANNEL_BOUND
              | CallerWaiting r sent => (r ∈ cn_queue c ∨ cn_busy c = Some r) ∧ sent ≤ cn_now c < sent + TIP_RESPONSE_TIMEOUT
              end;
  ci_results : Forall (result_ok (cn_written c) (cn_answers c)) (cn_results c);
  ci_abandoned r : r ∈ cn_queue c ∨ cn_busy c = Some r →
    (∃ sent, cn_caller c = CallerWaiting r sent) ∨ ∃ sent back, (r, sent, back, Err TimedOut) ∈ cn_results c;
}.

Lemma connected_inv registry now : chan_inv (connected registry now).
Proof.
  split; cbn; try done.
  - split; constructor.
  - intros r [Hr | Hr]; [by apply not_elem_of_nil in Hr | done].
Qed.

(** What was read for a command stays so. *)
Lemma results_grow written answers ws rs l :
  Forall (result_ok written answers) l → Forall (result_ok (written ++ ws) (answers ++ rs)) l.
Proof.
  intros Hl. eapply Forall_impl; [done |]. intros [[[r sent] back] result] [Ht Hok]. split; [done |].
  intros a Ha. destruct (Hok a Ha) as (i & Hw & Hr). exists i. by split; apply lookup_app_l_Some.
Qed.

Lemma failure_ok written answers l r sent back e :
  Forall (result_ok written answers) l → sent ≤ back ≤ sent + TIP_RESPONSE_TIMEOUT →
  Forall (result_ok written answers) (l ++ [(r, sent, back, Err e)]).
Proof. intros Hl Ht. apply Forall_app. split; [done |]. apply Forall_singleton. by split. Qed.

Lemma on_registry_inv f c : chan_inv c → chan_inv (on_registry f c).
Proof. intros []. by split. Qed.

Lemma tick_inv c : chan_inv c → chan_inv (tick c).
Proof.
  intros [Hn Hroom Hpairs Hphase Hcaller Hres Hab]. destruct c as [reg ph q b k now next ws as' rs]. unfold tick, pending in *. cbn in *.
  destruct k as [| r | r sent]; cbn in *; try (by split). destruct (Z.leb_spec (sent + TIP_RESPONSE_TIMEOUT) (now + 1)) as [Hlate | Hsoon].
  - split; cbn; try done.
    + destruct ph; naive_solver.
    + apply failure_ok; [done | cbn; lia].
    + intros r' [[sent' [= -> ->]] | (sent' & back & Hin)]%Hab; right.
      * exists sent', (now + 1). set_solver.
      * exists sent', back. set_solver.
  - split; cbn; try done. split; [apply Hcaller | lia].
Qed.

(** The loop is left: whoever waits is told. *)
Lemma end_thread_inv key c :
  numbered (cn_next c) (cn_written c ++ cn_queue c ++ pending c) →
  Forall (result_ok (cn_written c) (cn_answers c)) (cn_results c) →
  (∀ r sent, cn_caller c = CallerWaiting r sent → r ∈ cn_queue c ∧ sent ≤ cn_now c < sent + TIP_RESPONSE_TIMEOUT) →
  chan_inv (end_thread key c).
Proof.
  intros Hn Hres Hcaller. destruct c as [reg ph q b k now next ws as' rs]. unfold end_thread. apply on_registry_inv. cbn in *.
  assert (numbered next ws) as Hws by (eapply numbered_sublist; [| exact Hn]; by apply sublist_inserts_r).
  assert (∀ rs', Forall (result_ok ws as') rs' → chan_inv (mkConnection reg PhEnded [] None CallerIdle now next ws as' rs')) as Hend.
  { intros rs' Hrs'. split; cbn; try done; [by rewrite app_nil_r |]. intros r [Hr | Hr]; [by apply not_elem_of_nil in Hr | done]. }
  unfold drop_queue. cbn. destruct k as [| r | r sent]; cbn; [by apply Hend | |].
  - apply Hend, failure_ok; [done | unfold TIP_RESPONSE_TIMEOUT; cbn; lia].
  - destruct (Hcaller r sent eq_refl) as [Hin Htime].
    assert (existsb (λ r0, rq_id r0 =? rq_id r) q = true) as ->.
    { apply existsb_exists. exists r. split; [by apply list_elem_of_In | apply Z.eqb_refl]. }
    apply Hend, failure_ok; [done | cbn; lia].
Qed.

(** What is in the queue or on the pipe is one request for each number. *)
Lemma waiting_is c r w sent :
  chan_inv c → r ∈ cn_queue c ∨ cn_busy c = Some r → cn_caller c = CallerWaiting w sent → rq_id w = rq_id r → w = r.
Proof.
  intros [Hn _ Hpairs _ Hcaller _ _] Hr Hw Heq. rewrite Hw in Hcaller. destruct Hcaller as [Hin _].
  assert (∀ x, x ∈ cn_queue c ∨ cn_busy c = Some x → x ∈ cn_written c ++ cn_queue c ++ pending c) as Hall.
  { intros x [Hx | Hx]; [set_solver |]. rewrite Hx in Hpairs. destruct Hpairs as (ws & -> & _). set_solver. }
  eapply numbered_inj; eauto.
Qed.

(** The exchange of a request that is in hand fails. *)
Lemma exchange_failed_inv key r c :
  numbered (cn_next c) (cn_written c ++ cn_queue c ++ pending c) →
  Forall (result_ok (cn_written c) (cn_answers c)) (cn_results c) →
  (∀ w sent, cn_caller c = CallerWaiting w sent →
     (w ∈ cn_queue c ∨ rq_id w = rq_id r) ∧ sent ≤ cn_now c < sent + TIP_RESPONSE_TIMEOUT) →
  chan_inv (exchange_failed key r c).
Proof.
  intros Hn Hres Hcaller. unfold exchange_failed. apply end_thread_inv; unfold deliver, pending in *;
    destruct (cn_caller c) as [| x | w sent] eqn:Hc; cbn; rewrite ?Hc; try done;
    try (specialize (Hcaller w sent eq_refl) as [Hw Ht]; destruct (Z.eqb_spec (rq_id w) (rq_id r)) as [He | He]; cbn; rewrite ?Hc; try done).
  - apply failure_ok; [done | cbn; lia].
  - intros w' sent' [= <- <-]. split; [by destruct Hw | done].
Qed.

Lemma greet_inv hello pid c : chan_inv c → chan_inv (greet hello pid c).
Proof.
  intros Hinv. unfold greet. destruct (cn_phase c) eqn:Hph; try done. destruct (register_client hello pid (cn_registry c)) as [key registry].
  assert (∀ p, chan_inv (set_phase p (on_registry (λ _, registry) c))) as Hset.
  { intros p. destruct Hinv as [Hn Hroom Hpairs Hphase Hcaller Hres Hab]. rewrite Hph in Hphase, Hpairs. destruct Hphase as (Hq & Hb & Hk).
    rewrite Hb in Hpairs. unfold pending in Hn. rewrite Hk in Hn. split; unfold pending; cbn; rewrite ?Hq, ?Hb, ?Hk in *; try done.
    - destruct p; done.
    - by destruct p. }
  destruct key; [apply Hset |]. destruct hello as [hello |]; apply Hset.
Qed.

Lemma start_call_inv command c : chan_inv c → chan_inv (start_call command c).
Proof.
  intros Hinv. destruct c as [reg ph q b k now next ws as' rs]. unfold start_call. cbn. destruct k; try done.
  pose proof Hinv as Hsame. destruct Hinv as [Hn Hroom Hpairs Hphase Hcaller Hres Hab]. unfold pending in Hn. cbn in *. rewrite app_nil_r in Hn.
  pose proof (waiting_numbered_snoc next (ws ++ q) (mkRequest next command) Hn eq_refl) as Hn'. rewrite <- app_assoc in Hn'.
  destruct ph as [| | key |]; try exact Hsame; unfold try_to_send; cbn.
  - destruct (Z.ltb_spec (zlength q) CHANNEL_BOUND) as [Hl | Hl]; split; unfold pending; cbn; try done.
    + by rewrite app_nil_r.
    + rewrite zlength_app. change (zlength [mkRequest next command]) with 1. lia.
    + split; [left; set_solver | unfold TIP_RESPONSE_TIMEOUT; lia].
    + intros r [Hr | Hr]; [apply elem_of_app in Hr as [Hr | ->%list_elem_of_singleton] |].
      * right. destruct (Hab r (or_introl Hr)) as [[? ?] | ?]; done.
      * left. by eexists.
      * right. destruct (Hab r (or_intror Hr)) as [[? ?] | ?]; done.
    + lia.
    + intros r Hr. right. destruct (Hab r Hr) as [[? ?] | ?]; done.
  - destruct Hphase as (-> & -> & _). split; unfold pending; cbn; try done.
    + rewrite app_nil_r in *. eapply numbered_sublist in Hn'; [| by apply sublist_inserts_r]. done.
    + apply failure_ok; [done | unfold TIP_RESPONSE_TIMEOUT; cbn; lia].
    + intros r [Hr | Hr]; [by apply not_elem_of_nil in Hr | done].
Qed.

(** Taking a request makes room for the one that is blocked. *)
Lemma take_request_inv written c : chan_inv c → chan_inv (take_request written c).
Proof.
  intros Hinv. destruct c as [reg ph q b k now next ws as' rs]. unfold take_request. cbn.
  destruct ph as [| | key |]; try done. destruct b; [done |]. destruct q as [| r q]; [done |].
  destruct Hinv as [Hn Hroom Hpairs _ Hcaller Hres Hab]. unfold pending in Hn. cbn [cn_busy cn_phase cn_queue cn_caller cn_now cn_next cn_written cn_answers cn_results] in *.
  rewrite zlength_cons in *.
  (* what the queue and the caller are then *)
  assert (∃ q' k', try_to_send (set_queue q (mkConnection reg (PhServing key) (r :: q) None k now next ws as' rs))
      = mkConnection reg (PhServing key) q' None k' now next ws as' rs ∧
    (∀ x, x ∈ q' → x ∈ q ∨ k' = CallerWaiting x now) ∧ zlength q' ≤ CHANNEL_BOUND ∧
    (ws ++ r :: q') ++ match k' with CallerSending s => [s] | _ => [] end = ws ++ (r :: q) ++ match k with CallerSending s => [s] | _ => [] end ∧
    match k' with
    | CallerWaiting w sent => (w ∈ q' ∨ w = r) ∧ sent ≤ now < sent + TIP_RESPONSE_TIMEOUT
    | CallerSending _ => False
    | CallerIdle => True
    end ∧ (∀ x sent, k = CallerWaiting x sent → k' = k)) as (q' & k' & -> & Hq' & Hroom' & Hlist & Hcaller' & Hsame).
  { unfold try_to_send. cbn. destruct k as [| s | w sent]; cbn.
    - exists q, CallerIdle. split_and!; [done | auto | unfold CHANNEL_BOUND in *; lia | by rewrite <- app_assoc | done | done].
    - destruct (Z.ltb_spec (zlength q) CHANNEL_BOUND); [| lia]. exists (q ++ [s]), (CallerWaiting s now).
      split_and!; [done | | rewrite zlength_app; change (zlength [s]) with 1; lia | by rewrite app_nil_r
        | left; set_solver | lia | unfold TIP_RESPONSE_TIMEOUT; lia | done].
      intros x [Hx | ->%list_elem_of_singleton]%elem_of_app; auto.
    - exists q, (CallerWaiting w sent). destruct Hcaller as [[[-> | Hw]%elem_of_cons | Hw] Ht];
      [.. | done]; split_and!; auto; try lia; by rewrite <- app_assoc. }
  assert (numbered next (ws ++ r :: q')) as Hn'.
  { rewrite <- Hlist in Hn. eapply numbered_sublist; [| exact Hn]. by apply sublist_inserts_r. }
  destruct written.
  - split; unfold pending; cbn; try done.
    + rewrite <- app_assoc. cbn. destruct k'; [| done |]; by rewrite app_nil_r.
    + exists ws. by split.
    + destruct k'; [done | done |]. destruct Hcaller' as [[Hw | ->] Ht]; auto.
    + rewrite <- (app_nil_r as'). by apply results_grow.
    + intros x Hx. assert (x ∈ r :: q ∨ k' = CallerWaiting x now) as [Hx' | ->] by (destruct Hx as [Hx%Hq' | [= ->]]; set_solver).
      * destruct (Hab x (or_introl Hx')) as [[sent Hk] | ?]; [left; exists sent; rewrite <- Hk; by eapply Hsame | by right].
      * left. by eexists.
  - apply exchange_failed_inv; unfold pending; cbn; [| done |].
    + destruct k'; [| done |]; rewrite app_nil_r; eapply numbered_sublist; [| exact Hn' | | exact Hn']; apply sublist_app; [done | by constructor | done | by constructor].
    + intros w sent ->. destruct Hcaller' as [[Hw | ->] Ht]; auto.
Qed.

Lemma read_answer_inv response c : chan_inv c → chan_inv (read_answer response c).
Proof.
  intros Hinv. pose proof (waiting_is c) as Hsame. destruct c as [reg ph q b k now next ws as' rs]. unfold read_answer. cbn.
  destruct ph as [| | key |]; try done. destruct b as [r |]; [| done].
  destruct Hinv as [Hn Hroom Hpairs Hphase Hcaller Hres Hab] eqn:E. clear E. cbn in *.
  assert (∀ w sent, k = CallerWaiting w sent → w ∈ q ∨ w = r) as Hw.
  { intros w sent ->. destruct Hcaller as [[? | [= ->]] _]; auto. }
  destruct response as [a |].
  - destruct Hpairs as (ws0 & -> & Hlen). unfold deliver. cbn.
    assert (Forall (result_ok (ws0 ++ [r]) (as' ++ [a])) rs) as Hres'.
    { rewrite <- (app_nil_r (ws0 ++ [r])). by apply results_grow. }
    assert ((ws0 ++ [r]) !! length ws0 = Some r ∧ (as' ++ [a]) !! length ws0 = Some a) as [Hi Ha].
    { rewrite Hlen at 2. rewrite !list_lookup_middle by done. done. }
    assert (length (as' ++ [a]) = length (ws0 ++ [r])) as Hlen' by (rewrite !length_app; cbn; lia).
    destruct k as [| s | w sent]; cbn; [| | destruct (Z.eqb_spec (rq_id w) (rq_id r)) as [He | He]]; split; unfold pending in *; cbn; try done.
    + intros x [Hx | [=]]. destruct (Hab x (or_introl Hx)) as [[? [=]] | ?]; auto.
    + intros x [Hx | [=]]. destruct (Hab x (or_introl Hx)) as [[? [=]] | ?]; auto.
    + assert (w = r) as -> by (eapply (Hsame r); eauto). apply Forall_app. split; [done |]. apply Forall_singleton.
      destruct Hcaller as [_ Ht]. split; [lia |]. intros a' [= <-]. by exists (length ws0).
    + intros x [Hx | [=]]. right. destruct (Hab x (or_introl Hx)) as [[sent' [= <- <-]] | (sent' & back & Hin)].
      * pose proof (numbered_before _ _ _ r w Hn ltac:(set_solver) ltac:(set_solver)). lia.
      * exists sent', back. set_solver.
    + destruct Hcaller as [Hin Ht]. split; [| done]. destruct Hin as [? | [= ->]]; [auto | done].
    + intros x [Hx | [=]]. destruct (Hab x (or_introl Hx)) as [[sent' [= <- <-]] | ?]; [left; by eexists | auto].
  - apply exchange_failed_inv; unfold pending in *; cbn; [done | done |].
    intros w sent ->. destruct (Hw w sent eq_refl) as [? | ->]; split; try apply Hcaller; auto.
Qed.

Lemma senders_gone_inv c : chan_inv c → chan_inv (senders_gone c).
Proof.
  intros Hinv. unfold senders_gone. repeat case_match; try done. apply end_thread_inv; [apply Hinv.. | congruence].
Qed.

Lemma step_inv c e : chan_inv c → chan_inv (step c e).
Proof.
  intros Hinv. destruct e; cbn [step];
    [by apply greet_inv | | by apply start_call_inv | by apply take_request_inv | by apply read_answer_inv
    | by apply senders_gone_inv | by apply tick_inv | by apply on_registry_inv].
  destruct (cn_phase c) eqn:Hph; [done | | done..]. destruct Hinv as [Hn Hroom Hpairs Hphase Hcaller Hres Hab]. rewrite Hph in Hphase, Hpairs.
  split; try done. cbn. by destruct (cn_busy c).
Qed.

Lemma run_inv registry now es : chan_inv (run registry now es).
Proof.
  unfold run. generalize (connected_inv registry now). generalize (connected registry now).
  induction es as [|e es IH]; intros c Hc; [done |]. cbn. by apply IH, step_inv.
Qed.

Lemma run_app registry now es later : run registry now (es ++ later) = foldl step (run registry now es) later.
Proof. apply foldl_app. Qed.

(** ** Answers, order and time *)

(** C15. (safety) Whatever the text service, the other threads and the clock do: the commands
    go over the pipe in the order they were sent, each once; an answer that a call gets is
    the one that was read for its own command; and a call that was sent comes back within
    the time allowed. *)
Theorem answers_are_its_own registry now es :
  let c := run registry now es in
  StronglySorted Z.lt (rq_id <$> cn_written c) ∧
  ∀ r sent back result, (r, sent, back, result) ∈ cn_results c →
  sent ≤ back ≤ sent + TIP_RESPONSE_TIMEOUT ∧
  ∀ a, result = Ok a → ∃ i, cn_written c !! i = Some r ∧ cn_answers c !! i = Some a.
Proof.
  intros c. destruct (run_inv registry now es) as [Hn _ _ _ _ Hres _]. fold c in Hn, Hres. split.
  - eapply numbered_sublist in Hn; [apply Hn | by apply sublist_inserts_r].
  - intros r sent back result Hin. rewrite Forall_forall in Hres. exact (Hres _ Hin).
Qed.

(** [goes_on c c']: what came back is kept, a call that waits goes on waiting or has come
    back, and the clock stands. *)
Record goes_on c c' : Prop := {
  go_results x : x ∈ cn_results c → x ∈ cn_results c';
  go_waiting r sent : cn_caller c = CallerWaiting r sent →
    cn_caller c' = CallerWaiting r sent ∨ ∃ back result, (r, sent, back, result) ∈ cn_results c';
  go_now : cn_now c' = cn_now c;
}.
#[export] Instance goes_on_pre : PreOrder goes_on.
Proof.
  split; [by split; auto |]. intros a b c [R1 W1 N1] [R2 W2 N2]. split; [auto | | congruence].
  intros r sent Hw. destruct (W1 r sent Hw) as [H1 | (back & result & Hin)]; [by apply W2 | right; eauto].
Qed.

Lemma goes_on_same c c' :
  cn_results c' = cn_results c → cn_caller c' = cn_caller c → cn_now c' = cn_now c → goes_on c c'.
Proof. intros Hr Hk Hn. split; [by rewrite Hr | rewrite Hk; auto | done]. Qed.

Lemma returns_goes_on r sent result c :
  (∀ w t, cn_caller c = CallerWaiting w t → w = r ∧ t = sent) → goes_on c (returns r sent result c).
Proof.
  intros Hw. split; cbn; [set_solver | | done]. intros w t Hk. destruct (Hw w t Hk) as [-> ->]. right.
  exists (cn_now c), result. set_solver.
Qed.

Lemma try_to_send_goes_on c : goes_on c (try_to_send c).
Proof.
  unfold try_to_send. destruct (cn_caller c) eqn:Hk; [done | | done]. destruct (cn_phase c); try (by apply returns_goes_on; rewrite Hk);
    (case_match; [split; cbn; [done | by rewrite Hk | done] | done]).
Qed.

Lemma deliver_goes_on r result c : goes_on c (deliver r result c).
Proof. unfold deliver. destruct (cn_caller c) eqn:Hk; [done.. |]. case_match; [| done]. apply returns_goes_on. rewrite Hk. by intros w t [= <- <-]. Qed.

Lemma end_thread_goes_on key c : goes_on c (end_thread key c).
Proof.
  unfold end_thread. transitivity (drop_queue (set_phase PhEnded (set_busy None c))); [| by apply goes_on_same]. unfold drop_queue. etrans; [| apply try_to_send_goes_on].
  set (c' := set_queue [] _). assert (goes_on c c') as Hc by by apply goes_on_same. etrans; [exact Hc |].
  destruct (cn_caller c') eqn:Hk; [done.. |]. case_match; [| done]. apply returns_goes_on. rewrite Hk. by intros w t [= <- <-].
Qed.

Lemma exchange_failed_goes_on key r c : goes_on c (exchange_failed key r c).
Proof. etrans; [apply deliver_goes_on | apply end_thread_goes_on]. Qed.

Lemma step_goes_on c e : e ≠ EvTick → goes_on c (step c e).
Proof.
  intros He. destruct e as [hello pid | | command | written | response | | |]; cbn [step]; [| | | | | | done | by apply goes_on_same].
  - unfold greet. destruct (cn_phase c); try done. destruct (register_client _ _ _) as [[key |] registry]; [by apply goes_on_same |].
    destruct hello as [hello |]; [| by apply goes_on_same]. destruct (hello_is_compatible hello); by apply goes_on_same.
  - destruct (cn_phase c); try done. by apply goes_on_same.
  - unfold start_call. destruct (cn_caller c) eqn:Hk; try done.
    destruct (cn_phase c); try done; (etrans; [| apply try_to_send_goes_on]; by split; cbn; [| rewrite Hk |]).
  - unfold take_request. destruct (cn_phase c), (cn_busy c), (cn_queue c) as [| r queue]; try done.
    assert (goes_on c (try_to_send (set_queue queue c))) as Hc by (etrans; [| apply try_to_send_goes_on]; by apply goes_on_same).
    etrans; [exact Hc |]. destruct written; [by apply goes_on_same | apply exchange_failed_goes_on].
  - unfold read_answer. destruct (cn_phase c), (cn_busy c) as [r |]; try done. destruct response; [| apply exchange_failed_goes_on].
    etrans; [| apply deliver_goes_on]. by apply goes_on_same.
  - unfold senders_gone. repeat case_match; try done. apply end_thread_goes_on.
Qed.

Lemma tick_goes_on c r sent :
  cn_caller c = CallerWaiting r sent →
  cn_caller (tick c) = CallerWaiting r sent ∨ ∃ back result, (r, sent, back, result) ∈ cn_results (tick c).
Proof.
  intros Hk. unfold tick. cbn. rewrite Hk. case_match; [| by left]. right. exists (cn_now c + 1), (Err TimedOut). cbn. set_solver.
Qed.

Lemma tick_results c : cn_now (tick c) = cn_now c + 1 ∧ ∀ x, x ∈ cn_results c → x ∈ cn_results (tick c).
Proof. unfold tick. cbn. destruct (cn_caller c); [done.. |]. case_match; [| done]. cbn. set_solver. Qed.

Definition is_tick (e : Event) : bool := match e with EvTick => true | _ => false end.

(** C34. (liveness) A call that was sent comes back: when as many milliseconds have passed as
    are allowed it has a result, whatever else happened. *)
Theorem sent_call_returns registry now es later r sent :
  cn_caller (run registry now es) = CallerWaiting r sent →
  TIP_RESPONSE_TIMEOUT ≤ zlength (filter (λ e, is_tick e = true) later) →
  ∃ back result, (r, sent, back, result) ∈ cn_results (run registry now (es ++ later)) ∧ back ≤ sent + TIP_RESPONSE_TIMEOUT.
Proof.
  intros Hk Hticks. rewrite run_app.
  assert (∀ c, chan_inv c → cn_caller c = CallerWaiting r sent ∨ (∃ back result, (r, sent, back, result) ∈ cn_results c) →
    let c' := foldl step c later in
    cn_now c' = cn_now c + zlength (filter (λ e, is_tick e = true) later) ∧
    (cn_caller c' = CallerWaiting r sent ∨ ∃ back result, (r, sent, back, result) ∈ cn_results c')) as Hgoes.
  { clear Hticks. induction later as [|e later IH]; intros c Hc Hor; cbn [foldl]; [split; [unfold zlength; cbn; lia | done] |].
    assert (e = EvTick ∨ e ≠ EvTick) as Htick by (destruct e; auto; by right).
    destruct (IH (step c e)) as [Hn Hor']; [by apply step_inv | | split; [| done]].
    - destruct Htick as [-> | He].
      + destruct (tick_results c) as [_ Hres]. destruct Hor as [Hw | (back & result & Hin)]; [by apply tick_goes_on | right; eauto].
      + destruct (step_goes_on c e He) as [Hres Hw _]. destruct Hor as [Hor | (back & result & Hin)]; [by apply Hw | right; eauto].
    - rewrite Hn, filter_cons. destruct Htick as [-> | He].
      + rewrite decide_True by done. rewrite zlength_cons. destruct (tick_results c) as [Hnow _]. cbn [step]. lia.
      + rewrite decide_False by (by destruct e). destruct (step_goes_on c e He) as [_ _ ->]. done. }
  pose proof (run_inv registry now es) as Hc. destruct (Hgoes _ Hc (or_introl Hk)) as [Hn Hor].
  pose proof (run_inv registry now (es ++ later)) as Hend. rewrite run_app in Hend.
  destruct Hend as [_ _ _ _ Hcaller Hres _]. pose proof (ci_caller _ Hc) as Hc0. rewrite Hk in Hc0.
  destruct Hor as [Hw | (back & result & Hin)].
  - rewrite Hw in Hcaller. lia.
  - exists back, result. split; [done |]. rewrite Forall_forall in Hres. apply (Hres _ Hin).
Qed.

(** ** Who is served *)

Lemma try_to_send_phase c : cn_phase (try_to_send c) = cn_phase c.
Proof. unfold try_to_send. repeat case_match; done. Qed.
Lemma deliver_phase r result c : cn_phase (deliver r result c) = cn_phase c.
Proof. unfold deliver. repeat case_match; done. Qed.
Lemma end_thread_phase key c : cn_phase (end_thread key c) = PhEnded.
Proof. unfold end_thread, drop_queue. cbn. rewrite try_to_send_phase. repeat case_match; done. Qed.

Lemma step_serves c e key :
  cn_phase (step c e) = PhServing key →
  cn_phase c = PhServing key ∨ ∃ hello, e = EvHello (Some hello) (Some (hello_process_id hello)) ∧
    hello_is_compatible hello = true ∧ tk_process_id key = hello_process_id hello ∧ tk_thread_id key = hello_thread_id hello.
Proof.
  destruct e as [hello pid | | command | written | response | | |]; cbn [step].
  - unfold greet. destruct (cn_phase c) eqn:Hp; try (rewrite Hp; by left). unfold register_client.
    destruct hello as [hello |]; [| done]. destruct (hello_is_compatible hello) eqn:Hc; [| done]. cbn.
    case_bool_decide as Hpid; [| done]. cbn. intros [= <-]. right. exists hello. by rewrite Hpid.
  - destruct (cn_phase c) eqn:Hp; rewrite ?Hp; auto; done.
  - unfold start_call. destruct (cn_caller c), (cn_phase c) eqn:Hp; rewrite ?try_to_send_phase; cbn; rewrite ?Hp; auto.
  - unfold take_request, exchange_failed. destruct (cn_phase c) eqn:Hp, (cn_busy c), (cn_queue c); rewrite ?Hp; auto.
    destruct written; [cbn; rewrite try_to_send_phase; cbn; rewrite Hp; auto | by rewrite end_thread_phase].
  - unfold read_answer, exchange_failed. destruct (cn_phase c) eqn:Hp, (cn_busy c), response; rewrite ?Hp; auto; [| by rewrite end_thread_phase].
    rewrite deliver_phase. cbn. rewrite Hp. auto.
  - unfold senders_gone. destruct (cn_phase c) eqn:Hp, (cn_busy c), (cn_queue c), (cn_caller c); rewrite ?Hp; auto.
    case_bool_decide; [rewrite Hp; auto | by rewrite end_thread_phase].
  - unfold tick. cbn. destruct (cn_caller c); [by left.. |]. case_match; by left.
  - by left.
Qed.

(** A client that is served said a version that fits and is the process it said. *)
Lemma served_client_is_verified registry now es key :
  cn_phase (run registry now es) = PhServing key →
  ∃ hello, EvHello (Some hello) (Some (hello_process_id hello)) ∈ es ∧ hello_is_compatible hello = true ∧
    tk_process_id key = hello_process_id hello ∧ tk_thread_id key = hello_thread_id hello.
Proof.
  induction es as [|e es IH] using rev_ind; [done |]. rewrite run_app. cbn [foldl].
  intros [H | (hello & -> & H)]%step_serves; [destruct (IH H) as (hello & Hin & H'); exists hello; set_solver | exists hello; set_solver].
Qed.

(** ** A client that stops answering *)

(** The thread waits at the pipe and the queue is full: nothing but an answer lets a call
    go on that is about to send. *)
Definition stuck (r : BrokerRequest) c : Prop :=
  cn_caller c = CallerSending r ∧ is_Some (cn_busy c) ∧ CHANNEL_BOUND ≤ zlength (cn_queue c) ∧ ∃ key, cn_phase c = PhServing key.

Lemma stuck_stays r c e : (∀ response, e ≠ EvAnswer response) → stuck r c → stuck r (step c e).
Proof.
  intros He (Hk & [b Hb] & Hq & key & Hp). destruct e; cbn [step];
    unfold greet, start_call, take_request, senders_gone, tick; cbn; rewrite ?Hp, ?Hb, ?Hk;
    try (by split_and!; [| eexists | | eexists]). by destruct (He response).
Qed.

Definition sample_hello : TipHello := mkTipHello TIP_IPC_VERSION "0.3.0" 70 80.
Definition second_and_half : list Event := replicate 1500 EvTick.
(** Nine commands to a text service whose application does not respond any more, and one more. *)
Definition frozen : list Event :=
  [EvHello (Some sample_hello) (Some 70); EvCall TcPing; EvTake true] ++ second_and_half
  ++ concat (replicate 8 (EvCall TcPing :: second_and_half)) ++ [EvCall TcPing].

(** The injector, which serves one request after the other, hangs: the tenth command waits
    for room without a deadline, however much time passes. *)
Lemma frozen_client_blocks_the_injector later :
  (∀ response, EvAnswer response ∉ later) →
  cn_caller (run RegistryState_initial 0 (frozen ++ later)) = CallerSending (mkRequest 9 TcPing).
Proof.
  intros Hlater. rewrite run_app.
  assert (let c := run RegistryState_initial 0 frozen in
    (cn_caller c, cn_busy c, zlength (cn_queue c), cn_phase c)
    = (CallerSending (mkRequest 9 TcPing), Some (mkRequest 0 TcPing), 8, PhServing (mkTipKey 70 80 1))) as Hfrozen by (vm_compute; reflexivity).
  cbn zeta in Hfrozen. revert Hfrozen. generalize (run RegistryState_initial 0 frozen). intros c0 [= Hk Hb Hq Hp].
  assert (stuck (mkRequest 9 TcPing) c0) as Hstuck.
  { split; [done |]. split; [by rewrite Hb |]. split; [rewrite Hq; done |]. by exists (mkTipKey 70 80 1). }
  clear Hk Hb Hq Hp. revert c0 Hlater Hstuck. induction later as [|e later IH]; intros c Hlater Hstuck; [apply Hstuck |].
  cbn [foldl]. apply IH; [intros response; specialize (Hlater response); set_solver |].
  apply stuck_stays; [| done]. intros response ->. apply (Hlater response). set_solver.
Qed.

Lemma sent_call_returns_witness :
  let es := [EvHello (Some sample_hello) (Some 70); EvCall TcPing; EvTake true] in
  cn_caller (run RegistryState_initial 0 es) = CallerWaiting (mkRequest 0 TcPing) 0 ∧
  ∃ back result, (mkRequest 0 TcPing, 0, back, result) ∈ cn_results (run RegistryState_initial 0 (es ++ second_and_half)) ∧ back ≤ 1500.
Proof.
  cbn zeta. split; [reflexivity |].
  destruct (sent_call_returns RegistryState_initial 0 [EvHello (Some sample_hello) (Some 70); EvCall TcPing; EvTake true]
    second_and_half (mkRequest 0 TcPing) 0) as (back & result & Hin & Hback); [reflexivity | by vm_compute |].
  exists back, result. split; [exact Hin | exact Hback].
Defined.
