(* ===== verification/Injector.v ===== *)
(** * The injector service

    [flowtype-injector/src/main.rs]: the elevated process that owns at most one
    input session, opens it in the foreground application's text service,
    forwards the phone's text states and ends it. The desktop, the pipes and
    the hooks act at every call ([settle]): [Windows.Win32],
    [TipBroker.TipPipes] and [InjectorHost] are arbitrary. *)

From S2P Require Import Prelude Text Protocol Ipc TipModel Windows TipBroker.

(** The rest of what the process uses of the system. *)
Class InjectorHost (W : Type) := {
  install_hooks : W → W * bool;
  take_inputs : W → list input_event * W;
  current_exe : W → option string;
  accept_client : W → W;
  read_request : W → W * option InjectorRequest;
  write_response : W → InjectorResponse → W * bool;
}.

(** [injector/main.rs:44-44 TIP_STATE_QUERY_INTERVAL] in milliseconds. *)
Definition TIP_STATE_QUERY_INTERVAL : Z := 1000.

(** [injector/main.rs ActiveSession] The monitor it owns is the active one. *)
Record ActiveSession := mkActive {
  as_id : string;
  as_sequence : Z;
  as_text : string;
  as_target : TargetWindow;
  as_tip : TipKey;
  as_input_epoch : Z;
  as_last_tip_query : Z;
}.

(** [injector/main.rs CompletedSession] *)
Record CompletedSession := mkCompleted {
  co_id : string;
  co_sequence : Z;
  co_text : string;
}.

(** [injector/main.rs SessionReplacement] *)
Inductive SessionReplacement := Start | Replace | Reject.

(** [injector/main.rs classify_session_replacement] *)
Definition classify_session_replacement (active_session_id replaces_session_id : option string)
    : SessionReplacement :=
  match active_session_id with
  | None => Start
  | Some active => if bool_decide (replaces_session_id = Some active) then Replace else Reject
  end.

(** [injector/main.rs is_submitted_candidate] *)
Definition is_submitted_candidate (full_text : string) (session_input_epoch current_input_epoch : Z)
    (last_event_was_return : bool) : bool :=
  bool_decide (last (bytes_of full_text) = Some 10)
  && negb (current_input_epoch =? session_input_epoch) && last_event_was_return.

(** [injector/main.rs completed_apply_response] *)
Definition completed_apply_response (completed : option CompletedSession) (session_id : string)
    (sequence : Z) (full_text : string) : option InjectorResponse :=
  match completed with
  | Some finished =>
    if bool_decide (co_id finished = session_id) then
      Some (if (co_sequence finished =? sequence) && bool_decide (co_text finished = full_text)
            then RespFinished sequence else InvalidRequest)
    else None
  | None => None
  end.

Section injector.
Context {W : Type} `{Win32 W} `{TipPipes W} `{InjectorHost W}.
Context (instance_id : string) (elevated : bool).

Record injector := mkInjector {
  in_broker : broker W;
  in_monitor : InputMonitor;
  in_session : option ActiveSession;
  in_completed : option CompletedSession;
}.

Definition world (s : injector) : W := br_world (in_broker s).
Definition set_session (o : option ActiveSession) (s : injector) : injector :=
  mkInjector (in_broker s) (in_monitor s) o (in_completed s).
Definition set_completed (o : option CompletedSession) (s : injector) : injector :=
  mkInjector (in_broker s) (in_monitor s) (in_session s) o.
Definition set_monitor (m : InputMonitor) (s : injector) : injector :=
  mkInjector (in_broker s) m (in_session s) (in_completed s).

(** The hooks of the key and mouse events that reached the desktop during the
    last call. *)
Definition settle (b : broker W) (s : injector) : injector :=
  let '(inputs, w) := take_inputs (br_world b) in
  mkInjector (mkBroker w (br_registry b) (br_log b))
    (foldl run_hook (in_monitor s) inputs) (in_session s) (in_completed s).

Definition settle_world (w : W) (s : injector) : injector :=
  settle (mkBroker w (br_registry (in_broker s)) (br_log (in_broker s))) s.

Definition tips_send (key : TipKey) (command : TipCommand) (s : injector)
    : tip_result * injector :=
  let '(r, b) := send key command (in_broker s) in (r, settle b s).

(** The active session of that id. *)
Definition active_session (session_id : string) (s : injector) : option ActiveSession :=
  match in_session s with
  | Some active => if bool_decide (as_id active = session_id) then Some active else None
  | None => None
  end.

Definition finished_session (session_id : string) (s : injector) : option CompletedSession :=
  match in_completed s with
  | Some finished => if bool_decide (co_id finished = session_id) then Some finished else None
  | None => None
  end.

(** The session's monitor is dropped with it. *)
Definition drop_session (s : injector) : injector :=
  set_monitor (InputMonitor_drop (in_monitor s)) (set_session None s).

(** [injector/main.rs end_failed_session] The monitor goes after the cancel. *)
Definition end_failed_session (s : injector) : injector :=
  match in_session s with
  | Some active =>
    let '(_, s) := tips_send (as_tip active) (TcCancel (as_id active)) (set_session None s) in
    drop_session s
  | None => s
  end.

Definition submitted_or_modified (submitted : bool) : InjectorResponse :=
  if submitted then TargetSubmitted else TargetModified.

(** [injector/main.rs query_active_session] [active] is the session of that
    id. *)
Definition query_active_session (active : ActiveSession) (session_id : string) (s : injector)
    : InjectorResponse * injector :=
  let full_text := as_text active in
  let input_epoch := as_input_epoch active in
  let current_input_epoch := epoch (in_monitor s) in
  if negb (input_epoch =? current_input_epoch) then
    let submitted := is_submitted_candidate full_text input_epoch current_input_epoch
                       (last_event_was_return (in_monitor s)) in
    (submitted_or_modified submitted, end_failed_session s)
  else
    let unchanged := Ipc.SessionActive session_id (as_sequence active) full_text in
    if now_ms (world s) - as_last_tip_query active <? TIP_STATE_QUERY_INTERVAL then (unchanged, s)
    else
      let s := set_session (Some (mkActive (as_id active) (as_sequence active) (as_text active)
                 (as_target active) (as_tip active) (as_input_epoch active) (now_ms (world s)))) s in
      match tips_send (as_tip active) (TcQuery session_id) s with
      | (Ok (TrSessionActive _ _), s) => (unchanged, s)
      | (Ok TrCompositionTerminated, s) =>
        let submitted := is_submitted_candidate full_text input_epoch (epoch (in_monitor s))
                           (last_event_was_return (in_monitor s)) in
        (submitted_or_modified submitted, end_failed_session s)
      | (_, s) => (TargetModified, end_failed_session s)
      end.

(** [injector/main.rs apply_state] *)
Definition apply_state (session_id : string) (sequence : Z) (full_text : string) (s : injector)
    : InjectorResponse * injector :=
  match active_session session_id s with
  | None => (InvalidRequest, s)
  | Some active =>
    if negb (is_valid (world s) (as_target active)) then (TargetInvalid, s)
    else if negb (as_input_epoch active =? epoch (in_monitor s)) then
      (TargetModified, end_failed_session s)
    else if negb (is_foreground (world s) (as_target active)) then
      (TargetNotForeground (title (world s) (as_target active)), s)
    else if sequence <? as_sequence active then (RespApplied (as_sequence active), s)
    else if sequence =? as_sequence active then
      if bool_decide (full_text = as_text active) then (RespApplied sequence, s)
      else (InvalidRequest, end_failed_session s)
    else
      match tips_send (as_tip active) (TcUpdate session_id sequence full_text) s with
      | (Ok (TrApplied applied_session applied_sequence), s) =>
        if bool_decide (applied_session = session_id) then
          (RespApplied applied_sequence,
           if applied_sequence =? sequence then
             set_session (Some (mkActive (as_id active) sequence full_text (as_target active)
               (as_tip active) (as_input_epoch active) (as_last_tip_query active))) s
           else s)
        else (InjectionUnknown, end_failed_session s)
      | (Ok TrNoFocus, s) => (TargetNotForeground (title (world s) (as_target active)), s)
      | (Ok TrCompositionTerminated, s) => (TargetModified, end_failed_session s)
      | (Ok TrSessionMismatch, s) | (Ok TrSequenceConflict, s) =>
        (InvalidRequest, end_failed_session s)
      | (_, s) => (InjectionUnknown, end_failed_session s)
      end
  end.

(** [injector/main.rs finish_session] *)
Definition finish_session (session_id : string) (sequence : Z) (s : injector)
    : InjectorResponse * injector :=
  match in_session s with
  | None => (InvalidRequest, s)
  | Some active =>
    if negb (bool_decide (as_id active = session_id)) || negb (as_sequence active =? sequence)
    then (InvalidRequest, s)
    else
      match tips_send (as_tip active) (TcFinish session_id sequence) s with
      | (Ok (TrFinished finished_session finished_sequence) as r, s) =>
        if bool_decide (finished_session = session_id) && (finished_sequence =? sequence)
        then (RespFinished sequence, drop_session s)
        else (InjectionUnknown, end_failed_session s)
      | (Ok TrSessionMismatch, s) | (Ok TrSequenceConflict, s) =>
        (InvalidRequest, end_failed_session s)
      | (_, s) => (InjectionUnknown, end_failed_session s)
      end
  end.

(** [TIP_BEGIN_TIMEOUT] of the call, and more fuel than its milliseconds and the waits that
    are cut short: the broker's loop returns ([TipBroker.begin_for_target_outcome]). *)
Definition BEGIN_TIMEOUT : Z := 1500.
Definition BEGIN_FUEL (s : injector) : nat := 1501 + cut_short (world s).

Definition tips_begin (process_id preferred_thread_id : Z) (begin : TipBegin) (s : injector)
    : result TipBeginError TipKey * injector :=
  match begin_for_target (BEGIN_FUEL s) process_id preferred_thread_id begin BEGIN_TIMEOUT (in_broker s) with
  | Some (r, b) => (r, settle b s)
  | None => (Err Unavailable, s)
  end.

(** [injector/main.rs:352-432 handle_request] [BeginSession] from the target's
    checks on: the session is open only if the text service began it. *)
Definition open_session (session_id : string) (sequence : Z) (full_text : string)
    (attach_existing : bool) (s : injector) : InjectorResponse * injector :=
  match capture_foreground (world s) with
  | None => (TargetInvalid, s)
  | Some target =>
    if is_remote_desktop_client (world s) target then (TargetUnsupported, s)
    else if is_flowtype_window (world s) target then (TargetUnsupported, s)
    else
      let '(w, activated) := activate_for_input (world s) target in
      let s := settle_world w s in
      if negb activated then (TargetNotForeground (title (world s) target), s)
      else
        let '(w, hooked) := install_hooks (world s) in
        let '(monitor, m) := InputMonitor_start hooked (in_monitor s) in
        let s := settle_world w (set_monitor m s) in
        match monitor with
        | None => (InjectionUnknown, s)
        | Some _ =>
          let begin := mkTipBegin session_id sequence full_text attach_existing in
          let fail response (s : injector) :=
            (response, set_monitor (InputMonitor_drop (in_monitor s)) s) in
          match tips_begin (tw_process_id target) (thread_id (world s) target) begin s with
          | (Err Unsupported, s) => fail TargetUnsupported s
          | (Err RebindRejected, s) => fail TargetModified s
          | (Err Unavailable, s) => fail TsfUnavailable s
          | (Ok tip, s) =>
            let target_name := title (world s) target in
            (SessionBegun target_name,
             set_session (Some (mkActive session_id sequence full_text target tip
                                  (epoch (in_monitor s)) (now_ms (world s))))
               (set_completed None s))
          end
        end
  end.

(** [injector/main.rs:310-351 handle_request] [BeginSession]. *)
Definition begin_session (session_id : string) (replaces_session_id : option string)
    (sequence : Z) (full_text : string) (attach_existing : bool) (s : injector)
    : InjectorResponse * injector :=
  match active_session session_id s with
  | Some active => (SessionBegun (title (world s) (as_target active)), s)
  | None =>
    match finished_session session_id s with
    | Some finished => (Ipc.SessionFinished session_id (co_sequence finished) (co_text finished), s)
    | None =>
      match classify_session_replacement (as_id <$> in_session s) replaces_session_id with
      | Reject => (InvalidRequest, s)
      | Replace =>
        open_session session_id sequence full_text attach_existing (end_failed_session s)
      | Start => open_session session_id sequence full_text attach_existing s
      end
    end
  end.

(** [injector/main.rs:433-521 handle_request] *)
Definition handle_request (request : InjectorRequest) (s : injector)
    : InjectorResponse * injector :=
  match request with
  | ReqHello =>
    (RespHello INJECTOR_IPC_VERSION instance_id (default EmptyString (current_exe (world s))) elevated, s)
  | BeginSession session_id replaces_session_id sequence full_text attach_existing =>
    begin_session session_id replaces_session_id sequence full_text attach_existing s
  | ApplyState session_id sequence full_text =>
    match completed_apply_response (in_completed s) session_id sequence full_text with
    | Some response => (response, s)
    | None => apply_state session_id sequence full_text s
    end
  | FinishSession session_id sequence =>
    let finished_text :=
      match active_session session_id s with
      | Some active => if as_sequence active =? sequence then Some (as_text active) else None
      | None => None
      end in
    match finish_session session_id sequence s, finished_text with
    | (RespFinished sequence, s), Some text =>
      (RespFinished sequence, set_completed (Some (mkCompleted session_id sequence text)) s)
    | (response, s), _ => (response, s)
    end
  | QuerySession session_id =>
    match active_session session_id s with
    | Some active => query_active_session active session_id s
    | None =>
      match finished_session session_id s with
      | Some finished => (Ipc.SessionFinished session_id (co_sequence finished) (co_text finished), s)
      | None => (SessionMissing, s)
      end
    end
  | ProbeTarget =>
    (match capture_foreground (world s) with
     | None => TargetInvalid
     | Some target =>
       if negb (is_valid (world s) target) then TargetInvalid
       else if is_remote_desktop_client (world s) target then TargetUnsupported
       else if is_flowtype_window (world s) target then TargetUnsupported
       else TargetReady (title (world s) target) (activity_age_ms (world s))
     end, s)
  | CancelInvalidSession session_id =>
    match active_session session_id s with
    | Some active =>
      let '(_, s) := tips_send (as_tip active) (TcCancel session_id) (set_session None s) in
      (RespCancelled, drop_session s)
    | None => (RespCancelled, s)
    end
  end.

(** [injector/main.rs:92-110 main] One connection of the desktop app: requests
    until the pipe fails, then the session ends and what finished is
    forgotten. [fuel] bounds the requests served. *)
Fixpoint serve_requests (fuel : nat) (s : injector) : injector :=
  match fuel with
  | O => s
  | S fuel =>
    let '(w, request) := read_request (world s) in
    let s := settle_world w s in
    match request with
    | None => s
    | Some request =>
      let '(response, s) := handle_request request s in
      let '(w, written) := write_response (world s) response in
      let s := settle_world w s in
      if written then serve_requests fuel s else s
    end
  end.

Definition serve_connection (fuel : nat) (s : injector) : injector :=
  set_completed None
    (end_failed_session (serve_requests fuel (settle_world (accept_client (world s)) s))).
End injector.
Arguments injector : clear implicits.
