(* ===== verification/InjectorSafety.v ===== *)
(** * What the injector promises

    The functional behaviour of the requests of [Injector], the agreement
    between the injector's session and the text service's when commands are
    delivered ([lockstep]), and how they part when a begin times out. *)

From S2P Require Import Prelude Text Protocol Ipc TipModel TipService TipRefinement.
From S2P Require Import Windows TipBroker Injector.

(** ** Every request, on its own *)

Section requests.
Context {W : Type} `{Win32 W} `{TipPipes W} `{InjectorHost W}.
Implicit Types s : injector W.

(** One session at a time. While a session is open, a begin for another id
    that does not name it as the one replaced is refused, and changes nothing:
    no command is sent, the session stays. *)
Theorem begin_refused_while_busy inst elev s active sid replaces seq text attach :
  in_session s = Some active → as_id active ≠ sid →
  finished_session sid s = None → replaces ≠ Some (as_id active) →
  handle_request inst elev (BeginSession sid replaces seq text attach) s = (InvalidRequest, s).
Proof.
  intros Hs Hid Hf Hr. cbn. unfold begin_session, active_session. rewrite Hs, Hf.
  rewrite bool_decide_eq_false_2 by done. cbn. by rewrite bool_decide_eq_false_2.
Qed.

(** The updates a request sends to the text service. *)
Definition log_of s : list log_entry := br_log (in_broker s).

Lemma settle_log b s : log_of (settle b s) = br_log b.
Proof. unfold settle, log_of. by destruct (take_inputs _). Qed.

Lemma settle_session b s :
  in_session (settle b s) = in_session s ∧ in_completed (settle b s) = in_completed s.
Proof. unfold settle. by destruct (take_inputs _). Qed.

(** The text service has left: no client of its thread has its generation. *)
Definition gone (key : TipKey) s : Prop :=
  ∀ client, clients (br_registry (in_broker s)) !! (tk_process_id key, tk_thread_id key) = Some client →
    tk_generation client ≠ tk_generation key.

Lemma tips_send_frame key c s :
  let r := tips_send key c s in
  in_session r.2 = in_session s ∧ in_completed r.2 = in_completed s
  ∧ ((∃ k, tk_generation k = tk_generation key ∧ log_of r.2 = log_of s ++ [(k, c, r.1)])
     ∨ gone key s ∧ log_of r.2 = log_of s ∧ r.1 = Err NotConnected).
Proof.
  unfold tips_send, send, gone.
  destruct (clients _ !! _) as [client|] eqn:Hc; cbn;
    [destruct (Z.eqb_spec (tk_generation client) (tk_generation key)) as [Hg|]|]; cbn.
  2, 3: destruct (settle_session (in_broker s) s) as [-> ->]; rewrite settle_log; naive_solver.
  pose proof (send_to_spec client c (in_broker s)) as [Hl _].
  destruct (send_to _ _ _) as [r b]. cbn in *.
  destruct (settle_session b s) as [-> ->]. rewrite settle_log. eauto 6.
Qed.

(** The session is closed: the cancel was sent to its text service, unless that
    had left. *)
Definition closed (active : ActiveSession) s s' : Prop :=
  in_session s' = None
  ∧ ((∃ k r, tk_generation k = tk_generation (as_tip active)
        ∧ log_of s' = log_of s ++ [(k, TcCancel (as_id active), r)])
     ∨ gone (as_tip active) s ∧ log_of s' = log_of s).

Lemma end_failed_session_closed active s :
  in_session s = Some active → closed active s (end_failed_session s).
Proof.
  intros Hs. unfold end_failed_session. rewrite Hs.
  destruct (tips_send_frame (as_tip active) (TcCancel (as_id active)) (set_session None s))
    as (H1' & H2' & H3').
  destruct (tips_send _ _ _) as [r s1]. cbn in *. split; [done |].
  destruct H3' as [(k & Hk & Hl)|(Hg & Hl & _)]; [left; eauto | by right].
Qed.

Lemma active_session_Some sid s active :
  active_session sid s = Some active ↔ in_session s = Some active ∧ as_id active = sid.
Proof.
  unfold active_session. destruct (in_session s); [case_bool_decide|]; naive_solver.
Qed.

(** The window of a session can be written to: it exists still, no physical input was seen
    since the session's last text, and it has the focus. *)
Record writable (active : ActiveSession) s : Prop := mkWritable {
  wr_valid : is_valid (world s) (as_target active) = true;
  wr_untouched : as_input_epoch active = epoch (in_monitor s);
  wr_foreground : is_foreground (world s) (as_target active) = true;
}.

(** What the app is told when the text service did not take an update: nothing was sent,
    or what it answered. [None] keeps the session. *)
Definition refusal (sid : string) (answer : tip_result) : option InjectorResponse :=
  match answer with
  | Ok (TrApplied id _) => if decide (id = sid) then None else Some InjectionUnknown
  | Ok TrNoFocus => None
  | Ok TrCompositionTerminated => Some TargetModified
  | Ok TrSessionMismatch | Ok TrSequenceConflict => Some InvalidRequest
  | _ => Some InjectionUnknown
  end.

(** The update was sent once, to the text service of the session, or that had left. *)
Definition sent (active : ActiveSession) (seq : Z) (text : string) s (answer : tip_result) s1 : Prop :=
  in_session s1 = Some active ∧
  ((∃ k, tk_generation k = tk_generation (as_tip active) ∧
      log_of s1 = log_of s ++ [(k, TcUpdate (as_id active) seq text, answer)]) ∨
   gone (as_tip active) s ∧ log_of s1 = log_of s ∧ answer = Err NotConnected).

(** The outcomes of a text state, each with the circumstances it needs. *)
Inductive applied_outcome (sid : string) (seq : Z) (text : string) s : InjectorResponse → injector W → Prop :=
| apply_unknown :
  (∀ active, in_session s = Some active → as_id active ≠ sid) → applied_outcome sid seq text s InvalidRequest s
| apply_invalid active :
  in_session s = Some active → as_id active = sid → is_valid (world s) (as_target active) = false →
  applied_outcome sid seq text s TargetInvalid s
| apply_touched active s2 :
  in_session s = Some active → as_id active = sid → is_valid (world s) (as_target active) = true →
  as_input_epoch active ≠ epoch (in_monitor s) → closed active s s2 →
  applied_outcome sid seq text s TargetModified s2
| apply_unfocused active :
  in_session s = Some active → as_id active = sid → is_valid (world s) (as_target active) = true →
  as_input_epoch active = epoch (in_monitor s) → is_foreground (world s) (as_target active) = false →
  applied_outcome sid seq text s (TargetNotForeground (title (world s) (as_target active))) s
| apply_old active :
  in_session s = Some active → as_id active = sid → writable active s →
  seq ≤ as_sequence active → (seq = as_sequence active → text = as_text active) →
  applied_outcome sid seq text s (RespApplied (as_sequence active)) s
| apply_conflict active s2 :
  in_session s = Some active → as_id active = sid → writable active s →
  seq = as_sequence active → text ≠ as_text active → closed active s s2 →
  applied_outcome sid seq text s InvalidRequest s2
| apply_sent active n s1 s2 :
  in_session s = Some active → as_id active = sid → writable active s → as_sequence active < seq →
  sent active seq text s (Ok (TrApplied sid n)) s1 →
  s2 = (if n =? seq then set_session (Some (mkActive sid seq text (as_target active) (as_tip active)
          (as_input_epoch active) (as_last_tip_query active))) s1 else s1) →
  applied_outcome sid seq text s (RespApplied n) s2
| apply_lost_focus active s1 :
  in_session s = Some active → as_id active = sid → writable active s → as_sequence active < seq →
  sent active seq text s (Ok TrNoFocus) s1 →
  applied_outcome sid seq text s (TargetNotForeground (title (world s1) (as_target active))) s1
| apply_refused active answer r s1 s2 :
  in_session s = Some active → as_id active = sid → writable active s → as_sequence active < seq →
  sent active seq text s answer s1 → refusal sid answer = Some r → closed active s1 s2 →
  applied_outcome sid seq text s r s2.

(** C17. Applying a text state, every outcome. Without the session nothing happens. A
    session whose window is gone or out of focus stays as it is, and nothing is sent; one
    with physical input since its last text is cancelled. Otherwise an older state, and an
    equal one with the same text, are acknowledged without a command; an equal one with
    another text cancels the session; and a newer one is sent as one update, acknowledged
    with the sequence that the text service says it applied, recorded when that is the
    phone's, kept back when the focus was lost, and in every other case the session is
    cancelled with the reason that the text service gave. *)
Theorem apply_state_outcome s sid seq text :
  let r := apply_state sid seq text s in applied_outcome sid seq text s r.1 r.2.
Proof.
  unfold apply_state. destruct (active_session sid s) as [active|] eqn:Ha.
  2: { apply apply_unknown. intros active Hs Hid.
       by rewrite (proj2 (active_session_Some sid s active)) in Ha by done. }
  apply active_session_Some in Ha as [Hs Hid].
  destruct (is_valid _ _) eqn:Hv; cbn; [| by eapply apply_invalid].
  destruct (Z.eqb_spec (as_input_epoch active) (epoch (in_monitor s))) as [He|He]; cbn.
  2: by eapply apply_touched; [.. | apply end_failed_session_closed].
  destruct (is_foreground _ _) eqn:Hf; cbn; [| by apply apply_unfocused].
  assert (writable active s) as Hw by done.
  destruct (Z.ltb_spec seq (as_sequence active)); cbn; [by apply apply_old; [.. | lia | lia] |].
  destruct (Z.eqb_spec seq (as_sequence active)) as [->|]; cbn.
  { case_bool_decide; cbn; [by apply apply_old | by eapply apply_conflict; [.. | apply end_failed_session_closed]]. }
  destruct (tips_send_frame (as_tip active) (TcUpdate sid seq text) s) as (Hs1 & _ & Hl).
  destruct (tips_send _ _ _) as [resp s1]. cbn [fst snd] in *.
  assert (sent active seq text s resp s1) as Hsent by (unfold sent; subst sid; split; [congruence | done]).
  assert (∀ r, refusal sid resp = Some r → applied_outcome sid seq text s r (end_failed_session s1)) as Hend.
  { intros r Hr. eapply apply_refused; [done.. | lia | done | done |]. apply end_failed_session_closed. by apply Hsent. }
  destruct resp as [[]|]; cbn in *; try (by apply Hend); try (by eapply apply_lost_focus; [.. | lia | done]).
  case_bool_decide as Hsid; cbn; [| apply Hend; by rewrite decide_False].
  subst session_id. eapply apply_sent; [done.. | lia | done |]. by rewrite Hid.
Qed.

(** A finished session is replayed. Once a finish is confirmed the session
    is closed and remembered with its last text: asking to begin, apply its last
    state or query it again answers that it finished, and any other sequence or
    text under its id is refused, without a command to any text service and
    without a change. *)
Theorem finished_session_replays inst elev s sid seq s' :
  handle_request inst elev (FinishSession sid seq) s = (RespFinished seq, s') →
  ∃ active, in_session s = Some active ∧ as_id active = sid ∧ as_sequence active = seq
  ∧ in_session s' = None
  ∧ (∀ n text, handle_request inst elev (ApplyState sid n text) s'
       = (if decide (n = seq ∧ text = as_text active) then RespFinished seq else InvalidRequest, s'))
  ∧ handle_request inst elev (QuerySession sid) s'
    = (Ipc.SessionFinished sid seq (as_text active), s')
  ∧ ∀ replaces n text attach,
      handle_request inst elev (BeginSession sid replaces n text attach) s'
      = (Ipc.SessionFinished sid seq (as_text active), s').
Proof.
  cbn. unfold finish_session, active_session.
  destruct (in_session s) as [active|] eqn:Hs; [| done].
  case_bool_decide as Hid; cbn; [| done].
  destruct (Z.eqb_spec (as_sequence active) seq) as [Hq|]; cbn; [| done].
  destruct (tips_send _ _ _) as [[[]|] s1]; cbn; try done.
  destruct (bool_decide _ && _); cbn; [| done]. intros [= <-]. exists active. cbn.
  unfold begin_session, active_session, finished_session. cbn.
  split_and!; try done; rewrite bool_decide_eq_true_2 by done; try done.
  intros n text. destruct (Z.eqb_spec seq n) as [->|Hn]; cbn.
  - destruct (bool_decide_reflect (as_text active = text)) as [->|Ht].
    + by rewrite decide_True.
    + rewrite decide_False; [done | by intros [_ ->]].
  - rewrite decide_False; [done | by intros [-> _]].
Qed.
End requests.

(** ** The injector and the text services agree *)

(** Two sessions with the same id, sequence and text; the target may have been
    modified in one of them. *)
Definition same_text (m m' : TipSessionModel) : Prop :=
  tm_session_id m' = tm_session_id m ∧ tm_sequence m' = tm_sequence m ∧ tm_text m' = tm_text m.
#[export] Instance same_text_refl : Reflexive same_text.
Proof. by intros m. Qed.
#[export] Instance same_text_trans : Transitive same_text.
Proof. intros a b c (?&?&?) (?&?&?). unfold same_text. split_and!; congruence. Qed.

Section lockstep.
Context {W : Type} `{Win32 W} `{TipPipes W} `{InjectorHost W}.
Context (tip_model : W → TipKey → TipSessionModel).

(** No session changed between two states of the world. *)
Definition keeps (w w' : W) : Prop := ∀ key, same_text (tip_model w key) (tip_model w' key).
#[local] Instance keeps_refl : Reflexive keeps.
Proof. by intros w key. Qed.
#[local] Instance keeps_trans : Transitive keeps.
Proof. intros a b c Hab Hbc key. by rewrite (Hab key). Qed.

(** The text services stay connected, answer every command as
    [TipRefinement.tip_contract] says, and nothing else changes their
    sessions. *)
Record reliable : Prop := {
  reliable_exchange w key c : ∃ resp m1, (tip_exchange w key c).2 = Ok resp
    ∧ tip_contract (tip_model w key) c resp m1
    ∧ same_text m1 (tip_model (tip_exchange w key c).1 key)
    ∧ ∀ k, k ≠ key → same_text (tip_model w k) (tip_model (tip_exchange w key c).1 k);
  reliable_events w : (client_events w).1 = [] ∧ keeps w (client_events w).2;
  reliable_wait w d : keeps w (wait_changed w d);
  reliable_inputs w : keeps w (take_inputs w).2;
  reliable_attach w a b x : keeps w (AttachThreadInput w a b x).1;
  reliable_foreground w h : keeps w (SetForegroundWindow w h).1;
  reliable_hooks w : keeps w (install_hooks w).1;
}.
Context (Hreliable : reliable).

(** Every client is filed under its own process and thread. *)
Definition filed (reg : RegistryState) : Prop :=
  ∀ p t key, clients reg !! (p, t) = Some key → tk_process_id key = p ∧ tk_thread_id key = t.

(** The text service of the open session holds exactly the injector's session;
    no other holds one. *)
Definition holds (active : ActiveSession) (m : TipSessionModel) : Prop :=
  tm_session_id m = Some (as_id active) ∧ tm_sequence m = as_sequence active
  ∧ tm_text m = as_text active.

Definition registered (reg : RegistryState) (key : TipKey) : Prop :=
  clients reg !! (tk_process_id key, tk_thread_id key) = Some key.

Definition agree (w : W) (reg : RegistryState) (session : option ActiveSession) : Prop :=
  filed reg
  ∧ match session with
    | Some active => registered reg (as_tip active) ∧ holds active (tip_model w (as_tip active))
        ∧ ∀ key, key ≠ as_tip active → tm_session_id (tip_model w key) = None
    | None => ∀ key, tm_session_id (tip_model w key) = None
    end.

Definition lockstep (s : injector W) : Prop :=
  agree (world s) (br_registry (in_broker s)) (in_session s).

Lemma agree_keeps w w' reg o : agree w reg o → keeps w w' → agree w' reg o.
Proof.
  intros [Hf Ho] Hk. split; [done |]. destruct o as [a|].
  - destruct Ho as (Hr & (Hh1 & Hh2 & Hh3) & Hn). destruct (Hk (as_tip a)) as (Hk1 & Hk2 & Hk3).
    split_and!; [done | split_and!; congruence |].
    intros key Hne. destruct (Hk key) as (-> & _). auto.
  - intros key. destruct (Hk key) as (-> & _). auto.
Qed.

Lemma send_to_reliable key c (b : broker W) :
  ∃ resp m1, (send_to key c b).1 = Ok resp
    ∧ br_registry (send_to key c b).2 = br_registry b
    ∧ tip_contract (tip_model (br_world b) key) c resp m1
    ∧ same_text m1 (tip_model (br_world (send_to key c b).2) key)
    ∧ ∀ k, k ≠ key → same_text (tip_model (br_world b) k)
                               (tip_model (br_world (send_to key c b).2) k).
Proof.
  unfold send_to. destruct (reliable_exchange Hreliable (br_world b) key c)
    as (resp & m1 & Hr & Hc & Hs & Ho).
  destruct (tip_exchange (br_world b) key c) as [w r]. cbn in *. subst r.
  exists resp, m1. unfold settle_clients. cbn.
  destruct (reliable_events Hreliable w) as [He Hk].
  destruct (client_events w) as [es w']. cbn in *. subst es. cbn.
  split_and!; try done; [by rewrite Hs | intros k Hne; by rewrite (Ho k Hne)].
Qed.

Lemma settle_reliable (b : broker W) (s : injector W) :
  br_registry (in_broker (settle b s)) = br_registry b
  ∧ keeps (br_world b) (world (settle b s))
  ∧ in_session (settle b s) = in_session s.
Proof.
  unfold settle, world. pose proof (reliable_inputs Hreliable (br_world b)) as Hk.
  by destruct (take_inputs _) as [es w].
Qed.

(** A command to a registered client is answered under the contract. *)
Lemma tips_send_reliable key c (s : injector W) :
  registered (br_registry (in_broker s)) key →
  ∃ resp m1, (tips_send key c s).1 = Ok resp
    ∧ br_registry (in_broker (tips_send key c s).2) = br_registry (in_broker s)
    ∧ in_session (tips_send key c s).2 = in_session s
    ∧ tip_contract (tip_model (world s) key) c resp m1
    ∧ same_text m1 (tip_model (world (tips_send key c s).2) key)
    ∧ ∀ k, k ≠ key → same_text (tip_model (world s) k) (tip_model (world (tips_send key c s).2) k).
Proof.
  intros Hreg. unfold tips_send, send. rewrite Hreg, Z.eqb_refl.
  destruct (send_to_reliable key c (in_broker s)) as (resp & m1 & Hr & Hg & Hc & Hs & Ho).
  destruct (send_to key c (in_broker s)) as [r b]. cbn in *. subst r.
  destruct (settle_reliable b s) as (Hg' & Hk & Hi). exists resp, m1.
  split_and!; [done | congruence | done | done | |].
  - rewrite Hs. apply Hk.
  - intros k Hne. rewrite (Ho k Hne). apply Hk.
Qed.

Lemma agree_alone w reg key :
  filed reg → tm_session_id (tip_model w key) = None →
  (∀ k, k ≠ key → tm_session_id (tip_model w k) = None) → agree w reg None.
Proof. intros Hf Hk Ho. split; [done |]. intros k. destruct (decide (k = key)) as [->|]; auto. Qed.

(** Closing cancels: afterwards no text service holds a session. *)
Lemma end_failed_session_lockstep (s : injector W) :
  lockstep s → lockstep (end_failed_session s) ∧ in_session (end_failed_session s) = None.
Proof.
  intros Hl. unfold end_failed_session. destruct (in_session s) as [a|] eqn:Hs; [| done].
  destruct Hl as [Hf Ho]. rewrite Hs in Ho. destruct Ho as (Hreg & (Hh & _) & Hn).
  destruct (tips_send_reliable (as_tip a) (TcCancel (as_id a)) (set_session None s) Hreg)
    as (resp & m1 & Hr & Hg & Hi & Hc & Hm & Ho).
  destruct (tips_send _ _ _) as [r s1]. cbn in *. split; [| done].
  unfold tm_cancel in Hc. change (world (set_session None s)) with (world s) in *.
  rewrite bool_decide_eq_true_2 in Hc by done. cbn in Hc. destruct Hc as [_ ->].
  change (agree (world s1) (br_registry (in_broker s1)) None).
  apply (agree_alone _ _ (as_tip a)); cbn; [by rewrite Hg | by destruct Hm as (-> & _) |].
  intros k Hne. destruct (Ho k Hne) as (-> & _). auto.
Qed.

(** The begun session is the only one and has the begin's text. *)
Definition opened (begin : TipBegin) (w : W) (reg : RegistryState) (key : TipKey) : Prop :=
  registered reg key ∧ (∀ k, k ≠ key → tm_session_id (tip_model w k) = None)
  ∧ tm_session_id (tip_model w key) = Some (tb_session_id begin)
  ∧ tm_sequence (tip_model w key) = tb_sequence begin
  ∧ tm_text (tip_model w key) = tb_full_text begin.

Lemma opened_keeps begin w w' reg key :
  opened begin w reg key → keeps w w' → opened begin w' reg key.
Proof.
  intros (Hr & Hn & H1' & H2' & H3') Hk. unfold opened. destruct (Hk key) as (-> & -> & ->).
  split_and!; [done | | done..]. intros k Hne. destruct (Hk k) as (-> & _). auto.
Qed.

Lemma send_begin_reliable key begin (b : broker W) :
  agree (br_world b) (br_registry b) None → registered (br_registry b) key →
  let r := send_to key (begin_command begin) b in
  br_registry r.2 = br_registry b
  ∧ ((r.1 = Ok (TrBegun (tb_session_id begin))
      ∧ opened begin (br_world r.2) (br_registry r.2) key)
     ∨ (r.1 = Ok TrNoFocus ∨ r.1 = Ok TrEditRejected)
      ∧ agree (br_world r.2) (br_registry r.2) None).
Proof.
  intros [Hf Hnone] Hreg.
  destruct (send_to_reliable key (begin_command begin) b) as (resp & m1 & Hr & Hg & Hc & Hs & Ho).
  destruct (send_to key (begin_command begin) b) as [r b1]. cbn in *. subst r.
  split; [done |]. unfold tm_begin in Hc. rewrite (Hnone key) in Hc.
  rewrite bool_decide_eq_false_2 in Hc by done.
  assert (∀ k, k ≠ key → tm_session_id (tip_model (br_world b1) k) = None) as Hothers.
  { intros k Hne. destruct (Ho k Hne) as (-> & _). auto. }
  destruct Hs as (Hs1 & Hs2 & Hs3).
  destruct Hc as [[-> ->]|(_ & [[-> ->]|[-> ->]])].
  - left. split; [done |]. split_and!; [by rewrite Hg | done | by rewrite Hs1 | by rewrite Hs2 | by rewrite Hs3].
  - right. split; [by left |]. rewrite Hg. apply (agree_alone _ _ key); [done | by rewrite Hs1 | done].
  - right. split; [by right |]. rewrite Hg. apply (agree_alone _ _ key); [done | by rewrite Hs1 | done].
Qed.

Lemma begin_candidates_lockstep begin cs tr (b : broker W) :
  agree (br_world b) (br_registry b) None → Forall (registered (br_registry b)) cs →
  let r := begin_candidates begin cs tr b in
  br_registry r.2 = br_registry b
  ∧ match r.1 with
    | inl (Ok key) => opened begin (br_world r.2) (br_registry r.2) key
    | _ => agree (br_world r.2) (br_registry r.2) None
    end.
Proof.
  revert tr b. induction cs as [|key cs IH]; intros tr b Ha Hcs; cbn; [done |].
  apply Forall_cons in Hcs as [Hkey Hcs].
  destruct (send_begin_reliable key begin b Ha Hkey) as [Hg Hc].
  destruct (send_to key (begin_command begin) b) as [r b1]. cbn in *.
  destruct Hc as [[-> Ho]|[Hr Ha1]].
  - rewrite bool_decide_eq_true_2 by done. done.
  - rewrite <- Hg in Hcs.
    destruct Hr as [-> | ->]; rewrite bool_decide_eq_false_2 by done; rewrite <- Hg;
      by apply IH.
Qed.

Lemma candidates_registered p pref (b : broker W) :
  filed (br_registry b) →
  Forall (registered (br_registry b)) (preferred_first pref (candidates p b)).
Proof.
  intros Hf. apply Forall_forall. intros key Hk. unfold preferred_first in Hk.
  rewrite elem_of_stable_sort in Hk. unfold candidates in Hk.
  apply list_elem_of_filter in Hk as [_ Hk].
  rewrite (map_order_perm (br_world b)) in Hk.
  apply list_elem_of_fmap in Hk as [[[p' t'] k] [-> Hk]].
  apply elem_of_map_to_list in Hk. cbn. destruct (Hf _ _ _ Hk) as [H1' H2'].
  unfold registered. by rewrite H1', H2'.
Qed.

Lemma settle_clients_reliable (b : broker W) :
  br_registry (settle_clients b) = br_registry b
  ∧ keeps (br_world b) (br_world (settle_clients b)).
Proof.
  unfold settle_clients. destruct (reliable_events Hreliable (br_world b)) as [He Hk].
  destruct (client_events _) as [es w]. cbn in *. by subst es.
Qed.

Lemma begin_loop_lockstep fuel p pref begin deadline tr (b : broker W) r b' :
  agree (br_world b) (br_registry b) None →
  begin_loop fuel p pref begin deadline tr b = Some (r, b') →
  br_registry b' = br_registry b
  ∧ match r with
    | Ok key => opened begin (br_world b') (br_registry b') key
    | Err _ => agree (br_world b') (br_registry b') None
    end.
Proof.
  revert tr b. induction fuel as [|fuel IH]; intros tr b Ha; [done |]. cbn [begin_loop].
  destruct (begin_candidates_lockstep begin (preferred_first pref (candidates p b)) tr b Ha)
    as [Hg Hc]; [apply candidates_registered, Ha |].
  destruct (begin_candidates _ _ tr b) as [[res|tr1] b1]; cbn in *.
  { intros [= <- <-]. split; [done |]. by destruct res. }
  destruct (deadline <=? _); [intros [= <- <-]; by split |].
  set (b2 := mkBroker _ _ _). destruct (settle_clients_reliable b2) as [Hg2 Hk2].
  intros Hl. destruct (λ Ha2, IH tr1 (settle_clients b2) Ha2 Hl) as [Hg3 Hl3];
    [| split; [rewrite Hg3, Hg2; exact Hg | done]].
  rewrite Hg2. eapply agree_keeps; [exact Hc |].
  etrans; [apply (reliable_wait Hreliable) | exact Hk2].
Qed.

Lemma settle_world_lockstep w (s : injector W) :
  lockstep s → keeps (world s) w → lockstep (settle_world w s)
  ∧ in_session (settle_world w s) = in_session s.
Proof.
  intros Hl Hk. unfold settle_world.
  destruct (settle_reliable (mkBroker w (br_registry (in_broker s)) (br_log (in_broker s))) s)
    as (Hg & Hk2 & Hi). split; [| done]. unfold lockstep. rewrite Hg, Hi.
  eapply agree_keeps; [exact Hl |]. by etrans.
Qed.

Lemma activate_keeps w target : keeps w (activate_for_input w target).1.
Proof.
  unfold activate_for_input. destruct (_ =? tw_handle target); [done |].
  assert (∀ (b : bool) (w1 : W) t, keeps w1
    (if b then AttachThreadInput w1 (GetCurrentThreadId w) t true else (w1, false)).1) as Hatt
    by (intros [] w1 t; [apply (reliable_attach Hreliable) | done]).
  cbv zeta.
  match goal with |- context [if ?b then AttachThreadInput w _ ?t true else _] =>
    pose proof (Hatt b w t) as Hk1; destruct (if b then AttachThreadInput w _ t true else _) as [w1 f1] end.
  match goal with |- context [if ?b then AttachThreadInput w1 _ ?t true else _] =>
    pose proof (Hatt b w1 t) as Hk2; destruct (if b then AttachThreadInput w1 _ t true else _) as [w2 f2] end.
  cbn in Hk1, Hk2.
  pose proof (reliable_foreground Hreliable w2 (tw_handle target)) as Hk3.
  destruct (SetForegroundWindow _ _) as [w3 f3]. cbn in *.
  etrans; [exact Hk1 |]. etrans; [exact Hk2 |]. etrans; [exact Hk3 |].
  destruct f2, f1; cbn; try apply (reliable_attach Hreliable); [| done].
  etrans; apply (reliable_attach Hreliable).
Qed.

Lemma open_session_lockstep sid seq text attach (s : injector W) :
  lockstep s → in_session s = None → lockstep (open_session sid seq text attach s).2.
Proof.
  intros Hl Hs. unfold open_session.
  destruct (capture_foreground (world s)) as [target|]; [| done].
  destruct (is_remote_desktop_client _ _); [done |].
  destruct (is_flowtype_window _ _); [done |].
  pose proof (activate_keeps (world s) target) as Hk.
  destruct (activate_for_input (world s) target) as [w activated]. cbn in Hk.
  destruct (settle_world_lockstep w s Hl Hk) as [Hl1 Hs1].
  set (s1 := settle_world w s) in *. destruct activated; cbn; [| done].
  pose proof (reliable_hooks Hreliable (world s1)) as Hk1.
  destruct (install_hooks (world s1)) as [w1 hooked]. cbn in Hk1.
  unfold InputMonitor_start. destruct hooked; cbn.
  2: { by apply (settle_world_lockstep w1 (set_monitor _ s1)). }
  destruct (settle_world_lockstep w1 (set_monitor (set_active true (in_monitor s1)) s1) Hl1 Hk1)
    as [Hl2 Hs2].
  set (s2 := settle_world w1 _) in *. unfold tips_begin.
  set (begin := mkTipBegin sid seq text attach).
  destruct (begin_for_target _ _ _ _ _ _) as [[r b]|] eqn:Hb; cbn; [| done].
  assert (agree (br_world (in_broker s2)) (br_registry (in_broker s2)) None) as Ha.
  { unfold lockstep in Hl2. rewrite Hs2 in Hl2. cbn in Hl2. by rewrite Hs1, Hs in Hl2. }
  destruct (begin_loop_lockstep _ _ _ _ _ _ _ _ _ Ha Hb) as [Hg Hr].
  destruct (settle_reliable b s2) as (Hg2 & Hk2 & Hs3).
  assert (in_session (settle b s2) = None) as Hs4.
  { rewrite Hs3, Hs2. cbn. by rewrite Hs1. }
  destruct r as [key|e].
  - pose proof (opened_keeps _ _ _ _ _ Hr Hk2) as (Hreg & Hn & Hid & Hq & Ht).
    unfold lockstep, agree. cbn. rewrite Hg2, Hg. split; [apply Ha |].
    rewrite <- Hg. split_and!; [done | done | exact Hn].
  - assert (lockstep (settle b s2)) as Hl3.
    { unfold lockstep. rewrite Hs4, Hg2. by eapply agree_keeps. }
    destruct e; cbn; exact Hl3.
Qed.


(** The text service's session is the state acknowledged. *)
Definition acked (s : injector W) (sid : string) (n seq : Z) (text : string) : Prop :=
  ∃ key, tm_session_id (tip_model (world s) key) = Some sid
    ∧ tm_sequence (tip_model (world s) key) = n
    ∧ (n = seq → tm_text (tip_model (world s) key) = text).

Lemma lockstep_after_send key c (s : injector W) a :
  lockstep s → in_session s = Some a → key = as_tip a →
  ∃ resp m1, (tips_send key c s).1 = Ok resp
    ∧ in_session (tips_send key c s).2 = Some a
    ∧ tip_contract (tip_model (world s) key) c resp m1
    ∧ same_text m1 (tip_model (world (tips_send key c s).2) key)
    ∧ ∀ o, match o with
           | Some b => as_tip b = as_tip a ∧ holds b m1
           | None => tm_session_id m1 = None end →
        agree (world (tips_send key c s).2) (br_registry (in_broker (tips_send key c s).2)) o.
Proof.
  intros [Hf Ho] Hs ->. rewrite Hs in Ho. destruct Ho as (Hreg & Hh & Hn).
  destruct (tips_send_reliable (as_tip a) c s Hreg) as (resp & m1 & Hr & Hg & Hi & Hc & Hm & Hothers).
  exists resp, m1. rewrite Hi, Hg. split_and!; [done.. |].
  intros o Ho.
  assert (∀ k, k ≠ as_tip a → tm_session_id (tip_model (world (tips_send (as_tip a) c s).2) k) = None)
    as Hn2 by (intros k Hne; destruct (Hothers k Hne) as (-> & _); auto).
  destruct Hm as (Hm1 & Hm2 & Hm3). destruct o as [b|].
  - destruct Ho as [Hb (Hb1 & Hb2 & Hb3)]. split; [done |]. rewrite Hb.
    split_and!; [done | split_and!; congruence | done].
  - eapply agree_alone; [done | | exact Hn2]. by rewrite Hm1.
Qed.

Lemma apply_state_lockstep sid seq text (s : injector W) :
  lockstep s →
  let r := apply_state sid seq text s in
  lockstep r.2 ∧ ∀ n, r.1 = RespApplied n → acked r.2 sid n seq text.
Proof.
  intros Hl. unfold apply_state.
  destruct (active_session sid s) as [a|] eqn:Ha; [| done].
  apply active_session_Some in Ha as [Hs Hid].
  destruct (is_valid _ _); cbn; [| done].
  destruct (_ =? epoch _); cbn; [| split; [by apply end_failed_session_lockstep | done]].
  destruct (is_foreground _ _); cbn; [| done].
  pose proof Hl as [Hf Ho]. rewrite Hs in Ho. destruct Ho as (Hreg & (Hh1 & Hh2 & Hh3) & Hn).
  destruct (Z.ltb_spec seq (as_sequence a)); cbn.
  { split; [done |]. intros n [= <-]. exists (as_tip a). rewrite Hh1, Hid. split_and!; [done.. | lia]. }
  destruct (Z.eqb_spec seq (as_sequence a)) as [->|Hne]; cbn.
  { case_bool_decide; cbn; [| split; [by apply end_failed_session_lockstep | done]].
    split; [done |]. intros n [= <-]. exists (as_tip a). rewrite Hh1, Hid.
    split_and!; [done.. | congruence]. }
  destruct (lockstep_after_send (as_tip a) (TcUpdate sid seq text) s a Hl Hs eq_refl)
    as (resp & m1 & Hr & Hs1 & Hc & Hm & Hagree).
  destruct (tips_send _ _ _) as [r s1]. cbn in *. subst r. unfold tm_update in Hc.
  rewrite Hh1, Hid, bool_decide_eq_true_2 in Hc by done. cbn in Hc.
  assert (same_text (tip_model (world s) (as_tip a)) m1 → lockstep s1) as Hkept.
  { intros (Hm1 & Hm2 & Hm3). unfold lockstep. rewrite Hs1. apply Hagree. split; [done |].
    split_and!; congruence. }
  assert (same_text (tip_model (world s) (as_tip a)) m1 →
    lockstep (end_failed_session s1)) as Hend.
  { intros Hm'. by apply end_failed_session_lockstep, Hkept. }
  destruct (tm_target_modified (tip_model (world s) (as_tip a))).
  { destruct Hc as [-> ->]. split; [by apply Hend | done]. }
  rewrite Hh2 in Hc. rewrite (proj2 (Z.ltb_ge _ _)), (proj2 (Z.eqb_neq _ _)) in Hc by lia.
  destruct Hc as [[-> ->]|[[-> ->]|[[-> ->]|[-> ->]]]].
  - rewrite bool_decide_eq_true_2 by done. cbn. rewrite Z.eqb_refl. split.
    + unfold lockstep. cbn. apply Hagree. split; [done |]. split_and!; cbn; congruence.
    + intros n [= <-]. destruct Hm as (Hm1 & Hm2 & Hm3). cbn in *.
      exists (as_tip a). unfold world in *. cbn. split_and!; congruence.
  - split; [by apply Hkept | done].
  - split; [by apply Hend | done].
  - split; [by apply Hend | done].
Qed.

Lemma finish_session_lockstep sid seq (s : injector W) :
  lockstep s → lockstep (finish_session sid seq s).2.
Proof.
  intros Hl. unfold finish_session. destruct (in_session s) as [a|] eqn:Hs; [| done].
  case_bool_decide as Hid; cbn; [| done].
  destruct (Z.eqb_spec (as_sequence a) seq) as [Hq|]; cbn; [| done].
  destruct (lockstep_after_send (as_tip a) (TcFinish sid seq) s a Hl Hs eq_refl)
    as (resp & m1 & Hr & Hs1 & Hc & Hm & Hagree).
  destruct (tips_send _ _ _) as [r s1]. cbn in *. subst r. unfold tm_finish in Hc.
  pose proof Hl as [_ Ho]. rewrite Hs in Ho. destruct Ho as (_ & (Hh1 & Hh2 & Hh3) & _).
  rewrite Hh1, Hid, bool_decide_eq_true_2, Hh2, Hq, Z.eqb_refl in Hc by done. cbn in Hc.
  assert (m1 = tip_model (world s) (as_tip a) → lockstep (end_failed_session s1)) as Hend.
  { intros ->. apply end_failed_session_lockstep. unfold lockstep. rewrite Hs1.
    apply Hagree. by split_and!. }
  destruct (tm_target_modified _).
  { destruct Hc as [-> ->]. by apply Hend. }
  destruct Hc as [[-> ->]|[-> ->]]; [| by apply Hend].
  rewrite bool_decide_eq_true_2, Z.eqb_refl by done. cbn.
  apply (Hagree None). done.
Qed.

Lemma query_active_session_lockstep a sid (s : injector W) :
  lockstep s → in_session s = Some a → lockstep (query_active_session a sid s).2.
Proof.
  intros Hl Hs. unfold query_active_session.
  destruct (_ =? epoch _); cbn; [| by apply end_failed_session_lockstep].
  destruct (_ <? _); cbn; [done |].
  set (a' := mkActive _ _ _ _ _ _ _). set (s0 := set_session _ _).
  assert (lockstep s0) as Hl0.
  { destruct Hl as [Hf Ho]. rewrite Hs in Ho. by split. }
  destruct (lockstep_after_send (as_tip a) (TcQuery sid) s0 a' Hl0 eq_refl eq_refl)
    as (resp & m1 & Hr & Hs1 & Hc & Hm & Hagree).
  destruct (tips_send _ _ _) as [r s1]. cbn in *. subst r. destruct Hc as [-> Hc].
  assert (lockstep s1) as Hl1.
  { unfold lockstep. rewrite Hs1. apply Hagree. destruct Hl0 as [_ (_ & Hh & _)]. by split. }
  destruct resp; cbn; try (by apply end_failed_session_lockstep); done.
Qed.

(** C1. Injector and text service in lockstep. As long as the text services stay
    connected, answer every exchange in time and as the reference session allows, and
    no client comes or leaves ([reliable]), every request leaves the injector's
    session and the text service's the same (id, sequence and text), with no
    other session open anywhere; and a state the injector acknowledges is held
    by the text service: the acknowledged sequence, and the phone's text when
    the acknowledged sequence is the phone's. Of an exchange that is not answered in
    time [timed_out_begin_acknowledges_unheld_text] shows what it may lead to. *)
Theorem handle_request_lockstep inst elev request (s : injector W) :
  lockstep s →
  let r := handle_request inst elev request s in
  lockstep r.2
  ∧ ∀ sid seq text n, request = ApplyState sid seq text → r.1 = RespApplied n →
      acked r.2 sid n seq text.
Proof.
  intros Hl. cbv zeta.
  destruct request as [|sid repl seq text attach|sid seq text|sid seq|sid| |sid]; cbn; try done.
  - split; [| done]. unfold begin_session.
    destruct (active_session sid s) eqn:Ha; [done |].
    destruct (finished_session sid s); [done |].
    unfold classify_session_replacement. destruct (in_session s) as [a|] eqn:Hs; cbn.
    + case_bool_decide; [| done]. destruct (end_failed_session_lockstep s Hl).
      by apply open_session_lockstep.
    + by apply open_session_lockstep.
  - destruct (completed_apply_response _ _ _ _) as [r|] eqn:Hco.
    { split; [done |]. intros ???? _ Hr. cbn in Hr. subst r.
      unfold completed_apply_response in Hco. by repeat case_match. }
    destruct (apply_state_lockstep sid seq text s Hl) as [H1' H2'].
    split; [done |]. intros sid' seq' text' n [= <- <- <-]. auto.
  - split; [| done]. pose proof (finish_session_lockstep sid seq s Hl) as Hf.
    destruct (finish_session sid seq s) as [r s1]. cbn in Hf.
    destruct r; try done. by destruct (match active_session sid s with Some _ => _ | None => _ end).
  - split; [| done]. destruct (active_session sid s) as [a|] eqn:Ha.
    + apply active_session_Some in Ha as [Hs _]. by apply query_active_session_lockstep.
    + by destruct (finished_session sid s).
  - split; [| done]. destruct (active_session sid s) as [a|] eqn:Ha; [| done].
    apply active_session_Some in Ha as [Hs Hid]. subst sid.
    pose proof (end_failed_session_lockstep s Hl) as [He _].
    unfold end_failed_session in He. rewrite Hs in He.
    destruct (tips_send _ _ _). exact He.
Qed.
End lockstep.

(** ** A desktop to run the injector on

    One editor window, whose text service implements the reference session. On
    a slow desktop the editor's first answer comes after the broker gave up. *)

(** The reference session as a text service that accepts every edit. *)
Definition tip_answer (m : TipSessionModel) (c : TipCommand) : TipResponse * TipSessionModel :=
  match c with
  | TcPing => (TrReady, m)
  | TcBegin sid seq text _ =>
    match tm_begin m sid seq text with
    | (_, Err TrSessionMismatch) => (TrRebindRejected, m)
    | (_, Err e) => (e, m)
    | (m, Ok _) => (TrBegun sid, m)
    end
  | TcUpdate sid seq text =>
    match tm_update m sid seq text with
    | (_, Err e) => (e, m)
    | (_, Ok false) => (TrApplied sid (tm_sequence m), m)
    | (m, Ok true) => (TrApplied sid seq, m)
    end
  | TcFinish sid seq =>
    match tm_finish m sid seq with (_, Err e) => (e, m) | (m, Ok _) => (TrFinished sid seq, m) end
  | TcCancel sid =>
    match tm_cancel m sid with (_, Err e) => (e, m) | (m, Ok _) => (TrCancelled sid, m) end
  | TcQuery sid =>
    (if bool_decide (tm_session_id m = Some sid) then
       if tm_target_modified m then TrCompositionTerminated else TrSessionActive sid (tm_sequence m)
     else TrSessionMismatch, m)
  end.

Lemma tip_answer_contract m c : tip_contract m c (tip_answer m c).1 (tip_answer m c).2.
Proof.
  destruct c as [sid seq text attach|sid seq text|sid seq|sid|sid|]; cbn; try done.
  - unfold tm_begin. repeat (case_match; simplify_eq/=); auto.
  - unfold tm_update. repeat (case_match; simplify_eq/=); auto.
  - unfold tm_finish. repeat (case_match; simplify_eq/=); auto.
  - unfold tm_cancel. repeat (case_match; simplify_eq/=); auto.
Qed.

Record desk (slow : bool) := mkDesk { d_tip : TipSessionModel; d_clock : Z }.
Arguments mkDesk {slow}.
Arguments d_tip {slow}.
Arguments d_clock {slow}.

Definition editor_key : TipKey := mkTipKey 7 8 1.

Definition desk_model {slow} (w : desk slow) (key : TipKey) : TipSessionModel :=
  if decide (key = editor_key) then d_tip w else TipSessionModel_default.

(** The other keys belong to no editor in focus. *)
Definition desk_exchange {slow} (w : desk slow) (key : TipKey) (c : TipCommand)
    : desk slow * tip_result :=
  if decide (key = editor_key) then
    let '(r, m) := tip_answer (d_tip w) c in
    if slow && (d_clock w <? 1500) then (mkDesk m (d_clock w + 1500), Err TimedOut)
    else (mkDesk m (d_clock w + 5), Ok r)
  else (mkDesk (d_tip w) (d_clock w + 5),
        Ok (match c with TcBegin _ _ _ _ => TrNoFocus | TcPing => TrReady | _ => TrSessionMismatch end)).

#[export] Program Instance desk_pipes slow : TipPipes (desk slow) := {|
  now_ms w := d_clock w;
  tip_exchange := desk_exchange;
  wait_changed w d := mkDesk (d_tip w) (d_clock w + Z.max d 1);
  client_events w := ([], w);
  map_order _ l := l;
  cut_short _ := O;
|}.
Next Obligation. done. Qed.
Next Obligation.
  intros slow w key c. unfold desk_exchange. case_decide; [| cbn; lia].
  destruct (tip_answer _ _). case_match; cbn; lia.
Qed.
Next Obligation. done. Qed.
Next Obligation. intros slow w d. cbn. lia. Qed.
Next Obligation. done. Qed.
Next Obligation. done. Qed.
Next Obligation. intros slow w d. cbn. lia. Qed.

#[export] Instance desk_win32 slow : Win32 (desk slow) := {|
  GetForegroundWindow _ := 5; z_order_below _ _ := []; IsWindowVisible _ _ := true;
  IsWindow _ h := h =? 5; window_thread_id _ _ := 8; window_process_id _ _ := 7;
  process_image_path _ _ := Some "C:\Windows\notepad.exe"%string;
  GetClassNameW _ _ := "Notepad"%string; GetWindowTextLengthW _ _ := 8; GetWindowTextW _ _ := "Untitled"%string;
  GetLastInputInfo _ := None; GetTickCount w := d_clock w; GetCurrentThreadId _ := 1;
  AttachThreadInput w _ _ _ := (w, true); SetForegroundWindow w _ := (w, true);
|}.

#[export] Instance desk_host slow : InjectorHost (desk slow) := {|
  install_hooks w := (w, true); take_inputs w := ([], w); current_exe _ := None;
  accept_client w := w; read_request w := (w, None); write_response w _ := (w, true);
|}.

Lemma desk_reliable : reliable (desk_model (slow:=false)).
Proof.
  constructor; try done.
  intros w key c. cbn. unfold desk_exchange, desk_model. case_decide as Hk; cbn.
  - pose proof (tip_answer_contract (d_tip w) c) as Hc.
    destruct (tip_answer (d_tip w) c) as [r m]. exists r, m. cbn. split_and!; [done.. |].
    intros k Hne. by rewrite !decide_False by congruence.
  - eexists _, TipSessionModel_default. split; [done |]. split_and!;
      [by destruct c; cbn; unfold tm_begin, tm_update, tm_finish, tm_cancel; cbn;
         rewrite ?bool_decide_eq_false_2 by done; cbn; auto | done |].
    intros k Hne. by case_decide.
Qed.

(** The injector when its editor has connected. *)
Definition idle_injector (slow : bool) : injector (desk slow) :=
  mkInjector (mkBroker (mkDesk TipSessionModel_default 0)
    (register_client (Some (mkTipHello TIP_IPC_VERSION "0.2.1" 7 8)) (Some 7)
       RegistryState_initial).2 []) InputMonitor_initial None None.

Lemma idle_injector_lockstep slow : lockstep desk_model (idle_injector slow).
Proof.
  split.
  - intros p t key Hl. by destruct (one_client_ok p t key Hl) as (? & ? & _).
  - intros key. unfold desk_model. by case_decide.
Qed.

(** Requests one after the other, and the last answer. *)
Definition requests {slow} (rs : list InjectorRequest) (s : injector (desk slow))
    : option InjectorResponse * injector (desk slow) :=
  foldl (λ acc r, let '(a, s) := handle_request "i" false r acc.2 in (Some a, s)) (None, s) rs.

Example desk_dictates :
  let '(r, s) := requests [BeginSession "s" None 1 "a" false; ApplyState "s" 2 "ab"]
                   (idle_injector false) in
  r = Some (RespApplied 2) ∧ tm_text (d_tip (world s)) = "ab"%string.
Proof. by vm_compute. Qed.

Lemma handle_request_lockstep_witness :
  lockstep desk_model (idle_injector false) ∧
  let r := handle_request "i" false (BeginSession "s" None 1 "a" false) (idle_injector false) in
  lockstep desk_model r.2
  ∧ ∀ sid seq text n, BeginSession "s" None 1 "a" false = ApplyState sid seq text →
      r.1 = RespApplied n → acked desk_model r.2 sid n seq text.
Proof.
  split; [apply idle_injector_lockstep |].
  apply (handle_request_lockstep desk_model desk_reliable "i" false).
  apply idle_injector_lockstep.
Defined.

(** Where they part: a begin that times out. The broker gives up on the
    first begin although the editor runs it, and the app is told that the text
    service is unavailable; the phone's retry, with newer text, is begun by the
    editor without an edit (it already holds that session). From there the
    injector acknowledges the newer text, which the editor does not hold. *)
Theorem timed_out_begin_acknowledges_unheld_text :
  let '(r1, s1) := handle_request "i" false (BeginSession "s" None 1 "old" false)
                     (idle_injector true) in
  let '(r2, s2) := handle_request "i" false (BeginSession "s" None 2 "new" false) s1 in
  let '(r3, s3) := handle_request "i" false (ApplyState "s" 2 "new") s2 in
  r1 = TsfUnavailable ∧ r2 = SessionBegun "Untitled" ∧ r3 = RespApplied 2
  ∧ tm_session_id (d_tip (world s3)) = Some "s"%string
  ∧ tm_text (d_tip (world s3)) = "old"%string.
Proof. vm_compute. auto. Qed.

(** The injector with an open session. *)
Definition busy_injector : injector (desk false) :=
  (handle_request "i" false (BeginSession "s" None 1 "a" false) (idle_injector false)).2.

Definition busy_session : ActiveSession :=
  mkActive "s" 1 "a" (mkTarget 5 7) editor_key 0 5.

Example busy_session_open : in_session busy_injector = Some busy_session.
Proof. by vm_compute. Qed.

Lemma begin_refused_while_busy_witness :
  handle_request "i" false (BeginSession "t" None 1 "b" false) busy_injector
  = (InvalidRequest, busy_injector).
Proof.
  apply (begin_refused_while_busy "i" false busy_injector busy_session);
    [by vm_compute | done | by vm_compute | done].
Defined.

Lemma finished_session_replays_witness :
  let s' := (handle_request "i" false (FinishSession "s" 1) busy_injector).2 in
  ∃ active, in_session busy_injector = Some active ∧ as_id active = "s"%string ∧ as_sequence active = 1
  ∧ in_session s' = None
  ∧ (∀ n text, handle_request "i" false (ApplyState "s" n text) s'
       = (if decide (n = 1 ∧ text = as_text active) then RespFinished 1 else InvalidRequest, s'))
  ∧ handle_request "i" false (QuerySession "s") s'
    = (Ipc.SessionFinished "s" 1 (as_text active), s')
  ∧ ∀ replaces n text attach,
      handle_request "i" false (BeginSession "s" replaces n text attach) s'
      = (Ipc.SessionFinished "s" 1 (as_text active), s').
Proof.
  apply (finished_session_replays "i" false busy_injector "s" 1). by vm_compute.
Defined.

(** The hooks are installed exactly while a session is open. *)
Section monitor.
Context {W : Type} `{Win32 W} `{TipPipes W} `{InjectorHost W}.
Implicit Types s : injector W.

Definition monitored s : Prop :=
  MONITOR_ACTIVE (in_monitor s) = bool_decide (is_Some (in_session s)).

Lemma run_hooks_active es m : MONITOR_ACTIVE (foldl run_hook m es) = MONITOR_ACTIVE m.
Proof. revert m. induction es as [|e es IH]; intros m; cbn; [done |]. by rewrite IH, run_hook_active. Qed.

Lemma settle_monitor b s :
  MONITOR_ACTIVE (in_monitor (settle b s)) = MONITOR_ACTIVE (in_monitor s)
  ∧ in_session (settle b s) = in_session s.
Proof. unfold settle. destruct (take_inputs _) as [es w]. cbn. by rewrite run_hooks_active. Qed.

Lemma tips_send_monitor key c s :
  MONITOR_ACTIVE (in_monitor (tips_send key c s).2) = MONITOR_ACTIVE (in_monitor s)
  ∧ in_session (tips_send key c s).2 = in_session s.
Proof.
  unfold tips_send. destruct (send key c (in_broker s)) as [r b]. apply settle_monitor.
Qed.

Lemma tips_begin_monitor p t b s :
  MONITOR_ACTIVE (in_monitor (tips_begin p t b s).2) = MONITOR_ACTIVE (in_monitor s)
  ∧ in_session (tips_begin p t b s).2 = in_session s.
Proof.
  unfold tips_begin. destruct (begin_for_target _ _ _ _ _ _) as [[r b']|]; [| done].
  apply settle_monitor.
Qed.

Lemma end_failed_session_monitored s : monitored s → monitored (end_failed_session s)
  ∧ in_session (end_failed_session s) = None.
Proof.
  intros Hm. unfold end_failed_session. destruct (in_session s) eqn:Hs; [| done].
  by destruct (tips_send _ _ _).
Qed.

Lemma tips_send_monitored key c s :
  monitored s → monitored (tips_send key c s).2.
Proof. unfold monitored. destruct (tips_send_monitor key c s) as [-> ->]. done. Qed.

Lemma open_session_monitored sid seq text attach s :
  monitored s → in_session s = None → monitored (open_session sid seq text attach s).2.
Proof.
  intros Hm Hs. unfold open_session, settle_world, InputMonitor_start.
  destruct (capture_foreground _) as [target|]; [| done].
  do 2 (case_match; [done |]).
  destruct (activate_for_input _ _) as [w activated].
  set (s1 := settle _ s).
  assert (in_session s1 = None ∧ MONITOR_ACTIVE (in_monitor s1) = false) as [Hs1 Hm1].
  { unfold s1. unfold monitored in Hm.
    destruct (settle_monitor (mkBroker w (br_registry (in_broker s)) (br_log (in_broker s))) s)
      as [-> ->]. rewrite Hs in *. by rewrite Hm. }
  destruct activated; cbn; [| unfold monitored; by rewrite Hs1, Hm1].
  destruct (install_hooks _) as [w1 [|]]; cbn.
  - set (s2 := settle _ _).
    assert (in_session s2 = None) as Hs2 by (unfold s2; by rewrite (proj2 (settle_monitor _ _))).
    assert (MONITOR_ACTIVE (in_monitor s2) = true) as Hm2
      by (unfold s2; by rewrite (proj1 (settle_monitor _ _))).
    match goal with |- context [tips_begin ?p ?t ?b s2] =>
      destruct (tips_begin_monitor p t b s2) as [Hm3 Hs3];
      destruct (tips_begin p t b s2) as [[key|e] s3] end; [|destruct e];
      unfold monitored; cbn in *; rewrite ?Hs3, ?Hm3, ?Hs2, ?Hm2; done.
  - unfold monitored. rewrite (proj1 (settle_monitor _ _)), (proj2 (settle_monitor _ _)). cbn.
    by rewrite Hs1.
Qed.

Lemma monitored_session s a b :
  monitored s → in_session s = Some a → monitored (set_session (Some b) s).
Proof. unfold monitored. cbn. intros -> ->. done. Qed.

Lemma apply_state_monitored sid seq text s : monitored s → monitored (apply_state sid seq text s).2.
Proof.
  intros Hm. unfold apply_state. destruct (active_session sid s) as [a|] eqn:Ha; [| done].
  apply active_session_Some in Ha as [Hs _].
  pose proof (tips_send_monitored (as_tip a) (TcUpdate sid seq text) s Hm) as Hm1.
  pose proof (tips_send_monitor (as_tip a) (TcUpdate sid seq text) s) as [_ Hs1].
  destruct (tips_send _ _ _) as [r s1]. cbn in *. rewrite Hs in Hs1.
  pose proof (proj1 (end_failed_session_monitored s Hm)).
  pose proof (proj1 (end_failed_session_monitored s1 Hm1)).
  destruct (is_valid _ _); cbn; [| done].
  destruct (_ =? epoch _); cbn; [| done].
  destruct (is_foreground _ _); cbn; [| done].
  destruct (seq <? _); cbn; [done |].
  destruct (seq =? _); cbn; [by destruct (bool_decide _) |].
  destruct r as [[]|]; cbn; try done. destruct (bool_decide _); cbn; [| done].
  destruct (_ =? seq); [by eapply monitored_session | done].
Qed.

Lemma finish_session_monitored sid seq s : monitored s → monitored (finish_session sid seq s).2.
Proof.
  intros Hm. unfold finish_session. destruct (in_session s) as [a|] eqn:Hs; [| done].
  destruct (_ || _); [done |].
  pose proof (tips_send_monitored (as_tip a) (TcFinish sid seq) s Hm) as Hm1.
  destruct (tips_send _ _ _) as [r s1]. cbn in *.
  pose proof (proj1 (end_failed_session_monitored s1 Hm1)).
  destruct r as [[]|]; cbn; try done. by destruct (_ && _).
Qed.

Lemma query_active_session_monitored a sid s :
  monitored s → in_session s = Some a → monitored (query_active_session a sid s).2.
Proof.
  intros Hm Hs. unfold query_active_session.
  destruct (_ =? epoch _); cbn; [| by apply end_failed_session_monitored].
  destruct (_ <? _); cbn; [done |]. set (s0 := set_session _ _).
  assert (monitored s0) as Hm0 by (by eapply monitored_session).
  pose proof (tips_send_monitored (as_tip a) (TcQuery sid) s0 Hm0) as Hm1.
  destruct (tips_send _ _ _) as [r s1]. cbn in *.
  pose proof (proj1 (end_failed_session_monitored s1 Hm1)). by destruct r as [[]|].
Qed.

(** The hooks of the input monitor are installed exactly while a session is
    open, after every request. *)
Theorem monitor_while_session inst elev request s :
  monitored s → monitored (handle_request inst elev request s).2.
Proof.
  intros Hm. destruct request as [|sid repl seq text attach|sid seq text|sid seq|sid| |sid]; cbn; try done.
  - unfold begin_session. destruct (active_session sid s); [done |].
    destruct (finished_session sid s); [done |].
    destruct (in_session s) as [a|] eqn:Hs; cbn; [| by apply open_session_monitored].
    case_bool_decide; [| done]. destruct (end_failed_session_monitored s Hm).
    by apply open_session_monitored.
  - destruct (completed_apply_response _ _ _ _); [done |]. by apply apply_state_monitored.
  - pose proof (finish_session_monitored sid seq s Hm) as Hf.
    destruct (finish_session sid seq s) as [r s1]. cbn in Hf.
    destruct r; try done. by destruct (match active_session sid s with Some _ => _ | None => _ end).
  - destruct (active_session sid s) as [a|] eqn:Ha; [| by destruct (finished_session sid s)].
    apply active_session_Some in Ha as [Hs _]. by apply query_active_session_monitored.
  - destruct (active_session sid s) as [a|]; [| done]. by destruct (tips_send _ _ _).
Qed.
End monitor.

Lemma monitor_while_session_witness :
  monitored busy_injector ∧
  monitored (handle_request "i" false (CancelInvalidSession "s") busy_injector).2.
Proof.
  split; [by vm_compute |]. apply (monitor_while_session "i" false). by vm_compute.
Defined.
