(* ===== verification/FileNames.v ===== *)
(** * File names

    The path checks and Windows file names of [flowtype-core/src/file_transfer.rs]:
    wire paths, the sanitizer of path segments, and the reservation of names
    that differ without regard to case. [str::to_lowercase] is the standard
    library's; its behaviour on the few characters the code appends is the
    hypothesis [lowercase_boundary]. *)

From S2P Require Import Prelude Text Protocol.

Inductive FileValidationError :=
| UnsupportedProtocol | InvalidFileIdentifier | InvalidSummary | InvalidTicket
| InvalidPath | InvalidEntry | InvalidHash | ManifestLineTooLarge.
#[export] Instance FileValidationError_eq_dec : EqDecision FileValidationError.
Proof. solve_decision. Defined.

Definition MAX_RELATIVE_PATH_BYTES : Z := 4096.

(** ** Wire paths *)

(** The loop of [validate_relative_path] over the segments. *)
Definition segment_ok (segment : list Z) : bool :=
  negb (bool_decide (segment = []))
  && negb (bool_decide (segment = [46]) || bool_decide (segment = [46; 46]))
  && (utf16_units segment <=? 255).

(** [core/file_transfer.rs validate_relative_path] *)
Definition validate_relative_path (path : string) : result FileValidationError unit :=
  let cs := chars path in
  if str_is_empty path || (MAX_RELATIVE_PATH_BYTES <? str_len path)
     || bool_decide (head cs = Some 47) || bool_decide (last cs = Some 47)
     || bool_decide (92 ∈ cs) || existsb (λ c, (c =? 0) || is_control c) cs
  then Err InvalidPath
  else
    let segments := split_on 47 cs in
    if negb (forallb segment_ok segments) then Err InvalidPath
    else if 128 <? zlength segments then Err InvalidPath
    else Ok tt.

(** ** Windows names *)

(** [core/file_transfer.rs truncate_utf16] *)
Fixpoint truncate_chars (max_units : Z) (cs : list Z) : list Z :=
  match cs with
  | [] => []
  | c :: cs =>
    if max_units <? len_utf16 c then [] else c :: truncate_chars (max_units - len_utf16 c) cs
  end.
Definition truncate_utf16 (value : string) (max_units : Z) : string :=
  of_chars (truncate_chars max_units (chars value)).

Definition reserved_stems : list (list Z) :=
  bytes_of <$> ["CON"; "PRN"; "AUX"; "NUL"; "COM1"; "COM2"; "COM3"; "COM4"; "COM5"; "COM6";
    "COM7"; "COM8"; "COM9"; "LPT1"; "LPT2"; "LPT3"; "LPT4"; "LPT5"; "LPT6"; "LPT7"; "LPT8";
    "LPT9"]%string.

(** [core/file_transfer.rs is_windows_reserved_name] *)
Definition is_windows_reserved_name (value : list Z) : bool :=
  let stem := trim_end (before_sep 46 value) in
  bool_decide ((to_ascii_uppercase <$> stem) ∈ reserved_stems).

(** The characters replaced by an underscore: less, greater, colon, quote,
    slash, backslash, bar, question mark, star, and controls. *)
Definition is_forbidden (c : Z) : bool :=
  is_control c || bool_decide (c ∈ [60; 62; 58; 34; 47; 92; 124; 63; 42]).

Definition pop_dots_and_spaces (cs : list Z) : list Z :=
  reverse (drop_while (λ c, (c =? 32) || (c =? 46)) (reverse cs)).

(** [core/file_transfer.rs sanitize_windows_segment] On characters. *)
Definition sanitize_chars (segment : list Z) : list Z :=
  let result := (λ c, if is_forbidden c then 95 else c) <$> segment in
  let result := pop_dots_and_spaces result in
  let result :=
    if bool_decide (result = []) || (bool_decide (result = [46]) || bool_decide (result = [46; 46]))
    then bytes_of "untitled" else result in
  let result := if is_windows_reserved_name result then result ++ [95] else result in
  truncate_chars 240 result.
Definition sanitize_windows_segment (segment : string) : string :=
  of_chars (sanitize_chars (chars segment)).

(** [core/file_transfer.rs sanitize_windows_relative_path] *)
Definition sanitize_windows_relative_path (path : string) : result FileValidationError (list string) :=
  _ ← validate_relative_path path;
  Ok ((λ s, of_chars (sanitize_chars s)) <$> split_on 47 (chars path)).

(** [core/file_transfer.rs append_collision_suffix] On characters. *)
Definition append_collision_suffix (name : list Z) (number : Z) (directory : bool) : list Z :=
  let suffix := bytes_of " (" ++ decimal number ++ bytes_of ")" in
  let '(stem, extension) :=
    if directory then (name, [])
    else match rsplit_once 46 name with
         | Some (stem, extension) =>
           if negb (bool_decide (stem = [])) then (stem, 46 :: extension) else (name, [])
         | None => (name, [])
         end in
  let allowed := saturating_sub 240 (utf16_units suffix + utf16_units extension) in
  truncate_chars allowed stem ++ suffix ++ extension.

Section reservation.
Context (to_lowercase : list Z → list Z).

(** [core/file_transfer.rs WindowsNameReservation::new] *)
Definition WindowsNameReservation_new (existing : list (list Z)) : gset (list Z) :=
  list_to_set (to_lowercase <$> existing).

(** The search for a free suffix from [suffix] on; [None] is out of fuel. *)
Fixpoint reserve_suffix (fuel : nat) (used : gset (list Z)) (base : list Z) (suffix : Z)
    (directory : bool) : option (list Z * gset (list Z)) :=
  match fuel with
  | O => None
  | S fuel =>
    let candidate := append_collision_suffix base suffix directory in
    if bool_decide (to_lowercase candidate ∈ used)
    then reserve_suffix fuel used base (suffix + 1) directory
    else Some (candidate, {[ to_lowercase candidate ]} ∪ used)
  end.

(** [core/file_transfer.rs WindowsNameReservation::reserve] [self] is the set of
    used names. *)
Definition reserve (fuel : nat) (self : gset (list Z)) (desired : list Z) (directory : bool)
    : option (list Z * gset (list Z)) :=
  let base := sanitize_chars desired in
  if bool_decide (to_lowercase base ∈ self)
  then reserve_suffix fuel self base 1 directory
  else Some (base, {[ to_lowercase base ]} ∪ self).
End reservation.

(** ** Truncation *)

Lemma truncate_chars_prefix n cs : truncate_chars n cs `prefix_of` cs.
Proof.
  revert n. induction cs as [|c cs IH]; intros n; cbn; [done |].
  case_match; [apply prefix_nil | by apply prefix_cons].
Qed.

Lemma utf16_units_cons c cs : utf16_units (c :: cs) = len_utf16 c + utf16_units cs.
Proof. done. Qed.

Lemma truncate_chars_units n cs : 0 ≤ n → utf16_units (truncate_chars n cs) ≤ n.
Proof.
  revert n. induction cs as [|c cs IH]; intros n Hn; cbn [truncate_chars]; [done |].
  destruct (Z.ltb_spec n (len_utf16 c)); [done |]. rewrite utf16_units_cons.
  specialize (IH (n - len_utf16 c) ltac:(lia)). lia.
Qed.

Lemma truncate_chars_all n cs : utf16_units cs ≤ n → truncate_chars n cs = cs.
Proof.
  revert n. induction cs as [|c cs IH]; intros n; cbn [truncate_chars]; [done |].
  rewrite utf16_units_cons. pose proof (utf16_units_nonneg cs). intros Hn.
  destruct (Z.ltb_spec n (len_utf16 c)); [lia |]. by rewrite IH by lia.
Qed.

Lemma truncate_chars_maximal n cs c rest :
  cs = truncate_chars n cs ++ c :: rest → n < utf16_units (truncate_chars n cs) + len_utf16 c.
Proof.
  revert n. induction cs as [|d cs IH]; intros n; cbn [truncate_chars]; [done |].
  destruct (Z.ltb_spec n (len_utf16 d)); cbn [app].
  - intros [= <- <-]. by change (utf16_units []) with 0.
  - intros [= Hc]. apply IH in Hc. rewrite utf16_units_cons. lia.
Qed.

Lemma truncate_chars_Forall (P : Z → Prop) n cs : Forall P cs → Forall P (truncate_chars n cs).
Proof.
  intros Hcs. destruct (truncate_chars_prefix n cs) as [k Hk]. rewrite Hk in Hcs.
  by apply Forall_app in Hcs as [? _].
Qed.

(** ** The sanitizer *)

(** A character of a Windows file name. *)
Definition windows_char (c : Z) : Prop := is_forbidden c = false.

Lemma pop_dots_and_spaces_spec cs :
  pop_dots_and_spaces cs `prefix_of` cs
  ∧ ∀ c, last (pop_dots_and_spaces cs) = Some c → c ≠ 32 ∧ c ≠ 46.
Proof.
  unfold pop_dots_and_spaces. set (p := λ c, (c =? 32) || (c =? 46)).
  split.
  - pose proof (take_drop_while p (reverse cs)) as Htd.
    apply (f_equal reverse) in Htd. rewrite reverse_involutive, reverse_app in Htd.
    rewrite <- Htd at 2. by eexists.
  - intros c Hc. rewrite last_reverse in Hc.
    destruct (drop_while p (reverse cs)) as [|x k] eqn:Hd; [done |]. injection Hc as ->.
    apply drop_while_head in Hd. unfold p in Hd. by bool_to_prop.
Qed.

Lemma sanitize_chars_windows segment : Forall windows_char (sanitize_chars segment).
Proof.
  unfold sanitize_chars. apply truncate_chars_Forall.
  set (r0 := _ <$> segment).
  assert (Forall windows_char r0) as H0.
  { apply Forall_fmap, Forall_true. intros c. unfold windows_char. cbn.
    destruct (is_forbidden c) eqn:E; [by vm_compute | done]. }
  assert (Forall windows_char (pop_dots_and_spaces r0)) as H1.
  { destruct (pop_dots_and_spaces_spec r0) as [[k Hk] _]. rewrite Hk in H0.
    by apply Forall_app in H0 as [? _]. }
  set (r1 := if _ || _ then _ else _).
  assert (Forall windows_char r1) as H2.
  { unfold r1. case_match; [| done]. by repeat constructor. }
  case_match; [| done]. apply Forall_app. split; [done |]. by repeat constructor.
Qed.

(** The name before it is cut to 240 units. *)
Definition sanitized_whole (segment : list Z) : list Z :=
  let result := pop_dots_and_spaces ((λ c, if is_forbidden c then 95 else c) <$> segment) in
  let result :=
    if bool_decide (result = []) || (bool_decide (result = [46]) || bool_decide (result = [46; 46]))
    then bytes_of "untitled" else result in
  if is_windows_reserved_name result then result ++ [95] else result.

Lemma sanitized_whole_last segment :
  sanitized_whole segment ≠ []
  ∧ ∀ c, last (sanitized_whole segment) = Some c → c ≠ 32 ∧ c ≠ 46.
Proof.
  unfold sanitized_whole. set (r0 := _ <$> segment).
  destruct (pop_dots_and_spaces_spec r0) as [_ Hl]. set (p := pop_dots_and_spaces r0) in *.
  set (r1 := if _ || _ then _ else _).
  assert (r1 ≠ [] ∧ ∀ c, last r1 = Some c → c ≠ 32 ∧ c ≠ 46) as [H1 H2].
  { unfold r1. destruct (bool_decide (p = [])) eqn:Hp; cbn.
    { split; [done |]. by intros c [= <-]. }
    bool_to_prop. case_match; [split; [done |]; by intros c [= <-] | done]. }
  case_match; [| done]. split; [by destruct r1 |].
  intros c. rewrite last_snoc. by intros [= <-].
Qed.

Lemma utf16_units_prefix cs ds : cs `prefix_of` ds → utf16_units cs ≤ utf16_units ds.
Proof.
  intros [k ->]. rewrite utf16_units_app. pose proof (utf16_units_nonneg k). lia.
Qed.

Lemma utf16_units_replace cs :
  utf16_units ((λ c, if is_forbidden c then 95 else c) <$> cs) ≤ utf16_units cs.
Proof.
  induction cs as [|c cs IH]; [done |]. rewrite fmap_cons, !utf16_units_cons.
  assert (len_utf16 (if is_forbidden c then 95 else c) ≤ len_utf16 c).
  { case_match; [| done]. pose proof (len_utf16_bounds c).
    change (len_utf16 95) with 1. lia. }
  lia.
Qed.

Lemma sanitized_whole_units segment :
  utf16_units (sanitized_whole segment) ≤ Z.max 8 (utf16_units segment) + 1.
Proof.
  unfold sanitized_whole. set (r0 := _ <$> segment).
  assert (utf16_units (pop_dots_and_spaces r0) ≤ utf16_units segment) as H1.
  { etrans; [apply utf16_units_prefix, pop_dots_and_spaces_spec | apply utf16_units_replace]. }
  set (r1 := if _ || _ then _ else _).
  assert (utf16_units r1 ≤ Z.max 8 (utf16_units segment)) as H2.
  { assert (utf16_units (bytes_of "untitled") = 8) by done. unfold r1. case_match; lia. }
  case_match; [| lia]. rewrite utf16_units_app. change (utf16_units [95]) with 1. lia.
Qed.

Lemma sanitize_chars_safe segment :
  let name := sanitize_chars segment in
  name ≠ [] ∧ Forall windows_char name ∧ name ≠ [46] ∧ name ≠ [46; 46]
  ∧ utf16_units name ≤ 240
  ∧ (utf16_units segment ≤ 239 → ∀ c, last name = Some c → c ≠ 32 ∧ c ≠ 46).
Proof.
  cbv zeta. pose proof (sanitize_chars_windows segment) as Hw.
  change (sanitize_chars segment) with (truncate_chars 240 (sanitized_whole segment)) in *.
  destruct (sanitized_whole_last segment) as [Hne Hlast].
  pose proof (sanitized_whole_units segment) as Hu.
  set (w := sanitized_whole segment) in *.
  pose proof (truncate_chars_units 240 w ltac:(lia)) as Ht.
  destruct (decide (utf16_units w ≤ 240)) as [Hle|Hgt].
  - rewrite (truncate_chars_all 240 w Hle) in *. split_and!; try done.
    + intros Hw1. rewrite Hw1 in Hlast. by destruct (Hlast 46 eq_refl).
    + intros Hw1. rewrite Hw1 in Hlast. by destruct (Hlast 46 eq_refl).
  - assert (238 < utf16_units (truncate_chars 240 w)) as Hlong.
    { destruct (truncate_chars_prefix 240 w) as [[|c k] Hk].
      - rewrite app_nil_r in Hk. rewrite <- Hk in Ht. lia.
      - pose proof (truncate_chars_maximal 240 w c k Hk). pose proof (len_utf16_bounds c). lia. }
    split_and!; try done; try (intros Hx; rewrite Hx in Hlong; by vm_compute in Hlong).
    intros Hs. lia.
Qed.

(** The sanitizer. Whatever the phone names a file, the Windows name is not
    empty, has no character Windows forbids, no path separator or control, is
    neither dot nor dot-dot, has at most 240 UTF-16 units, and does not end in a
    dot or a space when the phone's name has at most 239 units. *)
Theorem sanitized_name_is_windows_safe segment :
  let name := sanitize_chars segment in
  name ≠ [] ∧ Forall windows_char name ∧ name ≠ [46] ∧ name ≠ [46; 46]
  ∧ utf16_units name ≤ 240
  ∧ (utf16_units segment ≤ 239 → ∀ c, last name = Some c → c ≠ 32 ∧ c ≠ 46).
Proof. apply sanitize_chars_safe. Qed.

(** The sanitizer keeps a reserved device name: the underscore is appended
    after the extension, so the name is still the device by the code's own test
    ([is_windows_reserved_name]), and it may end in a space once cut. *)
Theorem sanitizer_keeps_device_name :
  sanitize_windows_segment "CON.txt" = "CON.txt_"%string
  ∧ is_windows_reserved_name (bytes_of "CON.txt") = true
  ∧ is_windows_reserved_name (sanitize_chars (bytes_of "CON.txt")) = true
  ∧ last (sanitize_chars (replicate 239 97 ++ [32; 98])) = Some 32.
Proof. by vm_compute. Qed.

(** ** Wire paths stay below the batch directory *)

(** Path safety. A wire path that passes the check gives, sanitized, one
    Windows name per segment, at most 128 of them, each neither empty nor dot
    nor dot-dot and without separator: the file is below the batch directory. *)
Theorem sanitized_path_is_below path names :
  sanitize_windows_relative_path path = Ok names →
  0 < zlength names ≤ 128
  ∧ Forall (λ name, ∃ cs, name = of_chars cs ∧ Forall windows_char cs ∧ cs ≠ [] ∧ cs ≠ [46]
      ∧ cs ≠ [46; 46] ∧ utf16_units cs ≤ 240) names.
Proof.
  unfold sanitize_windows_relative_path, validate_relative_path.
  repeat (case_match; [done |]). cbn. intros [= <-]. split.
  - bool_to_prop. destruct (split_on_cons 47 (chars path)) as (p & ps & Hsplit).
    rewrite Hsplit in *. unfold zlength in *. rewrite length_fmap. cbn in *. lia.
  - apply Forall_fmap, Forall_true. intros segment. cbn. exists (sanitize_chars segment).
    destruct (sanitize_chars_safe segment) as (? & ? & ? & ? & ? & _). by split_and!.
Qed.

Lemma sanitized_path_is_below_witness :
  sanitize_windows_relative_path "a/b:c.txt" = Ok ["a"; "b_c.txt"]%string
  ∧ 0 < zlength ["a"; "b_c.txt"]%string ≤ 128.
Proof.
  split; [by vm_compute |].
  apply (sanitized_path_is_below "a/b:c.txt" ["a"; "b_c.txt"]%string). by vm_compute.
Defined.

(** ** Reserved names *)

Section reserved.
Context (to_lowercase : list Z → list Z).

(** The case mapping of [str::to_lowercase] at a space, a parenthesis or a
    digit: they are their own lower case, and no rule of the mapping looks
    across them. *)
Definition boundary (c : Z) : Prop := c ∈ [32; 40; 41] ∨ is_ascii_digit c = true.
Definition lowercase_boundary : Prop :=
  to_lowercase [] = []
  ∧ ∀ a c b, boundary c → to_lowercase (a ++ c :: b) = to_lowercase a ++ c :: to_lowercase b.
Context (Hlower : lowercase_boundary).

Lemma lowercase_boundaries ds : Forall boundary ds → to_lowercase ds = ds.
Proof.
  destruct Hlower as [Hnil Hb]. induction 1 as [|d ds Hd Hds IH]; [done |].
  pose proof (Hb [] d ds Hd) as E. cbn in E. by rewrite E, Hnil, IH.
Qed.

(** The extension kept behind the suffix. *)
Definition collision_parts (name : list Z) (directory : bool) : list Z * list Z :=
  if directory then (name, [])
  else match rsplit_once 46 name with
       | Some (stem, extension) =>
         if negb (bool_decide (stem = [])) then (stem, 46 :: extension) else (name, [])
       | None => (name, [])
       end.

Lemma collision_parts_app name directory :
  (collision_parts name directory).1 ++ (collision_parts name directory).2 = name.
Proof.
  unfold collision_parts. destruct directory; [by rewrite app_nil_r |].
  destruct (rsplit_once 46 name) as [[a b]|] eqn:E; [| by rewrite app_nil_r].
  case_match; [| by rewrite app_nil_r]. by apply rsplit_once_Some in E as [-> _].
Qed.

Definition collision_units (number : Z) : Z := 3 + zlength (decimal number).

Lemma digits_units ds : Forall (λ b, is_ascii_digit b = true) ds → utf16_units ds = zlength ds.
Proof.
  induction 1 as [|d ds Hd Hds IH]; [done |]. rewrite utf16_units_cons, zlength_cons, IH.
  unfold is_ascii_digit in Hd. bool_to_prop. unfold len_utf16.
  rewrite (proj2 (Z.ltb_lt _ _)) by lia. lia.
Qed.

Lemma append_collision_suffix_eq name number directory : 0 ≤ number < 10 ^ 20 →
  ∃ stem, append_collision_suffix name number directory
    = stem ++ [32; 40] ++ decimal number ++ 41 :: (collision_parts name directory).2
    ∧ utf16_units (append_collision_suffix name number directory)
      ≤ Z.max 240 (collision_units number + utf16_units (collision_parts name directory).2).
Proof.
  intros Hn. unfold append_collision_suffix. fold (collision_parts name directory).
  destruct (collision_parts name directory) as [stem ext]. cbn [fst snd].
  set (suffix := bytes_of " (" ++ decimal number ++ bytes_of ")"). exists (truncate_chars (saturating_sub 240 (utf16_units suffix + utf16_units ext)) stem).
  assert (utf16_units suffix = collision_units number) as Hs.
  { unfold suffix.
    rewrite !utf16_units_app, (digits_units (decimal number)) by apply (decimal_spec number Hn).
    unfold collision_units. change (utf16_units (bytes_of " (")) with 2.
    change (utf16_units (bytes_of ")")) with 1. lia. }
  split; [unfold suffix; rewrite <- !app_assoc; done |].
  rewrite !utf16_units_app, Hs.
  pose proof (truncate_chars_units (saturating_sub 240 (collision_units number + utf16_units ext))
    stem) as Ht. unfold saturating_sub in *. lia.
Qed.

Lemma digits_no_sep x ds :
  is_ascii_digit x = false → Forall (λ b, is_ascii_digit b = true) ds → x ∉ ds.
Proof. intros Hx Hds Hin. rewrite Forall_forall in Hds. specialize (Hds x Hin). congruence. Qed.

(** Different numbers give names different without regard to case. *)
Lemma collision_suffix_inj name directory n m :
  0 ≤ n < 10 ^ 20 → 0 ≤ m < 10 ^ 20 →
  to_lowercase (append_collision_suffix name n directory)
  = to_lowercase (append_collision_suffix name m directory) → n = m.
Proof.
  intros Hn Hm. destruct Hlower as [_ Hb].
  assert (∀ k, 0 ≤ k < 10 ^ 20 → ∃ a,
    to_lowercase (append_collision_suffix name k directory)
    = (a ++ 40 :: decimal k) ++ 41 :: to_lowercase (collision_parts name directory).2) as Hk.
  { intros k Hk. destruct (append_collision_suffix_eq name k directory Hk) as (stem & -> & _).
    exists (to_lowercase (stem ++ [32])).
    replace (stem ++ [32; 40] ++ decimal k ++ 41 :: (collision_parts name directory).2)
      with (((stem ++ [32]) ++ 40 :: decimal k) ++ 41 :: (collision_parts name directory).2)
      by (by rewrite <- !app_assoc).
    rewrite Hb by (left; set_solver). rewrite Hb by (left; set_solver).
    rewrite (lowercase_boundaries (decimal k)); [done |].
    eapply Forall_impl; [apply (decimal_spec k Hk) | by right]. }
  destruct (Hk n Hn) as [a ->]. destruct (Hk m Hm) as [c ->]. intros Heq.
  apply app_inj_2 in Heq as [Heq _]; [| done].
  apply last_sep_inj in Heq.
  - by apply decimal_inj.
  - by apply digits_no_sep; [| apply (decimal_spec n Hn)].
  - by apply digits_no_sep; [| apply (decimal_spec m Hm)].
Qed.

Lemma reserve_suffix_spec fuel used base k directory name used' :
  reserve_suffix to_lowercase fuel used base k directory = Some (name, used') →
  to_lowercase name ∉ used ∧ used' = {[ to_lowercase name ]} ∪ used
  ∧ ∃ n, k ≤ n < k + Z.of_nat fuel ∧ name = append_collision_suffix base n directory.
Proof.
  revert k. induction fuel as [|fuel IH]; intros k; cbn [reserve_suffix]; [done |].
  case_bool_decide as Hin.
  - intros Hr. apply IH in Hr as (? & ? & n & ? & ?). split_and!; [done.. |]. exists n. split; [lia | done].
  - intros [= <- <-]. split_and!; [done.. |]. exists k. split; [lia | done].
Qed.

(** If every suffix is taken, the set has as many names. *)
Lemma reserve_suffix_None fuel used base k directory :
  0 ≤ k → k + Z.of_nat fuel ≤ 10 ^ 20 →
  reserve_suffix to_lowercase fuel used base k directory = None → (fuel ≤ size used)%nat.
Proof.
  intros H0 Hmax Hnone.
  set (names := (λ i, to_lowercase (append_collision_suffix base (k + Z.of_nat i) directory)) <$> seq 0 fuel).
  assert (∀ i, (i < fuel)%nat →
    to_lowercase (append_collision_suffix base (k + Z.of_nat i) directory) ∈ used) as Hin.
  { clear names. revert k H0 Hmax Hnone. induction fuel as [|fuel IH]; intros k H0 Hmax; [lia |].
    cbn [reserve_suffix]. case_bool_decide as Hk; [| done]. intros Hnone [|i] Hi.
    - by rewrite Z.add_0_r.
    - replace (k + Z.of_nat (S i)) with (k + 1 + Z.of_nat i) by lia.
      apply (IH (k + 1)); [lia | lia | done | lia]. }
  assert (NoDup names) as Hnd.
  { apply NoDup_fmap_2_strong; [| apply NoDup_seq].
    intros i j Hi Hj Heq. rewrite elem_of_seq in Hi, Hj.
    apply collision_suffix_inj in Heq; lia. }
  assert (list_to_set names ⊆ used) as Hsub.
  { intros x Hx. rewrite elem_of_list_to_set in Hx. unfold names in Hx.
    apply list_elem_of_fmap in Hx as (i & -> & Hi). rewrite elem_of_seq in Hi. apply Hin. lia. }
  apply subseteq_size in Hsub. rewrite size_list_to_set in Hsub by done.
  unfold names in Hsub. by rewrite length_fmap, length_seq in Hsub.
Qed.

Lemma reserve_spec fuel used desired directory :
  (size used < fuel)%nat → Z.of_nat fuel < 2 ^ 32 →
  ∃ name, reserve to_lowercase fuel used desired directory
            = Some (name, {[ to_lowercase name ]} ∪ used)
    ∧ to_lowercase name ∉ used
    ∧ utf16_units name ≤ 253
    ∧ (to_lowercase (sanitize_chars desired) ∉ used → name = sanitize_chars desired).
Proof.
  intros Hfuel Hmax. unfold reserve. set (base := sanitize_chars desired).
  destruct (sanitize_chars_safe desired) as (_ & _ & _ & _ & Hu & _). fold base in Hu.
  case_bool_decide as Hin.
  2: { exists base. split_and!; [done | done | lia | done]. }
  destruct (reserve_suffix _ _ _ _ _ _) as [[name used']|] eqn:Hr.
  - apply reserve_suffix_spec in Hr as (Hnot & -> & n & Hn & ->).
    assert (n < 10 ^ 10) as Hn10 by lia.
    destruct (append_collision_suffix_eq base n directory ltac:(lia)) as (_ & _ & Hun).
    assert (utf16_units (collision_parts base directory).2 ≤ utf16_units base).
    { rewrite <- (collision_parts_app base directory) at 2. rewrite utf16_units_app.
      pose proof (utf16_units_nonneg (collision_parts base directory).1). lia. }
    destruct (decimal_spec n ltac:(lia)) as (_ & _ & Hl).
    specialize (Hl 10 ltac:(lia) Hn10). unfold collision_units in Hun.
    eexists. split_and!; [done | done | lia | done].
  - apply reserve_suffix_None in Hr; [lia | lia | lia].
Qed.
(** Name reservation. Given more tries than names already used (and fewer
    than 2^32), a name is always found; its lower case was not used before and
    is from then on; it has at most 253 UTF-16 units, within the 255 of NTFS;
    and it is the sanitized name unless that was taken. *)
Theorem reserve_fresh fuel used desired directory :
  (size used < fuel)%nat → Z.of_nat fuel < 2 ^ 32 →
  ∃ name, reserve to_lowercase fuel used desired directory
            = Some (name, {[ to_lowercase name ]} ∪ used)
    ∧ to_lowercase name ∉ used
    ∧ utf16_units name ≤ 253
    ∧ (to_lowercase (sanitize_chars desired) ∉ used → name = sanitize_chars desired).
Proof. apply reserve_spec. Qed.
End reserved.

(** A case mapping of ASCII letters only. *)
Definition ascii_lowercase (cs : list Z) : list Z := to_ascii_lowercase <$> cs.

Lemma ascii_lowercase_boundary : lowercase_boundary ascii_lowercase.
Proof.
  split; [done |]. intros a c b Hc. unfold ascii_lowercase. rewrite fmap_app, fmap_cons.
  replace (to_ascii_lowercase c) with c; [done |]. unfold to_ascii_lowercase, is_ascii_uppercase.
  destruct Hc as [Hc|Hc]; [set_unfold in Hc; destruct_or! Hc; by subst |].
  unfold is_ascii_digit in Hc. bool_to_prop.
  by rewrite (proj2 (Z.leb_gt 65 c)) by lia.
Qed.

Lemma reserve_fresh_witness :
  let used := WindowsNameReservation_new ascii_lowercase [bytes_of "Report.txt"] in
  fst <$> reserve ascii_lowercase 3 used (bytes_of "report.txt") false
  = Some (bytes_of "report (1).txt")
  ∧ ∃ name, reserve ascii_lowercase 3 used (bytes_of "report.txt") false
              = Some (name, {[ ascii_lowercase name ]} ∪ used)
    ∧ ascii_lowercase name ∉ used ∧ utf16_units name ≤ 253
    ∧ (ascii_lowercase (sanitize_chars (bytes_of "report.txt")) ∉ used →
       name = sanitize_chars (bytes_of "report.txt")).
Proof.
  split; [by vm_compute |].
  apply (reserve_fresh ascii_lowercase ascii_lowercase_boundary 3); [apply Nat.ltb_lt; by vm_compute | done].
Defined.
