(* ===== verification/FileCore.v ===== *)
(** * The file transfer protocol

    [flowtype-core/src/file_transfer.rs]: the messages of a transfer, the state
    machine of a batch, and the checks on what the phone sends. *)

From S2P Require Import Prelude Text Protocol FileNames.

(** [core/file_transfer.rs:7-7 FILE_TRANSFER_VERSION] *)
Definition FILE_TRANSFER_VERSION : Z := 2.
Definition MAX_PHONE_ID_BYTES : Z := 128.
Definition MAX_BATCH_ID_BYTES : Z := 64.
Definition MAX_ENTRY_ID_BYTES : Z := 64.
Definition MAX_ROOT_SUMMARIES : Z := 8.
Definition MAX_ROOT_SUMMARY_BYTES : Z := 255.
Definition MAX_MANIFEST_LINE_BYTES : Z := 16 * 1024.
Definition MIN_TICKET_BYTES : Z := 32.
Definition MAX_TICKET_TEXT_BYTES : Z := 128.
(** [core/file_transfer.rs:8-17 MAX_WIRE_INTEGER] *)
Definition MAX_WIRE_INTEGER : Z := I64_MAX.

(** [core/file_transfer.rs TransferDirection] *)
Inductive TransferDirection := PhoneToComputer | ComputerToPhone.
#[export] Instance TransferDirection_eq_dec : EqDecision TransferDirection.
Proof. solve_decision. Defined.

(** [core/file_transfer.rs EntryKind] *)
Inductive EntryKind := File | Directory.
#[export] Instance EntryKind_eq_dec : EqDecision EntryKind.
Proof. solve_decision. Defined.

(** [core/file_transfer.rs BatchState] *)
Inductive BatchState :=
| WaitingConfirmation | Queued | Preparing | Transferring | WaitingNetwork
| NeedsReselection | Completed | PartialFailure | Canceled.
#[export] Instance BatchState_eq_dec : EqDecision BatchState.
Proof. solve_decision. Defined.

(** [core/file_transfer.rs BatchState::is_terminal] *)
Definition is_terminal (self : BatchState) : bool :=
  match self with Completed | PartialFailure | Canceled => true | _ => false end.

(** [core/file_transfer.rs BatchState::can_transition_to] *)
Definition can_transition_to (self next : BatchState) : bool :=
  if bool_decide (self = next) then true
  else
    match self with
    | WaitingConfirmation => match next with Queued | Canceled => true | _ => false end
    | Queued => match next with Preparing | WaitingNetwork | Canceled => true | _ => false end
    | Preparing =>
      match next with
      | Transferring | WaitingNetwork | NeedsReselection | PartialFailure | Canceled => true
      | _ => false
      end
    | Transferring =>
      match next with
      | WaitingNetwork | NeedsReselection | Completed | PartialFailure | Canceled => true
      | _ => false
      end
    | WaitingNetwork =>
      match next with
      | Preparing | Transferring | NeedsReselection | Canceled => true
      | _ => false
      end
    | NeedsReselection => match next with Preparing | Canceled => true | _ => false end
    | Completed | PartialFailure | Canceled => false
    end.

(** [core/file_transfer.rs EntryState] *)
Inductive EntryState :=
| EPending | ETransferring | EWaitingNetwork | ENeedsReselection | ECompleted | EFailed | ECanceled.
#[export] Instance EntryState_eq_dec : EqDecision EntryState.
Proof. solve_decision. Defined.

(** [core/file_transfer.rs EntryState::try_from] *)
Definition EntryState_try_from (value : Z) : result FileValidationError EntryState :=
  match value with
  | 0 => Ok EPending
  | 1 => Ok ETransferring
  | 2 => Ok EWaitingNetwork
  | 3 => Ok ENeedsReselection
  | 4 => Ok ECompleted
  | 5 => Ok EFailed
  | 6 => Ok ECanceled
  | _ => Err InvalidEntry
  end.

(** [state as u8], the discriminant of a [repr(u8)] enum. *)
Definition EntryState_as_u8 (self : EntryState) : Z :=
  match self with
  | EPending => 0 | ETransferring => 1 | EWaitingNetwork => 2 | ENeedsReselection => 3
  | ECompleted => 4 | EFailed => 5 | ECanceled => 6
  end.

(** [core/file_transfer.rs FileOffer] *)
Record FileOffer := mkFileOffer {
  fo_protocol_version : Z;
  fo_transfer_version : Z;
  fo_phone_id : string;
  fo_batch_id : string;
  fo_direction : TransferDirection;
  fo_file_count : Z;
  fo_directory_count : Z;
  fo_total_bytes : Z;
  fo_roots : list string;
}.

(** [core/file_transfer.rs FileDecision] *)
Record FileDecision := mkFileDecision {
  fd_protocol_version : Z;
  fd_transfer_version : Z;
  fd_batch_id : string;
  fd_accepted : bool;
}.

(** [core/file_transfer.rs FileTicket] *)
Record FileTicket := mkFileTicket {
  ft_protocol_version : Z;
  ft_transfer_version : Z;
  ft_batch_id : string;
  ft_data_port : Z;
  ft_token : string;
  ft_expires_at_epoch_seconds : Z;
}.

(** [core/file_transfer.rs FileCancel] *)
Record FileCancel := mkFileCancel {
  fc_protocol_version : Z;
  fc_transfer_version : Z;
  fc_batch_id : string;
}.

(** [core/file_transfer.rs ManifestEntry] *)
Record ManifestEntry := mkManifestEntry {
  me_ordinal : Z;
  me_entry_id : string;
  me_relative_path : string;
  me_kind : EntryKind;
  me_size : Z;
  me_modified_at_epoch_millis : option Z;
  me_mime_type : option string;
  me_sha256 : option string;
}.

(** [core/file_transfer.rs ResumeEntry] *)
Record ResumeEntry := mkResumeEntry {
  re_entry_id : string;
  re_committed_offset : Z;
  re_state : EntryState;
}.

(** [core/file_transfer.rs FileClientMessage] *)
Inductive FileClientMessage :=
| CmFileOffer (offer : FileOffer)
| CmFileDecision (decision : FileDecision)
| CmFileCancel (cancel : FileCancel).

(** [core/file_transfer.rs FileServerMessage] *)
Inductive FileServerMessage :=
| SmFileOffer (offer : FileOffer)
| SmFileTicket (ticket : FileTicket)
| SmFileResult (batch_id : string) (state : BatchState)
| SmFileError (batch_id : string) (code : string).

(** ** Checks *)

(** [core/file_transfer.rs valid_identifier] *)
Definition valid_identifier (value : string) (max_bytes : Z) : bool :=
  negb (str_is_empty value) && (str_len value <=? max_bytes)
  && forallb (λ b, is_ascii_alphanumeric b || ((b =? 45) || (b =? 95))) (bytes_of value).

(** [core/file_transfer.rs valid_sha256] *)
Definition valid_sha256 (value : string) : bool :=
  (str_len value =? 64) && forallb is_ascii_hexdigit (bytes_of value).

(** [core/file_transfer.rs base64_url_decoded_len] The subtraction is on [usize]
    and wraps, as in the release build. *)
Definition base64_url_decoded_len (value : string) : option Z :=
  let bytes := bytes_of value in
  if str_is_empty value
     || existsb (λ b, negb (is_ascii_alphanumeric b || ((b =? 45) || (b =? 95) || (b =? 61)))) bytes
  then None
  else
    let padding := zlength (take_while (λ b, b =? 61) (reverse bytes)) in
    if (2 <? padding)
       || bool_decide (61 ∈ take (Z.to_nat (saturating_sub (str_len value) padding)) bytes)
    then None
    else Some (wrap64 (Z.min (str_len value * 3) U64_MAX / 4 - padding)).

(** [core/file_transfer.rs validate_versions] *)
Definition validate_versions (protocol_version transfer_version : Z)
    : result FileValidationError unit :=
  if negb (protocol_version =? PROTOCOL_VERSION)
     || negb (transfer_version =? FILE_TRANSFER_VERSION)
  then Err UnsupportedProtocol else Ok tt.

(** [core/file_transfer.rs validate_batch_id] *)
Definition validate_batch_id (value : string) : result FileValidationError unit :=
  if valid_identifier value MAX_BATCH_ID_BYTES then Ok tt else Err InvalidFileIdentifier.

(** [core/file_transfer.rs FileOffer::validate] *)
Definition FileOffer_validate (self : FileOffer) (authenticated_phone_id : string)
    : result FileValidationError unit :=
  _ ← validate_versions (fo_protocol_version self) (fo_transfer_version self);
  if negb (bool_decide (fo_phone_id self = authenticated_phone_id))
     || negb (valid_identifier (fo_phone_id self) MAX_PHONE_ID_BYTES)
     || negb (valid_identifier (fo_batch_id self) MAX_BATCH_ID_BYTES)
     || ((fo_file_count self =? 0) && (fo_directory_count self =? 0))
     || (MAX_WIRE_INTEGER <? fo_file_count self)
     || (MAX_WIRE_INTEGER <? fo_directory_count self)
     || (MAX_WIRE_INTEGER <? fo_total_bytes self)
     || (MAX_ROOT_SUMMARIES <? zlength (fo_roots self))
     || existsb (λ root, str_is_empty root || (MAX_ROOT_SUMMARY_BYTES <? str_len root)
                         || existsb is_control (chars root)) (fo_roots self)
  then Err InvalidSummary
  else Ok tt.

(** [core/file_transfer.rs FileDecision::validate] *)
Definition FileDecision_validate (self : FileDecision) : result FileValidationError unit :=
  _ ← validate_versions (fd_protocol_version self) (fd_transfer_version self);
  validate_batch_id (fd_batch_id self).

(** [core/file_transfer.rs FileTicket::validate] *)
Definition FileTicket_validate (self : FileTicket) (now_epoch_seconds : Z)
    : result FileValidationError unit :=
  _ ← validate_versions (ft_protocol_version self) (ft_transfer_version self);
  _ ← validate_batch_id (ft_batch_id self);
  decoded_len ← ok_or (base64_url_decoded_len (ft_token self)) InvalidTicket;
  if (ft_data_port self =? 0) || (decoded_len <? MIN_TICKET_BYTES)
     || (MAX_TICKET_TEXT_BYTES <? str_len (ft_token self))
     || (MAX_WIRE_INTEGER <? ft_expires_at_epoch_seconds self)
     || (ft_expires_at_epoch_seconds self <=? now_epoch_seconds)
  then Err InvalidTicket
  else Ok tt.

(** [core/file_transfer.rs FileCancel::validate] *)
Definition FileCancel_validate (self : FileCancel) : result FileValidationError unit :=
  _ ← validate_versions (fc_protocol_version self) (fc_transfer_version self);
  validate_batch_id (fc_batch_id self).

(** [core/file_transfer.rs ResumeEntry::validate] *)
Definition ResumeEntry_validate (self : ResumeEntry) (expected_size : Z)
    : result FileValidationError unit :=
  if (MAX_WIRE_INTEGER <? re_committed_offset self) || (MAX_WIRE_INTEGER <? expected_size)
     || negb (valid_identifier (re_entry_id self) MAX_ENTRY_ID_BYTES)
     || (expected_size <? re_committed_offset self)
     || (bool_decide (re_state self = ECompleted) && negb (re_committed_offset self =? expected_size))
  then Err InvalidEntry
  else Ok tt.

Section manifest.
(** The JSON line of an entry (serde_json). *)
Context (to_json : ManifestEntry → option (list Z)).

(** [core/file_transfer.rs ManifestEntry::validate] *)
Definition ManifestEntry_validate (self : ManifestEntry) : result FileValidationError unit :=
  if (MAX_WIRE_INTEGER <? me_ordinal self) || (MAX_WIRE_INTEGER <? me_size self)
     || negb (valid_identifier (me_entry_id self) MAX_ENTRY_ID_BYTES)
  then Err InvalidFileIdentifier
  else
    _ ← validate_relative_path (me_relative_path self);
    if bool_decide (me_kind self = Directory) && negb (me_size self =? 0) then Err InvalidEntry
    else if match me_mime_type self with
            | Some mime => str_is_empty mime || (255 <? str_len mime) || existsb is_control (chars mime)
            | None => false
            end then Err InvalidEntry
    else if match me_sha256 self with Some hash => negb (valid_sha256 hash) | None => false end
    then Err InvalidHash
    else
      line ← ok_or (to_json self) InvalidEntry;
      if MAX_MANIFEST_LINE_BYTES <? zlength line then Err ManifestLineTooLarge else Ok tt.
End manifest.

(** ** The life of a batch *)

Definition batch_step (s t : BatchState) : Prop := can_transition_to s t = true.

(** Batch life cycle. A batch that is completed, partly failed or canceled
    stays so for ever; one that is not can always be canceled; nothing returns to
    waiting for confirmation; and only a batch that is transferring completes. *)
Theorem batch_life_cycle s t :
  star batch_step s t →
  (is_terminal s = true → t = s)
  ∧ (is_terminal t = false → batch_step t Canceled)
  ∧ (t = WaitingConfirmation → s = WaitingConfirmation)
  ∧ (∀ u, batch_step t u → u = Completed → t = Transferring ∨ t = Completed).
Proof.
  intros Hr. split_and!.
  - intros Hs. refine (star_invariant batch_step (λ x, x = s) _ s t Hr eq_refl).
    intros x y -> Hxy. unfold batch_step, can_transition_to in Hxy.
    case_bool_decide; [done |]. by destruct s.
  - by destruct t.
  - induction Hr as [x|x y z Hxy Hyz IH]; [done |]. intros ->. specialize (IH eq_refl). subst y.
    unfold batch_step, can_transition_to in Hxy. case_bool_decide; [done |]. by destruct x.
  - intros u Hu ->. unfold batch_step, can_transition_to in Hu.
    case_bool_decide; [by right |]. destruct t; auto; done.
Qed.

Lemma batch_life_cycle_witness :
  star batch_step Queued Completed ∧ (is_terminal Queued = true → Completed = Queued)
  ∧ (is_terminal Completed = false → batch_step Completed Canceled)
  ∧ (Completed = WaitingConfirmation → Queued = WaitingConfirmation)
  ∧ (∀ u, batch_step Completed u → u = Completed → Completed = Transferring ∨ Completed = Completed).
Proof.
  assert (star batch_step Queued Completed) as Hr.
  { apply (star_step _ _ Preparing); [done |]. apply (star_step _ _ Transferring); [done |].
    apply (star_step _ _ Completed); [done | apply star_refl]. }
  split; [exact Hr | apply (batch_life_cycle Queued Completed Hr)].
Defined.

(** The state byte of an entry reads back as the state, and no other byte is
    read as a state. *)
Theorem entry_state_roundtrip value state :
  EntryState_try_from value = Ok state ↔ value = EntryState_as_u8 state.
Proof.
  split; [| intros ->; by destruct state].
  unfold EntryState_try_from. repeat (case_match; try done); by intros [= <-].
Qed.

(** ** Identifiers *)

(** A byte of an identifier: it is no separator, dot, space or control. *)
Definition identifier_byte (b : Z) : Prop :=
  is_ascii_alphanumeric b = true ∨ b = 45 ∨ b = 95.

Lemma valid_identifier_spec value max_bytes :
  valid_identifier value max_bytes = true ↔
  value ≠ EmptyString ∧ str_len value ≤ max_bytes ∧ Forall identifier_byte (bytes_of value).
Proof.
  unfold valid_identifier. rewrite !andb_true_iff, negb_true_iff, str_is_empty_false, Z.leb_le.
  rewrite forallb_forall, Forall_forall. unfold identifier_byte.
  assert (∀ b, is_ascii_alphanumeric b || ((b =? 45) || (b =? 95)) = true ↔
    is_ascii_alphanumeric b = true ∨ b = 45 ∨ b = 95) as Hb
    by (intros b; by rewrite !orb_true_iff, !Z.eqb_eq).
  split.
  - intros [[? ?] Hall]. split_and!; [done.. |]. intros b Hin. by apply Hb, Hall, list_elem_of_In.
  - intros (? & ? & Hall). split_and!; [done.. |]. intros b Hin. by apply Hb, Hall, list_elem_of_In.
Qed.

(** What a valid offer says. *)
Definition offer_ok (o : FileOffer) (phone : string) : Prop :=
  fo_protocol_version o = PROTOCOL_VERSION ∧ fo_transfer_version o = FILE_TRANSFER_VERSION
  ∧ fo_phone_id o = phone
  ∧ (phone ≠ EmptyString ∧ str_len phone ≤ 128 ∧ Forall identifier_byte (bytes_of phone))
  ∧ (fo_batch_id o ≠ EmptyString ∧ str_len (fo_batch_id o) ≤ 64
     ∧ Forall identifier_byte (bytes_of (fo_batch_id o)))
  ∧ ¬ (fo_file_count o = 0 ∧ fo_directory_count o = 0)
  ∧ fo_file_count o ≤ I64_MAX ∧ fo_directory_count o ≤ I64_MAX ∧ fo_total_bytes o ≤ I64_MAX
  ∧ zlength (fo_roots o) ≤ 8
  ∧ Forall (λ root, root ≠ EmptyString ∧ str_len root ≤ 255
                    ∧ Forall (λ c, is_control c = false) (chars root)) (fo_roots o).

Lemma existsb_false_Forall {A} (p : A → bool) l :
  existsb p l = false ↔ Forall (λ x, p x = false) l.
Proof.
  induction l as [|x l IH]; cbn; [by split |].
  rewrite orb_false_iff, Forall_cons, IH. done.
Qed.

(** A file offer is accepted exactly when it is of the supported versions,
    names the authenticated phone, has identifiers usable as path components,
    counts that fit the phone's signed integers, something to transfer, and at
    most eight printable root names. *)
Theorem offer_validate_spec o phone : FileOffer_validate o phone = Ok tt ↔ offer_ok o phone.
Proof.
  unfold FileOffer_validate, validate_versions, offer_ok, MAX_WIRE_INTEGER.
  rewrite result_bind_Ok. split.
  - intros (u & Hv & Ho). destruct (negb _ || negb _) eqn:Hver in Hv; [done |].
    destruct (_ || _) eqn:Hall in Ho; [done |].
    apply orb_false_iff in Hver as [Hv1 Hv2].
    apply orb_false_iff in Hall as [Hall H9]. apply orb_false_iff in Hall as [Hall H8].
    apply orb_false_iff in Hall as [Hall H7]. apply orb_false_iff in Hall as [Hall H6].
    apply orb_false_iff in Hall as [Hall H5]. apply orb_false_iff in Hall as [Hall H4].
    apply orb_false_iff in Hall as [Hall H3]. apply orb_false_iff in Hall as [H1 H2].
    bool_to_prop. subst phone.
    apply valid_identifier_spec in H2, H3.
    apply existsb_false_Forall in H9. split_and!; try done; try apply H2; try apply H3.
    { intros [Hf Hd]. rewrite Hf, Hd in H4. by destruct H4. }
    eapply Forall_impl; [exact H9 |]. cbn. intros root Hr. rewrite !orb_false_iff in Hr.
    destruct Hr as [[Hr1 Hr2] Hr3]. apply str_is_empty_false in Hr1. bool_to_prop.
    apply existsb_false_Forall in Hr3. done.
  - intros (H1 & H2 & H3 & H4 & H5 & H6 & H7 & H8 & H9 & H10 & H11). exists tt.
    rewrite H1, H2. split; [done |].
    subst phone. apply valid_identifier_spec in H4, H5.
    rewrite bool_decide_eq_true_2 by done.
    change MAX_PHONE_ID_BYTES with 128. change MAX_BATCH_ID_BYTES with 64. rewrite H4, H5. cbn.
    rewrite !(proj2 (Z.ltb_ge _ _)) by done.
    destruct ((fo_file_count o =? 0) && (fo_directory_count o =? 0)) eqn:E;
      [bool_to_prop; tauto |]. cbn.
    match goal with |- (if existsb ?p ?l then _ else _) = _ => assert (existsb p l = false) as -> end; [| done].
    apply existsb_false_Forall. eapply Forall_impl; [exact H11 |]. cbn.
    intros root (Hr1 & Hr2 & Hr3). apply str_is_empty_false in Hr1. rewrite Hr1.
    rewrite (proj2 (Z.ltb_ge _ _)) by done. by apply existsb_false_Forall.
Qed.

(** A ticket of padding alone is accepted: the decoded length of "=" wraps
    below zero to more than the required 32 bytes. *)
Theorem padding_ticket_is_accepted :
  base64_url_decoded_len "=" = Some U64_MAX
  ∧ FileTicket_validate (mkFileTicket 2 2 "b" 32188 "=" 200) 100 = Ok tt.
Proof. by vm_compute. Qed.
