(* ===== verification/Dispatcher.v ===== *)
(** * The app's side of the injector pipe

    [flowtype-app/src/injector.rs]: opening and checking the pipe; and
    [injector_dispatcher.rs]: one request at a time, with a recovery when the
    pipe fails: what may be sent again, and what may be reported from the
    injector's state after the interruption. *)

From S2P Require Import Prelude Text Protocol Ipc.

(** [app/injector.rs InjectorClient] The pipe is its handle. *)
Record InjectorClient := mkClient {
  ic_pipe : Z;
  ic_instance_id : string;
}.

(** What the app uses of the system. [pipe_request] writes a request and waits
    for the response ([None] is an I/O error or a timeout). *)
Class AppPipe (W : Type) := {
  open_pipe : W → W * option Z;
  pipe_request : W → Z → InjectorRequest → W * option InjectorResponse;
  server_process_path : W → Z → option string;
  injector_path : W → option string;
  dev_injector_enabled : W → bool;
  run_injector_task : W → W * bool;
  clock_ms : W → Z;
  sleep_ms : W → Z → W;
  (* time only goes forward, and sleeping takes the time asked for *)
  open_clock : ∀ w, clock_ms w ≤ clock_ms (open_pipe w).1;
  request_clock : ∀ w p r, clock_ms w ≤ clock_ms (pipe_request w p r).1;
  sleep_clock : ∀ w d, clock_ms w + d ≤ clock_ms (sleep_ms w d);
}.

(** [app/injector.rs same_path] *)
Definition same_path (actual expected : string) : bool := eq_ignore_ascii_case actual expected.

(** [app/injector.rs:19-21 CONNECT_TIMEOUT] in milliseconds. *)
Definition CONNECT_TIMEOUT : Z := 5000.

Section client.
Context {W : Type} `{AppPipe W}.

(** [app/injector.rs open_verified_pipe] *)
Definition open_verified_pipe (w : W) : W * option InjectorClient :=
  match open_pipe w with
  | (w, None) => (w, None)
  | (w, Some pipe) =>
    match server_process_path w pipe with
    | None => (w, None)
    | Some server_path =>
      match pipe_request w pipe ReqHello with
      | (w, Some (RespHello ipc_version instance_id executable_path elevated)) =>
        match injector_path w with
        | None => (w, None)
        | Some expected =>
          if negb (ipc_version =? INJECTOR_IPC_VERSION) || negb (same_path server_path expected)
             || negb (same_path executable_path expected) then (w, None)
          else if negb (dev_injector_enabled w) && negb elevated then (w, None)
          else if str_is_empty instance_id then (w, None)
          else (w, Some (mkClient pipe instance_id))
        end
      | (w, _) => (w, None)
      end
    end
  end.

(** The waiting loop of [connect]; the outer [None] is out of fuel. *)
Fixpoint connect_loop (fuel : nat) (deadline : Z) (w : W) : option (W * option InjectorClient) :=
  match fuel with
  | O => None
  | S fuel =>
    if clock_ms w <? deadline then
      match open_verified_pipe w with
      | (w, Some client) => Some (w, Some client)
      | (w, None) => connect_loop fuel deadline (sleep_ms w 100)
      end
    else Some (w, None)
  end.

(** More rounds of 100 ms than the timeout holds. *)
Definition CONNECT_FUEL : nat := 51.

(** [app/injector.rs InjectorClient::connect] *)
Definition connect (w : W) : W * option InjectorClient :=
  match open_verified_pipe w with
  | (w, Some client) => (w, Some client)
  | (w, None) =>
    let '(w, started) := run_injector_task w in
    if negb started then (w, None)
    else default (w, None) (connect_loop CONNECT_FUEL (clock_ms w + CONNECT_TIMEOUT) w)
  end.

(** [app/injector.rs InjectorClient::request] *)
Definition client_request (client : InjectorClient) (request : InjectorRequest) (w : W)
    : W * option InjectorResponse :=
  pipe_request w (ic_pipe client) request.
End client.

(** ** The dispatcher *)

(** [app/injector_dispatcher.rs InjectorRequestFailure] *)
Inductive InjectorRequestFailure := FailureUnavailable | FailureRecoveryRequired.
(** [app/injector_dispatcher.rs ReconcileFailure] *)
Inductive ReconcileFailure := ReconcileUnavailable | Unconfirmed.
(** [app/injector_dispatcher.rs ReconcileDecision] *)
Inductive ReconcileDecision := DecideApplied | DecideFinished | DecideRetry | DecideUnknown.

(** [app/injector_dispatcher.rs classify_apply_recovery] *)
Definition classify_apply_recovery (session_id : string) (sequence : Z) (full_text : string)
    (state : InjectorResponse) : ReconcileDecision :=
  match state with
  | SessionFinished finished_session finished_sequence finished_text =>
    if bool_decide (finished_session = session_id) && (finished_sequence =? sequence)
       && bool_decide (finished_text = full_text) then DecideFinished else DecideUnknown
  | SessionActive active_session active_sequence active_text =>
    if bool_decide (active_session = session_id) && (active_sequence =? sequence)
       && bool_decide (active_text = full_text) then DecideApplied
    else if bool_decide (active_session = session_id) && (active_sequence <? sequence)
    then DecideRetry else DecideUnknown
  | _ => DecideUnknown
  end.

(** [app/injector_dispatcher.rs classify_finish_recovery] *)
Definition classify_finish_recovery (session_id : string) (sequence : Z)
    (state : InjectorResponse) : ReconcileDecision :=
  match state with
  | SessionFinished finished_session finished_sequence _ =>
    if bool_decide (finished_session = session_id) && (finished_sequence =? sequence)
    then DecideFinished else DecideUnknown
  | SessionActive active_session active_sequence _ =>
    if bool_decide (active_session = session_id) && (active_sequence =? sequence)
    then DecideRetry else DecideUnknown
  | _ => DecideUnknown
  end.

Section dispatcher.
Context {W : Type} `{AppPipe W}.

(** [app/injector_dispatcher.rs InjectorDispatcher] The semaphore admits one
    request at a time. The exchanges made are recorded; nothing reads them. *)
Record InjectorDispatcher := mkDispatcher {
  id_world : W;
  id_client : option InjectorClient;
  id_log : list (InjectorClient * InjectorRequest * option InjectorResponse);
}.

(** One request on a client's pipe. *)
Definition exchange (client : InjectorClient) (request : InjectorRequest) (d : InjectorDispatcher)
    : option InjectorResponse * InjectorDispatcher :=
  let '(w, response) := client_request client request (id_world d) in
  (response, mkDispatcher w (id_client d) (id_log d ++ [(client, request, response)])).

Definition set_client (c : option InjectorClient) (d : InjectorDispatcher) : InjectorDispatcher :=
  mkDispatcher (id_world d) c (id_log d).

Definition connect_client (d : InjectorDispatcher) : option InjectorClient * InjectorDispatcher :=
  let '(w, client) := connect (id_world d) in (client, mkDispatcher w (id_client d) (id_log d)).

(** [app/injector_dispatcher.rs InjectorDispatcher::is_ready] *)
Definition is_ready (d : InjectorDispatcher) : bool := bool_decide (is_Some (id_client d)).

(** [app/injector_dispatcher.rs InjectorDispatcher::repair] *)
Definition repair (d : InjectorDispatcher) : bool * InjectorDispatcher :=
  match connect_client d with
  | (Some repaired, d) => (true, set_client (Some repaired) d)
  | (None, d) => (false, d)
  end.

Definition ok_or_unavailable (r : option InjectorResponse)
    : result ReconcileFailure InjectorResponse := ok_or r ReconcileUnavailable.

(** [app/injector_dispatcher.rs reconcile_injector_request] *)
Definition reconcile_injector_request (client : InjectorClient) (same_instance : bool)
    (request : InjectorRequest) (d : InjectorDispatcher)
    : result ReconcileFailure InjectorResponse * InjectorDispatcher :=
  let send_again d := let '(r, d) := exchange client request d in (ok_or_unavailable r, d) in
  match request with
  | ReqHello | BeginSession _ _ _ _ _ | ProbeTarget | CancelInvalidSession _ => send_again d
  | ApplyState session_id sequence full_text =>
    if same_instance then
      match exchange client (QuerySession session_id) d with
      | (None, d) => (Err ReconcileUnavailable, d)
      | (Some state, d) =>
        match classify_apply_recovery session_id sequence full_text state with
        | DecideApplied => (Ok (RespApplied sequence), d)
        | DecideRetry => send_again d
        | DecideFinished => (Ok (RespFinished sequence), d)
        | DecideUnknown => (Err Unconfirmed, d)
        end
      end
    else (Err Unconfirmed, d)
  | FinishSession session_id sequence =>
    if same_instance then
      match exchange client (QuerySession session_id) d with
      | (None, d) => (Err ReconcileUnavailable, d)
      | (Some state, d) =>
        match classify_finish_recovery session_id sequence state with
        | DecideFinished => (Ok (RespFinished sequence), d)
        | DecideRetry => send_again d
        | DecideApplied | DecideUnknown => (Err Unconfirmed, d)
        end
      end
    else (Err Unconfirmed, d)
  | QuerySession _ => if same_instance then send_again d else (Err Unconfirmed, d)
  end.

(** [app/injector_dispatcher.rs request_blocking] *)
Definition request_blocking (request : InjectorRequest) (d : InjectorDispatcher)
    : result InjectorRequestFailure InjectorResponse * InjectorDispatcher :=
  let d := match id_client d with
           | Some _ => d
           | None => let '(client, d) := connect_client d in set_client client d
           end in
  match id_client d with
  | None => (Err FailureUnavailable, d)
  | Some client =>
    let previous_instance := ic_instance_id client in
    match exchange client request d with
    | (Some response, d) => (Ok response, d)
    | (None, d) =>
      match connect_client (set_client None d) with
      | (None, d) => (Err FailureUnavailable, d)
      | (Some recovered, d) =>
        let same_instance := bool_decide (ic_instance_id recovered = previous_instance) in
        match reconcile_injector_request recovered same_instance request d with
        | (Ok response, d) => (Ok response, set_client (Some recovered) d)
        | (Err ReconcileUnavailable, d) => (Err FailureUnavailable, d)
        | (Err Unconfirmed, d) => (Err FailureRecoveryRequired, set_client (Some recovered) d)
        end
      end
    end
  end.
End dispatcher.
Arguments InjectorDispatcher : clear implicits.
