(* ===== verification/DispatcherSafety.v ===== *)
(** * What the dispatcher promises

    The outcome of a request with its recovery, the bounds of connecting, and
    what a recovery meets at the injector ([Injector.serve_connection]). *)

From S2P Require Import Prelude Text Protocol Ipc TipModel Windows TipBroker Injector.
From S2P Require Import InjectorSafety Dispatcher.

Section dispatcher.
Context {W : Type} `{AppPipe W}.
Implicit Types d : InjectorDispatcher W.

Definition exchange_entry : Type := InjectorClient * InjectorRequest * option InjectorResponse.

(** Requests that are sent again without asking the injector first. *)
Definition repeatable (request : InjectorRequest) : bool :=
  match request with
  | ReqHello | BeginSession _ _ _ _ _ | ProbeTarget | CancelInvalidSession _ => true
  | _ => false
  end.

(** The query that a recovery makes, what its answer lets it report, and when
    it lets it send the request again. *)
Definition recovery_query (request : InjectorRequest) : option InjectorRequest :=
  match request with
  | ApplyState sid _ _ | FinishSession sid _ => Some (QuerySession sid)
  | _ => None
  end.

Definition confirms (request : InjectorRequest) (state r : InjectorResponse) : Prop :=
  match request with
  | ApplyState sid seq text =>
    (r = RespApplied seq ∧ state = Ipc.SessionActive sid seq text)
    ∨ (r = RespFinished seq ∧ state = Ipc.SessionFinished sid seq text)
  | FinishSession sid seq => r = RespFinished seq ∧ ∃ text, state = Ipc.SessionFinished sid seq text
  | _ => False
  end.

Definition resendable (request : InjectorRequest) (state : InjectorResponse) : Prop :=
  match request with
  | ApplyState sid seq _ => ∃ n text, state = Ipc.SessionActive sid n text ∧ n < seq
  | FinishSession sid seq => ∃ text, state = Ipc.SessionActive sid seq text
  | _ => False
  end.

Definition answered (o : option InjectorResponse)
    : result InjectorRequestFailure InjectorResponse :=
  ok_or o FailureUnavailable.

(** The exchanges of one request and its result. [c2] is the pipe opened after
    the first failed. *)
Inductive dispatch_outcome (request : InjectorRequest)
    : list exchange_entry → result InjectorRequestFailure InjectorResponse → Prop :=
| dispatch_no_service : dispatch_outcome request [] (Err FailureUnavailable)
| dispatch_answered c r : dispatch_outcome request [(c, request, Some r)] (Ok r)
| dispatch_lost c : dispatch_outcome request [(c, request, None)] (Err FailureUnavailable)
| dispatch_unconfirmed c c2 :
  ic_instance_id c2 ≠ ic_instance_id c → repeatable request = false →
  dispatch_outcome request [(c, request, None)] (Err FailureRecoveryRequired)
| dispatch_repeated c c2 o :
  repeatable request = true ∨ (ic_instance_id c2 = ic_instance_id c ∧ ∃ sid, request = QuerySession sid) →
  dispatch_outcome request [(c, request, None); (c2, request, o)] (answered o)
| dispatch_query_lost c c2 q :
  recovery_query request = Some q →
  dispatch_outcome request [(c, request, None); (c2, q, None)] (Err FailureUnavailable)
| dispatch_confirmed c c2 q state r :
  recovery_query request = Some q → ic_instance_id c2 = ic_instance_id c →
  confirms request state r →
  dispatch_outcome request [(c, request, None); (c2, q, Some state)] (Ok r)
| dispatch_unknown c c2 q state :
  recovery_query request = Some q → (∀ r, ¬ confirms request state r) → ¬ resendable request state →
  dispatch_outcome request [(c, request, None); (c2, q, Some state)] (Err FailureRecoveryRequired)
| dispatch_resent c c2 q state o :
  recovery_query request = Some q → ic_instance_id c2 = ic_instance_id c → resendable request state →
  dispatch_outcome request [(c, request, None); (c2, q, Some state); (c2, request, o)] (answered o).

Lemma classify_apply_spec sid seq text state :
  match classify_apply_recovery sid seq text state with
  | DecideApplied => state = Ipc.SessionActive sid seq text
  | DecideFinished => state = Ipc.SessionFinished sid seq text
  | DecideRetry => ∃ n t, state = Ipc.SessionActive sid n t ∧ n < seq
  | DecideUnknown =>
    (∀ r, ¬ confirms (ApplyState sid seq text) state r)
    ∧ ¬ resendable (ApplyState sid seq text) state
  end.
Proof.
  unfold classify_apply_recovery. destruct state; cbn; try by (split; naive_solver).
  - case_bool_decide as H1; cbn; [subst session_id | split; naive_solver].
    destruct (Z.eqb_spec sequence seq) as [->|]; cbn.
    + case_bool_decide as H2; cbn; [by subst |]. rewrite Z.ltb_irrefl.
      split; [naive_solver | intros (? & ? & [= <- <-] & ?); lia].
    + destruct (Z.ltb_spec sequence seq); [by eexists _, _ |].
      split; [naive_solver | intros (? & ? & [= <- <-] & ?); lia].
  - case_bool_decide as H1; cbn; [| split; naive_solver].
    destruct (Z.eqb_spec sequence seq); cbn; [| split; naive_solver].
    case_bool_decide; cbn; [congruence | split; naive_solver].
Qed.

Lemma classify_finish_spec sid seq state :
  match classify_finish_recovery sid seq state with
  | DecideFinished => ∃ text, state = Ipc.SessionFinished sid seq text
  | DecideRetry => ∃ text, state = Ipc.SessionActive sid seq text
  | DecideApplied => False
  | DecideUnknown =>
    (∀ r, ¬ confirms (FinishSession sid seq) state r)
    ∧ ¬ resendable (FinishSession sid seq) state
  end.
Proof.
  unfold classify_finish_recovery. destruct state; cbn; try by (split; naive_solver).
  - case_bool_decide as H1; cbn; [subst session_id | split; naive_solver].
    destruct (Z.eqb_spec sequence seq) as [->|]; cbn; [eauto | split; naive_solver].
  - case_bool_decide as H1; cbn; [subst session_id | split; naive_solver].
    destruct (Z.eqb_spec sequence seq) as [->|]; cbn; [eauto | split; naive_solver].
Qed.

(** What a recovery adds to the log, on the pipe [c2]. *)
Definition reconciled (request : InjectorRequest) (c2 : InjectorClient) (same : bool) d
    (r : result ReconcileFailure InjectorResponse * InjectorDispatcher W) : Prop :=
  ∃ new, id_log r.2 = id_log d ++ new ∧ ∀ c log0,
    (same = true ↔ ic_instance_id c2 = ic_instance_id c) →
    log0 = [(c, request, None)] →
    dispatch_outcome request (log0 ++ new)
      (match r.1 with
       | Ok response => Ok response
       | Err ReconcileUnavailable => Err FailureUnavailable
       | Err Unconfirmed => Err FailureRecoveryRequired
       end).

Lemma exchange_log c request d :
  id_log (exchange c request d).2 = id_log d ++ [(c, request, (exchange c request d).1)].
Proof. unfold exchange. by destruct (client_request _ _ _). Qed.

Lemma send_again_reconciled request c2 same d :
  (∀ c, (same = true ↔ ic_instance_id c2 = ic_instance_id c) →
   repeatable request = true ∨ (ic_instance_id c2 = ic_instance_id c ∧ ∃ sid, request = QuerySession sid)) →
  reconciled request c2 same d
    (let '(r, d) := exchange c2 request d in (ok_or_unavailable r, d)).
Proof.
  intros Hrep. pose proof (exchange_log c2 request d) as Hl.
  destruct (exchange c2 request d) as [r d1]. cbn in *. eexists. split; [exact Hl |].
  intros c log0 Hsame ->. cbn. destruct r as [r|]; cbn.
  - apply (dispatch_repeated _ _ _ (Some r)). auto.
  - apply (dispatch_repeated _ _ _ None). auto.
Qed.

Lemma reconcile_spec request c2 same d :
  reconciled request c2 same d (reconcile_injector_request c2 same request d).
Proof.
  destruct request as [|sid repl seq text att|sid seq text|sid seq|sid| |sid]; cbn -[exchange].
  1, 2, 6, 7: apply send_again_reconciled; by left.
  - destruct same.
    2: { exists []. cbn. rewrite app_nil_r. split; [done |]. intros c log0 Hs ->.
         apply (dispatch_unconfirmed _ c c2); [by intros ?%Hs | done]. }
    pose proof (exchange_log c2 (QuerySession sid) d) as Hl.
    destruct (exchange c2 (QuerySession sid) d) as [[state|] d1]; cbn -[exchange] in *.
    2: { eexists. split; [exact Hl |]. intros c log0 Hs ->. by eapply dispatch_query_lost. }
    pose proof (classify_apply_spec sid seq text state) as Hc.
    destruct (classify_apply_recovery sid seq text state); cbn -[exchange].
    + eexists. split; [exact Hl |]. intros c log0 Hs ->.
      eapply dispatch_confirmed; [done | by apply Hs | cbn; auto].
    + eexists. split; [exact Hl |]. intros c log0 Hs ->.
      eapply dispatch_confirmed; [done | by apply Hs | cbn; auto].
    + pose proof (exchange_log c2 (ApplyState sid seq text) d1) as Hl2. rewrite Hl in Hl2.
      destruct (exchange c2 (ApplyState sid seq text) d1) as [o d2]. cbn in *.
      rewrite <- app_assoc in Hl2. eexists. split; [exact Hl2 |]. intros c log0 Hs ->. cbn.
      destruct o as [o|]; cbn; [apply (dispatch_resent _ _ _ _ _ (Some o)) | apply (dispatch_resent _ _ _ _ _ None)];
        try done; by apply Hs.
    + eexists. split; [exact Hl |]. intros c log0 Hs ->.
      by eapply dispatch_unknown; [| apply Hc | apply Hc].
  - destruct same.
    2: { exists []. cbn. rewrite app_nil_r. split; [done |]. intros c log0 Hs ->.
         apply (dispatch_unconfirmed _ c c2); [by intros ?%Hs | done]. }
    pose proof (exchange_log c2 (QuerySession sid) d) as Hl.
    destruct (exchange c2 (QuerySession sid) d) as [[state|] d1]; cbn -[exchange] in *.
    2: { eexists. split; [exact Hl |]. intros c log0 Hs ->. by eapply dispatch_query_lost. }
    pose proof (classify_finish_spec sid seq state) as Hc.
    destruct (classify_finish_recovery sid seq state); cbn -[exchange]; [done | ..].
    + eexists. split; [exact Hl |]. intros c log0 Hs ->.
      eapply dispatch_confirmed; [done | by apply Hs | cbn; auto].
    + pose proof (exchange_log c2 (FinishSession sid seq) d1) as Hl2. rewrite Hl in Hl2.
      destruct (exchange c2 (FinishSession sid seq) d1) as [o d2]. cbn in *.
      rewrite <- app_assoc in Hl2. eexists. split; [exact Hl2 |]. intros c log0 Hs ->. cbn.
      destruct o as [o|]; cbn; [apply (dispatch_resent _ _ _ _ _ (Some o)) | apply (dispatch_resent _ _ _ _ _ None)];
        try done; by apply Hs.
    + eexists. split; [exact Hl |]. intros c log0 Hs ->.
      by eapply dispatch_unknown; [| apply Hc | apply Hc].
  - destruct same.
    + apply send_again_reconciled. intros c Hs. right. split; [by apply Hs | eauto].
    + exists []. cbn. rewrite app_nil_r. split; [done |]. intros c log0 Hs ->.
      apply (dispatch_unconfirmed _ c c2); [by intros ?%Hs | done].
Qed.

(** C16. Dispatching a request. An answer is the injector's answer to this very
    request, or, after the pipe failed, is confirmed by the session the same
    injector process reports: the same id, sequence and text for a text state,
    the same id and sequence for a finish. A text state or a finish is sent
    twice only to the same process and only when it reports that it did not
    take effect; otherwise the phone must recover. *)
Theorem request_blocking_outcome request d :
  let r := request_blocking request d in
  ∃ new, id_log r.2 = id_log d ++ new ∧ dispatch_outcome request new r.1.
Proof.
  unfold request_blocking.
  set (d0 := match id_client d with Some _ => d | None => _ end).
  assert (id_log d0 = id_log d) as <-.
  { unfold d0. destruct (id_client d); [done |]. unfold connect_client.
    by destruct (connect (id_world d)). }
  destruct (id_client d0) as [c|].
  2: { exists []. cbn. rewrite app_nil_r. split; [done | constructor]. }
  pose proof (exchange_log c request d0) as Hl.
  destruct (exchange c request d0) as [[r|] d1]; cbn in Hl.
  { eexists. split; [exact Hl | constructor]. }
  unfold connect_client. cbn. destruct (connect (id_world d1)) as [w [c2|]]; cbn.
  2: { eexists. split; [exact Hl | apply dispatch_lost]. }
  set (same := bool_decide _). set (d2 := mkDispatcher w None (id_log d1)).
  destruct (reconcile_spec request c2 same d2) as (new & Hnew & Hout).
  assert (same = true ↔ ic_instance_id c2 = ic_instance_id c) as Hs
    by (unfold same; apply bool_decide_eq_true).
  specialize (Hout c _ Hs eq_refl). change (id_log d2) with (id_log d1) in Hnew.
  rewrite Hl, <- app_assoc in Hnew.
  destruct (reconcile_injector_request c2 same request d2) as [[r|[]] d3]; cbn in *;
    eexists; (split; [exact Hnew | exact Hout]).
Qed.
End dispatcher.

(** ** Connecting *)

Section connecting.
Context {W : Type} `{AppPipe W}.

Lemma open_verified_clock w : clock_ms w ≤ clock_ms (open_verified_pipe w).1.
Proof.
  unfold open_verified_pipe. pose proof (open_clock w) as Ho.
  destruct (open_pipe w) as [w1 [pipe|]]; cbn in *; [| done].
  destruct (server_process_path w1 pipe); [| done].
  pose proof (request_clock w1 pipe ReqHello) as Hr.
  destruct (pipe_request w1 pipe ReqHello) as [w2 [[]|]]; cbn in *; try lia.
  destruct (injector_path w2); [| cbn; lia]. repeat (case_match; cbn; [lia |]). cbn. lia.
Qed.

Lemma connect_loop_total fuel deadline w :
  deadline - clock_ms w ≤ 100 * (Z.of_nat fuel - 1) → (0 < fuel)%nat →
  is_Some (connect_loop fuel deadline w).
Proof.
  revert w. induction fuel as [|fuel IH]; intros w Hd H0; [lia |]. cbn [connect_loop].
  destruct (Z.ltb_spec (clock_ms w) deadline); [| done].
  pose proof (open_verified_clock w) as Ho.
  destruct (open_verified_pipe w) as [w1 [client|]]; cbn in *; [done |].
  pose proof (sleep_clock w1 100). apply IH; lia.
Qed.

(** A pipe the app accepts. *)
Definition verified (client : InjectorClient) (w : W) : Prop :=
  ∃ w1 server expected instance path elevated,
    server_process_path w1 (ic_pipe client) = Some server
    ∧ pipe_request w1 (ic_pipe client) ReqHello
      = (w, Some (RespHello INJECTOR_IPC_VERSION instance path elevated))
    ∧ injector_path w = Some expected
    ∧ same_path server expected = true ∧ same_path path expected = true
    ∧ (elevated = true ∨ dev_injector_enabled w = true)
    ∧ ic_instance_id client = instance ∧ instance ≠ EmptyString.

Lemma open_verified_pipe_verified w w' client :
  open_verified_pipe w = (w', Some client) → verified client w'.
Proof.
  unfold open_verified_pipe. destruct (open_pipe w) as [w1 [pipe|]]; [| done].
  destruct (server_process_path w1 pipe) as [server|] eqn:Hserver; [| done].
  destruct (pipe_request w1 pipe ReqHello) as [w2 [r|]] eqn:Hr; [| done].
  destruct r as [version instance path elevated| | | | | | | | | | | | | | | |]; try done.
  destruct (injector_path w2) as [expected|] eqn:Hpath; [| done].
  destruct (_ || _) eqn:H1; [done |]. destruct (_ && _) eqn:H2; [done |].
  destruct (str_is_empty instance) eqn:H3; [done |]. intros [= <- <-].
  apply orb_false_iff in H1 as [H1 H1c]. apply orb_false_iff in H1 as [H1a H1b].
  apply andb_false_iff in H2. apply str_is_empty_false in H3. bool_to_prop. subst version.
  exists w1, server, expected, instance, path, elevated. cbn. split_and!; try done.
  destruct H2 as [H2|H2]; bool_to_prop; auto.
Qed.

Lemma connect_loop_verified fuel deadline w w' client :
  connect_loop fuel deadline w = Some (w', Some client) → verified client w'.
Proof.
  revert w. induction fuel as [|fuel IH]; intros w; cbn [connect_loop]; [done |].
  destruct (clock_ms w <? deadline); [| done].
  destruct (open_verified_pipe w) as [w1 [c|]] eqn:Ho; [| apply IH].
  intros [= <- <-]. by eapply open_verified_pipe_verified.
Qed.

(** Connecting. The wait for the service ends within its fuel, and a client
    is returned only for a pipe whose server runs the expected program, speaks
    this version, is elevated (unless this is a development setup) and gave an
    instance id. *)
Theorem connect_verified w :
  (∀ deadline, deadline - clock_ms w ≤ CONNECT_TIMEOUT →
   is_Some (connect_loop CONNECT_FUEL deadline w))
  ∧ match connect w with
    | (w', Some client) => verified client w'
    | (_, None) => True
    end.
Proof.
  split.
  { intros deadline Hd. unfold CONNECT_TIMEOUT in Hd.
    apply connect_loop_total; unfold CONNECT_FUEL; lia. }
  unfold connect. destruct (open_verified_pipe w) as [w1 [c|]] eqn:Ho.
  { by eapply open_verified_pipe_verified. }
  destruct (run_injector_task w1) as [w2 [|]]; cbn -[connect_loop CONNECT_FUEL]; [| done].
  destruct (connect_loop CONNECT_FUEL (clock_ms w2 + CONNECT_TIMEOUT) w2) as [[w3 [c|]]|] eqn:Hl; cbn; [| done..].
  by eapply connect_loop_verified.
Qed.
End connecting.

(** ** What a recovery meets *)

Section recovery.
Context {W : Type} `{Win32 W} `{TipPipes W} `{InjectorHost W}.

(** A recovery finds no session. The injector ends its session and forgets
    what finished when the app's pipe closes, before it accepts the next one;
    so the query a recovery makes on its new pipe is answered "missing" whatever
    the session was, and can neither confirm nor resend a text state or a
    finish. *)
Theorem new_connection_finds_no_session inst elev fuel (s : injector W) sid seq text :
  let s' := serve_connection inst elev fuel s in
  handle_request inst elev (QuerySession sid) s' = (SessionMissing, s')
  ∧ classify_apply_recovery sid seq text SessionMissing = DecideUnknown
  ∧ classify_finish_recovery sid seq SessionMissing = DecideUnknown.
Proof.
  cbv zeta. split; [| done]. unfold serve_connection.
  set (s1 := serve_requests _ _ _ _).
  assert (in_session (end_failed_session s1) = None) as Hs.
  { unfold end_failed_session. destruct (in_session s1) eqn:E; [| done].
    by destruct (tips_send _ _ _). }
  cbn. unfold active_session, finished_session. cbn. by rewrite Hs.
Qed.
End recovery.
