(* ===== verification/AppState.v ===== *)
(** * The state of the desktop app

    [flowtype-app/src/main.rs AppState]: what the connections share: the
    status shown, the connections online, the one that owns the input, and the
    request to switch the phone to this computer. A mutex is a field; its
    operations are the transitions of the field. The texts shown are chosen by
    [tr] between Chinese and English. *)

From S2P Require Import Prelude Text Protocol.

Local Open Scope string_scope.
Local Open Scope Z_scope.

(** [app/main.rs RuntimeStatus] *)
Record RuntimeStatus := mkStatus {
  summary : string;
  connected_phone : option string;
  target_shown : option string;
  last_error : option string;
}.
#[export] Instance RuntimeStatus_eq_dec : EqDecision RuntimeStatus.
Proof. solve_decision. Defined.

(** [app/main.rs has_active_input] *)
Definition has_active_input (status : RuntimeStatus) : bool :=
  bool_decide (is_Some (target_shown status)).

(** [app/main.rs ActiveConnection] *)
Record ActiveConnection := mkActiveConnection {
  ac_phone_id : string;
  ac_connection_id : Z;
}.
#[export] Instance ActiveConnection_eq_dec : EqDecision ActiveConnection.
Proof. solve_decision. Defined.

(** [app/main.rs OnlineConnection] *)
Record OnlineConnection := mkOnlineConnection {
  oc_phone_id : string;
  oc_phone_name : string;
  oc_is_probe : bool;
}.

(** [app/main.rs SwitchRequest] *)
Record SwitchRequest := mkSwitchRequest {
  sr_pc_id : string;
  sr_pc_name : string;
  sr_request_id : string;
}.

(** [app/main.rs PendingSwitch] *)
Record PendingSwitch := mkPendingSwitch {
  ps_pc_id : string;
  ps_request_id : string;
}.

(** [app/main.rs SwitchChannel] The bounded channel is its queue, and whether
    its receiver is gone. *)
Record SwitchChannel := mkSwitchChannel {
  sch_queue : list SwitchRequest;
  sch_closed : bool;
  sch_is_control : bool;
  sch_supports_switch_ack : bool;
}.

(** Requests a channel holds at most ([channel(4)]). *)
Definition SWITCH_CHANNEL_CAPACITY : Z := 4.

(** [app/main.rs AppState] The parts of it that the connections change.
    [ui_posted] are the messages posted to the window and not yet handled. *)
Record AppState := mkAppState {
  pc_id : string;
  pc_name : string;
  active_connection : option ActiveConnection;
  online_connections : gmap Z OnlineConnection;
  switch_channels : gmap Z SwitchChannel;
  pending_switch : option PendingSwitch;
  runtime_status : RuntimeStatus;
  ui_hwnd : Z;
  ui_update_pending : bool;
  ui_posted : Z;
  next_connection_id : Z;
}.

Definition set_active_connection a s := mkAppState (pc_id s) (pc_name s) a
  (online_connections s) (switch_channels s) (pending_switch s) (runtime_status s) (ui_hwnd s)
  (ui_update_pending s) (ui_posted s) (next_connection_id s).
Definition set_online o s := mkAppState (pc_id s) (pc_name s) (active_connection s)
  o (switch_channels s) (pending_switch s) (runtime_status s) (ui_hwnd s)
  (ui_update_pending s) (ui_posted s) (next_connection_id s).
Definition set_channels c s := mkAppState (pc_id s) (pc_name s) (active_connection s)
  (online_connections s) c (pending_switch s) (runtime_status s) (ui_hwnd s)
  (ui_update_pending s) (ui_posted s) (next_connection_id s).
Definition set_pending p s := mkAppState (pc_id s) (pc_name s) (active_connection s)
  (online_connections s) (switch_channels s) p (runtime_status s) (ui_hwnd s)
  (ui_update_pending s) (ui_posted s) (next_connection_id s).
Definition set_status st s := mkAppState (pc_id s) (pc_name s) (active_connection s)
  (online_connections s) (switch_channels s) (pending_switch s) st (ui_hwnd s)
  (ui_update_pending s) (ui_posted s) (next_connection_id s).
Definition set_ui pending posted s := mkAppState (pc_id s) (pc_name s) (active_connection s)
  (online_connections s) (switch_channels s) (pending_switch s) (runtime_status s) (ui_hwnd s)
  pending posted (next_connection_id s).
Definition set_pc_name n s := mkAppState (pc_id s) n (active_connection s)
  (online_connections s) (switch_channels s) (pending_switch s) (runtime_status s) (ui_hwnd s)
  (ui_update_pending s) (ui_posted s) (next_connection_id s).
Definition set_next_id n s := mkAppState (pc_id s) (pc_name s) (active_connection s)
  (online_connections s) (switch_channels s) (pending_switch s) (runtime_status s) (ui_hwnd s)
  (ui_update_pending s) (ui_posted s) n.

Section app_state.
(** The language chosen, and whether [PostMessageW] succeeds. *)
Context (english : bool) (post_ok : bool).

Definition tr (zh en : string) : string := if english then en else zh.

Definition waiting_summary : string := tr "等待手机连接" "Waiting for phone".
Definition connected_summary (phone : string) : string := tr "已连接：" "Connected: " +:+ phone.

(** [app/main.rs AppState::notify_ui] *)
Definition notify_ui (s : AppState) : AppState :=
  if ui_hwnd s =? 0 then s
  else if ui_update_pending s then s
  else if post_ok then set_ui true (ui_posted s + 1) s
  else set_ui false (ui_posted s) s.

(** [app/main.rs AppState::begin_ui_update] The window takes a posted message. *)
Definition begin_ui_update (s : AppState) : AppState := set_ui false (ui_posted s - 1) s.

(** [app/main.rs update_runtime_status] The new status and whether it changed. *)
Definition update_runtime_status (status : RuntimeStatus) (update : RuntimeStatus → RuntimeStatus)
    : RuntimeStatus * bool :=
  (update status, negb (bool_decide (update status = status))).

(** [app/main.rs AppState::update_status] *)
Definition update_status (update : RuntimeStatus → RuntimeStatus) (s : AppState) : AppState :=
  let '(status, changed) := update_runtime_status (runtime_status s) update in
  let s := set_status status s in
  if changed then notify_ui s else s.

(** [max_by_key] on the connection id. *)
Definition newest {A} (m : gmap Z A) : option (Z * A) :=
  foldr (λ p best, match best with
                   | Some (i, _) => if p.1 <? i then best else Some p
                   | None => Some p
                   end) None (map_to_list m).

Definition not_probe (m : gmap Z OnlineConnection) : gmap Z OnlineConnection :=
  filter (λ p, oc_is_probe p.2 = false) m.

(** [app/main.rs AppState::connected_phone_id] *)
Definition connected_phone_id (s : AppState) : option string :=
  (λ p, oc_phone_id p.2) <$> newest (not_probe (online_connections s)).

(** The connection whose phone the status names. *)
Definition shown_connection (s : AppState) : option (Z * OnlineConnection) :=
  match newest (not_probe (online_connections s)) with
  | Some p => Some p
  | None => newest (online_connections s)
  end.

(** [app/main.rs AppState::refresh_online_status] *)
Definition refresh_online_status (s : AppState) : AppState :=
  let online := shown_connection s in
  update_status (λ status,
    match online with
    | Some (_, connection) =>
      mkStatus (connected_summary (oc_phone_name connection)) (Some (oc_phone_name connection))
        (target_shown status) None
    | None => mkStatus waiting_summary None None (last_error status)
    end) s.

(** [app/main.rs AppState::mark_online_connection] *)
Definition mark_online_connection (phone_id phone_name : string) (connection_id : Z)
    (s : AppState) : AppState :=
  refresh_online_status
    (set_online (<[connection_id := mkOnlineConnection phone_id phone_name false]>
                   (online_connections s)) s).

(** [app/main.rs AppState::mark_probe_connection] *)
Definition mark_probe_connection (connection_id : Z) (s : AppState) : AppState :=
  match online_connections s !! connection_id with
  | Some connection =>
    if oc_is_probe connection then s
    else refresh_online_status
           (set_online (<[connection_id := mkOnlineConnection (oc_phone_id connection)
                            (oc_phone_name connection) true]> (online_connections s)) s)
  | None => s
  end.

(** [app/main.rs AppState::clear_online_connection] *)
Definition clear_online_connection (connection_id : Z) (s : AppState) : AppState :=
  match online_connections s !! connection_id with
  | Some _ => refresh_online_status (set_online (delete connection_id (online_connections s)) s)
  | None => s
  end.

(** [app/main.rs AppState::mark_input_finished] *)
Definition mark_input_finished (s : AppState) : AppState :=
  update_status (λ status,
    mkStatus (match connected_phone status with
              | Some phone => connected_summary phone
              | None => waiting_summary
              end) (connected_phone status) None (last_error status)) s.

(** ** Switching the phone to this computer *)

(** [app/main.rs AppState::register_switch_channel] *)
Definition register_switch_channel (connection_id : Z) (is_control supports_switch_ack : bool)
    (s : AppState) : AppState :=
  set_channels (<[connection_id := mkSwitchChannel [] false is_control supports_switch_ack]>
                  (switch_channels s)) s.

(** [app/main.rs AppState::clear_switch_channel] *)
Definition clear_switch_channel (connection_id : Z) (s : AppState) : AppState :=
  set_channels (delete connection_id (switch_channels s)) s.

Definition status_summary (text : string) (status : RuntimeStatus) : RuntimeStatus :=
  mkStatus text (connected_phone status) (target_shown status) (last_error status).

(** The channel a switch request goes to: the input connection's, else the
    newest of a control connection or of an online one that is no probe. *)
Definition switch_candidate (s : AppState) : option Z :=
  let eligible := filter (λ p, sch_is_control p.2 = true ∨
      (oc_is_probe <$> online_connections s !! p.1) = Some false) (switch_channels s) in
  match active_connection s with
  | Some active =>
    match switch_channels s !! ac_connection_id active with
    | Some _ => Some (ac_connection_id active)
    | None => fst <$> newest eligible
    end
  | None => fst <$> newest eligible
  end.

(** [app/main.rs AppState::request_switch_to_current] [request_id] is the random
    token drawn; the thread it starts ends in [switch_timed_out]. *)
Definition request_switch_to_current (request_id : string) (s : AppState) : AppState :=
  let request := mkSwitchRequest (pc_id s) (pc_name s) request_id in
  match switch_candidate s with
  | None => update_status (status_summary (tr "手机未连接" "Phone is not connected")) s
  | Some candidate_id =>
    match switch_channels s !! candidate_id with
    | None => update_status (status_summary (tr "手机未响应" "Phone did not respond")) s
    | Some channel =>
      if sch_closed channel then
        update_status (status_summary (tr "手机未响应" "Phone did not respond"))
          (clear_switch_channel candidate_id s)
      else if SWITCH_CHANNEL_CAPACITY <=? zlength (sch_queue channel) then
        update_status (status_summary (tr "切换请求正在处理中" "Switch request is already pending")) s
      else
        let s := set_channels (<[candidate_id :=
                   mkSwitchChannel (sch_queue channel ++ [request])%list (sch_closed channel)
                     (sch_is_control channel) (sch_supports_switch_ack channel)]>
                   (switch_channels s)) s in
        if negb (sch_supports_switch_ack channel) then
          update_status (status_summary (tr "已发送切换请求" "Switch request sent")) s
        else
          update_status (status_summary (tr "正在切换手机输入" "Switching phone input"))
            (set_pending (Some (mkPendingSwitch (pc_id s) request_id)) s)
    end
  end.

(** [app/main.rs:735-758 AppState::request_switch_to_current] The thread, 2.5 s
    later. *)
Definition switch_timed_out (request_id : string) (s : AppState) : AppState :=
  match pending_switch s with
  | Some value =>
    if bool_decide (ps_request_id value = request_id) then
      update_status (status_summary (tr "手机未响应" "Phone did not respond")) (set_pending None s)
    else s
  | None => s
  end.

(** [app/main.rs AppState::acknowledge_switch] *)
Definition acknowledge_switch (ack : SwitchAck) (s : AppState) : AppState :=
  match pending_switch s with
  | Some value =>
    if bool_decide (ps_request_id value = switch_request_id ack)
       && bool_decide (ps_pc_id value = switch_pc_id ack) then
      update_status (status_summary
        (if switch_accepted ack then tr "已切换到此电脑" "Switched to this computer"
         else tr "手机未找到这台电脑" "Computer is not paired on the phone"))
        (set_pending None s)
    else s
  | None => s
  end.

(** ** The connection that owns the input ([network_server.rs]) *)

(** [app/network_server.rs is_active_connection] *)
Definition is_active_connection (s : AppState) (phone_id : string) (connection_id : Z) : bool :=
  match active_connection s with
  | Some active => bool_decide (ac_phone_id active = phone_id)
                   && (ac_connection_id active =? connection_id)
  | None => false
  end.

(** [app/network_server.rs has_replacement_connection] *)
Definition has_replacement_connection (s : AppState) (phone_id : string) (connection_id : Z) : bool :=
  match active_connection s with
  | Some active => bool_decide (ac_phone_id active = phone_id)
                   && negb (ac_connection_id active =? connection_id)
  | None => false
  end.

(** [app/network_server.rs claim_active_connection] *)
Definition claim_active_connection (phone_id phone_name : string) (connection_id : Z)
    (s : AppState) : AppState :=
  update_status (λ _, mkStatus (connected_summary phone_name) (Some phone_name) None None)
    (set_active_connection (Some (mkActiveConnection phone_id connection_id)) s).

(** [app/network_server.rs ActiveConnectionLease::drop] *)
Definition drop_active_lease (phone_id : string) (connection_id : Z) (s : AppState) : AppState :=
  if is_active_connection s phone_id connection_id then
    update_status (λ status,
      mkStatus (match connected_phone status with
                | Some phone => connected_summary phone
                | None => waiting_summary
                end) (connected_phone status) None (last_error status))
      (set_active_connection None s)
  else s.

(** [app/network_server.rs mark_injector_unavailable] *)
Definition mark_injector_unavailable (s : AppState) : AppState :=
  update_status (λ status,
    mkStatus (tr "Windows 输入服务不可用" "Windows input is unavailable") (connected_phone status) None
      (Some (tr "请在设置中修复输入服务" "Repair input from Settings"))) s.
End app_state.

#[global] Arguments update_status : simpl never.
