(* ===== verification/AppStateSafety.v ===== *)
(** * What the shared state of the app guarantees

    The status names the newest connection, the input belongs to the last
    claim, a switch request is resolved once, and every change of the status
    is announced to the window by exactly one message. *)

From S2P Require Import Prelude Text Protocol AppState.

Local Open Scope string_scope.
Local Open Scope list_scope.
Local Open Scope Z_scope.

(** ** The newest entry of a map *)

Lemma newest_list {A} (l : list (Z * A)) best :
  foldr (λ p best, match best with
                   | Some (i, _) => if p.1 <? i then best else Some p
                   | None => Some p
                   end) None l = best →
  match best with
  | Some p => p ∈ l ∧ ∀ q, q ∈ l → q.1 ≤ p.1
  | None => l = []
  end.
Proof.
  intros <-. induction l as [|p l IH]; cbn; [done |].
  destruct (foldr _ _ l) as [[i x]|]; cbn in *.
  - destruct IH as [IH1 IH2]. destruct (Z.ltb_spec p.1 i); cbn.
    + split; [by right |]. intros q [->|Hq]%elem_of_cons; [cbn; lia | by apply IH2].
    + split; [by left |]. intros q [->|Hq]%elem_of_cons; [lia |].
      specialize (IH2 q Hq). cbn in IH2. lia.
  - subst l. split; [by left |]. by intros q ->%list_elem_of_singleton.
Qed.

Lemma newest_Some {A} (m : gmap Z A) i x :
  newest m = Some (i, x) ↔ m !! i = Some x ∧ ∀ j y, m !! j = Some y → j ≤ i.
Proof.
  assert (∀ p, newest m = Some p → m !! p.1 = Some p.2 ∧ ∀ j y, m !! j = Some y → j ≤ p.1)
    as Hs.
  { intros [k z] Hn. unfold newest in Hn. apply newest_list in Hn as [H1 H2]. cbn. split.
    - by apply elem_of_map_to_list.
    - intros j y Hj%elem_of_map_to_list. by apply (H2 (j, y)). }
  split; [apply (Hs (i, x)) |].
  intros [H1 H2]. destruct (newest m) as [[k z]|] eqn:E.
  - destruct (Hs _ eq_refl) as [H3 H4]; cbn in *.
    assert (k = i) as -> by (apply Z.le_antisymm; eauto). by simplify_eq.
  - unfold newest in E. apply newest_list in E. apply map_to_list_empty_iff in E. subst.
    by rewrite lookup_empty in H1.
Qed.

Lemma newest_None {A} (m : gmap Z A) : newest m = None ↔ m = ∅.
Proof.
  split; [| by intros ->].
  unfold newest. intros H%newest_list. by apply map_to_list_empty_iff.
Qed.

Lemma newest_not_probe m i c :
  m !! i = Some c → oc_is_probe c = false →
  (∀ j d, m !! j = Some d → oc_is_probe d = false → j ≤ i) →
  newest (not_probe m) = Some (i, c).
Proof.
  intros Hi Hp Hmax. apply newest_Some. unfold not_probe. split.
  - by apply map_lookup_filter_Some.
  - intros j y [Hj ?]%map_lookup_filter_Some. by eapply Hmax.
Qed.

Lemma newest_all_probes m :
  (∀ j d, m !! j = Some d → oc_is_probe d = true) → newest (not_probe m) = None.
Proof.
  intros Hall. apply newest_None, map_empty. intros j. unfold not_probe.
  apply map_lookup_filter_None. right. intros d Hd. cbn. by rewrite (Hall j d Hd).
Qed.

Lemma not_probe_empty : newest (not_probe ∅) = None.
Proof. by apply newest_all_probes. Qed.

(** ** Fields that an operation leaves alone *)

Section fields.
Context (english post_ok : bool).
Implicit Types s : AppState.

Lemma update_status_spec u s :
  update_status post_ok u s =
  set_ui (ui_update_pending (update_status post_ok u s)) (ui_posted (update_status post_ok u s))
    (set_status (u (runtime_status s)) s).
Proof.
  unfold update_status, update_runtime_status, notify_ui. destruct s.
  by repeat case_match; simplify_eq/=.
Qed.

Lemma us_status u s : runtime_status (update_status post_ok u s) = u (runtime_status s).
Proof. by rewrite update_status_spec. Qed.
Lemma us_active u s : active_connection (update_status post_ok u s) = active_connection s.
Proof. by rewrite update_status_spec. Qed.
Lemma us_online u s : online_connections (update_status post_ok u s) = online_connections s.
Proof. by rewrite update_status_spec. Qed.
Lemma us_channels u s : switch_channels (update_status post_ok u s) = switch_channels s.
Proof. by rewrite update_status_spec. Qed.
Lemma us_pending u s : pending_switch (update_status post_ok u s) = pending_switch s.
Proof. by rewrite update_status_spec. Qed.
End fields.

#[export] Hint Rewrite us_status us_active us_online us_channels us_pending : app_fields.

(** ** Who is connected *)

Section presence.
Context (english post_ok : bool).
Implicit Types s : AppState.

(** What the connections do to the list of those online. *)
Inductive presence_event :=
| CameOnline (phone_id phone_name : string) (connection_id : Z)
| BecameProbe (connection_id : Z)
| WentAway (connection_id : Z).

Definition presence s (e : presence_event) : AppState :=
  match e with
  | CameOnline p n c => mark_online_connection english post_ok p n c s
  | BecameProbe c => mark_probe_connection english post_ok c s
  | WentAway c => clear_online_connection english post_ok c s
  end.

(** The status names the phone of [shown_connection]. *)
Definition status_right s : Prop :=
  connected_phone (runtime_status s) = (λ p, oc_phone_name p.2) <$> shown_connection s ∧
  (shown_connection s = None → target_shown (runtime_status s) = None).

Lemma refresh_status_right s : status_right (refresh_online_status english post_ok s).
Proof.
  unfold status_right, refresh_online_status.
  set (u := λ _ : RuntimeStatus, _).
  assert (shown_connection (update_status post_ok u s) = shown_connection s) as ->
    by (unfold shown_connection; by rewrite us_online).
  rewrite us_status. unfold u. by destruct (shown_connection s) as [[]|].
Qed.

Lemma presence_right s e : status_right s → status_right (presence s e).
Proof.
  intros Hs. destruct e as [p n c|c|c]; unfold presence.
  - unfold mark_online_connection. apply refresh_status_right.
  - unfold mark_probe_connection. repeat case_match; try done. apply refresh_status_right.
  - unfold clear_online_connection. case_match; [apply refresh_status_right | done].
Qed.

(** However connections come, turn out to be probes and go, the status
    names the phone of the newest connection that is no probe; the newest
    probe's when there are only probes; and none, with no target, when nobody
    is connected. *)
Theorem status_names_newest s0 es (Hs : status_right s0) :
  let s := foldl presence s0 es in
  let connected := connected_phone (runtime_status s) in
  (∀ i c, online_connections s !! i = Some c → oc_is_probe c = false →
     (∀ j d, online_connections s !! j = Some d → oc_is_probe d = false → j ≤ i) →
     connected = Some (oc_phone_name c) ∧ connected_phone_id s = Some (oc_phone_id c)) ∧
  (∀ i c, online_connections s !! i = Some c →
     (∀ j d, online_connections s !! j = Some d → oc_is_probe d = true ∧ j ≤ i) →
     connected = Some (oc_phone_name c) ∧ connected_phone_id s = None) ∧
  (online_connections s = ∅ → connected = None ∧ target_shown (runtime_status s) = None).
Proof.
  intros s. assert (status_right s) as [Hc Ht].
  { subst s. revert s0 Hs. induction es; cbn; auto using presence_right. }
  unfold shown_connection, connected_phone_id in *.
  set (m := online_connections s) in *. clearbody m. split_and!.
  - intros i c Hi Hp Hmax. rewrite (newest_not_probe m i c) in *; done.
  - intros i c Hi Hmax. rewrite Hc, (newest_all_probes m); [| by intros; eapply Hmax].
    rewrite (proj2 (newest_Some m i c)); [done |]. split; [done |].
    intros j d Hd. by eapply Hmax.
  - intros ->. rewrite Hc, not_probe_empty in *. by split; [| apply Ht].
Qed.
End presence.

(** A run for the witness: phone A connects, B connects and is only a probe. *)
Definition idle_status : RuntimeStatus := mkStatus (waiting_summary true) None None None.
Definition idle_app : AppState :=
  mkAppState "pc" "PC" None ∅ ∅ None idle_status 1 false 0 1.

Lemma status_names_newest_witness :
  connected_phone (runtime_status
    (foldl (presence true true) idle_app
       [CameOnline "a" "Anna" 1; CameOnline "b" "Bert" 2; BecameProbe 2])) = Some "Anna".
Proof.
  refine (proj1 (proj1 (status_names_newest true true idle_app _ _) 1
    (mkOnlineConnection "a" "Anna" false) _ _ _)).
  - by split.
  - vm_compute. reflexivity.
  - reflexivity.
  - intros j d Hj Hd.
    change (online_connections _) with
      ({[2 := mkOnlineConnection "b" "Bert" true; 1 := mkOnlineConnection "a" "Anna" false]}
         : gmap Z OnlineConnection) in Hj.
    revert Hj. rewrite lookup_insert_Some, lookup_singleton_Some.
    intros [[<- <-]|[_ [<- _]]]; cbn in *; [done | lia].
Defined.

(** ** Who owns the input *)

Section leases.
Context (english post_ok : bool).
Implicit Types s : AppState.

(** A connection claims the input with its first input message, and its lease
    is dropped when it ends. *)
Inductive lease_event :=
| Claims (phone_id phone_name : string) (connection_id : Z)
| Drops (phone_id : string) (connection_id : Z).

Definition lease s (e : lease_event) : AppState :=
  match e with
  | Claims p n c => claim_active_connection english post_ok p n c s
  | Drops p c => drop_active_lease english post_ok p c s
  end.

Definition is_claim (e : lease_event) : bool :=
  match e with Claims _ _ _ => true | Drops _ _ => false end.

Lemma lease_active s e :
  active_connection (lease s e) =
  match e with
  | Claims p _ c => Some (mkActiveConnection p c)
  | Drops p c => if decide (active_connection s = Some (mkActiveConnection p c)) then None
                 else active_connection s
  end.
Proof.
  destruct e as [p n c|p c]; unfold lease.
  - unfold claim_active_connection.
    by rewrite us_active.
  - unfold drop_active_lease, is_active_connection.
    destruct (active_connection s) as [[p' c']|] eqn:E; cbn; [| by rewrite E; case_decide].
    destruct (bool_decide_reflect (p' = p)) as [->|Hp]; cbn.
    2: { rewrite E, decide_False; congruence. }
    destruct (Z.eqb_spec c' c) as [->|Hc]; cbn.
    2: { rewrite E, decide_False; congruence. }
    rewrite decide_True by done. by rewrite us_active.
Qed.

(** The last claim of a run, one event further. *)
Lemma snoc_split {A} (es : list A) e es1 x es2 :
  es ++ [e] = es1 ++ x :: es2 ↔
  (es2 = [] ∧ es1 = es ∧ x = e) ∨ ∃ es3, es2 = es3 ++ [e] ∧ es = es1 ++ x :: es3.
Proof.
  split.
  - intros E. destruct es2 as [|e' es2 _] using rev_ind.
    + apply app_inj_tail in E as [-> ->]. by left.
    + rewrite app_comm_cons, app_assoc in E. apply app_inj_tail in E as [-> ->]. eauto.
  - intros [(-> & -> & ->)|(es3 & -> & ->)]; [done |]. by rewrite <- app_assoc.
Qed.

(** The input belongs to the last connection that claimed it, until that
    connection itself drops it: whatever older connections drop later, and
    however claims and drops interleave. So no ending connection takes the
    input away from the one that replaced it. *)
Theorem input_belongs_to_last_claim s0 es p c :
  active_connection s0 = None →
  active_connection (foldl lease s0 es) = Some (mkActiveConnection p c) ↔
  ∃ n es1 es2, es = es1 ++ Claims p n c :: es2 ∧
    Forall (λ e, is_claim e = false ∧ e ≠ Drops p c) es2.
Proof.
  intros H0. induction es as [|e es IH] using rev_ind; cbn.
  { rewrite H0. split; [done |]. by intros (? & [] & ? & ? & ?). }
  rewrite foldl_app. cbn [foldl]. rewrite lease_active.
  setoid_rewrite snoc_split. destruct e as [p' n' c'|p' c'].
  - split.
    + intros [= <- <-]. exists n', es, []. split; [by left | constructor].
    + intros (n & es1 & es2 & [(_ & _ & [= -> -> ->])|(es3 & -> & _)] & F); [done |].
      apply Forall_app in F as [_ [? _]%Forall_singleton]. done.
  - case_decide as Hd.
    + split; [done |].
      intros (n & es1 & es2 & [(_ & _ & [=])|(es3 & -> & ->)] & F).
      apply Forall_app in F as [F1 [_ F2]%Forall_singleton].
      assert (active_connection (foldl lease s0 (es1 ++ Claims p n c :: es3))
              = Some (mkActiveConnection p c)) as E2 by (apply IH; eauto).
      rewrite Hd in E2. congruence.
    + rewrite IH. split.
      * intros (n & es1 & es2 & -> & F). exists n, es1, (es2 ++ [Drops p' c']).
        split; [by right; exists es2 |]. apply Forall_app. split; [done |].
        apply Forall_singleton. split; [done |]. intros [= -> ->]. apply Hd, IH. eauto.
      * intros (n & es1 & es2 & [(_ & _ & [=])|(es3 & -> & ->)] & F).
        apply Forall_app in F as [F1 _]. eauto 10.
Qed.
End leases.

(** The replaced connection drops its lease after the new one claimed. *)
Lemma input_belongs_to_last_claim_witness :
  active_connection (foldl (lease true true) idle_app
    [Claims "a" "Anna" 1; Claims "a" "Anna" 2; Drops "a" 1])
  = Some (mkActiveConnection "a" 2).
Proof.
  apply (input_belongs_to_last_claim true true idle_app _ "a" 2 eq_refl).
  exists "Anna", [Claims "a" "Anna" 1], [Drops "a" 1]. split; [reflexivity |].
  constructor; [| constructor]. split; [reflexivity | congruence].
Defined.

(** ** Switching the phone to this computer *)

Section switch.
Context (english post_ok : bool).
Implicit Types s : AppState.

(** What can happen to a request after it was sent. *)
Inductive switch_reply :=
| Acknowledged (ack : SwitchAck)
| TimedOut (request_id : string).

Definition resolve s (r : switch_reply) : AppState :=
  match r with
  | Acknowledged ack => acknowledge_switch english post_ok ack s
  | TimedOut id => switch_timed_out english post_ok id s
  end.

(** The reply is about the request. *)
Definition resolves (p : PendingSwitch) (r : switch_reply) : bool :=
  match r with
  | Acknowledged ack => bool_decide (ps_request_id p = switch_request_id ack)
                        && bool_decide (ps_pc_id p = switch_pc_id ack)
  | TimedOut id => bool_decide (ps_request_id p = id)
  end.

Definition resolution (r : switch_reply) : string :=
  match r with
  | Acknowledged ack => if switch_accepted ack then tr english "已切换到此电脑" "Switched to this computer"
                        else tr english "手机未找到这台电脑" "Computer is not paired on the phone"
  | TimedOut _ => tr english "手机未响应" "Phone did not respond"
  end.

Lemma resolve_spec s r :
  resolve s r =
  match pending_switch s with
  | Some p => if resolves p r
              then update_status post_ok (status_summary (resolution r)) (set_pending None s)
              else s
  | None => s
  end.
Proof. by destruct r. Qed.

(** A switch request is resolved by the first reply about it, be it the
    phone's acknowledgement or the time-out, and the status says which; replies
    about other requests, and every reply after the first, change nothing. *)
Theorem switch_resolved_once s p before r after
    (Hp : pending_switch s = Some p)
    (Hbefore : Forall (λ r, resolves p r = false) before) (Hr : resolves p r = true) :
  foldl resolve s before = s ∧
  foldl resolve s (before ++ r :: after) = resolve s r ∧
  pending_switch (resolve s r) = None ∧
  runtime_status (resolve s r) = status_summary (resolution r) (runtime_status s).
Proof.
  assert (pending_switch (resolve s r) = None) as Hnone.
  { rewrite resolve_spec, Hp, Hr. by rewrite us_pending. }
  assert (foldl resolve s before = s) as Hsame.
  { induction Hbefore as [|r' rs Hr' _ IH]; [done |]. cbn [foldl].
    by rewrite resolve_spec, Hp, Hr'. }
  split_and!; [done | | done |].
  - rewrite foldl_app, Hsame. cbn [foldl]. revert Hnone. generalize (resolve s r) as t.
    intros t Ht. induction after as [|r' rs IH]; [done |]. cbn [foldl].
    by rewrite resolve_spec, Ht.
  - rewrite resolve_spec, Hp, Hr. by rewrite us_status.
Qed.

End switch.

Lemma switch_resolved_once_witness :
  let s := set_pending (Some (mkPendingSwitch "pc" "r2")) idle_app in
  foldl (resolve true true) s
    [TimedOut "r1"; Acknowledged (mkSwitchAck 2 "r2" "pc" true); TimedOut "r2"]
  = resolve true true s (Acknowledged (mkSwitchAck 2 "r2" "pc" true)).
Proof.
  intros s.
  apply (switch_resolved_once true true s (mkPendingSwitch "pc" "r2") [TimedOut "r1"]
           (Acknowledged (mkSwitchAck 2 "r2" "pc" true)) [TimedOut "r2"]).
  - reflexivity.
  - constructor; [reflexivity | constructor].
  - reflexivity.
Defined.

(** ** Telling the window *)

(** Everything that changes the state, in one type. *)
Inductive app_event :=
| Presence (e : presence_event)
| Lease (e : lease_event)
| Resolve (r : switch_reply)
| RequestSwitch (request_id : string)
| RegisterChannel (connection_id : Z) (is_control supports_switch_ack : bool)
| ClearChannel (connection_id : Z)
| InputFinished
| InjectorLost
| SetStatus (update : RuntimeStatus → RuntimeStatus)
| TakeMessage.

Section window.
Context (english : bool).

(** One event; [post_ok] says whether posting to the window works now. The
    window takes a message only when one was posted. *)
Definition app_step (s : AppState) (ev : bool * app_event) : AppState :=
  let '(post_ok, e) := ev in
  match e with
  | Presence e => presence english post_ok s e
  | Lease e => lease english post_ok s e
  | Resolve r => resolve english post_ok s r
  | RequestSwitch id => request_switch_to_current english post_ok id s
  | RegisterChannel c k a => register_switch_channel c k a s
  | ClearChannel c => clear_switch_channel c s
  | InputFinished => mark_input_finished english post_ok s
  | InjectorLost => mark_injector_unavailable english post_ok s
  | SetStatus u => update_status post_ok u s
  | TakeMessage => if 0 <? ui_posted s then begin_ui_update s else s
  end.

(** The flag says exactly whether a message is on its way, and there is at
    most one. *)
Definition ui_right (s : AppState) : Prop :=
  ui_posted s = if ui_update_pending s then 1 else 0.

Definition takes (e : app_event) : bool := match e with TakeMessage => true | _ => false end.

(** What [t] is to the window when [s] was what it was told of. *)
Definition announced (post_ok : bool) (s t : AppState) : Prop :=
  ui_hwnd t = ui_hwnd s ∧ (ui_right s → ui_right t) ∧
  (ui_update_pending s = true → ui_update_pending t = true) ∧
  (runtime_status t ≠ runtime_status s →
     ui_update_pending t = true ∨ ui_hwnd s = 0 ∨ post_ok = false).

Lemma announced_refl post_ok s : announced post_ok s s.
Proof. unfold announced. naive_solver. Qed.

(** A change of other fields, then of the status. *)
Lemma announced_update post_ok u s s' :
  ui_hwnd s' = ui_hwnd s → ui_update_pending s' = ui_update_pending s →
  ui_posted s' = ui_posted s → runtime_status s' = runtime_status s →
  announced post_ok s (update_status post_ok u s').
Proof.
  intros E1 E2 E3 E4. unfold announced, ui_right, update_status, update_runtime_status, notify_ui.
  rewrite E4. cbn. rewrite <- E1, <- E2, <- E3.
  destruct (bool_decide_reflect (u (runtime_status s) = runtime_status s)); cbn; [naive_solver |].
  destruct (Z.eqb_spec (ui_hwnd s') 0); [naive_solver |].
  destruct (ui_update_pending s') eqn:Ep; cbn; [rewrite Ep; naive_solver |].
  destruct post_ok; cbn; naive_solver lia.
Qed.

Lemma app_step_announced s post_ok e :
  takes e = false → announced post_ok s (app_step s (post_ok, e)).
Proof.
  intros Ht. destruct e as [[p n c|c|c]|[p n c|p c]|[ack|id]|id|c k a|c| | |u|]; cbn [app_step];
    try done; unfold presence, lease, resolve, mark_online_connection, mark_probe_connection,
    clear_online_connection, refresh_online_status, claim_active_connection, drop_active_lease,
    acknowledge_switch, switch_timed_out, request_switch_to_current, mark_input_finished,
    mark_injector_unavailable, register_switch_channel, clear_switch_channel;
    repeat first [ by apply announced_update | by apply announced_refl | case_match | by (unfold announced; naive_solver) ].
Qed.

(** However the connections, the switch requests and the window
    interleave: at most one message to the window is on its way, the flag
    says exactly when, and whenever an event changed the status a message is
    on its way afterwards, unless there is no window or posting failed. So the
    window always learns of the last change and is never flooded. *)
Theorem status_changes_are_announced s es post_ok e (Hs : ui_right s) :
  let s1 := foldl app_step s es in
  let s2 := app_step s1 (post_ok, e) in
  ui_right s2 ∧ 0 ≤ ui_posted s2 ≤ 1 ∧
  (runtime_status s2 ≠ runtime_status s1 →
     ui_posted s2 = 1 ∨ ui_hwnd s = 0 ∨ post_ok = false).
Proof.
  assert (∀ s ev, ui_right s → ui_right (app_step s ev) ∧ ui_hwnd (app_step s ev) = ui_hwnd s)
    as Hstep.
  { intros t [b ev] Ht. destruct (takes ev) eqn:Hne.
    - destruct ev; try done. cbn. unfold ui_right, begin_ui_update in *.
      destruct (Z.ltb_spec 0 (ui_posted t)); cbn; [| done].
      destruct (ui_update_pending t); split; done || lia.
    - destruct (app_step_announced t b ev Hne) as (? & ? & _). auto. }
  intros s1 s2.
  assert (ui_right s1 ∧ ui_hwnd s1 = ui_hwnd s) as [H1 Hh].
  { subst s1. clear s2. revert s Hs. induction es as [|ev es IH]; intros s Hs; [done |].
    cbn [foldl]. destruct (Hstep s ev Hs) as [Hr <-]. by apply IH. }
  destruct (Hstep s1 (post_ok, e) H1) as [H2 _]. fold s2 in H2.
  split; [done |]. unfold ui_right in H2. split; [destruct (ui_update_pending s2); lia |].
  intros Hne. destruct (takes e) eqn:He.
  - destruct e; try done. subst s2. cbn in Hne. by case_match.
  - destruct (app_step_announced s1 post_ok e He) as (_ & _ & _ & Hann).
    rewrite <- Hh. destruct (Hann Hne) as [Hp|[?|?]]; auto. fold s2 in Hp. rewrite Hp in H2. auto.
Qed.
End window.

Lemma status_changes_are_announced_witness :
  let s1 := foldl (app_step true) idle_app [(true, Presence (CameOnline "a" "Anna" 1)); (true, TakeMessage)] in
  let s2 := app_step true s1 (true, Lease (Claims "b" "Bert" 2)) in
  runtime_status s2 ≠ runtime_status s1 ∧ (ui_posted s2 = 1 ∨ ui_hwnd idle_app = 0 ∨ true = false).
Proof.
  intros s1 s2. assert (runtime_status s2 ≠ runtime_status s1) as Hne by (vm_compute; congruence).
  split; [exact Hne |].
  apply (status_changes_are_announced true idle_app
    [(true, Presence (CameOnline "a" "Anna" 1)); (true, TakeMessage)] true
    (Lease (Claims "b" "Bert" 2))); [reflexivity | exact Hne].
Defined.
