(* ===== verification/Limits.v ===== *)
(** * Who may connect

    [flowtype-app/src/main.rs ConnectionLimiter], [network_server.rs]
    [ControlConnectionLimiter] and the admission loop of [run_network]: how
    many connections exist at once, per address and per phone, and how often an
    address may try. A lease is a number counted down when it is dropped. An
    address is a number; an [Instant] is a time in milliseconds. *)

From S2P Require Import Prelude.

Local Open Scope string_scope.
Local Open Scope list_scope.
Local Open Scope Z_scope.

Definition MAX_CONNECTIONS : Z := 32.
Definition MAX_CONNECTIONS_PER_IP : Z := 8.
Definition MAX_CONTROL_CONNECTIONS_PER_PHONE : Z := 2.
Definition MAX_CONNECTION_ATTEMPTS_PER_MINUTE : Z := 30.
Definition MAX_PEER_LIMIT_ENTRIES : Z := 1024.
Definition CONNECTION_RATE_WINDOW : Z := 60000.

(** [app/main.rs PeerConnectionState] *)
Record PeerConnectionState := mkPeer {
  pr_active : Z;
  pr_attempts : list Z;
  pr_last_seen : Z;
}.

(** The entries of [ConnectionLimiter], by address. *)
Notation ConnectionLimiter := (gmap Z PeerConnectionState).

(** [now.saturating_duration_since(t)] *)
Definition since (now t : Z) : Z := saturating_sub now t.

Definition peers_len (m : ConnectionLimiter) : Z := Z.of_nat (size m).

(** [peers.retain]: what is in use or was seen within the window. *)
Definition retain_recent (now : Z) (m : ConnectionLimiter) : ConnectionLimiter :=
  filter (λ p, 0 < pr_active p.2 ∨ since now (pr_last_seen p.2) < CONNECTION_RATE_WINDOW) m.

Definition expired (now attempt : Z) : bool := CONNECTION_RATE_WINDOW <=? since now attempt.

(** The entry of a peer with the attempts outside the window removed. *)
Definition refreshed_peer (m : ConnectionLimiter) (peer now : Z) : PeerConnectionState :=
  let state := default (mkPeer 0 [] now) (m !! peer) in
  mkPeer (pr_active state) (drop_while (expired now) (pr_attempts state)) now.

#[global] Arguments refreshed_peer : simpl never.

(** [app/main.rs ConnectionLimiter::try_acquire] *)
Definition try_acquire (peer now : Z) (m : ConnectionLimiter) : ConnectionLimiter * bool :=
  let m' := if MAX_PEER_LIMIT_ENTRIES <=? peers_len m then retain_recent now m else m in
  if (MAX_PEER_LIMIT_ENTRIES <=? peers_len m) && (MAX_PEER_LIMIT_ENTRIES <=? peers_len m')
     && negb (bool_decide (is_Some (m' !! peer)))
  then (m', false)
  else
    let state := refreshed_peer m' peer now in
    if (MAX_CONNECTIONS_PER_IP <=? pr_active state)
       || (MAX_CONNECTION_ATTEMPTS_PER_MINUTE <=? zlength (pr_attempts state))
    then (<[peer := state]> m', false)
    else (<[peer := mkPeer (pr_active state + 1) (pr_attempts state ++ [now]) now]> m', true).

(** [app/main.rs PeerConnectionLease::drop] *)
Definition drop_peer_lease (peer : Z) (m : ConnectionLimiter) : ConnectionLimiter :=
  match m !! peer with
  | Some state =>
    <[peer := mkPeer (saturating_sub (pr_active state) 1) (pr_attempts state)
                (pr_last_seen state)]> m
  | None => m
  end.

(** The slots left and the limiter. *)
Record Network := mkNetwork {
  connection_slots : Z;
  connection_limiter : ConnectionLimiter;
}.

Definition Network_new : Network := mkNetwork MAX_CONNECTIONS ∅.

(** [app/network_server.rs:11-19 run_network] What happens to an accepted
    stream; [true] is a connection that is served. *)
Definition admit_stream (peer now : Z) (n : Network) : Network * bool :=
  if connection_slots n <=? 0 then (n, false)
  else
    let '(limiter, granted) := try_acquire peer now (connection_limiter n) in
    (mkNetwork (if granted then connection_slots n - 1 else connection_slots n) limiter, granted).

(** The end of a served connection: both leases are dropped. *)
Definition end_connection (peer : Z) (n : Network) : Network :=
  mkNetwork (connection_slots n + 1) (drop_peer_lease peer (connection_limiter n)).

(** The counts of [ControlConnectionLimiter], by phone. *)
Notation ControlConnectionLimiter := (gmap string Z).

(** [app/network_server.rs ControlConnectionLimiter::try_acquire] *)
Definition control_try_acquire (phone_id : string) (m : ControlConnectionLimiter)
    : ControlConnectionLimiter * bool :=
  let active := default 0 (m !! phone_id) in
  if MAX_CONTROL_CONNECTIONS_PER_PHONE <=? active then (<[phone_id := active]> m, false)
  else (<[phone_id := active + 1]> m, true).

(** [app/network_server.rs ControlConnectionLease::drop] *)
Definition drop_control_lease (phone_id : string) (m : ControlConnectionLimiter)
    : ControlConnectionLimiter :=
  match m !! phone_id with
  | Some active =>
    let active := saturating_sub active 1 in
    if active =? 0 then delete phone_id m else <[phone_id := active]> m
  | None => m
  end.

(** ** Runs with what they granted

    The connections granted to each address with their times, and those not
    yet ended. *)
Record admission := mkAdmission {
  ad_network : Network;
  ad_now : Z;
  ad_granted : Z → list Z;
  ad_open : Z → Z;
  ad_total : Z;
}.

Definition bump (f : Z → Z) (p d : Z) : Z → Z := λ q, if decide (q = p) then f q + d else f q.
Definition record_grant (f : Z → list Z) (p t : Z) : Z → list Z :=
  λ q, if decide (q = p) then f q ++ [t] else f q.

Definition admission_start : admission :=
  mkAdmission Network_new 0 (λ _, []) (λ _, 0) 0.

(** A stream of [peer] accepted at [now]. *)
Definition try_admission (peer now : Z) (a : admission) : admission :=
  let '(n, granted) := admit_stream peer now (ad_network a) in
  if granted then
    mkAdmission n now (record_grant (ad_granted a) peer now) (bump (ad_open a) peer 1) (ad_total a + 1)
  else mkAdmission n now (ad_granted a) (ad_open a) (ad_total a).

Inductive admission_step : admission → admission → Prop :=
| step_try peer now a : ad_now a ≤ now → admission_step a (try_admission peer now a)
| step_end peer a :
    0 < ad_open a peer →
    admission_step a (mkAdmission (end_connection peer (ad_network a)) (ad_now a) (ad_granted a)
                        (bump (ad_open a) peer (-1)) (ad_total a - 1)).

(** Grants of an address within the window that ends now. *)
Definition recent (now : Z) (times : list Z) : list Z :=
  filter (λ t, now - t < CONNECTION_RATE_WINDOW) times.

(** ** The invariant *)

Definition attempts_of (m : ConnectionLimiter) (p : Z) : list Z :=
  default [] (pr_attempts <$> m !! p).
Definition active_of (m : ConnectionLimiter) (p : Z) : Z :=
  default 0 (pr_active <$> m !! p).

(** What the entry of one address knows of the grants of that address. *)
Definition peer_right (now : Z) (st : option PeerConnectionState) (granted : list Z) (opened : Z)
    : Prop :=
  opened = default 0 (pr_active <$> st) ∧ 0 ≤ opened ≤ MAX_CONNECTIONS_PER_IP ∧
  (∃ old, granted = old ++ default [] (pr_attempts <$> st) ∧
     Forall (λ t, t + CONNECTION_RATE_WINDOW ≤ now) old) ∧
  StronglySorted Z.le granted ∧
  zlength (default [] (pr_attempts <$> st)) ≤ MAX_CONNECTION_ATTEMPTS_PER_MINUTE ∧
  Forall (λ t, t ≤ now) granted ∧
  (∀ s, st = Some s → pr_last_seen s ≤ now ∧ Forall (λ t, t ≤ pr_last_seen s) (pr_attempts s)).

Definition admission_right (a : admission) : Prop :=
  let m := connection_limiter (ad_network a) in
  (∀ p, peer_right (ad_now a) (m !! p) (ad_granted a p) (ad_open a p)) ∧
  peers_len m ≤ MAX_PEER_LIMIT_ENTRIES ∧
  connection_slots (ad_network a) + ad_total a = MAX_CONNECTIONS ∧
  0 ≤ connection_slots (ad_network a).

Lemma since_spec now t : t ≤ now → since now t = now - t.
Proof. unfold since, saturating_sub. lia. Qed.

Lemma peer_right_later now now' st granted opened :
  now ≤ now' → peer_right now st granted opened → peer_right now' st granted opened.
Proof.
  intros Hle (H1 & H2 & (old & H3 & H4) & H5 & H6 & H7 & H8). split_and!; try done; try lia.
  - exists old. split; [done |]. eapply Forall_impl; [exact H4 | cbn; lia].
  - eapply Forall_impl; [exact H7 | cbn; lia].
  - intros s Hs. destruct (H8 s Hs). split; [lia | done].
Qed.

(** Forgetting an address that is idle and out of the window loses nothing. *)
Lemma peer_right_forget now s granted opened :
  peer_right now (Some s) granted opened →
  ¬ (0 < pr_active s ∨ since now (pr_last_seen s) < CONNECTION_RATE_WINDOW) →
  peer_right now None granted opened.
Proof.
  intros (H1 & H2 & (old & H3 & H4) & H5 & H6 & H7 & H8) Hn. cbn in *.
  destruct (H8 s eq_refl) as [Hl Hall]. rewrite (since_spec now) in Hn by done.
  split_and!; cbn; try done; try lia.
  - exists granted. rewrite app_nil_r. split; [done |]. rewrite H3. apply Forall_app. split; [done |].
    eapply Forall_impl; [exact Hall | cbn; lia].
Qed.

Lemma retain_right now m granted opened p :
  peer_right now (m !! p) granted opened →
  peer_right now (retain_recent now m !! p) granted opened.
Proof.
  intros H. unfold retain_recent. destruct (m !! p) as [s|] eqn:E.
  - destruct (decide (0 < pr_active s ∨ since now (pr_last_seen s) < CONNECTION_RATE_WINDOW)) as [Hd|Hd].
    + rewrite (proj2 (map_lookup_filter_Some _ m p s)); done.
    + rewrite (proj2 (map_lookup_filter_None _ m p)); [by eapply peer_right_forget |].
      right. intros s' Hs'. replace s' with s by congruence. exact Hd.
  - rewrite (proj2 (map_lookup_filter_None _ m p)); [done | by left].
Qed.

Lemma drop_while_expired now l :
  Forall (λ t, t ≤ now) l →
  ∃ old, l = old ++ drop_while (expired now) l ∧
    Forall (λ t, t + CONNECTION_RATE_WINDOW ≤ now) old.
Proof.
  induction 1 as [|t l Ht Hl (old & E & F)]; cbn; [by exists [] |].
  unfold expired at 1. rewrite since_spec by done.
  destruct (Z.leb_spec CONNECTION_RATE_WINDOW (now - t)); [| by exists []].
  exists (t :: old). cbn. rewrite <- E. split; [done |]. constructor; [lia | done].
Qed.

(** In a sorted list, what follows an attempt in the window is in the window. *)
Lemma fresh_suffix now old l :
  StronglySorted Z.le (old ++ drop_while (expired now) l) →
  Forall (λ t, t ≤ now) (old ++ drop_while (expired now) l) →
  Forall (λ t, now - t < CONNECTION_RATE_WINDOW) (drop_while (expired now) l).
Proof.
  intros Hs [_ Hf]%Forall_app. apply StronglySorted_suffix in Hs.
  destruct (drop_while (expired now) l) as [|t k] eqn:E; [constructor |].
  apply drop_while_head in E. apply Forall_cons in Hf as [Ht _].
  unfold expired in E. rewrite since_spec in E by done. bool_to_prop.
  apply StronglySorted_inv in Hs as [_ Hs]. constructor; [lia |].
  eapply Forall_impl; [exact Hs | cbn; lia].
Qed.

(** What the limiter looks at when [peer] comes at [now]. *)
Lemma refreshed_right now m peer granted opened :
  peer_right now (m !! peer) granted opened →
  let s := refreshed_peer m peer now in
  peer_right now (Some s) granted opened ∧ pr_active s = opened ∧
  zlength (pr_attempts s) = zlength (recent now granted).
Proof.
  intros (H1 & H2 & (old & H3 & H4) & H5 & H6 & H7 & H8). cbn zeta.
  set (l := default [] (pr_attempts <$> m !! peer)) in *.
  assert (pr_attempts (refreshed_peer m peer now) = drop_while (expired now) l) as Ea.
  { unfold refreshed_peer, l. by destruct (m !! peer). }
  assert (pr_active (refreshed_peer m peer now) = opened) as Eo.
  { rewrite H1. unfold refreshed_peer. by destruct (m !! peer). }
  assert (Forall (λ t, t ≤ now) l) as Hl by (rewrite H3 in H7; by apply Forall_app in H7 as [_ ?]).
  destruct (drop_while_expired now l Hl) as (old' & E & F).
  assert (Forall (λ t, t + CONNECTION_RATE_WINDOW ≤ now) (old ++ old')) as Hold by by apply Forall_app.
  assert (zlength (drop_while (expired now) l) ≤ zlength l) as Hlen.
  { rewrite E at 2. rewrite zlength_app. pose proof (zlength_nonneg old'). lia. }
  assert (granted = (old ++ old') ++ drop_while (expired now) l) as Hg
    by by rewrite <- app_assoc, <- E.
  split; [split_and! | split; [exact Eo |]]; cbn; rewrite ?Ea; try done; try lia.
  - by exists (old ++ old').
  - intros s [= <-]. rewrite Ea. change (pr_last_seen _) with now. split; [lia |].
    rewrite E in Hl. by apply Forall_app in Hl as [_ ?].
  - unfold recent. rewrite Hg in H5, H7 |- *. rewrite filter_app.
    rewrite (filter_none _ (old ++ old')), filter_all; [done | by eapply fresh_suffix |].
    eapply Forall_impl; [exact Hold | cbn; lia].
Qed.

(** ** What is granted *)

Lemma peers_len_insert m p s :
  peers_len (<[p := s]> m) = if decide (is_Some (m !! p)) then peers_len m else peers_len m + 1.
Proof.
  unfold peers_len. case_decide as Hs.
  - rewrite map_size_insert_Some by done. done.
  - apply eq_None_not_Some in Hs. rewrite map_size_insert_None by done. lia.
Qed.

Lemma retain_len now m : peers_len (retain_recent now m) ≤ peers_len m.
Proof.
  unfold peers_len. apply inj_le, map_subseteq_size, map_filter_subseteq.
Qed.

(** The table is full of other addresses that are connected or were seen within
    the window. *)
Definition table_full (now : Z) (m : ConnectionLimiter) (peer : Z) : Prop :=
  MAX_PEER_LIMIT_ENTRIES ≤ peers_len (retain_recent now m) ∧ retain_recent now m !! peer = None.

(** The table the decision is made on. *)
Definition swept (now : Z) (m : ConnectionLimiter) : ConnectionLimiter :=
  if MAX_PEER_LIMIT_ENTRIES <=? peers_len m then retain_recent now m else m.

Lemma try_acquire_unfold peer now m :
  (table_full now m peer ∧ try_acquire peer now m = (swept now m, false)) ∨
  (¬ table_full now m peer ∧
   (peers_len (swept now m) < MAX_PEER_LIMIT_ENTRIES ∨ is_Some (swept now m !! peer)) ∧
   let s := refreshed_peer (swept now m) peer now in
   try_acquire peer now m =
     if (MAX_CONNECTIONS_PER_IP <=? pr_active s)
        || (MAX_CONNECTION_ATTEMPTS_PER_MINUTE <=? zlength (pr_attempts s))
     then (<[peer := s]> (swept now m), false)
     else (<[peer := mkPeer (pr_active s + 1) (pr_attempts s ++ [now]) now]> (swept now m), true)).
Proof.
  unfold try_acquire. fold (swept now m). pose proof (retain_len now m) as Hlen.
  assert (MAX_PEER_LIMIT_ENTRIES ≤ peers_len m → swept now m = retain_recent now m) as Hsw.
  { intros Hf. unfold swept. by rewrite (proj2 (Z.leb_le _ _)). }
  destruct (Z.leb_spec MAX_PEER_LIMIT_ENTRIES (peers_len m)) as [Hf|Hf]; cbn [andb].
  2: { right. split; [unfold table_full; lia |]. split; [| done].
       left. unfold swept. by rewrite (proj2 (Z.leb_gt _ _)). }
  rewrite Hsw by done. unfold table_full.
  destruct (Z.leb_spec MAX_PEER_LIMIT_ENTRIES (peers_len (retain_recent now m))); cbn [andb].
  2: { right. split; [lia |]. split; [by left | done]. }
  destruct (bool_decide_reflect (is_Some (retain_recent now m !! peer))) as [Hp|Hp]; cbn [negb].
  - right. split; [intros [_ E]; rewrite E in Hp; by destruct Hp |]. split; [by right | done].
  - left. split; [| done]. split; [done |]. by apply eq_None_not_Some.
Qed.

Lemma peers_len_insert_le m p s :
  peers_len m ≤ MAX_PEER_LIMIT_ENTRIES →
  peers_len m < MAX_PEER_LIMIT_ENTRIES ∨ is_Some (m !! p) →
  peers_len (<[p := s]> m) ≤ MAX_PEER_LIMIT_ENTRIES.
Proof. intros H1 H2. rewrite peers_len_insert. case_decide; [done |]. destruct H2; [lia | done]. Qed.

(** A grant keeps the entry right. *)
Lemma peer_right_grant now s granted opened :
  peer_right now (Some s) granted opened →
  opened < MAX_CONNECTIONS_PER_IP →
  zlength (pr_attempts s) < MAX_CONNECTION_ATTEMPTS_PER_MINUTE →
  peer_right now (Some (mkPeer (pr_active s + 1) (pr_attempts s ++ [now]) now))
    (granted ++ [now]) (opened + 1).
Proof.
  intros (H1 & H2 & (old & H3 & H4) & H5 & H6 & H7 & H8) Ho Ha. cbn in *. split_and!; cbn; try lia.
  - exists old. by rewrite H3, app_assoc.
  - by apply StronglySorted_snoc.
  - rewrite zlength_app. change (zlength [now]) with 1. lia.
  - apply Forall_app. split; [done |]. by constructor.
  - intros t [= <-]. cbn. split; [lia |]. destruct (H8 s eq_refl) as [Hl Hall].
    apply Forall_app. split; [| by constructor]. eapply Forall_impl; [exact Hall | cbn; lia].
Qed.

(** The whole step of the limiter. *)
Lemma try_acquire_right peer now m granted opened :
  (∀ p, peer_right now (m !! p) (granted p) (opened p)) →
  peers_len m ≤ MAX_PEER_LIMIT_ENTRIES →
  let '(m', ok) := try_acquire peer now m in
  (ok = true ↔ ¬ table_full now m peer ∧ opened peer < MAX_CONNECTIONS_PER_IP ∧
     zlength (recent now (granted peer)) < MAX_CONNECTION_ATTEMPTS_PER_MINUTE) ∧
  (∀ p, peer_right now (m' !! p) ((if ok then record_grant granted peer now else granted) p)
          ((if ok then bump opened peer 1 else opened) p)) ∧
  peers_len m' ≤ MAX_PEER_LIMIT_ENTRIES.
Proof.
  intros Hall Hlen.
  assert (∀ p, peer_right now (swept now m !! p) (granted p) (opened p)) as Hsw.
  { intros p. unfold swept. case_match; [apply retain_right |]; apply Hall. }
  assert (peers_len (swept now m) ≤ MAX_PEER_LIMIT_ENTRIES) as Hslen.
  { pose proof (retain_len now m). unfold swept. case_match; lia. }
  destruct (try_acquire_unfold peer now m) as [[Hf ->]|(Hf & Hroom & E)].
  { split; [| by split]. naive_solver. }
  destruct (refreshed_right now (swept now m) peer _ _ (Hsw peer)) as (Hr & Ha & Ht).
  set (s := refreshed_peer (swept now m) peer now) in *. clearbody s. rewrite E, Ha, Ht.
  destruct (Z.leb_spec MAX_CONNECTIONS_PER_IP (opened peer)); cbn [orb].
  { split; [naive_solver lia |]. split; [| by apply peers_len_insert_le].
    intros p. destruct (decide (p = peer)) as [->|Hne]; simplify_map_eq; [exact Hr | apply Hsw]. }
  destruct (Z.leb_spec MAX_CONNECTION_ATTEMPTS_PER_MINUTE (zlength (recent now (granted peer)))).
  { split; [naive_solver lia |]. split; [| by apply peers_len_insert_le].
    intros p. destruct (decide (p = peer)) as [->|Hne]; simplify_map_eq; [exact Hr | apply Hsw]. }
  split; [done |]. split; [| by apply peers_len_insert_le].
  intros p. unfold record_grant, bump. destruct (decide (p = peer)) as [->|Hne]; simplify_map_eq.
  - rewrite <- Ha in *. apply peer_right_grant; [done.. | by rewrite Ht].
  - apply Hsw.
Qed.

Lemma peer_right_end now s granted opened :
  peer_right now (Some s) granted opened → 0 < opened →
  peer_right now (Some (mkPeer (saturating_sub (pr_active s) 1) (pr_attempts s) (pr_last_seen s)))
    granted (opened - 1).
Proof.
  intros (H1 & H2 & H3 & H4 & H5 & H6 & H7) Hp. cbn in *. unfold saturating_sub.
  split_and!; cbn; try done; try lia.
  intros t [= <-]. cbn. by apply H7.
Qed.

Lemma admission_step_right a b : admission_right a → admission_step a b → admission_right b.
Proof.
  intros (Hp & Hl & Hs & Hs0) Hstep. destruct Hstep as [peer now a Hnow|peer a Hopen].
  - unfold try_admission, admit_stream.
    assert (∀ p, peer_right now (connection_limiter (ad_network a) !! p) (ad_granted a p) (ad_open a p))
      as Hp' by (intros p; by eapply peer_right_later).
    destruct (Z.leb_spec (connection_slots (ad_network a)) 0); [by split_and! |].
    pose proof (try_acquire_right peer now _ _ _ Hp' Hl) as Ht.
    destruct (try_acquire peer now (connection_limiter (ad_network a))) as [m' [|]];
      destruct Ht as (_ & ? & ?); split_and!; cbn; done || lia.
  - unfold end_connection, drop_peer_lease. unfold admission_right. cbn.
    pose proof (Hp peer) as Hr.
    destruct (connection_limiter (ad_network a) !! peer) as [s|] eqn:E.
    2: { destruct Hr as [Ho _]. cbn in Ho. lia. }
    split_and!; [| | lia | lia].
    + intros p. unfold bump. destruct (decide (p = peer)) as [->|Hne]; simplify_map_eq; [| apply Hp].
      change (ad_open a peer + -1) with (ad_open a peer - 1). by apply peer_right_end.
    + apply peers_len_insert_le; [done |]. right. by rewrite E.
Qed.

(** C28. Connections of the network server: whoever connects and leaves in
    whatever order, at most 32 are open at once and 8 per address, an address
    is granted at most 30 in any window of a minute, and the table holds at
    most 1024 addresses. A stream is refused only for one of these reasons: the
    slots are used, the table is full of other addresses, or the address has 8
    open or 30 recent connections. *)
Theorem admission_exact a peer now
    (Hrun : star admission_step admission_start a) (Hnow : ad_now a ≤ now) :
  let m := connection_limiter (ad_network a) in
  ad_total a ≤ 32 ∧ ad_open a peer ≤ 8 ∧ peers_len m ≤ 1024 ∧
  zlength (recent now (ad_granted a peer)) ≤ 30 ∧
  ((admit_stream peer now (ad_network a)).2 = true ↔
     ad_total a < 32 ∧ ¬ table_full now m peer ∧ ad_open a peer < 8 ∧
     zlength (recent now (ad_granted a peer)) < 30).
Proof.
  assert (admission_right a) as (Hp & Hl & Hs & Hs0).
  { eapply (star_invariant admission_step); [| exact Hrun |].
    - intros s t Hs Hst. by eapply admission_step_right.
    - split_and!; [| done..]. intros p. cbn. rewrite lookup_empty.
      split_and!; cbn; try done. + by exists []. + constructor. }
  intros m. unfold admit_stream. fold m in Hl |- *.
  assert (∀ p, peer_right now (m !! p) (ad_granted a p) (ad_open a p)) as Hp'
    by (intros p; by eapply peer_right_later).
  pose proof (Hp' peer) as (_ & Ho & _).
  pose proof (refreshed_right now m peer _ _ (Hp' peer)) as (Hr & _ & Hrec).
  destruct Hr as (_ & _ & _ & _ & Ha & _). cbn [fmap option_fmap option_map default] in Ha.
  change (zlength (pr_attempts (refreshed_peer m peer now)) ≤ MAX_CONNECTION_ATTEMPTS_PER_MINUTE) in Ha.
  rewrite Hrec in Ha.
  unfold MAX_CONNECTIONS, MAX_CONNECTIONS_PER_IP, MAX_PEER_LIMIT_ENTRIES,
    MAX_CONNECTION_ATTEMPTS_PER_MINUTE in *.
  do 4 (split; [lia |]).
  destruct (Z.leb_spec (connection_slots (ad_network a)) 0); cbn [snd].
  { split; [done | lia]. }
  pose proof (try_acquire_right peer now m _ _ Hp' Hl) as Ht.
  destruct (try_acquire peer now m) as [m' ok]; destruct Ht as (Hok & _). cbn [snd].
  rewrite Hok. split; [intros (? & ? & ?); split_and!; done || lia | by intros (_ & ? & ? & ?)].
Qed.

(** Nine connections of one address: the ninth is refused. *)
Definition nine_tries : admission := Nat.iter 8 (try_admission 7 5) admission_start.

Lemma admission_exact_witness :
  ad_open nine_tries 7 = 8 ∧
  ((admit_stream 7 6 (ad_network nine_tries)).2 = true ↔
     ad_total nine_tries < 32 ∧ ¬ table_full 6 (connection_limiter (ad_network nine_tries)) 7 ∧
     ad_open nine_tries 7 < 8 ∧ zlength (recent 6 (ad_granted nine_tries 7)) < 30).
Proof.
  split; [vm_compute; reflexivity |].
  apply (admission_exact nine_tries 7 6).
  - unfold nine_tries.
    assert (∀ n b, ad_now b ≤ 5 → star admission_step b (Nat.iter n (try_admission 7 5) b)) as Hs.
    { intros n b. revert b. induction n as [|n IH]; intros b Hb; [apply star_refl |].
      rewrite Nat.iter_succ_r. apply (star_step _ _ (try_admission 7 5 b)); [by constructor |].
      apply IH. unfold try_admission. destruct (admit_stream 7 5 (ad_network b)) as [n' []]; cbn; lia. }
    apply Hs. cbn. lia.
  - vm_compute. congruence.
Defined.

(** ** Control connections *)

(** Leases taken and dropped; [ct_open] counts those of each phone. *)
Record control_run := mkControlRun {
  ct_limiter : ControlConnectionLimiter;
  ct_open : string → Z;
}.

Definition sbump (f : string → Z) (p : string) (d : Z) : string → Z :=
  λ q, if decide (q = p) then f q + d else f q.

Inductive control_step : control_run → control_run → Prop :=
| control_take p r m ok :
    control_try_acquire p (ct_limiter r) = (m, ok) →
    control_step r (mkControlRun m (if ok then sbump (ct_open r) p 1 else ct_open r))
| control_drop p r :
    0 < ct_open r p →
    control_step r (mkControlRun (drop_control_lease p (ct_limiter r)) (sbump (ct_open r) p (-1))).

Definition control_right (r : control_run) : Prop :=
  ∀ p, 0 ≤ ct_open r p ≤ MAX_CONTROL_CONNECTIONS_PER_PHONE ∧
    ct_limiter r !! p = if decide (ct_open r p = 0) then None else Some (ct_open r p).

Lemma control_right_default r p : control_right r → default 0 (ct_limiter r !! p) = ct_open r p.
Proof. intros H. destruct (H p) as [_ ->]. by case_decide. Qed.

Lemma control_step_right r r' : control_right r → control_step r r' → control_right r'.
Proof.
  intros Hr Hstep. destruct Hstep as [p r m ok E|p r Hopen].
  - pose proof (control_right_default r p Hr) as Hd. unfold control_try_acquire in E. rewrite Hd in E.
    destruct (Hr p) as [Hb Hl].
    destruct (Z.leb_spec MAX_CONTROL_CONNECTIONS_PER_PHONE (ct_open r p)) as [Hfull|Hfree];
      injection E as <- <-; intros q; cbn.
    + split; [apply Hr |]. destruct (decide (q = p)) as [->|Hne]; simplify_map_eq; [| apply Hr].
      rewrite decide_False; [done |]. unfold MAX_CONTROL_CONNECTIONS_PER_PHONE in *. lia.
    + unfold sbump. destruct (decide (q = p)) as [->|Hne]; simplify_map_eq; [| apply Hr].
      split; [lia |]. rewrite decide_False by lia. done.
  - destruct (Hr p) as [Hb Hl]. rewrite decide_False in Hl by lia.
    unfold drop_control_lease. rewrite Hl. unfold saturating_sub. intros q; cbn. unfold sbump.
    rewrite Z.max_l by lia. destruct (Z.eqb_spec (ct_open r p - 1) 0) as [E|E];
      (destruct (decide (q = p)) as [->|Hne]; simplify_map_eq; [| apply Hr]).
    + split; [lia | done].
    + by split; [lia |].
Qed.

(** A phone holds at most two control connections at once, gets a further
    one exactly while it holds fewer, and the limiter keeps an entry exactly
    for the phones that hold one. *)
Theorem control_connections_bounded r p
    (Hrun : star control_step (mkControlRun ∅ (λ _, 0)) r) :
  0 ≤ ct_open r p ≤ 2 ∧
  ((control_try_acquire p (ct_limiter r)).2 = true ↔ ct_open r p < 2) ∧
  (is_Some (ct_limiter r !! p) ↔ 0 < ct_open r p).
Proof.
  assert (control_right r) as Hr.
  { eapply (star_invariant control_step); [| exact Hrun |].
    - intros s t Hs Hst. by eapply control_step_right.
    - intros q. by split. }
  destruct (Hr p) as [Hb Hl]. split; [done |]. split.
  - unfold control_try_acquire. rewrite control_right_default by done.
    unfold MAX_CONTROL_CONNECTIONS_PER_PHONE. destruct (Z.leb_spec 2 (ct_open r p)); cbn; naive_solver lia.
  - rewrite Hl. case_decide as Hd.
    + rewrite Hd. split; [by intros [? ?] | lia].
    + split; [lia | by eexists].
Qed.

Lemma control_connections_bounded_witness :
  0 ≤ ct_open (mkControlRun {["a" := 1]} (sbump (λ _, 0) "a" 1)) "a" ≤ 2.
Proof.
  apply (control_connections_bounded (mkControlRun {["a" := 1]} (sbump (λ _, 0) "a" 1)) "a").
  eapply star_step; [| apply star_refl].
  exact (control_take "a" (mkControlRun ∅ (λ _, 0)) {["a" := 1]} true eq_refl).
Defined.
