(* ===== verification/Pairing.v ===== *)
(** * Paired phones and authentication

    [flowtype-app/src/pairing_store.rs]: the phones paired with this computer,
    in memory and on disk; and [network_server.rs authenticate_phone]: how a
    connecting phone is paired with the one-time token or recognised by its
    key. Base64 and the signature scheme (ECDSA P-256) are parameters; whether
    a write to the disk succeeds is an argument of the operations that write. *)

From S2P Require Import Prelude Text Protocol.

Local Open Scope string_scope.
Local Open Scope list_scope.
Local Open Scope Z_scope.

(** [app/pairing_store.rs PairedPhone] *)
Record PairedPhone := mkPhone {
  phone_name : string;
  public_key_spki : string;
  paired_at : Z;
  last_connected : option Z;
}.
#[export] Instance PairedPhone_eq_dec : EqDecision PairedPhone.
Proof. solve_decision. Defined.

(** The entries of the map, by phone id. *)
Notation phone_map := (gmap string PairedPhone).

(** ** Deduplication *)

(** [app/pairing_store.rs:134-140 deduplicate_paired_phones] The comparison: the most recently used
    first, then by id. *)
Definition phone_order (left right : string * PairedPhone) : comparison :=
  match default 0 (last_connected right.2) ?= default 0 (last_connected left.2) with
  | Eq =>
    match paired_at right.2 ?= paired_at left.2 with
    | Eq => String.compare left.1 right.1
    | c => c
    end
  | c => c
  end.

Definition phone_leb (left right : string * PairedPhone) : bool :=
  match phone_order left right with Gt => false | _ => true end.

(** [app/pairing_store.rs:142-148 deduplicate_paired_phones] The loop over the
    sorted entries. *)
Fixpoint keep_new_keys (seen : gset string) (kept : phone_map)
    (entries : list (string * PairedPhone)) : phone_map :=
  match entries with
  | [] => kept
  | (phone_id, phone) :: entries =>
    if str_is_empty (public_key_spki phone) then
      keep_new_keys seen (<[phone_id := phone]> kept) entries
    else if bool_decide (public_key_spki phone ∈ seen) then keep_new_keys seen kept entries
    else keep_new_keys ({[public_key_spki phone]} ∪ seen) (<[phone_id := phone]> kept) entries
  end.

(** [app/pairing_store.rs deduplicate_paired_phones] [entries] are the map's in
    the order it iterates them, which is arbitrary. *)
Definition deduplicate_paired_phones (entries : list (string * PairedPhone)) : phone_map * bool :=
  let deduplicated := keep_new_keys ∅ ∅ (stable_sort phone_leb entries) in
  (deduplicated, negb (Z.of_nat (size deduplicated) =? zlength entries)).

(** [app/pairing_store.rs upsert_paired_phone] *)
Definition upsert_paired_phone (phones : phone_map) (phone_id name key : string) (now : Z) : phone_map :=
  match phones !! phone_id with
  | Some phone =>
    <[phone_id := mkPhone name key (if paired_at phone =? 0 then now else paired_at phone)
                    (Some now)]> phones
  | None => <[phone_id := mkPhone name key now (Some now)]> phones
  end.

(** ** The store *)

(** [app/pairing_store.rs PairedPhoneStore] With what the file holds. *)
Record PairedPhoneStore := mkPhoneStore {
  phones : phone_map;
  file_phones : phone_map;
}.

(** [app/pairing_store.rs PairedPhoneStore::load] [None] is a missing file. *)
Definition PairedPhoneStore_load (stored : option (list (string * PairedPhone))) (write_ok : bool)
    : result string PairedPhoneStore :=
  let entries := default [] stored in
  let '(loaded, changed) := deduplicate_paired_phones entries in
  if changed then
    if write_ok then Ok (mkPhoneStore loaded loaded) else Err "cannot write"
  else Ok (mkPhoneStore loaded (list_to_map entries)).

(** [app/pairing_store.rs PairedPhoneStore::is_empty] *)
Definition PairedPhoneStore_is_empty (s : PairedPhoneStore) : bool := bool_decide (phones s = ∅).

(** [app/pairing_store.rs PairedPhoneStore::public_key] *)
Definition public_key (s : PairedPhoneStore) (phone_id : string) : option string :=
  public_key_spki <$> phones s !! phone_id.

(** [app/pairing_store.rs PairedPhoneStore::update] *)
Definition update_store {R} (write_ok : bool) (operation : phone_map → phone_map * R)
    (s : PairedPhoneStore) : result string R * PairedPhoneStore :=
  let '(new, r) := operation (phones s) in
  if write_ok then (Ok r, mkPhoneStore new new) else (Err "cannot write", s).

(** [app/pairing_store.rs PairedPhoneStore::upsert] *)
Definition upsert (write_ok : bool) (phone_id name key : string) (now : Z) (s : PairedPhoneStore)
    : result string unit * PairedPhoneStore :=
  update_store write_ok (λ phones, (upsert_paired_phone phones phone_id name key now, tt)) s.

(** [app/pairing_store.rs PairedPhoneStore::mark_connected] *)
Definition mark_connected (write_ok : bool) (phone_id name : string) (now : Z) (s : PairedPhoneStore)
    : result string unit * PairedPhoneStore :=
  let '(r, s) := update_store write_ok (λ phones,
    match phones !! phone_id with
    | None => (phones, Err "phone is not paired")
    | Some phone =>
      (<[phone_id := mkPhone name (public_key_spki phone) (paired_at phone) (Some now)]> phones, Ok tt)
    end) s in
  (r ≫= id, s).

(** [app/pairing_store.rs PairedPhoneStore::remove] *)
Definition remove_phone (write_ok : bool) (phone_id : string) (s : PairedPhoneStore)
    : result string unit * PairedPhoneStore :=
  update_store write_ok (λ phones, (delete phone_id phones, tt)) s.

(** ** Authentication *)

(** [app/main.rs AuthMessage] *)
Record AuthMessage := mkAuth {
  am_protocol_version : Z;
  am_message_type : string;
  am_phone_id : string;
  am_phone_name : string;
  am_pairing_token : option string;
  am_public_key_spki : option string;
  am_connection_mode : option string;
  am_capabilities : list string;
  am_signature : string;
}.

(** The pairing token offered to phones and the phones. *)
Record PairingState := mkPairing {
  pairing_token : option string;
  paired_phones : PairedPhoneStore;
}.

(** [app/network_server.rs auth_payload] *)
Definition auth_payload (pc_id phone_id nonce : string) : list Z :=
  bytes_of "flowtype-auth-v1" ++ 0 :: bytes_of pc_id ++ 0 :: bytes_of phone_id
  ++ 0 :: bytes_of nonce.

Section authentication.
Context {Key Signature : Type} (base64_decode : string → option (list Z))
  (key_from_der : list Z → option Key) (signature_from_der : list Z → option Signature)
  (ecdsa_verify : Key → list Z → Signature → bool).
Context (pc_id : string).

(** [app/network_server.rs verify_signature] *)
Definition verify_signature (auth : AuthMessage) (nonce key : string) : result string unit :=
  public_key ← ok_or (base64_decode key) "invalid public key";
  verifying_key ← ok_or (key_from_der public_key) "invalid public key";
  signature ← ok_or (base64_decode (am_signature auth)) "invalid signature";
  signature ← ok_or (signature_from_der signature) "invalid signature";
  guard_err (negb (ecdsa_verify verifying_key (auth_payload pc_id (am_phone_id auth) nonce) signature))
    "signature verification failed".

(** [app/network_server.rs authenticate_phone] [meanwhile] is what the window
    did to the token between its removal and the failed write. *)
Definition authenticate_phone (write_ok : bool) (meanwhile : option string → option string) (now : Z)
    (auth : AuthMessage) (nonce : string) (s : PairingState) : result string unit * PairingState :=
  if negb (am_protocol_version auth =? PROTOCOL_VERSION) then (Err "unsupported protocol", s)
  else if bool_decide (am_message_type auth = "pair") then
    match am_pairing_token auth with
    | None => (Err "pairing token required", s)
    | Some supplied =>
      if negb (bool_decide (pairing_token s = Some supplied)) then (Err "invalid pairing token", s)
      else
        match am_public_key_spki auth with
        | None => (Err "public key required", s)
        | Some key =>
          match verify_signature auth nonce key with
          | Err e => (Err e, s)
          | Ok _ =>
            let token := meanwhile None in
            match upsert write_ok (am_phone_id auth) (am_phone_name auth) key now (paired_phones s) with
            | (Ok _, store) => (Ok tt, mkPairing token store)
            | (Err _, store) =>
              (Err "cannot save phone",
               mkPairing (match token with None => Some supplied | Some _ => token end) store)
            end
          end
        end
    end
  else if bool_decide (am_message_type auth = "authenticate") then
    match public_key (paired_phones s) (am_phone_id auth) with
    | None => (Err "phone is not paired", s)
    | Some key =>
      match verify_signature auth nonce key with
      | Err e => (Err e, s)
      | Ok _ =>
        match mark_connected write_ok (am_phone_id auth) (am_phone_name auth) now (paired_phones s) with
        | (Ok _, store) => (Ok tt, mkPairing (pairing_token s) store)
        | (Err _, store) => (Err "cannot save phone", mkPairing (pairing_token s) store)
        end
      end
    end
  else (Err "invalid auth type", s).

(** [app/main.rs:924-928 AppState::begin_pairing] *)
Definition begin_pairing (token : string) (s : PairingState) : PairingState :=
  mkPairing (Some token) (paired_phones s).

(** [app/main.rs AppState::cancel_pairing] *)
Definition cancel_pairing (s : PairingState) : PairingState := mkPairing None (paired_phones s).
End authentication.
