(* ===== verification/PairingSafety.v ===== *)
(** * What pairing and authentication guarantee *)

From S2P Require Import Prelude Text Protocol Pairing.
From Stdlib Require Import OrderedTypeEx.

Local Open Scope string_scope.
Local Open Scope list_scope.
Local Open Scope Z_scope.

(** ** The order of the phones is total *)

Lemma string_compare_lt_trans a b c :
  String.compare a b = Lt → String.compare b c = Lt → String.compare a c = Lt.
Proof.
  change String.compare with String_as_OT.cmp. rewrite !String_as_OT.cmp_lt.
  apply String_as_OT.lt_trans.
Qed.

Lemma string_compare_refl a : String.compare a a = Eq.
Proof. pose proof (String.compare_antisym a a). destruct (String.compare a a); done. Qed.

Lemma phone_order_antisym a b : phone_order a b = CompOpp (phone_order b a).
Proof.
  unfold phone_order.
  rewrite (Z.compare_antisym (default 0 (last_connected b.2)) (default 0 (last_connected a.2))).
  destruct (default 0 (last_connected b.2) ?= default 0 (last_connected a.2)); cbn; try done.
  rewrite (Z.compare_antisym (paired_at b.2) (paired_at a.2)).
  destruct (paired_at b.2 ?= paired_at a.2); cbn; try done.
  apply String.compare_antisym.
Qed.

(** The comparison is lexicographic, so it is transitive. *)
Lemma phone_order_Lt a b :
  phone_order a b = Lt ↔
  default 0 (last_connected b.2) < default 0 (last_connected a.2) ∨
  default 0 (last_connected b.2) = default 0 (last_connected a.2) ∧
  (paired_at b.2 < paired_at a.2 ∨
   paired_at b.2 = paired_at a.2 ∧ String.compare a.1 b.1 = Lt).
Proof.
  unfold phone_order.
  destruct (Z.compare_spec (default 0 (last_connected b.2)) (default 0 (last_connected a.2)));
    [| naive_solver lia..].
  destruct (Z.compare_spec (paired_at b.2) (paired_at a.2)); naive_solver lia.
Qed.

Lemma phone_order_trans a b c :
  phone_order a b = Lt → phone_order b c = Lt → phone_order a c = Lt.
Proof.
  rewrite !phone_order_Lt. pose proof (string_compare_lt_trans a.1 b.1 c.1).
  intros [?|[? [?|[? ?]]]] [?|[? [?|[? ?]]]]; first [left; lia | right; split; [lia |]];
    first [left; lia | right; split; [lia | auto]].
Qed.

Lemma phone_order_Eq a b : phone_order a b = Eq → a.1 = b.1.
Proof.
  unfold phone_order. repeat case_match; try done. apply String.compare_eq_iff.
Qed.

Lemma phone_leb_Lt a b : a.1 ≠ b.1 → phone_leb a b = true → phone_order a b = Lt.
Proof.
  unfold phone_leb. intros Hne. destruct (phone_order a b) eqn:E; try done.
  by apply phone_order_Eq in E.
Qed.

Lemma phone_leb_total a b : phone_leb a b = false → phone_leb b a = true.
Proof.
  unfold phone_leb. rewrite (phone_order_antisym b a). by destruct (phone_order a b).
Qed.

(** The entries sorted: each before every later one. *)
Lemma sorted_phones_strict l :
  NoDup l.*1 →
  let k := stable_sort phone_leb l in
  NoDup k.*1 ∧ StronglySorted (λ a b, phone_order a b = Lt) k.
Proof.
  intros Hnd. cbn zeta.
  assert (NoDup (stable_sort phone_leb l).*1) as Hk by by rewrite (stable_sort_perm phone_leb l).
  split; [done |].
  pose proof (stable_sort_sorted phone_leb phone_leb_total l) as Hs.
  revert Hk Hs. generalize (stable_sort phone_leb l). clear. intros k Hk Hs.
  apply Sorted_StronglySorted; [intros a b c; apply phone_order_trans |].
  induction Hs as [|a k Hs IH Hd]; [constructor |].
  cbn in Hk. apply NoDup_cons in Hk as [Ha Hk]. constructor; [by apply IH |].
  destruct Hd as [|b k Hab]; constructor. apply phone_leb_Lt; [| done].
  intros E. apply Ha. rewrite E. cbn. by left.
Qed.

(** ** What deduplication keeps *)

Implicit Types (l : list (string * PairedPhone)).

Definition key_of (e : string * PairedPhone) : string := public_key_spki e.2.

(** An entry survives the loop when its key is new there. *)
Lemma keep_new_keys_lookup seen kept l id ph :
  NoDup l.*1 → (∀ e, e ∈ l → kept !! e.1 = None) →
  keep_new_keys seen kept l !! id = Some ph ↔
  kept !! id = Some ph ∨
  ∃ l1 l2, l = l1 ++ (id, ph) :: l2 ∧
    (public_key_spki ph = "" ∨
     public_key_spki ph ∉ seen ∧ Forall (λ e, key_of e ≠ public_key_spki ph) l1).
Proof.
  revert seen kept. induction l as [|[i p] l IH]; intros seen kept Hnd Hk.
  { cbn. split; [by left |]. intros [?|([] & ? & ? & _)]; done. }
  cbn in Hnd. apply NoDup_cons in Hnd as [Hi Hnd].
  assert (kept !! i = None) as Hki by (apply (Hk (i, p)); by left).
  assert (∀ x e, e ∈ l → (<[i := x]> kept) !! e.1 = None) as Hk'.
  { intros x e He. rewrite lookup_insert_ne; [apply Hk; by right |].
    intros ->. apply Hi. by apply list_elem_of_fmap_2. }
  assert (∀ Q : list (string * PairedPhone) → Prop,
    (∃ l1 l2, (i, p) :: l = l1 ++ (id, ph) :: l2 ∧ Q l1) ↔
    ((i, p) = (id, ph) ∧ Q []) ∨ (∃ l1 l2, l = l1 ++ (id, ph) :: l2 ∧ Q ((i, p) :: l1))) as Hsplit.
  { intros Q. split.
    - intros ([|e l1] & l2 & E & HQ); injection E; intros; subst; [by left | right; eauto].
    - intros [[E HQ]|(l1 & l2 & -> & HQ)]; [exists [], l; by rewrite <- E | by exists ((i, p) :: l1), l2]. }
  rewrite (Hsplit (λ l1, public_key_spki ph = "" ∨
     public_key_spki ph ∉ seen ∧ Forall (λ e, key_of e ≠ public_key_spki ph) l1)).
  setoid_rewrite Forall_cons. cbn [keep_new_keys].
  change (key_of (i, p)) with (public_key_spki p).
  destruct (str_is_empty (public_key_spki p)) eqn:Ee.
  { apply str_is_empty_true in Ee. rewrite IH by auto. rewrite lookup_insert_Some.
    split.
    - intros [[[-> ->]|[_ ?]]|(l1 & l2 & -> & Hq)]; [by right; left; auto | by left |].
      do 2 right. exists l1, l2. split; [done |]. destruct Hq as [?|[Hq Hf]]; [by left |].
      destruct (decide (public_key_spki ph = "")); [by left |]. right. split_and!; congruence.
    - intros [?|[[[= -> ->] _]|(l1 & l2 & -> & Hq)]].
      + left. right. split; [| done]. intros ->. congruence.
      + left. by left.
      + right. exists l1, l2. split; [done |]. destruct Hq as [?|(? & ? & ?)]; [by left | by right]. }
  apply str_is_empty_false in Ee.
  destruct (bool_decide_reflect (public_key_spki p ∈ seen)) as [Hs|Hs].
  { rewrite IH; [| done | intros e He; apply Hk; by right].
    split.
    2: { intros [?|[[[= -> ->] Hq]|(l1 & l2 & -> & Hq)]]; [by left | |].
         - by destruct Hq as [?|[? _]].
         - right. exists l1, l2. split; [done |].
           destruct Hq as [?|(? & ? & ?)]; [by left | by right]. }
    intros [?|(l1 & l2 & -> & Hq)]; [by left |]. do 2 right. exists l1, l2. split; [done |].
    destruct Hq as [?|[Hq Hf]]; [by left |]. right. split_and!; try done. congruence. }
  rewrite IH by auto. rewrite lookup_insert_Some. split.
  - intros [[[-> ->]|[_ ?]]|(l1 & l2 & -> & Hq)]; [by right; left; auto | by left |].
    do 2 right. exists l1, l2. split; [done |]. destruct Hq as [?|[Hq Hf]]; [by left |].
    right. set_solver.
  - intros [?|[[[= -> ->] _]|(l1 & l2 & -> & Hq)]].
    + left. right. split; [| done]. intros ->. congruence.
    + left. by left.
    + right. exists l1, l2. split; [done |]. destruct Hq as [?|(Hq & Hne & Hf)]; [by left |].
      right. set_solver.
Qed.

(** In a strictly sorted list, what precedes an entry is what is ordered before it. *)
Lemma sorted_split_before l l1 e l2 :
  StronglySorted (λ a b, phone_order a b = Lt) l → l = l1 ++ e :: l2 →
  ∀ f, f ∈ l → f ≠ e → (f ∈ l1 ↔ phone_order f e = Lt).
Proof.
  intros Hs ->. induction l1 as [|x l1 IH]; cbn in *; intros f Hf Hne.
  - apply StronglySorted_inv in Hs as [_ Hs]. apply elem_of_cons in Hf as [|Hf]; [done |].
    split; [by intros ?%elem_of_nil |]. rewrite Forall_forall in Hs. specialize (Hs f Hf).
    rewrite phone_order_antisym, Hs. done.
  - apply StronglySorted_inv in Hs as [Hs Hx]. rewrite Forall_forall in Hx.
    apply elem_of_cons in Hf as [->|Hf].
    + split; [| by left]. intros _. apply Hx. apply elem_of_app. right. by left.
    + rewrite elem_of_cons, <- (IH Hs f Hf Hne). split; [| by right].
      intros [->|?]; [| done]. exfalso. specialize (Hx x Hf).
      pose proof (phone_order_antisym x x) as Ha. rewrite Hx in Ha. done.
Qed.

(** A map made of entries of a list lacks one of them exactly when it is smaller. *)
Lemma smaller_map_lacks l (m : phone_map) :
  NoDup l.*1 → (∀ id ph, m !! id = Some ph → (id, ph) ∈ l) →
  negb (Z.of_nat (size m) =? zlength l) = true ↔ ∃ e, e ∈ l ∧ m !! e.1 = None.
Proof.
  intros Hnd Hm. unfold zlength.
  assert (m ⊆ list_to_map l) as Hsub.
  { apply map_subseteq_spec. intros i x Hi. apply elem_of_list_to_map; [done | by apply Hm]. }
  assert (size (list_to_map l : phone_map) = length l) as Hsize.
  { by rewrite <- (map_size_list_to_map l Hnd). }
  rewrite negb_true_iff, Z.eqb_neq. split.
  - intros Hne. destruct (decide (Forall (λ e, is_Some (m !! e.1)) l)) as [Hall|Hex].
    + exfalso. apply Hne. f_equal. rewrite <- Hsize. f_equal. apply (anti_symm (⊆)); [done |].
      apply map_subseteq_spec. intros i x Hi%elem_of_list_to_map; [| done].
      rewrite Forall_forall in Hall. destruct (Hall (i, x) Hi) as [y Hy]. cbn in Hy.
      apply Hm in Hy as Hy'.
      apply (elem_of_list_to_map (M := gmap string)) in Hy', Hi; [| done..]. congruence.
    + apply not_Forall_Exists, Exists_exists in Hex as (e & He & Hn); [| apply _].
      exists e. split; [done |]. by apply eq_None_not_Some.
  - intros (e & He & Hn) E. apply Nat2Z.inj in E.
    assert (m = list_to_map l) as -> by (apply map_subseteq_size_eq; [done | lia]).
    destruct e as [i x]. cbn in Hn. apply not_elem_of_list_to_map in Hn.
    apply Hn. by apply (list_elem_of_fmap_2 fst _ (i, x)).
Qed.

(** Whatever order the stored map is iterated in, deduplication keeps a phone
    exactly when it has no key or no other phone with its key was connected
    more recently (then paired more recently, then has the smaller id), so
    exactly one phone of each key survives; and it asks for a rewrite exactly
    when it dropped one. *)
Theorem deduplicate_keeps_most_recent l (Hkeys : NoDup l.*1) :
  let '(kept, changed) := deduplicate_paired_phones l in
  (∀ id ph, kept !! id = Some ph ↔
     (id, ph) ∈ l ∧ (public_key_spki ph = "" ∨
       ∀ id' ph', (id', ph') ∈ l → public_key_spki ph' = public_key_spki ph → id' ≠ id →
         phone_order (id, ph) (id', ph') = Lt)) ∧
  (changed = true ↔ ∃ e, e ∈ l ∧ kept !! e.1 = None).
Proof.
  unfold deduplicate_paired_phones.
  destruct (sorted_phones_strict l Hkeys) as [Hk Hs].
  pose proof (elem_of_stable_sort phone_leb) as Hin.
  assert (length (stable_sort phone_leb l) = length l) as Hlen
    by by rewrite (stable_sort_perm phone_leb l).
  set (k := stable_sort phone_leb l) in *.
  assert (∀ id ph, keep_new_keys ∅ ∅ k !! id = Some ph ↔
     (id, ph) ∈ l ∧ (public_key_spki ph = "" ∨
       ∀ id' ph', (id', ph') ∈ l → public_key_spki ph' = public_key_spki ph → id' ≠ id →
         phone_order (id, ph) (id', ph') = Lt)) as Hspec.
  { intros id ph. rewrite keep_new_keys_lookup by (done || intros; apply lookup_empty).
    rewrite lookup_empty. split.
    - intros [?|(l1 & l2 & E & Hq)]; [done |].
      split; [apply Hin; fold k; rewrite E; apply elem_of_app; right; by left |].
      destruct Hq as [?|[_ Hf]]; [by left | right]. intros id' ph' Hin' Hkey Hne.
      rewrite phone_order_antisym.
      destruct (phone_order (id', ph') (id, ph)) eqn:Eo; [| | done].
      + by apply phone_order_Eq in Eo.
      + exfalso. apply (sorted_split_before k l1 (id, ph) l2 Hs E (id', ph')) in Eo;
          [| by apply Hin | congruence].
        rewrite Forall_forall in Hf. by apply (Hf _ Eo).
    - intros [Hin' Hq]. right. apply Hin in Hin'. fold k in Hin'.
      apply list_elem_of_split in Hin' as (l1 & l2 & E). exists l1, l2. split; [done |].
      destruct Hq as [?|Hq]; [by left | right]. split; [set_solver |].
      apply Forall_forall. intros [i p] Hi Hkey. unfold key_of in Hkey. cbn in Hkey.
      assert ((i, p) ∈ k) as Hik by (rewrite E; apply elem_of_app; by left).
      assert (i ≠ id) as Hne.
      { intros ->. rewrite E, fmap_app in Hk. apply NoDup_app in Hk as (_ & Hd & _).
        apply (Hd id); [by apply (list_elem_of_fmap_2 fst _ (id, p)) | cbn; by left]. }
      assert ((i, p) ≠ (id, ph)) as Hne' by congruence.
      apply (sorted_split_before k l1 (id, ph) l2 Hs E (i, p) Hik Hne') in Hi.
      specialize (Hq i p (proj1 (Hin _ _) Hik) Hkey Hne).
      rewrite phone_order_antisym, Hi in Hq. done. }
  split; [exact Hspec |].
  apply smaller_map_lacks; [done |]. intros id ph Hid. by apply Hspec in Hid as [? _].
Qed.

(** Two ids with the key of one phone: the one connected last is kept. *)
Lemma deduplicate_keeps_most_recent_witness :
  let l := [("old", mkPhone "Phone" "K" 1 (Some 5)); ("new", mkPhone "Phone" "K" 2 (Some 9))] in
  NoDup l.*1 ∧ (deduplicate_paired_phones l).1 !! "new" = Some (mkPhone "Phone" "K" 2 (Some 9)).
Proof.
  intros l. assert (NoDup l.*1) as Hnd by (cbn; constructor; [set_solver | apply NoDup_singleton]).
  split; [exact Hnd |].
  pose proof (deduplicate_keeps_most_recent l Hnd) as H.
  destruct (deduplicate_paired_phones l) as [kept changed]. cbn. apply (proj1 H).
  split; [by right; left |]. right. intros id' ph' Hin Hkey Hne.
  apply elem_of_cons in Hin as [[= -> ->]|[[= -> ->]|[]%elem_of_nil]%elem_of_cons]; [| done].
  vm_compute. reflexivity.
Defined.

(** ** The store *)

(** Memory and file agree. *)
Definition stored (s : PairedPhoneStore) : Prop := file_phones s = phones s.

Lemma upsert_spec ok id name key now s :
  stored s →
  let '(r, t) := upsert ok id name key now s in
  stored t ∧ (r = Ok tt ↔ ok = true) ∧ (r ≠ Ok tt → t = s) ∧
  (ok = true → public_key t id = Some key ∧ ∀ i, i ≠ id → phones t !! i = phones s !! i).
Proof.
  intros Hs. unfold upsert, update_store, upsert_paired_phone, public_key.
  destruct ok; cbn; [| by split_and!].
  split; [done |]. split; [done |]. split; [done |]. intros _.
  destruct (phones s !! id); split; intros; by simplify_map_eq.
Qed.

Lemma mark_connected_spec ok id name now s :
  stored s →
  let '(r, t) := mark_connected ok id name now s in
  stored t ∧ (r = Ok tt ↔ ok = true ∧ is_Some (phones s !! id)) ∧ (r ≠ Ok tt → t = s) ∧
  (∀ i, public_key t i = public_key s i).
Proof.
  intros Hs. unfold mark_connected, update_store, public_key.
  destruct (phones s !! id) as [ph|] eqn:E; destruct ok; cbn; destruct s as [m f]; cbn in *;
    unfold stored in *; cbn in *; subst; split_and!; try done; try naive_solver.
  - intros i. destruct (decide (i = id)) as [->|]; by simplify_map_eq.
Qed.

Section authentication.
Context {Key Signature : Type} (base64_decode : string → option (list Z))
  (key_from_der : list Z → option Key) (signature_from_der : list Z → option Signature)
  (ecdsa_verify : Key → list Z → Signature → bool) (pc_id : string).
Implicit Types (auth : AuthMessage) (s : PairingState).

Notation authenticate := (authenticate_phone base64_decode key_from_der signature_from_der
  ecdsa_verify pc_id).
Notation signed auth nonce key := (verify_signature base64_decode key_from_der signature_from_der
  ecdsa_verify pc_id auth nonce key = Ok tt).

(** What lets a phone in. *)
Definition may_pair auth nonce s : Prop :=
  am_message_type auth = "pair" ∧
  ∃ token key, am_pairing_token auth = Some token ∧ pairing_token s = Some token ∧
    am_public_key_spki auth = Some key ∧ signed auth nonce key.

Definition is_known auth nonce s : Prop :=
  am_message_type auth = "authenticate" ∧
  ∃ key, public_key (paired_phones s) (am_phone_id auth) = Some key ∧ signed auth nonce key.

(** A branch that refuses: nothing changed, and no reason to let in holds. *)
Ltac refused :=
  split_and!; try done;
  try (split; [done |];
       intros (? & ? & [(? & ? & ? & ? & ? & ? & ?)|(? & ? & ? & ?)]); congruence).

(** C27. A phone is let in exactly when it speaks the protocol, its registration
    could be written, and either it shows the pairing token on offer and signs
    the challenge with the key it brings, or it is paired and signs with its
    stored key. Pairing uses the token up and stores that key under that
    phone, leaving every other phone; recognising changes no key. A refusal
    leaves the phones, and an undisturbed token, as they were. *)
Theorem authenticate_outcome write_ok meanwhile now auth nonce s (Hs : stored (paired_phones s)) :
  let '(r, t) := authenticate write_ok meanwhile now auth nonce s in
  stored (paired_phones t) ∧
  (r = Ok tt ↔ am_protocol_version auth = PROTOCOL_VERSION ∧ write_ok = true ∧
     (may_pair auth nonce s ∨ is_known auth nonce s)) ∧
  (r = Ok tt → am_message_type auth = "pair" →
     pairing_token t = meanwhile None ∧
     public_key (paired_phones t) (am_phone_id auth) = am_public_key_spki auth ∧
     ∀ i, i ≠ am_phone_id auth → phones (paired_phones t) !! i = phones (paired_phones s) !! i) ∧
  (r = Ok tt → am_message_type auth = "authenticate" →
     pairing_token t = pairing_token s ∧
     ∀ i, public_key (paired_phones t) i = public_key (paired_phones s) i) ∧
  (r ≠ Ok tt → paired_phones t = paired_phones s ∧
     (meanwhile None = None → pairing_token t = pairing_token s)).
Proof.
  unfold authenticate_phone, may_pair, is_known.
  destruct (Z.eqb_spec (am_protocol_version auth) PROTOCOL_VERSION) as [Hv|Hv]; cbn [negb].
  2: { refused. }
  destruct (bool_decide_reflect (am_message_type auth = "pair")) as [Hp|Hp].
  - rewrite Hp. destruct (am_pairing_token auth) as [tok|]; [| refused].
    destruct (bool_decide_reflect (pairing_token s = Some tok)) as [Ht|Ht]; cbn [negb];
      [| refused].
    destruct (am_public_key_spki auth) as [key|]; [| refused].
    destruct (verify_signature _ _ _ _ _ _ _ _) as [[]|e] eqn:Hsig; [| refused].
    pose proof (upsert_spec write_ok (am_phone_id auth) (am_phone_name auth) key now _ Hs) as Hu.
    destruct (upsert _ _ _ _ _ _) as [[[]|e] store]; destruct Hu as (Hst & Hok & Hsame & Hput).
    + destruct (proj1 Hok eq_refl). destruct (Hput eq_refl) as [Hkey Hother].
      split_and!; cbn; try done. naive_solver.
    + specialize (Hsame ltac:(done)) as ->. split_and!; cbn; try done; [naive_solver |].
      intros _. split; [done |]. by intros ->.
  - destruct (bool_decide_reflect (am_message_type auth = "authenticate")) as [Ha|Ha];
      [| refused].
    destruct (public_key (paired_phones s) (am_phone_id auth)) as [key|] eqn:Hk;
      [| refused].
    destruct (verify_signature _ _ _ _ _ _ _ _) as [[]|e] eqn:Hsig; [| refused].
    pose proof (mark_connected_spec write_ok (am_phone_id auth) (am_phone_name auth) now _ Hs) as Hm.
    assert (is_Some (phones (paired_phones s) !! am_phone_id auth)) as Hin.
    { unfold public_key in Hk. destruct (phones _ !! _); [by eexists | done]. }
    destruct (mark_connected _ _ _ _ _) as [[[]|e] store]; destruct Hm as (Hst & Hok & Hsame & Hkeys).
    + destruct (proj1 Hok eq_refl) as [-> _]. split_and!; cbn; try done; naive_solver.
    + specialize (Hsame ltac:(done)) as ->. split_and!; cbn; try done; naive_solver.
Qed.

(** One attempt to connect: whether its registration can be written, when, and
    what was sent. *)
Record attempt := mkAttempt {
  at_write_ok : bool;
  at_now : Z;
  at_auth : AuthMessage;
  at_nonce : string;
}.

(** Attempts one after the other, with nobody at the window. *)
Fixpoint attempts_made s (l : list attempt) : list (attempt * result string unit) * PairingState :=
  match l with
  | [] => ([], s)
  | a :: l =>
    let '(r, s) := authenticate (at_write_ok a) id (at_now a) (at_auth a) (at_nonce a) s in
    let '(rs, s) := attempts_made s l in ((a, r) :: rs, s)
  end.

Definition paired (ar : attempt * result string unit) : Prop :=
  am_message_type (at_auth ar.1) = "pair" ∧ ar.2 = Ok tt.

(** The token after an attempt. *)
Lemma authenticate_token a s :
  let '(r, t) := authenticate (at_write_ok a) id (at_now a) (at_auth a) (at_nonce a) s in
  if decide (paired (a, r)) then is_Some (pairing_token s) ∧ pairing_token t = None
  else pairing_token t = pairing_token s.
Proof.
  destruct (authenticate _ _ _ _ _ s) as [r t] eqn:E. unfold authenticate_phone in E.
  assert (∀ t' e, (Err e, t') = (r, t) → ¬ paired (a, r)) as Herr
    by (intros t' e [= <- _] [_ Hr]; done).
  destruct (negb (am_protocol_version _ =? _));
    [rewrite decide_False by eauto; by simplify_eq |].
  destruct (bool_decide_reflect (am_message_type (at_auth a) = "pair")) as [Hp|Hp].
  - destruct (am_pairing_token _) as [tok|]; [| rewrite decide_False by eauto; by simplify_eq].
    destruct (bool_decide_reflect (pairing_token s = Some tok)) as [Ht|Ht]; cbn [negb] in E;
      [| rewrite decide_False by eauto; by simplify_eq].
    destruct (am_public_key_spki _); [| rewrite decide_False by eauto; by simplify_eq].
    destruct (verify_signature _ _ _ _ _ _ _ _);
      [| rewrite decide_False by eauto; by simplify_eq].
    destruct (upsert _ _ _ _ _ _) as [[[]|e] store]; cbn in E.
    + injection E as <- <-. rewrite decide_True by done. by rewrite Ht.
    + rewrite decide_False by eauto. by simplify_eq/=.
  - rewrite decide_False by (by intros [? _]). repeat case_match; by simplify_eq/=.
Qed.

Lemma attempts_without_token s (l : list attempt) :
  pairing_token s = None → filter paired (attempts_made s l).1 = [].
Proof.
  revert s. induction l as [|a l IH]; intros s Hn; cbn [attempts_made]; [done |].
  pose proof (authenticate_token a s) as Ho. destruct (authenticate _ _ _ _ _ s) as [r t].
  specialize (IH t). destruct (attempts_made t l) as [rs u]. cbn in *.
  case_decide; [rewrite Hn in Ho; by destruct Ho as [[] _] |]. apply IH. congruence.
Qed.

(** However many phones try, a pairing token pairs at most one of them, and
    none when no token is on offer. *)
Theorem token_pairs_once s (l : list attempt) :
  (length (filter paired (attempts_made s l).1) ≤ 1)%nat ∧
  (pairing_token s = None → filter paired (attempts_made s l).1 = []).
Proof.
  split; [| by apply attempts_without_token].
  revert s. induction l as [|a l IH]; intros s; cbn [attempts_made]; [cbn; lia |].
  pose proof (authenticate_token a s) as Ho. destruct (authenticate _ _ _ _ _ s) as [r t].
  specialize (IH t). pose proof (attempts_without_token t l) as Hnone.
  destruct (attempts_made t l) as [rs u]. cbn in *.
  destruct (decide (paired (a, r))); [| done]. cbn. apply le_n_S, Nat.le_0_r, length_zero_iff_nil.
  apply Hnone, Ho.
Qed.

(** When saving a pairing fails, its token is put back unless another is on
    offer: a pairing the user cancelled while it was being saved is on offer
    again. *)
Theorem failed_pairing_restores_token now auth nonce token key s
    (Hv : am_protocol_version auth = PROTOCOL_VERSION) (Hp : am_message_type auth = "pair")
    (Ht : am_pairing_token auth = Some token) (Hs : pairing_token s = Some token)
    (Hk : am_public_key_spki auth = Some key) (Hsig : signed auth nonce key) :
  let cancelled (_ : option string) := pairing_token (cancel_pairing s) in
  let renewed new (_ : option string) := pairing_token (begin_pairing new s) in
  pairing_token (authenticate false cancelled now auth nonce s).2 = Some token ∧
  ∀ new, pairing_token (authenticate false (renewed new) now auth nonce s).2 = Some new.
Proof.
  unfold authenticate_phone. rewrite Hv, Hp, Ht, Hs, Hk, Hsig. cbn.
  rewrite !(bool_decide_eq_true_2 (_ = _)) by done. done.
Qed.

(** What a phone signs determines its id and the challenge: a signature made
    for one connection says nothing in another, whatever bytes the id holds,
    because neither computer ids nor challenges hold a zero byte. *)
Theorem auth_payload_inj phone nonce phone' nonce'
    (Hn : 0 ∉ bytes_of nonce) (Hn' : 0 ∉ bytes_of nonce') :
  auth_payload pc_id phone nonce = auth_payload pc_id phone' nonce' →
  phone = phone' ∧ nonce = nonce'.
Proof.
  unfold auth_payload. intros E. apply app_inv_head in E. injection E as E.
  apply app_inv_head in E. injection E as E.
  assert (bytes_of nonce = bytes_of nonce') as Enonce by (eapply last_sep_inj; done).
  rewrite Enonce in E. apply app_inv_tail in E.
  split; apply (f_equal of_bytes) in E, Enonce; by rewrite !of_bytes_bytes_of in *.
Qed.
End authentication.

(** A toy scheme for the witnesses: the key is its text, and a signature is the
    key followed by what is signed. *)
Definition toy_verify (key payload signature : list Z) : bool := bool_decide (signature = key ++ payload).
Definition toy_sign (key phone nonce : string) : string :=
  of_bytes (bytes_of key ++ auth_payload "pc" phone nonce).
Definition toy_auth (kind phone key nonce : string) (token : option string) : AuthMessage :=
  mkAuth 2 kind phone "Phone" token (Some key) None [] (toy_sign key phone nonce).
Notation toy_authenticate := (authenticate_phone (λ s, Some (bytes_of s)) Some Some toy_verify "pc").
Definition no_phones : PairedPhoneStore := mkPhoneStore ∅ ∅.

Lemma authenticate_outcome_witness :
  (toy_authenticate true id 7 (toy_auth "pair" "ph" "key" "n" (Some "tok")) "n"
    (mkPairing (Some "tok") no_phones)).1 = Ok tt.
Proof.
  pose proof (authenticate_outcome (λ s, Some (bytes_of s)) Some Some toy_verify "pc"
    true id 7 (toy_auth "pair" "ph" "key" "n" (Some "tok")) "n" (mkPairing (Some "tok") no_phones)
    eq_refl) as H.
  destruct (authenticate_phone _ _ _ _ _ _ _ _ _ _ _) as [r t]. apply (proj1 (proj2 H)).
  split_and!; [reflexivity.. |]. left. split; [reflexivity |].
  exists "tok", "key". split_and!; vm_compute; reflexivity.
Defined.

Lemma token_pairs_once_witness :
  (length (filter (λ ar : attempt * result string unit,
     am_message_type (at_auth ar.1) = "pair" ∧ ar.2 = Ok tt)
    (attempts_made (λ s, Some (bytes_of s)) Some Some toy_verify "pc"
      (mkPairing (Some "tok") no_phones)
      [mkAttempt true 7 (toy_auth "pair" "a" "ka" "n1" (Some "tok")) "n1";
       mkAttempt true 8 (toy_auth "pair" "b" "kb" "n2" (Some "tok")) "n2"]).1) ≤ 1)%nat.
Proof. apply token_pairs_once. Defined.

Lemma failed_pairing_restores_token_witness :
  pairing_token (toy_authenticate false (λ _, None) 7 (toy_auth "pair" "ph" "key" "n" (Some "tok")) "n"
    (mkPairing (Some "tok") no_phones)).2 = Some "tok".
Proof.
  apply (failed_pairing_restores_token (λ s, Some (bytes_of s)) Some Some toy_verify "pc" 7
    (toy_auth "pair" "ph" "key" "n" (Some "tok")) "n" "tok" "key" (mkPairing (Some "tok") no_phones));
    vm_compute; reflexivity.
Defined.

Lemma auth_payload_inj_witness :
  0 ∉ bytes_of "n1" ∧ 0 ∉ bytes_of "n2" ∧
  (auth_payload "pc" "a" "n1" = auth_payload "pc" "b" "n2" → "a" = "b" ∧ "n1" = "n2").
Proof.
  assert (0 ∉ bytes_of "n1" ∧ 0 ∉ bytes_of "n2") as [H1 H2] by (split; vm_compute; set_solver).
  split; [exact H1 | split; [exact H2 |]]. exact (auth_payload_inj "pc" "a" "n1" "b" "n2" H1 H2).
Defined.
