(* ===== verification/Server.v ===== *)
(** * Connections of the phones

    [flowtype-app/src/network_server.rs]: what a connection does with each
    message of its phone: the input messages go to the injector, and what the
    injector confirms is acknowledged. A connection is a program over what it
    shares with the others; between its steps the other tasks run. A text
    message is given by what decoding it yields. *)

From S2P Require Import Prelude Text Protocol Ipc FileCore Dispatcher AppState Pairing.

Local Open Scope string_scope.
Local Open Scope list_scope.
Local Open Scope Z_scope.

(** ** Messages *)

(** [app/main.rs ImageStart] *)
Record ImageStart := mkImageStart {
  im_protocol_version : Z;
  im_transfer_id : string;
  im_phone_id : string;
  im_mime_type : string;
  im_width : Z;
  im_height : Z;
  im_byte_length : Z;
  im_sha256 : string;
  im_original : bool;
}.

Definition MAX_IMAGE_BYTES : Z := 32 * 1024 * 1024.

(** [app/main.rs ImageStart::validate] *)
Definition ImageStart_validate (self : ImageStart) (authenticated_phone_id : string)
    : result string unit :=
  let max_bytes := if im_original self then MAX_IMAGE_BYTES else 15 * 1024 * 1024 in
  guard_err
    (negb (im_protocol_version self =? PROTOCOL_VERSION)
     || negb (bool_decide (im_phone_id self = authenticated_phone_id))
     || str_is_empty (im_transfer_id self)
     || (64 <? str_len (im_transfer_id self))
     || negb (bool_decide (im_mime_type self ∈ ["image/jpeg"; "image/png"]))
     || (im_width self =? 0) || (im_height self =? 0)
     || (40000000 <? im_width self * im_height self)
     || (im_byte_length self =? 0) || (max_bytes <? im_byte_length self)
     || negb (str_len (im_sha256 self) =? 64)
     || negb (forallb is_ascii_hexdigit (bytes_of (im_sha256 self))))
    "invalid image metadata".

(** What the server sends, with the texts that vary; [ImageReply] is [PmImage] with its code when it
    failed. *)
Inductive PhoneMessage :=
| PmServer (message : ServerMessage)
| PmFile (message : FileServerMessage)
| PmImage (transfer_id : string) (code : option string)
| PmChallenge (pc_id nonce : string)
| PmReady (pc_id pc_name : string)
| PmPong.

(** A text message: its length, the [type] and [batch_id] of its JSON object,
    and what it decodes to; [None] where decoding fails. *)
Record TextMessage := mkText {
  tm_len : Z;
  tm_json : bool;
  tm_type : option string;
  tm_batch_id : string;
  tm_client : option ClientMessage;
  tm_file : option FileClientMessage;
  tm_image : option ImageStart;
}.

(** [app/network_server.rs SessionTransition] *)
Inductive SessionTransition := TransitionNone | TransitionActive (id : string) | TransitionComplete (id : string).

(** [app/network_server.rs SessionTransition::from_message] *)
Definition from_message (message : ClientMessage) : SessionTransition :=
  match message with
  | CmStart snapshot | CmUpdate snapshot => TransitionActive (snap_session_id snapshot)
  | CmFinish snapshot => TransitionComplete (snap_session_id snapshot)
  | CmResume resume =>
    match resume_session_state resume with
    | ClientFinishing => TransitionComplete (resume_session_id resume)
    | ClientActive => TransitionActive (resume_session_id resume)
    end
  | CmCancel cancel => TransitionComplete (cancel_session_id cancel)
  | CmProbe _ | CmHealthCheck _ | CmSwitchAck _ => TransitionNone
  end.

(** [app/network_server.rs SessionTransition::session_id] *)
Definition transition_session_id (t : SessionTransition) : option string :=
  match t with
  | TransitionNone => None
  | TransitionActive id | TransitionComplete id => Some id
  end.

(** [app/network_server.rs SessionTransition::completes_session] *)
Definition completes_session (t : SessionTransition) : bool :=
  match t with TransitionComplete _ => true | _ => false end.

(** [app/network_server.rs validate_cancel_for_phone] *)
Definition validate_cancel_for_phone (cancel : Cancel) (authenticated_phone_id : string)
    : result string unit :=
  _ ← map_err (λ _, "invalid cancel") (Cancel_validate cancel);
  guard_err (negb (bool_decide (cancel_phone_id cancel = authenticated_phone_id)))
    "cancel phone does not match".

(** [app/network_server.rs validate_resume_for_phone] *)
Definition validate_resume_for_phone (resume : Resume) (authenticated_phone_id : string)
    : result string unit :=
  _ ← map_err (λ _, "invalid resume") (Resume_validate resume);
  guard_err (negb (bool_decide (resume_phone_id resume = authenticated_phone_id)))
    "resume phone does not match".

(** ** The connection and its surroundings *)

(** What happened on a connection, oldest first: requests with what they
    returned, and messages with whether they could be written. *)
Inductive server_event :=
| EvRequest (request : InjectorRequest) (r : result InjectorRequestFailure InjectorResponse)
| EvSend (message : PhoneMessage) (written : bool).

(** What a connection uses of the rest: the socket, the other tasks, the paired
    phones and authentication ([Pairing]), the control leases ([Limits]), the file transfers, the clipboard and the digest of bytes. *)
Class Surroundings (W X : Type) := {
  socket_write : X → PhoneMessage → X * bool;
  other_tasks : X → AppState → InjectorDispatcher W → X * (AppState * InjectorDispatcher W);
  authenticate : X → AuthMessage → string → X * bool;
  control_try_lease : X → string → X * bool;
  control_drop_lease : X → string → X;
  phone_is_paired : X → string → bool;
  revoke_phone : X → string → X;
  handle_control : X → TextMessage → string → X * option FileServerMessage;
  set_image : X → list Z → string → X * bool;
  sha256_hex : list Z → string;
}.

(** What the connection itself keeps ([ConnectionInputSession], the lease and
    the locals of the loop). *)
Record Connection := mkConnection {
  cn_phone_id : string;
  cn_phone_name : string;
  cn_id : Z;
  active_lease : bool;
  input_session : option string;
  pending_image : option ImageStart;
  monitored_session : option string;
}.

Definition set_lease b c := mkConnection (cn_phone_id c) (cn_phone_name c) (cn_id c) b
  (input_session c) (pending_image c) (monitored_session c).
Definition set_input_session i c := mkConnection (cn_phone_id c) (cn_phone_name c) (cn_id c)
  (active_lease c) i (pending_image c) (monitored_session c).
Definition set_pending_image i c := mkConnection (cn_phone_id c) (cn_phone_name c) (cn_id c)
  (active_lease c) (input_session c) i (monitored_session c).
Definition set_monitored m c := mkConnection (cn_phone_id c) (cn_phone_name c) (cn_id c)
  (active_lease c) (input_session c) (pending_image c) m.

(** [app/network_server.rs ConnectionInputSession::track] *)
Definition track (session_id : string) (c : Connection) : Connection :=
  set_input_session (Some session_id) c.

(** [app/network_server.rs ConnectionInputSession::complete] *)
Definition complete (session_id : string) (c : Connection) : Connection :=
  if bool_decide (input_session c = Some session_id) then set_input_session None c else c.

Record Server (W X : Type) := mkServer {
  sv_app : AppState;
  sv_injector : InjectorDispatcher W;
  sv_rest : X;
  sv_conn : Connection;
  sv_trace : list server_event;
}.
Arguments mkServer {W X} _ _ _ _ _.
Arguments sv_app {W X} _. Arguments sv_injector {W X} _. Arguments sv_rest {W X} _.
Arguments sv_conn {W X} _. Arguments sv_trace {W X} _.

Section server.
Context {W X : Type} `{AppPipe W, Surroundings W X}.
(** The language, whether posting to the window works, and whether this is a
    debug build that acknowledges without an injector. *)
Context (english post_ok e2e_ack_without_injection : bool).

Notation server := (Server W X).
Notation prog := (sr server string).

(** The others run. *)
Definition yield_now : prog unit := sr_modify (λ s,
  let '(x, (app, d)) := other_tasks (sv_rest s) (sv_app s) (sv_injector s) in
  mkServer app d x (sv_conn s) (sv_trace s)).

Definition on_app (f : AppState → AppState) : prog unit := sr_modify (λ s,
  mkServer (f (sv_app s)) (sv_injector s) (sv_rest s) (sv_conn s) (sv_trace s)).

Definition on_conn (f : Connection → Connection) : prog unit := sr_modify (λ s,
  mkServer (sv_app s) (sv_injector s) (sv_rest s) (f (sv_conn s)) (sv_trace s)).

Definition status (u : RuntimeStatus → RuntimeStatus) : prog unit := on_app (update_status post_ok u).

(** [websocket.send]. *)
Definition socket_send (message : PhoneMessage) : prog bool := λ s,
  let '(x, written) := socket_write (sv_rest s) message in
  (Ok written, mkServer (sv_app s) (sv_injector s) x (sv_conn s)
                 (sv_trace s ++ [EvSend message written])).

(** [app/network_server.rs send_json] *)
Definition send_json (message : PhoneMessage) : prog unit :=
  written ← socket_send message;
  _ ← yield_now;
  if (written : bool) then mret tt else sr_fail "cannot write".

Definition send (message : ServerMessage) : prog unit := send_json (PmServer message).

Definition run_request (request : InjectorRequest)
    : prog (result InjectorRequestFailure InjectorResponse) := λ s,
  let '(r, d) := request_blocking request (sv_injector s) in
  (Ok r, mkServer (sv_app s) d (sv_rest s) (sv_conn s) (sv_trace s ++ [EvRequest request r])).

(** [app/injector_dispatcher.rs InjectorDispatcher::request] The semaphore and
    the worker thread: others run before the request and after it. *)
Definition dispatch (request : InjectorRequest)
    : prog (result InjectorRequestFailure InjectorResponse) :=
  _ ← yield_now;
  r ← run_request request;
  _ ← yield_now;
  mret r.

(** [app/network_server.rs injector_request_async] *)
Definition injector_request_async (request : InjectorRequest)
    : prog (result InjectorRequestFailure InjectorResponse) :=
  r ← dispatch request;
  _ ← match r with
      | Ok _ => status (λ st, mkStatus (summary st) (connected_phone st) (target_shown st) None)
      | Err FailureUnavailable => on_app (mark_injector_unavailable english post_ok)
      | Err FailureRecoveryRequired => status (λ st,
          mkStatus (tr english "输入服务已恢复" "Input service recovered") (connected_phone st) None
            (Some (tr english "Windows 无法确认中断前的输入结果，请在手机上同步全文"
               "Windows could not confirm the interrupted input. Sync the full text from your phone.")))
      end;
  mret r.

(** [app/network_server.rs send_ack] *)
Definition send_ack (session_id : string) (sequence : Z) (finished : bool) : prog unit :=
  send (SmAck (mkAck PROTOCOL_VERSION session_id sequence
    (if finished then ServerFinished else ServerActive))).

Definition send_error (code : ErrorCode) (session_id : option string) : prog unit :=
  send (SmError (mkProtocolError PROTOCOL_VERSION code session_id)).

Definition send_target (session_id : string) (state : TargetState) (name : option string) : prog unit :=
  send (SmTarget (mkTarget PROTOCOL_VERSION session_id state name)).

(** [app/network_server.rs send_injector_state] *)
Definition send_injector_state (session_id : string) (response : InjectorResponse) : prog unit :=
  let error code := send_error code (Some session_id) in
  match response with
  | TargetNotForeground name =>
    _ ← status (λ st, mkStatus (tr english "请回到：" "Return to: " +:+ name) (connected_phone st)
                        (Some name) (last_error st));
    send_target session_id TargetNotForegroundState (Some name)
  | TargetInvalid =>
    _ ← status (λ st, mkStatus (tr english "原输入窗口已关闭" "The input window was closed")
          (connected_phone st) None
          (Some (tr english "请在电脑上重新放置光标，再从手机同步全文"
                   "Place the cursor again, then sync from your phone")));
    send_target session_id TargetInvalidState None
  | TargetModified =>
    _ ← status (λ st, mkStatus (tr english "电脑端已编辑" "Text edited on the computer")
          (connected_phone st) (target_shown st)
          (Some (tr english "本次同步已停止，手机正文仍保留"
                   "Syncing stopped. The text remains on your phone.")));
    error TargetModifiedCode
  | TargetSubmitted =>
    _ ← status (λ st, mkStatus (tr english "输入已提交" "Input submitted") (connected_phone st) None None);
    _ ← on_app (mark_input_finished english post_ok);
    error TargetSubmittedCode
  | TargetUnsupported =>
    _ ← status (λ st, mkStatus (tr english "当前应用不支持实时输入" "This app does not support live input")
          (connected_phone st) None
          (Some (tr english "请将光标移到其他输入框后重试"
                   "Move the cursor to another text field and try again")));
    error TargetUnavailable
  | TsfUnavailable =>
    _ ← on_app (mark_injector_unavailable english post_ok);
    error InjectorUnavailable
  | InjectionUnknown | InvalidRequest =>
    let unknown := bool_decide (response = InjectionUnknown) in
    _ ← status (λ st, mkStatus (tr english "输入已停止" "Input stopped") (connected_phone st)
          (target_shown st)
          (Some (if unknown then tr english "Windows 无法确认本次输入结果" "Windows could not confirm this input"
                 else tr english "输入状态不一致" "Input state mismatch")));
    error (if unknown then InjectionUnknownCode else SequenceConflictCode)
  | _ => send_target session_id TargetInvalidState None
  end.

(** [app/network_server.rs send_injector_failure] *)
Definition send_injector_failure (session_id : string) (failure : InjectorRequestFailure) : prog unit :=
  send_error (match failure with
              | FailureUnavailable => InjectorUnavailable
              | FailureRecoveryRequired => RecoveryRequired
              end) (Some session_id).

(** [app/network_server.rs send_image_reply] *)
Definition send_image_reply (transfer_id : string) (success : bool) (error_code : string) : prog unit :=
  send_json (PmImage transfer_id (if success then None else Some error_code)).

(** [app/network_server.rs handle_cancel] *)
Definition handle_cancel (authenticated_phone_id : string) (cancel : Cancel) : prog unit :=
  _ ← sr_lift (validate_cancel_for_phone cancel authenticated_phone_id);
  _ ← injector_request_async (CancelInvalidSession (cancel_session_id cancel));
  on_app (mark_input_finished english post_ok).

(** [app/network_server.rs:951-972 handle_client_message] The end of an input
    message: what an [Applied] leads to when the session is
    to be finished. *)
Definition finish_applied (session_id : string) (sequence : Z) : prog unit :=
  r ← injector_request_async (FinishSession session_id sequence);
  match r with
  | Err error => send_injector_failure session_id error
  | Ok (RespFinished sequence) =>
    _ ← on_app (mark_input_finished english post_ok);
    send_ack session_id sequence true
  | Ok other => send_injector_state session_id other
  end.

(** [app/network_server.rs handle_resume] *)
Definition handle_resume (authenticated_phone_id : string) (resume : Resume) : prog unit :=
  _ ← sr_lift (validate_resume_for_phone resume authenticated_phone_id);
  r ← injector_request_async (ApplyState (resume_session_id resume) (resume_sequence resume)
        (resume_full_text resume));
  match r with
  | Err error => send_injector_failure (resume_session_id resume) error
  | Ok (RespFinished sequence) =>
    _ ← on_app (mark_input_finished english post_ok);
    send_ack (resume_session_id resume) sequence true
  | Ok (RespApplied sequence) =>
    match resume_session_state resume with
    | ClientFinishing => finish_applied (resume_session_id resume) sequence
    | ClientActive => send_ack (resume_session_id resume) sequence false
    end
  | Ok other => send_injector_state (resume_session_id resume) other
  end.

(** [app/network_server.rs:769-829 handle_client_message] A probe. *)
Definition handle_probe (authenticated_phone_id : string) (probe : Probe) : prog unit :=
  _ ← sr_lift (map_err (λ _, "invalid probe") (Probe_validate probe));
  if negb (bool_decide (probe_phone_id probe = authenticated_phone_id)) then
    send_error InvalidMessage None
  else
    r ← injector_request_async ProbeTarget;
    let no_target := status (λ st, mkStatus (summary st) (connected_phone st) None (last_error st)) in
    match r with
    | Ok (TargetReady name age) =>
      _ ← status (λ st, mkStatus (summary st) (connected_phone st) (Some name) None);
      send (SmProbeResult (mkProbeResult PROTOCOL_VERSION ProbeReady (Some name) (Some age)))
    | Ok TargetInvalid =>
      _ ← no_target;
      send (SmProbeResult (mkProbeResult PROTOCOL_VERSION ProbeInvalid None None))
    | _ =>
      _ ← no_target;
      send (SmProbeResult (mkProbeResult PROTOCOL_VERSION ProbeUnsupported None None))
    end.

(** Which of the three messages carries the snapshot. *)
Inductive snapshot_kind := KindStart | KindUpdate | KindFinish.
#[export] Instance snapshot_kind_eq_dec : EqDecision snapshot_kind.
Proof. solve_decision. Defined.

(** [app/network_server.rs:936-978 handle_client_message] The second half of an
    input message: the text is applied. *)
Definition apply_snapshot (kind : snapshot_kind) (snapshot : Snapshot) : prog unit :=
  let session := snap_session_id snapshot in
  r ← injector_request_async (ApplyState session (snap_sequence snapshot) (snap_full_text snapshot));
  match r with
  | Err error => send_injector_failure session error
  | Ok (RespApplied sequence) =>
    match kind with
    | KindFinish => finish_applied session sequence
    | _ => send_ack session sequence false
    end
  | Ok other => send_injector_state session other
  end.

(** [app/network_server.rs:883-934 handle_client_message] The first half of a
    start: the session is begun. *)
Definition begin_snapshot (snapshot : Snapshot) : prog unit :=
  let session := snap_session_id snapshot in
  r ← injector_request_async (BeginSession session (snap_replaces_session_id snapshot)
        (snap_sequence snapshot) (snap_full_text snapshot) (snap_attach_existing snapshot));
  match r with
  | Err error => send_injector_failure session error
  | Ok (SessionBegun name) =>
    _ ← status (λ st, mkStatus (tr english "正在输入到：" "Typing in: " +:+ name) (connected_phone st)
                        (Some name) None);
    _ ← send_target session TargetActive (Some name);
    apply_snapshot KindStart snapshot
  | Ok (SessionFinished finished_session sequence text as other) =>
    if bool_decide (finished_session = session) && (sequence =? snap_sequence snapshot)
       && bool_decide (text = snap_full_text snapshot) then
      _ ← on_app (mark_input_finished english post_ok);
      send_ack session sequence true
    else send_injector_state session other
  | Ok other => send_injector_state session other
  end.

(** [app/network_server.rs:831-978 handle_client_message] *)
Definition handle_snapshot (authenticated_phone_id : string) (kind : snapshot_kind)
    (snapshot : Snapshot) : prog unit :=
  _ ← sr_lift (map_err (λ _, "invalid snapshot") (Snapshot_validate snapshot));
  if snap_attach_existing snapshot && negb (bool_decide (kind = KindStart)) then
    sr_fail "only start can attach existing text"
  else if negb (bool_decide (snap_phone_id snapshot = authenticated_phone_id)) then
    send_error InvalidMessage (Some (snap_session_id snapshot))
  else if e2e_ack_without_injection then
    _ ← (if bool_decide (kind = KindStart) then
           send_target (snap_session_id snapshot) TargetActive (Some "FlowType E2E editor")
         else mret tt);
    send_ack (snap_session_id snapshot) (snap_sequence snapshot) (bool_decide (kind = KindFinish))
  else
    match kind with
    | KindStart => begin_snapshot snapshot
    | _ => apply_snapshot kind snapshot
    end.

(** [app/network_server.rs handle_client_message] *)
Definition handle_client_message (authenticated_phone_id : string) (message : ClientMessage)
    : prog unit :=
  match message with
  | CmHealthCheck health =>
    _ ← sr_lift (map_err (λ _, "invalid health check") (HealthCheck_validate health));
    if negb (bool_decide (health_phone_id health = authenticated_phone_id)) then
      sr_fail "health check phone does not match"
    else send (SmHealthAck (mkHealthAck PROTOCOL_VERSION))
  | CmSwitchAck ack =>
    _ ← sr_lift (map_err (λ _, "invalid switch acknowledgement") (SwitchAck_validate ack));
    s ← sr_get;
    if negb (bool_decide (switch_pc_id ack = pc_id (sv_app s))) then
      sr_fail "switch acknowledgement computer does not match"
    else on_app (acknowledge_switch english post_ok ack)
  | CmProbe probe => handle_probe authenticated_phone_id probe
  | CmStart snapshot => handle_snapshot authenticated_phone_id KindStart snapshot
  | CmUpdate snapshot => handle_snapshot authenticated_phone_id KindUpdate snapshot
  | CmFinish snapshot => handle_snapshot authenticated_phone_id KindFinish snapshot
  | CmResume resume => handle_resume authenticated_phone_id resume
  | CmCancel cancel => handle_cancel authenticated_phone_id cancel
  end.

(** ** The loop of a connection *)

Definition on_rest (f : X → X) : prog unit := sr_modify (λ s,
  mkServer (sv_app s) (sv_injector s) (f (sv_rest s)) (sv_conn s) (sv_trace s)).

(** A call into the surroundings. *)
Definition ask {A} (f : X → X * A) : prog A := λ s,
  let '(x, a) := f (sv_rest s) in
  (Ok a, mkServer (sv_app s) (sv_injector s) x (sv_conn s) (sv_trace s)).

Definition conn : prog Connection := s ← sr_get; mret (sv_conn s).
Definition app : prog AppState := s ← sr_get; mret (sv_app s).

(** What [select!] may yield. *)
Inductive select_event :=
| PollTick
| SwitchRequested
| FileOffered (offer : FileOffer)
| TextMessageIn (text : TextMessage)
| BinaryMessageIn (bytes : list Z)
| PingIn
| OtherMessageIn
| ReadFailed
| Closed.

Definition control_types : list string :=
  ["probe"; "health_check"; "switch_ack"; "file_offer"; "file_decision"; "file_cancel"].
Definition file_types : list string := ["file_offer"; "file_decision"; "file_cancel"].

Definition has_type (types : list string) (text : TextMessage) : bool :=
  match tm_type text with Some t => bool_decide (t ∈ types) | None => false end.

(** [app/network_server.rs:216-223 serve_connection] The lease is taken with the
    first message that needs it. *)
Definition ensure_lease : prog unit :=
  c ← conn;
  if active_lease c then mret tt
  else
    _ ← on_app (claim_active_connection english post_ok (cn_phone_id c) (cn_phone_name c) (cn_id c));
    on_conn (set_lease true).

Definition superseded (a : AppState) (c : Connection) : bool :=
  active_lease c && negb (is_active_connection a (cn_phone_id c) (cn_id c)).

(** [app/network_server.rs:224-228 serve_connection] *)
Definition check_superseded : prog unit :=
  c ← conn; a ← app;
  if superseded a c then sr_fail "connection superseded" else mret tt.

(** [app/network_server.rs:262-274 serve_connection] The session polled next. *)
Definition next_monitored (message : ClientMessage) (current : option string) : option string :=
  if e2e_ack_without_injection then None
  else match message with
       | CmStart snapshot | CmUpdate snapshot =>
         if str_is_empty (snap_session_id snapshot) then current else Some (snap_session_id snapshot)
       | CmResume resume =>
         match resume_session_state resume with
         | ClientActive =>
           if str_is_empty (resume_session_id resume) then None else Some (resume_session_id resume)
         | ClientFinishing => None
         end
       | CmFinish _ => None
       | _ => current
       end.

(** [app/network_server.rs:229-241 serve_connection] *)
Definition handle_file_text (text : TextMessage) : prog unit :=
  c ← conn;
  s ← sr_get;
  if negb (phone_is_paired (sv_rest s) (cn_phone_id c)) then
    _ ← on_rest (λ x, revoke_phone x (cn_phone_id c));
    sr_fail "phone is not paired"
  else
    reply ← ask (λ x, handle_control x text (cn_phone_id c));
    _ ← match reply with Some reply => send_json (PmFile reply) | None => mret tt end;
    on_app (notify_ui post_ok).

(** [app/network_server.rs:242-255 serve_connection] *)
Definition handle_image_start (text : TextMessage) : prog unit :=
  image ← sr_lift (ok_or (tm_image text) "invalid image message");
  c ← conn;
  _ ← sr_lift (ImageStart_validate image (cn_phone_id c));
  match pending_image c with
  | Some _ => send_image_reply (im_transfer_id image) false "transfer_busy"
  | None => on_conn (set_pending_image (Some image))
  end.

(** [app/network_server.rs:257-280 serve_connection] *)
Definition handle_input_text (text : TextMessage) : prog unit :=
  message ← sr_lift (ok_or (tm_client text) "invalid message");
  let transition := from_message message in
  _ ← match transition_session_id transition with
      | Some session_id => on_conn (track session_id)
      | None => mret tt
      end;
  _ ← on_conn (λ c, set_monitored (next_monitored message (monitored_session c)) c);
  c ← conn;
  _ ← handle_client_message (cn_phone_id c) message;
  match transition_session_id transition with
  | Some session_id => if completes_session transition then on_conn (complete session_id) else mret tt
  | None => mret tt
  end.

(** [app/network_server.rs:195-282 serve_connection] A text message. *)
Definition handle_text (text : TextMessage) : prog unit :=
  if MAX_MESSAGE_BYTES <? tm_len text then sr_fail "message too large"
  else if negb (tm_json text) then sr_fail "invalid JSON"
  else
    c ← conn;
    _ ← (if has_type ["probe"] text then on_app (mark_probe_connection english post_ok (cn_id c))
         else mret tt);
    _ ← (if has_type control_types text then mret tt else ensure_lease);
    _ ← check_superseded;
    if has_type file_types text then handle_file_text text
    else if has_type ["image_start"] text then handle_image_start text
    else handle_input_text text.

(** [app/network_server.rs:283-335 serve_connection] A binary message. *)
Definition handle_binary (bytes : list Z) : prog unit :=
  _ ← ensure_lease;
  _ ← check_superseded;
  c ← conn;
  match pending_image c with
  | None => mret tt
  | Some image =>
    _ ← on_conn (set_pending_image None);
    if negb (zlength bytes =? im_byte_length image)
       || negb (bool_decide (sha256_hex bytes = str_to_ascii_lowercase (im_sha256 image))) then
      send_image_reply (im_transfer_id image) false "integrity_failed"
    else
      stored ← ask (λ x, set_image x bytes (im_mime_type image));
      _ ← yield_now;
      if (stored : bool) then
        _ ← status (λ st, mkStatus (tr english "图片已保存到剪贴板" "Image copied to clipboard")
                            (connected_phone st) (target_shown st) None);
        send_image_reply (im_transfer_id image) true ""
      else
        _ ← status (λ st, mkStatus (summary st) (connected_phone st) (target_shown st)
              (Some (tr english "无法写入 Windows 剪贴板" "Could not copy the image to the Windows clipboard")));
        send_image_reply (im_transfer_id image) false "clipboard_failed"
  end.

(** [app/network_server.rs:161-174 serve_connection] The poll of the session. *)
Definition handle_poll : prog unit :=
  c ← conn;
  match monitored_session c with
  | Some session_id =>
    if active_lease c then
      r ← injector_request_async (QuerySession session_id);
      match r with
      | Ok (SessionActive _ _ _) => mret tt
      | Ok response =>
        _ ← on_conn (set_monitored None);
        send_injector_state session_id response
      | Err failure =>
        _ ← on_conn (set_monitored None);
        send_injector_failure session_id failure
      end
    else mret tt
  | None => mret tt
  end.

(** [app/network_server.rs:175-185 serve_connection] A switch request taken from
    the connection's channel. *)
Definition handle_switch_request : prog unit :=
  c ← conn; a ← app;
  match switch_channels a !! cn_id c with
  | Some channel =>
    match sch_queue channel with
    | request :: queue =>
      _ ← on_app (λ a, set_channels (<[cn_id c := mkSwitchChannel queue (sch_closed channel)
            (sch_is_control channel) (sch_supports_switch_ack channel)]> (switch_channels a)) a);
      send (SmSwitchComputer (mkSwitchComputer PROTOCOL_VERSION (sr_pc_id request)
              (sr_pc_name request) (sr_request_id request)))
    | [] => mret tt
    end
  | None => mret tt
  end.

(** [app/network_server.rs:160-341 serve_connection] One round of the loop;
    [false] leaves it. *)
Definition handle_event (e : select_event) : prog bool :=
  match e with
  | PollTick => _ ← handle_poll; mret true
  | SwitchRequested => _ ← handle_switch_request; mret true
  | FileOffered offer => _ ← send_json (PmFile (SmFileOffer offer)); mret true
  | TextMessageIn text => _ ← handle_text text; mret true
  | BinaryMessageIn bytes => _ ← handle_binary bytes; mret true
  | PingIn => _ ← send_json PmPong; mret true
  | OtherMessageIn => mret true
  | ReadFailed => sr_fail "read failed"
  | Closed => mret false
  end.

Fixpoint connection_loop (events : list select_event) : prog unit :=
  match events with
  | [] => mret tt
  | e :: events =>
    _ ← yield_now;
    continue ← handle_event e;
    if (continue : bool) then connection_loop events else mret tt
  end.

Definition is_control_auth (auth : AuthMessage) : bool :=
  bool_decide (am_connection_mode auth = Some "control").

Definition MAX_AUTH_MESSAGE_BYTES : Z := 64 * 1024.

(** [app/network_server.rs:53-104 serve_connection] From the challenge to the
    ready message. [answer] is the length of the phone's answer and what it
    decodes to; [None] is a time-out or a closed socket. *)
Definition handshake (nonce : string) (answer : option (Z * option AuthMessage)) : prog AuthMessage :=
  a ← app;
  _ ← send_json (PmChallenge (pc_id a) nonce);
  '(len, decoded) ← sr_lift (ok_or answer "authentication timed out");
  if MAX_AUTH_MESSAGE_BYTES <? len then sr_fail "authentication message too large"
  else
    auth ← sr_lift (ok_or decoded "invalid authentication message");
    authentic ← ask (λ x, authenticate x auth nonce);
    if negb authentic then
      _ ← send_error AuthFailed None; sr_fail "authentication failed"
    else
      leased ← (if is_control_auth auth then ask (λ x, control_try_lease x (am_phone_id auth)) else mret true);
      if negb leased then sr_fail "too many control connections for phone"
      else
        a ← app;
        _ ← on_app (λ a, set_next_id ((next_connection_id a + 1) mod 2 ^ 64) a);
        _ ← on_conn (λ _, mkConnection (am_phone_id auth) (am_phone_name auth) (next_connection_id a)
                            false None None None);
        mret auth.

(** [app/network_server.rs:117-135 serve_connection] The connection is online. *)
Definition go_online (auth : AuthMessage) : prog unit :=
  c ← conn;
  _ ← (if is_control_auth auth then mret tt
       else on_app (mark_online_connection english post_ok (am_phone_id auth) (am_phone_name auth) (cn_id c)));
  on_app (register_switch_channel (cn_id c) (is_control_auth auth)
            (bool_decide ("switch_ack" ∈ am_capabilities auth))).

(** The leases in the order they are dropped; the input session is dropped
    first and leaves [input_session_grace] behind. *)
Definition drop_leases (auth : AuthMessage) : prog unit :=
  c ← conn;
  _ ← (if active_lease c then on_app (drop_active_lease english post_ok (cn_phone_id c) (cn_id c))
       else mret tt);
  _ ← on_app (clear_switch_channel (cn_id c));
  if is_control_auth auth then mret tt
  else on_app (clear_online_connection english post_ok (cn_id c)).

(** Like a destructor: [after] runs whether [p] fails or not. *)
Definition finally {A} (p : prog A) (after : prog unit) : prog A := λ s,
  let '(r, s) := p s in (r, (after s).2).

(** [app/network_server.rs serve_connection] After the TLS and WebSocket
    handshakes; [events] is what [select!] yields, until the socket is closed
    or fails. *)
Definition serve_connection (nonce : string) (answer : option (Z * option AuthMessage))
    (events : list select_event) : prog unit :=
  auth ← handshake nonce answer;
  a ← app;
  finally
    (_ ← send_json (PmReady (pc_id a) (pc_name a));
     finally (_ ← go_online auth; connection_loop events) (drop_leases auth))
    (if is_control_auth auth then on_rest (λ x, control_drop_lease x (am_phone_id auth)) else mret tt).

(** [app/network_server.rs ConnectionInputSession::drop] The task left behind,
    1.5 s later. *)
Definition input_session_grace (c : Connection) : prog unit :=
  match input_session c with
  | None => mret tt
  | Some session_id =>
    _ ← yield_now;
    a ← app;
    if has_replacement_connection a (cn_phone_id c) (cn_id c) then mret tt
    else
      _ ← dispatch (CancelInvalidSession session_id);
      on_app (mark_input_finished english post_ok)
  end.
End server.
