(* ===== verification/ServerSafety.v ===== *)
(** * What a connection does for its phone

    The requests and messages of each handler, in order; then what they mean:
    nothing is acknowledged that the injector did not confirm, a message of
    another phone reaches no injector, and a superseded connection acts no
    more. *)

From S2P Require Import Prelude Text Protocol Ipc FileCore Dispatcher AppState AppStateSafety Pairing Server.

Local Open Scope string_scope.
Local Open Scope list_scope.
Local Open Scope Z_scope.

(** ** The messages a handler may end with *)

Definition ack_message (session : string) (sequence : Z) (finished : bool) : PhoneMessage :=
  PmServer (SmAck (mkAck PROTOCOL_VERSION session sequence
    (if finished then ServerFinished else ServerActive))).
Definition error_message (code : ErrorCode) (session : option string) : PhoneMessage :=
  PmServer (SmError (mkProtocolError PROTOCOL_VERSION code session)).
Definition target_message (session : string) (st : TargetState) (name : option string) : PhoneMessage :=
  PmServer (SmTarget (mkTarget PROTOCOL_VERSION session st name)).

(** What the phone is told of a response of the injector. *)
Definition state_message (session : string) (response : InjectorResponse) : PhoneMessage :=
  match response with
  | TargetNotForeground name => target_message session TargetNotForegroundState (Some name)
  | TargetModified => error_message TargetModifiedCode (Some session)
  | TargetSubmitted => error_message TargetSubmittedCode (Some session)
  | TargetUnsupported => error_message TargetUnavailable (Some session)
  | TsfUnavailable => error_message InjectorUnavailable (Some session)
  | InjectionUnknown => error_message InjectionUnknownCode (Some session)
  | InvalidRequest => error_message SequenceConflictCode (Some session)
  | _ => target_message session TargetInvalidState None
  end.

Definition failure_message (session : string) (failure : InjectorRequestFailure) : PhoneMessage :=
  error_message (match failure with
                 | FailureUnavailable => InjectorUnavailable
                 | FailureRecoveryRequired => RecoveryRequired
                 end) (Some session).

(** One message was written, or could not be. *)
Inductive sends (m : PhoneMessage) : list server_event → result string unit → Prop :=
| sends_written : sends m [EvSend m true] (Ok tt)
| sends_failed e : sends m [EvSend m false] (Err e).

(** A request, then what its result leads to. *)
Definition asks (request : InjectorRequest)
    (next : result InjectorRequestFailure InjectorResponse → list server_event → result string unit → Prop)
    (es : list server_event) (r : result string unit) : Prop :=
  ∃ answer es', es = EvRequest request answer :: es' ∧ next answer es' r.

(** ** Traces of programs *)

Section traces.
Context {W X : Type} `{AppPipe W, Surroundings W X}.
Notation server := (Server W X).

(** Every run of [p] adds a trace and returns a result that [Q] allows, and
    leaves what the connection keeps. *)
Definition emits {A} (p : sr server string A) (Q : list server_event → result string A → Prop) : Prop :=
  ∀ s, ∃ es, sv_trace (p s).2 = sv_trace s ++ es ∧ sv_conn (p s).2 = sv_conn s ∧ Q es (p s).1.

Lemma emits_weaken {A} (p : sr server string A) (Q Q' : _ → _ → Prop) :
  emits p Q → (∀ es r, Q es r → Q' es r) → emits p Q'.
Proof. intros Hp HQ s. destruct (Hp s) as (es & ? & ? & ?). eauto 6. Qed.

Lemma emits_ret {A} (a : A) (Q : _ → _ → Prop) : Q [] (Ok a) → emits (mret a) Q.
Proof. intros HQ s. exists []. cbn. by rewrite app_nil_r. Qed.

Lemma emits_fail {A} e (Q : _ → result string A → Prop) : Q [] (Err e) → emits (sr_fail e) Q.
Proof. intros HQ s. exists []. cbn. by rewrite app_nil_r. Qed.

Lemma emits_bind {A B} (p : sr server string A) (f : A → sr server string B) Q1 (Q : _ → _ → Prop) :
  emits p Q1 →
  (∀ e es, Q1 es (Err e) → Q es (Err e)) →
  (∀ a es1, Q1 es1 (Ok a) → emits (f a) (λ es2 r, Q (es1 ++ es2) r)) →
  emits (x ← p; f x) Q.
Proof.
  intros Hp Herr Hok s. destruct (Hp s) as (es1 & E1 & C1 & H1). unfold mbind; cbn.
  destruct (p s) as [[a|e] s1]; cbn in *; [| by eauto 6].
  destruct (Hok a es1 H1 s1) as (es2 & E2 & C2 & H2). exists (es1 ++ es2).
  rewrite E2, E1, C2. by rewrite app_assoc.
Qed.

(** A program without events that does not fail. *)
Definition quiet {A} (p : sr server string A) : Prop :=
  emits p (λ es r, es = [] ∧ is_ok r = true).

Lemma emits_quiet {A B} (p : sr server string A) (f : A → sr server string B) (Q : _ → _ → Prop) :
  quiet p → (∀ a, emits (f a) Q) → emits (x ← p; f x) Q.
Proof.
  intros Hp Hf. eapply emits_bind; [exact Hp | by intros ? ? [_ ?] |].
  intros a es [-> _]. apply Hf.
Qed.

Lemma emits_lift {A B} (p : result string A) (f : A → sr server string B) (Q : _ → _ → Prop) :
  (∀ e, p = Err e → Q [] (Err e)) → (∀ a, p = Ok a → emits (f a) Q) → emits (x ← sr_lift p; f x) Q.
Proof.
  intros Herr Hok. apply (emits_bind _ _ (λ es r, es = [] ∧ r = p)).
  - intros s. exists []. cbn. by rewrite app_nil_r.
  - intros e es [-> E]. by apply Herr.
  - intros a es [-> E]. by apply Hok.
Qed.

Lemma quiet_update (f : server → server) :
  (∀ s, sv_trace (f s) = sv_trace s ∧ sv_conn (f s) = sv_conn s) → quiet (sr_modify f).
Proof. intros Hf s. exists []. cbn. destruct (Hf s) as [-> ->]. by rewrite app_nil_r. Qed.

Lemma quiet_get : quiet (sr_get (S := server)).
Proof. intros s. exists []. cbn. by rewrite app_nil_r. Qed.

Lemma quiet_yield : quiet (yield_now (W := W) (X := X)).
Proof. apply quiet_update. intros s. by destruct (other_tasks _ _ _) as [? []]. Qed.

Lemma quiet_app f : quiet (on_app (W := W) (X := X) f).
Proof. by apply quiet_update. Qed.

Lemma quiet_status post_ok u : quiet (status (W := W) (X := X) post_ok u).
Proof. apply quiet_app. Qed.
End traces.

#[export] Hint Resolve quiet_yield quiet_app quiet_status quiet_get : flow.

Section handlers.
Context {W X : Type} `{AppPipe W, Surroundings W X}.
Context (english post_ok : bool).
Notation server := (Server W X).

Lemma emits_send m : emits (send_json (W := W) (X := X) m) (sends m).
Proof.
  eapply (emits_bind _ _ (λ es r, ∃ w, es = [EvSend m w] ∧ r = Ok w)).
  - intros s. unfold socket_send. destruct (socket_write _ _) as [x w]. cbn. eauto 6.
  - by intros e es (w & _ & ?).
  - intros w es (? & -> & [= <-]). apply emits_quiet; [auto with flow |]. intros _.
    destruct w; [apply emits_ret | apply emits_fail]; constructor.
Qed.

Lemma emits_dispatch {B} request (f : _ → sr server string B) (Q : _ → _ → Prop) :
  (∀ r, emits (f r) (λ es, Q (EvRequest request r :: es))) →
  emits (r ← dispatch request; f r) Q.
Proof.
  intros Hf. eapply (emits_bind _ _ (λ es r, ∃ a, es = [EvRequest request a] ∧ r = Ok a)).
  - apply emits_quiet; [auto with flow |]. intros _.
    eapply (emits_bind _ _ (λ es r, ∃ a, es = [EvRequest request a] ∧ r = Ok a)).
    + intros s. unfold run_request. destruct (request_blocking _ _) as [r d]. cbn. eauto 6.
    + by intros e es (? & _ & ?).
    + intros a es (? & -> & [= <-]). apply emits_quiet; [auto with flow |]. intros _.
      apply emits_ret. eauto.
  - by intros e es (? & _ & ?).
  - intros a es (? & -> & [= <-]). apply Hf.
Qed.

Lemma emits_request {B} request (f : _ → sr server string B) (Q : _ → _ → Prop) :
  (∀ r, emits (f r) (λ es, Q (EvRequest request r :: es))) →
  emits (r ← injector_request_async english post_ok request; f r) Q.
Proof.
  intros Hf. eapply (emits_bind _ _ (λ es r, ∃ a, es = [EvRequest request a] ∧ r = Ok a)).
  - apply emits_dispatch. intros a.
    apply emits_quiet; [repeat case_match; auto with flow |].
    intros _. apply emits_ret. eauto.
  - by intros e es (? & _ & ?).
  - intros a es (? & -> & [= <-]). apply Hf.
Qed.

Lemma emits_asks request f (next : _ → _ → _ → Prop) :
  (∀ r, emits (f r) (next r)) →
  emits (r ← injector_request_async english post_ok request; f r) (asks request next).
Proof.
  intros Hf. apply emits_request. intros r. eapply emits_weaken; [apply Hf |].
  intros es r' Hn. by exists r, es.
Qed.

Lemma emits_state session response :
  emits (send_injector_state english post_ok session response) (sends (state_message session response)).
Proof.
  destruct response; cbn; try apply emits_send;
    repeat (apply emits_quiet; [auto with flow | intros _]); apply emits_send.
Qed.

Lemma emits_failure session failure :
  emits (send_injector_failure (W := W) (X := X) session failure) (sends (failure_message session failure)).
Proof. apply emits_send. Qed.

Lemma emits_finished session sequence :
  emits (_ ← on_app (mark_input_finished english post_ok); send_ack (W := W) (X := X) session sequence true)
    (sends (ack_message session sequence true)).
Proof. apply emits_quiet; [auto with flow | intros _; apply emits_send]. Qed.

(** ** The outcomes of the input messages *)

(** The end of a session is asked for. *)
Definition finish_outcome (session : string) (sequence : Z) :=
  asks (FinishSession session sequence) (λ answer,
    sends (match answer with
           | Err failure => failure_message session failure
           | Ok (RespFinished n) => ack_message session n true
           | Ok other => state_message session other
           end)).

Lemma emits_finish session sequence :
  emits (finish_applied english post_ok session sequence) (finish_outcome session sequence).
Proof.
  apply emits_asks. intros [[]|failure]; try apply emits_state; [apply emits_finished | apply emits_failure].
Qed.

(** A text is applied; [finishing] says that the session ends with it. *)
Definition apply_outcome (session : string) (sequence : Z) (text : string) (finishing resuming : bool) :=
  asks (ApplyState session sequence text) (λ answer,
    match answer with
    | Err failure => sends (failure_message session failure)
    | Ok (RespApplied n) =>
      if finishing then finish_outcome session n else sends (ack_message session n false)
    | Ok (RespFinished n) =>
      sends (if resuming then ack_message session n true else state_message session (RespFinished n))
    | Ok other => sends (state_message session other)
    end).

Definition finishes (kind : snapshot_kind) : bool := bool_decide (kind = KindFinish).

Lemma emits_apply kind snapshot :
  emits (apply_snapshot english post_ok kind snapshot)
    (apply_outcome (snap_session_id snapshot) (snap_sequence snapshot) (snap_full_text snapshot)
       (finishes kind) false).
Proof.
  apply emits_asks. intros [[]|failure]; try apply emits_state; [| apply emits_failure].
  destruct kind; cbn; [apply emits_send.. | apply emits_finish].
Qed.

(** A session is begun, and the text applied when it was. *)
Definition begin_outcome (snapshot : Snapshot) :=
  let session := snap_session_id snapshot in
  asks (BeginSession session (snap_replaces_session_id snapshot) (snap_sequence snapshot)
          (snap_full_text snapshot) (snap_attach_existing snapshot)) (λ answer,
    match answer with
    | Err failure => sends (failure_message session failure)
    | Ok (SessionBegun name) => λ es r,
        let active := target_message session TargetActive (Some name) in
        (∃ e, es = [EvSend active false] ∧ r = Err e) ∨
        ∃ es', es = EvSend active true :: es' ∧
          apply_outcome session (snap_sequence snapshot) (snap_full_text snapshot) false false es' r
    | Ok (SessionFinished id n text) =>
      sends (if bool_decide (id = session) && (n =? snap_sequence snapshot)
                && bool_decide (text = snap_full_text snapshot)
             then ack_message session n true
             else state_message session (SessionFinished id n text))
    | Ok other => sends (state_message session other)
    end).

Lemma emits_begin snapshot :
  emits (begin_snapshot english post_ok snapshot) (begin_outcome snapshot).
Proof.
  apply emits_asks. intros [[]|failure]; try apply emits_state; [| | apply emits_failure].
  - apply emits_quiet; [auto with flow |]. intros _.
    eapply emits_bind; [apply emits_send | |].
    + intros e es Hs. left. inversion Hs. eauto.
    + intros [] es Hs. inversion Hs; subst. eapply emits_weaken; [apply emits_apply |]. cbn. eauto.
  - case_match; [apply emits_finished | apply emits_state].
Qed.

(** ** The outcome of every message *)

(** The message is refused before anything is asked or sent. *)
Definition rejected (es : list server_event) (r : result string unit) : Prop :=
  es = [] ∧ ∃ e, r = Err e.

Definition snapshot_outcome (phone : string) (kind : snapshot_kind) (snapshot : Snapshot) :=
  match Snapshot_validate snapshot with
  | Err _ => rejected
  | Ok _ =>
    if snap_attach_existing snapshot && negb (bool_decide (kind = KindStart)) then rejected
    else if bool_decide (snap_phone_id snapshot = phone) then
      match kind with
      | KindStart => begin_outcome snapshot
      | _ => apply_outcome (snap_session_id snapshot) (snap_sequence snapshot)
               (snap_full_text snapshot) (finishes kind) false
      end
    else sends (error_message InvalidMessage (Some (snap_session_id snapshot)))
  end.

Definition probe_message (answer : result InjectorRequestFailure InjectorResponse) : PhoneMessage :=
  PmServer (SmProbeResult (match answer with
    | Ok (TargetReady name age) => mkProbeResult PROTOCOL_VERSION ProbeReady (Some name) (Some age)
    | Ok TargetInvalid => mkProbeResult PROTOCOL_VERSION ProbeInvalid None None
    | _ => mkProbeResult PROTOCOL_VERSION ProbeUnsupported None None
    end)).

Definition finishing (resume : Resume) : bool :=
  match resume_session_state resume with ClientFinishing => true | ClientActive => false end.

Definition message_outcome (phone : string) (message : ClientMessage)
    : list server_event → result string unit → Prop :=
  match message with
  | CmStart snapshot => snapshot_outcome phone KindStart snapshot
  | CmUpdate snapshot => snapshot_outcome phone KindUpdate snapshot
  | CmFinish snapshot => snapshot_outcome phone KindFinish snapshot
  | CmResume resume =>
    match validate_resume_for_phone resume phone with
    | Err _ => rejected
    | Ok _ => apply_outcome (resume_session_id resume) (resume_sequence resume)
                (resume_full_text resume) (finishing resume) true
    end
  | CmCancel cancel =>
    match validate_cancel_for_phone cancel phone with
    | Err _ => rejected
    | Ok _ => asks (CancelInvalidSession (cancel_session_id cancel)) (λ _ es r, es = [] ∧ r = Ok tt)
    end
  | CmProbe probe =>
    match Probe_validate probe with
    | Err _ => rejected
    | Ok _ =>
      if bool_decide (probe_phone_id probe = phone) then asks ProbeTarget (λ answer, sends (probe_message answer))
      else sends (error_message InvalidMessage None)
    end
  | CmHealthCheck health =>
    match HealthCheck_validate health with
    | Err _ => rejected
    | Ok _ => if bool_decide (health_phone_id health = phone)
              then sends (PmServer (SmHealthAck (mkHealthAck PROTOCOL_VERSION))) else rejected
    end
  | CmSwitchAck ack => λ es _, es = []
  end.

Lemma emits_rejected e :
  emits (W := W) (X := X) (sr_fail e) rejected.
Proof. apply emits_fail. split; eauto. Qed.

Lemma emits_validated {E B} (v : result E unit) text (f : unit → sr server string B) (Q : _ → _ → Prop) :
  (∀ e, v = Err e → Q [] (Err text)) → (v = Ok tt → emits (f tt) Q) →
  emits (x ← sr_lift (map_err (λ _, text) v); f x) Q.
Proof.
  intros Herr Hok. apply emits_lift; destruct v as [[]|e]; cbn.
  - done.
  - intros ? [= <-]. by eapply Herr.
  - intros [] _. by apply Hok.
  - done.
Qed.

Lemma emits_snapshot phone kind snapshot :
  emits (handle_snapshot english post_ok false phone kind snapshot)
    (snapshot_outcome phone kind snapshot).
Proof.
  unfold snapshot_outcome. apply emits_validated; [by intros e ->; split; eauto |]. intros ->.
  destruct (snap_attach_existing snapshot && negb (bool_decide (kind = KindStart)));
    [apply emits_rejected |].
  destruct (bool_decide (snap_phone_id snapshot = phone)); cbn; [| apply emits_send].
  destruct kind; [apply emits_begin | apply emits_apply..].
Qed.

Lemma emits_resume phone resume :
  emits (handle_resume english post_ok phone resume) (message_outcome phone (CmResume resume)).
Proof.
  cbn. apply emits_lift; [by intros e ->; split; eauto |]. intros [] ->.
  apply emits_asks. intros [[]|failure]; try apply emits_state; [| apply emits_finished | apply emits_failure].
  unfold finishing. destruct (resume_session_state resume); [apply emits_send | apply emits_finish].
Qed.

Lemma emits_probe phone probe :
  emits (handle_probe english post_ok phone probe) (message_outcome phone (CmProbe probe)).
Proof.
  cbn. apply emits_validated; [by intros e ->; split; eauto |]. intros ->.
  destruct (bool_decide (probe_phone_id probe = phone)); cbn; [| apply emits_send].
  apply emits_asks. intros [[]|failure]; (apply emits_quiet; [auto with flow | intros _]);
    apply emits_send.
Qed.

Lemma emits_message phone message :
  emits (handle_client_message english post_ok false phone message) (message_outcome phone message).
Proof.
  destruct message as [s|s|s|r|c|p|h|a]; cbn [handle_client_message];
    [apply emits_snapshot.. | apply emits_resume | | apply emits_probe | |].
  - cbn. apply emits_lift; [by intros e ->; split; eauto |]. intros [] ->.
    apply emits_asks. intros r. apply (emits_weaken _ (λ es r, es = [] ∧ r = Ok tt)); [| done].
    intros s. exists []. cbn. by rewrite app_nil_r.
  - cbn. apply emits_validated; [by intros e ->; split; eauto |]. intros ->.
    destruct (bool_decide (health_phone_id h = phone)); cbn; [apply emits_send | apply emits_rejected].
  - cbn. apply emits_validated; [done |]. intros _.
    apply emits_quiet; [auto with flow |]. intros s. destruct (bool_decide _); cbn.
    + eapply emits_weaken; [apply quiet_app | by intros ? ? [? _]].
    + by apply emits_fail.
Qed.
End handlers.

(** ** Nothing unconfirmed is acknowledged *)

(** The session, sequence and text a message carries. *)
Definition carries (message : ClientMessage) : option (string * Z * string) :=
  match message with
  | CmStart s | CmUpdate s | CmFinish s => Some (snap_session_id s, snap_sequence s, snap_full_text s)
  | CmResume r => Some (resume_session_id r, resume_sequence r, resume_full_text r)
  | _ => None
  end.

(** The injector said before that it holds, or has finished with, that text. *)
Definition confirmed (c : string * Z * string) (a : Ack) (before : list server_event) : Prop :=
  let '(session, sequence, text) := c in
  ack_session_id a = session ∧
  match ack_session_state a with
  | ServerActive =>
    EvRequest (ApplyState session sequence text) (Ok (RespApplied (ack_applied_sequence a))) ∈ before
  | ServerFinished =>
    (∃ n, EvRequest (ApplyState session sequence text) (Ok (RespApplied n)) ∈ before ∧
          EvRequest (FinishSession session n) (Ok (RespFinished (ack_applied_sequence a))) ∈ before) ∨
    EvRequest (ApplyState session sequence text) (Ok (RespFinished (ack_applied_sequence a))) ∈ before ∨
    (∃ replaces attach,
       EvRequest (BeginSession session replaces sequence text attach)
         (Ok (SessionFinished session sequence text)) ∈ before ∧
       ack_applied_sequence a = sequence)
  end.

(** Every acknowledgement of the trace is confirmed before it. *)
Definition acks_confirmed (c : string * Z * string) (before es : list server_event) : Prop :=
  ∀ es1 a w es2, es = es1 ++ EvSend (PmServer (SmAck a)) w :: es2 → confirmed c a (before ++ es1).

Definition is_ack (e : server_event) : bool :=
  match e with EvSend (PmServer (SmAck _)) _ => true | _ => false end.

Lemma acks_nil c before : acks_confirmed c before [].
Proof. by intros [] ? ? ?. Qed.

Lemma acks_cons c before e es :
  is_ack e = false → acks_confirmed c (before ++ [e]) es → acks_confirmed c before (e :: es).
Proof.
  intros He Hes [|e' es1] a w es2 [= -> E]; [done |].
  replace (before ++ e' :: es1) with ((before ++ [e']) ++ es1) by by rewrite <- app_assoc.
  by eapply Hes.
Qed.

Lemma acks_sends c before m es r :
  sends m es r →
  (∀ a, m = PmServer (SmAck a) → confirmed c a before) → acks_confirmed c before es.
Proof.
  intros Hs Hm es1 a w es2 E.
  assert (∃ w', es = [EvSend m w']) as [w' ->] by (inversion Hs; eauto).
  destruct es1 as [|? []]; [| done..]. injection E as -> -> _. rewrite app_nil_r. by apply Hm.
Qed.

Lemma state_message_no_ack session response a : state_message session response ≠ PmServer (SmAck a).
Proof. by destruct response. Qed.

Lemma failure_message_no_ack session failure a : failure_message session failure ≠ PmServer (SmAck a).
Proof. done. Qed.

Lemma acks_finish session sequence text n before es r :
  EvRequest (ApplyState session sequence text) (Ok (RespApplied n)) ∈ before →
  finish_outcome session n es r → acks_confirmed (session, sequence, text) before es.
Proof.
  intros Hin (answer & es' & -> & Hs). apply acks_cons; [done |].
  eapply acks_sends; [exact Hs |]. intros a.
  destruct answer as [[]|]; try (by intros ?%state_message_no_ack); [| done].
  intros [= <-]. cbn. split; [done |]. left. exists n. set_solver.
Qed.

Lemma acks_apply session sequence text fin resuming before es r :
  apply_outcome session sequence text fin resuming es r →
  acks_confirmed (session, sequence, text) before es.
Proof.
  intros (answer & es' & -> & Hs). apply acks_cons; [done |].
  destruct answer as [answer|failure];
    [| eapply acks_sends; [exact Hs | by intros a ?%failure_message_no_ack]].
  destruct answer; try (eapply acks_sends; [exact Hs | by intros a ?%state_message_no_ack]).
  - destruct fin.
    + eapply acks_finish; [| exact Hs]. set_solver.
    + eapply acks_sends; [exact Hs |]. intros a [= <-]. cbn. split; [done |]. set_solver.
  - destruct resuming; (eapply acks_sends; [exact Hs |]); [| done].
    intros a [= <-]. cbn. split; [done |]. right. left. set_solver.
Qed.

Lemma acks_begin snapshot before es r :
  begin_outcome snapshot es r →
  acks_confirmed (snap_session_id snapshot, snap_sequence snapshot, snap_full_text snapshot) before es.
Proof.
  intros (answer & es' & -> & Hs). apply acks_cons; [done |].
  destruct answer as [answer|failure];
    [| eapply acks_sends; [exact Hs | by intros a ?%failure_message_no_ack]].
  destruct answer; try (eapply acks_sends; [exact Hs | by intros a ?%state_message_no_ack]).
  - destruct Hs as [(e & -> & _)|(es2 & -> & Hs)]; apply acks_cons; try done; [apply acks_nil |].
    by eapply acks_apply.
  - eapply acks_sends; [exact Hs |]. intros a. case_match; [| done]. bool_to_prop.
    intros [= <-]. cbn. split; [done |]. do 2 right. subst.
    exists (snap_replaces_session_id snapshot), (snap_attach_existing snapshot). set_solver.
Qed.

Section messages.
Context {W X : Type} `{AppPipe W, Surroundings W X}.
Context (english post_ok : bool).
Implicit Types (s : Server W X).

Notation handle := (handle_client_message english post_ok false).

(** What a message of an outcome can contain at most. *)
Lemma outcome_acks phone message es r :
  message_outcome phone message es r →
  match carries message with
  | Some c => acks_confirmed c [] es
  | None => Forall (λ e, is_ack e = false) es
  end.
Proof.
  assert (∀ c es r, rejected es r → acks_confirmed c [] es) as Hrej
    by (intros c es' r' [-> _]; apply acks_nil).
  assert (∀ kind snapshot es r, snapshot_outcome phone kind snapshot es r →
    acks_confirmed (snap_session_id snapshot, snap_sequence snapshot, snap_full_text snapshot) [] es)
    as Hsnap.
  { intros kind snapshot es' r'. unfold snapshot_outcome.
    destruct (Snapshot_validate snapshot); [| apply Hrej].
    destruct (_ && _); [apply Hrej |]. destruct (bool_decide _).
    - destruct kind; [apply acks_begin | apply acks_apply..].
    - intros Hs. by eapply acks_sends. }
  assert (∀ m es r, sends m es r → (∀ a, m ≠ PmServer (SmAck a)) → Forall (λ e, is_ack e = false) es)
    as Hsends.
  { intros m es' r' Hs Hm. destruct Hs; (constructor; [| constructor]);
      destruct m as [[]| | | | |]; cbn; try done; by destruct (Hm a). }
  destruct message as [sn|sn|sn|re|c|p|h|a]; cbn [carries message_outcome]; try apply Hsnap.
  - destruct (validate_resume_for_phone re phone); [apply acks_apply | apply Hrej].
  - destruct (validate_cancel_for_phone c phone); [| by intros [-> _]].
    intros (answer & es' & -> & -> & _). by repeat constructor.
  - destruct (Probe_validate p); [| by intros [-> _]].
    destruct (bool_decide _); [| intros Hs; by eapply Hsends].
    intros (answer & es' & -> & Hs). constructor; [done |]. by eapply Hsends.
  - destruct (HealthCheck_validate h); [| by intros [-> _]].
    destruct (bool_decide _); [intros Hs; by eapply Hsends | by intros [-> _]].
  - by intros ->.
Qed.

(** C4. Whatever the other connections do meanwhile, a phone is sent an
    acknowledgement only for the session of its message, and only after the
    injector confirmed it: an active one after the injector reported exactly
    the message's text as applied, with the sequence it reported; a finished
    one after the injector reported the session finished. *)
Theorem acknowledgements_are_confirmed s phone message es1 a w es2 :
  let t := (handle phone message s).2 in
  sv_trace t = sv_trace s ++ es1 ++ EvSend (PmServer (SmAck a)) w :: es2 →
  ∃ c, carries message = Some c ∧ confirmed c a es1.
Proof.
  intros t E. destruct (emits_message english post_ok phone message s) as (es & Et & _ & Ho).
  fold t in Et. rewrite E in Et. apply app_inv_head in Et. apply outcome_acks in Ho.
  destruct (carries message) as [c|].
  - exists c. split; [done |]. by apply (Ho es1 a w es2).
  - rewrite <- Et in Ho. apply Forall_app in Ho as [_ Ho]. by apply Forall_cons in Ho as [? _].
Qed.

(** The phone a message names; a switch acknowledgement names none. *)
Definition names_phone (message : ClientMessage) : option string :=
  match message with
  | CmStart s | CmUpdate s | CmFinish s => Some (snap_phone_id s)
  | CmResume r => Some (resume_phone_id r)
  | CmCancel c => Some (cancel_phone_id c)
  | CmProbe p => Some (probe_phone_id p)
  | CmHealthCheck h => Some (health_phone_id h)
  | CmSwitchAck _ => None
  end.

Definition is_request (e : server_event) : bool :=
  match e with EvRequest _ _ => true | EvSend _ _ => false end.

(** A message that names another phone than the one authenticated asks the
    injector nothing: it ends the connection, or is answered by the error
    [invalid_message] alone. *)
Theorem foreign_message_asks_nothing s phone message
    (Hforeign : names_phone message ≠ Some phone) :
  ∃ es, sv_trace (handle phone message s).2 = sv_trace s ++ es ∧
    Forall (λ e, is_request e = false) es ∧
    (es = [] ∨ ∃ id w, es = [EvSend (error_message InvalidMessage id) w]).
Proof.
  destruct (emits_message english post_ok phone message s) as (es & Et & _ & Ho).
  exists es. split; [done |]. clear Et.
  assert (∀ id es r, sends (error_message InvalidMessage id) es r →
    Forall (λ e, is_request e = false) es ∧
    (es = [] ∨ ∃ id w, es = [EvSend (error_message InvalidMessage id) w])) as Hs.
  { intros id es' r' Hs. inversion Hs; (split; [by repeat constructor | eauto]). }
  assert (∀ es r, rejected es r → Forall (λ e, is_request e = false) es ∧
    (es = [] ∨ ∃ id w, es = [EvSend (error_message InvalidMessage id) w])) as Hr.
  { intros es' r' [-> _]. auto. }
  assert (∀ kind sn es r, snap_phone_id sn ≠ phone → snapshot_outcome phone kind sn es r →
    Forall (λ e, is_request e = false) es ∧
    (es = [] ∨ ∃ id w, es = [EvSend (error_message InvalidMessage id) w])) as Hsn.
  { intros kind sn es' r' Hne. unfold snapshot_outcome. destruct (Snapshot_validate sn); [| apply Hr].
    destruct (_ && _); [apply Hr |]. rewrite bool_decide_eq_false_2 by done. apply Hs. }
  destruct message as [sn|sn|sn|re|c|p|h|a]; cbn in Hforeign, Ho.
  1-3: eapply Hsn; [| exact Ho]; congruence.
  - unfold validate_resume_for_phone in Ho. destruct (Resume_validate re); cbn in Ho;
      [rewrite bool_decide_eq_false_2 in Ho by congruence |]; by eapply Hr.
  - unfold validate_cancel_for_phone in Ho. destruct (Cancel_validate c); cbn in Ho;
      [rewrite bool_decide_eq_false_2 in Ho by congruence |]; by eapply Hr.
  - destruct (Probe_validate p); [rewrite bool_decide_eq_false_2 in Ho by congruence |]; eauto.
  - destruct (HealthCheck_validate h); [rewrite bool_decide_eq_false_2 in Ho by congruence |]; eauto.
  - subst. auto.
Qed.

(** A final answer: a message to the phone that is not the news that typing
    began. *)
Definition announces (m : PhoneMessage) : bool :=
  match m with
  | PmServer (SmTarget t) => match target_state t with TargetActive => true | _ => false end
  | _ => false
  end.

Definition before_answer (e : server_event) : bool :=
  match e with EvRequest _ _ => true | EvSend m w => announces m && w end.

Definition one_answer (es : list server_event) (r : result string unit) : Prop :=
  r = Ok tt → ∃ pre m, es = pre ++ [EvSend m true] ∧ announces m = false ∧
    Forall (λ e, before_answer e = true) pre.

Lemma one_answer_sends m es r : announces m = false → sends m es r → one_answer es r.
Proof. intros Hm Hs Hr. destruct Hs; [| done]. by exists [], m. Qed.

Lemma one_answer_rejected es r : rejected es r → one_answer es r.
Proof. by intros [_ [e ->]] ?. Qed.

Lemma one_answer_cons e es r : before_answer e = true → one_answer es r → one_answer (e :: es) r.
Proof.
  intros He Hes Hr. destruct (Hes Hr) as (pre & m & -> & Hm & Hpre).
  exists (e :: pre), m. split_and!; try done. by constructor.
Qed.

Lemma announces_state session response : announces (state_message session response) = false.
Proof. by destruct response. Qed.

Lemma one_answer_finish session sequence es r :
  finish_outcome session sequence es r → one_answer es r.
Proof.
  intros (answer & es' & -> & Hs). apply one_answer_cons; [done |].
  eapply one_answer_sends; [| exact Hs]. destruct answer as [[]|]; done.
Qed.

Lemma one_answer_apply session sequence text fin resuming es r :
  apply_outcome session sequence text fin resuming es r → one_answer es r.
Proof.
  intros (answer & es' & -> & Hs). apply one_answer_cons; [done |].
  destruct answer as [answer|failure]; [| eapply one_answer_sends; [| exact Hs]; done].
  destruct answer; try (eapply one_answer_sends; [apply announces_state | exact Hs]).
  - destruct fin; [by eapply one_answer_finish | eapply one_answer_sends; [| exact Hs]; done].
  - destruct resuming; (eapply one_answer_sends; [| exact Hs]; done).
Qed.

(** Every input message that is handled to its end (start, update, finish,
    resume) gets exactly one answer, as the last thing that happens: an
    acknowledgement, a target state or an error; before it the phone is told
    at most that typing began. *)
Theorem input_gets_one_answer s phone message c (Hc : carries message = Some c) :
  ∃ es, sv_trace (handle phone message s).2 = sv_trace s ++ es ∧ one_answer es (handle phone message s).1.
Proof.
  destruct (emits_message english post_ok phone message s) as (es & Et & _ & Ho).
  exists es. split; [done |]. revert Ho. generalize (handle phone message s).1. clear Et. intros r.
  assert (∀ kind sn, snapshot_outcome phone kind sn es r → one_answer es r) as Hsn.
  { intros kind sn. unfold snapshot_outcome.
    destruct (Snapshot_validate sn); [| apply one_answer_rejected].
    destruct (_ && _); [by intros [_ [e ->]] |]. destruct (bool_decide _); [| by apply one_answer_sends].
    destruct kind; [| apply one_answer_apply..].
    intros (answer & es' & -> & Hs). apply one_answer_cons; [done |].
    destruct answer as [answer|failure]; [| eapply one_answer_sends; [| exact Hs]; done].
    destruct answer; try (eapply one_answer_sends; [apply announces_state | exact Hs]).
    - destruct Hs as [(e & -> & ->)|(es2 & -> & Hs)]; [by intros ? |].
      apply one_answer_cons; [done | by eapply one_answer_apply].
    - eapply one_answer_sends; [| exact Hs]. by case_match. }
  destruct message as [sn|sn|sn|re|ca|p|h|a]; try done; cbn [message_outcome]; try apply Hsn.
  destruct (validate_resume_for_phone re phone); [apply one_answer_apply | apply one_answer_rejected].
Qed.

(** When the injector answers the text of a finish message that it has
    finished the session with it, the phone is told that the target is gone;
    the same answer to a resume is acknowledged as finished. *)
Theorem repeated_finish_is_not_acknowledged s phone snapshot n
    (Hvalid : Snapshot_validate snapshot = Ok tt) (Hattach : snap_attach_existing snapshot = false)
    (Hphone : snap_phone_id snapshot = phone) es
    (Hes : sv_trace (handle phone (CmFinish snapshot) s).2 = sv_trace s ++ es)
    (Hanswer : EvRequest (ApplyState (snap_session_id snapshot) (snap_sequence snapshot)
                 (snap_full_text snapshot)) (Ok (RespFinished n)) ∈ es) :
  ∃ w, es = [EvRequest (ApplyState (snap_session_id snapshot) (snap_sequence snapshot)
                 (snap_full_text snapshot)) (Ok (RespFinished n));
             EvSend (target_message (snap_session_id snapshot) TargetInvalidState None) w].
Proof.
  destruct (emits_message english post_ok phone (CmFinish snapshot) s) as (es0 & Et & _ & Ho).
  rewrite Hes in Et. apply app_inv_head in Et as <-. clear Hes. cbn in Ho.
  unfold snapshot_outcome in Ho. rewrite Hvalid, Hattach in Ho. cbn in Ho.
  rewrite bool_decide_eq_true_2 in Ho by done. destruct Ho as (answer & es' & -> & Hs).
  apply elem_of_cons in Hanswer as [[= <-]|Hin].
  - inversion Hs; eauto.
  - exfalso.
    assert (∀ m es r, sends m es r → EvRequest (ApplyState (snap_session_id snapshot)
      (snap_sequence snapshot) (snap_full_text snapshot)) (Ok (RespFinished n)) ∉ es) as Hno.
    { intros m es r Hm; destruct Hm; set_solver. }
    destruct answer as [[]|]; try exact (Hno _ _ _ Hs Hin).
    destruct Hs as (answer & es2 & -> & Hs). apply elem_of_cons in Hin as [?|Hin]; [done |].
    exact (Hno _ _ _ Hs Hin).
Qed.
End messages.

(** ** A connection that lost the input *)

Section lifetime.
Context {W X : Type} `{AppPipe W, Surroundings W X}.
Context (english post_ok : bool).
Implicit Types (s : Server W X).

Lemma superseded_active a a' c :
  active_connection a' = active_connection a → superseded a' c = superseded a c.
Proof. unfold superseded, is_active_connection. by intros ->. Qed.

Lemma mark_probe_active c a :
  active_connection (mark_probe_connection english post_ok c a) = active_connection a.
Proof.
  unfold mark_probe_connection. destruct (_ !! c) as [k|]; [| done].
  destruct (oc_is_probe k); [done |]. unfold refresh_online_status. by rewrite us_active.
Qed.

Lemma conn_run s : conn s = (Ok (sv_conn s), s).
Proof. done. Qed.

Lemma check_superseded_run s :
  check_superseded s =
  (if superseded (sv_app s) (sv_conn s) then Err "connection superseded" else Ok tt, s).
Proof. unfold check_superseded, conn, app, mbind; cbn. by destruct (superseded _ _). Qed.

Lemma ensure_lease_held s :
  active_lease (sv_conn s) = true → ensure_lease english post_ok s = (Ok tt, s).
Proof. intros Hl. unfold ensure_lease, conn, mbind; cbn. by rewrite Hl. Qed.

(** A step that fails without an effect the others see. *)
Definition silent {A} s (rt : result string A * Server W X) : Prop :=
  let '(r, t) := rt in
  (∃ err, r = Err err) ∧ sv_trace t = sv_trace s ∧ sv_injector t = sv_injector s ∧
  active_connection (sv_app t) = active_connection (sv_app s).

Lemma silent_step_bind {A B} s (p : sr (Server W X) string A) (f : A → sr (Server W X) string B) :
  silent s (p s) → silent s ((x ← p; f x) s).
Proof.
  unfold silent, mbind; cbn. destruct (p s) as [[a|e] t]; [by intros ([? ?] & _) |].
  intros (_ & ?). split; eauto.
Qed.

Definition is_message (e : select_event) : bool :=
  match e with TextMessageIn _ | BinaryMessageIn _ => true | _ => false end.

(** A poll of the injector or a message that acknowledges nothing: no input. *)
Definition no_input (e : server_event) : Prop :=
  match e with
  | EvRequest (QuerySession _) _ => True
  | EvRequest _ _ => False
  | EvSend _ _ => is_ack e = false
  end.

Lemma sends_no_input m es r : sends m es r → (∀ a, m ≠ PmServer (SmAck a)) → Forall no_input es.
Proof.
  intros Hm Ha. assert (∀ w, no_input (EvSend m w)) as Hno.
  { intros w. cbn. repeat case_match; try done. by edestruct Ha. }
  by destruct Hm; constructor.
Qed.

(** [inputless p]: [p] adds no input to the trace, and of what the connection keeps it
    changes at most the session it polls. *)
Definition inputless {A} (p : sr (Server W X) string A) : Prop :=
  ∀ s, ∃ es, sv_trace (p s).2 = sv_trace s ++ es ∧ Forall no_input es ∧
    (sv_conn (p s).2 = sv_conn s ∨ sv_conn (p s).2 = set_monitored None (sv_conn s)).

Lemma emits_inputless {A} (p : sr (Server W X) string A) (Q : _ → _ → Prop) :
  emits p Q → (∀ es r, Q es r → Forall no_input es) → inputless p.
Proof. intros Hp HQ s. destruct (Hp s) as (es & Ht & Hc & Hes). exists es. split_and!; [done | by eapply HQ | by left]. Qed.

Lemma inputless_ret {A B} (p : sr (Server W X) string A) (b : B) : inputless p → inputless (_ ← p; mret b).
Proof.
  intros Hp s. destruct (Hp s) as (es & Ht & Hes). exists es. unfold mbind; cbn. by destruct (p s) as [[a|e] t].
Qed.

Lemma inputless_send m : (∀ a, m ≠ PmServer (SmAck a)) → inputless (send_json (W := W) (X := X) m).
Proof. intros Hm. eapply emits_inputless; [apply emits_send |]. intros es r Hs. by eapply sends_no_input. Qed.

Lemma inputless_poll : inputless (handle_poll english post_ok).
Proof.
  intros s. unfold handle_poll. rewrite (sr_bind_Ok _ _ _ _ _ (conn_run s)).
  destruct (monitored_session (sv_conn s)) as [session|]; [| exists []; cbn; rewrite app_nil_r; auto].
  destruct (active_lease (sv_conn s)); [| exists []; cbn; rewrite app_nil_r; auto].
  assert (emits (injector_request_async english post_ok (QuerySession session))
    (λ es r, ∃ a, es = [EvRequest (QuerySession session) a] ∧ r = Ok a)) as Hq.
  { intros t. destruct (emits_request english post_ok (QuerySession session) mret
      (λ es r, ∃ a, es = [EvRequest (QuerySession session) a] ∧ r = Ok a)
      ltac:(intros a; apply emits_ret; by exists a) t) as (es & Ht). exists es. revert Ht. unfold mbind; cbn.
    by destruct (injector_request_async english post_ok (QuerySession session) t) as [[]]. }
  destruct (Hq s) as (es & Ht & Hc & a & -> & Ha).
  destruct (injector_request_async english post_ok (QuerySession session) s) as [r s1] eqn:E. cbn in Ht, Hc, Ha. subst r.
  rewrite !(sr_bind_Ok _ _ _ _ _ E).
  assert (∀ (p : sr (Server W X) string unit) m, (∀ x, m ≠ PmServer (SmAck x)) → emits p (sends m) →
    ∃ es, sv_trace ((_ ← on_conn (set_monitored None); p) s1).2 = sv_trace s ++ es ∧ Forall no_input es ∧
      (sv_conn ((_ ← on_conn (set_monitored None); p) s1).2 = sv_conn s
       ∨ sv_conn ((_ ← on_conn (set_monitored None); p) s1).2 = set_monitored None (sv_conn s))) as Hsend.
  { intros p m Hm Hp. unfold mbind; cbn. destruct (Hp (mkServer (sv_app s1) (sv_injector s1) (sv_rest s1)
      (set_monitored None (sv_conn s1)) (sv_trace s1))) as (es & Ht2 & Hc2 & Hes). cbn in Ht2, Hc2.
    rewrite Ht2, Hc2, Ht, Hc, <- app_assoc. eexists. split; [done |]. split; [| by right].
    constructor; [done | by eapply sends_no_input]. }
  destruct a as [[]|]; try (eapply Hsend; [| apply emits_state]; intros; apply state_message_no_ack).
  2: eapply Hsend; [| apply emits_failure]; intros; apply failure_message_no_ack.
  exists [EvRequest (QuerySession session) (Ok (SessionActive session_id sequence full_text))]. cbn. split_and!; [done | by repeat constructor | by left].
Qed.

Lemma inputless_event e : is_message e = false → inputless (handle_event english post_ok false e).
Proof.
  assert (∀ r : result string bool, inputless (sr_lift r : sr (Server W X) string bool)) as Hlift.
  { intros r s. exists []. cbn. rewrite app_nil_r. auto. }
  destruct e as [| |offer| | | | | |]; try done; intros _; cbn [handle_event].
  - apply inputless_ret, inputless_poll.
  - apply inputless_ret. intros s. unfold handle_switch_request. rewrite (sr_bind_Ok _ _ _ _ _ (conn_run s)).
    rewrite !(sr_bind_Ok _ _ _ _ s (eq_refl : app s = (Ok (sv_app s), s))).
    assert (∃ es, sv_trace s = sv_trace s ++ es ∧ Forall no_input es ∧
      (sv_conn s = sv_conn s ∨ sv_conn s = set_monitored None (sv_conn s))) as Hnone by (exists []; rewrite app_nil_r; auto).
    destruct (switch_channels (sv_app s) !! cn_id (sv_conn s)) as [[[|request queue] closed control ack]|]; try exact Hnone.
    cbn [sch_queue]. match goal with |- context [on_app ?f] =>
      rewrite !(sr_bind_Ok (on_app f) _ _ tt (mkServer (f (sv_app s)) (sv_injector s) (sv_rest s) (sv_conn s) (sv_trace s)) eq_refl) end.
    match goal with |- context [send ?m ?s1] => exact (inputless_send (PmServer m) ltac:(done) s1) end.
  - by apply inputless_ret, inputless_send.
  - by apply inputless_ret, inputless_send.
  - apply (Hlift (Ok true)).
  - apply (Hlift (Err _)).
  - apply (Hlift (Ok false)).
Qed.


(** ** The session left behind *)

(** What is kept after a message, from what it was and what follows does. *)
Lemma input_tail s1 phone message (k : sr (Server W X) string unit) (Q : bool → option string) :
  input_session (sv_conn s1) = Q false →
  (∀ s2, sv_conn s2 = sv_conn s1 →
     let '(r, t) := k s2 in input_session (sv_conn t) = Q (is_ok r)) →
  let '(r, t) := (_ ← handle_client_message english post_ok false phone message; k) s1 in
  input_session (sv_conn t) = Q (is_ok r).
Proof.
  intros Herr Hok. destruct (emits_message english post_ok phone message s1) as (es & _ & Hc & _).
  unfold mbind, sr_bind. destruct (handle_client_message _ _ _ phone message s1) as [[[]|e] t].
  - by apply Hok.
  - cbn in *. by rewrite Hc.
Qed.

(** A connection remembers the session of its last input message until that
    message, ending the session, was handled: after a start, update or active
    resume it remembers it however the message went; after a finish, cancel or
    finishing resume only when its handling failed. Other messages change
    nothing. *)
Theorem input_session_is_tracked s text message (Hm : tm_client text = Some message) :
  let '(r, t) := handle_input_text english post_ok false text s in
  input_session (sv_conn t) =
    match from_message message with
    | TransitionNone => input_session (sv_conn s)
    | TransitionActive id => Some id
    | TransitionComplete id => if is_ok r then None else Some id
    end.
Proof.
  unfold handle_input_text. rewrite Hm. erewrite sr_bind_Ok by done.
  destruct (from_message message) as [|id|id]; cbn [transition_session_id completes_session];
    do 3 (erewrite sr_bind_Ok by done).
  - by apply (input_tail _ _ _ _ (λ _, input_session (sv_conn s))); [| intros s2 E; cbn; rewrite E].
  - by apply (input_tail _ _ _ _ (λ _, Some id)); [| intros s2 E; cbn; rewrite E].
  - apply (input_tail _ _ _ _ (λ ok, if ok then None else Some id)); [done |].
    intros s2 E. cbn. unfold complete. rewrite E. cbn. by rewrite bool_decide_eq_true_2.
Qed.

(** The session a connection leaves behind is cancelled after the grace time
    exactly when no newer connection of the same phone owns the input then;
    without such a session nothing happens. *)
Theorem abandoned_session_is_cancelled s c :
  let now := (yield_now s).2 in
  let t := (input_session_grace english post_ok c s).2 in
  match input_session c with
  | None => t = s
  | Some id =>
    if has_replacement_connection (sv_app now) (cn_phone_id c) (cn_id c) then t = now
    else ∃ answer, sv_trace t = sv_trace s ++ [EvRequest (CancelInvalidSession id) answer]
  end.
Proof.
  cbn zeta. unfold input_session_grace. destruct (input_session c) as [id|]; [| done].
  assert (sv_trace (yield_now s).2 = sv_trace s) as Ht.
  { destruct (quiet_yield s) as (es & E & _ & -> & _). by rewrite E, app_nil_r. }
  set (now := (yield_now s).2) in *.
  rewrite (sr_bind_Ok _ _ _ tt now) by done. rewrite (sr_bind_Ok _ _ _ (sv_app now) now) by done.
  destruct (has_replacement_connection _ _ _); [done |].
  assert (emits (W := W) (X := X) (_ ← dispatch (CancelInvalidSession id);
    on_app (mark_input_finished english post_ok))
    (λ es _, ∃ a, es = [EvRequest (CancelInvalidSession id) a])) as He.
  { apply emits_dispatch. intros a. eapply emits_weaken; [apply quiet_app |]. intros ? ? [-> _]. eauto. }
  destruct (He now) as (es & Et & _ & a & ->). rewrite Ht in Et. exists a. exact Et.
Qed.
End lifetime.

(** ** A world for the witnesses

    The pipe answers from a table, the socket takes everything, nobody else is
    there. *)

Definition table_pipe (answer : InjectorRequest → option InjectorResponse) : AppPipe Z := {|
  open_pipe w := (w, None);
  pipe_request w _ r := (w, answer r);
  server_process_path _ _ := None;
  injector_path _ := None;
  dev_injector_enabled _ := false;
  run_injector_task w := (w, false);
  clock_ms w := w;
  sleep_ms w d := w + d;
  open_clock w := Z.le_refl w;
  request_clock w _ _ := Z.le_refl w;
  sleep_clock w d := Z.le_refl (w + d);
|}.

(** The injector of a session "s" that holds what it is told. *)
Definition steady_injector (r : InjectorRequest) : option InjectorResponse :=
  match r with
  | BeginSession _ _ _ _ _ => Some (SessionBegun "Notepad")
  | ApplyState _ sequence _ => Some (RespApplied sequence)
  | FinishSession _ sequence => Some (RespFinished sequence)
  | _ => Some RespCancelled
  end.
(** The injector after the session: the same text again is finished. *)
Definition finished_injector (r : InjectorRequest) : option InjectorResponse :=
  match r with ApplyState _ sequence _ => Some (RespFinished sequence) | _ => None end.

#[local] Instance steady_pipe : AppPipe Z := table_pipe steady_injector.

#[local] Instance alone : Surroundings Z unit := {|
  socket_write x _ := (x, true);
  other_tasks x a d := (x, (a, d));
  authenticate x _ _ := (x, true);
  control_try_lease x _ := (x, true);
  control_drop_lease x _ := x;
  phone_is_paired _ _ := true;
  revoke_phone x _ := x;
  handle_control x _ _ := (x, None);
  set_image x _ _ := (x, true);
  sha256_hex _ := "";
|}.

Definition toy_connection : Connection := mkConnection "ph" "Phone" 1 true None None None.
Definition toy_server : Server Z unit :=
  mkServer (set_active_connection (Some (mkActiveConnection "ph" 1)) idle_app)
    (mkDispatcher 0 (Some (mkClient 5 "injector")) []) tt toy_connection [].
Definition toy_snapshot (phone : string) : Snapshot := mkSnapshot 2 phone "s" 3 "hello" None false.

Lemma acknowledgements_are_confirmed_witness :
  ∃ c, carries (CmStart (toy_snapshot "ph")) = Some c ∧
    confirmed c (mkAck 2 "s" 3 ServerActive)
      [EvRequest (BeginSession "s" None 3 "hello" false) (Ok (SessionBegun "Notepad"));
       EvSend (target_message "s" TargetActive (Some "Notepad")) true;
       EvRequest (ApplyState "s" 3 "hello") (Ok (RespApplied 3))].
Proof.
  apply (acknowledgements_are_confirmed true true toy_server "ph" (CmStart (toy_snapshot "ph")) _
    (mkAck 2 "s" 3 ServerActive) true []).
  vm_compute. reflexivity.
Defined.

Lemma foreign_message_asks_nothing_witness :
  ∃ es, sv_trace (handle_client_message true true false "ph" (CmUpdate (toy_snapshot "other")) toy_server).2
    = sv_trace toy_server ++ es ∧
    Forall (λ e, is_request e = false) es ∧
    (es = [] ∨ ∃ id w, es = [EvSend (error_message InvalidMessage id) w]).
Proof. apply foreign_message_asks_nothing. vm_compute. congruence. Defined.

Lemma input_gets_one_answer_witness :
  carries (CmFinish (toy_snapshot "ph")) = Some ("s", 3, "hello") ∧
  ∃ es, sv_trace (handle_client_message true true false "ph" (CmFinish (toy_snapshot "ph")) toy_server).2
    = sv_trace toy_server ++ es ∧
    one_answer es (handle_client_message true true false "ph" (CmFinish (toy_snapshot "ph")) toy_server).1.
Proof.
  split; [reflexivity |].
  exact (input_gets_one_answer true true toy_server "ph" (CmFinish (toy_snapshot "ph")) ("s", 3, "hello") eq_refl).
Defined.

Lemma repeated_finish_is_not_acknowledged_witness :
  let pipe := table_pipe finished_injector in
  sv_trace (handle_client_message (H := pipe) true true false "ph" (CmFinish (toy_snapshot "ph")) toy_server).2
  = [EvRequest (ApplyState "s" 3 "hello") (Ok (RespFinished 3));
     EvSend (target_message "s" TargetInvalidState None) true] ∧
  ∃ w, [EvRequest (ApplyState "s" 3 "hello") (Ok (RespFinished 3));
        EvSend (target_message "s" TargetInvalidState None) true]
    = [EvRequest (ApplyState "s" 3 "hello") (Ok (RespFinished 3));
       EvSend (target_message "s" TargetInvalidState None) w].
Proof.
  intros pipe. split; [vm_compute; reflexivity |].
  apply (repeated_finish_is_not_acknowledged (H := pipe) true true toy_server "ph" (toy_snapshot "ph") 3);
    [vm_compute; reflexivity.. | by left].
Defined.


Lemma input_session_is_tracked_witness :
  let text := mkText 10 true (Some "update") "" (Some (CmUpdate (toy_snapshot "ph"))) None None in
  input_session (sv_conn (handle_input_text true true false text toy_server).2) = Some "s".
Proof.
  intros text.
  pose proof (input_session_is_tracked true true toy_server text (CmUpdate (toy_snapshot "ph")) eq_refl) as H.
  destruct (handle_input_text true true false text toy_server) as [r t]. exact H.
Defined.
