(* ===== verification/Disk.v ===== *)
(** * The disk

    What the file transfer store asks of the file system (std::fs of Rust, on
    NTFS), and [flowtype-app/src/atomic_file.rs], which replaces a file as a
    whole. A path is the list of its components. Every call consumes an
    [outcome] of a schedule: it is done, it fails, or the machine stops in the
    middle of it; after a stop nothing the process still does (its destructors
    included) has an effect. A file has the bytes a reader sees and the bytes
    that are on the medium; [sync_all] makes them equal, and [reboot] keeps
    any of the sectors that were not synced. Creating, renaming and removing
    files is journaled and is never undone. *)

From S2P Require Import Prelude Text.
Local Open Scope string_scope.
Local Open Scope list_scope.
Local Open Scope Z_scope.

Notation path := (list string).

(** [std::io::ErrorKind], and the message of an invalid-data error. *)
Inductive io_error :=
| NotFound | AlreadyExists | InvalidInput | UnexpectedEof | InvalidData (message : string) | IoOther.
#[export] Instance io_error_eq_dec : EqDecision io_error.
Proof. solve_decision. Defined.

(** What becomes of a call: [part] is how much of a call that fails or is
    interrupted was done, where the call has parts. *)
Inductive outcome := Fine | Fails (part : nat) | Crash (part : nat).

Record file := mkFile {
  f_data : list Z;
  f_durable : list Z;
}.

Record disk := mkDisk {
  d_dirs : gset path;
  d_links : gset path;
  d_files : gmap path file;
  d_temp_id : Z;
  d_schedule : list outcome;
  d_halted : bool;
}.

Definition with_dirs (f : gset path → gset path) (d : disk) : disk :=
  mkDisk (f (d_dirs d)) (d_links d) (d_files d) (d_temp_id d) (d_schedule d) (d_halted d).
Definition with_files (f : gmap path file → gmap path file) (d : disk) : disk :=
  mkDisk (d_dirs d) (d_links d) (f (d_files d)) (d_temp_id d) (d_schedule d) (d_halted d).
Definition with_temp_id (f : Z → Z) (d : disk) : disk :=
  mkDisk (d_dirs d) (d_links d) (d_files d) (f (d_temp_id d)) (d_schedule d) (d_halted d).
Definition with_schedule (s : list outcome) (d : disk) : disk :=
  mkDisk (d_dirs d) (d_links d) (d_files d) (d_temp_id d) s (d_halted d).
Definition halt (d : disk) : disk :=
  mkDisk (d_dirs d) (d_links d) (d_files d) (d_temp_id d) (d_schedule d) true.

Notation io := (sr disk io_error).

(** A call that does [op] when it is fine and [partial n] of it otherwise. *)
Definition io_call {A} (op : disk → result io_error A * disk) (partial : nat → disk → disk) : io A := λ d,
  if d_halted d then (Err IoOther, d)
  else match d_schedule d with
       | [] => op d
       | Fine :: rest => op (with_schedule rest d)
       | Fails n :: rest => (Err IoOther, partial n (with_schedule rest d))
       | Crash n :: rest => (Err IoOther, halt (partial n (with_schedule rest d)))
       end.

(** A call that is done as a whole: stopped before it or after it. *)
Definition io_atomic {A} (op : disk → result io_error A * disk) : io A := λ d,
  if d_halted d then (Err IoOther, d)
  else match d_schedule d with
       | [] => op d
       | Fine :: rest => op (with_schedule rest d)
       | Fails _ :: rest => (Err IoOther, with_schedule rest d)
       | Crash 0 :: rest => (Err IoOther, halt (with_schedule rest d))
       | Crash (S _) :: rest => (Err IoOther, halt (op (with_schedule rest d)).2)
       end.

(** A call that changes nothing. *)
Definition io_read {A} (op : disk → result io_error A) : io A :=
  io_call (λ d, (op d, d)) (λ _ d, d).

(** [c.ok()]: an error is not an end, a stop is. *)
Definition attempt {A} (c : io A) : io (option A) := λ d,
  match c d with
  | (Ok a, d) => (Ok (Some a), d)
  | (Err e, d) => if d_halted d then (Err e, d) else (Ok None, d)
  end.

(** [let _ = c]: whatever comes of it. *)
Definition ignore {A} (c : io A) : io unit := _ ← attempt c; mret tt.

(** [if result.is_err() { cleanup }], and the destructors of an early return. *)
Definition on_error {A B} (c : io A) (cleanup : io B) : io A := λ d,
  match c d with
  | (Err e, d) => if d_halted d then (Err e, d) else (Err e, (cleanup d).2)
  | r => r
  end.

(** ** std::fs *)

Definition parent (p : path) : option path :=
  match p with [] => None | _ => Some (take (length p - 1) p) end.
Lemma parent_snoc p name : parent (p ++ [name]) = Some p.
Proof.
  unfold parent. destruct (p ++ [name]) eqn:E; [by destruct p |].
  rewrite <- E, length_app. cbn. rewrite Nat.add_sub. by rewrite take_app_length.
Qed.
Definition file_name (p : path) : option string := last p.

Definition is_file (p : path) (d : disk) : bool := bool_decide (is_Some (d_files d !! p)).
Definition is_dir (p : path) (d : disk) : bool := bool_decide (p ∈ d_dirs d).

Definition prefixes (p : path) : list path := (λ n, take n p) <$> seq 1 (length p).

Definition create_dir (p : path) : io unit := io_atomic (λ d,
  if is_dir p d || is_file p d then (Err AlreadyExists, d)
  else if negb (match parent p with Some q => is_dir q d | None => false end) then (Err NotFound, d)
  else (Ok tt, with_dirs (λ s, {[ p ]} ∪ s) d)).

Definition create_dir_all (p : path) : io unit := io_call (λ d,
    if existsb (λ q, is_file q d) (prefixes p) then (Err AlreadyExists, d)
    else (Ok tt, with_dirs (λ s, list_to_set (prefixes p) ∪ s) d))
  (λ n d, if existsb (λ q, is_file q d) (prefixes p) then d
          else with_dirs (λ s, list_to_set (take n (prefixes p)) ∪ s) d).

(** [OpenOptions::new().write(true).create_new(true).open(p)]. *)
Definition create_new (p : path) : io unit := io_atomic (λ d,
  if is_dir p d || is_file p d then (Err AlreadyExists, d)
  else if negb (match parent p with Some q => is_dir q d | None => false end) then (Err NotFound, d)
  else (Ok tt, with_files <[p := mkFile [] []]> d)).

(** [File::open(p)] for writing. *)
Definition open_existing (p : path) : io unit := io_read (λ d,
  if is_file p d then Ok tt else Err NotFound).

(** [fs::read(p)], and what a freshly opened file reads. *)
Definition read (p : path) : io (list Z) := io_read (λ d,
  match d_files d !! p with Some f => Ok (f_data f) | None => Err NotFound end).

(** The bytes [data] written at [offset]; a gap before them reads as zero. *)
Definition overwrite (l : list Z) (offset : nat) (data : list Z) : list Z :=
  take offset (l ++ replicate (offset - length l) 0) ++ data ++ drop (offset + length data) l.

Definition set_data (g : list Z → list Z) (f : file) : file := mkFile (g (f_data f)) (f_durable f).

(** What is written of [data] by a call that ends early: up to the end of a
    sector. *)
Definition torn (n : nat) (offset : Z) (data : list Z) : list Z :=
  take (512 * n - Z.to_nat offset mod 512) data.

(** [write_all] through a handle whose cursor is at [offset]. A file that was
    unlinked meanwhile takes the bytes and is gone. *)
Definition write_at (p : path) (offset : Z) (data : list Z) : io unit := io_call
  (λ d, (Ok tt, with_files (alter (set_data (λ l, overwrite l (Z.to_nat offset) data)) p) d))
  (λ n d, with_files (alter (set_data (λ l, overwrite l (Z.to_nat offset) (torn n offset data))) p) d).

(** [sync_all], [sync_data]. *)
Definition sync (p : path) : io unit := io_atomic (λ d,
  (Ok tt, with_files (alter (λ f, mkFile (f_data f) (f_data f)) p) d)).

Definition remove_file (p : path) : io unit := io_atomic (λ d,
  if is_file p d then (Ok tt, with_files (delete p) d) else (Err NotFound, d)).

(** [app/file_transfer_store.rs remove_if_exists] *)
Definition remove_if_exists (p : path) : io unit := λ d,
  match remove_file p d with
  | (Ok _, d) => (Ok tt, d)
  | (Err NotFound, d) => (Ok tt, d)
  | (Err error, d) => (Err error, d)
  end.

(** [MoveFileExW] with [MOVEFILE_REPLACE_EXISTING | MOVEFILE_WRITE_THROUGH]. *)
Definition move_replace (source destination : path) : io unit := io_atomic (λ d,
  match d_files d !! source with
  | None => (Err NotFound, d)
  | Some f =>
    if is_dir destination d then (Err IoOther, d)
    else if negb (match parent destination with Some q => is_dir q d | None => false end)
    then (Err NotFound, d)
    else (Ok tt, with_files (λ m, <[destination := f]> (delete source m)) d)
  end).

(** [fs::rename], which replaces the destination. *)
Definition rename (source destination : path) : io unit := move_replace source destination.

(** [OpenOptions::new().read(true).write(true).create(true).open(p)]. *)
Definition open_or_create (p : path) : io unit := io_atomic (λ d,
  if is_file p d then (Ok tt, d)
  else if is_dir p d then (Err IoOther, d)
  else if negb (match parent p with Some q => is_dir q d | None => false end) then (Err NotFound, d)
  else (Ok tt, with_files <[p := mkFile [] []]> d)).

(** [file.metadata()?.len()], [fs::metadata(p)?.len()]. *)
Definition file_len (p : path) : io Z := io_read (λ d,
  match d_files d !! p with Some f => Ok (zlength (f_data f)) | None => Err NotFound end).

(** [file.set_len(n)]. *)
Definition set_len (p : path) (n : Z) : io unit := io_atomic (λ d,
  (Ok tt, with_files (alter (set_data (λ l, resize (Z.to_nat n) 0 l)) p) d)).

(** [fs::symlink_metadata(p)]: whether it is a link. *)
Definition symlink_metadata (p : path) : io bool := io_read (λ d,
  if is_dir p d || is_file p d then Ok (bool_decide (p ∈ d_links d)) else Err NotFound).

(** The same call, with the kind and the length of what is there. *)
Record Metadata := mkMetadata { md_symlink : bool; md_dir : bool; md_file : bool; md_len : Z }.
Definition metadata (p : path) : io Metadata := io_read (λ d,
  let link := bool_decide (p ∈ d_links d) in
  match d_files d !! p with
  | Some f => Ok (mkMetadata link false (negb link) (zlength (f_data f)))
  | None => if is_dir p d then Ok (mkMetadata link (negb link) false 0) else Err NotFound
  end).

(** [p.exists()]: an error counts as no. *)
Definition path_exists (p : path) : io bool := λ d,
  match symlink_metadata p d with
  | (Ok _, d) => (Ok true, d)
  | (Err e, d) => if d_halted d then (Err e, d) else (Ok false, d)
  end.

(** The files below [p], in no particular order. *)
Definition files_below (p : path) (d : disk) : list path :=
  filter (λ q, p `prefix_of` q) (fst <$> map_to_list (d_files d)).

(** [fs::remove_dir_all]: the files one by one, then the directories. *)
Definition remove_dir_all (p : path) : io unit := io_call (λ d,
    if is_dir p d
    then (Ok tt, with_dirs (filter (λ q, ¬ p `prefix_of` q))
                   (with_files (filter (λ kv, ¬ p `prefix_of` kv.1)) d))
    else (Err NotFound, d))
  (λ n d, with_files (filter (λ kv, kv.1 ∉ take n (files_below p d))) d).

(** The names in a directory, with what they are. *)
Definition read_dir (p : path) : io (list (string * bool)) := io_read (λ d,
  if is_dir p d
  then Ok (((λ q, (default "" (last q), true)) <$> filter (λ q, parent q = Some p) (elements (d_dirs d)))
           ++ ((λ q, (default "" (last q), false))
                 <$> filter (λ q, parent q = Some p) (fst <$> map_to_list (d_files d))))
  else Err NotFound).

(** ** atomic_file.rs *)

Section atomic.
(** [std::process::id()]. *)
Context (process_id : Z).

(** [NEXT_TEMP_ID.fetch_add(1)]. *)
Definition next_temp_id : io Z := λ d, (Ok (d_temp_id d), with_temp_id (λ id, wrap64 (id + 1)) d).

Definition temporary_name (name : string) (id : Z) : string :=
  "." +:+ name +:+ "." +:+ of_bytes (decimal process_id) +:+ "." +:+ of_bytes (decimal id) +:+ ".tmp".

Fixpoint create_temporary_loop (tries : nat) (directory : path) (name : string) : io path :=
  match tries with
  | O => sr_fail AlreadyExists
  | S tries =>
    id ← next_temp_id;
    let temporary := directory ++ [temporary_name name id] in
    (λ d, match create_new temporary d with
          | (Ok _, d) => (Ok temporary, d)
          | (Err AlreadyExists, d) => create_temporary_loop tries directory name d
          | (Err error, d) => (Err error, d)
          end) : io path
  end.

(** [app/atomic_file.rs create_temporary] *)
Definition create_temporary (p : path) : io path :=
  directory ← sr_lift (ok_or (parent p) InvalidInput);
  name ← sr_lift (ok_or (file_name p) InvalidInput);
  create_temporary_loop 32 directory name.

(** [app/atomic_file.rs write] *)
Definition write (p : path) (contents : list Z) : io unit :=
  directory ← sr_lift (ok_or (parent p) InvalidInput);
  _ ← create_dir_all directory;
  temporary ← create_temporary p;
  on_error
    (_ ← write_at temporary 0 contents;
     _ ← sync temporary;
     move_replace temporary p)
    (remove_file temporary).
End atomic.

(** ** What a stop leaves *)

(** The medium takes sectors of 512 bytes, each as a whole. *)
Definition sector (l : list Z) (k : nat) : list Z := take 512 (drop (512 * k) l).

(** The bytes [r] that are found after a stop, when [v] had been written over
    [d]: each sector is as it was, or as it was written, or as it was with zeros
    up to its new length. *)
Definition survives (d v r : list Z) : Prop :=
  ∀ k, sector r k = sector d k ∨ sector r k = sector v k
       ∨ sector r k = sector d k ++ replicate (length (sector v k) - length (sector d k)) 0.

(** The machine starts again: the process is a new one, the calls it makes are
    those of [schedule]. *)
Definition reboot (schedule : list outcome) (d d' : disk) : Prop :=
  d_dirs d' = d_dirs d ∧ d_links d' = d_links d
  ∧ dom (d_files d') = dom (d_files d)
  ∧ (∀ p f f', d_files d !! p = Some f → d_files d' !! p = Some f' →
       survives (f_durable f) (f_data f) (f_data f') ∧ f_durable f' = f_data f')
  ∧ d_schedule d' = schedule ∧ d_halted d' = false.

Lemma sector_lookup l k x : (x < 512)%nat → sector l k !! x = l !! (512 * k + x)%nat.
Proof. intros Hx. unfold sector. by rewrite lookup_take_lt, lookup_drop. Qed.

Lemma sectors_eq l r : (∀ k, sector r k = sector l k) → r = l.
Proof.
  intros Hs. apply list_eq. intros i.
  pose proof (Nat.div_mod_eq i 512) as Hi. pose proof (Nat.mod_upper_bound i 512 ltac:(lia)) as Hm.
  rewrite Hi, <- !sector_lookup by done. by rewrite Hs.
Qed.

Lemma survives_same l r : survives l l r → r = l.
Proof.
  intros Hs. apply sectors_eq. intros k. destruct (Hs k) as [? | [? | Hk]]; [done.. |].
  by rewrite Hk, Nat.sub_diag, app_nil_r.
Qed.

Lemma survives_refl l : survives l l l.
Proof. intros k. by left. Qed.

(** A file that was synced is found as it was. *)
Lemma reboot_synced sched d d' p l :
  reboot sched d d' → d_files d !! p = Some (mkFile l l) → d_files d' !! p = Some (mkFile l l).
Proof.
  intros (_ & _ & Hdom & Hf & _) Hp.
  destruct (d_files d' !! p) as [[v w]|] eqn:E.
  - destruct (Hf _ _ _ Hp E) as [Hs Hw]. cbn in *. apply survives_same in Hs. by subst.
  - apply not_elem_of_dom in E. rewrite Hdom in E. apply not_elem_of_dom in E. congruence.
Qed.

Lemma reboot_absent sched d d' p :
  reboot sched d d' → d_files d !! p = None → d_files d' !! p = None.
Proof. intros (_ & _ & Hdom & _) Hp. apply not_elem_of_dom. rewrite Hdom. by apply not_elem_of_dom. Qed.

(** The restart of a disk whose files are all synced. *)
Definition restarted (d : disk) : disk :=
  mkDisk (d_dirs d) (d_links d) (d_files d) (d_temp_id d) [] false.

Lemma reboot_restarted d :
  forallb (λ kv, bool_decide (f_durable kv.2 = f_data kv.2)) (map_to_list (d_files d)) = true →
  reboot [] d (restarted d).
Proof.
  intros Hall. rewrite forallb_forall in Hall. split_and!; try done.
  intros p f f' Hf Hf'. cbn in Hf'. assert (f' = f) as -> by congruence.
  assert (f_durable f = f_data f) as ->.
  { specialize (Hall (p, f)). rewrite <- list_elem_of_In in Hall. cbn in Hall.
    specialize (Hall (proj2 (elem_of_map_to_list _ _ _) Hf)). by apply bool_decide_eq_true_1 in Hall. }
  split; [apply survives_refl | done].
Qed.
