(* ===== verification/DiskLogic.v ===== *)
(** * Reasoning about programs on the disk

    [fwp c Q E m]: whatever the schedule of the disk, started with the files
    [m], [c] ends with a value and files in [Q] or with an error, or a stop, and
    files in [E]. Directories, the schedule and the counter of temporary names
    do not matter. [quiet] disks have no fault left; on them programs compute. *)

From S2P Require Import Prelude Text Disk.
Local Open Scope list_scope.
Local Open Scope Z_scope.

Notation filemap := (@gmap path list_eq_dec list_countable file).

Definition fwp3 {A} (c : io A) (Q : A → filemap → Prop) (E C : filemap → Prop) (m : filemap) : Prop :=
  ∀ d, d_files d = m → d_halted d = false →
  match c d with
  | (Ok a, d') => d_halted d' = false ∧ Q a (d_files d')
  | (Err _, d') => if d_halted d' then C (d_files d') else E (d_files d')
  end.

(** Where an error and a stop promise the same. *)
Notation fwp c Q E m := (fwp3 c Q E E m).

Section rules.
Context {A B : Type}.
Implicit Types (Q : A → filemap → Prop) (E C : filemap → Prop) (m : filemap).

Lemma fwp3_mono (c : io A) Q Q' E E' C C' m :
  fwp3 c Q E C m → (∀ a m, Q a m → Q' a m) → (∀ m, E m → E' m) → (∀ m, C m → C' m) →
  fwp3 c Q' E' C' m.
Proof.
  intros H HQ HE HC d Hd Hh. specialize (H d Hd Hh).
  destruct (c d) as [[a|e] d']; [naive_solver |]. destruct (d_halted d'); eauto.
Qed.

Lemma fwp_mono (c : io A) Q Q' E E' m :
  fwp c Q E m → (∀ a m, Q a m → Q' a m) → (∀ m, E m → E' m) → fwp c Q' E' m.
Proof. intros H HQ HE. by eapply fwp3_mono. Qed.

Lemma fwp_ret a Q E C m : Q a m → fwp3 (mret a) Q E C m.
Proof. by intros H d <-. Qed.

Lemma fwp_bind (c : io A) (f : A → io B) (Q : B → filemap → Prop) E C m :
  fwp3 c (λ a, fwp3 (f a) Q E C) E C m → fwp3 (a ← c; f a) Q E C m.
Proof.
  intros H d Hd Hh. specialize (H d Hd Hh). unfold mbind, sr_bind.
  destruct (c d) as [[a|e] d']; [| done]. destruct H as [Hh' H]. by apply H.
Qed.

Lemma fwp_lift (r : result io_error A) Q E C m :
  (∀ a, r = Ok a → Q a m) → (∀ e, r = Err e → E m) → fwp3 (sr_lift r) Q E C m.
Proof. intros HQ HE d <- Hh. cbn. destruct r; [by eauto |]. rewrite Hh. eauto. Qed.

Lemma fwp_fail e Q E C m : E m → fwp3 (sr_fail e) Q E C m.
Proof. intros HE d <- Hh. cbn. by rewrite Hh. Qed.

Lemma fwp_attempt (c : io A) (Q : option A → filemap → Prop) E C m :
  fwp3 c (λ a, Q (Some a)) (Q None) C m → fwp3 (attempt c) Q E C m.
Proof.
  intros H d Hd Hh. specialize (H d Hd Hh). unfold attempt. destruct (c d) as [[a|e] d']; [done |].
  destruct (d_halted d') eqn:E'; by rewrite ?E'.
Qed.

Lemma fwp_on_error (c : io A) (cleanup : io B) Q E C m :
  fwp3 c Q (fwp3 cleanup (λ _, E) E C) C m → fwp3 (on_error c cleanup) Q E C m.
Proof.
  intros H d Hd Hh. specialize (H d Hd Hh). unfold on_error.
  destruct (c d) as [[a|e] d']; [done |]. destruct (d_halted d') eqn:Hh'; [by rewrite Hh' |].
  specialize (H d' eq_refl Hh'). cbn.
  cbv beta zeta. destruct (cleanup d') as [[b|e'] d'']; cbn; [| done]. destruct H as [-> H]. done.
Qed.

(** The two kinds of calls. *)
Lemma fwp_call (op : disk → result io_error A * disk) partial Q E m :
  (∀ d, d_files d = m → match op d with
     (Ok a, d') => d_halted d' = d_halted d ∧ Q a (d_files d') | (Err _, d') => E (d_files d') end) →
  (∀ n d, d_files d = m → E (d_files (partial n d))) → E m →
  fwp (io_call op partial) Q E m.
Proof.
  intros Hop Hp HE d Hd Hh. unfold io_call. rewrite Hh.
  destruct (d_schedule d) as [|[| n | n] rest].
  - specialize (Hop d Hd). destruct (op d) as [[a|e] d']; [by rewrite Hh in Hop |]. by case_match.
  - specialize (Hop (with_schedule rest d) Hd). cbn in Hop. rewrite Hh in Hop.
    destruct (op _) as [[a|e] d']; [done |]. by case_match.
  - case_match; by apply Hp.
  - cbn. by apply Hp.
Qed.

Lemma fwp3_atomic (op : disk → result io_error A * disk) Q E C m :
  (∀ d, d_files d = m → match op d with
     (Ok a, d') => d_halted d' = d_halted d ∧ Q a (d_files d') ∧ C (d_files d')
   | (Err _, d') => E (d_files d') ∧ C (d_files d') end) → E m → C m →
  fwp3 (io_atomic op) Q E C m.
Proof.
  intros Hop HE HC d Hd Hh. unfold io_atomic. rewrite Hh.
  destruct (d_schedule d) as [|[| n | [|n]] rest].
  - specialize (Hop d Hd). destruct (op d) as [[a|e] d']; [by rewrite Hh in Hop; naive_solver |].
    case_match; naive_solver.
  - specialize (Hop (with_schedule rest d) Hd). cbn in Hop. rewrite Hh in Hop.
    destruct (op _) as [[a|e] d']; [naive_solver |]. case_match; naive_solver.
  - cbn. by rewrite Hh, Hd.
  - cbn. by rewrite Hd.
  - specialize (Hop (with_schedule rest d) Hd). cbn. destruct (op _) as [[a|e] d']; cbn; naive_solver.
Qed.

Lemma fwp_atomic (op : disk → result io_error A * disk) Q E m :
  (∀ d, d_files d = m → match op d with
     (Ok a, d') => d_halted d' = d_halted d ∧ Q a (d_files d') ∧ E (d_files d')
   | (Err _, d') => E (d_files d') end) → E m →
  fwp (io_atomic op) Q E m.
Proof.
  intros Hop HE. apply fwp3_atomic; [| done..]. intros d Hd. specialize (Hop d Hd).
  by destruct (op d) as [[a|e] d'].
Qed.

Lemma fwp_read_call (op : disk → result io_error A) Q E m :
  (∀ d a, d_files d = m → op d = Ok a → Q a m) → E m → fwp (io_read op) Q E m.
Proof.
  intros HQ HE. apply fwp_call; [| by intros _ d -> | done].
  intros d Hd. destruct (op d) as [a|e] eqn:Eop; [| by rewrite Hd].
  rewrite Hd. split; [done |]. by eapply HQ.
Qed.
End rules.

Lemma fwp_ignore {A} (c : io A) (Q : unit → filemap → Prop) (E C : filemap → Prop) (m : filemap) :
  fwp3 c (λ _, Q tt) (Q tt) C m → fwp3 (ignore c) Q E C m.
Proof.
  intros H. apply fwp_bind, fwp_attempt. eapply fwp3_mono; [exact H | | |]; try done.
  - intros a m' Hm'. by apply fwp_ret.
  - intros m' Hm'. by apply fwp_ret.
Qed.

(** ** The calls of std::fs *)

Lemma fwp_create_dir (p : path) (Q : unit → filemap → Prop) (E : filemap → Prop) (m : filemap) :
  Q tt m → E m → fwp (create_dir p) Q E m.
Proof.
  intros HQ HE. apply fwp_atomic; [| done]. intros d <-. cbv beta.
  destruct (is_dir p d || is_file p d); [done |]. by destruct (negb _).
Qed.

Lemma fwp_create_dir_all (p : path) (Q : unit → filemap → Prop) (E : filemap → Prop) (m : filemap) :
  Q tt m → E m → fwp (create_dir_all p) Q E m.
Proof.
  intros HQ HE. apply fwp_call; [| | done].
  - intros d <-. by destruct (existsb _ _).
  - intros n d <-. by destruct (existsb _ _).
Qed.

Lemma fwp_create_new (p : path) (Q : unit → filemap → Prop) (E : filemap → Prop) (m : filemap) :
  (m !! p = None → Q tt (<[p := mkFile [] []]> m) ∧ E (<[p := mkFile [] []]> m)) → E m →
  fwp (create_new p) Q E m.
Proof.
  intros HQ HE. apply fwp_atomic; [| done]. intros d <-. cbv beta.
  destruct (is_dir p d || is_file p d) eqn:E'; [done |]. destruct (negb _); [done |].
  apply orb_false_iff in E' as [_ E']. unfold is_file in E'. bool_to_prop.
  split; [done |]. apply HQ. by apply eq_None_not_Some.
Qed.

Lemma fwp_open_existing (p : path) (Q : unit → filemap → Prop) (E : filemap → Prop) (m : filemap) :
  (is_Some (m !! p) → Q tt m) → E m → fwp (open_existing p) Q E m.
Proof.
  intros HQ HE. apply fwp_read_call; [| done]. intros d [] <- Hop. apply HQ.
  unfold is_file in Hop. by case_bool_decide.
Qed.

Lemma fwp_read (p : path) (Q : list Z → filemap → Prop) (E : filemap → Prop) (m : filemap) :
  (∀ f, m !! p = Some f → Q (f_data f) m) → E m → fwp (read p) Q E m.
Proof.
  intros HQ HE. apply fwp_read_call; [| done]. intros d a <- Hop.
  destruct (d_files d !! p) eqn:Hp; [| done]. injection Hop as <-. by apply HQ.
Qed.

Lemma fwp_write_at (p : path) (offset : Z) (data : list Z) (Q : unit → filemap → Prop) (E : filemap → Prop) (m : filemap) :
  Q tt (alter (set_data (λ l, overwrite l (Z.to_nat offset) data)) p m) →
  (∀ n, E (alter (set_data (λ l, overwrite l (Z.to_nat offset) (torn n offset data))) p m)) → E m →
  fwp (write_at p offset data) Q E m.
Proof. intros HQ HE1 HE. apply fwp_call; [by intros d <- | intros n d <-; apply HE1 | done]. Qed.

Lemma fwp_sync (p : path) (Q : unit → filemap → Prop) (E : filemap → Prop) (m : filemap) :
  let m' := alter (λ f, mkFile (f_data f) (f_data f)) p m in
  Q tt m' → E m' → E m → fwp (sync p) Q E m.
Proof. intros m' HQ HE1 HE. apply fwp_atomic; [by intros d <- | done]. Qed.

Lemma fwp_remove_file (p : path) (Q : unit → filemap → Prop) (E : filemap → Prop) (m : filemap) :
  (is_Some (m !! p) → Q tt (delete p m) ∧ E (delete p m)) → E m → fwp (remove_file p) Q E m.
Proof.
  intros HQ HE. apply fwp_atomic; [| done]. intros d <-. cbv beta.
  destruct (is_file p d) eqn:E'; [| done]. unfold is_file in E'. bool_to_prop. split; [done | by apply HQ].
Qed.

(** An error leaves the two files; a stop may come after the move. *)
Lemma fwp_move_replace (a b : path) (Q : unit → filemap → Prop) (E C : filemap → Prop) (m : filemap) :
  (∀ f, m !! a = Some f → Q tt (<[b := f]> (delete a m)) ∧ C (<[b := f]> (delete a m))) →
  E m → C m →
  fwp3 (move_replace a b) Q E C m.
Proof.
  intros HQ HE HC. apply fwp3_atomic; [| done..]. intros d <-. cbv beta.
  destruct (d_files d !! a) eqn:Ha; [| done]. destruct (is_dir b d); [done |].
  destruct (negb _); [done |]. split; [done | by apply HQ].
Qed.

Lemma fwp_remove_if_exists (p : path) (Q : unit → filemap → Prop) (E : filemap → Prop) (m : filemap) :
  Q tt (delete p m) → E (delete p m) → E m → fwp (remove_if_exists p) Q E m.
Proof.
  intros HQ HE1 HE d Hd Hh. unfold remove_if_exists, remove_file, io_atomic. rewrite Hh.
  assert (∀ d, d_files d = m → is_file p d = false → Q tt (d_files d)) as Hnone.
  { intros d0 Hd0 Hp. unfold is_file in Hp. bool_to_prop. rewrite Hd0 in *.
    apply eq_None_not_Some in Hp. by rewrite delete_id in HQ. }
  destruct (d_schedule d) as [|[| n | [|n]] rest]; try (cbn; by rewrite ?Hh, Hd).
  - destruct (is_file p d) eqn:E'; cbn; rewrite Hh; [by rewrite Hd | by auto].
  - destruct (is_file p (with_schedule rest d)) eqn:E'; cbn; rewrite Hh; [by rewrite Hd |].
    split; [done | by apply (Hnone (with_schedule rest d))].
  - destruct (is_file p (with_schedule rest d)) eqn:E'; cbn; by rewrite Hd.
Qed.

Lemma fwp_symlink_metadata (p : path) (Q : bool → filemap → Prop) (E : filemap → Prop) (m : filemap) :
  (∀ b, Q b m) → E m → fwp (symlink_metadata p) Q E m.
Proof. intros HQ HE. by apply fwp_read_call. Qed.

Lemma fwp_read_dir (p : path) (Q : list (string * bool) → filemap → Prop) (E : filemap → Prop) (m : filemap) :
  (∀ l, Q l m) → E m → fwp (read_dir p) Q E m.
Proof. intros HQ HE. by apply fwp_read_call. Qed.

(** ** Disks without faults *)

Definition quiet (d : disk) : Prop := d_schedule d = [] ∧ d_halted d = false.

Lemma read_quiet d (p : path) f : quiet d → d_files d !! p = Some f → read p d = (Ok (f_data f), d).
Proof. intros [Hs Hh] Hp. unfold read, io_read, io_call. by rewrite Hh, Hs, Hp. Qed.

Lemma read_absent d (p : path) : quiet d → d_files d !! p = None → read p d = (Err NotFound, d).
Proof. intros [Hs Hh] Hp. unfold read, io_read, io_call. by rewrite Hh, Hs, Hp. Qed.

Lemma open_existing_quiet d (p : path) f :
  quiet d → d_files d !! p = Some f → open_existing p d = (Ok tt, d).
Proof.
  intros [Hs Hh] Hp. unfold open_existing, io_read, io_call, is_file.
  rewrite Hh, Hs, Hp. by rewrite bool_decide_true by eauto.
Qed.

Lemma write_at_quiet d (p : path) (offset : Z) (data : list Z) :
  quiet d → write_at p offset data d
    = (Ok tt, with_files (alter (set_data (λ l, overwrite l (Z.to_nat offset) data)) p) d).
Proof. intros [Hs Hh]. unfold write_at, io_call. by rewrite Hh, Hs. Qed.

Lemma sync_quiet d (p : path) :
  quiet d → sync p d = (Ok tt, with_files (alter (λ f, mkFile (f_data f) (f_data f)) p) d).
Proof. intros [Hs Hh]. unfold sync, io_atomic. by rewrite Hh, Hs. Qed.

Lemma quiet_with_files g d : quiet d → quiet (with_files g d).
Proof. done. Qed.
#[export] Hint Resolve quiet_with_files : flow.

(** ** Replacing a file as a whole *)

(** Temporary files begin with a dot, and no file the store keeps does. *)
Definition dotted (p : path) : Prop := head (bytes_of (default EmptyString (last p))) = Some 46.

(** Only files in [S] are changed. *)
Definition frame (S : path → Prop) (m m' : filemap) : Prop := ∀ p, ¬ S p → m' !! p = m !! p.
Notation same_visible := (frame dotted).

Section frame.
Context (S : path → Prop).
Implicit Types (p : path) (m : filemap).

Lemma frame_refl m : frame S m m.
Proof. by intros p. Qed.
Lemma frame_trans m1 m2 m3 : frame S m1 m2 → frame S m2 m3 → frame S m1 m3.
Proof. intros H1 H2 p Hp. by rewrite H2, H1. Qed.
Lemma frame_insert p f m : S p → frame S m (<[p := f]> m).
Proof. intros Hp q Hq. by rewrite lookup_insert_ne by naive_solver. Qed.
Lemma frame_alter p g m : S p → frame S m (alter g p m).
Proof. intros Hp q Hq. by rewrite lookup_alter_ne by naive_solver. Qed.
Lemma frame_delete p m : S p → frame S m (delete p m).
Proof. intros Hp q Hq. by rewrite lookup_delete_ne by naive_solver. Qed.
Lemma frame_mono (S' : path → Prop) m m' : (∀ p, S p → S' p) → frame S m m' → frame S' m m'.
Proof. intros HS Hf p Hp. apply Hf. naive_solver. Qed.
Lemma frame_lookup m m' p f : frame S m m' → ¬ S p → m !! p = f → m' !! p = f.
Proof. intros Hf Hp <-. by apply Hf. Qed.
End frame.
#[export] Hint Resolve frame_refl frame_insert frame_alter frame_delete : flow.

Section atomic.
Context (pid : Z).

Lemma temporary_dotted directory name id : dotted (directory ++ [temporary_name pid name id]).
Proof. unfold dotted. by rewrite last_snoc. Qed.

(** Whoever sees that a name is taken was not stopped. *)
Lemma create_new_stopped (p : path) d e d' :
  d_halted d = false → create_new p d = (Err e, d') → d_halted d' = true → e = IoOther.
Proof.
  intros Hh. unfold create_new, io_atomic. rewrite Hh.
  destruct (d_schedule d) as [|[| n | [|n]] rest]; try (by intros [= <- <-]).
  - repeat case_match; intros [= <- <-]; cbn; congruence.
  - repeat case_match; intros [= <- <-]; cbn; congruence.
Qed.

Lemma fwp_create_temporary_loop (tries : nat) (directory : path) (name : string) (Q : path → filemap → Prop) (E : filemap → Prop) (m m0 : filemap) :
  same_visible m m0 →
  (∀ t m', dotted t → same_visible m m' → Q t (<[t := mkFile [] []]> m')) →
  (∀ m', same_visible m m' → E m') →
  fwp (create_temporary_loop pid tries directory name) Q E m0.
Proof.
  intros Hm HQ HE. revert m0 Hm. induction tries as [|tries IH]; intros m0 Hm; cbn [create_temporary_loop].
  { by apply fwp_fail, HE. }
  intros d <- Hh. unfold mbind, sr_bind, next_temp_id.
  set (d1 := with_temp_id _ d). set (t := directory ++ [_]).
  assert (dotted t) as Ht by apply temporary_dotted.
  assert (fwp (create_new t) (λ _ m', m' = <[t := mkFile [] []]> (d_files d))
            (λ m', same_visible (d_files d) m') (d_files d)) as Hnew.
  { apply fwp_create_new; [| apply frame_refl].
    intros Hnone. split; [done | by apply frame_insert]. }
  specialize (Hnew d1 eq_refl Hh). destruct (create_new t d1) as [[u|e] d2] eqn:Hc.
  - destruct Hnew as [Hh2 ->]. split; [done |]. by apply HQ.
  - assert (same_visible m (d_files d2)) as Hm2 by (eapply frame_trans; [done | by case_match]).
    destruct (d_halted d2) eqn:Hh2.
    + apply (create_new_stopped t d1) in Hc as ->; [| done..]. cbn. rewrite Hh2. by apply HE.
    + destruct e; try (cbn; rewrite Hh2; by apply HE). by apply (IH (d_files d2)).
Qed.

(** [p] is replaced as a whole, or nothing but temporary files is changed; when
    an error is returned it was not replaced. *)
Lemma fwp_write (p : path) (contents : list Z) (Q : unit → filemap → Prop) (E C : filemap → Prop) (m : filemap) :
  (∀ m', same_visible (<[p := mkFile contents contents]> m) m' → Q tt m' ∧ C m') →
  (∀ m', same_visible m m' → E m' ∧ C m') →
  fwp3 (write pid p contents) Q E C m.
Proof.
  intros HQ HE. unfold write.
  assert (E m ∧ C m) as [Em Cm] by apply HE, frame_refl.
  apply fwp_bind, fwp_lift; [intros directory _ | done].
  apply fwp_bind. eapply fwp3_mono; [by apply (fwp_create_dir_all _ (λ _, eq m) (eq m)) | | |];
    [| by intros ? <- | by intros ? <-].
  intros _ m' <-. apply fwp_bind. unfold create_temporary.
  apply fwp_bind, fwp_lift; [intros directory' _ | done].
  apply fwp_bind, fwp_lift; [intros name _ | done].
  eapply fwp3_mono;
    [eapply (fwp_create_temporary_loop _ _ _
       (λ t m2, ∃ m1, dotted t ∧ same_visible m m1 ∧ m2 = <[t := mkFile [] []]> m1) (same_visible m));
      [apply frame_refl | by eauto | done] | | by apply HE | by apply HE].
  intros t m2 (m1 & Ht & Hm1 & ->).
  assert (∀ f, same_visible m (<[t := f]> m1)) as Hm2
    by (intros f; eapply frame_trans; [exact Hm1 | by apply frame_insert]).
  assert (overwrite [] (Z.to_nat 0) contents = contents) as Hover
    by (unfold overwrite; cbn; by rewrite drop_nil, app_nil_r).
  apply fwp_on_error.
  apply (fwp3_mono _ Q _ (same_visible m) _ C); [| done | |done].
  2: { intros m' Hm'. eapply fwp3_mono; [apply (fwp_remove_file t (λ _, same_visible m) (same_visible m)) | | |].
       3, 4, 5: by intros; eapply HE; eauto.
       - intros _. split; (eapply frame_trans; [exact Hm' | by apply frame_delete]).
       - done. }
  apply fwp_bind. eapply fwp3_mono;
    [apply (fwp_write_at _ _ _ (λ _ m3, m3 = <[t := mkFile contents []]> m1) (same_visible m)) | | done | apply HE].
  { rewrite alter_insert_eq. unfold set_data. cbn [f_data f_durable]. by rewrite Hover. }
  { intros n. by rewrite alter_insert_eq. }
  { apply Hm2. }
  intros _ m3 ->. apply fwp_bind. eapply fwp3_mono;
    [apply (fwp_sync _ (λ _ m3, m3 = <[t := mkFile contents contents]> m1) (same_visible m)) | | done | apply HE].
  { by rewrite alter_insert_eq. }
  { by rewrite alter_insert_eq. }
  { apply Hm2. }
  intros _ m3 ->. apply fwp_move_replace; [| done | by apply HE].
  intros f. rewrite lookup_insert_eq. intros [= <-]. apply HQ.
  intros q Hq. destruct (decide (p = q)) as [<-|]; [by rewrite !lookup_insert_eq |].
  rewrite !(lookup_insert_ne _ p) by done. rewrite delete_insert_eq.
  rewrite lookup_delete_ne by naive_solver. by apply Hm1.
Qed.
End atomic.


(** ** Settled disks

    No fault is left, and every file is in a directory that is there. Every
    program leaves a settled disk settled. *)

Definition dirs_wf (d : disk) : Prop :=
  ∀ p q, is_Some (d_files d !! p) → parent p = Some q → q ∈ d_dirs d.
Definition settled (d : disk) : Prop := quiet d ∧ dirs_wf d.
Definition keeps {A} (c : io A) : Prop := ∀ d, settled d → settled (c d).2.

Lemma keeps_ret {A} (a : A) : keeps (mret a).
Proof. by intros d. Qed.
Lemma keeps_fail {A} e : keeps (sr_fail e : io A).
Proof. by intros d. Qed.
Lemma keeps_lift {A} (r : result io_error A) : keeps (sr_lift r).
Proof. by intros d. Qed.
Lemma keeps_bind {A B} (c : io A) (f : A → io B) : keeps c → (∀ a, keeps (f a)) → keeps (a ← c; f a).
Proof.
  intros Hc Hf d Hd. unfold mbind, sr_bind. specialize (Hc d Hd).
  destruct (c d) as [[a|e] d']; [by apply Hf | done].
Qed.
Lemma keeps_attempt {A} (c : io A) : keeps c → keeps (attempt c).
Proof.
  intros Hc d Hd. specialize (Hc d Hd). unfold attempt. destruct (c d) as [[a|e] d']; [done |].
  by destruct (d_halted d').
Qed.
Lemma keeps_ignore {A} (c : io A) : keeps c → keeps (ignore c).
Proof. intros Hc. apply keeps_bind; [by apply keeps_attempt | intros; apply keeps_ret]. Qed.
Lemma keeps_on_error {A B} (c : io A) (cleanup : io B) : keeps c → keeps cleanup → keeps (on_error c cleanup).
Proof.
  intros Hc Hf d Hd. specialize (Hc d Hd). unfold on_error. destruct (c d) as [[a|e] d']; [done |].
  destruct (d_halted d'); [done | by apply Hf].
Qed.
Lemma keeps_call {A} (op : disk → result io_error A * disk) partial :
  (∀ d, settled d → settled (op d).2) → keeps (io_call op partial).
Proof. intros Hop d [[Hs Hh] Hw]. unfold io_call. rewrite Hh, Hs. by apply Hop. Qed.
Lemma keeps_atomic {A} (op : disk → result io_error A * disk) :
  (∀ d, settled d → settled (op d).2) → keeps (io_atomic op).
Proof. intros Hop d [[Hs Hh] Hw]. unfold io_atomic. rewrite Hh, Hs. by apply Hop. Qed.
Lemma keeps_read_call {A} (op : disk → result io_error A) : keeps (io_read op).
Proof. by apply keeps_call. Qed.

(** The calls that change the disk. *)
Lemma settled_dirs (d : disk) (f : gset path → gset path) :
  settled d → d_dirs d ⊆ f (d_dirs d) → settled (with_dirs f d).
Proof. intros [Hq Hw] Hf. split; [done |]. intros p q Hp Hq'. apply Hf. by eapply Hw. Qed.
Lemma settled_insert (d : disk) (p q : path) f :
  settled d → parent p = Some q → q ∈ d_dirs d → settled (with_files <[p := f]> d).
Proof.
  intros [Hq Hw] Hp Hd. split; [done |]. intros p' q' Hp' Hq'. cbn in *.
  destruct (decide (p = p')) as [<-|]; [congruence |]. rewrite lookup_insert_ne in Hp' by done. by eapply Hw.
Qed.
Lemma settled_sub (d : disk) (g : filemap → filemap) :
  settled d → (∀ p, is_Some (g (d_files d) !! p) → is_Some (d_files d !! p)) → settled (with_files g d).
Proof. intros [Hq Hw] Hg. split; [done |]. intros p q Hp Hq'. eapply Hw; [by apply Hg | done]. Qed.

Lemma keeps_create_dir p : keeps (create_dir p).
Proof.
  apply keeps_atomic. intros d Hd. destruct (is_dir p d || is_file p d); [done |].
  destruct (negb _); [done |]. apply settled_dirs; [done |]. set_solver.
Qed.
Lemma keeps_create_dir_all p : keeps (create_dir_all p).
Proof.
  apply keeps_call. intros d Hd. destruct (existsb _ _); [done |].
  apply settled_dirs; [done |]. set_solver.
Qed.
Lemma keeps_create_new p : keeps (create_new p).
Proof.
  apply keeps_atomic. intros d Hd. destruct (is_dir p d || is_file p d); [done |].
  destruct (parent p) as [q|] eqn:Hp; [| done]. unfold is_dir. cbn. case_bool_decide; [| done].
  by eapply settled_insert.
Qed.
Lemma keeps_open_or_create p : keeps (open_or_create p).
Proof.
  apply keeps_atomic. intros d Hd. destruct (is_file p d); [done |]. destruct (is_dir p d); [done |].
  destruct (parent p) as [q|] eqn:Hp; [| done]. unfold is_dir. cbn. case_bool_decide; [| done].
  by eapply settled_insert.
Qed.
Lemma settled_alter (d : disk) (g : file → file) (p : path) : settled d → settled (with_files (alter g p) d).
Proof.
  intros Hd. apply settled_sub; [done |]. intros q. destruct (decide (p = q)) as [<-|].
  - rewrite lookup_alter_eq. by rewrite fmap_is_Some.
  - by rewrite lookup_alter_ne.
Qed.
Lemma keeps_write_at p offset data : keeps (write_at p offset data).
Proof. apply keeps_call. intros d Hd. by apply settled_alter. Qed.
Lemma keeps_sync p : keeps (sync p).
Proof. apply keeps_atomic. intros d Hd. by apply settled_alter. Qed.
Lemma keeps_set_len p n : keeps (set_len p n).
Proof. apply keeps_atomic. intros d Hd. by apply settled_alter. Qed.
Lemma keeps_move_replace a b : keeps (move_replace a b).
Proof.
  apply keeps_atomic. intros d Hd. destruct (d_files d !! a) as [f|] eqn:Ha; [| done].
  destruct (is_dir b d); [done |].
  destruct (parent b) as [q|] eqn:Hp; [| done]. unfold is_dir. cbn. case_bool_decide; [| done].
  change (settled (with_files <[b := f]> (with_files (delete a) d))).
  apply (settled_insert (with_files (delete a) d) b q f); [| done..].
  apply settled_sub; [done |]. intros q' [f' Hf%lookup_delete_Some]. naive_solver.
Qed.
Lemma keeps_remove_file p : keeps (remove_file p).
Proof.
  apply keeps_atomic. intros d Hd. destruct (is_file p d); [| done].
  apply settled_sub; [done |]. intros q [f Hf%lookup_delete_Some]. naive_solver.
Qed.
Lemma keeps_remove_if_exists p : keeps (remove_if_exists p).
Proof.
  intros d Hd. pose proof (keeps_remove_file p d Hd) as H. unfold remove_if_exists.
  destruct (remove_file p d) as [[u|[]] d']; done.
Qed.
Lemma keeps_remove_dir_all p : keeps (remove_dir_all p).
Proof.
  apply keeps_call. intros d [Hq Hw]. destruct (is_dir p d); [| done]. split; [done |].
  intros q r [f Hf%map_lookup_filter_Some] Hr. cbn in *. destruct Hf as [Hf Hnot].
  apply elem_of_filter. split; [| by eapply Hw]. intros Hpre. apply Hnot.
  etrans; [exact Hpre |]. unfold parent in Hr. destruct q; [done |]. injection Hr as <-.
  eexists. symmetry. apply take_drop.
Qed.

(** Programs by their structure. *)
Create HintDb settle discriminated.
#[export] Hint Resolve keeps_ret keeps_fail keeps_lift keeps_read_call keeps_create_dir keeps_create_dir_all
  keeps_create_new keeps_open_or_create keeps_write_at keeps_sync keeps_set_len keeps_move_replace keeps_remove_file
  keeps_remove_if_exists keeps_remove_dir_all : settle.

Ltac keep_going :=
  repeat first
    [ progress (cbv beta iota zeta)
    | solve [eauto 2 with settle nocore]
    | apply keeps_bind; [| intros ?]
    | apply keeps_attempt | apply keeps_ignore | apply keeps_on_error
    | case_match ].
