(* ===== verification/Diagnostics.v ===== *)
(** * The diagnostics log and the text diff

    [flowtype-core/src/diagnostics.rs]: a log of bounded size with one backup; and
    [flowtype-core/src/diff.rs]. *)

From S2P Require Import Prelude Text Disk.
Local Open Scope string_scope.
Local Open Scope list_scope.
Local Open Scope Z_scope.

(** ** Cutting a line *)

(** [str::is_char_boundary]. *)
Definition is_char_boundary (l : list Z) (index : nat) : bool :=
  match index, l !! index with
  | O, _ => true
  | _, None => Nat.eqb index (length l)
  | _, Some b => (b <? 128) || (192 <=? b)
  end.

(** The loop of [truncate_utf8]. *)
Fixpoint boundary_below (l : list Z) (index : nat) : nat :=
  match index with
  | O => O
  | S n => if is_char_boundary l index then index else boundary_below l n
  end.

(** [core/diagnostics.rs truncate_utf8] *)
Definition truncate_utf8 (value : list Z) (max_bytes : Z) : list Z :=
  if zlength value <=? max_bytes then value else take (boundary_below value (Z.to_nat max_bytes)) value.

(** ** The log *)

(** [core/diagnostics.rs backup_path] [with_file_name]. *)
Definition backup_path (p : path) : path := take (length p - 1) p ++ [default "" (file_name p) +:+ ".1"].

(** [OpenOptions::new().create(true).write(true).truncate(true).open(p)]. *)
Definition open_truncated (p : path) : io unit := io_atomic (λ d,
  if is_dir p d then (Err IoOther, d)
  else if negb (match parent p with Some q => is_dir q d | None => false end) then (Err NotFound, d)
  else (Ok tt, with_files (λ m, <[p := match m !! p with Some f => set_data (λ _, []) f | None => mkFile [] [] end]> m) d)).

(** [write_all] through a handle that appends. *)
Definition append (p : path) (data : list Z) : io unit := λ d,
  write_at p (match d_files d !! p with Some f => zlength (f_data f) | None => 0 end) data d.

(** [core/diagnostics.rs rotate] *)
Definition rotate (p : path) : io unit :=
  _ ← remove_if_exists (backup_path p);
  (λ d, match rename p (backup_path p) d with
       | (Ok _, d) => (Ok tt, d)
       | (Err NotFound, d) => (Ok tt, d)
       | (Err _, d) => open_truncated p d
       end) : io unit.

(** [core/diagnostics.rs append_bounded] The lock is held; it is never poisoned, as
    nothing under it panics. [writeln!] writes the line and its end. *)
Definition append_bounded (p : path) (line : list Z) (max_bytes : Z) : io unit :=
  if max_bytes =? 0 then sr_fail InvalidInput
  else
    let line := truncate_utf8 line (max_bytes - 1) in
    let incoming := zlength line + 1 in
    current ← attempt (file_len p);
    _ ← (if max_bytes <? Z.min (default 0 current + incoming) (2 ^ 64 - 1) then rotate p else mret tt);
    _ ← open_or_create p;
    _ ← append p line;
    append p [10].

(** [app/diagnostics.rs log] [injector/diagnostics.rs log] [millis] is the time since
    1970, [0] before it. What becomes of the line is ignored. *)
Definition log (temp_dir : path) (name : string) (millis : Z) (event : string) : io unit :=
  ignore (append_bounded (temp_dir ++ [name]) (decimal millis ++ [32] ++ bytes_of event) (1024 * 1024)).

(** ** Whole characters *)

Notation encoded cs := (cs ≫= encode_utf8).

Definition continuation (b : Z) : Prop := 128 ≤ b < 192.

Lemma encode_shape c :
  scalar c → ∃ lead rest, encode_utf8 c = lead :: rest ∧ ¬ continuation lead ∧ Forall continuation rest.
Proof.
  unfold scalar, encode_utf8, continuation. intros Hc.
  repeat case_match; bool_to_prop; eexists _, _; (split; [done |]);
    (split; [| repeat constructor]); Z.to_euclidean_division_equations; lia.
Qed.

Lemma boundary_lead l i b : l !! i = Some b → ¬ continuation b → is_char_boundary l i = true.
Proof.
  unfold continuation. intros Hb Hc. destruct i; [done |]. unfold is_char_boundary. rewrite Hb.
  apply orb_true_iff. rewrite Z.ltb_lt, Z.leb_le. lia.
Qed.

Lemma boundary_inside l i b : l !! S i = Some b → continuation b → is_char_boundary l (S i) = false.
Proof.
  unfold continuation. intros Hb Hc. unfold is_char_boundary. rewrite Hb.
  apply orb_false_iff. rewrite Z.ltb_ge, Z.leb_gt. lia.
Qed.

(** In a character only its beginning is a boundary. *)
Lemma boundary_in_first c cs n :
  scalar c → (n < length (encode_utf8 c))%nat → boundary_below (encoded (c :: cs)) n = 0%nat.
Proof.
  intros Hc. destruct (encode_shape c Hc) as (lead & rest & He & _ & Hrest). induction n as [|n IH]; [done |].
  intros Hn. cbn [boundary_below].
  destruct (lookup_lt_is_Some_2 rest n) as [b Hb]; [rewrite He in Hn; cbn in Hn; lia |].
  rewrite (boundary_inside _ n b); [apply IH; lia | |].
  - cbn [mbind list_bind]. rewrite He. cbn. by apply lookup_app_l_Some.
  - by eapply Forall_lookup_1.
Qed.

Lemma boundary_after_first c cs i :
  scalar c → Forall scalar cs →
  is_char_boundary (encoded (c :: cs)) (length (encode_utf8 c) + i) = is_char_boundary (encoded cs) i.
Proof.
  intros Hc Hcs. cbn [mbind list_bind]. destruct (encode_shape c Hc) as (lead & rest & He & _ & _).
  assert (∀ l, is_char_boundary l (length (encode_utf8 c) + i)
    = match l !! (length (encode_utf8 c) + i)%nat with
      | None => Nat.eqb (length (encode_utf8 c) + i) (length l) | Some b => (b <? 128) || (192 <=? b) end) as ->
    by (intros l; rewrite He; done).
  rewrite lookup_app_r by lia. rewrite Nat.add_sub', length_app. fold (encoded cs). destruct i as [|i].
  - destruct cs as [|c' cs]; [cbn; by rewrite !Nat.add_0_r, Nat.eqb_refl |].
    inversion Hcs as [|? ? Hc' _]. destruct (encode_shape c' Hc') as (lead' & rest' & He' & Hl' & _).
    cbn [mbind list_bind]. rewrite He'. cbn. unfold continuation in Hl'. apply orb_true_iff. rewrite Z.ltb_lt, Z.leb_le. lia.
  - unfold is_char_boundary. destruct (encoded cs !! S i); [done |].
    destruct (Nat.eqb_spec (S i) (length (encoded cs))); apply Nat.eqb_eq || apply Nat.eqb_neq; lia.
Qed.

Lemma boundary_skips c cs i :
  scalar c → Forall scalar cs →
  boundary_below (encoded (c :: cs)) (length (encode_utf8 c) + i)
  = (length (encode_utf8 c) + boundary_below (encoded cs) i)%nat.
Proof.
  intros Hc Hcs. induction i as [|i IH].
  - pose proof (boundary_after_first c cs 0 Hc Hcs) as Hb. rewrite Nat.add_0_r in *.
    destruct (encode_shape c Hc) as (lead & rest & He & _ & _). rewrite He in *. cbn [length boundary_below] in *. by rewrite Hb, Nat.add_0_r.
  - pose proof (boundary_after_first c cs (S i) Hc Hcs) as Hb. rewrite Nat.add_succ_r in *. cbn [boundary_below]. rewrite Hb, IH.
    by case_match; [rewrite Nat.add_succ_r |].
Qed.

(** A text is cut to as many whole characters as fit. *)
Lemma truncate_whole_chars cs (max_bytes : Z) :
  Forall scalar cs → 0 ≤ max_bytes →
  ∃ kept cut, cs = kept ++ cut ∧ truncate_utf8 (encoded cs) max_bytes = encoded kept
    ∧ zlength (encoded kept) ≤ max_bytes
    ∧ match cut with [] => True | c :: _ => max_bytes < zlength (encoded kept) + len_utf8 c end.
Proof.
  intros Hcs. revert max_bytes. induction Hcs as [|c cs Hc Hcs IH]; intros n Hn.
  { exists [], []. split; [done |]. split; [| by split]. unfold truncate_utf8.
    by rewrite (proj2 (Z.leb_le (zlength (encoded [])) n)). }
  pose proof (encode_utf8_length c) as Hlen. unfold zlength in Hlen.
  destruct (Z.le_gt_cases (len_utf8 c) n) as [Hfit | Hfit].
  - destruct (IH (n - len_utf8 c)) as (kept & cut & -> & Ht & Hle & Hcut); [lia |].
    exists (c :: kept), cut. split; [done |]. cbn [mbind list_bind]. rewrite zlength_app, encode_utf8_length.
    split; [| split; [lia | destruct cut; [done | lia]]].
    fold (encoded (kept ++ cut)). fold (encoded kept). rewrite <- Ht. unfold truncate_utf8. rewrite zlength_app, encode_utf8_length.
    replace (len_utf8 c + zlength (encoded (kept ++ cut)) <=? n) with (zlength (encoded (kept ++ cut)) <=? n - len_utf8 c)
      by (destruct (Z.leb_spec (zlength (encoded (kept ++ cut))) (n - len_utf8 c)); symmetry; apply Z.leb_le || apply Z.leb_gt; lia).
    destruct (zlength (encoded (kept ++ cut)) <=? n - len_utf8 c); [done |].
    change (encode_utf8 c ++ encoded (kept ++ cut)) with (encoded (c :: kept ++ cut)).
    replace (Z.to_nat n) with (length (encode_utf8 c) + Z.to_nat (n - len_utf8 c))%nat by lia.
    rewrite boundary_skips by done. cbn [mbind list_bind]. by rewrite take_app_add.
  - exists [], (c :: cs). split; [done |]. cbn [mbind list_bind]. change (zlength []) with 0. split; [| lia].
    fold (encoded cs). unfold truncate_utf8. rewrite zlength_app, encode_utf8_length.
    pose proof (zlength_nonneg (encoded cs)). rewrite (proj2 (Z.leb_gt _ _)) by lia.
    change (encode_utf8 c ++ encoded cs) with (encoded (c :: cs)). by rewrite boundary_in_first by (done || lia).
Qed.

Lemma truncate_length l n : 0 ≤ n → zlength (truncate_utf8 l n) ≤ n.
Proof.
  intros Hn. unfold truncate_utf8. destruct (Z.leb_spec (zlength l) n); [done |].
  assert (∀ i, (boundary_below l i <= i)%nat) as Hb by (induction i as [|i IH]; cbn; [done | case_match; lia]).
  unfold zlength. rewrite length_take. specialize (Hb (Z.to_nat n)). lia.
Qed.

(** ** The log stays small *)

(** Of any disk, stopped or not: [c] leads from [P] to [Q] or, with an error, to [E];
    the three read the directories and the files only. *)
Definition tree : Type := gset path → gmap path file → Prop.
Definition triple {A : Type} (P : tree) (c : io A) (Q : A → tree) (E : tree) : Prop :=
  ∀ d, P (d_dirs d) (d_files d) →
  match c d with
  | (Ok a, d') => Q a (d_dirs d') (d_files d')
  | (Err _, d') => E (d_dirs d') (d_files d')
  end.

Section triples.
Context {A B : Type}.
Implicit Types (P E : tree) (Q : A → tree).

Lemma triple_bind P (c : io A) (f : A → io B) Q (R : B → tree) E :
  triple P c Q E → (∀ a, triple (Q a) (f a) R E) → triple P (a ← c; f a) R E.
Proof.
  intros Hc Hf d Hd. specialize (Hc d Hd). unfold mbind, sr_bind. destruct (c d) as [[a | e] d']; [by apply Hf | done].
Qed.

Lemma triple_ret P (a : A) (Q : A → tree) E : (∀ D m, P D m → Q a D m) → triple P (mret a) Q E.
Proof. intros HQ d Hd. by apply HQ. Qed.

Lemma triple_atomic P (op : disk → result io_error A * disk) Q E :
  (∀ d, P (d_dirs d) (d_files d) → match op d with
     | (Ok a, d') => Q a (d_dirs d') (d_files d') ∧ E (d_dirs d') (d_files d')
     | (Err _, d') => E (d_dirs d') (d_files d') end) →
  (∀ D m, P D m → E D m) → triple P (io_atomic op) Q E.
Proof.
  intros Hop HE d Hd. unfold io_atomic. destruct (d_halted d); [by apply HE |].
  destruct (d_schedule d) as [|[| n | [|n]] rest]; try (by apply HE).
  - specialize (Hop d Hd). destruct (op d) as [[a | e] d']; [apply Hop | done].
  - specialize (Hop (with_schedule rest d) Hd). destruct (op _) as [[a | e] d']; [apply Hop | done].
  - specialize (Hop (with_schedule rest d) Hd). cbn. destruct (op _) as [[a | e] d']; [apply Hop | done].
Qed.
End triples.

Definition size (m : gmap path file) (p : path) : Z :=
  match m !! p with Some f => zlength (f_data f) | None => 0 end.

Lemma zlength_overwrite_end (l data : list Z) : overwrite l (Z.to_nat (zlength l)) data = l ++ data.
Proof.
  unfold overwrite, zlength. rewrite Nat2Z.id, Nat.sub_diag, app_nil_r, firstn_all, drop_ge by lia. by rewrite app_nil_r.
Qed.

Section log.
Context (p : path) (max_bytes : Z).
Implicit Types (D : gset path) (m : gmap path file).
Notation backup := (backup_path p).

(** The log and its backup are small; the directory is there. *)
Definition small D m : Prop :=
  size m p ≤ max_bytes ∧ size m backup ≤ max_bytes ∧ match parent backup with Some q => q ∈ D | None => False end.

Lemma backup_other : backup ≠ p.
Proof.
  intros Heq. unfold backup_path, file_name in Heq. destruct p as [|x q _] using rev_ind; [done |].
  rewrite length_app, Nat.add_sub, take_app_length, last_snoc in Heq. apply app_inj_tail in Heq as [_ Heq].
  cbn in Heq. induction x as [|a x IH]; [done | injection Heq as Heq; auto].
Qed.

(** There is room for [room] more bytes. *)
Definition fits (room : Z) D m : Prop := small D m ∧ size m p + room ≤ max_bytes.

Lemma parent_backup : parent backup = Some (take (length p - 1) p).
Proof. unfold backup_path. by rewrite parent_snoc. Qed.

Lemma size_insert_other m q q' f : q ≠ q' → size (<[q := f]> m) q' = size m q'.
Proof. intros Hq. unfold size. by rewrite lookup_insert_ne. Qed.
Lemma size_insert m q f : size (<[q := f]> m) q = zlength (f_data f).
Proof. unfold size. by rewrite lookup_insert_eq. Qed.
Lemma size_delete m q : size (delete q m) q = 0.
Proof. unfold size. by rewrite lookup_delete_eq. Qed.
Lemma size_delete_other m q q' : q ≠ q' → size (delete q m) q' = size m q'.
Proof. intros Hq. unfold size. by rewrite lookup_delete_ne. Qed.
Lemma size_nonneg m q : 0 ≤ size m q.
Proof. unfold size. case_match; [apply zlength_nonneg | lia]. Qed.
Lemma size_alter_other m (g : file → file) q q' : q ≠ q' → size (alter g q m) q' = size m q'.
Proof. intros Hq. unfold size. by rewrite lookup_alter_ne. Qed.

Lemma triple_append data room :
  0 ≤ room → zlength data ≤ room →
  triple (fits room) (append p data) (λ _, fits (room - zlength data)) small.
Proof.
  intros Hroom Hdata d [Hs Hsize]. unfold append, write_at, io_call.
  assert (∀ d0 (part : list Z), d_files d0 = d_files d → d_dirs d0 = d_dirs d → zlength part ≤ zlength data →
    let m := alter (set_data (λ l, overwrite l (Z.to_nat (size (d_files d) p)) part)) p (d_files d0) in
    small (d_dirs d0) m ∧ size m p ≤ size (d_files d) p + zlength part) as Hw.
  { intros d0 part Hf HD Hpart m. subst m. rewrite Hf, HD. destruct Hs as (Hs1 & Hs2 & Hs3).
    assert (size (alter (set_data (λ l, overwrite l (Z.to_nat (size (d_files d) p)) part)) p (d_files d)) p
      ≤ size (d_files d) p + zlength part) as Hle.
    { unfold size. rewrite lookup_alter_eq. destruct (d_files d !! p) as [f |]; cbn.
      - rewrite zlength_overwrite_end, zlength_app. lia.
      - apply zlength_nonneg. }
    split; [| done]. split; [lia |]. split; [| done].
    rewrite size_alter_other by (intros Heq; by apply backup_other). done. }
  assert (∀ n offset, zlength (torn n offset data) ≤ zlength data) as Htorn.
  { intros n offset. unfold torn, zlength. rewrite length_take. lia. }
  fold (size (d_files d) p).
  destruct (d_halted d); [done |]. destruct (d_schedule d) as [|[| n | n] rest]; cbn.
  - destruct (Hw d data) as [H1 H2]; [done.. |]. split; [done |]. cbn in *. lia.
  - destruct (Hw (with_schedule rest d) data) as [H1 H2]; [done.. |]. split; [done |]. cbn in *. lia.
  - apply (Hw (with_schedule rest d) (torn n (size (d_files d) p) data)); done.
  - apply (Hw (with_schedule rest d) (torn n (size (d_files d) p) data)); done.
Qed.

Lemma triple_open_or_create room :
  room ≤ max_bytes → triple (fits room) (open_or_create p) (λ _, fits room) small.
Proof.
  intros Hroom. apply triple_atomic; [| by intros D m [? _]]. intros d [Hs Hfit].
  destruct (is_file p d); [by split; [split |] |].
  destruct (is_dir p d); [done |]. destruct (negb _); [done |]. cbn.
  assert (fits room (d_dirs d) (<[p := mkFile [] []]> (d_files d))) as Hnew; [| by split; [| apply Hnew]].
  destruct Hs as (H1 & H2 & H3). pose proof (size_nonneg (d_files d) p). unfold fits, small.
  rewrite size_insert, size_insert_other by (intros Heq; by apply backup_other). unfold zlength. cbn. auto with lia.
Qed.

Lemma triple_open_truncated : triple small (open_truncated p) (λ _ D m, small D m ∧ size m p = 0) small.
Proof.
  apply triple_atomic; [| done]. intros d Hs. destruct (is_dir p d); [done |]. destruct (negb _); [done |]. cbn.
  assert (∀ f, f_data f = [] → small (d_dirs d) (<[p := f]> (d_files d)) ∧ size (<[p := f]> (d_files d)) p = 0) as Hnew.
  { intros f Hf. destruct Hs as (H1 & H2 & H3). unfold small. rewrite size_insert, Hf. change (zlength []) with 0.
    rewrite size_insert_other by (intros Heq; by apply backup_other). pose proof (size_nonneg (d_files d) p). auto with lia. }
  case_match; by (split; [apply Hnew | apply Hnew]).
Qed.

Lemma triple_remove_backup : triple small (remove_if_exists backup) (λ _, small) small.
Proof.
  intros d Hs. unfold remove_if_exists.
  assert (triple small (remove_file backup) (λ _, small) small) as Hr.
  { apply triple_atomic; [| done]. intros d0 (H1 & H2 & H3). destruct (is_file backup d0); [| done]. cbn.
    assert (small (d_dirs d0) (delete backup (d_files d0))); [| done].
    split; [by rewrite size_delete_other by apply backup_other |]. split; [| done].
    rewrite size_delete. pose proof (size_nonneg (d_files d0) backup). lia. }
  specialize (Hr d Hs). destruct (remove_file backup d) as [[[] | []] d']; done.
Qed.

Lemma triple_rename : triple small (rename p backup) (λ _ D m, small D m ∧ size m p = 0) small.
Proof.
  apply triple_atomic; [| done]. intros d (H1 & H2 & H3). destruct (d_files d !! p) as [f |] eqn:Hf; [| done].
  destruct (is_dir backup d); [done |]. destruct (negb _); [done |]. cbn.
  assert (small (d_dirs d) (<[backup := f]> (delete p (d_files d)))
    ∧ size (<[backup := f]> (delete p (d_files d))) p = 0) as Hmoved; [| naive_solver].
  unfold small. rewrite size_insert, size_insert_other, size_delete by apply backup_other.
  unfold size in H1. rewrite Hf in H1. pose proof (zlength_nonneg (f_data f)). auto with lia.
Qed.

(** Only a log that is not there is not found. *)
Lemma rename_not_found d d' :
  small (d_dirs d) (d_files d) → rename p backup d = (Err NotFound, d') → size (d_files d') p = 0.
Proof.
  intros (_ & _ & H3). assert (∀ d0, d_files d0 = d_files d → d_dirs d0 = d_dirs d →
    match d_files d0 !! p with
    | Some f =>
      if is_dir backup d0 then (Err IoOther, d0)
      else if negb (match parent backup with Some q => is_dir q d0 | None => false end) then (Err NotFound, d0)
      else (Ok tt, with_files (λ m, <[backup := f]> (delete p m)) d0)
    | None => (Err NotFound, d0)
    end = (Err NotFound, d') → size (d_files d') p = 0) as Hop.
  { intros d0 Hf HD. destruct (d_files d0 !! p) eqn:Hp.
    - destruct (is_dir backup d0); [done |]. rewrite parent_backup in *. unfold is_dir. rewrite HD, bool_decide_true by done. done.
    - intros [= <-]. unfold size. by rewrite Hp. }
  unfold rename, move_replace, io_atomic. destruct (d_halted d); [done |].
  destruct (d_schedule d) as [|[| n | [|n]] rest]; try done; by apply Hop.
Qed.

Lemma triple_rotate : triple small (rotate p) (λ _ D m, small D m ∧ size m p = 0) small.
Proof.
  eapply triple_bind; [apply triple_remove_backup |]. intros _ d Hs.
  pose proof (triple_rename d Hs) as Hd. pose proof (λ d', rename_not_found d d' Hs) as Hnone.
  destruct (rename p backup d) as [[[] | e] d']; [done |].
  destruct e; try (by apply triple_open_truncated). split; [done | by apply Hnone].
Qed.

Lemma triple_room line (current : option Z) :
  0 ≤ zlength line < max_bytes → max_bytes < 2 ^ 64 - 1 →
  triple (λ D m, small D m ∧ default 0 current = size m p)
    (_ ← (if max_bytes <? Z.min (default 0 current + (zlength line + 1)) (2 ^ 64 - 1) then rotate p else mret tt : io unit);
     _ ← open_or_create p; _ ← append p line; append p [10]) (λ _, small) small.
Proof.
  intros Hline Hmax. eapply (triple_bind _ _ _ (λ _, fits (zlength line + 1))).
  - destruct (Z.ltb_spec max_bytes (Z.min (default 0 current + (zlength line + 1)) (2 ^ 64 - 1))) as [Hfull | Hfree].
    + intros d [Hs _]. pose proof (triple_rotate d Hs) as Hd.
      destruct (rotate p d) as [[a | e] d']; [| done]. destruct Hd as [Hsd Hz]. split; [done | lia].
    + apply triple_ret. intros D m [Hs Hsize]. split; [done | lia].
  - intros u. eapply triple_bind; [apply triple_open_or_create; lia |]. intros u1.
    eapply triple_bind; [apply triple_append; lia |]. intros u2. cbv beta.
    replace (zlength line + 1 - zlength line) with 1 by lia. intros d Hd.
    pose proof (triple_append [10] 1 ltac:(lia) ltac:(done) d Hd) as Ha.
    destruct (append p [10] d) as [[a | e] d']; [by destruct Ha | done].
Qed.

Lemma file_len_known d :
  (∀ n, head (d_schedule d) ≠ Some (Fails n)) →
  match attempt (file_len p) d with
  | (Ok current, d') => d_dirs d' = d_dirs d ∧ d_files d' = d_files d ∧ default 0 current = size (d_files d) p
  | (Err _, d') => d_dirs d' = d_dirs d ∧ d_files d' = d_files d
  end.
Proof.
  intros Hfails. unfold attempt, file_len, io_read, io_call, size.
  destruct (d_halted d) eqn:Hh; [by rewrite Hh |].
  destruct (d_schedule d) as [|[| n | n] rest]; [| | by destruct (Hfails n) | done].
  - destruct (d_files d !! p); [done |]. by rewrite Hh.
  - cbn. destruct (d_files d !! p); [done |]. cbn. by rewrite Hh.
Qed.

Lemma after_length (f : option Z → io unit) d :
  small (d_dirs d) (d_files d) → (∀ n, head (d_schedule d) ≠ Some (Fails n)) →
  (∀ current, triple (λ D m, small D m ∧ default 0 current = size m p) (f current) (λ _, small) small) →
  let d' := ((current ← attempt (file_len p); f current) d).2 in small (d_dirs d') (d_files d').
Proof.
  intros Hs Hfails Hf. pose proof (file_len_known d Hfails) as Hlen. unfold mbind, sr_bind.
  destruct (attempt (file_len p) d) as [[current | e] d']; cbn zeta; [| destruct Hlen as [HD Hm]; cbn; by rewrite HD, Hm].
  destruct Hlen as (HD & Hm & Hcur). specialize (Hf current d'). rewrite HD, Hm in Hf.
  specialize (Hf (conj Hs Hcur)). by destruct (f current d') as [[a | e] d''].
Qed.
End log.

(** Whatever fails or is cut off by a stop while a line is logged, neither
    the log nor its backup grows beyond the limit. Only the call that asks for the
    length of the log has to be answered: when it fails, the length is taken for 0. *)
Theorem log_stays_small p line max_bytes d :
  0 < max_bytes < 2 ^ 64 - 1 →
  size (d_files d) p ≤ max_bytes → size (d_files d) (backup_path p) ≤ max_bytes →
  (∃ directory, parent (backup_path p) = Some directory ∧ directory ∈ d_dirs d) →
  (∀ n, head (d_schedule d) ≠ Some (Fails n)) →
  let d' := (append_bounded p line max_bytes d).2 in
  size (d_files d') p ≤ max_bytes ∧ size (d_files d') (backup_path p) ≤ max_bytes.
Proof.
  intros Hmax H1 H2 (directory & H3 & H4) Hfails. cbn zeta. unfold append_bounded. rewrite (proj2 (Z.eqb_neq _ _)) by lia.
  assert (small p max_bytes (d_dirs d) (d_files d)) as Hs by (split; [done | split; [done | by rewrite H3]]).
  pose proof (truncate_length line (max_bytes - 1) ltac:(lia)). pose proof (zlength_nonneg (truncate_utf8 line (max_bytes - 1))).
  pose proof (after_length p max_bytes _ d Hs Hfails (λ current,
    triple_room p max_bytes (truncate_utf8 line (max_bytes - 1)) current ltac:(lia) ltac:(lia))) as (Hlog & Hbackup & _).
  by split.
Qed.

(** What a log holds. *)
Definition contents (m : gmap path file) (p : path) : list Z :=
  match m !! p with Some f => f_data f | None => [] end.

Section logging.
Context (p : path) (d : disk).
Context (Hquiet : d_schedule d = [] ∧ d_halted d = false).
Context (Hdir : ∃ directory, parent p = Some directory ∧ directory ∈ d_dirs d).
Context (Hfile : p ∉ d_dirs d) (Hbackup : backup_path p ∉ d_dirs d).

Lemma parent_same : parent (backup_path p) = parent p.
Proof. unfold backup_path. rewrite parent_snoc. destruct Hdir as (directory & Hp & _). unfold parent in *. by destruct p. Qed.

Lemma atomic_quiet {A} (op : disk → result io_error A * disk) d0 : d_schedule d0 = [] → d_halted d0 = false → io_atomic op d0 = op d0.
Proof. intros Hs Hh. unfold io_atomic. by rewrite Hh, Hs. Qed.

Lemma open_append m line1 line2 :
  ∃ d', (_ ← open_or_create p; _ ← append p line1; append p line2) (with_files (λ _, m) d) = (Ok tt, d') ∧
    contents (d_files d') p = contents m p ++ line1 ++ line2 ∧ (∀ q, q ≠ p → d_files d' !! q = m !! q).
Proof.
  destruct Hquiet as [Hs Hh]. destruct Hdir as (directory & Hp & Hin).
  assert (∃ f, open_or_create p (with_files (λ _, m) d) = (Ok tt, with_files (λ _, <[p := f]> m) d) ∧ f_data f = contents m p)
    as (f & Hopen & Hf).
  { unfold open_or_create. rewrite atomic_quiet by done. unfold is_file, is_dir, contents. cbn. rewrite Hp.
    destruct (m !! p) as [f |] eqn:Hm.
    - exists f. rewrite bool_decide_true by done. by rewrite insert_id.
    - exists (mkFile [] []). by rewrite (bool_decide_false (is_Some _)), (bool_decide_false (p ∈ _)), (bool_decide_true (_ ∈ _)) by (done || by intros []). }
  unfold mbind, sr_bind. rewrite Hopen. unfold append, write_at, io_call. cbn. rewrite Hh, Hs. cbn. rewrite Hh, Hs.
  rewrite !lookup_insert_eq, lookup_alter_eq, lookup_insert_eq. cbn.
  eexists. split; [done |]. cbn. split.
  - unfold contents at 1. rewrite !lookup_alter_eq, lookup_insert_eq. cbn. by rewrite !zlength_overwrite_end, Hf, app_assoc.
  - intros q Hq. by rewrite !lookup_alter_ne, lookup_insert_ne.
Qed.

Lemma rotate_quiet :
  rotate p d = (Ok tt, with_files (λ m, match m !! p with
                                        | Some f => <[backup_path p := f]> (delete p (delete (backup_path p) m))
                                        | None => delete (backup_path p) m end) d).
Proof.
  destruct Hquiet as [Hs Hh]. destruct Hdir as (directory & Hp & Hin). pose proof (backup_other p) as Hne.
  assert (remove_if_exists (backup_path p) d = (Ok tt, with_files (delete (backup_path p)) d)) as Hrm.
  { unfold remove_if_exists, remove_file. rewrite atomic_quiet by done. unfold is_file. case_bool_decide as Hb; [done |].
    unfold with_files. rewrite delete_id by (by apply eq_None_not_Some). by destruct d. }
  unfold rotate, mbind, sr_bind. rewrite Hrm. unfold rename, move_replace. rewrite atomic_quiet by done. cbn.
  rewrite lookup_delete_ne by done. unfold is_dir, with_files. cbn.
  destruct (d_files d !! p) as [f |]; [| done]. cbn. by rewrite parent_same, Hp, (bool_decide_false (_ ∈ _)), (bool_decide_true (_ ∈ _)).
Qed.
End logging.

(** A line is appended to the log as the whole characters of it that
    fit, with an end of line; when it would not fit the log becomes the backup and the
    line begins a new log. *)
Theorem line_is_logged p cs max_bytes d :
  d_schedule d = [] ∧ d_halted d = false →
  (∃ directory, parent p = Some directory ∧ directory ∈ d_dirs d) →
  p ∉ d_dirs d → backup_path p ∉ d_dirs d →
  Forall scalar cs → 0 < max_bytes → zlength (contents (d_files d) p) + max_bytes < 2 ^ 64 →
  ∃ kept cut d', cs = kept ++ cut ∧ append_bounded p (encoded cs) max_bytes d = (Ok tt, d') ∧
    match cut with [] => True | c :: _ => max_bytes - 1 < zlength (encoded kept) + len_utf8 c end ∧
    let old := contents (d_files d) p in
    if zlength old + zlength (encoded kept) + 1 <=? max_bytes
    then contents (d_files d') p = old ++ encoded kept ++ [10]
    else contents (d_files d') p = encoded kept ++ [10] ∧ (d_files d !! p ≠ None → contents (d_files d') (backup_path p) = old).
Proof.
  intros Hq Hdir Hp Hb Hcs Hmax Hbig.
  destruct (truncate_whole_chars cs (max_bytes - 1) Hcs ltac:(lia)) as (kept & cut & Hsplit & Ht & Hle & Hcut).
  exists kept, cut. cbn zeta. unfold append_bounded. rewrite (proj2 (Z.eqb_neq _ _)), Ht by lia. cbn zeta.
  assert (attempt (file_len p) d = (Ok (zlength <$> (f_data <$> d_files d !! p)), d)) as Hlen.
  { destruct Hq as [Hs Hh]. unfold attempt, file_len, io_read, io_call. rewrite Hh, Hs. by destruct (d_files d !! p); rewrite ?Hh. }
  assert (default 0 (zlength <$> (f_data <$> d_files d !! p)) = zlength (contents (d_files d) p)) as Hcur
    by (unfold contents; by destruct (d_files d !! p)).
  assert (∀ f : option Z → io unit, (current ← attempt (file_len p); f current) d = f (zlength <$> (f_data <$> d_files d !! p)) d) as ->
    by (intros f; unfold mbind, sr_bind; by rewrite Hlen).
  rewrite Hcur. pose proof (zlength_nonneg (encoded kept)). pose proof (zlength_nonneg (contents (d_files d) p)).
  rewrite Z.min_l by lia.
  destruct (Z.leb_spec (zlength (contents (d_files d) p) + zlength (encoded kept) + 1) max_bytes).
  - rewrite (proj2 (Z.ltb_ge _ _)) by lia.
    destruct (open_append p d Hq Hdir Hp (d_files d) (encoded kept) [10]) as (d' & Hrun & Hnew & _).
    exists d'. split; [done |]. split; [| by split]. by replace (with_files (λ _, d_files d) d) with d in Hrun by (by destruct d).
  - rewrite (proj2 (Z.ltb_lt _ _)) by lia.
    destruct (open_append p d Hq Hdir Hp (match d_files d !! p with
      | Some f => <[backup_path p := f]> (delete p (delete (backup_path p) (d_files d)))
      | None => delete (backup_path p) (d_files d) end) (encoded kept) [10]) as (d' & Hrun & Hnew & Hother).
    exists d'. split; [done |]. split; [| split; [done |]].
    + assert (∀ g : io unit, (_ ← rotate p; g) d = g (with_files (λ m, match m !! p with
         | Some f => <[backup_path p := f]> (delete p (delete (backup_path p) m))
         | None => delete (backup_path p) m end) d)) as -> by (intros g; unfold mbind, sr_bind; by rewrite rotate_quiet).
      exact Hrun.
    + pose proof (backup_other p) as Hne. split.
      * rewrite Hnew. unfold contents. destruct (d_files d !! p) eqn:Hf.
        -- by rewrite lookup_insert_ne, lookup_delete_eq by done.
        -- by rewrite lookup_delete_ne, Hf by done.
      * intros Hsome. unfold contents. rewrite (Hother (backup_path p)) by done.
        destruct (d_files d !! p); [| done]. by rewrite lookup_insert_eq.
Qed.

(** ** On a sample *)

Definition sample_log : path := ["C:"; "app.log"].
Definition log_disk (l : list Z) (schedule : list outcome) : disk :=
  mkDisk {[ ["C:"] ]} ∅ {[ sample_log := mkFile l [] ]} 0 schedule false.

Lemma log_stays_small_witness :
  let d := log_disk [49; 50; 51; 52; 53; 54; 10] [Fine; Fine; Fine; Crash 1] in
  let d' := (append_bounded sample_log [97; 98; 99] 8 d).2 in
  size (d_files d') sample_log ≤ 8 ∧ size (d_files d') (backup_path sample_log) ≤ 8.
Proof.
  cbn zeta. apply (log_stays_small sample_log [97; 98; 99] 8).
  - lia.
  - vm_compute. discriminate.
  - vm_compute. discriminate.
  - exists ["C:"]. split; [reflexivity |]. cbn [log_disk d_dirs]. by apply elem_of_singleton.
  - intros n. discriminate.
Defined.

Lemma line_is_logged_witness :
  ∃ kept cut d', [20013; 25991] = kept ++ cut ∧
    append_bounded sample_log (encoded [20013; 25991]) 8 (log_disk [49; 50; 51; 52; 53; 54; 10] []) = (Ok tt, d') ∧
    contents (d_files d') sample_log = encoded kept ++ [10].
Proof.
  destruct (line_is_logged sample_log [20013; 25991] 8 (log_disk [49; 50; 51; 52; 53; 54; 10] []))
    as (kept & cut & d' & Hsplit & Hrun & Hcut & Hnew).
  - split; reflexivity.
  - exists ["C:"]. split; [reflexivity |]. cbn [log_disk d_dirs]. by apply elem_of_singleton.
  - cbn [log_disk d_dirs]. apply not_elem_of_singleton. discriminate.
  - cbn [log_disk d_dirs]. apply not_elem_of_singleton. discriminate.
  - apply (bool_decide_unpack _). vm_compute. exact I.
  - lia.
  - vm_compute. reflexivity.
  - exists kept, cut, d'. split; [exact Hsplit |]. split; [exact Hrun |].
    change (contents (d_files (log_disk [49; 50; 51; 52; 53; 54; 10] [])) sample_log) with [49; 50; 51; 52; 53; 54; 10] in Hnew.
    cbn zeta in Hnew. destruct kept as [|c kept]; cbn in Hsplit.
    + subst cut. unfold mbind, list_bind, zlength, len_utf8 in Hcut. cbn in Hcut. exfalso. clear - Hcut. lia.
    + case_match eqn:E; [| exact (proj1 Hnew)]. exfalso. apply Z.leb_le in E. unfold zlength in E. cbn in E.
      rewrite length_app in E. injection Hsplit as <- _. cbn in E. lia.
Defined.

(** When the call that asks for the length fails, the line is written whatever the
    length is. *)
Theorem unanswered_length_overflows :
  size (d_files (append_bounded sample_log [97; 98; 99] 8 (log_disk [49; 50; 51; 52; 53; 54; 10] [Fails 0])).2) sample_log = 11.
Proof. vm_compute. reflexivity. Qed.

(** ** The text diff *)

Section diff.
(** [UnicodeSegmentation::graphemes]: the text cut into graphemes. *)
Context (graphemes : string → list string).
Definition concat_strings (l : list string) : string := foldr String.append EmptyString l.
Hypothesis graphemes_concat : ∀ s, concat_strings (graphemes s) = s.

(** [core/diff.rs Transition] *)
Record Transition := mkTransition { backspaces : Z; insert : string }.

Fixpoint common_prefix (l k : list string) : nat :=
  match l, k with x :: l, y :: k => if bool_decide (x = y) then S (common_prefix l k) else O | _, _ => O end.

(** [core/diff.rs plan_transition] *)
Definition plan_transition (previous current : string) : Transition :=
  let prefix := common_prefix (graphemes previous) (graphemes current) in
  mkTransition (zlength (graphemes previous) - Z.of_nat prefix) (concat_strings (drop prefix (graphemes current))).

Lemma common_prefix_take l k : take (common_prefix l k) l = take (common_prefix l k) k.
Proof.
  revert k. induction l as [|x l IH]; intros [|y k]; [done.. |]. cbn. case_bool_decide; [| done]. cbn. by subst; rewrite IH.
Qed.
Lemma common_prefix_length l k : (common_prefix l k <= length l)%nat.
Proof. revert k. induction l as [|x l IH]; intros [|y k]; cbn; [lia.. |]. case_bool_decide; [specialize (IH k) |]; lia. Qed.
Lemma concat_strings_app l k : concat_strings (l ++ k) = concat_strings l +:+ concat_strings k.
Proof.
  assert (∀ a b c : string, a +:+ (b +:+ c) = (a +:+ b) +:+ c) as Hassoc 
    by (induction a as [|x a IH]; intros b c; [done | exact (f_equal (String x) (IH b c))]).
  unfold concat_strings. induction l as [|s l IH]; [done |]. cbn [app foldr]. by rewrite IH, Hassoc.
Qed.

(** Taking back that many graphemes and typing the rest gives the new text; nothing that
    could be kept is taken back. *)
Theorem transition_gives_current previous current :
  let t := plan_transition previous current in
  0 ≤ backspaces t ≤ zlength (graphemes previous) ∧
  concat_strings (take (length (graphemes previous) - Z.to_nat (backspaces t)) (graphemes previous)) +:+ insert t = current.
Proof.
  cbn zeta. unfold plan_transition. cbn [backspaces insert].
  pose proof (common_prefix_length (graphemes previous) (graphemes current)) as Hlen. unfold zlength.
  split; [lia |]. replace (length (graphemes previous) - _)%nat with (common_prefix (graphemes previous) (graphemes current)) by lia.
  by rewrite common_prefix_take, <- concat_strings_app, take_drop, graphemes_concat.
Qed.
End diff.
