(* ===== verification/Store.v ===== *)
(** * The file transfer store

    [flowtype-app/src/file_transfer_store.rs]: a directory per batch, with the
    record of the batch, the manifest of its entries (one JSON line each, an
    index of line offsets, and a completion record written last), the targets on
    Windows, the sources of a transfer to the phone, and one progress record of
    sixteen bytes per entry. The JSON codec (serde_json) and SHA-256 (sha2) are
    parameters; their laws are the class [Json] and [sha256_ok]. *)

From S2P Require Import Prelude Text Protocol FileNames FileCore Disk.
Local Open Scope string_scope.
Local Open Scope list_scope.
Local Open Scope Z_scope.

Definition STORE_VERSION : Z := 1.
Definition BATCH_FILE : string := "batch.json".
Definition MANIFEST_FILE : string := "manifest.ndjson".
Definition MANIFEST_INDEX_FILE : string := "manifest-index-v1.bin".
Definition MANIFEST_COMPLETE_FILE : string := "manifest-complete.json".
Definition TARGETS_FILE : string := "targets.ndjson".
Definition TARGETS_INDEX_FILE : string := "targets-index-v1.bin".
Definition SOURCES_FILE : string := "sources.ndjson".
Definition SOURCES_INDEX_FILE : string := "sources-index-v1.bin".
Definition PROGRESS_FILE : string := "progress-v1.bin".
Definition PROGRESS_RECORD_BYTES : Z := 16.
(** [app/file_transfer_store.rs:14-25 STORE_VERSION] *)
Definition PROGRESS_RECORD_VERSION : Z := 1.

(** ** Data *)

(** [app/file_transfer_store.rs BatchRecord] *)
Record BatchRecord := mkBatchRecord {
  br_store_version : Z;
  br_batch_id : string;
  br_phone_id : string;
  br_direction : TransferDirection;
  br_state : BatchState;
  br_created_at_epoch_seconds : Z;
  br_updated_at_epoch_seconds : Z;
  br_file_count : Z;
  br_directory_count : Z;
  br_total_bytes : Z;
  br_target_root : option string;
}.

(** [app/file_transfer_store.rs EntryProgress] *)
Record EntryProgress := mkEntryProgress { ep_state : EntryState; ep_committed_offset : Z }.

(** [app/file_transfer_store.rs ProgressSummary] *)
Record ProgressSummary := mkProgressSummary {
  ps_completed_bytes : Z; ps_completed_entries : Z; ps_failed_entries : Z;
}.

(** [app/file_transfer_store.rs ManifestComplete] *)
Record ManifestComplete := mkManifestComplete {
  mc_store_version : Z; mc_entry_count : Z; mc_sha256 : string;
}.

(** [app/file_transfer_store.rs TargetRecord] *)
Record TargetRecord := mkTargetRecord { tr_ordinal : Z; tr_relative_path : string }.

(** [app/file_transfer_store.rs SourceRecord] *)
Record SourceRecord := mkSourceRecord { sr_ordinal : Z; sr_path : string }.

(** [serde_json::to_vec] and [from_slice] for a type: what was written reads
    back, and a line holds no line feed (strings escape it). *)
Class Json (A : Type) := {
  to_vec : A → option (list Z);
  from_slice : list Z → option A;
  from_slice_to_vec a l : to_vec a = Some l → from_slice l = Some a;
  to_vec_no_newline a l : to_vec a = Some l → 10 ∉ l;
}.

Definition invalid_data {A} (message : string) : io A := sr_fail (InvalidData message).
Definition json_error : io_error := InvalidData "json".
Definition to_json {A} `{Json A} (a : A) : io (list Z) := sr_lift (ok_or (to_vec a) json_error).
Definition of_json {A} `{Json A} (l : list Z) : io A := sr_lift (ok_or (from_slice l) json_error).
Definition check (b : bool) (message : string) : io unit :=
  if b then invalid_data message else mret tt.
Definition checked (o : option Z) (message : string) : io Z :=
  sr_lift (ok_or o (InvalidData message)).
Definition io_err {E A} (r : result E A) (message : string) : io A :=
  sr_lift (match r with Ok a => Ok a | Err _ => Err (InvalidData message) end).

(** [app/file_transfer_store.rs BatchRecord::validate] *)
Definition BatchRecord_validate (self : BatchRecord) : io unit :=
  check (negb (br_store_version self =? STORE_VERSION)
     || negb (valid_identifier (br_batch_id self) MAX_BATCH_ID_BYTES)
     || str_is_empty (br_phone_id self)
     || (MAX_PHONE_ID_BYTES <? str_len (br_phone_id self))
     || negb (forallb (λ byte, is_ascii_alphanumeric byte || ((byte =? 45) || (byte =? 95)))
                (bytes_of (br_phone_id self)))
     || ((br_file_count self =? 0) && (br_directory_count self =? 0))
     || (MAX_WIRE_INTEGER <? br_file_count self)
     || (MAX_WIRE_INTEGER <? br_directory_count self)
     || (MAX_WIRE_INTEGER <? br_total_bytes self)
     || (br_updated_at_epoch_seconds self <? br_created_at_epoch_seconds self)
     || match br_target_root self with
        | Some root => str_is_empty root || (32 * 1024 <? str_len root)
                       || existsb is_control (chars root)
        | None => false
        end)
    "invalid file transfer batch record".

(** [app/file_transfer_store.rs BatchRecord::new] *)
Definition BatchRecord_new (batch_id phone_id : string) (direction : TransferDirection)
    (now_epoch_seconds file_count directory_count total_bytes : Z) : io BatchRecord :=
  let value := mkBatchRecord STORE_VERSION batch_id phone_id direction
    match direction with PhoneToComputer => Queued | ComputerToPhone => WaitingConfirmation end
    now_epoch_seconds now_epoch_seconds file_count directory_count total_bytes None in
  _ ← BatchRecord_validate value;
  mret value.

Definition with_state (state : BatchState) (now : Z) (b : BatchRecord) : BatchRecord :=
  mkBatchRecord (br_store_version b) (br_batch_id b) (br_phone_id b) (br_direction b) state
    (br_created_at_epoch_seconds b) (Z.max now (br_updated_at_epoch_seconds b))
    (br_file_count b) (br_directory_count b) (br_total_bytes b) (br_target_root b).
Definition with_target_root (root : string) (now : Z) (b : BatchRecord) : BatchRecord :=
  mkBatchRecord (br_store_version b) (br_batch_id b) (br_phone_id b) (br_direction b) (br_state b)
    (br_created_at_epoch_seconds b) (Z.max now (br_updated_at_epoch_seconds b))
    (br_file_count b) (br_directory_count b) (br_total_bytes b) (Some root).

(** ** Progress records *)

(** [app/file_transfer_store.rs encode_progress] *)
Definition encode_progress (progress : EntryProgress) : list Z :=
  [PROGRESS_RECORD_VERSION; EntryState_as_u8 (ep_state progress)]
  ++ replicate 6 0 ++ to_le_bytes 8 (ep_committed_offset progress).

(** [app/file_transfer_store.rs decode_progress] [record] has sixteen bytes. *)
Definition decode_progress (record : list Z) : result io_error EntryProgress :=
  if forallb (λ value, value =? 0) record then Ok (mkEntryProgress EPending 0)
  else if negb (default 0 (record !! 0%nat) =? PROGRESS_RECORD_VERSION)
          || existsb (λ value, negb (value =? 0)) (take 6 (drop 2 record))
  then Err (InvalidData "invalid progress record")
  else
    match EntryState_try_from (default 0 (record !! 1%nat)) with
    | Err _ => Err (InvalidData "invalid progress state")
    | Ok state => Ok (mkEntryProgress state (from_le_bytes (take 8 (drop 8 record))))
    end.

(** A record read at [offset]: sixteen bytes, or none at the end of the file. *)
Definition read_record (data : list Z) (offset : Z) : result io_error (option (list Z)) :=
  let read := take 16 (drop (Z.to_nat offset) data) in
  if zlength read =? 0 then Ok None
  else if zlength read =? PROGRESS_RECORD_BYTES then Ok (Some read)
  else Err (InvalidData "incomplete progress record").

(** ** Lines *)

(** [BufRead::read_until(b'\n')]: the line with its line feed, if it has one. *)
Fixpoint read_until_newline (l : list Z) : list Z :=
  match l with
  | [] => []
  | b :: l => if b =? 10 then [b] else b :: read_until_newline l
  end.

(** The lines [read_until] gives until it reads nothing. *)
Fixpoint split_lines (l : list Z) : list (list Z) :=
  match l with
  | [] => []
  | b :: l =>
    if b =? 10 then [b] :: split_lines l
    else match split_lines l with
         | [] => [[b]]
         | line :: lines => (b :: line) :: lines
         end
  end.

(** [line.pop() == Some(b'\n')]: the line without its line feed. *)
Definition strip_newline (line : list Z) : option (list Z) :=
  match reverse line with 10 :: rest => Some (reverse rest) | _ => None end.

(** ** Windows paths *)

(** The components as the system writes them. *)
Definition path_to_string (p : path) : string := of_bytes (join_with 92 (bytes_of <$> p)).
Definition path_of_string (s : string) : path :=
  of_bytes <$> split_on 92 ((λ b, if b =? 47 then 92 else b) <$> bytes_of s).

(** A component that starts with a drive letter. *)
Definition has_drive (segment : string) : bool :=
  match bytes_of segment with
  | letter :: 58 :: _ => is_ascii_lowercase letter || is_ascii_uppercase letter
  | _ => false
  end.
(** [Path::is_absolute]: a drive and a root, or a UNC path. *)
Definition is_absolute (p : path) : bool :=
  match p with
  | drive :: _ :: _ => (has_drive drive && (str_len drive =? 2))
                       || match p with "" :: "" :: _ => true | _ => false end
  | _ => false
  end.
(** [Path::join] with one component: a drive starts over. *)
Definition join_segment (p : path) (segment : string) : path :=
  if has_drive segment then [segment] else p ++ [segment].

(** [app/file_transfer_store.rs path_to_wire] *)
Definition path_to_wire (p : path) : string := of_bytes (join_with 47 (bytes_of <$> p)).
Definition wire_segments (wire : string) : list string := of_bytes <$> split_on 47 (bytes_of wire).

(** ** BufWriter *)

Record BufWriter := mkBufWriter {
  bw_path : path; bw_capacity : Z; bw_buffer : list Z; bw_position : Z;
}.

Definition BufWriter_new (p : path) (capacity : Z) : BufWriter := mkBufWriter p capacity [] 0.

(** [BufWriter::flush]: the buffer goes to the file, at the handle's cursor. *)
Definition bw_flush (self : BufWriter) : io BufWriter :=
  match bw_buffer self with
  | [] => mret self
  | buffer =>
    _ ← write_at (bw_path self) (bw_position self) buffer;
    mret (mkBufWriter (bw_path self) (bw_capacity self) [] (bw_position self + zlength buffer))
  end.

(** [BufWriter::write_all]: into the buffer while it has room. *)
Definition bw_write_all (self : BufWriter) (data : list Z) : io BufWriter :=
  let spare := bw_capacity self - zlength (bw_buffer self) in
  if zlength data <? spare
  then mret (mkBufWriter (bw_path self) (bw_capacity self) (bw_buffer self ++ data) (bw_position self))
  else
    self ← (if spare <? zlength data then bw_flush self else mret self);
    if bw_capacity self <=? zlength data
    then
      _ ← write_at (bw_path self) (bw_position self) data;
      mret (mkBufWriter (bw_path self) (bw_capacity self) (bw_buffer self)
              (bw_position self + zlength data))
    else mret (mkBufWriter (bw_path self) (bw_capacity self) (bw_buffer self ++ data) (bw_position self)).

(** [flush()?; get_ref().sync_all()?]. *)
Definition flush_and_sync (self : BufWriter) : io unit :=
  self ← bw_flush self;
  sync (bw_path self).

(** ** Small helpers of the store *)

(** [app/file_transfer_store.rs initialize_progress] *)
Definition initialize_progress (directory : path) (entry_count : Z) : io unit :=
  _ ← checked (checked_mul64 entry_count PROGRESS_RECORD_BYTES) "progress file size overflow";
  let p := directory ++ [PROGRESS_FILE] in
  _ ← create_new p;
  sync p.

(** [app/file_transfer_store.rs read_indexed_json_line] *)
Definition read_indexed_json_line {T} `{Json T} (data_path index_path : path) (ordinal : Z) : io T :=
  index ← read index_path;
  offset ← checked (checked_mul64 ordinal 8) "index offset overflow";
  let encoded_offset := take 8 (drop (Z.to_nat offset) index) in
  _ ← (if zlength encoded_offset =? 8 then mret tt else sr_fail UnexpectedEof);
  data ← read data_path;
  let line := read_until_newline (drop (Z.to_nat (from_le_bytes encoded_offset)) data) in
  match strip_newline line with
  | None => invalid_data "incomplete indexed record"
  | Some line => of_json line
  end.


(** ** Writers *)

(** [app/file_transfer_store.rs ManifestWriter] [mw_hasher] is what was hashed so
    far; [committed] is the success of [ManifestWriter_finish]. *)
Record ManifestWriter := mkManifestWriter {
  mw_directory : path;
  mw_file : BufWriter;
  mw_index : BufWriter;
  mw_next_ordinal : Z;
  mw_expected_entry_count : Z;
  mw_expected_files : Z;
  mw_expected_directories : Z;
  mw_expected_bytes : Z;
  mw_files : Z;
  mw_directories : Z;
  mw_bytes : Z;
  mw_entry_ids : gset string;
  mw_next_offset : Z;
  mw_hasher : list Z;
}.

(** [app/file_transfer_store.rs SourceWriter] *)
Record SourceWriter := mkSourceWriter {
  sw_data : BufWriter;
  sw_index : BufWriter;
  sw_next_ordinal : Z;
  sw_next_offset : Z;
  sw_expected_entry_count : Z;
}.

(** What the store gets from elsewhere: the JSON codecs of its records, SHA-256
    in lower-case hexadecimal digits, [str::to_lowercase] on characters, the
    process, and the directory of the store ([FileTransferStore::root]). *)
Class StoreEnv := {
  #[global] batch_json :: Json BatchRecord;
  #[global] entry_json :: Json ManifestEntry;
  #[global] complete_json :: Json ManifestComplete;
  #[global] target_json :: Json TargetRecord;
  #[global] source_json :: Json SourceRecord;
  sha256_hex : list Z → string;
  sha256_hex_valid l : valid_sha256 (sha256_hex l) = true;
  to_lowercase : list Z → list Z;
  to_lowercase_boundary : lowercase_boundary to_lowercase;
  process_id : Z;
  store_root : path;
}.

Section store.
Context `{StoreEnv}.
Notation write := (write process_id).
Notation root := store_root.

(** [app/file_transfer_store.rs FileTransferStore::batch_dir] *)
Definition batch_dir (batch_id : string) : io path :=
  _ ← io_err (validate_batch_id batch_id) "invalid batch id";
  mret (root ++ [batch_id]).

(** [app/file_transfer_store.rs FileTransferStore::create_batch] *)
Definition create_batch (batch : BatchRecord) : io unit :=
  _ ← BatchRecord_validate batch;
  directory ← batch_dir (br_batch_id batch);
  _ ← create_dir directory;
  contents ← to_json batch;
  write (directory ++ [BATCH_FILE]) contents.

(** [app/file_transfer_store.rs FileTransferStore::load_batch] *)
Definition load_batch (batch_id : string) : io BatchRecord :=
  directory ← batch_dir batch_id;
  contents ← read (directory ++ [BATCH_FILE]);
  value ← of_json contents;
  _ ← BatchRecord_validate value;
  _ ← check (negb (bool_decide (br_batch_id value = batch_id)))
        "batch directory and record do not match";
  mret value.

(** [app/file_transfer_store.rs FileTransferStore::update_state] The lock makes
    the whole function one step. *)
Definition update_state (batch_id : string) (state : BatchState) (now_epoch_seconds : Z) : io BatchRecord :=
  batch ← load_batch batch_id;
  _ ← check (negb (can_transition_to (br_state batch) state)) "invalid file transfer state transition";
  let batch := with_state state now_epoch_seconds batch in
  _ ← BatchRecord_validate batch;
  directory ← batch_dir batch_id;
  contents ← to_json batch;
  _ ← write (directory ++ [BATCH_FILE]) contents;
  mret batch.

(** ** The manifest *)

(** [app/file_transfer_store.rs read_manifest_complete] *)
Definition read_manifest_complete (directory : path) : io ManifestComplete :=
  contents ← read (directory ++ [MANIFEST_COMPLETE_FILE]);
  value ← of_json contents;
  _ ← check (negb (mc_store_version value =? STORE_VERSION) || negb (valid_sha256 (mc_sha256 value)))
        "invalid manifest completion record";
  mret value.

(** [app/file_transfer_store.rs FileTransferStore::manifest_is_complete] *)
Definition manifest_is_complete (batch_id : string) : io bool :=
  completed ← attempt (directory ← batch_dir batch_id; read_manifest_complete directory);
  mret (bool_decide (is_Some completed)).

(** [app/file_transfer_store.rs FileTransferStore::begin_manifest] *)
Definition begin_manifest (batch_id : string) : io ManifestWriter :=
  batch ← load_batch batch_id;
  expected_entry_count ← checked (checked_add64 (br_file_count batch) (br_directory_count batch))
    "manifest entry count overflow";
  directory ← batch_dir batch_id;
  complete ← manifest_is_complete batch_id;
  _ ← check complete "manifest already committed";
  _ ← remove_if_exists (directory ++ [MANIFEST_FILE]);
  _ ← remove_if_exists (directory ++ [MANIFEST_INDEX_FILE]);
  _ ← remove_if_exists (directory ++ [PROGRESS_FILE]);
  _ ← remove_if_exists (directory ++ [MANIFEST_COMPLETE_FILE]);
  _ ← create_new (directory ++ [MANIFEST_FILE]);
  _ ← create_new (directory ++ [MANIFEST_INDEX_FILE]);
  mret (mkManifestWriter directory
          (BufWriter_new (directory ++ [MANIFEST_FILE]) (512 * 1024))
          (BufWriter_new (directory ++ [MANIFEST_INDEX_FILE]) (64 * 1024))
          0 expected_entry_count (br_file_count batch) (br_directory_count batch)
          (br_total_bytes batch) 0 0 0 ∅ 0 []).

(** [app/file_transfer_store.rs ManifestWriter::append] An error leaves the
    writer to its destructor. *)
Definition ManifestWriter_append (self : ManifestWriter) (entry : ManifestEntry) : io ManifestWriter :=
  _ ← io_err (ManifestEntry_validate to_vec entry) "invalid manifest entry";
  _ ← check (negb (me_ordinal entry =? mw_next_ordinal self)
             || (mw_expected_entry_count self <=? mw_next_ordinal self))
        "manifest ordinals must be contiguous";
  _ ← check (bool_decide (me_entry_id entry ∈ mw_entry_ids self)) "duplicate manifest entry id";
  let files := match me_kind entry with File => mw_files self + 1 | Directory => mw_files self end in
  let directories :=
    match me_kind entry with File => mw_directories self | Directory => mw_directories self + 1 end in
  bytes ← checked (checked_add64 (mw_bytes self) (me_size entry)) "manifest size overflow";
  _ ← check ((mw_expected_files self <? files) || (mw_expected_directories self <? directories)
             || (mw_expected_bytes self <? bytes)) "manifest summary mismatch";
  line ← to_json entry;
  let line := line ++ [10] in
  index ← bw_write_all (mw_index self) (to_le_bytes 8 (mw_next_offset self));
  file ← bw_write_all (mw_file self) line;
  next_offset ← checked (checked_add64 (mw_next_offset self) (zlength line)) "manifest offset overflow";
  mret (mkManifestWriter (mw_directory self) file index (mw_next_ordinal self + 1)
          (mw_expected_entry_count self) (mw_expected_files self) (mw_expected_directories self)
          (mw_expected_bytes self) files directories bytes
          ({[ me_entry_id entry ]} ∪ mw_entry_ids self) next_offset (mw_hasher self ++ line)).

(** [app/file_transfer_store.rs ManifestWriter::drop] Of a writer that did not
    commit. What its buffers would still write goes to files just deleted. *)
Definition ManifestWriter_drop (directory : path) : io unit :=
  _ ← ignore (remove_file (directory ++ [MANIFEST_FILE]));
  _ ← ignore (remove_file (directory ++ [MANIFEST_INDEX_FILE]));
  _ ← ignore (remove_file (directory ++ [PROGRESS_FILE]));
  ignore (remove_file (directory ++ [MANIFEST_COMPLETE_FILE])).

(** [app/file_transfer_store.rs ManifestWriter::finish] It consumes the writer,
    so a failure runs the destructor. *)
Definition ManifestWriter_finish (self : ManifestWriter) : io Z :=
  on_error
    (_ ← check (negb (mw_next_ordinal self =? mw_expected_entry_count self)
                || negb (mw_files self =? mw_expected_files self)
                || negb (mw_directories self =? mw_expected_directories self)
                || negb (mw_bytes self =? mw_expected_bytes self))
           "manifest entry count does not match batch";
     _ ← flush_and_sync (mw_file self);
     _ ← flush_and_sync (mw_index self);
     let completed := mkManifestComplete STORE_VERSION (mw_next_ordinal self)
                        (sha256_hex (mw_hasher self)) in
     _ ← initialize_progress (mw_directory self) (mw_next_ordinal self);
     contents ← to_json completed;
     _ ← write (mw_directory self ++ [MANIFEST_COMPLETE_FILE]) contents;
     mret (mw_next_ordinal self))
    (ManifestWriter_drop (mw_directory self)).

Section for_each.
Context {Acc : Type} (visit : ManifestEntry → Acc → io Acc).

Fixpoint for_each_line (lines : list (list Z)) (ordinal : Z) (hashed : list Z) (acc : Acc)
    : io (Z * list Z * Acc) :=
  match lines with
  | [] => mret (ordinal, hashed, acc)
  | buffer :: lines =>
    match strip_newline buffer with
    | None => invalid_data "incomplete manifest line"
    | Some line =>
      entry ← of_json line;
      _ ← io_err (ManifestEntry_validate to_vec entry) "invalid manifest entry";
      _ ← check (negb (me_ordinal entry =? ordinal)) "manifest ordinals are not contiguous";
      acc ← visit entry acc;
      for_each_line lines (ordinal + 1) (hashed ++ buffer) acc
    end
  end.

(** [app/file_transfer_store.rs FileTransferStore::for_each_manifest_entry] [acc]
    is what the closure captures. *)
Definition for_each_manifest_entry (batch_id : string) (acc : Acc) : io (Z * Acc) :=
  directory ← batch_dir batch_id;
  completed ← read_manifest_complete directory;
  contents ← read (directory ++ [MANIFEST_FILE]);
  r ← for_each_line (split_lines contents) 0 [] acc;
  let '(ordinal, hashed, acc) := r in
  _ ← check (negb (ordinal =? mc_entry_count completed)
             || negb (bool_decide (sha256_hex hashed = mc_sha256 completed)))
        "manifest completion record does not match";
  mret (ordinal, acc).
End for_each.

(** [app/file_transfer_store.rs FileTransferStore::manifest_entry] *)
Definition manifest_entry (batch_id : string) (ordinal : Z) : io ManifestEntry :=
  directory ← batch_dir batch_id;
  completed ← read_manifest_complete directory;
  _ ← check (mc_entry_count completed <=? ordinal) "manifest ordinal is outside the batch";
  index ← read (directory ++ [MANIFEST_INDEX_FILE]);
  offset ← checked (checked_mul64 ordinal 8) "manifest index offset overflow";
  let encoded_offset := take 8 (drop (Z.to_nat offset) index) in
  _ ← (if zlength encoded_offset =? 8 then mret tt else sr_fail UnexpectedEof);
  manifest ← read (directory ++ [MANIFEST_FILE]);
  let line := read_until_newline (drop (Z.to_nat (from_le_bytes encoded_offset)) manifest) in
  match strip_newline line with
  | None => invalid_data "incomplete manifest line"
  | Some line =>
    entry ← of_json line;
    _ ← io_err (ManifestEntry_validate to_vec entry) "invalid manifest entry";
    _ ← check (negb (me_ordinal entry =? ordinal)) "manifest index does not match entry";
    mret entry
  end.

(** ** Progress *)

(** [app/file_transfer_store.rs FileTransferStore::write_progress] *)
Definition write_progress (batch_id : string) (ordinal : Z) (progress : EntryProgress) : io unit :=
  directory ← batch_dir batch_id;
  completed ← read_manifest_complete directory;
  _ ← check (mc_entry_count completed <=? ordinal) "progress ordinal is outside the manifest";
  let p := directory ++ [PROGRESS_FILE] in
  _ ← open_existing p;
  offset ← checked (checked_mul64 ordinal PROGRESS_RECORD_BYTES) "progress offset overflow";
  _ ← write_at p offset (encode_progress progress);
  sync p.

(** [app/file_transfer_store.rs FileTransferStore::read_progress] *)
Definition read_progress (batch_id : string) (ordinal : Z) : io EntryProgress :=
  directory ← batch_dir batch_id;
  completed ← read_manifest_complete directory;
  _ ← check (mc_entry_count completed <=? ordinal) "progress ordinal is outside the manifest";
  data ← read (directory ++ [PROGRESS_FILE]);
  offset ← checked (checked_mul64 ordinal PROGRESS_RECORD_BYTES) "progress offset overflow";
  record ← sr_lift (read_record data offset);
  sr_lift (decode_progress (default (replicate 16 0) record)).

(** The loop of [progress_summary]: at most [count] records from [offset] on.
    [None] is out of fuel. *)
Fixpoint summarize (fuel : nat) (data : list Z) (count offset : Z) (summary : ProgressSummary)
    : option (result io_error ProgressSummary) :=
  if count <=? 0 then Some (Ok summary)
  else
    match fuel with
    | O => None
    | S fuel =>
      match read_record data offset with
      | Err e => Some (Err e)
      | Ok None => Some (Ok summary)
      | Ok (Some record) =>
        match decode_progress record with
        | Err e => Some (Err e)
        | Ok progress =>
          summarize fuel data (count - 1) (offset + PROGRESS_RECORD_BYTES)
            (mkProgressSummary
               (saturating_add64 (ps_completed_bytes summary) (ep_committed_offset progress))
               (if bool_decide (ep_state progress = ECompleted)
                then saturating_add64 (ps_completed_entries summary) 1
                else ps_completed_entries summary)
               (if bool_decide (ep_state progress = EFailed)
                then saturating_add64 (ps_failed_entries summary) 1
                else ps_failed_entries summary))
        end
      end
    end.

(** [app/file_transfer_store.rs FileTransferStore::progress_summary] The fuel is
    a record per byte of the file, and one. *)
Definition progress_summary (batch_id : string) (entry_count : Z) : io ProgressSummary :=
  directory ← batch_dir batch_id;
  completed ← attempt (read_manifest_complete directory);
  match completed with
  | None => mret (mkProgressSummary 0 0 0)
  | Some _ =>
    data ← read (directory ++ [PROGRESS_FILE]);
    sr_lift (default (Err IoOther)
               (summarize (S (length data)) data entry_count 0 (mkProgressSummary 0 0 0)))
  end.

(** [app/file_transfer_store.rs FileTransferStore::all_entries_terminal] The pair
    is (terminal, failed). *)
Definition all_entries_terminal (batch_id : string) : io (bool * bool) :=
  r ← for_each_manifest_entry (λ entry '(terminal, failed),
        progress ← read_progress batch_id (me_ordinal entry);
        mret match ep_state progress with
             | ECompleted => if ep_committed_offset progress =? me_size entry
                             then (terminal, failed) else (false, failed)
             | EFailed | ECanceled => (terminal, true)
             | _ => (false, failed)
             end) batch_id (true, false);
  mret r.2.

(** [app/file_transfer_store.rs FileTransferStore::failed_paths] *)
Definition failed_paths (batch_id : string) (limit : Z) : io (list string) :=
  r ← for_each_manifest_entry (λ entry paths,
        if zlength paths <? limit
        then progress ← read_progress batch_id (me_ordinal entry);
             mret (if bool_decide (ep_state progress = EFailed)
                   then paths ++ [me_relative_path entry] else paths)
        else mret paths) batch_id [];
  mret r.2.
End store.
