(* ===== verification/SampleStore.v ===== *)
(** * A sample store

    A concrete environment of the store, for the witnesses: a codec that writes
    the records of one sample batch as their place in a table, a hash, and a
    disk that holds the batch. *)

From S2P Require Import Prelude Text Protocol FileNames FileCore Disk Store.
Local Open Scope string_scope.
Local Open Scope list_scope.
Local Open Scope Z_scope.

#[export] Instance BatchRecord_eq_dec : EqDecision BatchRecord.
Proof. solve_decision. Defined.
#[export] Instance ManifestEntry_eq_dec : EqDecision ManifestEntry.
Proof. solve_decision. Defined.
#[export] Instance ManifestComplete_eq_dec : EqDecision ManifestComplete.
Proof. solve_decision. Defined.
#[export] Instance TargetRecord_eq_dec : EqDecision TargetRecord.
Proof. solve_decision. Defined.
#[export] Instance SourceRecord_eq_dec : EqDecision SourceRecord.
Proof. solve_decision. Defined.

Section table.
Context {A : Type} `{!EqDecision A}.

Fixpoint find_from (n : Z) (a : A) (table : list A) : option Z :=
  match table with
  | [] => None
  | b :: table => if bool_decide (a = b) then Some n else find_from (n + 1) a table
  end.

Definition table_to_vec (table : list A) (a : A) : option (list Z) :=
  (λ n, [n]) <$> find_from 100 a table.
Definition table_from_slice (table : list A) (l : list Z) : option A :=
  match l with [n] => table !! Z.to_nat (n - 100) | _ => None end.

Lemma find_from_spec n a table i :
  find_from n a table = Some i → n ≤ i ∧ table !! Z.to_nat (i - n) = Some a.
Proof.
  revert n. induction table as [|b table IH]; intros n; cbn; [done |].
  case_bool_decide as Hab; [intros [= <-]; subst b; by rewrite Z.sub_diag |].
  intros [Hle Hl]%IH. split; [lia |].
  replace (Z.to_nat (i - n)) with (S (Z.to_nat (i - (n + 1)))) by lia. done.
Qed.

#[refine] Instance table_json (table : list A) : Json A := {
  to_vec := table_to_vec table;
  from_slice := table_from_slice table;
}.
Proof.
  - unfold table_to_vec. intros a l H. destruct (find_from 100 a table) eqn:E; [| done].
    injection H as <-. by apply find_from_spec in E as [_ ?].
  - unfold table_to_vec. intros a l H. destruct (find_from 100 a table) eqn:E; [| done].
    injection H as <-. apply find_from_spec in E as [? _]. intros Hin%list_elem_of_singleton. lia.
Defined.
End table.

Definition sample_batch (state : BatchState) (root : option string) : BatchRecord :=
  mkBatchRecord 1 "batch-1" "phone-1" PhoneToComputer state 10 10 1 1 42 root.
(** The same batch, to the phone. *)
Definition sample_outbound_batch (state : BatchState) : BatchRecord :=
  mkBatchRecord 1 "batch-1" "phone-1" ComputerToPhone state 10 10 1 1 42 None.
Definition sample_directory : ManifestEntry :=
  mkManifestEntry 0 "entry-0" "docs" Directory 0 None None None.
Definition sample_file : ManifestEntry :=
  mkManifestEntry 1 "entry-1" "docs/a.txt" File 42 None None None.
Definition sample_entries : list ManifestEntry := [sample_directory; sample_file].

Definition sample_hash : string := "0123456789abcdef0123456789abcdef0123456789abcdef0123456789abcdef".

Definition sample_states : list BatchState :=
  [WaitingConfirmation; Queued; Preparing; Transferring; WaitingNetwork; NeedsReselection;
   Completed; PartialFailure; Canceled].
Definition sample_root : path := ["C:"; "in"].

Definition sample_env : StoreEnv := {|
  batch_json := table_json (((λ s, sample_batch s None) <$> sample_states)
    ++ ((λ s, sample_batch s (Some (path_to_string sample_root))) <$> sample_states)
    ++ (sample_outbound_batch <$> sample_states));
  entry_json := table_json sample_entries;
  complete_json := table_json [mkManifestComplete 1 2 sample_hash];
  target_json := table_json [mkTargetRecord 0 "docs"; mkTargetRecord 1 "docs/a.txt";
                             mkTargetRecord 0 "docs (1)"; mkTargetRecord 1 "docs (1)/a.txt"];
  source_json := table_json [mkSourceRecord 0 "C:\src\docs"; mkSourceRecord 1 "C:\src\docs\a.txt"];
  sha256_hex := λ _, sample_hash;
  sha256_hex_valid := λ _, eq_refl;
  to_lowercase := ascii_lowercase;
  to_lowercase_boundary := ascii_lowercase_boundary;
  process_id := 7;
  store_root := ["C:"; "store"];
|}.

Definition sample_directory_path : path := ["C:"; "store"; "batch-1"].

(** The batch was offered and accepted; its record is on the disk. *)
Definition sample_disk (schedule : list outcome) : disk :=
  mkDisk {[ ["C:"]; ["C:"; "store"]; sample_directory_path ]} ∅
    {[ sample_directory_path ++ ["batch.json"] := mkFile [101] [101] ]} 1 schedule false.

(** The batch with its manifest and its progress file. *)
Definition sample_disk_with (progress : file) : disk :=
  mkDisk {[ ["C:"]; ["C:"; "store"]; sample_directory_path ]} ∅
    (list_to_map
       [(sample_directory_path ++ ["batch.json"], mkFile [101] [101]);
        (sample_directory_path ++ [MANIFEST_FILE], mkFile [100; 10; 101; 10] [100; 10; 101; 10]);
        (sample_directory_path ++ [MANIFEST_INDEX_FILE],
          mkFile [0; 0; 0; 0; 0; 0; 0; 0; 2; 0; 0; 0; 0; 0; 0; 0] [0; 0; 0; 0; 0; 0; 0; 0; 2; 0; 0; 0; 0; 0; 0; 0]);
        (sample_directory_path ++ [PROGRESS_FILE], progress);
        (sample_directory_path ++ [MANIFEST_COMPLETE_FILE], mkFile [100] [100])])
    5 [] false.
Definition sample_full_disk : disk := sample_disk_with (mkFile [] []).

(** The same manifest, of a batch to the phone. *)
Definition sample_outbound_disk : disk :=
  with_files <[ sample_directory_path ++ ["batch.json"] := mkFile [119] [119] ]> sample_full_disk.

(** The codecs compute on the sample. *)
Example sample_batch_json :
  @to_vec _ (@batch_json sample_env) (sample_batch Queued None) = Some [101]
  ∧ @from_slice _ (@batch_json sample_env) [101] = Some (sample_batch Queued None).
Proof. by vm_compute. Qed.

Example sample_manifest_is_complete :
  (@manifest_is_complete sample_env "batch-1" sample_full_disk).1 = Ok true
  ∧ (@manifest_entry sample_env "batch-1" 1 sample_full_disk).1 = Ok sample_file.
Proof. by vm_compute. Qed.
