(* ===== verification/Targets.v ===== *)
(** * Targets, sources and the list of batches

    The rest of [flowtype-app/src/file_transfer_store.rs]: where the entries of a
    batch from the phone go on Windows, where those of a batch to the phone come
    from, and which batches there are. *)

From S2P Require Import Prelude Text Protocol FileNames FileCore Disk Store.
Local Open Scope string_scope.
Local Open Scope list_scope.
Local Open Scope Z_scope.

(** What the closure of [prepare_windows_targets] captures. *)
Record PrepareState := mkPrepareState {
  pt_targets : BufWriter;
  pt_index : BufWriter;
  pt_mapped_directories : gmap string path;
  pt_reservations : gmap path (gset (list Z));
  pt_source_paths : gset (list Z);
  pt_next_offset : Z;
}.

Section targets.
Context `{StoreEnv}.
Notation write := (write process_id).

(** [app/file_transfer_store.rs FileTransferStore::finish_target_directories] Its
    use of [target_path] is an argument. *)
Definition finish_target_directories (target_path : string → Z → io path) (batch_id : string) : io unit :=
  _ ← for_each_manifest_entry (λ entry (_ : unit),
        if bool_decide (me_kind entry = Directory)
        then
          target ← target_path batch_id (me_ordinal entry);
          _ ← create_dir_all target;
          write_progress batch_id (me_ordinal entry) (mkEntryProgress ECompleted 0)
        else mret tt) batch_id tt;
  mret tt.

(** [relative_path.rsplit_once('/')]: the parent, and the characters of the name. *)
Definition split_parent (relative_path : string) : string * list Z :=
  match rsplit_once 47 (chars relative_path) with
  | Some (source_parent, source_name) => (of_chars source_parent, source_name)
  | None => ("", chars relative_path)
  end.

(** The reservation of a directory: the names it has on the disk are taken. A
    directory that cannot be read has none. *)
Definition new_reservation (absolute : path) : io (gset (list Z)) :=
  existing ← attempt (read_dir absolute);
  mret (WindowsNameReservation_new to_lowercase ((λ e, chars e.1) <$> default [] existing)).

(** The mapping of one entry, without the two files: the target's path below the
    root. *)
Definition map_target (target_root : path) (entry : ManifestEntry)
    (mapped_directories : gmap string path) (reservations : gmap path (gset (list Z)))
    (source_paths : gset (list Z))
    : io (path * gmap string path * gmap path (gset (list Z)) * gset (list Z)) :=
  let key := to_lowercase (chars (me_relative_path entry)) in
  _ ← check (bool_decide (key ∈ source_paths)) "manifest contains a case-insensitive path collision";
  let source_paths := {[ key ]} ∪ source_paths in
  let '(source_parent, source_name) := split_parent (me_relative_path entry) in
  target_parent ← sr_lift (ok_or (mapped_directories !! source_parent)
                             (InvalidData "manifest child precedes its directory"));
  reservation ← match reservations !! target_parent with
                | Some reservation => mret reservation
                | None => new_reservation (target_root ++ target_parent)
                end;
  (* [reserve] sanitizes the name it is given once more. *)
  r ← sr_lift (ok_or (reserve to_lowercase (S (size reservation)) reservation
                        (sanitize_chars source_name)
                        (bool_decide (me_kind entry = Directory))) IoOther);
  let '(target_name, reservation) := r in
  (* A reserved name has no drive, so [join] appends it. *)
  let target_relative := target_parent ++ [of_chars target_name] in
  mret (target_relative,
        (if bool_decide (me_kind entry = Directory)
         then <[me_relative_path entry := target_relative]> mapped_directories else mapped_directories),
        <[target_parent := reservation]> reservations, source_paths).

(** The closure of [prepare_windows_targets]. *)
Definition prepare_entry (target_root : path) (entry : ManifestEntry) (acc : PrepareState) : io PrepareState :=
  r ← map_target target_root entry (pt_mapped_directories acc) (pt_reservations acc) (pt_source_paths acc);
  let '(target_relative, mapped_directories, reservations, source_paths) := r in
  line ← to_json (mkTargetRecord (me_ordinal entry) (path_to_wire target_relative));
  let line := line ++ [10] in
  index ← bw_write_all (pt_index acc) (to_le_bytes 8 (pt_next_offset acc));
  targets ← bw_write_all (pt_targets acc) line;
  next_offset ← checked (checked_add64 (pt_next_offset acc) (zlength line)) "target mapping offset overflow";
  mret (mkPrepareState targets index mapped_directories reservations source_paths next_offset).

(** [app/file_transfer_store.rs FileTransferStore::target_path] The loop over the
    ancestors follows no link. *)
Fixpoint refuse_links (ancestor : path) (segments : list string) : io unit :=
  match segments with
  | [] => mret tt
  | segment :: segments =>
    let ancestor := join_segment ancestor segment in
    link ← (λ d, match symlink_metadata ancestor d with
                 | (Err NotFound, d) => (Ok false, d)
                 | r => r
                 end);
    _ ← check link "target path contains a symbolic link";
    refuse_links ancestor segments
  end.
Definition target_path (batch_id : string) (ordinal : Z) : io path :=
  directory ← batch_dir batch_id;
  batch ← load_batch batch_id;
  root ← sr_lift (ok_or (br_target_root batch) (InvalidData "batch target root is not prepared"));
  let root := path_of_string root in
  record ← read_indexed_json_line (directory ++ [TARGETS_FILE]) (directory ++ [TARGETS_INDEX_FILE]) ordinal;
  _ ← check (negb (tr_ordinal record =? ordinal)) "target index does not match entry";
  _ ← io_err (validate_relative_path (tr_relative_path record)) "invalid target relative path";
  let segments := wire_segments (tr_relative_path record) in
  (* [root.join(relative)]: a relative path that has a drive replaces the root. *)
  let relative := foldl join_segment [] segments in
  let result := if match relative with s :: _ => has_drive s | [] => false end
                then relative else root ++ relative in
  _ ← check (negb (bool_decide (root `prefix_of` result))) "target path escaped its root";
  _ ← refuse_links root segments;
  mret result.

(** [app/file_transfer_store.rs FileTransferStore::prepare_windows_targets] *)
Definition prepare_windows_targets (batch_id : string) (target_root : path)
    (now_epoch_seconds : Z) : io unit :=
  batch ← load_batch batch_id;
  if bool_decide (is_Some (br_target_root batch))
  then finish_target_directories target_path batch_id
  else
    _ ← create_dir_all target_root;
    directory ← batch_dir batch_id;
    let targets_path := directory ++ [TARGETS_FILE] in
    let index_path := directory ++ [TARGETS_INDEX_FILE] in
    _ ← remove_if_exists targets_path;
    _ ← remove_if_exists index_path;
    _ ← create_new targets_path;
    _ ← create_new index_path;
    r ← on_error
          (for_each_manifest_entry (prepare_entry target_root) batch_id
             (mkPrepareState (BufWriter_new targets_path (256 * 1024))
                (BufWriter_new index_path (64 * 1024)) {[ "" := [] ]} ∅ ∅ 0))
          (_ ← ignore (remove_file targets_path); ignore (remove_file index_path));
    let acc := r.2 in
    _ ← flush_and_sync (pt_targets acc);
    _ ← flush_and_sync (pt_index acc);
    batch ← load_batch batch_id;
    _ ← check (is_terminal (br_state batch)) "batch already finished";
    let batch := with_target_root (path_to_string target_root) now_epoch_seconds batch in
    _ ← BatchRecord_validate batch;
    contents ← to_json batch;
    _ ← write (directory ++ [BATCH_FILE]) contents;
    finish_target_directories target_path batch_id.

(** ** Sources *)

(** [app/file_transfer_store.rs FileTransferStore::begin_source_paths] *)
Definition begin_source_paths (batch_id : string) : io SourceWriter :=
  batch ← load_batch batch_id;
  expected_entry_count ← checked (checked_add64 (br_file_count batch) (br_directory_count batch))
    "source entry count overflow";
  directory ← batch_dir batch_id;
  _ ← create_new (directory ++ [SOURCES_FILE]);
  _ ← create_new (directory ++ [SOURCES_INDEX_FILE]);
  mret (mkSourceWriter (BufWriter_new (directory ++ [SOURCES_FILE]) (256 * 1024))
          (BufWriter_new (directory ++ [SOURCES_INDEX_FILE]) (64 * 1024)) 0 0 expected_entry_count).

(** [app/file_transfer_store.rs SourceWriter::append] *)
Definition SourceWriter_append (self : SourceWriter) (ordinal : Z) (p : path) : io SourceWriter :=
  _ ← check (negb (ordinal =? sw_next_ordinal self) || negb (is_absolute p)) "invalid source path mapping";
  line ← to_json (mkSourceRecord ordinal (path_to_string p));
  let line := line ++ [10] in
  index ← bw_write_all (sw_index self) (to_le_bytes 8 (sw_next_offset self));
  data ← bw_write_all (sw_data self) line;
  next_offset ← checked (checked_add64 (sw_next_offset self) (zlength line)) "source mapping offset overflow";
  mret (mkSourceWriter data index (sw_next_ordinal self + 1) next_offset (sw_expected_entry_count self)).

(** [app/file_transfer_store.rs SourceWriter::finish] *)
Definition SourceWriter_finish (self : SourceWriter) : io unit :=
  _ ← check (negb (sw_next_ordinal self =? sw_expected_entry_count self))
        "source entry count does not match batch";
  _ ← flush_and_sync (sw_data self);
  flush_and_sync (sw_index self).

(** [app/file_transfer_store.rs FileTransferStore::source_path] *)
Definition source_path (batch_id : string) (ordinal : Z) : io path :=
  directory ← batch_dir batch_id;
  record ← read_indexed_json_line (directory ++ [SOURCES_FILE]) (directory ++ [SOURCES_INDEX_FILE]) ordinal;
  _ ← check (negb (sr_ordinal record =? ordinal)) "source index does not match entry";
  let p := path_of_string (sr_path record) in
  _ ← check (negb (is_absolute p)) "source path is not absolute";
  mret p.

(** ** Batches *)

Definition batch_before (a b : BatchRecord) : bool :=
  (br_created_at_epoch_seconds a <? br_created_at_epoch_seconds b)
  || ((br_created_at_epoch_seconds a =? br_created_at_epoch_seconds b)
      && String.leb (br_batch_id a) (br_batch_id b)).

Fixpoint load_batches (entries : list (string * bool)) : io (list BatchRecord) :=
  match entries with
  | [] => mret []
  | (_, false) :: entries => load_batches entries
  | (batch_id, true) :: entries =>
    batch ← attempt (load_batch batch_id);
    batches ← load_batches entries;
    mret (option_list batch ++ batches)
  end.

(** [app/file_transfer_store.rs FileTransferStore::batches] *)
Definition batches : io (list BatchRecord) :=
  entries ← read_dir store_root;
  batches ← load_batches entries;
  mret (stable_sort batch_before batches).

(** [app/file_transfer_store.rs FileTransferStore::recoverable_batches] *)
Definition recoverable_batches : io (list BatchRecord) :=
  batches ← batches;
  mret (filter (λ batch, is_terminal (br_state batch) = false) batches).

(** [app/file_transfer_store.rs FileTransferStore::delete_batch] *)
Definition delete_batch (batch_id : string) : io unit :=
  directory ← batch_dir batch_id;
  remove_dir_all directory.
End targets.
