(* ===== verification/StoreSafety.v ===== *)
(** * What the store guarantees: progress records and the manifest

    The codec of progress records, the lines and the index of a manifest, and
    what a manifest is on the disk while it is written, after a stop at any
    point, and when it is read. *)

From S2P Require Import Prelude Text Protocol FileNames FileCore Disk DiskLogic Store SampleStore.
Local Open Scope string_scope.
Local Open Scope list_scope.
Local Open Scope Z_scope.

(** ** Progress records *)

Definition progress_ok (p : EntryProgress) : Prop := 0 ≤ ep_committed_offset p ≤ U64_MAX.

Lemma U64_MAX_bytes : U64_MAX = 256 ^ Z.of_nat 8 - 1.
Proof. done. Qed.

Lemma encode_progress_length p : length (encode_progress p) = 16%nat.
Proof. done. Qed.

Lemma decode_encode_progress p : progress_ok p → decode_progress (encode_progress p) = Ok p.
Proof.
  intros Hp. unfold progress_ok in Hp. rewrite U64_MAX_bytes in Hp.
  pose proof (from_to_le_bytes 8 (ep_committed_offset p) ltac:(lia)) as Hoff.
  unfold encode_progress, decode_progress. cbn -[from_le_bytes]. cbn -[from_le_bytes] in Hoff.
  assert (EntryState_try_from (EntryState_as_u8 (ep_state p)) = Ok (ep_state p)) as -> by (by destruct (ep_state p)).
  rewrite Hoff. by destruct p.
Qed.

(** A record the store accepts is either empty or the encoding of what it says. *)
Lemma encode_decode_progress r p :
  length r = 16%nat → Forall byte_ok r → decode_progress r = Ok p →
  Forall (eq 0) r ∧ p = mkEntryProgress EPending 0 ∨ r = encode_progress p ∧ progress_ok p.
Proof.
  intros Hlen Hr Hd. do 8 (destruct r as [|? r]; [done |]). injection Hlen as Hlen.
  unfold decode_progress in Hd.
  destruct (forallb _ _) eqn:Hz in Hd.
  { left. injection Hd as <-. split; [| done]. apply Forall_forall. intros x Hx%list_elem_of_In.
    rewrite forallb_forall in Hz. specialize (Hz x Hx). by apply Z.eqb_eq in Hz. }
  right. cbn -[from_le_bytes PROGRESS_RECORD_VERSION] in Hd.
  rewrite drop_0 in Hd. assert (take 8 r = r) as Htake by (apply firstn_all2; lia). rewrite Htake in Hd.
  destruct (_ || _) eqn:Hv in Hd; [done |].
  destruct (EntryState_try_from _) as [state|] eqn:Hs; [| done]. injection Hd as <-.
  apply orb_false_iff in Hv as [Hv H0]. rewrite !orb_false_iff in H0. bool_to_prop.
  destruct H0 as (?&?&?&?&?&?&_). bool_to_prop. subst.
  apply entry_state_roundtrip in Hs. subst.
  assert (Forall byte_ok r) as Hoff by (by repeat apply Forall_cons in Hr as [_ Hr]).
  pose proof (from_le_bytes_bound r Hoff) as Hb. rewrite Hlen in Hb.
  split.
  - unfold encode_progress. cbn [ep_state ep_committed_offset].
    rewrite <- Hlen. by rewrite to_from_le_bytes.
  - unfold progress_ok. cbn [ep_committed_offset]. rewrite U64_MAX_bytes. lia.
Qed.

(** The sixteen bytes of a progress record. What is written for an entry
    reads back as it was written; and sixteen bytes are accepted only when they
    are all zero, which is an entry not yet begun, or the encoding of the
    progress they are read as. *)
Theorem progress_roundtrip r p :
  length r = 16%nat → Forall byte_ok r →
  (progress_ok p → decode_progress (encode_progress p) = Ok p)
  ∧ (decode_progress r = Ok p ↔
     Forall (eq 0) r ∧ p = mkEntryProgress EPending 0 ∨ r = encode_progress p ∧ progress_ok p).
Proof.
  intros Hlen Hr. split; [apply decode_encode_progress |]. split; [by apply encode_decode_progress |].
  intros [[Hz ->] | [-> Hp]]; [| by apply decode_encode_progress].
  unfold decode_progress. assert (forallb (λ value, value =? 0) r = true) as ->; [| done].
  apply forallb_forall. intros x Hx%list_elem_of_In. rewrite Forall_forall in Hz.
  by rewrite <- (Hz x Hx).
Qed.

Lemma progress_roundtrip_witness :
  let r := encode_progress (mkEntryProgress EWaitingNetwork 16) in
  length r = 16%nat ∧ Forall byte_ok r ∧ decode_progress r = Ok (mkEntryProgress EWaitingNetwork 16).
Proof.
  intros r. assert (Forall byte_ok r) as H by (repeat constructor; by vm_compute).
  split; [done |]. split; [exact H |].
  apply (progress_roundtrip r (mkEntryProgress EWaitingNetwork 16) eq_refl H).
  right. split; [done | split; by vm_compute].
Defined.

(** ** Lines *)

Lemma strip_newline_snoc l : strip_newline (l ++ [10]) = Some l.
Proof. unfold strip_newline. by rewrite reverse_snoc, reverse_involutive. Qed.

Lemma read_until_newline_app l rest : 10 ∉ l → read_until_newline (l ++ 10 :: rest) = l ++ [10].
Proof.
  induction l as [|b l IH]; intros Hl; cbn [app read_until_newline]; [done |].
  apply not_elem_of_cons in Hl as [Hb Hl]. destruct (Z.eqb_spec b 10); [congruence |]. by rewrite IH.
Qed.

Lemma split_lines_app l rest : 10 ∉ l → split_lines (l ++ 10 :: rest) = (l ++ [10]) :: split_lines rest.
Proof.
  induction l as [|b l IH]; intros Hl; cbn [app split_lines]; [done |].
  apply not_elem_of_cons in Hl as [Hb Hl]. destruct (Z.eqb_spec b 10); [congruence |]. by rewrite IH.
Qed.

(** The manifest and its index, from the lines of the entries. *)
Definition manifest_bytes (ls : list (list Z)) : list Z := concat ((λ l, l ++ [10]) <$> ls).

Fixpoint index_bytes (offset : Z) (ls : list (list Z)) : list Z :=
  match ls with
  | [] => []
  | l :: ls => to_le_bytes 8 offset ++ index_bytes (offset + zlength l + 1) ls
  end.

Lemma manifest_bytes_cons l ls : manifest_bytes (l :: ls) = l ++ 10 :: manifest_bytes ls.
Proof. unfold manifest_bytes. cbn. by rewrite <- app_assoc. Qed.

Lemma manifest_bytes_app ks ls : manifest_bytes (ks ++ ls) = manifest_bytes ks ++ manifest_bytes ls.
Proof. unfold manifest_bytes. by rewrite fmap_app, concat_app. Qed.

Lemma manifest_bytes_snoc ls l : manifest_bytes (ls ++ [l]) = manifest_bytes ls ++ l ++ [10].
Proof. rewrite manifest_bytes_app, manifest_bytes_cons. done. Qed.

Lemma index_bytes_snoc o ls l :
  index_bytes o (ls ++ [l]) = index_bytes o ls ++ to_le_bytes 8 (o + zlength (manifest_bytes ls)).
Proof.
  revert o. induction ls as [|k ls IH]; intros o; cbn [app index_bytes].
  - rewrite app_nil_r. f_equal. unfold zlength. cbn. lia.
  - rewrite IH, <- app_assoc. do 3 f_equal.
    rewrite manifest_bytes_cons, zlength_app, zlength_cons. lia.
Qed.

Lemma split_lines_manifest ls :
  Forall (λ l, 10 ∉ l) ls → split_lines (manifest_bytes ls) = (λ l, l ++ [10]) <$> ls.
Proof.
  induction 1 as [|l ls Hl Hls IH]; [done |].
  rewrite manifest_bytes_cons, split_lines_app by done. cbn. by rewrite IH.
Qed.

Lemma index_bytes_lookup o ls i :
  (i < length ls)%nat →
  take 8 (drop (8 * i) (index_bytes o ls)) = to_le_bytes 8 (o + zlength (manifest_bytes (take i ls))).
Proof.
  revert o i. induction ls as [|l ls IH]; intros o i Hi; cbn [length] in Hi; [lia |].
  destruct i as [|i].
  - cbn [index_bytes]. rewrite Nat.mul_0_r, drop_0, take_0.
    rewrite take_app_le, take_ge by (by rewrite to_le_bytes_length). f_equal. unfold zlength. cbn. lia.
  - cbn [index_bytes]. rewrite drop_app_ge by (rewrite to_le_bytes_length; lia).
    rewrite to_le_bytes_length. replace (8 * S i - 8)%nat with (8 * i)%nat by lia.
    rewrite IH by lia. cbn [take]. rewrite manifest_bytes_cons, zlength_app, zlength_cons. f_equal. lia.
Qed.

Lemma manifest_bytes_drop ls i l :
  ls !! i = Some l → 10 ∉ l →
  read_until_newline (drop (length (manifest_bytes (take i ls))) (manifest_bytes ls)) = l ++ [10].
Proof.
  intros Hi Hl. rewrite <- (take_drop_middle ls i l Hi) at 2.
  rewrite manifest_bytes_app, drop_app_length, manifest_bytes_cons. by apply read_until_newline_app.
Qed.

(** ** Buffered files *)

Lemma overwrite_end v data : overwrite v (Z.to_nat (zlength v)) data = v ++ data.
Proof.
  unfold overwrite, zlength. rewrite Nat2Z.id, Nat.sub_diag. cbn. rewrite app_nil_r.
  rewrite take_ge by done. rewrite drop_ge by lia. by rewrite app_nil_r.
Qed.

(** What was written so far is in the file, at whose end the handle is, and in
    the buffer. *)
Definition bw_holds (w : BufWriter) (c : list Z) (m : filemap) : Prop :=
  ∃ v durable, m !! bw_path w = Some (mkFile v durable)
    ∧ c = v ++ bw_buffer w ∧ bw_position w = zlength v.

Lemma bw_holds_frame S w c m m' : frame S m m' → ¬ S (bw_path w) → bw_holds w c m → bw_holds w c m'.
Proof. intros Hf Hp (v & u & Hm & Hc). exists v, u. split; [| done]. by rewrite Hf. Qed.

Lemma fwp_append w v durable data (m : filemap) :
  m !! bw_path w = Some (mkFile v durable) → bw_position w = zlength v →
  fwp (write_at (bw_path w) (bw_position w) data)
    (λ _ m', m' !! bw_path w = Some (mkFile (v ++ data) durable) ∧ frame (eq (bw_path w)) m m')
    (frame (eq (bw_path w)) m) m.
Proof.
  intros Hm Hp. apply fwp_write_at; [| intros n; by apply frame_alter | apply frame_refl].
  split; [| by apply frame_alter]. rewrite lookup_alter_eq, Hm. cbn. unfold set_data. cbn.
  by rewrite Hp, overwrite_end.
Qed.

Lemma fwp_bw_flush w c (m : filemap) :
  bw_holds w c m →
  fwp (bw_flush w)
    (λ w' m', bw_path w' = bw_path w ∧ bw_capacity w' = bw_capacity w ∧ bw_buffer w' = []
              ∧ bw_holds w' c m' ∧ frame (eq (bw_path w)) m m')
    (frame (eq (bw_path w)) m) m.
Proof.
  intros (v & u & Hm & -> & Hp). unfold bw_flush. destruct (bw_buffer w) as [|b l] eqn:Hb.
  - apply fwp_ret. split_and!; auto with flow. exists v, u. rewrite Hb. split_and!; auto.
  - apply fwp_bind. eapply fwp_mono; [by apply fwp_append | | done].
    intros _ m' [Hm' Hf]. apply fwp_ret. split_and!; [done.. | | done].
    exists (v ++ b :: l), u. cbn. split_and!; [done | by rewrite app_nil_r |].
    by rewrite Hp, zlength_app.
Qed.

Lemma fwp_bw_write_all w c data (m : filemap) :
  bw_holds w c m →
  fwp (bw_write_all w data)
    (λ w' m', bw_path w' = bw_path w ∧ bw_holds w' (c ++ data) m' ∧ frame (eq (bw_path w)) m m')
    (frame (eq (bw_path w)) m) m.
Proof.
  intros Hw. unfold bw_write_all. destruct (zlength data <? _).
  { apply fwp_ret. split_and!; [done | | apply frame_refl].
    destruct Hw as (v & u & Hm & -> & Hp). exists v, u. cbn. by rewrite app_assoc. }
  apply fwp_bind.
  apply (fwp_mono _ (λ w' m', bw_path w' = bw_path w ∧ bw_capacity w' = bw_capacity w
    ∧ (bw_buffer w' = [] ∨ zlength data ≤ bw_capacity w - zlength (bw_buffer w) ∧ bw_buffer w' = bw_buffer w)
    ∧ bw_holds w' c m' ∧ frame (eq (bw_path w)) m m') _ (frame (eq (bw_path w)) m)); [| | done].
  { destruct (_ <? zlength data) eqn:E.
    - eapply fwp_mono; [by apply fwp_bw_flush | | done]. naive_solver.
    - bool_to_prop. apply fwp_ret. split_and!; auto with flow. }
  intros w' m' (Hpath & Hcap & Hbuf & (v & u & Hm & Hc & Hp) & Hf). rewrite Hpath in Hm.
  destruct (_ <=? zlength data) eqn:E.
  - bool_to_prop. apply fwp_bind. rewrite <- Hpath in Hm.
    eapply fwp_mono; [by eapply fwp_append | |].
    2: { intros m2 Hm2. eapply frame_trans; [done | by rewrite <- Hpath]. }
    intros _ m2 [Hm2 Hf2]. apply fwp_ret. split_and!; [done | |].
    2: { eapply frame_trans; [done | by rewrite <- Hpath]. }
    assert (bw_buffer w' = []) as Hnil.
    { destruct Hbuf as [? | [Hle Hb]]; [done |]. rewrite Hcap in E.
      destruct (bw_buffer w') as [|b l]; [done |]. exfalso. rewrite <- Hb in Hle.
      rewrite zlength_cons in Hle. pose proof (zlength_nonneg l). lia. }
    rewrite Hnil, app_nil_r in Hc. subst v.
    exists (c ++ data), u. cbn. rewrite Hnil, app_nil_r, zlength_app. split_and!; [done.. | lia].
  - apply fwp_ret. split_and!; [done | | done]. exists v, u. cbn. subst c.
    by rewrite app_assoc, Hpath.
Qed.

Lemma fwp_flush_and_sync w c (m : filemap) :
  bw_holds w c m →
  fwp (flush_and_sync w)
    (λ _ m', m' !! bw_path w = Some (mkFile c c) ∧ frame (eq (bw_path w)) m m')
    (frame (eq (bw_path w)) m) m.
Proof.
  intros Hw. unfold flush_and_sync. apply fwp_bind. eapply fwp_mono; [by apply fwp_bw_flush | | done].
  intros w' m' (Hpath & _ & Hbuf & (v & u & Hm & Hc & _) & Hf). rewrite Hbuf, app_nil_r in Hc. subst v.
  rewrite Hpath in *.
  assert (frame (eq (bw_path w)) m (alter (λ f, mkFile (f_data f) (f_data f)) (bw_path w) m')) as Hf'
    by (eapply frame_trans; [done | by apply frame_alter]).
  apply fwp_sync; [| done | done]. split; [| done]. by rewrite lookup_alter_eq, Hm.
Qed.

(** ** The manifest on the disk *)

Section manifest.
Context `{StoreEnv}.

(** The entries of a manifest: each is valid, and at its ordinal. *)
Definition numbered (entries : list ManifestEntry) : Prop :=
  ∀ i e, entries !! i = Some e →
    me_ordinal e = Z.of_nat i ∧ ManifestEntry_validate to_vec e = Ok tt.

Definition lines_of (entries : list ManifestEntry) (ls : list (list Z)) : Prop :=
  Forall2 (λ e l, to_vec e = Some l) entries ls.

Definition count_kind (kind : EntryKind) (entries : list ManifestEntry) : Z :=
  zlength (filter (λ e, me_kind e = kind) entries).
Definition total_size (entries : list ManifestEntry) : Z :=
  foldr (λ e n, me_size e + n) 0 entries.

(** A manifest that was committed, with its progress file. *)
Record committed (directory : path) (entries : list ManifestEntry) (ls : list (list Z))
    (progress : file) (m : filemap) : Prop := mkCommitted {
  c_lines_of : lines_of entries ls;
  c_numbered : numbered entries;
  c_manifest : m !! (directory ++ [MANIFEST_FILE])
    = Some (mkFile (manifest_bytes ls) (manifest_bytes ls));
  c_index : m !! (directory ++ [MANIFEST_INDEX_FILE])
    = Some (mkFile (index_bytes 0 ls) (index_bytes 0 ls));
  c_size : zlength (manifest_bytes ls) ≤ U64_MAX;
  c_progress : m !! (directory ++ [PROGRESS_FILE]) = Some progress;
  c_complete : ∃ c, m !! (directory ++ [MANIFEST_COMPLETE_FILE]) = Some (mkFile c c)
    ∧ from_slice c = Some (mkManifestComplete STORE_VERSION (zlength entries)
                             (sha256_hex (manifest_bytes ls)));
}.

(** The files a manifest is made of. *)
Definition manifest_files (directory : path) : list path :=
  (λ name, directory ++ [name])
    <$> [MANIFEST_FILE; MANIFEST_INDEX_FILE; PROGRESS_FILE; MANIFEST_COMPLETE_FILE].

Definition uncommitted (directory : path) (m : filemap) : Prop :=
  m !! (directory ++ [MANIFEST_COMPLETE_FILE]) = None.

(** Other files of the store are not touched. *)
Definition touches (directory : path) (q : path) : Prop :=
  dotted q ∨ q ∈ manifest_files directory.

Definition safe (directory : path) (m0 m : filemap) : Prop :=
  uncommitted directory m ∧ frame (touches directory) m0 m.

(** What a writer has taken so far. *)
Record mw_inv (directory : path) (batch : BatchRecord) (entries : list ManifestEntry)
    (ls : list (list Z)) (w : ManifestWriter) (m0 m : filemap) : Prop := mkMwInv {
  wi_directory : mw_directory w = directory;
  wi_file_path : bw_path (mw_file w) = directory ++ [MANIFEST_FILE];
  wi_index_path : bw_path (mw_index w) = directory ++ [MANIFEST_INDEX_FILE];
  wi_lines_of : lines_of entries ls;
  wi_numbered : numbered entries;
  wi_file : bw_holds (mw_file w) (manifest_bytes ls) m;
  wi_index : bw_holds (mw_index w) (index_bytes 0 ls) m;
  wi_next_ordinal : mw_next_ordinal w = zlength entries;
  wi_next_offset : mw_next_offset w = zlength (manifest_bytes ls);
  wi_fits : mw_next_offset w ≤ U64_MAX;
  wi_hasher : mw_hasher w = manifest_bytes ls;
  wi_expected : mw_expected_entry_count w = br_file_count batch + br_directory_count batch
    ∧ mw_expected_files w = br_file_count batch
    ∧ mw_expected_directories w = br_directory_count batch
    ∧ mw_expected_bytes w = br_total_bytes batch;
  wi_counts : mw_files w = count_kind File entries
    ∧ mw_directories w = count_kind Directory entries
    ∧ mw_bytes w = total_size entries;
  wi_ids : mw_entry_ids w = list_to_set (me_entry_id <$> entries) ∧ NoDup (me_entry_id <$> entries);
  wi_safe : safe directory m0 m;
}.

Lemma manifest_file_ne directory a b : a ≠ b → directory ++ [a : string] ≠ directory ++ [b].
Proof. intros Hab Heq. apply app_inj_tail in Heq as [_ ?]. congruence. Qed.

Lemma not_dotted directory name : head (bytes_of name) ≠ Some 46 → ¬ dotted (directory ++ [name]).
Proof. intros Hn. unfold dotted. by rewrite last_snoc. Qed.

Lemma touches_name directory name :
  name ∈ [MANIFEST_FILE; MANIFEST_INDEX_FILE; PROGRESS_FILE; MANIFEST_COMPLETE_FILE] →
  touches directory (directory ++ [name]).
Proof. intros Hn. right. unfold manifest_files. apply list_elem_of_fmap. eauto. Qed.

Lemma safe_frame directory S m0 m m' :
  safe directory m0 m → frame S m m' →
  (∀ p, S p → touches directory p) → ¬ S (directory ++ [MANIFEST_COMPLETE_FILE]) →
  safe directory m0 m'.
Proof.
  intros [Hu Hf] HS Hin Hc. split.
  - unfold uncommitted in *. by rewrite HS.
  - eapply frame_trans; [done |]. by eapply frame_mono.
Qed.

(** A change to one file of the manifest other than the completion record. *)
Lemma safe_one directory name m0 m m' :
  safe directory m0 m → frame (eq (directory ++ [name])) m m' →
  name ∈ [MANIFEST_FILE; MANIFEST_INDEX_FILE; PROGRESS_FILE] →
  safe directory m0 m'.
Proof.
  intros Hs Hf Hn. eapply safe_frame; [done | done | |].
  - intros p <-. apply touches_name. set_solver.
  - apply manifest_file_ne. intros ->. set_unfold in Hn. by destruct_or! Hn.
Qed.

Lemma lines_of_snoc entries ls e l :
  lines_of entries ls → to_vec e = Some l → lines_of (entries ++ [e]) (ls ++ [l]).
Proof. intros. apply Forall2_app; [done | by constructor]. Qed.

Lemma lines_of_no_newline entries ls : lines_of entries ls → Forall (λ l, 10 ∉ l) ls.
Proof.
  induction 1 as [|e l es ls Hl _ IH]; [done |].
  constructor; [exact (to_vec_no_newline _ _ Hl) | done].
Qed.

Lemma numbered_snoc entries e :
  numbered entries → me_ordinal e = zlength entries → ManifestEntry_validate to_vec e = Ok tt →
  numbered (entries ++ [e]).
Proof.
  intros Hn Ho Hv i e' He. apply lookup_app_Some in He as [He | [Hi He]]; [by apply Hn |].
  apply list_lookup_singleton_Some in He as [Hi' <-]. split; [| done].
  rewrite Ho. unfold zlength. f_equal. lia.
Qed.

Lemma total_size_snoc entries e : total_size (entries ++ [e]) = total_size entries + me_size e.
Proof. unfold total_size. induction entries as [|x l IH]; cbn in *; lia. Qed.

Lemma count_kind_snoc kind entries e :
  count_kind kind (entries ++ [e])
  = count_kind kind entries + (if bool_decide (me_kind e = kind) then 1 else 0).
Proof.
  unfold count_kind. rewrite filter_app, zlength_app. f_equal. rewrite filter_cons, filter_nil.
  by repeat case_decide; rewrite ?bool_decide_true, ?bool_decide_false by done.
Qed.

(** The checks are pure steps. *)
Lemma fwp_check b message (Q : unit → filemap → Prop) (E : filemap → Prop) m :
  (b = false → Q tt m) → E m → fwp (check b message) Q E m.
Proof. intros HQ HE. destruct b; [by apply fwp_fail | by apply fwp_ret, HQ]. Qed.

Lemma fwp_io_err {E' A} (r : result E' A) message (Q : A → filemap → Prop) (E : filemap → Prop) m :
  (∀ a, r = Ok a → Q a m) → E m → fwp (io_err r message) Q E m.
Proof. intros HQ HE. apply fwp_lift; [| done]. intros a. destruct r; [| done]. intros [= <-]. by apply HQ. Qed.

Lemma fwp_checked o message (Q : Z → filemap → Prop) (E : filemap → Prop) m :
  (∀ z, o = Some z → Q z m) → E m → fwp (checked o message) Q E m.
Proof. intros HQ HE. apply fwp_lift; [| done]. intros a. destruct o; [| done]. intros [= <-]. by apply HQ. Qed.

Lemma fwp_to_json {A} `{Json A} (a : A) (Q : list Z → filemap → Prop) (E : filemap → Prop) m :
  (∀ l, to_vec a = Some l → Q l m) → E m → fwp (to_json a) Q E m.
Proof. intros HQ HE. apply fwp_lift; [| done]. intros l. destruct (to_vec a); [| done]. intros [= <-]. by apply HQ. Qed.

Lemma fwp_of_json {A} `{Json A} l (Q : A → filemap → Prop) (E : filemap → Prop) m :
  (∀ a, from_slice l = Some a → Q a m) → E m → fwp (of_json l) Q E m.
Proof. intros HQ HE. apply fwp_lift; [| done]. intros a. destruct (from_slice l); [| done]. intros [= <-]. by apply HQ. Qed.

Lemma fwp_append_entry directory batch entries ls w e (m0 m : filemap) :
  mw_inv directory batch entries ls w m0 m →
  fwp (ManifestWriter_append w e)
    (λ w' m', ∃ line, mw_inv directory batch (entries ++ [e]) (ls ++ [line]) w' m0 m')
    (safe directory m0) m.
Proof.
  intros [Hdir Hfp Hip Hls Hnum Hfile Hindex Hno Hnoff Hfits Hhash Hexp Hcnt [Hids Hnd] Hsafe].
  unfold ManifestWriter_append.
  apply fwp_bind, fwp_io_err; [intros [] Hvalid | done].
  apply fwp_bind, fwp_check; [intros Hord; bool_to_prop | done].
  apply fwp_bind, fwp_check; [intros Hid; bool_to_prop | done].
  apply fwp_bind, fwp_checked; [intros bytes Hbytes | done].
  apply checked_add64_Some in Hbytes as [-> Hbytes].
  apply fwp_bind, fwp_check; [intros Htot | done].
  apply fwp_bind, fwp_to_json; [intros line Hline | done].
  apply fwp_bind. eapply fwp_mono; [by apply fwp_bw_write_all | |].
  2: { intros m' Hf. rewrite Hip in Hf. eapply safe_one; [done | done | set_solver]. }
  intros index m1 (Hip1 & Hindex1 & Hf1). rewrite Hip in Hip1, Hf1.
  assert (safe directory m0 m1) as Hsafe1 by (eapply safe_one; [done | done | set_solver]).
  apply fwp_bind. eapply fwp_mono; [eapply fwp_bw_write_all | |].
  { eapply bw_holds_frame; [exact Hf1 | | exact Hfile]. rewrite Hfp. by apply manifest_file_ne. }
  2: { intros m' Hf. rewrite Hfp in Hf. eapply safe_one; [exact Hsafe1 | done | set_solver]. }
  intros f m2 (Hfp2 & Hfile2 & Hf2). rewrite Hfp in Hfp2, Hf2.
  assert (safe directory m0 m2) as Hsafe2 by (eapply safe_one; [exact Hsafe1 | done | set_solver]).
  apply fwp_bind, fwp_checked; [intros next Hnext | done].
  apply checked_add64_Some in Hnext as [-> Hnext].
  apply fwp_ret. exists line. split; cbn.
  - done.
  - done.
  - done.
  - by apply lines_of_snoc.
  - apply numbered_snoc; [done | | done]. congruence.
  - by rewrite manifest_bytes_snoc.
  - rewrite index_bytes_snoc, Z.add_0_l, <- Hnoff.
    eapply bw_holds_frame; [exact Hf2 | | done]. rewrite Hip1. by apply manifest_file_ne.
  - rewrite zlength_app. unfold zlength at 2. cbn. lia.
  - rewrite manifest_bytes_snoc, (zlength_app (manifest_bytes _)). lia.
  - done.
  - by rewrite manifest_bytes_snoc, Hhash.
  - done.
  - destruct Hcnt as (-> & -> & ->). rewrite !count_kind_snoc, total_size_snoc.
    split_and!; [destruct (me_kind e); repeat case_bool_decide; try done; lia.. | done].
  - rewrite fmap_app, list_to_set_app_L, Hids. cbn. split; [set_solver |].
    apply NoDup_app. split_and!; [done | | apply NoDup_singleton].
    intros x Hx ->%list_elem_of_singleton. apply Hid. rewrite Hids. by apply elem_of_list_to_set.
  - done.
Qed.

(** ** A manifest is written as a whole or not at all *)

Definition batch_valid (b : BatchRecord) : Prop := ∀ d, BatchRecord_validate b d = (Ok tt, d).

(** The record of a batch, as [load_batch] accepts it. *)
Definition batch_on_disk (batch_id : string) (b : BatchRecord) (m : filemap) : Prop :=
  ∃ f, m !! (store_root ++ [batch_id] ++ [BATCH_FILE]) = Some f ∧ from_slice (f_data f) = Some b
    ∧ batch_valid b ∧ br_batch_id b = batch_id.

Lemma fwp_validate b (Q : unit → filemap → Prop) (E : filemap → Prop) m :
  (batch_valid b → Q tt m) → E m → fwp (BatchRecord_validate b) Q E m.
Proof.
  intros HQ HE. unfold BatchRecord_validate. apply fwp_check; [| done].
  intros Hb. apply HQ. intros d. unfold BatchRecord_validate. by rewrite Hb.
Qed.

Lemma fwp_batch_dir batch_id (Q : path → filemap → Prop) (E : filemap → Prop) m :
  (validate_batch_id batch_id = Ok tt → Q (store_root ++ [batch_id]) m) → E m →
  fwp (batch_dir batch_id) Q E m.
Proof.
  intros HQ HE. apply fwp_bind, fwp_io_err; [| done]. intros [] Hv. by apply fwp_ret, HQ.
Qed.

Lemma fwp_load_batch batch_id (Q : BatchRecord → filemap → Prop) (E : filemap → Prop) m :
  (∀ b, batch_on_disk batch_id b m → Q b m) → E m → fwp (load_batch batch_id) Q E m.
Proof.
  intros HQ HE. unfold load_batch.
  apply fwp_bind, fwp_batch_dir; [intros _ | done].
  apply fwp_bind, fwp_read; [intros f Hf | done].
  apply fwp_bind, fwp_of_json; [intros b Hb | done].
  apply fwp_bind, fwp_validate; [intros Hv | done].
  apply fwp_bind, fwp_check; [intros Hid; bool_to_prop | done].
  apply fwp_ret, HQ. exists f. by rewrite app_assoc.
Qed.

Lemma batch_on_disk_fun batch_id b b' m :
  batch_on_disk batch_id b m → batch_on_disk batch_id b' m → b = b'.
Proof. intros (f & Hf & Hb & _) (f' & Hf' & Hb' & _). congruence. Qed.

Lemma safe_delete directory name m0 m :
  safe directory m0 m →
  name ∈ [MANIFEST_FILE; MANIFEST_INDEX_FILE; PROGRESS_FILE; MANIFEST_COMPLETE_FILE] →
  safe directory m0 (delete (directory ++ [name]) m).
Proof.
  intros [Hu Hf] Hn. split.
  - unfold uncommitted in *. rewrite lookup_delete_None. by right.
  - eapply frame_trans; [done |]. by apply frame_delete, touches_name.
Qed.

Lemma fwp_remove_safe directory name (Q : unit → filemap → Prop) (m0 m : filemap) :
  safe directory m0 m →
  name ∈ [MANIFEST_FILE; MANIFEST_INDEX_FILE; PROGRESS_FILE; MANIFEST_COMPLETE_FILE] →
  (safe directory m0 (delete (directory ++ [name]) m) → Q tt (delete (directory ++ [name]) m)) →
  fwp (remove_if_exists (directory ++ [name])) Q (safe directory m0) m.
Proof.
  intros Hs Hn HQ. pose proof (safe_delete _ _ _ _ Hs Hn).
  apply fwp_remove_if_exists; auto.
Qed.

Lemma fwp_create_safe directory name (Q : unit → filemap → Prop) (m0 m : filemap) :
  safe directory m0 m → name ∈ [MANIFEST_FILE; MANIFEST_INDEX_FILE; PROGRESS_FILE] →
  (safe directory m0 (<[directory ++ [name] := mkFile [] []]> m) →
   Q tt (<[directory ++ [name] := mkFile [] []]> m)) →
  fwp (create_new (directory ++ [name])) Q (safe directory m0) m.
Proof.
  intros Hs Hn HQ. apply fwp_create_new; [| done]. intros _.
  assert (safe directory m0 (<[directory ++ [name] := mkFile [] []]> m))
    by (eapply safe_one; [done | by apply frame_insert | done]). auto.
Qed.

Lemma fwp_begin_manifest batch_id batch (m : filemap) :
  batch_on_disk batch_id batch m → uncommitted (store_root ++ [batch_id]) m →
  fwp (begin_manifest batch_id) (λ w m', mw_inv (store_root ++ [batch_id]) batch [] [] w m m')
    (safe (store_root ++ [batch_id]) m) m.
Proof.
  intros Hbatch Hun. set (directory := store_root ++ [batch_id]) in *.
  assert (safe directory m m) as Hsafe by (split; [done | apply frame_refl]).
  unfold begin_manifest.
  apply fwp_bind, fwp_load_batch; [intros b Hb | done].
  rewrite (batch_on_disk_fun _ _ _ _ Hb Hbatch). clear b Hb.
  apply fwp_bind, fwp_checked; [intros n Hn | done]. apply checked_add64_Some in Hn as [-> _].
  apply fwp_bind, fwp_batch_dir; [intros _ | done]. fold directory.
  assert (∀ complete, fwp
    (_ ← check complete "manifest already committed";
     _ ← remove_if_exists (directory ++ [MANIFEST_FILE]);
     _ ← remove_if_exists (directory ++ [MANIFEST_INDEX_FILE]);
     _ ← remove_if_exists (directory ++ [PROGRESS_FILE]);
     _ ← remove_if_exists (directory ++ [MANIFEST_COMPLETE_FILE]);
     _ ← create_new (directory ++ [MANIFEST_FILE]);
     _ ← create_new (directory ++ [MANIFEST_INDEX_FILE]);
     mret (mkManifestWriter directory
             (BufWriter_new (directory ++ [MANIFEST_FILE]) (512 * 1024))
             (BufWriter_new (directory ++ [MANIFEST_INDEX_FILE]) (64 * 1024))
             0 (br_file_count batch + br_directory_count batch) (br_file_count batch)
             (br_directory_count batch) (br_total_bytes batch) 0 0 0 ∅ 0 []))
    (λ w m', mw_inv directory batch [] [] w m m') (safe directory m) m) as Hrest.
  { intros complete. apply fwp_bind, fwp_check; [intros _ | done].
    apply fwp_bind, fwp_remove_safe; [done | set_solver |]. intros Hs1.
    apply fwp_bind, fwp_remove_safe; [done | set_solver |]. intros Hs2.
    apply fwp_bind, fwp_remove_safe; [done | set_solver |]. intros Hs3.
    apply fwp_bind, fwp_remove_safe; [done | set_solver |]. intros Hs4.
    apply fwp_bind, fwp_create_safe; [done | set_solver |]. intros Hs5.
    apply fwp_bind, fwp_create_safe; [done | set_solver |]. intros Hs6.
    apply fwp_ret. split; try done; cbn.
    - constructor.
    - exists [], []. cbn. split_and!; [| done..].
      rewrite lookup_insert_ne by (by apply manifest_file_ne). by rewrite lookup_insert_eq.
    - exists [], []. cbn. split_and!; [| done..]. by rewrite lookup_insert_eq.
    - split; [done | constructor]. }
  unfold manifest_is_complete. apply fwp_bind, fwp_bind, fwp_attempt.
  eapply (fwp3_mono _ (λ _ m', m' = m) _ (λ m', m' = m) _ (λ m', m' = m)); [| | |by intros m' ->].
  { apply fwp_bind, fwp_batch_dir; [intros _ | done].
    apply fwp_bind, fwp_read; [intros f _ | done].
    apply fwp_bind, fwp_of_json; [intros a _ | done].
    apply fwp_bind, fwp_check; [intros _ | done]. by apply fwp_ret. }
  - intros a m' ->. apply fwp_ret, Hrest.
  - intros m' ->. apply fwp_ret, Hrest.
Qed.

Lemma fwp_drop directory (m0 m : filemap) :
  safe directory m0 m → fwp (ManifestWriter_drop directory) (λ _, safe directory m0) (safe directory m0) m.
Proof.
  intros Hs. unfold ManifestWriter_drop.
  assert (∀ name m', safe directory m0 m' →
    name ∈ [MANIFEST_FILE; MANIFEST_INDEX_FILE; PROGRESS_FILE; MANIFEST_COMPLETE_FILE] →
    fwp (ignore (remove_file (directory ++ [name]))) (λ _, safe directory m0) (safe directory m0) m') as Hone.
  { intros name m' Hs' Hn. apply fwp_ignore, fwp_remove_file; [| done].
    intros _. by split; apply safe_delete. }
  apply fwp_bind. eapply fwp_mono; [apply Hone; [done | set_solver] | | done]. intros ? m1 H1.
  apply fwp_bind. eapply fwp_mono; [apply Hone; [done | set_solver] | | done]. intros ? m2 H2.
  apply fwp_bind. eapply fwp_mono; [apply Hone; [done | set_solver] | | done]. intros ? m3 H3.
  apply Hone; [done | set_solver].
Qed.

(** The totals of the batch are those of the entries. *)
Definition totals_match (batch : BatchRecord) (entries : list ManifestEntry) : Prop :=
  br_file_count batch = count_kind File entries
  ∧ br_directory_count batch = count_kind Directory entries
  ∧ br_total_bytes batch = total_size entries.

Definition all_written (directory : path) (batch : BatchRecord) (entries : list ManifestEntry)
    (m0 m : filemap) : Prop :=
  (∃ ls, committed directory entries ls (mkFile [] []) m) ∧ totals_match batch entries
  ∧ NoDup (me_entry_id <$> entries) ∧ frame (touches directory) m0 m.

Lemma fwp_finish directory batch entries ls w (m0 m : filemap) :
  mw_inv directory batch entries ls w m0 m →
  fwp3 (ManifestWriter_finish w) (λ n m', n = zlength entries ∧ all_written directory batch entries m0 m')
    (safe directory m0) (λ m', safe directory m0 m' ∨ all_written directory batch entries m0 m') m.
Proof.
  intros [Hdir Hfp Hip Hls Hnum Hfile Hindex Hno Hnoff Hfits Hhash Hexp Hcnt [Hids Hnd] Hsafe].
  unfold ManifestWriter_finish. apply fwp_on_error.
  eapply (fwp3_mono _ (λ n m', n = zlength entries ∧ all_written directory batch entries m0 m') _ (safe directory m0) _
            (λ m', safe directory m0 m' ∨ all_written directory batch entries m0 m')); [| done | | done].
  2: { intros m' Hm'. rewrite Hdir. eapply fwp3_mono; [by apply fwp_drop | done | done | by left]. }
  assert (∀ A (c : io A) Q m', fwp c Q (safe directory m0) m' →
    fwp3 c Q (safe directory m0) (λ m', safe directory m0 m' ∨ all_written directory batch entries m0 m') m')
    as Hw by (intros A c Q m' Hc; eapply fwp3_mono; [exact Hc | done | done | by left]).
  apply fwp_bind, Hw, fwp_check; [intros Hchk; bool_to_prop | done].
  apply fwp_bind, Hw. eapply fwp_mono; [by apply fwp_flush_and_sync | |].
  2: { intros m' Hf. rewrite Hfp in Hf. eapply safe_one; [done | done | set_solver]. }
  intros _ m1 [Hm1 Hf1]. rewrite Hfp in *.
  assert (safe directory m0 m1) as Hs1 by (eapply safe_one; [done | done | set_solver]).
  apply fwp_bind, Hw. eapply fwp_mono; [eapply fwp_flush_and_sync | |].
  { eapply bw_holds_frame; [exact Hf1 | | exact Hindex]. rewrite Hip. by apply manifest_file_ne. }
  2: { intros m' Hf. rewrite Hip in Hf. eapply safe_one; [exact Hs1 | done | set_solver]. }
  intros _ m2 [Hm2 Hf2]. rewrite Hip in *.
  assert (safe directory m0 m2) as Hs2 by (eapply safe_one; [exact Hs1 | done | set_solver]).
  assert (m2 !! (directory ++ [MANIFEST_FILE]) = Some (mkFile (manifest_bytes ls) (manifest_bytes ls))) as Hm12
    by (rewrite Hf2; [done | by apply manifest_file_ne]).
  apply fwp_bind. unfold initialize_progress. rewrite Hdir.
  apply fwp_bind, Hw, fwp_checked; [intros n _ | done].
  apply fwp_bind, Hw, fwp_create_safe; [done | set_solver | intros Hs3].
  set (m3 := <[directory ++ [PROGRESS_FILE] := mkFile [] []]> m2) in *.
  assert (alter (λ f, mkFile (f_data f) (f_data f)) (directory ++ [PROGRESS_FILE]) m3 = m3) as Hm3
    by (unfold m3; by rewrite alter_insert_eq).
  apply Hw, fwp_sync; rewrite ?Hm3; [| done | done].
  apply fwp_bind, Hw, fwp_to_json; [intros contents Hjson | done].
  assert (∀ m', same_visible (<[directory ++ [MANIFEST_COMPLETE_FILE] := mkFile contents contents]> m3) m' →
    all_written directory batch entries m0 m') as Hdone.
  { intros m' Hm'.
    assert (∀ name f, name ∈ [MANIFEST_FILE; MANIFEST_INDEX_FILE; PROGRESS_FILE] →
      m3 !! (directory ++ [name]) = f → m' !! (directory ++ [name]) = f) as Hkeep.
    { intros name f Hn <-. rewrite Hm'.
      - rewrite lookup_insert_ne; [done |]. apply manifest_file_ne.
        intros <-. set_unfold in Hn. by destruct_or! Hn.
      - apply not_dotted. set_unfold in Hn. by destruct_or! Hn; subst. }
    destruct Hexp as (He1 & He2 & He3 & He4). destruct Hcnt as (Hc1 & Hc2 & Hc3).
    split_and!; [exists ls; split | | done |].
    - done.
    - done.
    - apply Hkeep; [set_solver |]. unfold m3.
      rewrite lookup_insert_ne; [done | by apply manifest_file_ne].
    - apply Hkeep; [set_solver |]. unfold m3.
      rewrite lookup_insert_ne; [done | by apply manifest_file_ne].
    - congruence.
    - apply Hkeep; [set_solver |]. unfold m3. by rewrite lookup_insert_eq.
    - exists contents. rewrite Hm' by (by apply not_dotted). rewrite lookup_insert_eq.
      split; [done |]. apply from_slice_to_vec. by rewrite Hno, Hhash in Hjson.
    - unfold totals_match. split_and!; congruence.
    - eapply frame_trans; [apply Hs3 |].
      apply (frame_trans _ _ (<[directory ++ [MANIFEST_COMPLETE_FILE] := mkFile contents contents]> m3)).
      { apply frame_insert, touches_name. set_solver. }
      eapply frame_mono; [| exact Hm']. intros p Hp. by left. }
  apply fwp_bind. apply fwp_write.
  - intros m' Hm'. split; [apply fwp_ret; split; [done | by apply Hdone] | right; by apply Hdone].
  - intros m' Hm'. assert (safe directory m0 m'); [| by split; [| left]].
    eapply safe_frame; [exact Hs3 | done | by left | by apply not_dotted].
Qed.

(** ** A committed manifest reads back *)

(** [visit] on every entry, in order. *)
Fixpoint visit_all {Acc} (visit : ManifestEntry → Acc → io Acc) (entries : list ManifestEntry)
    (acc : Acc) : io Acc :=
  match entries with
  | [] => mret acc
  | entry :: entries => acc ← visit entry acc; visit_all visit entries acc
  end.

Lemma for_each_line_entries {Acc} (visit : ManifestEntry → Acc → io Acc) entries ls ordinal hashed acc d :
  lines_of entries ls →
  (∀ i e, entries !! i = Some e →
     me_ordinal e = ordinal + Z.of_nat i ∧ ManifestEntry_validate to_vec e = Ok tt) →
  for_each_line visit ((λ l, l ++ [10]) <$> ls) ordinal hashed acc d
  = (acc ← visit_all visit entries acc;
     mret (ordinal + zlength entries, hashed ++ manifest_bytes ls, acc)) d.
Proof.
  intros Hls. revert ordinal hashed acc d.
  induction Hls as [|e l entries ls Hl Hls IH]; intros ordinal hashed acc d Hn.
  { cbn. by rewrite app_nil_r, Z.add_0_r. }
  destruct (Hn 0%nat e eq_refl) as [Ho Hv]. rewrite Z.add_0_r in Ho.
  cbn [fmap list_fmap for_each_line visit_all]. rewrite strip_newline_snoc.
  unfold of_json. rewrite (from_slice_to_vec _ _ Hl).
  erewrite sr_bind_Ok by done. unfold io_err. rewrite Hv. erewrite sr_bind_Ok by done.
  rewrite Ho, Z.eqb_refl. cbn [negb check]. erewrite sr_bind_Ok by done.
  rewrite zlength_cons, manifest_bytes_cons. unfold mbind, sr_bind.
  destruct (visit e acc d) as [[acc'|err] d']; [| done].
  rewrite (IH (ordinal + 1)).
  - unfold mbind, sr_bind. destruct (visit_all visit entries acc' d') as [[acc2|err] d2]; [| done].
    rewrite <- !app_assoc, <- Z.add_assoc, (Z.add_comm 1). done.
  - intros i e' He. destruct (Hn (S i) e' He) as [Ho' Hv']. split; [lia | done].
Qed.

Section reading.
Context (batch_id : string) (entries : list ManifestEntry) (ls : list (list Z)) (progress : file).
Notation directory := (store_root ++ [batch_id]).
Context (Hid : validate_batch_id batch_id = Ok tt).

(** What the reading functions ask of the disk. *)
Definition readable (d : disk) : Prop := quiet d ∧ committed directory entries ls progress (d_files d).

Lemma batch_dir_ok d : batch_dir batch_id d = (Ok directory, d).
Proof. unfold batch_dir, io_err, mbind, sr_bind. by rewrite Hid. Qed.

Lemma read_manifest_complete_quiet d :
  readable d → read_manifest_complete directory d
    = (Ok (mkManifestComplete STORE_VERSION (zlength entries) (sha256_hex (manifest_bytes ls))), d).
Proof.
  intros [Hq Hc]. destruct (c_complete _ _ _ _ _ Hc) as (c & Hf & Hjson).
  unfold read_manifest_complete. erewrite sr_bind_Ok by (by apply read_quiet). cbn [f_data].
  unfold of_json. rewrite Hjson. erewrite sr_bind_Ok by done.
  cbn [mc_store_version mc_sha256]. by rewrite sha256_hex_valid.
Qed.

Lemma manifest_is_complete_quiet d : readable d → manifest_is_complete batch_id d = (Ok true, d).
Proof.
  intros Hr. unfold manifest_is_complete, attempt, mbind, sr_bind.
  by rewrite batch_dir_ok, read_manifest_complete_quiet.
Qed.

Lemma for_each_committed {Acc} (visit : ManifestEntry → Acc → io Acc) acc d :
  readable d →
  for_each_manifest_entry visit batch_id acc d
  = (acc ← visit_all visit entries acc; mret (zlength entries, acc)) d.
Proof.
  intros Hr. pose proof Hr as [Hq Hc]. unfold for_each_manifest_entry.
  erewrite sr_bind_Ok by apply batch_dir_ok.
  erewrite sr_bind_Ok by (by apply read_manifest_complete_quiet).
  erewrite sr_bind_Ok by (by apply read_quiet; [| apply Hc]). cbn [f_data].
  rewrite split_lines_manifest by (eapply lines_of_no_newline, Hc).
  unfold mbind at 1, sr_bind at 1.
  rewrite (for_each_line_entries visit entries ls) by apply Hc.
  unfold mbind, sr_bind. destruct (visit_all visit entries acc d) as [[acc'|e] d']; [| done].
  cbn. rewrite Z.eqb_refl. by rewrite bool_decide_true by done.
Qed.

(** Reading a manifest. On a manifest that was committed, going through the
    file calls the visitor on exactly the entries that were written, in their
    order, whatever the visitor does, and then finds the count and the hash of
    the completion record. *)
Theorem manifest_reads_back {Acc} (visit : ManifestEntry → Acc → io Acc) acc d :
  readable d →
  for_each_manifest_entry visit batch_id acc d
  = (acc ← visit_all visit entries acc; mret (zlength entries, acc)) d.
Proof. apply for_each_committed. Qed.

Lemma lines_of_lookup i e : lines_of entries ls → entries !! i = Some e →
  ∃ l, ls !! i = Some l ∧ to_vec e = Some l ∧ 10 ∉ l.
Proof.
  intros Hl Hi. destruct (Forall2_lookup_l _ _ _ _ _ Hl Hi) as (l & Hli & He).
  exists l. split_and!; [done | done | exact (to_vec_no_newline _ _ He)].
Qed.

Lemma zlength_entries i : zlength entries <=? Z.of_nat i = bool_decide (entries !! i = None).
Proof.
  unfold zlength. case_bool_decide as Hi.
  - apply lookup_ge_None in Hi. apply Z.leb_le. lia.
  - apply Z.leb_gt. assert (¬ (length entries ≤ i)%nat); [| lia]. by rewrite <- lookup_ge_None.
Qed.

Lemma index_bytes_length o k : length (index_bytes o k) = (8 * length k)%nat.
Proof. revert o. induction k as [|l k IH]; intros o; cbn [index_bytes length]; [done |].
  rewrite length_app, to_le_bytes_length, IH. lia. Qed.

(** The offset of an entry's line. *)
Lemma index_offset i d :
  readable d → (i < length entries)%nat →
  let encoded := take 8 (drop (Z.to_nat (Z.of_nat i * 8)) (index_bytes 0 ls)) in
  zlength encoded = 8 ∧ Z.to_nat (from_le_bytes encoded) = length (manifest_bytes (take i ls)).
Proof.
  intros [_ Hc] Hi encoded. subst encoded.
  assert (length ls = length entries) as Hlen by (symmetry; eapply Forall2_length, Hc).
  replace (Z.to_nat (Z.of_nat i * 8)) with (8 * i)%nat by lia.
  rewrite index_bytes_lookup by lia. rewrite Z.add_0_l.
  assert (zlength (manifest_bytes (take i ls)) ≤ U64_MAX) as Hle.
  { pose proof (c_size _ _ _ _ _ Hc) as Hsize. rewrite <- (take_drop i ls) in Hsize.
    rewrite manifest_bytes_app, zlength_app in Hsize.
    pose proof (zlength_nonneg (manifest_bytes (drop i ls))). lia. }
  rewrite from_to_le_bytes.
  - unfold zlength. rewrite to_le_bytes_length. split; [done | lia].
  - rewrite U64_MAX_bytes in Hle. pose proof (zlength_nonneg (manifest_bytes (take i ls))). lia.
Qed.

(** The lookup through the index finds the entry, or refuses the ordinal. *)
Lemma manifest_entry_quiet i d :
  readable d → Z.of_nat i * 8 ≤ U64_MAX →
  manifest_entry batch_id (Z.of_nat i) d
  = (match entries !! i with
     | Some e => Ok e
     | None => Err (InvalidData "manifest ordinal is outside the batch")
     end, d).
Proof.
  intros Hr Hfit. pose proof Hr as [Hq Hc]. unfold manifest_entry.
  erewrite sr_bind_Ok by apply batch_dir_ok.
  erewrite sr_bind_Ok by (by apply read_manifest_complete_quiet). cbn [mc_entry_count].
  rewrite zlength_entries. destruct (entries !! i) as [e|] eqn:Hi; cbn [bool_decide].
  2: { rewrite bool_decide_true by done. done. }
  rewrite bool_decide_false by done. cbn [check].
  erewrite sr_bind_Ok by done.
  erewrite sr_bind_Ok by (by apply read_quiet; [| apply Hc]). cbn [f_data].
  unfold checked, checked_mul64. rewrite (proj2 (Z.ltb_ge _ _)) by done.
  erewrite sr_bind_Ok by done.
  pose proof (lookup_lt_Some _ _ _ Hi) as Hlt.
  destruct (index_offset i d Hr Hlt) as [Hz Hoff]. rewrite Hz, Hoff.
  erewrite sr_bind_Ok by done.
  erewrite sr_bind_Ok by (by apply read_quiet; [| apply Hc]). cbn [f_data].
  destruct (lines_of_lookup i e (c_lines_of _ _ _ _ _ Hc) Hi) as (l & Hli & Hjson & Hnl).
  rewrite (manifest_bytes_drop _ _ _ Hli Hnl), strip_newline_snoc.
  unfold of_json. rewrite (from_slice_to_vec _ _ Hjson).
  destruct (c_numbered _ _ _ _ _ Hc i e Hi) as [Ho Hv].
  erewrite sr_bind_Ok by done. unfold io_err. rewrite Hv.
  erewrite sr_bind_Ok by done. rewrite Ho, Z.eqb_refl. done.
Qed.

(** C33. The index of a manifest. On a committed manifest, reading the file from
    its beginning gives a list of entries, and looking an ordinal up through the
    index of line offsets gives the entry at that place of the list, and the
    error of an ordinal outside the batch past its end. *)
Theorem index_agrees_with_scan d :
  readable d →
  ∃ es, for_each_manifest_entry (λ e acc, mret (acc ++ [e])) batch_id [] d = (Ok (zlength es, es), d)
  ∧ ∀ i, Z.of_nat i * 8 ≤ U64_MAX →
      manifest_entry batch_id (Z.of_nat i) d
      = (match es !! i with
         | Some e => Ok e
         | None => Err (InvalidData "manifest ordinal is outside the batch")
         end, d).
Proof.
  intros Hr. exists entries. split; [| intros i; by apply manifest_entry_quiet].
  pose proof Hr as [Hq Hc]. unfold for_each_manifest_entry.
  erewrite sr_bind_Ok by apply batch_dir_ok.
  erewrite sr_bind_Ok by (by apply read_manifest_complete_quiet).
  erewrite sr_bind_Ok by (by apply read_quiet; [| apply Hc]). cbn [f_data].
  rewrite split_lines_manifest by (eapply lines_of_no_newline, Hc).
  assert (∀ k acc, visit_all (λ e acc, mret (acc ++ [e])) k acc d = (Ok (acc ++ k), d)) as Hall.
  { induction k as [|e k IH]; intros acc; cbn; [by rewrite app_nil_r |].
    unfold mbind, sr_bind. cbn. rewrite IH. by rewrite <- app_assoc. }
  erewrite sr_bind_Ok.
  2: { rewrite (for_each_line_entries _ entries ls) by apply Hc.
       erewrite sr_bind_Ok by apply Hall. done. }
  cbn. rewrite Z.eqb_refl. by rewrite bool_decide_true by done.
Qed.

(** ** The progress of an entry *)

(** What the progress file says of the record at [i]. *)
Definition progress_at (data : list Z) (i : nat) : result io_error EntryProgress :=
  record ← read_record data (Z.of_nat i * 16);
  decode_progress (default (replicate 16 0) record).

Lemma read_progress_quiet i d :
  readable d → (i < length entries)%nat → Z.of_nat i * 16 ≤ U64_MAX →
  read_progress batch_id (Z.of_nat i) d = (progress_at (f_data progress) i, d).
Proof.
  intros Hr Hi Hfit. pose proof Hr as [Hq Hc]. unfold read_progress.
  erewrite sr_bind_Ok by apply batch_dir_ok.
  erewrite sr_bind_Ok by (by apply read_manifest_complete_quiet). cbn [mc_entry_count].
  rewrite zlength_entries, bool_decide_false by (rewrite lookup_ge_None; lia). cbn [check].
  erewrite sr_bind_Ok by done.
  erewrite sr_bind_Ok by (by apply read_quiet; [| apply Hc]).
  unfold checked, checked_mul64, PROGRESS_RECORD_BYTES. rewrite (proj2 (Z.ltb_ge _ _)) by done.
  erewrite sr_bind_Ok by done. unfold progress_at, mbind, sr_bind, sr_lift.
  by destruct (read_record _ _).
Qed.
End reading.
End manifest.

(** A record of an aligned file. *)
Definition record_at (data : list Z) (i : nat) : list Z := take 16 (drop (16 * i) data).

Lemma progress_at_aligned data i k :
  length data = (16 * k)%nat →
  progress_at data i = decode_progress (if decide (i < k)%nat then record_at data i else replicate 16 0).
Proof.
  intros Hlen. unfold progress_at, read_record, record_at.
  replace (Z.to_nat (Z.of_nat i * 16)) with (16 * i)%nat by lia. unfold zlength.
  rewrite length_take, length_drop, Hlen. case_decide.
  - rewrite Nat.min_l by lia. done.
  - rewrite Nat.min_r by lia. by replace (16 * k - 16 * i)%nat with 0%nat by lia.
Qed.

Lemma overwrite_length l i data k :
  length l = (16 * k)%nat → length data = 16%nat →
  length (overwrite l (16 * i) data) = (16 * (k `max` S i))%nat.
Proof.
  intros Hl Hd. unfold overwrite.
  rewrite !length_app, length_take, length_app, length_replicate, length_drop. lia.
Qed.

Lemma overwrite_lookup l o data n :
  overwrite l o data !! n
  = if decide (n < o)%nat then (if decide (n < length l)%nat then l !! n else Some 0)
    else if decide (n < o + length data)%nat then data !! (n - o)%nat else l !! n.
Proof.
  unfold overwrite. set (l' := l ++ replicate (o - length l) 0).
  assert (length (take o l') = o) as Ho
    by (unfold l'; rewrite length_take, length_app, length_replicate; lia).
  destruct (decide (n < o)%nat).
  - rewrite lookup_app_l, lookup_take_lt by lia. unfold l'. case_decide.
    + by rewrite lookup_app_l.
    + rewrite lookup_app_r, lookup_replicate_2 by lia. done.
  - rewrite lookup_app_r, Ho by lia. case_decide.
    + by rewrite lookup_app_l by lia.
    + rewrite lookup_app_r, lookup_drop by lia. f_equal. lia.
Qed.

Lemma record_at_lookup l i x :
  record_at l i !! x = if decide (x < 16)%nat then l !! (16 * i + x)%nat else None.
Proof.
  unfold record_at. case_decide.
  - by rewrite lookup_take_lt, lookup_drop by lia.
  - by rewrite lookup_take_ge by lia.
Qed.

Lemma record_at_overwrite l i data :
  length data = 16%nat → record_at (overwrite l (16 * i) data) i = data.
Proof.
  intros Hd. apply list_eq. intros x. rewrite record_at_lookup. case_decide as Hx.
  - rewrite overwrite_lookup. rewrite decide_False, decide_True by lia. f_equal. lia.
  - symmetry. apply lookup_ge_None. lia.
Qed.

Lemma record_at_overwrite_ne l i j data k :
  length l = (16 * k)%nat → length data = 16%nat → i ≠ j → (j < k `max` S i)%nat →
  record_at (overwrite l (16 * i) data) j
  = if decide (j < k)%nat then record_at l j else replicate 16 0.
Proof.
  intros Hl Hd Hne Hj. apply list_eq. intros x. rewrite record_at_lookup, overwrite_lookup, Hl, Hd.
  destruct (decide (j < k)%nat); rewrite ?record_at_lookup; repeat case_decide; try lia; try done.
  all: try (by rewrite lookup_replicate_2 by lia).
  all: symmetry; apply lookup_replicate_None; lia.
Qed.

Lemma progress_at_overwrite l i j k p :
  length l = (16 * k)%nat → progress_ok p →
  progress_at (overwrite l (16 * i) (encode_progress p)) j
  = if decide (j = i) then Ok p else progress_at l j.
Proof.
  intros Hl Hp. pose proof (encode_progress_length p) as He.
  rewrite (progress_at_aligned _ _ (k `max` S i)) by (by apply overwrite_length).
  rewrite (progress_at_aligned l _ k) by done.
  destruct (decide (j = i)) as [->|Hne].
  - rewrite decide_True by lia. by rewrite record_at_overwrite, decode_encode_progress.
  - destruct (decide (j < k `max` S i)%nat).
    + by rewrite (record_at_overwrite_ne l i j _ k) by (done || lia).
    + by rewrite decide_False by lia.
Qed.

Section progress.
Context `{StoreEnv}.
Context (batch_id : string) (entries : list ManifestEntry) (ls : list (list Z)).
Context (Hid : validate_batch_id batch_id = Ok tt).
Notation directory := (store_root ++ [batch_id]).

Lemma committed_progress progress progress' m m' :
  committed directory entries ls progress m →
  frame (eq (directory ++ [PROGRESS_FILE])) m m' →
  m' !! (directory ++ [PROGRESS_FILE]) = Some progress' →
  committed directory entries ls progress' m'.
Proof.
  intros [H1 H2 H3 H4 H5 H6 (c & H7 & H8)] Hf Hp. split; try done.
  - by rewrite Hf by (by apply manifest_file_ne).
  - by rewrite Hf by (by apply manifest_file_ne).
  - exists c. by rewrite Hf by (by apply manifest_file_ne).
Qed.

(** On a committed manifest the record is written, and on the medium. *)
Lemma write_progress_quiet progress i p d :
  readable batch_id entries ls progress d → (i < length entries)%nat → zlength entries * 16 ≤ U64_MAX →
  let data := overwrite (f_data progress) (16 * i) (encode_progress p) in
  let d' := with_files <[directory ++ [PROGRESS_FILE] := mkFile data data]> d in
  write_progress batch_id (Z.of_nat i) p d = (Ok tt, d')
  ∧ readable batch_id entries ls (mkFile data data) d'.
Proof.
  intros Hr Hi Hfit data d'. pose proof Hr as [Hq Hc]. unfold zlength in Hfit. split.
  - unfold write_progress.
    erewrite sr_bind_Ok by (by apply batch_dir_ok).
    erewrite sr_bind_Ok by (by eapply read_manifest_complete_quiet). cbn [mc_entry_count].
    rewrite zlength_entries, bool_decide_false by (rewrite lookup_ge_None; lia). cbn [check].
    erewrite sr_bind_Ok by done.
    erewrite sr_bind_Ok by (by eapply open_existing_quiet; [| apply Hc]).
    unfold checked, checked_mul64, PROGRESS_RECORD_BYTES. rewrite (proj2 (Z.ltb_ge _ _)) by lia.
    erewrite sr_bind_Ok by done.
    erewrite sr_bind_Ok by (by apply write_at_quiet).
    rewrite sync_quiet by done. f_equal. unfold d'. destruct d as [dirs links files id sched halted].
    unfold with_files. cbn [d_files d_dirs d_links d_temp_id d_schedule d_halted]. f_equal.
    replace (Z.to_nat (Z.of_nat i * 16)) with (16 * i)%nat by lia.
    cbn [d_files] in Hc. rewrite <- (insert_id files (directory ++ [PROGRESS_FILE]) progress) at 1 by apply Hc.
    by rewrite !alter_insert_eq.
  - split; [done |]. eapply committed_progress; [exact Hc | | apply lookup_insert_eq].
    by apply frame_insert.
Qed.

(** Progress is kept per entry. On a committed manifest whose progress file
    is a whole number of records, writing the progress of an entry succeeds, is
    on the medium when it returns, and changes no other file; afterwards that
    entry reads back as what was written and every other entry of the batch as
    before, also those whose record the file did not have yet. *)
Theorem progress_is_per_entry progress k i p d :
  readable batch_id entries ls progress d → length (f_data progress) = (16 * k)%nat →
  (i < length entries)%nat → zlength entries * 16 ≤ U64_MAX → progress_ok p →
  ∃ data' d', write_progress batch_id (Z.of_nat i) p d = (Ok tt, d')
    ∧ readable batch_id entries ls (mkFile data' data') d'
    ∧ length data' = (16 * (k `max` S i))%nat
    ∧ frame (eq (directory ++ [PROGRESS_FILE])) (d_files d) (d_files d')
    ∧ ∀ j, (j < length entries)%nat →
        read_progress batch_id (Z.of_nat j) d'
        = (if decide (j = i) then Ok p else (read_progress batch_id (Z.of_nat j) d).1, d').
Proof.
  intros Hr Hlen Hi Hfit Hp. destruct (write_progress_quiet progress i p d Hr Hi Hfit) as [Hrun Hr2].
  eexists _, _. split; [exact Hrun |]. split; [exact Hr2 |]. split_and!.
  - by apply overwrite_length.
  - by apply frame_insert.
  - intros j Hj. unfold zlength in Hfit.
    rewrite (read_progress_quiet batch_id entries ls _ Hid j _ Hr2 Hj) by lia.
    rewrite (read_progress_quiet batch_id entries ls _ Hid j d Hr Hj) by lia.
    cbn [f_data fst]. by rewrite (progress_at_overwrite _ _ _ k).
Qed.
End progress.

(** ** On the sample *)

Definition sample_lines : list (list Z) := [[100]; [101]].

Lemma sample_batch_id : validate_batch_id "batch-1" = Ok tt.
Proof. by vm_compute. Qed.

Lemma sample_readable_with progress :
  @readable sample_env "batch-1" sample_entries sample_lines progress (sample_disk_with progress).
Proof.
  split; [done |]. split.
  - repeat constructor.
  - intros [|[|i]] e; [intros [= <-] | intros [= <-] | done]; split; by vm_compute.
  - by vm_compute.
  - by vm_compute.
  - by vm_compute.
  - by vm_compute.
  - exists [100]. split; by vm_compute.
Qed.

Lemma sample_readable :
  @readable sample_env "batch-1" sample_entries sample_lines (mkFile [] []) sample_full_disk.
Proof. apply sample_readable_with. Qed.

Lemma manifest_reads_back_witness :
  @for_each_manifest_entry sample_env _ (λ e paths, mret (paths ++ [me_relative_path e])) "batch-1" []
    sample_full_disk = (Ok (2, ["docs"; "docs/a.txt"]), sample_full_disk).
Proof.
  rewrite (@manifest_reads_back sample_env "batch-1" sample_entries sample_lines _ sample_batch_id
             _ _ _ _ sample_readable).
  reflexivity.
Defined.

Lemma index_agrees_with_scan_witness :
  ∃ es, @for_each_manifest_entry sample_env _ (λ e acc, mret (acc ++ [e])) "batch-1" [] sample_full_disk
          = (Ok (zlength es, es), sample_full_disk)
  ∧ ∀ i, Z.of_nat i * 8 ≤ U64_MAX →
      @manifest_entry sample_env "batch-1" (Z.of_nat i) sample_full_disk
      = (match es !! i with
         | Some e => Ok e
         | None => Err (InvalidData "manifest ordinal is outside the batch")
         end, sample_full_disk).
Proof.
  exact (@index_agrees_with_scan sample_env "batch-1" sample_entries sample_lines _ sample_batch_id
           _ sample_readable).
Defined.

Lemma progress_is_per_entry_witness :
  ∃ data' d', @write_progress sample_env "batch-1" 1 (mkEntryProgress EWaitingNetwork 16) sample_full_disk
      = (Ok tt, d')
    ∧ @readable sample_env "batch-1" sample_entries sample_lines (mkFile data' data') d'
    ∧ length data' = 32%nat.
Proof.
  destruct (@progress_is_per_entry sample_env "batch-1" sample_entries sample_lines sample_batch_id
              (mkFile [] []) 0 1 (mkEntryProgress EWaitingNetwork 16) sample_full_disk sample_readable
              eq_refl ltac:(by vm_compute; lia) ltac:(by vm_compute) ltac:(by vm_compute))
    as (data' & d' & Hw & Hr & Hl & _).
  exists data', d'. split; [exact Hw |]. split; [exact Hr | exact Hl].
Defined.
