(* ===== verification/StoreBatches.v ===== *)
(** * What the store guarantees: batches and stops

    Whatever call fails and wherever the machine stops, a manifest is there as a
    whole or not at all, and the record of a batch is one of those it went
    through, in the order of its life cycle. *)

From S2P Require Import Prelude Text Protocol FileNames FileCore Disk DiskLogic Store SampleStore StoreSafety.
Local Open Scope string_scope.
Local Open Scope list_scope.
Local Open Scope Z_scope.

Section batches.
Context `{StoreEnv}.
Notation directory batch_id := (store_root ++ [batch_id]).
Notation batch_path batch_id := (store_root ++ [batch_id] ++ [BATCH_FILE]).

(** The record of a batch, on the medium. *)
Definition batch_stored (batch_id : string) (b : BatchRecord) (m : filemap) : Prop :=
  ∃ c, m !! batch_path batch_id = Some (mkFile c c) ∧ from_slice c = Some b
    ∧ batch_valid b ∧ br_batch_id b = batch_id.

Lemma batch_stored_on_disk batch_id b m : batch_stored batch_id b m → batch_on_disk batch_id b m.
Proof. intros (c & Hc & Hb). by exists (mkFile c c). Qed.

Lemma batch_stored_reboot sched d d' batch_id b :
  reboot sched d d' → batch_stored batch_id b (d_files d) → batch_stored batch_id b (d_files d').
Proof. intros Hr (c & Hc & Hb). exists c. split; [by eapply reboot_synced | done]. Qed.

Lemma batch_valid_id b : batch_valid b → validate_batch_id (br_batch_id b) = Ok tt.
Proof.
  intros Hv. specialize (Hv (mkDisk ∅ ∅ ∅ 0 [] false)). unfold BatchRecord_validate, check in Hv.
  unfold validate_batch_id. destruct (valid_identifier (br_batch_id b) MAX_BATCH_ID_BYTES); [done |].
  cbn [negb] in Hv. rewrite orb_true_r in Hv. cbn [orb] in Hv. done.
Qed.

Lemma load_batch_quiet batch_id b d :
  quiet d → batch_on_disk batch_id b (d_files d) → load_batch batch_id d = (Ok b, d).
Proof.
  intros Hq (f & Hf & Hb & Hv & <-). pose proof (batch_valid_id b Hv) as Hid.
  unfold load_batch. erewrite sr_bind_Ok by (by apply batch_dir_ok).
  erewrite sr_bind_Ok by (apply read_quiet; [done |]; by rewrite <- app_assoc).
  unfold of_json. rewrite Hb. erewrite sr_bind_Ok by done.
  erewrite sr_bind_Ok by apply Hv. by rewrite bool_decide_true by done.
Qed.

(** ** The manifest *)

Fixpoint append_all (w : ManifestWriter) (entries : list ManifestEntry) : io ManifestWriter :=
  match entries with
  | [] => mret w
  | e :: entries => w ← ManifestWriter_append w e; append_all w entries
  end.

(** How a manifest is written: an error on the way drops the writer. *)
Definition write_manifest (batch_id : string) (entries : list ManifestEntry) : io Z :=
  w ← begin_manifest batch_id;
  w ← on_error (append_all w entries) (ManifestWriter_drop (mw_directory w));
  ManifestWriter_finish w.

Lemma fwp_append_all dir batch done_entries ls w entries (m0 m : filemap) :
  mw_inv dir batch done_entries ls w m0 m →
  fwp (append_all w entries)
    (λ w' m', ∃ ls', mw_inv dir batch (done_entries ++ entries) ls' w' m0 m') (safe dir m0) m.
Proof.
  revert done_entries ls w m. induction entries as [|e entries IH]; intros k ls w m Hw; cbn.
  { apply fwp_ret. exists ls. by rewrite app_nil_r. }
  apply fwp_bind. eapply fwp_mono; [by eapply fwp_append_entry | | done].
  intros w' m' [line Hw']. eapply fwp_mono; [by eapply IH | | done].
  intros w2 m2 [ls' Hw2]. exists ls'. by rewrite <- app_assoc in Hw2.
Qed.

Lemma fwp_write_manifest batch_id batch entries (m : filemap) :
  batch_on_disk batch_id batch m → uncommitted (directory batch_id) m →
  fwp3 (write_manifest batch_id entries)
    (λ n m', n = zlength entries ∧ all_written (directory batch_id) batch entries m m')
    (safe (directory batch_id) m)
    (λ m', safe (directory batch_id) m m' ∨ all_written (directory batch_id) batch entries m m') m.
Proof.
  intros Hb Hu. unfold write_manifest.
  apply fwp_bind. eapply fwp3_mono; [by eapply fwp_begin_manifest | | done | by left].
  intros w m1 Hw. apply fwp_bind, fwp_on_error.
  eapply fwp3_mono; [apply (fwp_append_all _ batch [] [] w entries m m1 Hw) | | | by left].
  - intros w' m2 [ls Hw']. by apply (fwp_finish _ _ _ _ _ _ _ Hw').
  - intros m2 Hs. destruct Hw as [-> _ _ _ _ _ _ _ _ _ _ _ _ _ _].
    eapply fwp3_mono; [by apply fwp_drop | done | done | by left].
Qed.

Lemma batch_file_untouched batch_id : ¬ touches (directory batch_id) (batch_path batch_id).
Proof.
  rewrite app_assoc. intros [Hd | Hin].
  - by apply not_dotted in Hd.
  - unfold manifest_files in Hin. apply list_elem_of_fmap in Hin as (name & Heq & Hn).
    apply app_inj_tail in Heq as [_ <-]. set_unfold in Hn. by destruct_or! Hn.
Qed.

(** C7. A manifest is written as a whole. Whatever the schedule of failures and
    wherever the machine stops while a manifest is written, and whatever of the
    unsynced data is lost: after the restart the batch is as it was, and either
    the manifest counts as not written (always so when an error was returned to
    a process that was not stopped), or every entry reads back through the
    index, with no progress yet, the entries are numbered and have distinct ids,
    and the totals are those of the batch. It is the second when success was
    returned. *)
Theorem manifest_all_or_nothing batch_id batch entries d r d' :
  batch_stored batch_id batch (d_files d) → uncommitted (directory batch_id) (d_files d) →
  d_halted d = false → write_manifest batch_id entries d = (r, d') →
  ∀ d'', reboot [] d' d'' →
  load_batch batch_id d'' = (Ok batch, d'')
  ∧ (manifest_is_complete batch_id d'' = (Ok false, d'') ∧ (∃ e, r = Err e)
     ∨ manifest_is_complete batch_id d'' = (Ok true, d'')
       ∧ (d_halted d' = true ∨ r = Ok (zlength entries))
       ∧ NoDup (me_entry_id <$> entries) ∧ totals_match batch entries
       ∧ ∀ i e, entries !! i = Some e → Z.of_nat i * 16 ≤ U64_MAX →
           manifest_entry batch_id (Z.of_nat i) d'' = (Ok e, d'')
           ∧ read_progress batch_id (Z.of_nat i) d'' = (Ok (mkEntryProgress EPending 0), d'')).
Proof.
  intros Hb Hu Hh Hrun d'' Hre.
  assert (validate_batch_id batch_id = Ok tt) as Hid.
  { destruct Hb as (c & _ & _ & Hv & <-). by apply batch_valid_id. }
  assert (quiet d'') as Hq by (by destruct Hre as (_ & _ & _ & _ & ? & ?)).
  pose proof (fwp_write_manifest batch_id batch entries (d_files d) (batch_stored_on_disk _ _ _ Hb) Hu
                d eq_refl Hh) as Hpost. rewrite Hrun in Hpost.
  assert (∀ m', frame (touches (directory batch_id)) (d_files d) m' → batch_stored batch_id batch m') as Hkeep.
  { intros m' Hf. destruct Hb as (c & Hc & Hrest). exists c. split; [| done].
    rewrite Hf; [done | apply batch_file_untouched]. }
  assert (safe (directory batch_id) (d_files d) (d_files d') ∧ (∃ e, r = Err e)
          ∨ all_written (directory batch_id) batch entries (d_files d) (d_files d')
            ∧ (d_halted d' = true ∨ r = Ok (zlength entries))) as Hcase.
  { destruct r as [n|e]; [right; naive_solver |]. destruct (d_halted d'); naive_solver. }
  destruct Hcase as [[[Hun Hf] Herr] | [([ls Hc] & Htot & Hnd & Hf) Hr]].
  - split.
    { apply load_batch_quiet; [done |]. eapply batch_stored_on_disk, batch_stored_reboot; [done | by apply Hkeep]. }
    left. split; [| done]. unfold manifest_is_complete, attempt, mbind, sr_bind.
    rewrite batch_dir_ok by done. unfold read_manifest_complete.
    erewrite sr_bind_Err by (apply read_absent; [done |]; by eapply reboot_absent).
    by destruct Hq as [_ ->].
  - assert (readable batch_id entries ls (mkFile [] []) d'') as Hread.
    { split; [done |]. destruct Hc as [H1 H2 H3 H4 H5 H6 (c & H7 & H8)].
      split; try done; try (by eapply reboot_synced).
      exists c. split; [by eapply reboot_synced | done]. }
    split.
    { apply load_batch_quiet; [done |]. eapply batch_stored_on_disk, batch_stored_reboot; [done | by apply Hkeep]. }
    right. split_and!; [by eapply manifest_is_complete_quiet | done.. |].
    intros i e Hi Hfit. pose proof (lookup_lt_Some _ _ _ Hi) as Hlt. split.
    + rewrite (manifest_entry_quiet batch_id entries ls _ Hid i d'' Hread) by lia. by rewrite Hi.
    + rewrite (read_progress_quiet batch_id entries ls _ Hid i d'' Hread Hlt) by done.
      cbn [f_data]. by rewrite (progress_at_aligned [] i 0) by done.
Qed.

(** ** The record of a batch *)

(** The record of the batch is [b] before, and [b] in [state] after. *)
Definition replaced (batch_id : string) (state : BatchState) (now : Z) (b : BatchRecord) (m m' : filemap) : Prop :=
  batch_on_disk batch_id b m ∧ can_transition_to (br_state b) state = true
  ∧ batch_stored batch_id (with_state state now b) m'
  ∧ frame (λ p, dotted p ∨ p = batch_path batch_id) m m'.

Lemma fwp_update_state_any batch_id state now (m : filemap) :
  fwp3 (update_state batch_id state now)
    (λ x m', ∃ b, x = with_state state now b ∧ replaced batch_id state now b m m')
    (same_visible m) (λ m', same_visible m m' ∨ ∃ b, replaced batch_id state now b m m') m.
Proof.
  assert (∀ A (c : io A) Q m', fwp c Q (same_visible m) m' →
    fwp3 c Q (same_visible m) (λ m', same_visible m m' ∨ ∃ b, replaced batch_id state now b m m') m') as Hw
    by (intros A c Q m' Hc; eapply fwp3_mono; [exact Hc | done | done | by left]).
  unfold update_state.
  apply fwp_bind, Hw, fwp_load_batch; [intros b Hb | apply frame_refl].
  apply fwp_bind, Hw, fwp_check; [intros Hstep; bool_to_prop | apply frame_refl].
  apply fwp_bind, Hw, fwp_validate; [intros Hv | apply frame_refl].
  apply fwp_bind, Hw, fwp_batch_dir; [intros _ | apply frame_refl].
  apply fwp_bind, Hw, fwp_to_json; [intros contents Hc | apply frame_refl].
  assert (∀ m', same_visible (<[directory batch_id ++ [BATCH_FILE] := mkFile contents contents]> m) m' →
    replaced batch_id state now b m m') as Hdone.
  { intros m' Hm'. split_and!; [done | done | |].
    - exists contents. rewrite app_assoc. rewrite Hm' by (by apply not_dotted).
      rewrite lookup_insert_eq. split_and!; [done | by apply from_slice_to_vec | done |].
      by destruct Hb as (_ & _ & _ & _ & <-).
    - intros p Hp. rewrite Hm' by naive_solver. apply lookup_insert_ne. rewrite <- app_assoc. naive_solver. }
  apply fwp_bind, fwp_write.
  - intros m' Hm'. split; [apply fwp_ret; eauto | right; eauto].
  - intros m' Hm'. by split; [| left].
Qed.

Lemma fwp_update_state batch_id state now b (m : filemap) :
  batch_stored batch_id b m →
  fwp3 (update_state batch_id state now)
    (λ x m', x = with_state state now b ∧ replaced batch_id state now b m m')
    (same_visible m) (λ m', same_visible m m' ∨ replaced batch_id state now b m m') m.
Proof.
  intros Hb%batch_stored_on_disk. eapply fwp3_mono; [apply fwp_update_state_any | | done |].
  - intros x m' (b' & -> & Hr). by rewrite (batch_on_disk_fun _ _ _ _ Hb (proj1 Hr)).
  - intros m' [Hv | [b' Hr]]; [by left | right]. by rewrite (batch_on_disk_fun _ _ _ _ Hb (proj1 Hr)).
Qed.

(** C24. The record of a batch. Whatever fails and wherever the machine stops, an
    update leaves a batch whose record is readable after the restart: it is the
    old one, always so when an error was returned to a process that goes on, or
    the new one, which is a step of the life cycle, keeps whose batch it is and
    when it began, and is what a success returns. A batch that is finished keeps
    its state. *)
Theorem update_state_is_atomic batch_id state now b d r d' :
  batch_stored batch_id b (d_files d) → d_halted d = false →
  update_state batch_id state now d = (r, d') →
  ∃ b', (∀ d'', reboot [] d' d'' → load_batch batch_id d'' = (Ok b', d''))
    ∧ batch_step (br_state b) (br_state b')
    ∧ (is_terminal (br_state b) = true → br_state b' = br_state b)
    ∧ (b' = b ∧ (∃ e, r = Err e)
       ∨ b' = with_state state now b ∧ (d_halted d' = true ∨ r = Ok b'))
    ∧ frame (λ p, dotted p ∨ p = batch_path batch_id) (d_files d) (d_files d').
Proof.
  intros Hb Hh Hrun.
  pose proof (fwp_update_state batch_id state now b (d_files d) Hb d eq_refl Hh) as Hpost.
  rewrite Hrun in Hpost.
  assert (∀ b' m', batch_stored batch_id b' m' → m' = d_files d' → ∀ d'', reboot [] d' d'' →
    load_batch batch_id d'' = (Ok b', d'')) as Hload.
  { intros b' m' Hb' -> d'' Hre. apply load_batch_quiet; [by destruct Hre as (_ & _ & _ & _ & ? & ?) |].
    by eapply batch_stored_on_disk, batch_stored_reboot. }
  assert (same_visible (d_files d) (d_files d') ∧ (∃ e, r = Err e)
    ∨ replaced batch_id state now b (d_files d) (d_files d')
      ∧ (d_halted d' = true ∨ r = Ok (with_state state now b))) as [[Hf Hr] | [(_ & Hstep & Hb' & Hf) Hr]].
  { destruct r as [x|e]; [right; naive_solver |]. destruct (d_halted d'); naive_solver. }
  - exists b. split_and!.
    + eapply Hload; [| done]. destruct Hb as (c & Hc & Hrest). exists c. split; [| done].
      rewrite Hf; [done |]. rewrite app_assoc. by apply not_dotted.
    + unfold batch_step, can_transition_to. by rewrite bool_decide_true.
    + done.
    + by left.
    + eapply frame_mono; [| done]. intros p Hp. by left.
  - exists (with_state state now b). split_and!; [by eapply Hload | done | | by right | done].
    intros Ht. cbn. unfold can_transition_to in Hstep. case_bool_decide; [done |].
    by destruct (br_state b).
Qed.

(** ** What the progress of a batch adds up to *)

Definition add_progress (summary : ProgressSummary) (p : EntryProgress) : ProgressSummary :=
  mkProgressSummary
    (saturating_add64 (ps_completed_bytes summary) (ep_committed_offset p))
    (if bool_decide (ep_state p = ECompleted)
     then saturating_add64 (ps_completed_entries summary) 1 else ps_completed_entries summary)
    (if bool_decide (ep_state p = EFailed)
     then saturating_add64 (ps_failed_entries summary) 1 else ps_failed_entries summary).

(** The records of an aligned file. *)
Definition records_say (data : list Z) (ps : list EntryProgress) : Prop :=
  length data = (16 * length ps)%nat
  ∧ ∀ i p, ps !! i = Some p → decode_progress (record_at data i) = Ok p.

Lemma summarize_spec fuel data ps i count s :
  records_say data ps → (length ps - i < fuel)%nat →
  summarize fuel data count (16 * Z.of_nat i) s
  = Some (Ok (foldl add_progress s (take (Z.to_nat count) (drop i ps)))).
Proof.
  intros [Hlen Hrec]. revert i count s. induction fuel as [|fuel IH]; intros i count s Hf; [lia |].
  cbn [summarize]. destruct (Z.leb_spec count 0).
  { by replace (Z.to_nat count) with 0%nat by lia. }
  unfold read_record. replace (Z.to_nat (16 * Z.of_nat i)) with (16 * i)%nat by lia.
  unfold zlength. rewrite length_take, length_drop, Hlen.
  destruct (ps !! i) as [p|] eqn:Hi.
  - pose proof (lookup_lt_Some _ _ _ Hi). rewrite Nat.min_l by lia. cbn [Z.of_nat].
    change (Z.of_nat 16 =? 0) with false. change (Z.of_nat 16 =? PROGRESS_RECORD_BYTES) with true.
    cbv iota. fold (record_at data i). rewrite (Hrec i p Hi).
    change PROGRESS_RECORD_BYTES with 16.
    replace (16 * Z.of_nat i + 16) with (16 * Z.of_nat (S i)) by lia.
    rewrite IH by lia. rewrite (drop_S ps p i Hi).
    replace (Z.to_nat count) with (S (Z.to_nat (count - 1))) by lia. done.
  - apply lookup_ge_None in Hi. replace (16 * length ps - 16 * i)%nat with 0%nat by lia.
    rewrite Nat.min_0_r. change (Z.of_nat 0 =? 0) with true. cbv iota.
    rewrite (drop_ge ps) by done. by rewrite take_nil.
Qed.

(** The summary of a batch. It ends for every count the caller gives, however
    large, and adds up, with saturation, the records the file has for that many
    entries; without a committed manifest it is zero. *)
Theorem progress_summary_adds_up batch_id entries ls durable data ps count d :
  validate_batch_id batch_id = Ok tt →
  readable batch_id entries ls (mkFile data durable) d → records_say data ps →
  progress_summary batch_id count d
  = (Ok (foldl add_progress (mkProgressSummary 0 0 0) (take (Z.to_nat count) ps)), d)
  ∧ ∀ d0, quiet d0 → uncommitted (directory batch_id) (d_files d0) →
      progress_summary batch_id count d0 = (Ok (mkProgressSummary 0 0 0), d0).
Proof.
  intros Hid Hr Hps. split.
  - pose proof Hr as [Hq Hc]. unfold progress_summary.
    erewrite sr_bind_Ok by (by apply batch_dir_ok).
    erewrite sr_bind_Ok by (unfold attempt; by erewrite read_manifest_complete_quiet).
    cbv beta iota.
    erewrite sr_bind_Ok by (by eapply read_quiet; [| apply Hc]). cbn [f_data].
    rewrite (summarize_spec _ data ps 0 count) by (done || (destruct Hps as [-> _]; lia)). done.
  - intros d0 Hq Hu. unfold progress_summary. erewrite sr_bind_Ok by (by apply batch_dir_ok).
    erewrite sr_bind_Ok.
    2: { unfold attempt, read_manifest_complete. erewrite sr_bind_Err by (by apply read_absent).
         by destruct Hq as [_ ->]. }
    done.
Qed.

(** An entry is finished when it is complete to its last byte, or given up. *)
Definition entry_finished (e : ManifestEntry) (p : EntryProgress) : bool :=
  match ep_state p with
  | ECompleted => ep_committed_offset p =? me_size e
  | EFailed | ECanceled => true
  | _ => false
  end.
Definition entry_failed (p : EntryProgress) : bool :=
  match ep_state p with EFailed | ECanceled => true | _ => false end.

(** When a batch is over. On a committed manifest whose progress records can be
    read, all entries are terminal exactly when each is complete to its declared
    size, failed or canceled; and the batch has failures exactly when one is
    failed or canceled. *)
Theorem all_entries_terminal_spec batch_id entries ls progress ps d :
  validate_batch_id batch_id = Ok tt → readable batch_id entries ls progress d →
  zlength entries * 16 ≤ U64_MAX → length ps = length entries →
  (∀ i p, ps !! i = Some p → progress_at (f_data progress) i = Ok p) →
  all_entries_terminal batch_id d
  = (Ok (forallb (λ x, entry_finished x.1 x.2) (zip entries ps), existsb entry_failed ps), d).
Proof.
  intros Hid Hr Hfit Hlen Hps. unfold all_entries_terminal.
  rewrite (sr_bind_Ok _ _ d (zlength entries,
    (forallb (λ x, entry_finished x.1 x.2) (zip entries ps), existsb entry_failed ps)) d); [done |].
  rewrite (for_each_committed batch_id entries ls _ Hid) by done.
  match goal with |- context [visit_all ?v] => set (visit := v) end.
  assert (∀ k i acc, drop i entries = k →
    visit_all visit k acc d
    = (Ok (acc.1 && forallb (λ x, entry_finished x.1 x.2) (zip k (drop i ps)),
           acc.2 || existsb entry_failed (drop i ps)), d)) as Hall.
  { induction k as [|e k IH]; intros i [terminal failed] Hk.
    - assert (length entries ≤ i)%nat by (apply (f_equal length) in Hk; rewrite length_drop in Hk; cbn in Hk; lia).
      rewrite (drop_ge ps) by lia. cbn. by rewrite andb_true_r, orb_false_r.
    - assert (entries !! i = Some e) as Hi by (rewrite <- (Nat.add_0_r i), <- lookup_drop, Hk; done).
      pose proof (lookup_lt_Some _ _ _ Hi) as Hlt.
      destruct (lookup_lt_is_Some_2 ps i ltac:(lia)) as [p Hp].
      cbn [visit_all]. destruct Hr as [Hq Hc]. destruct (c_numbered _ _ _ _ _ Hc i e Hi) as [Ho _].
      erewrite sr_bind_Ok.
      2: { unfold visit. rewrite Ho.
           erewrite sr_bind_Ok.
           2: { erewrite (read_progress_quiet batch_id entries ls progress Hid i d); [| done | lia |].
                - by rewrite (Hps i p Hp).
                - unfold zlength in Hfit. lia. }
           reflexivity. }
      rewrite (IH (S i)) by (rewrite (drop_S entries e i Hi) in Hk; congruence).
      rewrite (drop_S ps p i Hp). cbn [zip zip_with forallb existsb fst snd]. unfold entry_finished, entry_failed.
      destruct (ep_state p), terminal, failed; cbn; try done; destruct (_ =? _); done. }
  erewrite sr_bind_Ok by (by apply (Hall entries 0%nat)). done.
Qed.

(** ** Creating a batch *)

(** The machine stops after the directory of a new batch is made: from then on
    the batch has no record, and creating it again is refused. *)
Theorem create_batch_is_not_atomic batch contents d :
  batch_valid batch → to_vec batch = Some contents → quiet d →
  is_dir store_root d = true →
  is_dir (directory (br_batch_id batch)) d = false → is_file (directory (br_batch_id batch)) d = false →
  d_files d !! batch_path (br_batch_id batch) = None →
  ∃ d', create_batch batch (with_schedule [Fine; Crash 0] d) = (Err IoOther, d')
  ∧ ∀ d'', reboot [] d' d'' →
      load_batch (br_batch_id batch) d'' = (Err NotFound, d'')
      ∧ create_batch batch d'' = (Err AlreadyExists, d'').
Proof.
  intros Hv Hjson [Hs Hh] Hroot Hdir Hfile Hnone.
  pose proof (batch_valid_id _ Hv) as Hid.
  set (p := directory (br_batch_id batch)) in *.
  assert (parent p = Some store_root) as Hparent.
  { apply parent_snoc. }
  eexists. split.
  - unfold create_batch. erewrite sr_bind_Ok by apply Hv.
    erewrite sr_bind_Ok by (by apply batch_dir_ok). fold p.
    erewrite sr_bind_Ok.
    2: { unfold create_dir, io_atomic. cbn [d_halted d_schedule with_schedule]. rewrite Hh.
         unfold is_dir, is_file in *. cbn [d_dirs d_files with_schedule].
         rewrite Hdir, Hfile, Hparent. cbn [orb]. rewrite Hroot. reflexivity. }
    unfold to_json. rewrite Hjson. erewrite sr_bind_Ok by done.
    unfold write. erewrite sr_bind_Ok.
    2: { rewrite parent_snoc. reflexivity. }
    erewrite sr_bind_Err; [reflexivity |].
    unfold create_dir_all, io_call. cbn [d_halted d_schedule with_schedule with_dirs]. rewrite Hh. reflexivity.
  - intros d'' (Hdirs & _ & Hdom & _ & Hsch & Hhalt).
    assert (quiet d'') as Hq by done.
    assert (is_dir p d'' = true) as Hdir2.
    { unfold is_dir. rewrite Hdirs. apply bool_decide_true. cbn.
      repeat case_match; cbn; set_solver. }
    assert (d_files d'' !! batch_path (br_batch_id batch) = None) as Hnone2.
    { apply not_elem_of_dom. rewrite Hdom. cbn. repeat case_match; cbn; by apply not_elem_of_dom. }
    split.
    + unfold load_batch. erewrite sr_bind_Ok by (by apply batch_dir_ok).
      erewrite sr_bind_Err; [done |]. apply read_absent; [done |]. by rewrite <- app_assoc.
    + unfold create_batch. erewrite sr_bind_Ok by apply Hv.
      erewrite sr_bind_Ok by (by apply batch_dir_ok). fold p.
      erewrite sr_bind_Err; [done |].
      unfold create_dir, io_atomic. destruct Hq as [-> ->]. by rewrite Hdir2.
Qed.
End batches.

(** ** On the sample *)

Lemma sample_batch_valid state root :
  root ∈ [None; Some (path_to_string sample_root)] → batch_valid (sample_batch state root).
Proof. intros Hr d. set_unfold in Hr. by destruct_or! Hr; subst; destruct state. Qed.

Lemma sample_stored schedule :
  @batch_stored sample_env "batch-1" (sample_batch Queued None) (d_files (sample_disk schedule)).
Proof.
  exists [101]. split_and!; [by vm_compute | by vm_compute | | done]. apply sample_batch_valid. set_solver.
Qed.

(** The machine stops right after the completion record was renamed. *)
Definition sample_crash_disk : disk := sample_disk (replicate 18 Fine ++ [Crash 1]).

Lemma sample_crash_run :
  let d' := (@write_manifest sample_env "batch-1" sample_entries sample_crash_disk).2 in
  d_halted d' = true
  ∧ forallb (λ kv, bool_decide (f_durable kv.2 = f_data kv.2)) (map_to_list (d_files d')) = true
  ∧ (@manifest_is_complete sample_env "batch-1" (restarted d')).1 = Ok true.
Proof. by vm_compute. Qed.

Lemma manifest_all_or_nothing_witness :
  let '(r, d') := @write_manifest sample_env "batch-1" sample_entries sample_crash_disk in
  d_halted d' = true
  ∧ ∀ i e, sample_entries !! i = Some e → Z.of_nat i * 16 ≤ U64_MAX →
      @manifest_entry sample_env "batch-1" (Z.of_nat i) (restarted d') = (Ok e, restarted d').
Proof.
  pose proof sample_crash_run as Hcomp.
  destruct (@write_manifest sample_env "batch-1" sample_entries sample_crash_disk) as [r d'] eqn:Hrun.
  cbn [snd] in Hcomp. destruct Hcomp as (Hh & Hsync & Hcomp). split; [exact Hh |].
  destruct (@manifest_all_or_nothing sample_env "batch-1" (sample_batch Queued None) sample_entries
              sample_crash_disk r d' (sample_stored _) ltac:(by vm_compute) eq_refl Hrun
              (restarted d') (reboot_restarted d' Hsync))
    as [_ [[Hno _] | (_ & _ & _ & _ & Hread)]]; [by rewrite Hno in Hcomp |].
  intros i e Hi Hfit. apply Hread; [exact Hi | exact Hfit].
Defined.

Lemma update_state_is_atomic_witness :
  let d := sample_disk [Fine; Fine; Fine; Fine; Fine; Crash 1] in
  let '(r, d') := @update_state sample_env "batch-1" Preparing 20 d in
  ∃ b', (∀ d'', reboot [] d' d'' → @load_batch sample_env "batch-1" d'' = (Ok b', d''))
    ∧ batch_step Queued (br_state b').
Proof.
  intros d. destruct (update_state "batch-1" Preparing 20 d) as [r d'] eqn:Hrun.
  destruct (@update_state_is_atomic sample_env "batch-1" Preparing 20 (sample_batch Queued None) d r d'
              (sample_stored _) eq_refl Hrun) as (b' & Hload & Hstep & _).
  exists b'. split; [exact Hload | exact Hstep].
Defined.

Definition sample_empty_disk : disk := mkDisk {[ ["C:"]; ["C:"; "store"] ]} ∅ ∅ 1 [] false.

Lemma create_batch_is_not_atomic_witness :
  ∃ d', @create_batch sample_env (sample_batch Queued None) (with_schedule [Fine; Crash 0] sample_empty_disk)
          = (Err IoOther, d')
  ∧ ∀ d'', reboot [] d' d'' →
      @load_batch sample_env "batch-1" d'' = (Err NotFound, d'')
      ∧ @create_batch sample_env (sample_batch Queued None) d'' = (Err AlreadyExists, d'').
Proof.
  exact (@create_batch_is_not_atomic sample_env (sample_batch Queued None) [101] sample_empty_disk
           (sample_batch_valid Queued None ltac:(set_solver)) eq_refl (conj eq_refl eq_refl)
           eq_refl eq_refl eq_refl eq_refl).
Defined.

(** Both entries done: the directory, and the file to its last byte. *)
Definition sample_progress : list EntryProgress := [mkEntryProgress ECompleted 0; mkEntryProgress ECompleted 42].
Definition sample_progress_file : file :=
  let data := sample_progress ≫= encode_progress in mkFile data data.

Lemma progress_summary_adds_up_witness :
  @progress_summary sample_env "batch-1" 5 (sample_disk_with sample_progress_file)
  = (Ok (mkProgressSummary 42 2 0), sample_disk_with sample_progress_file).
Proof.
  rewrite (proj1 (@progress_summary_adds_up sample_env "batch-1" sample_entries sample_lines _ _
             sample_progress 5 _ sample_batch_id (sample_readable_with sample_progress_file)
             ltac:(split; [done | intros [|[|i]] p; [intros [= <-]; done | intros [= <-]; done | done]]))).
  apply (f_equal (λ r, (r, _))). by vm_compute.
Defined.

Lemma all_entries_terminal_spec_witness :
  @all_entries_terminal sample_env "batch-1" (sample_disk_with sample_progress_file)
  = (Ok (true, false), sample_disk_with sample_progress_file).
Proof.
  rewrite (@all_entries_terminal_spec sample_env "batch-1" sample_entries sample_lines sample_progress_file
             sample_progress _ sample_batch_id (sample_readable_with sample_progress_file)).
  - reflexivity.
  - by vm_compute.
  - reflexivity.
  - intros [|[|i]] p; [intros [= <-]; by vm_compute | intros [= <-]; by vm_compute | done].
Defined.
