(* ===== verification/TargetsSafety.v ===== *)
(** * Where the entries of a batch go

    The targets of a batch from the phone: all different without regard to
    case, different from what the directories had, each below the target of the
    directory it is in. *)

From S2P Require Import Prelude Text Protocol FileNames FileCore Disk DiskLogic Store SampleStore Targets.
Local Open Scope string_scope.
Local Open Scope list_scope.
Local Open Scope Z_scope.

Section targets.
Context `{StoreEnv}.
Context (target_root : path).

(** The mapping of a manifest, entry after entry, as [prepare_entry] does it. *)
Fixpoint map_targets (entries : list ManifestEntry) (mapped : gmap string path)
    (reservations : gmap path (gset (list Z))) (source_paths : gset (list Z)) : io (list path) :=
  match entries with
  | [] => mret []
  | e :: entries =>
    r ← map_target target_root e mapped reservations source_paths;
    let '(target, mapped, reservations, source_paths) := r in
    targets ← map_targets entries mapped reservations source_paths;
    mret (target :: targets)
  end.

(** What [read_dir] finds in a directory: the names in lower case. *)
Definition names_in (p : path) (d : disk) : gset (list Z) :=
  match read_dir p d with
  | (Ok names, _) => WindowsNameReservation_new to_lowercase ((λ e, chars e.1) <$> names)
  | (Err _, _) => ∅
  end.

Lemma new_reservation_quiet p d : quiet d → new_reservation p d = (Ok (names_in p d), d).
Proof.
  intros [Hs Hh]. unfold new_reservation, names_in, attempt, mbind, sr_bind.
  unfold read_dir, io_read, io_call. rewrite Hh, Hs.
  destruct (is_dir p d); cbn; rewrite ?Hh; done.
Qed.

Lemma reserve_Some fuel used desired directory name used' :
  reserve to_lowercase fuel used desired directory = Some (name, used') →
  to_lowercase name ∉ used ∧ used' = {[ to_lowercase name ]} ∪ used.
Proof.
  unfold reserve. case_bool_decide as Hin; [| by intros [= <- <-]].
  intros Hr. by apply reserve_suffix_spec in Hr as (? & ? & _).
Qed.

(** ** The mapping *)

(** An entry with the names of its target, as characters. *)
Notation placement := (ManifestEntry * list (list Z))%type.
Definition target_of (x : placement) : path := of_chars <$> x.2.
Definition lower_names (names : list (list Z)) : list (list Z) := to_lowercase <$> names.

(** The target's directory is the root, or the target of the directory the
    manifest says the entry is in. *)
Definition in_parent (placed : list placement) (e : ManifestEntry) (parent : list (list Z)) : Prop :=
  (split_parent (me_relative_path e)).1 = "" ∧ parent = []
  ∨ ∃ e', (e', parent) ∈ placed ∧ me_kind e' = Directory
          ∧ me_relative_path e' = (split_parent (me_relative_path e)).1.

(** Each target is in its directory under a name the directory did not have, and
    no two are the same without regard to case. *)
Definition well_placed (d : disk) (placed : list placement) : Prop :=
  NoDup (lower_names <$> placed.*2)
  ∧ ∀ e names, (e, names) ∈ placed → ∃ parent name, names = parent ++ [name]
      ∧ in_parent placed e parent
      ∧ to_lowercase name ∉ names_in (target_root ++ (of_chars <$> parent)) d.

(** What the maps of the code say of the entries placed so far. *)
Record map_inv (d : disk) (placed : list placement) (mapped : gmap string path)
    (reservations : gmap path (gset (list Z))) : Prop := mkMapInv {
  mi_mapped k P : mapped !! k = Some P →
    k = "" ∧ P = [] ∨ ∃ e names, (e, names) ∈ placed ∧ me_kind e = Directory
                                 ∧ me_relative_path e = k ∧ P = of_chars <$> names;
  mi_covers P r : reservations !! P = Some r → names_in (target_root ++ P) d ⊆ r;
  mi_reserved e names : (e, names) ∈ placed → ∃ parent name r, names = parent ++ [name]
    ∧ (parent = [] ∨ ∃ e', (e', parent) ∈ placed)
    ∧ reservations !! (of_chars <$> parent) = Some r ∧ to_lowercase name ∈ r;
  mi_well_placed : well_placed d placed;
}.

Lemma lower_names_app k l : lower_names (k ++ l) = lower_names k ++ lower_names l.
Proof. apply fmap_app. Qed.

(** Equal without regard to case is equal, among what is placed. *)
Lemma placed_inj d placed e e' names names' :
  well_placed d placed → (e, names) ∈ placed → (e', names') ∈ placed →
  lower_names names = lower_names names' → names = names'.
Proof.
  intros [Hnd _] H1 H2 Heq.
  apply list_elem_of_lookup in H1 as [i Hi]. apply list_elem_of_lookup in H2 as [j Hj].
  assert (i = j) as ->; [| congruence].
  eapply (NoDup_lookup _ i j (lower_names names)); [exact Hnd | |];
    rewrite !list_lookup_fmap.
  - by rewrite Hi.
  - rewrite Hj. cbn. by rewrite Heq.
Qed.

(** A name that its directory's reservation did not have is new among all. *)
Lemma fresh_names d placed mapped reservations parent name r :
  map_inv d placed mapped reservations →
  (parent = [] ∨ ∃ e', (e', parent) ∈ placed) →
  (∀ r0, reservations !! (of_chars <$> parent) = Some r0 → r0 = r) →
  to_lowercase name ∉ r →
  lower_names (parent ++ [name]) ∉ lower_names <$> placed.*2.
Proof.
  intros Hinv Hp Hres Hname Hin.
  apply list_elem_of_fmap in Hin as (names & Heq & Hin).
  apply list_elem_of_fmap in Hin as ([e names'] & -> & Hin). cbn in Heq.
  destruct (mi_reserved _ _ _ _ Hinv e names' Hin) as (parent' & name' & r' & -> & Hp' & Hr' & Hn').
  rewrite !lower_names_app in Heq. apply app_inj_tail in Heq as [Hpar Hnm].
  assert (parent = parent') as <-.
  { destruct Hp as [-> | [e1 H1]], Hp' as [-> | [e2 H2]].
    - done.
    - destruct parent'; [done |]. by apply (f_equal length) in Hpar.
    - destruct parent; [done |]. by apply (f_equal length) in Hpar.
    - exact (placed_inj d placed e1 e2 _ _ (mi_well_placed _ _ _ _ Hinv) H1 H2 Hpar). }
  apply Hres in Hr' as ->. congruence.
Qed.

Lemma map_target_step d placed mapped reservations paths e t mapped' reservations' paths' d' :
  quiet d → map_inv d placed mapped reservations →
  map_target target_root e mapped reservations paths d = (Ok (t, mapped', reservations', paths'), d') →
  d' = d ∧ ∃ names, t = of_chars <$> names
    ∧ map_inv d (placed ++ [(e, names)]) mapped' reservations'.
Proof.
  intros Hq Hinv. unfold map_target.
  destruct (bool_decide (_ ∈ paths)) eqn:Hkey; cbn [check]; [by erewrite sr_bind_Err |]. erewrite sr_bind_Ok by done.
  destruct (split_parent (me_relative_path e)) as [source_parent source_name] eqn:Hsplit.
  destruct (mapped !! source_parent) as [P|] eqn:HP; [| by erewrite sr_bind_Err]. erewrite sr_bind_Ok by done.
  set (r := default (names_in (target_root ++ P) d) (reservations !! P)).
  erewrite (sr_bind_Ok _ _ d r).
  2: { unfold r. destruct (reservations !! P); [done |]. by apply new_reservation_quiet. }
  destruct (reserve _ _ _ _ _) as [[name used']|] eqn:Hres; [| by erewrite sr_bind_Err].
  apply reserve_Some in Hres as [Hfresh ->]. erewrite sr_bind_Ok by done.
  intros [= <- <- <- <- <-]. split; [done |].
  assert (names_in (target_root ++ P) d ⊆ r) as Hcover.
  { unfold r. destruct (reservations !! P) eqn:E; [by eapply Hinv | done]. }
  assert (∃ parent, P = of_chars <$> parent ∧ in_parent placed e parent
            ∧ (parent = [] ∨ ∃ e', (e', parent) ∈ placed)) as (parent & -> & Hpar & Hold).
  { unfold in_parent. rewrite Hsplit. cbn.
    destruct (mi_mapped _ _ _ _ Hinv _ _ HP) as [[-> ->] | (e' & names & Hin & Hdir & Hk & ->)].
    - exists []. naive_solver.
    - exists names. naive_solver. }
  exists (parent ++ [name]). rewrite fmap_app. split; [done |].
  assert (∀ r0, reservations !! (of_chars <$> parent) = Some r0 → r0 = r) as Hr
    by (unfold r; intros r0 ->; done).
  pose proof (fresh_names d placed _ _ parent name r Hinv Hold Hr Hfresh) as Hnew.
  split.
  - intros k P Hk. assert (mapped !! k = Some P ∨ me_kind e = Directory ∧ k = me_relative_path e
      ∧ P = of_chars <$> (parent ++ [name])) as [Hm | (Hdir & -> & ->)].
    { case_bool_decide as Hdir; [| by left]. apply lookup_insert_Some in Hk as [[<- <-] | [_ Hm]]; [| by left].
      right. by rewrite fmap_app. }
    + destruct (mi_mapped _ _ _ _ Hinv _ _ Hm) as [? | (e' & names & Hin & Hrest)]; [by left |].
      right. exists e', names. split; [set_solver | done].
    + right. exists e, (parent ++ [name]). split; [set_solver | done].
  - intros Q r0 [[<- <-] | [_ Hr0]]%lookup_insert_Some; [set_solver | by eapply Hinv].
  - intros e' names [Hin | Hin]%elem_of_app.
    + destruct (mi_reserved _ _ _ _ Hinv e' names Hin) as (p' & n' & r' & -> & Hp' & Hr' & Hn').
      destruct (decide ((of_chars <$> parent : path) = (of_chars <$> p'))) as [Heq|Hne].
      * exists p', n', ({[ to_lowercase name ]} ∪ r). split_and!; [done | set_solver | |].
        { rewrite <- Heq. by rewrite lookup_insert_eq. }
        rewrite <- Heq in Hr'. apply Hr in Hr' as ->. set_solver.
      * exists p', n', r'. split_and!; [done | set_solver | | done]. by rewrite lookup_insert_ne.
    + apply list_elem_of_singleton in Hin as [= -> ->].
      exists parent, name, ({[ to_lowercase name ]} ∪ r).
      split_and!; [done | set_solver | by rewrite lookup_insert_eq | set_solver].
  - destruct Hinv as [_ _ _ [Hnd Hplaced]]. split.
    + rewrite !fmap_app. cbn. apply NoDup_app. split_and!; [done | | apply NoDup_singleton].
      intros x Hx ->%list_elem_of_singleton. done.
    + intros e' names [Hin | Hin]%elem_of_app.
      * destruct (Hplaced e' names Hin) as (p' & n' & -> & Hin' & Hn'). exists p', n'.
        split_and!; [done | | done]. destruct Hin' as [? | (e2 & ? & ?)]; [by left |].
        right. exists e2. split; [set_solver | done].
      * apply list_elem_of_singleton in Hin as [= -> ->]. exists parent, name.
        split_and!; [done | | set_solver]. destruct Hpar as [? | (e2 & ? & ?)]; [by left |].
        right. exists e2. split; [set_solver | done].
Qed.

Lemma map_targets_steps entries d placed mapped reservations paths ts d' :
  quiet d → map_inv d placed mapped reservations →
  map_targets entries mapped reservations paths d = (Ok ts, d') →
  ∃ more, more.*1 = entries ∧ ts = target_of <$> more ∧ well_placed d (placed ++ more).
Proof.
  intros Hq. revert placed mapped reservations paths ts.
  induction entries as [|e entries IH]; intros placed mapped reservations paths ts Hinv; cbn [map_targets].
  { intros [= <- <-]. exists []. rewrite app_nil_r. split_and!; [done | done | apply Hinv]. }
  unfold mbind at 1, sr_bind at 1.
  destruct (map_target target_root e mapped reservations paths d) as [[[[[t m1] r1] p1]|err] d1] eqn:Hstep;
    [| done].
  apply (map_target_step d placed) in Hstep as (-> & names & -> & Hinv1); [| done..].
  unfold mbind, sr_bind. destruct (map_targets entries m1 r1 p1 d) as [[ts'|err] d2] eqn:Hrest; [| done].
  intros [= <- <-].
  destruct (IH _ _ _ _ _ Hinv1 Hrest) as (more & Hfst & -> & Hwell).
  exists ((e, names) :: more). split_and!; [cbn; by rewrite Hfst | done |].
  by rewrite <- app_assoc in Hwell.
Qed.

(** Where a batch goes. When the targets of a manifest are mapped below a
    folder (on a disk that answers), no two entries have the same target without
    regard to case; each target is in the folder or in the target of the
    directory that the manifest names as its parent, under a name that this
    directory did not have before. *)
Theorem targets_are_distinct entries ts d d' :
  quiet d → map_targets entries {[ "" := [] ]} ∅ ∅ d = (Ok ts, d') →
  ∃ placed, placed.*1 = entries ∧ ts = target_of <$> placed ∧ well_placed d placed.
Proof.
  intros Hq Hrun. apply (map_targets_steps entries d [] {[ "" := [] ]} ∅ ∅ ts d'); [done | | done].
  split.
  - intros k P [<- <-]%lookup_singleton_Some. by left.
  - done.
  - by intros e names ?%elem_of_nil.
  - split; [constructor |]. by intros e names ?%elem_of_nil.
Qed.
End targets.

(** ** On the sample *)

(** The folder already has a directory named Docs. *)
Definition sample_folder_disk : disk :=
  mkDisk {[ ["C:"]; sample_root; sample_root ++ ["Docs"] ]} ∅ ∅ 1 [] false.

Lemma targets_are_distinct_witness :
  (@map_targets sample_env sample_root sample_entries {[ "" := [] ]} ∅ ∅ sample_folder_disk).1
    = Ok [["docs (1)"]; ["docs (1)"; "a.txt"]]
  ∧ ∃ placed, placed.*1 = sample_entries ∧ [["docs (1)"]; ["docs (1)"; "a.txt"]] = target_of <$> placed
      ∧ @well_placed sample_env sample_root sample_folder_disk placed.
Proof.
  assert (@map_targets sample_env sample_root sample_entries {[ "" := [] ]} ∅ ∅ sample_folder_disk
          = (Ok [["docs (1)"]; ["docs (1)"; "a.txt"]], sample_folder_disk)) as Hrun by (by vm_compute).
  split; [by rewrite Hrun |].
  exact (@targets_are_distinct sample_env sample_root sample_entries _ sample_folder_disk _
           (conj eq_refl eq_refl) Hrun).
Defined.
