(* ===== verification/Coordinator.v ===== *)
(** * The file transfer coordinator

    [flowtype-app/src/file_transfer_server.rs], first part: the coordinator that
    the control connections talk to. It keeps the tickets of the data
    connections, the operations in flight and the verifications, above the store.
    A handler is a program on the coordinator's state that answers or fails with
    a code. Clock, random bytes, the volume and the paired phones are the host's. *)

From S2P Require Import Prelude Text Protocol FileNames FileCore Disk Store Targets.
Local Open Scope string_scope.
Local Open Scope list_scope.
Local Open Scope Z_scope.

Definition DATA_PORT : Z := 32188.
Definition TICKET_LIFETIME : Z := 24 * 60 * 60.
(** [app/file_transfer_server.rs:37-39 MAX_DATA_CONNECTIONS] *)
Definition MAX_DATA_CONNECTIONS : Z := 8.

(** [app/file_transfer_server.rs TicketGrant] *)
Record TicketGrant := mkTicketGrant {
  tg_phone_id : string;
  tg_token_hash : list Z;
  tg_expires_at_epoch_seconds : Z;
  tg_direction : TransferDirection;
}.

(** [app/file_transfer_server.rs VerificationJob] [vj_id] tells the shared job
    objects apart; [vj_started] is in seconds. *)
Record VerificationJob := mkVerificationJob {
  vj_id : Z;
  vj_hash : string;
  vj_result : option (result string unit);
  vj_started : Z;
}.

(** A verification that was spawned and has not run. *)
Record VerificationTask := mkVerificationTask {
  vt_job : Z;
  vt_batch_id : string;
  vt_entry : ManifestEntry;
  vt_hash : string;
  vt_direction : TransferDirection;
}.

(** What the process sees of its host: wall clock and monotonic clock in seconds,
    the free bytes of the volume ([None]: the query fails), random bytes and
    uuids to come, modification times of files in 100 ns since 1601, the phones
    that are paired, and whether another task holds [batch_starts]. *)
Record Host := mkHost {
  ho_unix_time : Z;
  ho_instant : Z;
  ho_free : option Z;
  ho_random : list (list Z);
  ho_uuids : list string;
  ho_modified : gmap path Z;
  ho_paired : gset string;
  ho_starting : bool;
}.

(** [app/file_transfer_server.rs FileTransferCoordinator] *)
Record Coordinator := mkCoordinator {
  co_disk : disk;
  co_receive_root : path;
  co_tickets : gmap string TicketGrant;
  co_operations : gset (string * string);
  co_verifications : gmap (string * string) VerificationJob;
  co_tasks : list VerificationTask;
  co_next_job : Z;
  co_host : Host;
}.

Definition set_disk (d : disk) (s : Coordinator) : Coordinator :=
  mkCoordinator d (co_receive_root s) (co_tickets s) (co_operations s) (co_verifications s)
    (co_tasks s) (co_next_job s) (co_host s).
Definition on_tickets (f : gmap string TicketGrant → gmap string TicketGrant) (s : Coordinator) : Coordinator :=
  mkCoordinator (co_disk s) (co_receive_root s) (f (co_tickets s)) (co_operations s) (co_verifications s)
    (co_tasks s) (co_next_job s) (co_host s).
Definition on_operations (f : gset (string * string) → gset (string * string)) (s : Coordinator) : Coordinator :=
  mkCoordinator (co_disk s) (co_receive_root s) (co_tickets s) (f (co_operations s)) (co_verifications s)
    (co_tasks s) (co_next_job s) (co_host s).
Definition on_verifications
    (f : gmap (string * string) VerificationJob → gmap (string * string) VerificationJob)
    (s : Coordinator) : Coordinator :=
  mkCoordinator (co_disk s) (co_receive_root s) (co_tickets s) (co_operations s) (f (co_verifications s))
    (co_tasks s) (co_next_job s) (co_host s).
Definition spawn (task : VerificationTask) (s : Coordinator) : Coordinator :=
  mkCoordinator (co_disk s) (co_receive_root s) (co_tickets s) (co_operations s) (co_verifications s)
    (co_tasks s ++ [task]) (co_next_job s + 1) (co_host s).
Definition on_host (f : Host → Host) (s : Coordinator) : Coordinator :=
  mkCoordinator (co_disk s) (co_receive_root s) (co_tickets s) (co_operations s) (co_verifications s)
    (co_tasks s) (co_next_job s) (f (co_host s)).
(** [app/file_transfer_server.rs FileTransferCoordinator::set_receive_root] *)
Definition set_receive_root (p : path) (s : Coordinator) : Coordinator :=
  mkCoordinator (co_disk s) p (co_tickets s) (co_operations s) (co_verifications s)
    (co_tasks s) (co_next_job s) (co_host s).

Notation co := (sr Coordinator string).

(** [.map_err(|_| code)?] on a call of the store. *)
Definition on_disk {A} (c : io A) (code : string) : co A := λ s,
  match c (co_disk s) with
  | (Ok a, d) => (Ok a, set_disk d s)
  | (Err _, d) => (Err code, set_disk d s)
  end.
(** A call whose error the code looks at; a stopped process does not. *)
Definition disk_result {A} (c : io A) : co (result io_error A) := λ s,
  match c (co_disk s) with
  | (Ok a, d) => (Ok (Ok a), set_disk d s)
  | (Err e, d) => if d_halted d then (Err "stopped", set_disk d s) else (Ok (Err e), set_disk d s)
  end.
(** [.ok()]. *)
Definition disk_ok {A} (c : io A) : co (option A) :=
  r ← disk_result c;
  mret match r with Ok a => Some a | Err _ => None end.

Definition refuse (b : bool) (code : string) : co unit := if b then sr_fail code else mret tt.
Definition with_code {E A} (r : result E A) (code : string) : co A :=
  sr_lift match r with Ok a => Ok a | Err _ => Err code end.
Definition unix_time : co Z := s ← sr_get; mret (ho_unix_time (co_host s)).

(** The coordinator also uses the base64 crate and the digest of tokens. *)
Class CoordinatorEnv := {
  #[global] coordinator_store :: StoreEnv;
  base64_url : list Z → string;
  sha256 : list Z → list Z;
  sha256_length l : length (sha256 l) = 32%nat;
}.

(** [app/file_transfer_server.rs constant_time_equal] *)
Definition constant_time_equal (left right : list Z) : bool :=
  foldl (λ difference '(l, r), Z.lor difference (Z.lxor l r)) 0 (zip left right) =? 0.

Section coordinator.
Context `{CoordinatorEnv}.

(** ** Tickets *)

(** [app/file_transfer_server.rs FileTransferCoordinator::issue_ticket] *)
Definition issue_ticket (batch_id phone_id : string) : co FileServerMessage :=
  s ← sr_get;
  let secret := default [] (head (ho_random (co_host s))) in
  _ ← sr_modify (on_host (λ h, mkHost (ho_unix_time h) (ho_instant h) (ho_free h) (tail (ho_random h))
                                (ho_uuids h) (ho_modified h) (ho_paired h) (ho_starting h)));
  let token := base64_url secret in
  let token_hash := sha256 (bytes_of token) in
  now ← unix_time;
  let expires_at_epoch_seconds := saturating_add64 now TICKET_LIFETIME in
  batch ← on_disk (load_batch batch_id) "unknown batch";
  _ ← sr_modify (on_tickets <[batch_id :=
        mkTicketGrant phone_id token_hash expires_at_epoch_seconds (br_direction batch)]>);
  mret (SmFileTicket (mkFileTicket PROTOCOL_VERSION FILE_TRANSFER_VERSION batch_id DATA_PORT token
                        expires_at_epoch_seconds)).

(** [app/file_transfer_server.rs FileTransferCoordinator::authorize] *)
Definition authorize (batch_id bearer : string) : co bool :=
  now ← unix_time;
  _ ← sr_modify (on_tickets (filter (λ kv, now < tg_expires_at_epoch_seconds kv.2)));
  s ← sr_get;
  match co_tickets s !! batch_id with
  | None => mret false
  | Some grant =>
    let supplied := sha256 (bytes_of bearer) in
    if constant_time_equal (tg_token_hash grant) supplied
    then
      batch ← disk_ok (load_batch batch_id);
      mret match batch with
           | Some batch => bool_decide (br_phone_id batch = tg_phone_id grant)
                           && negb (is_terminal (br_state batch))
           | None => false
           end
    else mret false
  end.

(** [app/file_transfer_server.rs FileTransferCoordinator::ticket_is_active] *)
Definition ticket_is_active (batch_id : string) : co bool :=
  now ← unix_time;
  s ← sr_get;
  mret match co_tickets s !! batch_id with
       | Some grant => now <? tg_expires_at_epoch_seconds grant
       | None => false
       end.

(** [app/file_transfer_server.rs FileTransferCoordinator::authorized_direction] *)
Definition authorized_direction (batch_id bearer : string) : co (option TransferDirection) :=
  authorized ← authorize batch_id bearer;
  s ← sr_get;
  mret (if authorized : bool then tg_direction <$> co_tickets s !! batch_id else None).

(** ** Partial files *)

(** The staged body of an entry. *)
Definition part_name (batch_id entry_id : string) : string :=
  ".flowtype-" +:+ batch_id +:+ "-" +:+ entry_id +:+ ".part".

(** [app/file_transfer_server.rs cleanup_partial_files] *)
Definition cleanup_partial_files (batch_id : string) : io unit :=
  batch ← attempt (load_batch batch_id);
  if match batch with
     | Some batch => negb (bool_decide (br_direction batch = PhoneToComputer))
     | None => true
     end
  then mret tt
  else
    complete ← manifest_is_complete batch_id;
    if negb complete then mret tt
    else
      ignore (for_each_manifest_entry (λ entry (_ : unit),
        if bool_decide (me_kind entry = File)
        then
          target ← attempt (target_path batch_id (me_ordinal entry));
          match target ≫= parent with
          | Some parent => ignore (remove_file (parent ++ [part_name batch_id (me_entry_id entry)]))
          | None => mret tt
          end
        else mret tt) batch_id tt).

Fixpoint remove_expired (batches : list BatchRecord) (cutoff : Z) : io unit :=
  match batches with
  | [] => mret tt
  | batch :: batches =>
    _ ← (if cutoff <=? br_updated_at_epoch_seconds batch then mret tt
         else
           _ ← cleanup_partial_files (br_batch_id batch);
           ignore (delete_batch (br_batch_id batch)));
    remove_expired batches cutoff
  end.

(** [app/file_transfer_server.rs cleanup_expired] *)
Definition cleanup_expired (cutoff : Z) : io unit :=
  batches ← attempt batches;
  match batches with
  | None => mret tt
  | Some batches => remove_expired batches cutoff
  end.

(** [app/file_transfer_server.rs FileTransferCoordinator::load_default] What the
    new coordinator starts from, once the store is there. *)
Definition load_default (d : disk) (receive_root : path) (host : Host) : Coordinator :=
  let d := (cleanup_expired (saturating_sub (ho_unix_time host) (7 * 24 * 60 * 60)) d).2 in
  mkCoordinator d receive_root ∅ ∅ ∅ [] 0 host.

(** ** Operations *)

(** [app/file_transfer_server.rs FileTransferCoordinator::acquire_operation] The
    key of the lease. *)
Definition operation_key (batch_id action : string) : string * string :=
  (batch_id, match split_once 47 (bytes_of action) with
             | Some (_, id) => of_bytes id
             | None => action
             end).
Definition starts_with (prefix s : string) : bool :=
  bool_decide (is_Some (strip_prefix (bytes_of prefix) (bytes_of s))).
Definition acquire_operation (batch_id action : string) : co (string * string) :=
  s ← sr_get;
  let key := operation_key batch_id action in
  _ ← refuse (negb (starts_with "verify/" action) && bool_decide (is_Some (co_verifications s !! key)))
        "transfer_busy";
  _ ← refuse (bool_decide (key ∈ co_operations s)) "transfer_busy";
  _ ← sr_modify (on_operations ({[ key ]} ∪.));
  mret key.

Definition cleanup_if_canceled (batch_id : string) : co unit :=
  batch ← disk_ok (load_batch batch_id);
  match batch with
  | Some batch =>
    if bool_decide (br_state batch = Canceled)
    then _ ← disk_ok (cleanup_partial_files batch_id); mret tt
    else mret tt
  | None => mret tt
  end.

(** [app/file_transfer_server.rs:68-83 OperationLease::drop] *)
Definition drop_operation (key : string * string) : co unit :=
  _ ← sr_modify (on_operations (.∖ {[ key ]}));
  cleanup_if_canceled key.1.

(** ** Control messages *)

(** [app/file_transfer_server.rs FileTransferCoordinator::cancel] *)
Definition cancel (batch_id phone_id : string) : co unit :=
  batch ← on_disk (load_batch batch_id) "unknown batch";
  _ ← refuse (negb (bool_decide (br_phone_id batch = phone_id))) "batch owner mismatch";
  _ ← (if is_terminal (br_state batch) then mret tt
       else
         now ← unix_time;
         _ ← on_disk (update_state batch_id Canceled now) "cannot cancel batch";
         mret tt);
  _ ← sr_modify (on_tickets (delete batch_id));
  _ ← disk_ok (cleanup_partial_files batch_id);
  mret tt.

(** [let _ = c], unless the process was stopped. *)
Definition co_ignore {A} (c : co A) : co unit := λ s,
  let '(_, s) := c s in (if d_halted (co_disk s) then Err "stopped" else Ok tt, s).

Fixpoint cancel_all (batches : list BatchRecord) (phone_id : string) : co unit :=
  match batches with
  | [] => mret tt
  | batch :: batches => _ ← co_ignore (cancel (br_batch_id batch) phone_id); cancel_all batches phone_id
  end.

(** [app/file_transfer_server.rs FileTransferCoordinator::revoke_phone] *)
Definition revoke_phone (phone_id : string) : co unit :=
  _ ← sr_modify (on_tickets (filter (λ kv, tg_phone_id kv.2 ≠ phone_id)));
  batches ← disk_ok recoverable_batches;
  match batches with
  | Some batches => cancel_all (filter (λ batch, br_phone_id batch = phone_id) batches) phone_id
  | None => mret tt
  end.

(** [app/file_transfer_server.rs FileTransferCoordinator::accept_offer] *)
Definition accept_offer (offer : FileOffer) (authenticated_phone_id : string) : co FileServerMessage :=
  _ ← with_code (FileOffer_validate offer authenticated_phone_id) "invalid file offer";
  _ ← refuse (negb (bool_decide (fo_direction offer = PhoneToComputer))) "unexpected transfer direction";
  s ← sr_get;
  _ ← refuse (ho_starting (co_host s)) "transfer_busy";
  known ← disk_ok (load_batch (fo_batch_id offer));
  _ ← match known with
      | Some _ => mret tt
      | None =>
        batches ← on_disk recoverable_batches "batch_unavailable";
        refuse (existsb (λ batch, bool_decide (br_phone_id batch = authenticated_phone_id)) batches)
          "transfer_busy"
      end;
  now ← unix_time;
  batch ← on_disk (BatchRecord_new (fo_batch_id offer) (fo_phone_id offer) (fo_direction offer) now
                     (fo_file_count offer) (fo_directory_count offer) (fo_total_bytes offer)) "invalid batch";
  created ← disk_result (create_batch batch);
  match created with
  | Ok _ => issue_ticket (fo_batch_id offer) authenticated_phone_id
  | Err AlreadyExists =>
    existing ← on_disk (load_batch (fo_batch_id offer)) "cannot resume batch";
    _ ← refuse (negb (bool_decide (br_phone_id existing = fo_phone_id offer))
                || negb (bool_decide (br_direction existing = fo_direction offer))
                || negb (br_file_count existing =? fo_file_count offer)
                || negb (br_directory_count existing =? fo_directory_count offer)
                || negb (br_total_bytes existing =? fo_total_bytes offer)) "batch id conflict";
    if is_terminal (br_state existing)
    then mret (SmFileResult (br_batch_id existing) (br_state existing))
    else issue_ticket (fo_batch_id offer) authenticated_phone_id
  | Err _ => sr_fail "cannot create batch"
  end.

(** [app/file_transfer_server.rs FileTransferCoordinator::accept_decision] *)
Definition accept_decision (decision : FileDecision) (phone_id : string) : co (option FileServerMessage) :=
  _ ← with_code (FileDecision_validate decision) "invalid file decision";
  let batch_id := fd_batch_id decision in
  batch ← on_disk (load_batch batch_id) "unknown batch";
  _ ← refuse (negb (bool_decide (br_phone_id batch = phone_id))
              || negb (bool_decide (br_direction batch = ComputerToPhone))) "batch owner mismatch";
  if is_terminal (br_state batch)
  then mret (Some (SmFileResult (br_batch_id batch) (br_state batch)))
  else if negb (fd_accepted decision)
  then _ ← cancel batch_id phone_id; mret None
  else
    _ ← (if bool_decide (br_state batch = WaitingConfirmation)
         then now ← unix_time;
              _ ← on_disk (update_state batch_id Queued now) "cannot accept batch"; mret tt
         else mret tt);
    queued ← on_disk (load_batch batch_id) "unknown batch";
    _ ← (if bool_decide (br_state queued = Queued) || bool_decide (br_state queued = WaitingNetwork)
         then now ← unix_time;
              _ ← on_disk (update_state batch_id Preparing now) "cannot prepare batch"; mret tt
         else mret tt);
    prepared ← on_disk (load_batch batch_id) "unknown batch";
    _ ← (if bool_decide (br_state prepared = Preparing)
         then now ← unix_time;
              _ ← on_disk (update_state batch_id Transferring now) "cannot start batch"; mret tt
         else mret tt);
    ticket ← issue_ticket batch_id phone_id;
    mret (Some ticket).

(** [app/file_transfer_server.rs FileTransferCoordinator::handle_control] [batch_id]
    is the string of that name in the message, or empty; [message] is [None] when
    it is not a client message. *)
Definition handle_control (batch_id : string) (message : option FileClientMessage) (phone_id : string)
    : Coordinator → option FileServerMessage * Coordinator := λ s,
  let '(result, s) :=
    match message with
    | None => sr_fail "invalid file request"
    | Some (CmFileOffer offer) => reply ← accept_offer offer phone_id; mret (Some reply)
    | Some (CmFileDecision decision) => accept_decision decision phone_id
    | Some (CmFileCancel cancel_message) =>
      _ ← with_code (FileCancel_validate cancel_message) "invalid file cancellation";
      _ ← cancel (fc_batch_id cancel_message) phone_id;
      mret None
    end s in
  (match result with Ok reply => reply | Err code => Some (SmFileError batch_id code) end, s).

(** [app/file_transfer_server.rs has_available_space] *)
Definition has_available_space (p : path) (required : Z) : co bool :=
  created ← disk_ok (create_dir_all p);
  match created with
  | None => mret false
  | Some _ =>
    s ← sr_get;
    mret match ho_free (co_host s) with
         | Some available => saturating_add64 required (64 * 1024 * 1024) <=? available
         | None => false
         end
  end.

(** [app/file_transfer_server.rs FileTransferCoordinator::prepare_incoming] *)
Definition prepare_incoming (batch_id : string) : co unit :=
  batch ← on_disk (load_batch batch_id) "batch_unavailable";
  _ ← refuse (is_terminal (br_state batch)) "transfer_canceled";
  s ← sr_get;
  let receive_root := match br_target_root batch with
                      | Some root => path_of_string root
                      | None => co_receive_root s
                      end in
  _ ← match br_target_root batch with
      | Some _ => mret tt
      | None => space ← has_available_space receive_root (br_total_bytes batch);
                refuse (negb space) "insufficient_space"
      end;
  now ← unix_time;
  _ ← on_disk (prepare_windows_targets batch_id receive_root now) "target_preparation_failed";
  _ ← (if bool_decide (br_state batch = Queued) || bool_decide (br_state batch = WaitingNetwork)
       then now ← unix_time;
            _ ← on_disk (update_state batch_id Preparing now) "batch_state_failed"; mret tt
       else mret tt);
  now ← unix_time;
  _ ← on_disk (update_state batch_id Transferring now) "batch_state_failed";
  mret tt.
End coordinator.
