(* ===== verification/Outbound.v ===== *)
(** * Transfers to the phone, and what the window shows

    [flowtype-app/src/file_transfer_server.rs]: planning and indexing the files
    to send, the offers that wait for the phone, and the snapshot of a
    transfer. *)

From S2P Require Import Prelude Text Protocol FileNames FileCore Disk Store Targets Coordinator.
Local Open Scope string_scope.
Local Open Scope list_scope.
Local Open Scope Z_scope.

(** [app/file_transfer_server.rs OutboundPlan] *)
Record OutboundPlan := mkOutboundPlan {
  op_roots : list (path * string);
  op_summaries : list string;
  op_file_count : Z;
  op_directory_count : Z;
  op_total_bytes : Z;
}.

(** [app/file_transfer_server.rs OutboundStats] *)
Record OutboundStats := mkOutboundStats {
  os_next_ordinal : Z;
  os_file_count : Z;
  os_directory_count : Z;
  os_total_bytes : Z;
}.

(** [app/file_transfer_server.rs FileTransferSnapshot] *)
Record FileTransferSnapshot := mkFileTransferSnapshot {
  fs_batch_id : string;
  fs_direction : TransferDirection;
  fs_state : BatchState;
  fs_completed_bytes : Z;
  fs_total_bytes : Z;
  fs_completed_entries : Z;
  fs_failed_entries : Z;
  fs_failed_paths : list string;
  fs_total_entries : Z;
}.

(** [app/file_transfer_server.rs FileTransferSnapshot::active] *)
Definition snapshot_active (self : FileTransferSnapshot) : bool := negb (is_terminal (fs_state self)).

(** Milliseconds since 1970 of a time in 100 ns since 1601, if it is not before
    and fits [i64]. *)
Definition unix_millis (ticks : Z) : option Z :=
  let since := ticks - 116444736000000000 in
  if (since <? 0) || (I64_MAX <? since / 10000) then None else Some (since / 10000).

(** The order of strings, by characters. *)
Fixpoint lex_leb (a b : list Z) : bool :=
  match a, b with
  | [], _ => true
  | _ :: _, [] => false
  | x :: a, y :: b => (x <? y) || ((x =? y) && lex_leb a b)
  end.

Section outbound.
Context `{CoordinatorEnv}.

(** [app/file_transfer_server.rs sorted_children] The names of the children, by
    their lower case. *)
Definition child_before (a b : string) : bool :=
  lex_leb (to_lowercase (chars a)) (to_lowercase (chars b)).
Definition sorted_children (p : path) : co (list string) :=
  children ← on_disk (read_dir p) "source directory cannot be read";
  mret (stable_sort child_before children.*1).

Definition add_checked (a b : Z) : co Z := with_code (ok_or (checked_add64 a b) tt) "batch is too large".

(** [app/file_transfer_server.rs count_outbound] The counts are (files,
    directories, bytes); a directory of depth [fuel] is not entered. *)
Fixpoint count_outbound (fuel : nat) (p : path) (counts : Z * Z * Z) : co (Z * Z * Z) :=
  match fuel with
  | O => sr_fail "out of fuel"
  | S fuel =>
    let '(file_count, directory_count, total_bytes) := counts in
    metadata ← on_disk (metadata p) "source unavailable";
    _ ← refuse (md_symlink metadata) "symbolic links are not supported";
    if md_dir metadata
    then
      directory_count ← add_checked directory_count 1;
      children ← sorted_children p;
      foldl (λ acc child, counts ← acc; count_outbound fuel (p ++ [child]) counts)
        (mret (file_count, directory_count, total_bytes)) children
    else if md_file metadata
    then
      file_count ← add_checked file_count 1;
      total_bytes ← add_checked total_bytes (md_len metadata);
      mret (file_count, directory_count, total_bytes)
    else sr_fail "source type is not supported"
  end.

Fixpoint plan_roots (fuel : nat) (roots : list path) (root_names : gset (list Z)) (counts : Z * Z * Z)
    : co (list (path * string) * (Z * Z * Z)) :=
  match roots with
  | [] => mret ([], counts)
  | root :: roots =>
    metadata ← on_disk (metadata root) "source unavailable";
    _ ← refuse (md_symlink metadata) "symbolic links are not supported";
    name ← with_code (ok_or (file_name root) tt) "source name is not Unicode";
    reserved ← with_code (ok_or (reserve to_lowercase (S (size root_names)) root_names (chars name)
                                   (md_dir metadata)) tt) "out of fuel";
    let wire_name := of_chars reserved.1 in
    counts ← count_outbound fuel root counts;
    rest ← plan_roots fuel roots reserved.2 counts;
    mret ((root, wire_name) :: rest.1, rest.2)
  end.

(** [app/file_transfer_server.rs prepare_outbound_plan] *)
Definition prepare_outbound_plan (fuel : nat) (roots : list path) : co OutboundPlan :=
  _ ← refuse (bool_decide (roots = [])) "no files selected";
  r ← plan_roots fuel roots ∅ (0, 0, 0);
  let '(planned_roots, (file_count, directory_count, total_bytes)) := r in
  _ ← refuse (MAX_WIRE_INTEGER <? total_bytes) "batch is too large";
  mret (mkOutboundPlan planned_roots (take 8 planned_roots.*2) file_count directory_count total_bytes).

(** What [write_outbound] carries along. *)
Definition OutboundWriters : Type := OutboundStats * ManifestWriter * SourceWriter.

(** [Uuid::new_v4().to_string()]. *)
Definition new_uuid : co string :=
  s ← sr_get;
  _ ← sr_modify (on_host (λ h, mkHost (ho_unix_time h) (ho_instant h) (ho_free h) (ho_random h)
                                (tail (ho_uuids h)) (ho_modified h) (ho_paired h) (ho_starting h)));
  mret (default "" (head (ho_uuids (co_host s)))).

(** [app/file_transfer_server.rs write_outbound] *)
Fixpoint write_outbound (fuel : nat) (p : path) (relative_path : string) (acc : OutboundWriters)
    : co OutboundWriters :=
  match fuel with
  | O => sr_fail "out of fuel"
  | S fuel =>
    let '(stats, manifest, sources) := acc in
    _ ← with_code (validate_relative_path relative_path) "source path is not transferable";
    metadata ← on_disk (metadata p) "source unavailable";
    _ ← refuse (md_symlink metadata) "symbolic links are not supported";
    counts ← (if md_dir metadata
              then n ← add_checked (os_directory_count stats) 1;
                   mret (os_file_count stats, n, os_total_bytes stats)
              else n ← add_checked (os_file_count stats) 1;
                   bytes ← add_checked (os_total_bytes stats) (md_len metadata);
                   mret (n, os_directory_count stats, bytes));
    let '(file_count, directory_count, total_bytes) := counts in
    s ← sr_get;
    let modified_at_epoch_millis := ho_modified (co_host s) !! p ≫= unix_millis in
    let ordinal := os_next_ordinal stats in
    entry_id ← new_uuid;
    let entry := mkManifestEntry ordinal entry_id relative_path
      (if md_dir metadata then Directory else File)
      (if md_file metadata then md_len metadata else 0) modified_at_epoch_millis None None in
    manifest ← on_disk (ManifestWriter_append manifest entry) "cannot write outbound manifest";
    sources ← on_disk (SourceWriter_append sources ordinal p) "cannot write outbound source";
    next_ordinal ← add_checked ordinal 1;
    let acc := (mkOutboundStats next_ordinal file_count directory_count total_bytes, manifest, sources) in
    if md_dir metadata
    then
      children ← sorted_children p;
      foldl (λ acc name, acc ← acc; write_outbound fuel (p ++ [name]) (relative_path +:+ "/" +:+ name) acc)
        (mret acc) children
    else mret acc
  end.

(** The directories of the batch are complete at once. *)
Fixpoint complete_directories (batch_id : string) (ordinals : list Z) : co unit :=
  match ordinals with
  | [] => mret tt
  | ordinal :: ordinals =>
    entry ← on_disk (manifest_entry batch_id ordinal) "cannot read outbound manifest";
    _ ← (if bool_decide (me_kind entry = Directory)
         then on_disk (write_progress batch_id (me_ordinal entry) (mkEntryProgress ECompleted 0))
                "cannot initialize outbound directory"
         else mret tt);
    complete_directories batch_id ordinals
  end.

(** A step of the preparation whose failure deletes the batch, after dropping
    the manifest's writer. *)
Definition or_delete {A} (batch_id : string) (c : co A) : co A := λ s,
  match c s with
  | (Ok a, s) => (Ok a, s)
  | (Err code, s) =>
    let '(_, s) := disk_ok (_ ← ManifestWriter_drop (store_root ++ [batch_id]); delete_batch batch_id) s in
    (Err code, s)
  end.
Definition or_delete_finished {A} (batch_id : string) (c : co A) : co A := λ s,
  match c s with
  | (Ok a, s) => (Ok a, s)
  | (Err code, s) => let '(_, s) := disk_ok (delete_batch batch_id) s in (Err code, s)
  end.

(** [app/file_transfer_server.rs FileTransferCoordinator::create_outbound_offer] *)
Definition create_outbound_offer (fuel : nat) (phone_id : string) (roots : list path) : co FileOffer :=
  s ← sr_get;
  _ ← refuse (ho_starting (co_host s)) "transfer_busy";
  batches ← on_disk recoverable_batches "batch_unavailable";
  _ ← refuse (existsb (λ batch, bool_decide (br_phone_id batch = phone_id)) batches)
        "a file transfer is already active";
  prepared ← prepare_outbound_plan fuel roots;
  now ← unix_time;
  batch_id ← new_uuid;
  batch ← on_disk (BatchRecord_new batch_id phone_id ComputerToPhone now (op_file_count prepared)
                     (op_directory_count prepared) (op_total_bytes prepared)) "invalid outbound batch";
  _ ← on_disk (create_batch batch) "cannot create outbound batch";
  manifest ← or_delete_finished batch_id (on_disk (begin_manifest batch_id) "cannot create outbound manifest");
  acc ← or_delete batch_id (
    sources ← on_disk (begin_source_paths batch_id) "cannot create outbound source index";
    acc ← foldl (λ acc root, acc ← acc; write_outbound fuel root.1 root.2 acc)
            (mret (mkOutboundStats 0 0 0 0, manifest, sources)) (op_roots prepared);
    let actual := acc.1.1 in
    _ ← refuse (negb (os_file_count actual =? op_file_count prepared)
                || negb (os_directory_count actual =? op_directory_count prepared)
                || negb (os_total_bytes actual =? op_total_bytes prepared))
          "source changed while preparing transfer";
    mret acc);
  let '(actual, manifest, sources) := acc in
  or_delete_finished batch_id (
    _ ← on_disk (ManifestWriter_finish manifest) "cannot finish outbound manifest";
    _ ← on_disk (SourceWriter_finish sources) "cannot save outbound sources";
    _ ← complete_directories batch_id (Z.of_nat <$> seq 0 (Z.to_nat (os_next_ordinal actual)));
    mret (mkFileOffer PROTOCOL_VERSION FILE_TRANSFER_VERSION phone_id batch_id ComputerToPhone
            (op_file_count prepared) (op_directory_count prepared) (op_total_bytes prepared)
            (op_summaries prepared))).

(** The names at the top of a manifest, at most eight. *)
Definition root_of (entry : ManifestEntry) : string :=
  of_chars (before_sep 47 (chars (me_relative_path entry))).
Definition collect_root (entry : ManifestEntry) (roots : list string) : io (list string) :=
  let root := root_of entry in
  mret (if negb (str_is_empty root) && negb (bool_decide (root ∈ roots)) && (zlength roots <? 8)
        then roots ++ [root] else roots).

Fixpoint offers_of (batches : list BatchRecord) : co (list FileOffer) :=
  match batches with
  | [] => mret []
  | batch :: batches =>
    roots ← disk_ok (for_each_manifest_entry collect_root (br_batch_id batch) []);
    offers ← offers_of batches;
    mret match roots with
         | Some (_, roots) =>
           mkFileOffer PROTOCOL_VERSION FILE_TRANSFER_VERSION (br_phone_id batch) (br_batch_id batch)
             (br_direction batch) (br_file_count batch) (br_directory_count batch)
             (br_total_bytes batch) roots :: offers
         | None => offers
         end
  end.

(** [app/file_transfer_server.rs FileTransferCoordinator::pending_outbound_offers] *)
Definition pending_outbound_offers (phone_id : string) : co (list FileOffer) :=
  batches ← disk_ok recoverable_batches;
  offers_of (filter (λ batch, br_phone_id batch = phone_id ∧ br_direction batch = ComputerToPhone)
               (default [] batches)).

(** The order of [max_by_key], which keeps the last of equal keys. *)
Definition shown_before (a b : BatchRecord) : bool :=
  let ka := negb (is_terminal (br_state a)) in let kb := negb (is_terminal (br_state b)) in
  (negb ka && kb)
  || (Bool.eqb ka kb
      && ((br_updated_at_epoch_seconds a <? br_updated_at_epoch_seconds b)
          || ((br_updated_at_epoch_seconds a =? br_updated_at_epoch_seconds b)
              && String.leb (br_batch_id a) (br_batch_id b)))).
Definition max_batch (batches : list BatchRecord) : option BatchRecord :=
  foldl (λ best batch, match best with
                       | None => Some batch
                       | Some best => Some (if shown_before best batch then batch else best)
                       end) None batches.

(** [app/file_transfer_server.rs FileTransferCoordinator::transfer_snapshot] *)
Definition transfer_snapshot (phone_id : string) : co (option FileTransferSnapshot) :=
  batches ← disk_ok batches;
  match batches ≫= (λ batches, max_batch (filter (λ batch, br_phone_id batch = phone_id) batches)) with
  | None => mret None
  | Some batch =>
    let total_entries := saturating_add64 (br_file_count batch) (br_directory_count batch) in
    progress ← disk_ok (progress_summary (br_batch_id batch) total_entries);
    let progress := default (mkProgressSummary 0 0 0) progress in
    failed ← (if 0 <? ps_failed_entries progress
              then paths ← disk_ok (failed_paths (br_batch_id batch) 5); mret (default [] paths)
              else mret []);
    mret (Some (mkFileTransferSnapshot (br_batch_id batch) (br_direction batch) (br_state batch)
                  (Z.min (ps_completed_bytes progress) (br_total_bytes batch)) (br_total_bytes batch)
                  (Z.min (ps_completed_entries progress) total_entries)
                  (Z.min (ps_failed_entries progress) total_entries) failed total_entries))
  end.
End outbound.
