(* ===== verification/DataServer.v ===== *)
(** * The data connections

    [flowtype-app/src/file_transfer_server.rs], second part: the HTTP requests
    that carry manifests and files. A request is routed and answered by one
    program; between the frames of its body other connections run, as an
    arbitrary change of the coordinator that comes with each frame. *)

From S2P Require Import Prelude Text Protocol FileNames FileCore Disk Store Targets Coordinator Outbound.
Local Open Scope string_scope.
Local Open Scope list_scope.
Local Open Scope Z_scope.

(** ** Requests and responses *)

Inductive Method := GET | HEAD | POST | OtherMethod.
#[export] Instance Method_eq_dec : EqDecision Method.
Proof. solve_decision. Defined.

(** What the wait for a frame of the body gives: a timeout, an error, data, or
    trailers. *)
Inductive Frame := FrTimeout | FrError | FrData (data : list Z) | FrTrailers.

(** A wait, with what the other tasks did to the coordinator during it, and
    whether a second passed since progress was last persisted. *)
Record BodyEvent := mkBodyEvent {
  be_others : Coordinator → Coordinator;
  be_frame : Frame;
  be_second_passed : bool;
}.

Record Request := mkRequest {
  rq_method : Method;
  rq_path : string;
  rq_headers : list (string * list Z);
  rq_body : list BodyEvent;
}.

(** The successful responses, with their status codes. *)
Inductive Response :=
| ReHealth                                                          (* 200 *)
| ReCompleted                                                       (* 200 *)
| ReFailed (code : string)                                          (* 200 *)
| ReVerifying                                                       (* 202 *)
| ReVerified                                                        (* 200 *)
| ReContent (first end_ size : Z) (bytes : list Z)                  (* 206 *)
| ReOffset (committed_offset length : Z)                            (* 204 *)
| ReReceived (committed_offset : Z) (completed : bool) (sha256 : option string) (* 200 *)
| ReManifest (next count : Z) (body : list Z)                       (* 200 *)
| ReResumed                                                         (* 200 *)
| ReAccepted.                                                       (* 201 *)

Notation http := (sr Coordinator (Z * string)).

(** [.map_err(|code| (status, code))]. *)
Definition at_status {A} (status : Z) (c : co A) : http A := λ s,
  match c s with
  | (Ok a, s) => (Ok a, s)
  | (Err code, s) => (Err (status, code), s)
  end.
Definition reject {A} (status : Z) (code : string) : http A := sr_fail (status, code).
Definition reject_if (b : bool) (status : Z) (code : string) : http unit :=
  if b then reject status code else mret tt.
Definition or_reject {A} (o : option A) (status : Z) (code : string) : http A :=
  match o with Some a => mret a | None => reject status code end.

(** [HeaderMap::get], and [HeaderValue::to_str]: visible ASCII and tabs. *)
Definition header_bytes (name : string) (r : Request) : option (list Z) :=
  snd <$> head (filter (λ h, h.1 = name) (rq_headers r)).
Definition header (name : string) (r : Request) : option (list Z) :=
  value ← header_bytes name r;
  if forallb (λ b, ((32 <=? b) && (b <? 127)) || (b =? 9)) value then Some value else None.
Definition header_u64 (name : string) (r : Request) : option Z :=
  header name r ≫= parse_unsigned U64_MAX.

(** [app/file_transfer_server.rs bearer_token] *)
Definition bearer_token (r : Request) : option string :=
  value ← header "authorization" r;
  token ← strip_prefix (bytes_of "Bearer ") value;
  if bool_decide (token = []) then None else Some (of_bytes token).

(** [app/file_transfer_server.rs parse_range] *)
Definition parse_range (value : list Z) (total : Z) : option (Z * Z) :=
  if total =? 0 then None
  else
    rest ← strip_prefix (bytes_of "bytes=") value;
    '(start, requested_end) ← split_once 45 rest;
    start ← parse_unsigned U64_MAX start;
    if total <=? start then None
    else
      requested_end ← (if bool_decide (requested_end = []) then Some (total - 1)
                       else requested_end ← parse_unsigned U64_MAX requested_end;
                            Some (Z.min requested_end (total - 1)));
      if requested_end <? start then None
      else Some (start, Z.min requested_end (saturating_add64 start (8 * 1024 * 1024 - 1))).

Section server.
Context `{CoordinatorEnv}.

(** [app/file_transfer_server.rs hash_file] *)
Definition hash_file (p : path) : io string :=
  contents ← read p;
  mret (sha256_hex contents).

(** [app/file_transfer_server.rs source_matches_entry] *)
Definition source_matches_entry (p : path) (entry : ManifestEntry) : co bool :=
  metadata ← disk_ok (metadata p);
  s ← sr_get;
  mret match metadata with
       | None => false
       | Some metadata =>
         if md_symlink metadata || negb (md_file metadata) || negb (md_len metadata =? me_size entry)
         then false
         else match me_modified_at_epoch_millis entry with
              | None => true
              | Some expected =>
                bool_decide ((ho_modified (co_host s) !! p ≫= unix_millis) = Some expected)
              end
       end.

(** [app/file_transfer_server.rs preserve_modified_time] *)
Definition preserve_modified_time (p : path) (unix_millis : Z) : co unit :=
  if unix_millis <? 0 then mret tt
  else
    let ticks := Z.min (Z.min (unix_millis + 11644473600000) U64_MAX * 10000) U64_MAX in
    opened ← disk_ok (open_existing p);
    match opened with
    | None => mret tt
    | Some _ =>
      sr_modify (on_host (λ h, mkHost (ho_unix_time h) (ho_instant h) (ho_free h) (ho_random h)
                              (ho_uuids h) (<[p := ticks]> (ho_modified h)) (ho_paired h) (ho_starting h)))
    end.

(** ** Verification *)

(** Strings equal without regard to ASCII case, as hashes are compared. *)
Notation same_hash := eq_ignore_ascii_case.

(** [app/file_transfer_server.rs commit_uploaded_file] *)
Definition commit_uploaded_file (batch_id : string) (entry : ManifestEntry) (supplied_hash : string) : co unit :=
  target ← on_disk (target_path batch_id (me_ordinal entry)) "target_unavailable";
  parent ← with_code (ok_or (parent target) tt) "target_unavailable";
  let part := parent ++ [part_name batch_id (me_entry_id entry)] in
  staged ← on_disk (path_exists part) "stopped";
  let p := if staged : bool then part else target in
  length ← on_disk (file_len p) "target_unavailable";
  _ ← (if negb (length =? me_size entry) then sr_fail "integrity_failed"
       else
         hash ← on_disk (hash_file p) "target_unavailable";
         refuse (negb (same_hash hash supplied_hash)) "integrity_failed");
  active ← ticket_is_active batch_id;
  _ ← refuse (negb active) "transfer_canceled";
  _ ← (if staged
       then
         exists_ ← on_disk (path_exists target) "stopped";
         _ ← refuse exists_ "target_exists";
         _ ← on_disk (rename part target) "commit_failed";
         match me_modified_at_epoch_millis entry with
         | Some modified => preserve_modified_time target modified
         | None => mret tt
         end
       else mret tt);
  on_disk (write_progress batch_id (me_ordinal entry) (mkEntryProgress ECompleted (me_size entry)))
    "progress_unavailable".

(** [app/file_transfer_server.rs verify_entry] *)
Definition verify_entry (batch_id : string) (entry : ManifestEntry) (supplied_hash : string)
    (direction : TransferDirection) : co unit :=
  _ ← refuse (match me_sha256 entry with Some hash => negb (same_hash hash supplied_hash) | None => false end)
        "integrity_failed";
  if bool_decide (direction = PhoneToComputer)
  then commit_uploaded_file batch_id entry supplied_hash
  else
    source ← on_disk (source_path batch_id (me_ordinal entry)) "source_unavailable";
    same ← source_matches_entry source entry;
    _ ← refuse (negb same) "source_changed";
    source_hash ← on_disk (hash_file source) "source_unavailable";
    same ← source_matches_entry source entry;
    _ ← refuse (negb same) "source_changed";
    _ ← refuse (negb (same_hash source_hash supplied_hash)) "integrity_failed";
    active ← ticket_is_active batch_id;
    _ ← refuse (negb active) "transfer_canceled";
    on_disk (write_progress batch_id (me_ordinal entry) (mkEntryProgress ECompleted (me_size entry)))
      "progress_unavailable".

(** [app/file_transfer_server.rs FileTransferCoordinator::poll_verification] *)
Definition poll_verification (batch_id : string) (entry : ManifestEntry) (hash : string)
    (direction : TransferDirection) : co bool :=
  let key := (batch_id, me_entry_id entry) in
  s ← sr_get;
  let now := ho_instant (co_host s) in
  _ ← sr_modify (on_verifications
        (filter (λ kv, now - vj_started kv.2 < 600 ∨ vj_result kv.2 = None)));
  s ← sr_get;
  match co_verifications s !! key with
  | Some job =>
    _ ← refuse (negb (bool_decide (vj_hash job = hash))) "integrity_failed";
    match vj_result job with
    | Some result =>
      _ ← sr_modify (on_verifications (delete key));
      _ ← sr_lift result;
      mret true
    | None => mret false
    end
  | None =>
    _ ← (if MAX_DATA_CONNECTIONS <=? Z.of_nat (size (co_verifications s))
         then sr_modify (on_verifications (filter (λ kv, vj_result kv.2 = None)))
         else mret tt);
    s ← sr_get;
    _ ← refuse (MAX_DATA_CONNECTIONS <=? Z.of_nat (size (co_verifications s))) "transfer_busy";
    let id := co_next_job s in
    _ ← sr_modify (on_verifications <[key := mkVerificationJob id hash None (ho_instant (co_host s))]>);
    _ ← sr_modify (spawn (mkVerificationTask id batch_id entry hash direction));
    mret false
  end.

(** [app/file_transfer_server.rs:243-259 poll_verification] The spawned task,
    when it runs: the result goes to the job it was spawned for. *)
Definition run_verification (task : VerificationTask) (s : Coordinator) : Coordinator :=
  let '(result, s) := verify_entry (vt_batch_id task) (vt_entry task) (vt_hash task) (vt_direction task) s in
  let s := on_verifications (fmap (λ job,
    if vj_id job =? vt_job task
    then mkVerificationJob (vj_id job) (vj_hash job) (Some result) (vj_started job) else job)) s in
  (cleanup_if_canceled (vt_batch_id task) s).2.

(** ** Receiving a file *)

(** [app/file_transfer_server.rs ReceiveResult] *)
Record ReceiveResult := mkReceiveResult {
  rr_committed_offset : Z; rr_completed : bool; rr_sha256 : option string;
}.

(** The upload once its body is read: the staged file, the bytes received and
    persisted, and what was hashed. *)
Record Upload := mkUpload {
  up_part : path; up_parent : path; up_received : Z; up_persisted : Z; up_hasher : list Z;
}.

(** The staged bytes before [offset], in pieces; a canceled transfer stops it. *)
Fixpoint hash_prefix (fuel : nat) (batch_id : string) (contents : list Z) (remaining : Z) (hasher : list Z)
    : co (list Z) :=
  if remaining <=? 0 then mret hasher
  else
    match fuel with
    | O => sr_fail "out of fuel"
    | S fuel =>
      active ← ticket_is_active batch_id;
      _ ← refuse (negb active) "transfer_canceled";
      let count := Z.min (Z.min remaining (512 * 1024)) (zlength contents) in
      _ ← refuse (count =? 0) "offset_mismatch";
      hash_prefix fuel batch_id (drop (Z.to_nat count) contents) (remaining - count)
        (hasher ++ take (Z.to_nat count) contents)
    end.

(** [app/file_transfer_server.rs:1403-1495 receive_file] Up to the body. [inl] is
    the answer for an entry that is complete. *)
Definition receive_begin (batch_id : string) (entry : ManifestEntry) (offset : Z) (deferred_hash : bool)
    : co (ReceiveResult + Upload) :=
  let ordinal := me_ordinal entry in
  _ ← refuse (me_size entry <? offset) "invalid_offset";
  progress ← on_disk (read_progress batch_id ordinal) "progress_unavailable";
  _ ← refuse (negb (offset =? ep_committed_offset progress)) "offset_mismatch";
  target ← on_disk (target_path batch_id ordinal) "target_unavailable";
  if bool_decide (ep_state progress = ECompleted)
  then
    hash ← (if deferred_hash then mret None
            else hash ← on_disk (hash_file target) "target_unavailable"; mret (Some hash));
    mret (inl (mkReceiveResult (me_size entry) true hash))
  else
    parent ← with_code (ok_or (parent target) tt) "target_unavailable";
    _ ← on_disk (create_dir_all parent) "target_unavailable";
    let part := parent ++ [part_name batch_id (me_entry_id entry)] in
    link ← disk_ok (symlink_metadata part);
    _ ← refuse (default false link) "target_unavailable";
    _ ← on_disk (open_or_create part) "target_unavailable";
    staged_len ← on_disk (file_len part) "target_unavailable";
    _ ← refuse (staged_len <? offset) "offset_mismatch";
    _ ← (if offset <? staged_len then on_disk (set_len part offset) "target_unavailable" else mret tt);
    hasher ← (if (0 <? offset) && negb deferred_hash
              then contents ← on_disk (read part) "target_unavailable";
                   hash_prefix (S (length contents)) batch_id contents offset []
              else mret []);
    _ ← on_disk (write_progress batch_id ordinal (mkEntryProgress ETransferring offset)) "progress_unavailable";
    mret (inr (mkUpload part parent offset offset hasher)).

(** [app/file_transfer_server.rs:1496-1544 receive_file] One frame of the body. *)
Definition receive_frame (batch_id : string) (entry : ManifestEntry) (deferred_hash : bool)
    (e : BodyEvent) (u : Upload) : co Upload :=
  _ ← sr_modify (be_others e);
  match be_frame e with
  | FrTimeout => sr_fail "body_idle_timeout"
  | frame =>
    active ← ticket_is_active batch_id;
    _ ← refuse (negb active) "transfer_canceled";
    match frame with
    | FrError => sr_fail "body_read_failed"
    | FrData data =>
      received ← with_code (ok_or (checked_add64 (up_received u) (zlength data)) tt) "size_mismatch";
      _ ← refuse (me_size entry <? received) "size_mismatch";
      written ← disk_result (write_at (up_part u) (up_received u) data);
      _ ← match written with
          | Ok _ => mret tt
          | Err _ =>
            space ← has_available_space (up_parent u) (saturating_sub (me_size entry) received);
            sr_fail (if space : bool then "write_failed" else "insufficient_space")
          end;
      let hasher := if deferred_hash then up_hasher u else up_hasher u ++ data in
      if (16 * 1024 * 1024 <=? saturating_sub received (up_persisted u)) || be_second_passed e
      then
        _ ← on_disk (sync (up_part u)) "write_failed";
        _ ← on_disk (write_progress batch_id (me_ordinal entry) (mkEntryProgress ETransferring received))
              "progress_unavailable";
        mret (mkUpload (up_part u) (up_parent u) received received hasher)
      else mret (mkUpload (up_part u) (up_parent u) received (up_persisted u) hasher)
    | _ => mret u
    end
  end.

Fixpoint receive_frames (batch_id : string) (entry : ManifestEntry) (deferred_hash : bool)
    (body : list BodyEvent) (u : Upload) : co Upload :=
  match body with
  | [] => mret u
  | e :: body =>
    u ← receive_frame batch_id entry deferred_hash e u;
    receive_frames batch_id entry deferred_hash body u
  end.

(** [app/file_transfer_server.rs:1545-1595 receive_file] After the body. *)
Definition receive_end (batch_id : string) (entry : ManifestEntry) (deferred_hash : bool) (u : Upload)
    : co ReceiveResult :=
  _ ← on_disk (sync (up_part u)) "write_failed";
  let received := up_received u in
  if negb (received =? me_size entry)
  then
    _ ← on_disk (write_progress batch_id (me_ordinal entry) (mkEntryProgress EWaitingNetwork received))
          "progress_unavailable";
    mret (mkReceiveResult received false None)
  else
    let hash := if deferred_hash then None else Some (sha256_hex (up_hasher u)) in
    _ ← refuse match hash, me_sha256 entry with
               | Some hash, Some expected => negb (same_hash expected hash)
               | _, _ => false
               end "integrity_failed";
    _ ← on_disk (write_progress batch_id (me_ordinal entry) (mkEntryProgress ETransferring received))
          "progress_unavailable";
    mret (mkReceiveResult received false hash).

Definition receive_file (batch_id : string) (entry : ManifestEntry) (offset : Z) (deferred_hash : bool)
    (body : list BodyEvent) : co ReceiveResult :=
  begun ← receive_begin batch_id entry offset deferred_hash;
  match begun with
  | inl done => mret done
  | inr u =>
    u ← receive_frames batch_id entry deferred_hash body u;
    receive_end batch_id entry deferred_hash u
  end.

(** ** Receiving a manifest *)

Definition drop_carriage_return (line : list Z) : list Z :=
  match reverse line with 13 :: rest => reverse rest | _ => line end.

(** [app/file_transfer_server.rs consume_manifest_lines] The lines of [pending],
    and what is left of it. Each turn takes a line feed away, so the length of
    [pending] is fuel enough. *)
Fixpoint consume_manifest_lines (fuel : nat) (pending : list Z) (writer : ManifestWriter)
    : co (list Z * ManifestWriter) :=
  match fuel with
  | O => mret (pending, writer)
  | S fuel =>
    match split_once 10 pending with
    | None => mret (pending, writer)
    | Some (line, remainder) =>
      _ ← refuse (MAX_MANIFEST_LINE_BYTES <? zlength line) "manifest_line_too_large";
      entry ← with_code (ok_or (from_slice (drop_carriage_return line)) tt) "invalid_manifest";
      writer ← on_disk (ManifestWriter_append writer entry) "invalid_manifest";
      consume_manifest_lines fuel remainder writer
    end
  end.

(** A failure while the writer is there runs its destructor. *)
Definition or_drop {A} (directory : path) (c : co A) : co A := λ s,
  match c s with
  | (Ok a, s) => (Ok a, s)
  | (Err code, s) => let '(_, s) := disk_ok (ManifestWriter_drop directory) s in (Err code, s)
  end.

Definition ingest_frame (batch_id : string) (e : BodyEvent) (pending : list Z) (writer : ManifestWriter)
    : co (list Z * ManifestWriter) :=
  _ ← sr_modify (be_others e);
  match be_frame e with
  | FrTimeout => sr_fail "body_idle_timeout"
  | frame =>
    active ← ticket_is_active batch_id;
    _ ← refuse (negb active) "transfer_canceled";
    match frame with
    | FrError => sr_fail "body_read_failed"
    | FrData data =>
      let pending := pending ++ data in
      r ← consume_manifest_lines (length pending) pending writer;
      _ ← refuse (MAX_MANIFEST_LINE_BYTES <? zlength r.1) "manifest_line_too_large";
      mret r
    | _ => mret (pending, writer)
    end
  end.

Fixpoint ingest_frames (batch_id : string) (body : list BodyEvent) (pending : list Z)
    (writer : ManifestWriter) : co (list Z * ManifestWriter) :=
  match body with
  | [] => mret (pending, writer)
  | e :: body =>
    r ← ingest_frame batch_id e pending writer;
    ingest_frames batch_id body r.1 r.2
  end.

(** [app/file_transfer_server.rs ingest_manifest] *)
Definition ingest_manifest (batch_id : string) (body : list BodyEvent) : co unit :=
  writer ← on_disk (begin_manifest batch_id) "manifest_already_started";
  writer ← or_drop (mw_directory writer)
    (r ← ingest_frames batch_id body [] writer;
     _ ← refuse (negb (bool_decide (r.1 = []))) "incomplete_manifest_line";
     mret r.2);
  _ ← on_disk (ManifestWriter_finish writer) "manifest_count_mismatch";
  prepare_incoming batch_id.

(** ** Requests *)

(** [app/file_transfer_server.rs authorize_request] *)
Definition authorize_request (batch_id : string) (bearer : option string) : http TransferDirection :=
  bearer ← or_reject bearer 401 "unauthorized";
  direction ← at_status 401 (authorized_direction batch_id bearer);
  or_reject direction 401 "unauthorized".

(** The entry a request names by ordinal and id. *)
Definition requested_entry (batch_id entry_id : string) (ordinal : Z) : http ManifestEntry :=
  entry ← at_status 404 (on_disk (manifest_entry batch_id ordinal) "entry_not_found");
  _ ← reject_if (negb (bool_decide (me_entry_id entry = entry_id))
                 || negb (bool_decide (me_kind entry = File))) 404 "entry_not_found";
  mret entry.

(** [app/file_transfer_server.rs:992-1022 route_request] *)
Definition handle_complete (batch_id : string) (r : Request) : http Response :=
  _ ← reject_if (negb (bool_decide (rq_method r = POST))) 405 "method_not_allowed";
  over ← at_status 409 (on_disk (all_entries_terminal batch_id) "batch_incomplete");
  let '(all_terminal, has_failures) := over in
  _ ← reject_if (negb all_terminal) 409 "batch_incomplete";
  now ← at_status 500 unix_time;
  _ ← at_status 409 (on_disk (update_state batch_id (if has_failures : bool then PartialFailure else Completed) now)
                       "batch_state_failed");
  _ ← sr_modify (on_tickets (delete batch_id));
  mret ReCompleted.

(** A code the phone reports: lower case letters, digits and underscores. *)
Definition error_code_ok (value : list Z) : bool :=
  negb (bool_decide (value = [])) && (zlength value <=? 64)
  && forallb (λ byte, is_ascii_lowercase byte || is_ascii_digit byte || (byte =? 95)) value.

(** [app/file_transfer_server.rs:1024-1086 route_request] *)
Definition handle_failure (batch_id entry_id : string) (direction : TransferDirection) (r : Request)
    : http Response :=
  _ ← reject_if (negb (bool_decide (rq_method r = POST))) 405 "method_not_allowed";
  ordinal ← or_reject (header_u64 "x-flowtype-ordinal" r) 400 "invalid_ordinal";
  error_code ← or_reject (value ← header "x-flowtype-error" r;
                          if error_code_ok value then Some value else None) 400 "invalid_error";
  entry ← requested_entry batch_id entry_id ordinal;
  progress ← at_status 409 (on_disk (read_progress batch_id ordinal) "progress_unavailable");
  _ ← (if negb (bool_decide (ep_state progress = ECompleted)) || bool_decide (direction = ComputerToPhone)
       then
         _ ← at_status 409 (on_disk (write_progress batch_id ordinal
                              (mkEntryProgress EFailed (ep_committed_offset progress))) "progress_unavailable");
         if bool_decide (direction = PhoneToComputer)
         then
           target ← at_status 500 (disk_ok (target_path batch_id ordinal));
           match target ≫= parent with
           | Some parent =>
             _ ← at_status 500 (disk_ok (remove_file (parent ++ [part_name batch_id (me_entry_id entry)])));
             mret tt
           | None => mret tt
           end
         else mret tt
       else mret tt);
  mret (ReFailed (of_bytes error_code)).

(** [app/file_transfer_server.rs:1088-1133 route_request] *)
Definition handle_verify (batch_id entry_id : string) (direction : TransferDirection) (r : Request)
    : http Response :=
  _ ← reject_if (negb (bool_decide (rq_method r = POST))) 405 "method_not_allowed";
  ordinal ← or_reject (header_u64 "x-flowtype-ordinal" r) 400 "invalid_ordinal";
  supplied_hash ← or_reject (value ← header "x-flowtype-sha256" r;
                             if valid_sha256 (of_bytes value) then Some (of_bytes value) else None)
                    400 "invalid_hash";
  entry ← requested_entry batch_id entry_id ordinal;
  if bool_decide (header_bytes "x-flowtype-async-verify" r = Some (bytes_of "1"))
  then
    verified ← at_status 409 (poll_verification batch_id entry supplied_hash direction);
    mret (if verified : bool then ReVerified else ReVerifying)
  else
    _ ← at_status 409 (verify_entry batch_id entry supplied_hash direction);
    mret ReVerified.

(** [app/file_transfer_server.rs:1135-1234 route_request] *)
Definition handle_entry (batch_id entry_id : string) (direction : TransferDirection) (r : Request)
    : http Response :=
  ordinal ← or_reject (header_u64 "x-flowtype-ordinal" r) 400 "invalid_ordinal";
  entry ← requested_entry batch_id entry_id ordinal;
  if bool_decide (direction = ComputerToPhone) && bool_decide (rq_method r = GET)
  then
    range ← or_reject (value ← header "range" r; parse_range value (me_size entry)) 416 "invalid_range";
    source ← at_status 404 (on_disk (source_path batch_id ordinal) "source_unavailable");
    same ← at_status 500 (source_matches_entry source entry);
    _ ← reject_if (negb same) 409 "source_changed";
    let '(first, end_) := range in
    let length := end_ - first + 1 in
    contents ← at_status 404 (on_disk (read source) "source_unavailable");
    let bytes := take (Z.to_nat length) (drop (Z.to_nat first) contents) in
    _ ← reject_if (negb (zlength bytes =? length)) 409 "source_changed";
    mret (ReContent first end_ (me_size entry) bytes)
  else
    _ ← reject_if (negb (bool_decide (direction = PhoneToComputer))) 405 "method_not_allowed";
    if bool_decide (rq_method r = HEAD)
    then
      progress ← at_status 409 (on_disk (read_progress batch_id ordinal) "progress_unavailable");
      mret (ReOffset (ep_committed_offset progress) (me_size entry))
    else
      _ ← reject_if (negb (bool_decide (rq_method r = POST))) 405 "method_not_allowed";
      offset ← or_reject (header_u64 "x-flowtype-offset" r) 400 "invalid_offset";
      let deferred_hash := bool_decide (header_bytes "x-flowtype-deferred-hash" r = Some (bytes_of "1")) in
      result ← at_status 409 (receive_file batch_id entry offset deferred_hash (rq_body r));
      mret (ReReceived (rr_committed_offset result) (rr_completed result) (rr_sha256 result)).

(** The lines of the entries from [start] on, [count] of them. *)
Fixpoint manifest_page (batch_id : string) (start : Z) (count : nat) : http (list Z) :=
  match count with
  | O => mret []
  | S count =>
    entry ← at_status 409 (on_disk (manifest_entry batch_id start) "manifest_unavailable");
    line ← or_reject (to_vec entry) 500 "manifest_unavailable";
    rest ← manifest_page batch_id (start + 1) count;
    mret (line ++ [10] ++ rest)
  end.

(** [app/file_transfer_server.rs:1236-1308 route_request] *)
Definition handle_manifest (batch_id : string) (direction : TransferDirection) (r : Request) : http Response :=
  if bool_decide (direction = ComputerToPhone) && bool_decide (rq_method r = GET)
  then
    let start := default 0 (header_u64 "x-flowtype-start" r) in
    batch ← at_status 404 (on_disk (load_batch batch_id) "batch_not_found");
    let count := saturating_add64 (br_file_count batch) (br_directory_count batch) in
    _ ← reject_if (count <? start) 400 "invalid_ordinal";
    let end_ := Z.min (saturating_add64 start 256) count in
    body ← manifest_page batch_id start (Z.to_nat (end_ - start));
    mret (ReManifest end_ count body)
  else
    _ ← reject_if (negb (bool_decide (direction = PhoneToComputer))) 405 "method_not_allowed";
    _ ← reject_if (negb (bool_decide (rq_method r = POST))) 405 "method_not_allowed";
    complete ← at_status 500 (on_disk (manifest_is_complete batch_id) "stopped");
    if complete : bool
    then
      _ ← at_status 409 (prepare_incoming batch_id);
      mret ReResumed
    else
      let content_type := default [] (header "content-type" r) in
      _ ← reject_if (negb (bool_decide (trim (before_sep 59 content_type) = bytes_of "application/x-ndjson")))
            415 "invalid_content_type";
      _ ← at_status 400 (ingest_manifest batch_id (rq_body r));
      mret ReAccepted.

(** What is done under the lease of the operation. *)
Definition run_operation (batch_id action : string) (direction : TransferDirection) (r : Request)
    : http Response :=
  if bool_decide (action = "complete") then handle_complete batch_id r
  else
    match strip_prefix (bytes_of "failures/") (bytes_of action) with
    | Some id => handle_failure batch_id (of_bytes id) direction r
    | None =>
      match strip_prefix (bytes_of "verify/") (bytes_of action) with
      | Some id => handle_verify batch_id (of_bytes id) direction r
      | None =>
        match strip_prefix (bytes_of "entries/") (bytes_of action) with
        | Some id => handle_entry batch_id (of_bytes id) direction r
        | None =>
          if negb (bool_decide (action = "manifest")) then reject 404 "not_found"
          else handle_manifest batch_id direction r
        end
      end
    end.

(** A program under a lease, which is dropped however it ends. *)
Definition under_lease {A} (key : string * string) (c : http A) : http A := λ s,
  let '(r, s) := c s in (r, (drop_operation key s).2).

(** [app/file_transfer_server.rs:960-990 route_request] *)
Definition route_request (r : Request) : http Response :=
  if bool_decide (rq_method r = GET) && bool_decide (rq_path r = "/flowtype/files/v1/health")
  then mret ReHealth
  else
    remainder ← or_reject (strip_prefix (bytes_of "/flowtype/files/v1/batches/") (bytes_of (rq_path r)))
                  404 "not_found";
    split ← or_reject (split_once 47 remainder) 404 "not_found";
    let batch_id := of_bytes split.1 in
    let action := of_bytes split.2 in
    direction ← authorize_request batch_id (bearer_token r);
    batch ← at_status 401 (on_disk (load_batch batch_id) "unauthorized");
    s ← sr_get;
    if bool_decide (br_phone_id batch ∉ ho_paired (co_host s))
    then
      _ ← at_status 500 (revoke_phone (br_phone_id batch));
      reject 401 "unauthorized"
    else
      key ← at_status 409 (acquire_operation batch_id action);
      under_lease key (run_operation batch_id action direction r).
End server.
