(* ===== verification/SampleCoordinator.v ===== *)
(** * A sample coordinator

    Over the sample store: a digest, a host, and a coordinator with one ticket,
    for the witnesses. *)

From S2P Require Import Prelude Text Protocol FileNames FileCore Disk Store SampleStore Targets Coordinator DataServer.
Local Open Scope string_scope.
Local Open Scope list_scope.
Local Open Scope Z_scope.

Definition sample_digest (l : list Z) : list Z := take 32 (l ++ replicate 32 0).
Lemma sample_digest_length l : length (sample_digest l) = 32%nat.
Proof. unfold sample_digest. rewrite length_take, length_app, length_replicate. lia. Qed.

Definition sample_coordinator_env : CoordinatorEnv := {|
  coordinator_store := sample_env;
  base64_url := λ l, "token";
  sha256 := sample_digest;
  sha256_length := sample_digest_length;
|}.

Definition sample_host : Host := mkHost 10 0 (Some (2 ^ 40)) [[1; 2; 3]] ["batch-2"] ∅ {[ "phone-1" ]} false.
Definition sample_grant : TicketGrant := mkTicketGrant "phone-1" (sample_digest (bytes_of "secret")) 100 PhoneToComputer.
Definition sample_coordinator (d : disk) : Coordinator :=
  mkCoordinator d sample_root {[ "batch-1" := sample_grant ]} ∅ ∅ [] 0 sample_host.

(** An upload that is staged, and the source of a download. *)
Definition sample_body : list Z := Z.of_nat <$> seq 0 42.
Definition sample_target : path := sample_root ++ ["docs"; "a.txt"].
Definition sample_part : path := sample_root ++ ["docs"; ".flowtype-batch-1-entry-1.part"].
Definition sample_index_file : file :=
  let index := [0; 0; 0; 0; 0; 0; 0; 0; 2; 0; 0; 0; 0; 0; 0; 0] in mkFile index index.
Definition sample_table_file : file := mkFile [100; 10; 101; 10] [100; 10; 101; 10].
Definition sample_transfer_disk : disk :=
  mkDisk {[ ["C:"]; ["C:"; "store"]; sample_directory_path; sample_root; sample_root ++ ["docs"] ]} ∅
    (list_to_map
       [(sample_directory_path ++ ["batch.json"], mkFile [112] [112]);
        (sample_directory_path ++ [MANIFEST_FILE], sample_table_file);
        (sample_directory_path ++ [MANIFEST_INDEX_FILE], sample_index_file);
        (sample_directory_path ++ [PROGRESS_FILE], mkFile [] []);
        (sample_directory_path ++ [MANIFEST_COMPLETE_FILE], mkFile [100] [100]);
        (sample_directory_path ++ [TARGETS_FILE], sample_table_file);
        (sample_directory_path ++ [TARGETS_INDEX_FILE], sample_index_file);
        (sample_directory_path ++ [SOURCES_FILE], sample_table_file);
        (sample_directory_path ++ [SOURCES_INDEX_FILE], sample_index_file);
        (["C:"; "src"; "docs"; "a.txt"], mkFile sample_body sample_body);
        (sample_part, mkFile sample_body sample_body)])
    5 [] false.

Definition sample_download : Request := mkRequest GET "/flowtype/files/v1/batches/batch-1/entries/entry-1"
  [("x-flowtype-ordinal", bytes_of "1"); ("range", bytes_of "bytes=10-")] [].

Example sample_upload_commits :
  (@commit_uploaded_file sample_coordinator_env "batch-1" sample_file sample_hash
     (sample_coordinator sample_transfer_disk)).1 = Ok tt.
Proof. by vm_compute. Qed.

Example sample_download_answers :
  (@handle_entry sample_coordinator_env "batch-1" "entry-1" ComputerToPhone sample_download
     (sample_coordinator sample_transfer_disk)).1 = Ok (ReContent 10 41 42 (drop 10 sample_body)).
Proof. by vm_compute. Qed.

Example sample_bearer :
  (@authorize sample_coordinator_env "batch-1" "secret" (sample_coordinator (sample_disk []))).1 = Ok true
  ∧ (@authorize sample_coordinator_env "batch-1" "other" (sample_coordinator (sample_disk []))).1 = Ok false.
Proof. by vm_compute. Qed.

(** The manifest of the batch arrives, in three frames. *)
Definition sample_manifest_body : list BodyEvent :=
  [mkBodyEvent id (FrData [100]) false; mkBodyEvent id (FrData [10; 101]) false; mkBodyEvent id (FrData [10]) true].
Example sample_manifest_is_ingested :
  (@ingest_manifest sample_coordinator_env "batch-1" sample_manifest_body (sample_coordinator (sample_disk []))).1
  = Ok tt.
Proof. by vm_compute. Qed.

(** The file is received anew, after its staged body was lost. *)
Example sample_upload_is_received :
  (@receive_file sample_coordinator_env "batch-1" sample_file 0 false
     [mkBodyEvent id (FrData (take 20 sample_body)) true; mkBodyEvent id (FrData (drop 20 sample_body)) false]
     (sample_coordinator (with_files (delete sample_part) sample_transfer_disk))).1
  = Ok (mkReceiveResult 42 false (Some sample_hash)).
Proof. by vm_compute. Qed.
