(* ===== verification/DataServerLogic.v ===== *)
(** * Reasoning about programs of the coordinator

    [cwp q c Q E m] carries the rules of [DiskLogic] over to the programs of the
    coordinator, whatever the schedule of the disk; where [q] holds the disk is
    settled and calls do not fail by themselves. [reader] programs change
    nothing, and what they answer is a function of the files. *)

From S2P Require Import Prelude Text Protocol FileNames FileCore Disk DiskLogic Store Targets Coordinator DataServer.
Local Open Scope string_scope.
Local Open Scope list_scope.
Local Open Scope Z_scope.

(** ** Readers *)

(** A disk with these files, and nothing in the way. *)
Definition still (m : filemap) : disk := mkDisk ∅ ∅ m 0 [] false.

Definition reader {A} (c : io A) : Prop := ∀ d, d_halted d = false →
  d_files (c d).2 = d_files d ∧ (d_schedule d = [] → (c d).2 = d)
  ∧ ∀ a, (c d).1 = Ok a → d_halted (c d).2 = false ∧ c (still (d_files d)) = (Ok a, still (d_files d)).

Lemma reader_ret {A} (a : A) : reader (mret a).
Proof. intros d Hd. split_and!; [done | done |]. by intros a' [= <-]. Qed.
Lemma reader_fail {A} e : reader (sr_fail e : io A).
Proof. by intros d Hd. Qed.
Lemma reader_lift {A} (r : result io_error A) : reader (sr_lift r).
Proof. intros d Hd. split_and!; [done | done |]. cbn. by intros a ->. Qed.
Lemma reader_bind {A B} (c : io A) (f : A → io B) : reader c → (∀ a, reader (f a)) → reader (a ← c; f a).
Proof.
  intros Hc Hf d Hd. destruct (Hc d Hd) as (Hfiles & Hsame & Hok). unfold mbind, sr_bind.
  destruct (c d) as [[a|e] d1]; cbn in *; [| done].
  destruct (Hok a eq_refl) as [Hh Hs]. destruct (Hf a d1 Hh) as (Hfiles1 & Hsame1 & Hok1).
  split_and!; [congruence | intros Hq; rewrite (Hsame Hq) in *; auto |]. intros b Hb. destruct (Hok1 b Hb) as [Hh1 Hs1].
  rewrite Hs. by rewrite Hfiles in Hs1.
Qed.
Lemma reader_call {A} (op : disk → result io_error A) :
  (∀ d a, op d = Ok a → op (still (d_files d)) = Ok a) → reader (io_read op).
Proof.
  intros Hop d Hd. unfold io_read, io_call. rewrite Hd.
  destruct (d_schedule d) as [|[]]; cbn; (split_and!; [done | done |]); intros a Ha; try done.
  - by rewrite (Hop d a Ha).
  - specialize (Hop (with_schedule _ d) a Ha). cbn [d_files with_schedule] in Hop. by rewrite Hop.
Qed.

Lemma reader_read p : reader (read p).
Proof. by apply reader_call. Qed.
Lemma reader_file_len p : reader (file_len p).
Proof. by apply reader_call. Qed.
Lemma reader_check b message : reader (check b message).
Proof. destruct b; [apply reader_fail | apply reader_ret]. Qed.

Create HintDb readers discriminated.
#[export] Hint Resolve reader_ret reader_fail reader_lift reader_read reader_file_len reader_check : readers.

Ltac read_on :=
  repeat first
    [ progress (cbv beta iota zeta)
    | solve [eauto 2 with readers nocore]
    | apply reader_bind; [| intros ?]
    | case_match ].

(** What a reader says of these files. *)
Lemma reader_fwp {A} (c : io A) (Q : A → filemap → Prop) (E : filemap → Prop) (m : filemap) :
  reader c → (∀ a, (c (still m)).1 = Ok a → Q a m) → E m → fwp c Q E m.
Proof.
  intros Hc HQ HE d Hd Hh. destruct (Hc d Hh) as (Hf & _ & Hok). rewrite Hd in *.
  destruct (c d) as [[a|e] d']; cbn in *.
  - destruct (Hok a eq_refl) as [Hh' Hs]. split; [done |]. rewrite Hf. apply HQ. by rewrite Hs.
  - rewrite Hf. by case_match.
Qed.

Lemma reader_invalid {A} message : reader (invalid_data message : io A).
Proof. apply reader_fail. Qed.
Lemma reader_io_err {E' A} (r : result E' A) message : reader (io_err r message).
Proof. apply reader_lift. Qed.
Lemma reader_checked o message : reader (checked o message).
Proof. apply reader_lift. Qed.
Lemma reader_of_json {A} `{Json A} l : reader (of_json l : io A).
Proof. apply reader_lift. Qed.
Lemma reader_to_json {A} `{Json A} (a : A) : reader (to_json a).
Proof. apply reader_lift. Qed.
#[export] Hint Resolve reader_invalid reader_io_err reader_checked reader_of_json reader_to_json : readers.

(** A reader leaves a disk without faults as it is. *)
Lemma reader_quiet {A} (c : io A) d a : reader c → quiet d → (c d).1 = Ok a → c d = (Ok a, d).
Proof.
  intros Hc [Hs Hh] Ha. destruct (Hc d Hh) as (_ & Hsame & _). specialize (Hsame Hs).
  destruct (c d) as [r d']. cbn in *. by subst.
Qed.

Section store.
Context `{CoordinatorEnv}.

Lemma reader_batch_dir batch_id : reader (batch_dir batch_id).
Proof. unfold batch_dir. read_on. Qed.
Lemma reader_load_batch batch_id : reader (load_batch batch_id).
Proof. unfold load_batch, BatchRecord_validate, batch_dir. read_on. Qed.
Lemma reader_read_manifest_complete directory : reader (read_manifest_complete directory).
Proof. unfold read_manifest_complete. read_on. Qed.
Lemma reader_manifest_entry batch_id ordinal : reader (manifest_entry batch_id ordinal).
Proof. unfold manifest_entry, read_manifest_complete, batch_dir. read_on. Qed.
Lemma reader_read_progress batch_id ordinal : reader (read_progress batch_id ordinal).
Proof. unfold read_progress, read_manifest_complete, batch_dir. read_on. Qed.
Lemma reader_read_indexed {T} `{Json T} data_path index_path ordinal :
  reader (read_indexed_json_line (T := T) data_path index_path ordinal).
Proof. unfold read_indexed_json_line. read_on. Qed.
Lemma reader_source_path batch_id ordinal : reader (source_path batch_id ordinal).
Proof.
  unfold source_path, batch_dir.
  repeat (apply reader_bind; [first [apply reader_read_indexed | read_on] | intros ?]). read_on.
Qed.
Lemma reader_hash_file p : reader (hash_file p).
Proof. unfold hash_file. read_on. Qed.

(** Whether an ancestor is a link is all that can be in the way. *)
Lemma reader_refuse_links segments ancestor : reader (refuse_links ancestor segments).
Proof.
  revert ancestor. induction segments as [|segment segments IH]; intros ancestor; [apply reader_ret |].
  cbn [refuse_links]. set (p := join_segment ancestor segment).
  set (link := λ d, match symlink_metadata p d with (Err NotFound, d) => (Ok false, d) | r => r end).
  intros d Hd.
  assert (link (still (d_files d)) = (Ok false, still (d_files d))) as Hs.
  { unfold link, symlink_metadata, io_read, io_call. cbn.
    rewrite (bool_decide_false (p ∈ (∅ : gset path))) by set_solver. by destruct (is_dir _ _ || is_file _ _). }
  assert (d_files (link d).2 = d_files d ∧ (d_schedule d = [] → (link d).2 = d)
          ∧ ∀ b, (link d).1 = Ok b → d_halted (link d).2 = false) as (Hf & Hsame & Hok).
  { unfold link, symlink_metadata, io_read, io_call. rewrite Hd.
    destruct (d_schedule d) as [|[]]; cbn [with_schedule d_halted halt fst snd d_files];
      try (split_and!; [done | done |]; by intros ? [=]).
    all: match goal with |- context [if ?b then _ else _] => destruct b end; cbn; rewrite ?Hd.
    all: done. }
  clearbody link. unfold mbind, sr_bind. destruct (link d) as [[b|e] d1]; cbn [fst snd] in *; [| done].
  specialize (Hok b eq_refl). destruct b.
  { cbn. split_and!; [done | done |]. by intros ? [=]. }
  destruct (IH p d1 Hok) as (Hf1 & Hsame1 & Hok1). cbn.
  split_and!; [congruence | intros Hq; rewrite (Hsame Hq) in *; auto |].
  intros a Ha. destruct (Hok1 a Ha) as [Hh1 Hs1]. split; [done |].
  rewrite Hs. cbn. by rewrite Hf in Hs1.
Qed.

Lemma reader_target_path batch_id ordinal : reader (target_path batch_id ordinal).
Proof.
  unfold target_path, batch_dir.
  repeat (apply reader_bind;
    [first [apply reader_read_indexed | apply reader_refuse_links | apply reader_load_batch | read_on] | intros ?]).
  read_on.
Qed.
End store.
#[export] Hint Resolve reader_batch_dir reader_load_batch reader_read_manifest_complete reader_manifest_entry
  reader_read_progress reader_source_path reader_hash_file reader_target_path : readers.

(** ** Settled disks *)

Lemma keeps_check b message : keeps (check b message).
Proof. destruct b; [apply keeps_fail | apply keeps_ret]. Qed.
Lemma keeps_invalid {A} message : keeps (invalid_data message : io A).
Proof. apply keeps_fail. Qed.
Lemma keeps_io_err {E' A} (r : result E' A) message : keeps (io_err r message).
Proof. apply keeps_lift. Qed.
Lemma keeps_checked o message : keeps (checked o message).
Proof. apply keeps_lift. Qed.
Lemma keeps_of_json {A} `{Json A} l : keeps (of_json l : io A).
Proof. apply keeps_lift. Qed.
Lemma keeps_to_json {A} `{Json A} (a : A) : keeps (to_json a).
Proof. apply keeps_lift. Qed.
Lemma keeps_path_exists p : keeps (path_exists p).
Proof.
  intros d Hd. unfold path_exists. pose proof (keeps_read_call (λ d, if is_dir p d || is_file p d
    then Ok (bool_decide (p ∈ d_links d)) else Err NotFound) d Hd) as H.
  unfold symlink_metadata. destruct (io_read _ d) as [[b|e] d']; [done |]. cbn in *. by case_match.
Qed.
Lemma keeps_refuse_links segments ancestor : keeps (refuse_links ancestor segments).
Proof.
  revert ancestor. induction segments as [|segment segments IH]; intros ancestor; [apply keeps_ret |].
  cbn [refuse_links]. apply keeps_bind.
  - intros d Hd. pose proof (keeps_read_call (λ d, if is_dir (join_segment ancestor segment) d
      || is_file (join_segment ancestor segment) d
      then Ok (bool_decide (join_segment ancestor segment ∈ d_links d)) else Err NotFound) d Hd) as H.
    unfold symlink_metadata. destruct (io_read _ d) as [[b|[]] d']; done.
  - intros link. apply keeps_bind; [apply keeps_check | intros; apply IH].
Qed.
#[export] Hint Resolve keeps_check keeps_invalid keeps_io_err keeps_checked keeps_of_json keeps_to_json
  keeps_path_exists keeps_refuse_links : settle.

Lemma keeps_create_temporary_loop pid tries directory name : keeps (create_temporary_loop pid tries directory name).
Proof.
  induction tries as [|tries IH]; [apply keeps_fail |]. cbn [create_temporary_loop].
  apply keeps_bind; [by intros d Hd |]. intros id d Hd. set (t := directory ++ [_]).
  pose proof (keeps_create_new t d Hd) as H. destruct (create_new t d) as [[u|[]] d']; try done. by apply IH.
Qed.
Lemma keeps_write pid p contents : keeps (write pid p contents).
Proof.
  unfold write, create_temporary. pose proof (keeps_create_temporary_loop pid 32). keep_going; done.
Qed.
#[export] Hint Resolve keeps_write : settle.

Section keeps.
Context `{CoordinatorEnv}.

Lemma keeps_load_batch batch_id : keeps (load_batch batch_id).
Proof. unfold load_batch, BatchRecord_validate, batch_dir. keep_going. Qed.
Lemma keeps_read_manifest_complete directory : keeps (read_manifest_complete directory).
Proof. unfold read_manifest_complete. keep_going. Qed.
Lemma keeps_write_progress batch_id ordinal progress : keeps (write_progress batch_id ordinal progress).
Proof. unfold write_progress, read_manifest_complete, batch_dir. keep_going. Qed.
Lemma keeps_target_path batch_id ordinal : keeps (target_path batch_id ordinal).
Proof.
  unfold target_path, batch_dir, read_indexed_json_line. pose proof (keeps_load_batch batch_id). keep_going; done.
Qed.
Lemma keeps_update_state batch_id state now : keeps (update_state batch_id state now).
Proof.
  unfold update_state, batch_dir, BatchRecord_validate. pose proof (keeps_load_batch batch_id). keep_going; done.
Qed.
Lemma keeps_manifest_entry batch_id ordinal : keeps (manifest_entry batch_id ordinal).
Proof. unfold manifest_entry, read_manifest_complete, batch_dir. keep_going. Qed.
Lemma keeps_source_path batch_id ordinal : keeps (source_path batch_id ordinal).
Proof. unfold source_path, batch_dir, read_indexed_json_line. keep_going. Qed.
Lemma keeps_hash_file p : keeps (hash_file p).
Proof. unfold hash_file. keep_going. Qed.
Lemma keeps_file_len p : keeps (file_len p).
Proof. apply keeps_read_call. Qed.
Lemma keeps_open_existing p : keeps (open_existing p).
Proof. apply keeps_read_call. Qed.
End keeps.
#[export] Hint Resolve keeps_load_batch keeps_read_manifest_complete keeps_write_progress keeps_target_path
  keeps_update_state keeps_manifest_entry keeps_source_path keeps_hash_file keeps_file_len keeps_open_existing : settle.

(** ** Programs of the coordinator *)

Definition cwp {X A} (q : Prop) (c : sr Coordinator X A) (Q : A → filemap → Prop) (E : filemap → Prop)
    (m : filemap) : Prop :=
  ∀ s, d_files (co_disk s) = m → d_halted (co_disk s) = false → (q → settled (co_disk s)) →
  match c s with
  | (Ok a, s') => d_halted (co_disk s') = false ∧ (q → settled (co_disk s')) ∧ Q a (d_files (co_disk s'))
  | (Err _, s') => E (d_files (co_disk s'))
  end.

Section cwp.
Context {X A B : Type} (q : Prop).
Implicit Types (Q : A → filemap → Prop) (E : filemap → Prop) (m : filemap).

Lemma cwp_mono (c : sr Coordinator X A) Q Q' E E' m :
  cwp q c Q E m → (∀ a m, Q a m → Q' a m) → (∀ m, E m → E' m) → cwp q c Q' E' m.
Proof.
  intros H HQ HE s Hm Hh Hq. specialize (H s Hm Hh Hq). destruct (c s) as [[a|e] s']; naive_solver.
Qed.
Lemma cwp_ret (a : A) Q E m : Q a m → cwp q (mret a : sr Coordinator X A) Q E m.
Proof. by intros HQ s <- Hh Hq. Qed.
Lemma cwp_bind (c : sr Coordinator X A) (f : A → sr Coordinator X B) (Q : B → filemap → Prop) E m :
  cwp q c (λ a, cwp q (f a) Q E) E m → cwp q (a ← c; f a) Q E m.
Proof.
  intros H s Hm Hh Hq. specialize (H s Hm Hh Hq). unfold mbind, sr_bind.
  destruct (c s) as [[a|e] s']; [| done]. destruct H as (Hh' & Hq' & H). by apply H.
Qed.
Lemma cwp_fail (e : X) Q E m : E m → cwp q (sr_fail e : sr Coordinator X A) Q E m.
Proof. by intros HE s <-. Qed.
Lemma cwp_lift (r : result X A) Q E m :
  (∀ a, r = Ok a → Q a m) → E m → cwp q (sr_lift r : sr Coordinator X A) Q E m.
Proof. intros HQ HE s <- Hh Hq. cbn. destruct r; [by eauto | done]. Qed.
Lemma cwp_get (Q : Coordinator → filemap → Prop) E m :
  (∀ s, Q s m) → cwp q (sr_get : sr Coordinator X Coordinator) Q E m.
Proof. intros HQ s <- Hh Hq. cbn. eauto. Qed.
Lemma cwp_modify (f : Coordinator → Coordinator) (Q : unit → filemap → Prop) E m :
  (∀ s, co_disk (f s) = co_disk s) → Q tt m → cwp q (sr_modify f : sr Coordinator X unit) Q E m.
Proof. intros Hf HQ s <- Hh Hq. cbn. by rewrite Hf. Qed.
End cwp.

Section cwp_disk.
Context {A : Type} (q : Prop).
Implicit Types (E : filemap → Prop) (m : filemap).

Lemma cwp_on_disk (c : io A) code (Q : A → filemap → Prop) E m :
  keeps c → fwp c Q E m → cwp q (on_disk c code) Q E m.
Proof.
  intros Hk Hc s Hm Hh Hq. specialize (Hc _ Hm Hh). specialize (λ H, Hk _ (Hq H)) as Hk'.
  unfold on_disk. destruct (c (co_disk s)) as [[a|e] d]; [naive_solver |]. cbn. by case_match.
Qed.
Lemma cwp_disk_result (c : io A) (Q : result io_error A → filemap → Prop) E m :
  keeps c → fwp3 c (λ a, Q (Ok a)) (λ m, ∀ e, Q (Err e) m) E m → cwp q (disk_result c) Q E m.
Proof.
  intros Hk Hc s Hm Hh Hq. specialize (Hc _ Hm Hh). specialize (λ H, Hk _ (Hq H)) as Hk'.
  unfold disk_result. destruct (c (co_disk s)) as [[a|e] d]; [naive_solver |].
  destruct (d_halted d) eqn:Hd; naive_solver.
Qed.
Lemma cwp_disk_ok (c : io A) (Q : option A → filemap → Prop) E m :
  keeps c → fwp3 c (λ a, Q (Some a)) (Q None) E m → cwp q (disk_ok c) Q E m.
Proof.
  intros Hk Hc. apply cwp_bind, cwp_disk_result; [done |].
  eapply fwp3_mono; [exact Hc | | | done]; intros; by apply cwp_ret.
Qed.
Lemma cwp_refuse b code (Q : unit → filemap → Prop) E m :
  (b = false → Q tt m) → E m → cwp q (refuse b code) Q E m.
Proof. intros HQ HE. destruct b; [by apply cwp_fail | by apply cwp_ret, HQ]. Qed.
Lemma cwp_with_code {F : Type} (r : result F A) code (Q : A → filemap → Prop) E m :
  (∀ a, r = Ok a → Q a m) → E m → cwp q (with_code r code) Q E m.
Proof. intros HQ HE. apply cwp_lift; [| done]. destruct r; [naive_solver | done]. Qed.

(** On a settled disk the answer is right. *)
Lemma cwp_path_exists p code (Q : bool → filemap → Prop) E m :
  Q true m → ((q → m !! p = None) → Q false m) → E m →
  cwp q (on_disk (path_exists p) code) Q E m.
Proof.
  intros Ht Hf HE s Hm Hh Hq. unfold on_disk, path_exists.
  assert (d_files (symlink_metadata p (co_disk s)).2 = m) as Hm'.
  { unfold symlink_metadata, io_read, io_call. rewrite Hh. by destruct (d_schedule _) as [|[]]. }
  assert (q → settled (symlink_metadata p (co_disk s)).2) as Hq'
    by (intros Hx; by apply (keeps_read_call _ _ (Hq Hx))).
  assert (q → ∀ e, (symlink_metadata p (co_disk s)).1 = Err e → m !! p = None) as Hnone.
  { intros Hx e. destruct (Hq Hx) as [[Hs _] _]. unfold symlink_metadata, io_read, io_call. rewrite Hh, Hs.
    cbn. unfold is_file. rewrite Hm. case_match eqn:Hb; [done |]. intros _.
    apply orb_false_iff in Hb as [_ Hb]. bool_to_prop. by apply eq_None_not_Some. }
  assert (∀ b, (symlink_metadata p (co_disk s)).1 = Ok b → d_halted (symlink_metadata p (co_disk s)).2 = false) as Hhalt.
  { intros b. unfold symlink_metadata, io_read, io_call. rewrite Hh.
    by destruct (d_schedule _) as [|[]]; cbn. }
  destruct (symlink_metadata p (co_disk s)) as [[b|e] d]; cbn in *.
  - rewrite Hm'. eauto.
  - destruct (d_halted d) eqn:Hd; cbn; rewrite Hm'; [done |]. split_and!; [done.. |]. eauto.
Qed.
End cwp_disk.

(** With a status. *)
Section cwp_http.
Context {A : Type} (q : Prop).
Implicit Types (Q : A → filemap → Prop) (E : filemap → Prop) (m : filemap).

Lemma cwp_at_status status (c : co A) Q E m : cwp q c Q E m → cwp q (at_status status c) Q E m.
Proof.
  intros H s Hm Hh Hq. specialize (H s Hm Hh Hq). unfold at_status. by destruct (c s) as [[a|e] s'].
Qed.
Lemma cwp_or_reject (o : option A) status code Q E m :
  (∀ a, o = Some a → Q a m) → E m → cwp q (or_reject o status code) Q E m.
Proof. intros HQ HE. destruct o; [apply cwp_ret; by apply HQ | by apply cwp_fail]. Qed.
Lemma cwp_reject_if b status code (Q : unit → filemap → Prop) E m :
  (b = false → Q tt m) → E m → cwp q (reject_if b status code) Q E m.
Proof. intros HQ HE. destruct b; [by apply cwp_fail | by apply cwp_ret, HQ]. Qed.

(** A reader, from the coordinator. *)
Lemma cwp_reader (c : io A) code Q E m :
  reader c → keeps c → (∀ a, (c (still m)).1 = Ok a → Q a m) → E m → cwp q (on_disk c code) Q E m.
Proof. intros Hr Hk HQ HE. by apply cwp_on_disk, reader_fwp. Qed.
End cwp_http.

Section cwp_calls.
Context `{CoordinatorEnv} (q : Prop).
Implicit Types (E : filemap → Prop) (m : filemap).

Lemma cwp_unix_time (Q : Z → filemap → Prop) E m : (∀ t, Q t m) → cwp q unix_time Q E m.
Proof. intros HQ. apply cwp_bind, cwp_get. intros s. by apply cwp_ret. Qed.
Lemma cwp_ticket_is_active batch_id (Q : bool → filemap → Prop) E m :
  (∀ b, Q b m) → cwp q (ticket_is_active batch_id) Q E m.
Proof.
  intros HQ. apply cwp_bind, cwp_unix_time. intros t. apply cwp_bind, cwp_get. intros s. by apply cwp_ret.
Qed.
Lemma cwp_source_matches_entry p entry (Q : bool → filemap → Prop) E m :
  (∀ b, Q b m) → E m → cwp q (source_matches_entry p entry) Q E m.
Proof.
  intros HQ HE. unfold source_matches_entry. apply cwp_bind, cwp_disk_ok; [apply keeps_read_call |].
  eapply fwp3_mono; [apply (fwp_read_call _ (λ _ m', m' = m) (eq m)); done | | |]; cbv beta.
  - intros md m' ->. apply cwp_bind, cwp_get. intros s. by apply cwp_ret.
  - intros m' <-. apply cwp_bind, cwp_get. intros s. by apply cwp_ret.
  - by intros m' <-.
Qed.
Lemma cwp_preserve_modified_time p t (Q : unit → filemap → Prop) E m :
  Q tt m → E m → cwp q (preserve_modified_time p t) Q E m.
Proof.
  intros HQ HE. unfold preserve_modified_time. destruct (t <? 0); [by apply cwp_ret |].
  apply cwp_bind, cwp_disk_ok; [apply keeps_open_existing |].
  eapply fwp3_mono; [apply (fwp_open_existing p (λ _ m', m' = m) (eq m)) | | |]; try done.
  - intros _ m' ->. by apply cwp_modify.
  - intros m' <-. by apply cwp_ret.
  - by intros m' <-.
Qed.
End cwp_calls.
