(* ===== verification/CoordinatorSafety.v ===== *)
(** * What the coordinator guarantees: tickets, leases and control messages *)

From S2P Require Import Prelude Text Protocol FileNames FileCore Disk DiskLogic Store SampleStore StoreSafety StoreBatches Targets Coordinator DataServer SampleCoordinator DataServerLogic.
Local Open Scope string_scope.
Local Open Scope list_scope.
Local Open Scope Z_scope.

(** ** Comparing digests *)

Lemma constant_time_fold acc l r :
  foldl (λ difference '(a, b), Z.lor difference (Z.lxor a b)) acc (zip l r) = 0
  ↔ acc = 0 ∧ Forall2 eq (take (length r) l) (take (length l) r).
Proof.
  revert acc r. induction l as [|a l IH]; intros acc [|b r]; cbn; try by naive_solver.
  rewrite IH, Z.lor_eq_0_iff, Z.lxor_eq_0_iff. split.
  - intros [[-> ->] Hf]. split; [done | by constructor].
  - intros [-> Hf]. apply Forall2_cons in Hf as [-> Hf]. done.
Qed.

Lemma constant_time_equal_spec l r :
  length l = length r → constant_time_equal l r = true ↔ l = r.
Proof.
  intros Hlen. unfold constant_time_equal. rewrite Z.eqb_eq, constant_time_fold.
  rewrite !take_ge by lia. split.
  - by intros [_ ->%list_eq_Forall2].
  - intros ->. split; [done |]. by apply list_eq_Forall2.
Qed.

Section tickets.
Context `{CoordinatorEnv}.

(** Every grant holds a digest. *)
Definition tickets_wf (s : Coordinator) : Prop :=
  ∀ batch_id grant, co_tickets s !! batch_id = Some grant → length (tg_token_hash grant) = 32%nat.

Definition now (s : Coordinator) : Z := ho_unix_time (co_host s).

(** The bearer holds the ticket of a batch that its phone may go on with. *)
Definition entitled (batch_id bearer : string) (s : Coordinator) : Prop :=
  ∃ grant batch, co_tickets s !! batch_id = Some grant
    ∧ now s < tg_expires_at_epoch_seconds grant
    ∧ tg_token_hash grant = sha256 (bytes_of bearer)
    ∧ batch_on_disk batch_id batch (d_files (co_disk s))
    ∧ br_phone_id batch = tg_phone_id grant ∧ is_terminal (br_state batch) = false.

(** On a disk that answers, [load_batch] is what is on the disk. *)
Lemma load_batch_quiet_inv batch_id d r d' :
  quiet d → load_batch batch_id d = (r, d') →
  d' = d ∧ match r with
           | Ok b => batch_on_disk batch_id b (d_files d)
           | Err _ => ∀ b, ¬ batch_on_disk batch_id b (d_files d)
           end.
Proof.
  intros Hq Hrun.
  assert (d' = d) as ->.
  { revert Hrun. unfold load_batch, batch_dir, io_err, of_json, check, mbind, sr_bind, sr_lift, mret, sr_ret.
    destruct (validate_batch_id batch_id); cbn; [| by intros [= _ <-]].
    unfold read, io_read, io_call. destruct Hq as [-> ->].
    destruct (d_files d !! _) as [f|]; [| by intros [= _ <-]].
    destruct (from_slice _); cbn; [| by intros [= _ <-]].
    unfold BatchRecord_validate, check. destruct (_ || _); [by intros [= _ <-] |]. cbn.
    destruct (negb _); by intros [= _ <-]. }
  split; [done |]. destruct r as [b|e].
  - pose proof (fwp_load_batch batch_id (λ b m, batch_on_disk batch_id b m) (λ _, True) (d_files d)
      (λ b Hb, Hb) I d eq_refl (proj2 Hq)) as Hpost. rewrite Hrun in Hpost. apply Hpost.
  - intros b Hb. rewrite (load_batch_quiet _ _ _ Hq Hb) in Hrun. done.
Qed.

(** C25. Tickets. A bearer is authorized for a batch exactly when it holds the
    token that was issued last for this batch, the ticket has not expired, and
    the batch is there, belongs to the phone the ticket was issued to, and is not
    finished. Asking forgets expired tickets and changes nothing else. *)
Theorem authorized_exactly batch_id bearer s :
  quiet (co_disk s) → tickets_wf s →
  ∃ ok, authorize batch_id bearer s
        = (Ok ok, on_tickets (filter (λ kv, now s < tg_expires_at_epoch_seconds kv.2)) s)
    ∧ (ok = true ↔ entitled batch_id bearer s).
Proof.
  intros Hq Hwf. unfold authorize. erewrite sr_bind_Ok by done.
  fold (now s). erewrite sr_bind_Ok by done. erewrite sr_bind_Ok by done.
  set (s1 := on_tickets _ s). cbn [co_tickets on_tickets s1].
  assert (∀ g, filter (λ kv, now s < tg_expires_at_epoch_seconds kv.2) (co_tickets s) !! batch_id = Some g
    ↔ co_tickets s !! batch_id = Some g ∧ now s < tg_expires_at_epoch_seconds g) as Hf
    by (intros g; by rewrite map_lookup_filter_Some).
  change (co_tickets s1) with (filter (λ kv, now s < tg_expires_at_epoch_seconds kv.2) (co_tickets s)).
  destruct (filter _ _ !! batch_id) as [grant|].
  - destruct (proj1 (Hf grant) eq_refl) as [Hg Hexp].
    destruct (constant_time_equal _ _) eqn:Heq.
    + apply constant_time_equal_spec in Heq; [| by rewrite (Hwf _ _ Hg), sha256_length].
      unfold disk_ok, disk_result. 
      destruct (load_batch batch_id (co_disk s)) as [r d] eqn:Hload.
      destruct (load_batch_quiet_inv _ _ _ _ Hq Hload) as [-> Hr].
      exists (match r with
              | Ok batch => bool_decide (br_phone_id batch = tg_phone_id grant)
                            && negb (is_terminal (br_state batch))
              | Err _ => false
              end). split.
      { unfold mbind, sr_bind. change (co_disk s1) with (co_disk s). rewrite Hload.
        destruct r as [b|e]; [| rewrite (proj2 Hq)]; reflexivity. }
      unfold entitled. destruct r as [b|e].
      * rewrite andb_true_iff, negb_true_iff, bool_decide_eq_true. split; [naive_solver |].
        intros (g & b' & Hg' & _ & _ & Hb' & Hph & Ht). rewrite (batch_on_disk_fun _ _ _ _ Hr Hb').
        naive_solver.
      * split; [done |]. intros (g & b' & _ & _ & _ & Hb' & _). by destruct (Hr b').
    + exists false. split; [done |]. split; [done |]. intros (g & b & Hg' & _ & Hh & _).
      assert (g = grant) as -> by congruence. exfalso.
      rewrite Hh in Heq. pose proof (proj2 (constant_time_equal_spec _ _ eq_refl) (eq_refl (sha256 (bytes_of bearer)))).
      congruence.
  - exists false. split; [done |]. split; [done |]. intros (g & b & Hg' & Hexp & _).
    by pose proof (proj2 (Hf g) (conj Hg' Hexp)).
Qed.

(** ** Leases *)

(** The keys of the operations that hold a lease, and those of verifications
    that have not been collected. *)
Definition busy (s : Coordinator) (key : string * string) : Prop := key ∈ co_operations s.
#[export] Instance busy_dec s key : Decision (busy s key).
Proof. unfold busy. apply _. Defined.

Lemma cleanup_if_canceled_frame batch_id s :
  let s' := (cleanup_if_canceled batch_id s).2 in
  co_operations s' = co_operations s ∧ co_verifications s' = co_verifications s
  ∧ co_tickets s' = co_tickets s ∧ co_host s' = co_host s.
Proof.
  unfold cleanup_if_canceled, disk_ok, disk_result, mbind, sr_bind, mret, sr_ret.
  repeat (case_match; simplify_eq/=; try done).
Qed.

(** Operations are exclusive. While an operation on an entry (its upload, its
    verification, the report of its failure) or on a batch holds its lease, no
    other gets one for the same entry, and while a verification of it runs or
    waits to be collected only verifications do; operations on other entries are
    not held up. When the lease is dropped the entry is free. *)
Theorem operations_are_exclusive batch_id action s :
  let key := operation_key batch_id action in
  let verifying := negb (starts_with "verify/" action) && bool_decide (is_Some (co_verifications s !! key)) in
  acquire_operation batch_id action s
  = (if verifying || bool_decide (busy s key) then (Err "transfer_busy", s)
     else (Ok key, on_operations ({[ key ]} ∪.) s))
  ∧ (∀ key', busy (drop_operation key' s).2 key ↔ busy s key ∧ key ≠ key')
  ∧ ∀ id entry_id : string, Forall (λ b, b ≠ 47) (bytes_of id) →
      operation_key batch_id (id +:+ "/" +:+ entry_id) = (batch_id, entry_id).
Proof.
  intros key verifying. split_and!.
  - unfold acquire_operation, busy. cbv zeta. fold key. erewrite sr_bind_Ok by done. fold verifying.
    destruct verifying; [done |]. erewrite sr_bind_Ok by done.
    destruct (bool_decide (key ∈ co_operations s)) eqn:Hb; [done |]. done.
  - intros key'. unfold busy, drop_operation. erewrite sr_bind_Ok by done.
    destruct (cleanup_if_canceled_frame key'.1 (on_operations (.∖ {[ key' ]}) s)) as (-> & _).
    cbn. set_solver.
  - intros id entry_id Hid. unfold operation_key.
    assert (split_once 47 (bytes_of (id +:+ "/" +:+ entry_id)) = Some (bytes_of id, bytes_of entry_id)) as ->.
    { rewrite !bytes_of_app. clear -Hid. induction Hid as [|b l Hb Hl IH]; [done |]. cbn in *.
      destruct (Z.eqb_spec b 47); [done |]. by rewrite IH. }
    by rewrite of_bytes_bytes_of.
Qed.

(** ** Canceling *)

Notation batch_path batch_id := (store_root ++ [batch_id] ++ [BATCH_FILE]).

(** From [m] to [m'] batches of [phone] that were not finished may have become
    canceled; every other is as it was, and there is no new one to go on with. *)
Definition cancels (phone : string) (m m' : filemap) : Prop :=
  (∀ id b, batch_on_disk id b m →
    batch_on_disk id b m'
    ∨ br_phone_id b = phone ∧ is_terminal (br_state b) = false
      ∧ ∃ now, batch_on_disk id (with_state Canceled now b) m')
  ∧ ∀ id b, batch_on_disk id b m' → is_terminal (br_state b) = false → batch_on_disk id b m.

Lemma cancels_trans phone m1 m2 m3 : cancels phone m1 m2 → cancels phone m2 m3 → cancels phone m1 m3.
Proof.
  intros [H1 G1] [H2 G2]. split.
  - intros id b Hb. destruct (H1 id b Hb) as [Hb2 | (Hp & Ht & t & Hb2)]; [by apply H2 |].
    right. destruct (H2 _ _ Hb2) as [Hb3 | (_ & [=] & _)]. eauto.
  - intros id b Hb Ht. auto.
Qed.

Lemma batch_on_disk_frame S id b m m' :
  frame S m m' → ¬ S (batch_path id) → batch_on_disk id b m ↔ batch_on_disk id b m'.
Proof.
  intros Hf HS. split; intros (f & Hp & Hb); exists f; (split; [| done]); [by rewrite Hf | by rewrite <- Hf].
Qed.

Lemma batch_path_visible id : ¬ dotted (batch_path id).
Proof. rewrite app_assoc. by apply not_dotted. Qed.

Lemma cancels_visible phone m m' : same_visible m m' → cancels phone m m'.
Proof.
  intros Hf. pose proof (λ id b, batch_on_disk_frame _ id b m m' Hf (batch_path_visible id)) as Hb.
  split; intros id b; rewrite (Hb id b); auto.
Qed.

(** Other batches are not touched by an update. *)
Lemma replaced_ne batch_id state t b m m' id b' :
  replaced batch_id state t b m m' → id ≠ batch_id → batch_on_disk id b' m ↔ batch_on_disk id b' m'.
Proof.
  intros (_ & _ & _ & Hf) Hne. eapply batch_on_disk_frame; [exact Hf |].
  intros [Hd | Heq]; [by apply batch_path_visible in Hd |]. simplify_list_eq.
Qed.

Lemma replaced_cancels phone batch_id t b m m' :
  replaced batch_id Canceled t b m m' → br_phone_id b = phone → is_terminal (br_state b) = false →
  cancels phone m m'.
Proof.
  intros Hr Hp Ht. pose proof Hr as (Hb & _ & Hst%batch_stored_on_disk & _). split.
  - intros id b0 Hb0. destruct (decide (id = batch_id)) as [->|Hne].
    + right. assert (b0 = b) as -> by by eapply batch_on_disk_fun. eauto.
    + left. by rewrite <- (replaced_ne _ _ _ _ _ _ _ _ Hr Hne).
  - intros id b0 Hb0 Hact. destruct (decide (id = batch_id)) as [->|Hne].
    + rewrite (batch_on_disk_fun _ _ _ _ Hb0 Hst) in Hact. done.
    + by rewrite (replaced_ne _ _ _ _ _ _ _ _ Hr Hne).
Qed.

(** Programs that leave the visible files as they were. *)
Definition unseen {A} (c : io A) : Prop := ∀ m0 m, same_visible m0 m → fwp c (λ _, same_visible m0) (same_visible m0) m.

Lemma unseen_reader {A} (c : io A) : reader c → unseen c.
Proof. intros Hc m0 m Hm. by apply reader_fwp. Qed.
Lemma unseen_bind {A B} (c : io A) (f : A → io B) : unseen c → (∀ a, unseen (f a)) → unseen (a ← c; f a).
Proof.
  intros Hc Hf m0 m Hm. apply fwp_bind. eapply fwp_mono; [by apply (Hc m0) | | done].
  intros a m' Hm'. by apply Hf.
Qed.
Lemma unseen_attempt {A} (c : io A) : unseen c → unseen (attempt c).
Proof. intros Hc m0 m Hm. apply fwp_attempt. by apply (Hc m0). Qed.
Lemma unseen_ret {A} (a : A) : unseen (mret a).
Proof. intros m0 m Hm. by apply fwp_ret. Qed.
Lemma unseen_ignore {A} (c : io A) : unseen c → unseen (ignore c).
Proof. intros Hc. apply unseen_bind; [by apply unseen_attempt | intros; apply unseen_ret]. Qed.
Lemma unseen_remove p : dotted p → unseen (remove_file p).
Proof.
  intros Hp m0 m Hm. apply fwp_remove_file; [| done]. intros _.
  assert (same_visible m0 (delete p m)) by (eapply frame_trans; [exact Hm | by apply frame_delete]). done.
Qed.

Lemma unseen_for_each {Acc} (visit : ManifestEntry → Acc → io Acc) batch_id acc :
  (∀ entry acc, unseen (visit entry acc)) → unseen (for_each_manifest_entry visit batch_id acc).
Proof.
  intros Hvisit. unfold for_each_manifest_entry.
  assert (∀ ls ordinal hashed acc, unseen (for_each_line visit ls ordinal hashed acc)) as Hlines.
  { induction ls as [|l ls IH]; intros ordinal hashed acc'; [apply unseen_ret |]. cbn [for_each_line].
    destruct (strip_newline l); [| apply unseen_reader; read_on].
    apply unseen_bind; [apply unseen_reader; read_on | intros entry].
    apply unseen_bind; [apply unseen_reader; read_on | intros _].
    apply unseen_bind; [apply unseen_reader; read_on | intros _].
    apply unseen_bind; [apply Hvisit | intros acc'']. apply IH. }
  apply unseen_bind; [apply unseen_reader; read_on | intros directory].
  apply unseen_bind; [apply unseen_reader; read_on | intros completed].
  apply unseen_bind; [apply unseen_reader; read_on | intros contents].
  apply unseen_bind; [apply Hlines | intros [[ordinal hashed] acc']].
  apply unseen_reader. read_on.
Qed.

Lemma unseen_cleanup_partial_files batch_id : unseen (cleanup_partial_files batch_id).
Proof.
  unfold cleanup_partial_files.
  apply unseen_bind; [apply unseen_attempt, unseen_reader; read_on | intros batch].
  case_match; [apply unseen_ret |].
  apply unseen_bind; [| intros complete].
  { unfold manifest_is_complete. apply unseen_bind; [apply unseen_attempt, unseen_reader; read_on |].
    intros. apply unseen_ret. }
  destruct (negb complete); [apply unseen_ret |].
  apply unseen_ignore, unseen_for_each. intros entry _.
  destruct (bool_decide (me_kind entry = File)); [| apply unseen_ret].
  apply unseen_bind; [apply unseen_attempt, unseen_reader; read_on | intros target].
  destruct (target ≫= parent) as [p|]; [| apply unseen_ret].
  apply unseen_ignore, unseen_remove. unfold dotted. by rewrite last_snoc.
Qed.

Lemma keeps_for_each {Acc} (visit : ManifestEntry → Acc → io Acc) batch_id acc :
  (∀ entry acc, keeps (visit entry acc)) → keeps (for_each_manifest_entry visit batch_id acc).
Proof.
  intros Hvisit. unfold for_each_manifest_entry, read_manifest_complete, batch_dir.
  assert (∀ ls ordinal hashed acc, keeps (for_each_line visit ls ordinal hashed acc)) as Hlines.
  { induction ls as [|l ls IH]; intros ordinal hashed acc'; cbn [for_each_line]; [keep_going |].
    destruct (strip_newline l); [| keep_going]. keep_going; first [apply Hvisit | apply IH]. }
  keep_going; apply Hlines.
Qed.
Lemma keeps_cleanup_partial_files batch_id : keeps (cleanup_partial_files batch_id).
Proof.
  unfold cleanup_partial_files, manifest_is_complete, batch_dir.
  apply keeps_bind; [keep_going | intros batch].
  match goal with |- keeps (if ?b then _ else _) => destruct b end; [keep_going |].
  apply keeps_bind; [keep_going | intros complete]. destruct (negb complete); [keep_going |].
  apply keeps_ignore, keeps_for_each. intros entry _. keep_going.
Qed.

Lemma cwp_cancel (q : Prop) batch_id phone m :
  cwp q (cancel batch_id phone) (λ _ m', cancels phone m m') (cancels phone m) m.
Proof.
  assert (cancels phone m m) as Em by (apply cancels_visible, frame_refl).
  unfold cancel.
  apply cwp_bind, cwp_on_disk; [apply keeps_load_batch |].
  apply fwp_load_batch; [intros b Hb | done].
  apply cwp_bind, cwp_refuse; [intros Hph; bool_to_prop | done].
  assert (∀ m1, cancels phone m m1 →
    cwp q (_ ← sr_modify (on_tickets (delete batch_id)); _ ← disk_ok (cleanup_partial_files batch_id); mret tt)
      (λ _, cancels phone m) (cancels phone m) m1) as Hend.
  { intros m1 Hm1. apply cwp_bind, cwp_modify; [done |].
    apply cwp_bind, cwp_disk_ok; [apply keeps_cleanup_partial_files |].
    assert (∀ m', same_visible m1 m' → cancels phone m m') as Hv
      by (intros m' Hm'; eapply cancels_trans; [exact Hm1 | by apply cancels_visible]).
    eapply fwp3_mono; [apply (unseen_cleanup_partial_files batch_id m1 m1), frame_refl | | |].
    - intros u m' Hm'. by apply cwp_ret, Hv.
    - intros m' Hm'. by apply cwp_ret, Hv.
    - intros m' Hm'. by apply Hv. }
  apply cwp_bind. destruct (is_terminal (br_state b)) eqn:Ht; [by apply cwp_ret, Hend |].
  apply cwp_bind, cwp_unix_time. intros t. apply cwp_bind, cwp_on_disk; [apply keeps_update_state |].
  assert (∀ b' m', replaced batch_id Canceled t b' m m' → cancels phone m m') as Hrep.
  { intros b' m' Hr. assert (b' = b) as -> by (eapply batch_on_disk_fun; [apply Hr | done]).
    by eapply replaced_cancels. }
  eapply fwp3_mono; [apply fwp_update_state_any | | |].
  - intros x m' (b' & -> & Hr). apply cwp_ret, Hend. by eapply Hrep.
  - intros m' Hm'. by apply cancels_visible.
  - intros m' [Hm' | [b' Hr]]; [by apply cancels_visible | by eapply Hrep].
Qed.

(** No ticket is issued. *)
Definition issues_none {A} (c : co A) : Prop := ∀ s,
  co_tickets (c s).2 ⊆ co_tickets s ∧ co_host (c s).2 = co_host s.

Lemma issues_none_bind {A B} (c : co A) (f : A → co B) :
  issues_none c → (∀ a, issues_none (f a)) → issues_none (a ← c; f a).
Proof.
  intros Hc Hf s. unfold mbind, sr_bind. destruct (Hc s) as [Ht Hh]. destruct (c s) as [[a|e] s1]; [| done].
  destruct (Hf a s1) as [Ht1 Hh1]. cbn in *. split; [by etrans | congruence].
Qed.
Lemma issues_none_on_disk {A} (c : io A) code : issues_none (on_disk c code).
Proof. intros s. unfold on_disk. by destruct (c (co_disk s)) as [[a|e] d]. Qed.
Lemma issues_none_disk_ok {A} (c : io A) : issues_none (disk_ok c).
Proof.
  intros s. unfold disk_ok, disk_result, mbind, sr_bind.
  destruct (c (co_disk s)) as [[a|e] d]; [done |]. by destruct (d_halted d).
Qed.

Lemma issues_none_cancel batch_id phone : issues_none (cancel batch_id phone).
Proof.
  unfold cancel. apply issues_none_bind; [apply issues_none_on_disk | intros batch].
  apply issues_none_bind; [by intros s; destruct (negb _) | intros _].
  apply issues_none_bind; [| intros _].
  { destruct (is_terminal _); [done |].
    apply issues_none_bind; [done | intros t].
    apply issues_none_bind; [apply issues_none_on_disk | done]. }
  apply issues_none_bind; [| intros _].
  { intros s. split; [apply (delete_subseteq (co_tickets s)) | done]. }
  apply issues_none_bind; [apply issues_none_disk_ok | done].
Qed.

Lemma cancel_all_post batches phone s :
  let s' := (cancel_all batches phone s).2 in
  (d_halted (co_disk s) = false → cancels phone (d_files (co_disk s)) (d_files (co_disk s')))
  ∧ co_tickets s' ⊆ co_tickets s ∧ co_host s' = co_host s.
Proof.
  revert s. induction batches as [|b batches IH]; intros s; cbn [cancel_all].
  { cbn. split; [| done]. intros _. apply cancels_visible, frame_refl. }
  unfold mbind, sr_bind, co_ignore.
  destruct (issues_none_cancel (br_batch_id b) phone s) as [Ht Hhost].
  pose proof (cwp_cancel False (br_batch_id b) phone (d_files (co_disk s)) s eq_refl) as Hpost.
  destruct (cancel (br_batch_id b) phone s) as [r s1]. cbn [snd] in *.
  assert (d_halted (co_disk s) = false → cancels phone (d_files (co_disk s)) (d_files (co_disk s1))) as Hc.
  { intros Hh. specialize (Hpost Hh (λ F, match F with end)). destruct r; naive_solver. }
  destruct (d_halted (co_disk s1)) eqn:Hh1; cbn [snd]; [done |].
  destruct (IH s1) as (Hc1 & Ht1 & Hhost1). split_and!.
  - intros Hh. eapply cancels_trans; [by apply Hc | by apply Hc1].
  - by etrans.
  - congruence.
Qed.

Lemma fwp_batches (Q : list BatchRecord → filemap → Prop) (E : filemap → Prop) m :
  (∀ l, Q l m) → E m → fwp batches Q E m.
Proof.
  intros HQ HE. unfold batches. apply fwp_bind, fwp_read_dir; [intros entries | done].
  apply fwp_bind. assert (∀ (Q : list BatchRecord → filemap → Prop), (∀ l, Q l m) → fwp (load_batches entries) Q E m) as Hl.
  { clear -HE. induction entries as [|[id []] entries IH]; intros Q HQ; cbn [load_batches];
      [by apply fwp_ret | | by apply IH].
    apply fwp_bind, fwp_attempt. eapply fwp3_mono; [apply (fwp_load_batch id (λ _ m', m' = m) (eq m)); done | | |].
    - intros b m' ->. apply fwp_bind, IH. intros l. by apply fwp_ret.
    - intros m' <-. apply fwp_bind, IH. intros l. by apply fwp_ret.
    - by intros m' <-. }
  apply Hl. intros l. by apply fwp_ret.
Qed.

Lemma revoke_phone_post phone s :
  d_halted (co_disk s) = false →
  let s' := (revoke_phone phone s).2 in
  co_tickets s' ⊆ filter (λ kv, tg_phone_id kv.2 ≠ phone) (co_tickets s)
  ∧ cancels phone (d_files (co_disk s)) (d_files (co_disk s'))
  ∧ co_host s' = co_host s.
Proof.
  intros Hh. cbn zeta. unfold revoke_phone. erewrite sr_bind_Ok by done. set (s1 := on_tickets _ s).
  change (filter (λ kv, tg_phone_id kv.2 ≠ phone) (co_tickets s)) with (co_tickets s1).
  change (co_host s) with (co_host s1).
  change (co_disk s) with (co_disk s1) in *. unfold mbind, sr_bind, disk_ok, disk_result.
  assert (fwp recoverable_batches (λ _, eq (d_files (co_disk s1))) (eq (d_files (co_disk s1))) (d_files (co_disk s1))) as Hb.
  { unfold recoverable_batches. apply fwp_bind, fwp_batches; [intros l; by apply fwp_ret | done]. }
  specialize (Hb (co_disk s1) eq_refl Hh). unfold mbind, sr_bind.
  destruct (recoverable_batches (co_disk s1)) as [[l|e] d].
  - destruct Hb as [Hd Hb]. cbn.
    destruct (cancel_all_post (filter (λ batch, br_phone_id batch = phone) l) phone (set_disk d s1)) as (Hc & Ht & Hhost).
    cbn in Hc. rewrite <- Hb in Hc. auto.
  - destruct (d_halted d); cbn; rewrite <- Hb; (split_and!; [done | apply cancels_visible, frame_refl | done]).
Qed.

(** Without a ticket of the phone nobody is entitled to one of its batches. *)
Lemma entitled_not_revoked phone s batch_id bearer m :
  co_tickets s ⊆ filter (λ kv, tg_phone_id kv.2 ≠ phone) m → entitled batch_id bearer s →
  ∃ batch, batch_on_disk batch_id batch (d_files (co_disk s)) ∧ br_phone_id batch ≠ phone.
Proof.
  intros Ht (g & b & Hg & _ & _ & Hb & Hph & _). exists b. split; [done |]. rewrite Hph.
  eapply lookup_weaken in Hg; [| exact Ht]. by apply map_lookup_filter_Some in Hg as [_ ?].
Qed.

(** A phone that is unpaired. Whatever fails and wherever the process stops
    while the transfers of a phone are revoked, no ticket of this phone is left
    and none is added, so that no bearer is authorized by one; its unfinished
    batches may have become canceled, and every batch of another phone, and every
    finished one, reads back as before. *)
Theorem revoked_phone_loses_access phone s r s' :
  d_halted (co_disk s) = false → revoke_phone phone s = (r, s') →
  co_tickets s' ⊆ filter (λ kv, tg_phone_id kv.2 ≠ phone) (co_tickets s)
  ∧ (∀ batch_id bearer, entitled batch_id bearer s' →
       ∃ batch, batch_on_disk batch_id batch (d_files (co_disk s')) ∧ br_phone_id batch ≠ phone)
  ∧ ∀ batch_id batch, batch_on_disk batch_id batch (d_files (co_disk s)) →
      batch_on_disk batch_id batch (d_files (co_disk s'))
      ∨ br_phone_id batch = phone ∧ is_terminal (br_state batch) = false
        ∧ ∃ now, batch_on_disk batch_id (with_state Canceled now batch) (d_files (co_disk s')).
Proof.
  intros Hh Hrun. destruct (revoke_phone_post phone s Hh) as (Ht & Hc & _).
  rewrite Hrun in Ht, Hc. cbn [snd] in Ht, Hc.
  split; [exact Ht |]. split; [| exact (proj1 Hc)].
  intros batch_id bearer. by eapply entitled_not_revoked.
Qed.
End tickets.

(** ** On the sample *)

Lemma sample_on_disk schedule :
  @batch_on_disk sample_env "batch-1" (sample_batch Queued None) (d_files (sample_disk schedule)).
Proof. apply batch_stored_on_disk, sample_stored. Qed.

Lemma authorized_exactly_witness :
  ∃ s', @authorize sample_coordinator_env "batch-1" "secret" (sample_coordinator (sample_disk [])) = (Ok true, s').
Proof.
  set (s := sample_coordinator (sample_disk [])).
  assert (@tickets_wf s) as Hwf.
  { intros id g Hg. unfold s, sample_coordinator in Hg. cbn [co_tickets] in Hg.
    apply lookup_singleton_Some in Hg as [_ <-]. reflexivity. }
  destruct (@authorized_exactly sample_coordinator_env "batch-1" "secret" s (conj eq_refl eq_refl) Hwf)
    as (ok & Hrun & Hok).
  rewrite (proj2 Hok) in Hrun; [eexists; exact Hrun |].
  exists sample_grant, (sample_batch Queued None).
  split; [apply lookup_singleton_eq |]. split; [reflexivity |]. split; [reflexivity |].
  split; [apply sample_on_disk | split; reflexivity].
Defined.

Lemma operations_are_exclusive_witness :
  let s := sample_coordinator (sample_disk []) in
  ∃ s1, @acquire_operation "batch-1" "entries/entry-1" s = (Ok ("batch-1", "entry-1"), s1)
  ∧ (@acquire_operation "batch-1" "failures/entry-1" s1).1 = Err "transfer_busy".
Proof.
  intros s. eexists. split.
  - exact (proj1 (@operations_are_exclusive sample_coordinator_env "batch-1" "entries/entry-1" s)).
  - rewrite (proj1 (@operations_are_exclusive sample_coordinator_env "batch-1" "failures/entry-1" _)). reflexivity.
Defined.

Lemma revoked_phone_loses_access_witness :
  let '(r, s') := @revoke_phone sample_coordinator_env "phone-1" (sample_coordinator (sample_disk [Fine; Fails 0])) in
  co_tickets s' = ∅.
Proof.
  destruct (@revoke_phone sample_coordinator_env "phone-1" (sample_coordinator (sample_disk [Fine; Fails 0])))
    as [r s'] eqn:Hrun.
  destruct (@revoked_phone_loses_access sample_coordinator_env "phone-1"
              (sample_coordinator (sample_disk [Fine; Fails 0])) r s' eq_refl Hrun) as [Hsub _].
  apply map_eq. intros i. destruct (co_tickets s' !! i) as [g|] eqn:Hg; [| by rewrite lookup_empty].
  exfalso. eapply lookup_weaken in Hg; [| exact Hsub].
  apply map_lookup_filter_Some in Hg as [Hg Hne]. unfold sample_coordinator in Hg. cbn [co_tickets] in Hg.
  apply lookup_singleton_Some in Hg as [_ <-]. by apply Hne.
Defined.
