(* ===== verification/ActiveBatch.v ===== *)
(** * One transfer per phone

    The rule the control connections keep: a phone has at most one batch that is
    not finished, in either direction; as long as the records of the batches can be read
    when an offer comes. *)

From S2P Require Import Prelude Text Protocol FileNames FileCore Disk DiskLogic Store SampleStore StoreSafety StoreBatches Targets Coordinator DataServer SampleCoordinator DataServerLogic CoordinatorSafety.
Local Open Scope string_scope.
Local Open Scope list_scope.
Local Open Scope Z_scope.

Section active.
Context `{CoordinatorEnv}.
Notation directory batch_id := (store_root ++ [batch_id]).
Notation batch_path batch_id := (store_root ++ [batch_id] ++ [BATCH_FILE]).

Definition active (id phone : string) (m : filemap) : Prop :=
  ∃ b, batch_on_disk id b m ∧ br_phone_id b = phone ∧ is_terminal (br_state b) = false.

Definition one_active (m : filemap) : Prop :=
  ∀ phone i j, active i phone m → active j phone m → i = j.

(** No batch begins. *)
Definition continues (m m' : filemap) : Prop := ∀ id phone, active id phone m' → active id phone m.

Lemma continues_refl m : continues m m.
Proof. by intros id phone. Qed.
Lemma continues_trans m1 m2 m3 : continues m1 m2 → continues m2 m3 → continues m1 m3.
Proof. intros H1 H2 id phone Ha. auto. Qed.
Lemma one_active_continues m m' : one_active m → continues m m' → one_active m'.
Proof. intros Hm Hc phone i j Hi%Hc Hj%Hc. by eapply Hm. Qed.

Lemma cancels_continues phone m m' : cancels phone m m' → continues m m'.
Proof. intros [_ Hback] id p (b & Hb & Hp & Ht). exists b. auto. Qed.
Lemma visible_continues m m' : same_visible m m' → continues m m'.
Proof. intros Hv. by eapply (cancels_continues ""), cancels_visible. Qed.

Lemma transition_alive st st' : can_transition_to st st' = true → is_terminal st' = false → is_terminal st = false.
Proof. by destruct st, st'. Qed.

Lemma replaced_continues batch_id state t b m m' : replaced batch_id state t b m m' → continues m m'.
Proof.
  intros Hr id phone (b' & Hb' & Hp & Ht). pose proof Hr as (Hb & Hstep & Hst%batch_stored_on_disk & _).
  destruct (decide (id = batch_id)) as [->|Hne].
  - assert (b' = with_state state t b) as -> by by eapply batch_on_disk_fun.
    exists b. split_and!; [done | done |]. by eapply transition_alive.
  - exists b'. split; [| done]. by rewrite (replaced_ne _ _ _ _ _ _ _ _ Hr Hne).
Qed.

(** ** The list of batches is complete *)

Lemma load_batches_complete entries d l d' :
  quiet d → load_batches entries d = (Ok l, d') →
  d' = d ∧ ∀ id b, (id, true) ∈ entries → batch_on_disk id b (d_files d) → b ∈ l.
Proof.
  intros Hq. revert l d'. induction entries as [|[id []] entries IH]; intros l d'; cbn [load_batches].
  - intros [= <- <-]. split; [done |]. by intros id b ?%elem_of_nil.
  - intros (o & d1 & Hload & (l1 & d2 & Hl1 & Hret)%sr_bind_inv)%sr_bind_inv.
    injection Hret as <- <-. unfold attempt in Hload.
    destruct (load_batch id d) as [r d0] eqn:Hr.
    destruct (load_batch_quiet_inv _ _ _ _ Hq Hr) as [-> Hb0].
    assert (d1 = d ∧ ∀ b, batch_on_disk id b (d_files d) → o = Some b) as [-> Ho].
    { destruct r as [b|e]; [injection Hload as <- <- |].
      - split; [done |]. intros b' Hb'. f_equal. by eapply batch_on_disk_fun.
      - destruct Hq as [_ Hh]. rewrite Hh in Hload. injection Hload as <- <-.
        split; [done |]. intros b' Hb'. by destruct (Hb0 b'). }
    destruct (IH _ _ Hl1) as [-> Hin]. split; [done |]. intros id' b Hid Hb.
    apply elem_of_app. apply elem_of_cons in Hid as [[= ->] | Hid]; [left | right; by eapply Hin].
    rewrite (Ho b Hb). by apply list_elem_of_singleton.
  - intros Hl. destruct (IH _ _ Hl) as [-> Hin]. split; [done |]. intros id' b Hid Hb.
    apply elem_of_cons in Hid as [[=] | Hid]. by eapply Hin.
Qed.

Lemma batch_directory id b d : settled d → batch_on_disk id b (d_files d) → directory id ∈ d_dirs d.
Proof.
  intros [_ Hw] (f & Hf & _). eapply Hw; [by exists f |]. rewrite app_assoc. apply parent_snoc.
Qed.

Lemma batches_complete d l d' :
  settled d → batches d = (Ok l, d') →
  d' = d ∧ ∀ id b, batch_on_disk id b (d_files d) → b ∈ l.
Proof.
  intros Hs. pose proof Hs as [Hq _]. unfold batches. intros (entries & d1 & Hread & Hrun)%sr_bind_inv.
  assert (d1 = d ∧ ∀ id, directory id ∈ d_dirs d → (id, true) ∈ entries) as [-> Hlisted].
  { revert Hread. unfold read_dir, io_read, io_call. destruct Hq as [Hsch Hh]. rewrite Hh, Hsch.
    destruct (is_dir store_root d); [| done]. intros [= <- <-]. split; [done |]. intros id Hid.
    apply elem_of_app. left. apply list_elem_of_fmap. exists (directory id).
    split; [by rewrite last_snoc |]. apply list_elem_of_filter. split; [apply parent_snoc | by apply elem_of_elements]. }
  apply sr_bind_inv in Hrun as (l1 & d2 & Hl & Hret). injection Hret as <- <-.
  destruct (load_batches_complete _ _ _ _ Hq Hl) as [-> Hin]. split; [done |]. intros id b Hb.
  apply elem_of_stable_sort. eapply Hin; [| done]. apply Hlisted. by eapply batch_directory.
Qed.

Lemma cwp_recoverable_batches code (Q : list BatchRecord → filemap → Prop) (E : filemap → Prop) m :
  (∀ l, (∀ id b, batch_on_disk id b m → is_terminal (br_state b) = false → b ∈ l) → Q l m) → E m →
  cwp True (on_disk recoverable_batches code) Q E m.
Proof.
  intros HQ HE s Hm Hh Hs. specialize (Hs I). unfold on_disk.
  assert (fwp recoverable_batches (λ _ m', m' = m) (λ m', m' = m) m) as Hpost.
  { unfold recoverable_batches. apply fwp_bind, fwp_batches; [intros l; by apply fwp_ret | done]. }
  specialize (Hpost _ Hm Hh). destruct (recoverable_batches (co_disk s)) as [[l|e] d] eqn:Hrun.
  - destruct Hpost as [Hd _]. unfold recoverable_batches in Hrun.
    apply sr_bind_inv in Hrun as (l0 & d0 & Hb & Hret). injection Hret as <- <-.
    destruct (batches_complete _ _ _ Hs Hb) as [-> Hin]. cbn. rewrite Hm in *. split_and!; [done.. |].
    apply HQ. intros id b Hbd Ht. apply list_elem_of_filter. split; [done | by eapply Hin].
  - cbn. assert (d_files d = m) as -> by (by destruct (d_halted d)). done.
Qed.

(** ** Creating a batch *)

(** A known batch is not created again. *)
Lemma create_batch_known batch b d :
  settled d → batch_on_disk (br_batch_id batch) b (d_files d) →
  ∃ e, create_batch batch d = (Err e, d).
Proof.
  intros Hs Hb. pose proof (batch_directory _ _ _ Hs Hb) as Hdir. destruct Hs as [[Hsch Hh] _].
  unfold create_batch, batch_dir, BatchRecord_validate, check, io_err, mbind, sr_bind, sr_lift, mret, sr_ret.
  destruct (_ || _); [by eexists |]. cbn. destruct (validate_batch_id _); cbn; [| by eexists].
  unfold create_dir, io_atomic. rewrite Hh, Hsch. unfold is_dir. rewrite (bool_decide_true _ Hdir). by eexists.
Qed.

Lemma fwp_create_batch batch (m : filemap) :
  let made m' := batch_stored (br_batch_id batch) batch m'
    ∧ frame (λ p, dotted p ∨ p = batch_path (br_batch_id batch)) m m' in
  fwp3 (create_batch batch) (λ _, made) (same_visible m) (λ m', same_visible m m' ∨ made m') m.
Proof.
  intros made.
  assert (∀ A (c : io A) Q m', fwp c Q (same_visible m) m' →
    fwp3 c Q (same_visible m) (λ m', same_visible m m' ∨ made m') m') as Hw
    by (intros A c Q m' Hc; eapply fwp3_mono; [exact Hc | done | done | by left]).
  unfold create_batch.
  apply fwp_bind, Hw, fwp_validate; [intros Hv | apply frame_refl].
  apply fwp_bind, Hw, fwp_batch_dir; [intros _ | apply frame_refl].
  apply fwp_bind, Hw, fwp_create_dir; [| apply frame_refl].
  apply fwp_bind, Hw, fwp_to_json; [intros contents Hc | apply frame_refl].
  assert (∀ m', same_visible (<[directory (br_batch_id batch) ++ [BATCH_FILE] := mkFile contents contents]> m) m' →
    made m') as Hdone.
  { intros m' Hm'. split.
    - exists contents. rewrite app_assoc. rewrite Hm' by (by apply not_dotted).
      rewrite lookup_insert_eq. split_and!; [done | by apply from_slice_to_vec | done | done].
    - intros p Hp. rewrite Hm' by naive_solver. apply lookup_insert_ne. rewrite <- app_assoc. naive_solver. }
  apply fwp_write.
  - intros m' Hm'. split; [by apply Hdone | right; by apply Hdone].
  - intros m' Hm'. by split; [| left].
Qed.

(** A new batch of a phone that has none. *)
Lemma one_active_create batch m m' :
  one_active m → (∀ id, ¬ active id (br_phone_id batch) m) →
  batch_stored (br_batch_id batch) batch m' →
  frame (λ p, dotted p ∨ p = batch_path (br_batch_id batch)) m m' → one_active m'.
Proof.
  intros Hone Hnone Hst%batch_stored_on_disk Hf.
  assert (∀ id phone, active id phone m' → id ≠ br_batch_id batch → active id phone m) as Hold.
  { intros id phone (b & Hb & Hp) Hne. exists b. split; [| done].
    rewrite batch_on_disk_frame; [exact Hb | exact Hf |].
    intros [Hd | Heq]; [by apply batch_path_visible in Hd |]. simplify_list_eq. }
  assert (∀ id phone, active id phone m' → id = br_batch_id batch → phone = br_phone_id batch) as Hnew.
  { intros id phone (b & Hb & <- & _) ->. by rewrite (batch_on_disk_fun _ _ _ _ Hb Hst). }
  intros phone i j Hi Hj.
  destruct (decide (i = br_batch_id batch)) as [Hib|Hib], (decide (j = br_batch_id batch)) as [Hjb|Hjb];
    [congruence | | | by eapply Hone; eauto].
  - rewrite (Hnew _ _ Hi Hib) in Hj. by destruct (Hnone j); apply Hold.
  - rewrite (Hnew _ _ Hj Hjb) in Hi. by destruct (Hnone i); apply Hold.
Qed.

(** ** The control messages *)

Lemma offer_phone offer phone : FileOffer_validate offer phone = Ok tt → fo_phone_id offer = phone.
Proof.
  unfold FileOffer_validate. rewrite result_bind_Ok. intros (u & _ & Ho).
  destruct (bool_decide (fo_phone_id offer = phone)) eqn:Hb; [by bool_to_prop | done].
Qed.

Lemma BatchRecord_new_ids id phone direction t files directories bytes d b d' :
  BatchRecord_new id phone direction t files directories bytes d = (Ok b, d') →
  br_batch_id b = id ∧ br_phone_id b = phone.
Proof. intros (u & d1 & _ & Hret)%sr_bind_inv. by injection Hret as <- <-. Qed.

Lemma cwp_issue_ticket (q : Prop) batch_id phone (Q : FileServerMessage → filemap → Prop) (E : filemap → Prop) m :
  (∀ reply, Q reply m) → E m → cwp q (issue_ticket batch_id phone) Q E m.
Proof.
  intros HQ HE. apply cwp_bind, cwp_get. intros s. apply cwp_bind, cwp_modify; [done |].
  apply cwp_bind, cwp_unix_time. intros t.
  apply cwp_bind, cwp_on_disk; [apply keeps_load_batch |]. apply fwp_load_batch; [intros b _ | done].
  apply cwp_bind, cwp_modify; [done |]. by apply cwp_ret.
Qed.

Lemma keeps_create_batch batch : keeps (create_batch batch).
Proof. unfold create_batch, BatchRecord_validate, batch_dir. keep_going. Qed.
Lemma reader_BatchRecord_new id phone direction t files directories bytes :
  reader (BatchRecord_new id phone direction t files directories bytes).
Proof. unfold BatchRecord_new, BatchRecord_validate. read_on. Qed.
Lemma keeps_BatchRecord_new id phone direction t files directories bytes :
  keeps (BatchRecord_new id phone direction t files directories bytes).
Proof. unfold BatchRecord_new, BatchRecord_validate. keep_going. Qed.

(** What a batch that was created, or not, leaves. *)
Lemma cwp_create_batch batch (Q : result io_error unit → filemap → Prop) (E : filemap → Prop) m :
  one_active m →
  (∃ b, batch_on_disk (br_batch_id batch) b m) ∨ (∀ id, ¬ active id (br_phone_id batch) m) →
  (∀ r m', one_active m' → Q r m') → (∀ m', one_active m' → E m') →
  cwp True (disk_result (create_batch batch)) Q E m.
Proof.
  intros Hone Hcase HQ HE. destruct Hcase as [[b Hb] | Hnone].
  - intros s <- Hh Hs. unfold disk_result.
    destruct (create_batch_known batch b (co_disk s) (Hs I) Hb) as [e ->]. rewrite Hh. cbn.
    split_and!; [done | intros _; apply (Hs I) | by apply HQ].
  - apply cwp_disk_result; [apply keeps_create_batch |].
    assert (∀ m', same_visible m m' → one_active m') as Hv
      by (intros m' Hm'; eapply one_active_continues; [exact Hone | by apply visible_continues]).
    eapply fwp3_mono; [apply fwp_create_batch | | |].
    + intros [] m' [Hst Hf]. apply HQ. by eapply one_active_create.
    + intros m' Hm' e. by apply HQ, Hv.
    + intros m' [Hm' | [Hst Hf]]; [by apply HE, Hv |]. apply HE. by eapply one_active_create.
Qed.

Lemma cwp_accept_offer offer phone m :
  one_active m → cwp True (accept_offer offer phone) (λ _, one_active) one_active m.
Proof.
  intros Hone. unfold accept_offer.
  apply cwp_bind, cwp_with_code; [intros [] Hphone%offer_phone | done].
  apply cwp_bind, cwp_refuse; [intros _ | done].
  apply cwp_bind, cwp_get. intros s. apply cwp_bind, cwp_refuse; [intros _ | done].
  (* from here on the batch is known, or the phone has none *)
  assert ((∃ b, batch_on_disk (fo_batch_id offer) b m) ∨ (∀ id, ¬ active id phone m) →
    cwp True (now ← unix_time;
      batch ← on_disk (BatchRecord_new (fo_batch_id offer) (fo_phone_id offer) (fo_direction offer) now
                     (fo_file_count offer) (fo_directory_count offer) (fo_total_bytes offer)) "invalid batch";
      created ← disk_result (create_batch batch);
      match created with
      | Ok _ => issue_ticket (fo_batch_id offer) phone
      | Err AlreadyExists =>
        existing ← on_disk (load_batch (fo_batch_id offer)) "cannot resume batch";
        _ ← refuse (negb (bool_decide (br_phone_id existing = fo_phone_id offer))
                || negb (bool_decide (br_direction existing = fo_direction offer))
                || negb (br_file_count existing =? fo_file_count offer)
                || negb (br_directory_count existing =? fo_directory_count offer)
                || negb (br_total_bytes existing =? fo_total_bytes offer)) "batch id conflict";
        if is_terminal (br_state existing)
        then mret (SmFileResult (br_batch_id existing) (br_state existing))
        else issue_ticket (fo_batch_id offer) phone
      | Err _ => sr_fail "cannot create batch"
      end) (λ _, one_active) one_active m) as Hrest.
  { intros Hcase. apply cwp_bind, cwp_unix_time. intros t.
    apply cwp_bind, cwp_reader; [apply reader_BatchRecord_new | apply keeps_BatchRecord_new | | done].
    intros batch Hbatch. destruct (BatchRecord_new _ _ _ _ _ _ _ _) as [[b'|e] d'] eqn:Hnew; [| done].
    cbn in Hbatch. injection Hbatch as ->. apply BatchRecord_new_ids in Hnew as [Hid Hph].
    apply cwp_bind, cwp_create_batch; [done | by rewrite Hid, Hph, Hphone | | done].
    intros [u|[]] m' Hm'; try by apply cwp_fail.
    - by apply cwp_issue_ticket.
    - apply cwp_bind, cwp_on_disk; [apply keeps_load_batch |]. apply fwp_load_batch; [intros b _ | done].
      apply cwp_bind, cwp_refuse; [intros _ | done].
      destruct (is_terminal _); [by apply cwp_ret | by apply cwp_issue_ticket]. }
  apply cwp_bind, cwp_disk_ok; [apply keeps_load_batch |].
  eapply fwp3_mono; [apply (fwp_load_batch _ (λ b m', m' = m ∧ batch_on_disk (fo_batch_id offer) b m) (eq m)); done
    | | | by intros m' <-].
  - intros b m' [-> Hb]. apply cwp_bind, cwp_ret, Hrest. left. by exists b.
  - intros m' <-. apply cwp_bind, cwp_bind, cwp_recoverable_batches; [intros l Hl | done].
    apply cwp_refuse; [intros Hnone | done]. apply Hrest. right. intros id (b & Hb & Hp & Ht).
    apply existsb_false_Forall in Hnone. rewrite Forall_forall in Hnone.
    specialize (Hnone b (Hl id b Hb Ht)). cbv beta in Hnone. bool_to_prop. done.
Qed.

(** A step of the life cycle, where it is due. *)
Lemma cwp_advance (q : Prop) (due : bool) batch_id state code m0 m (Q : unit → filemap → Prop) (E : filemap → Prop) :
  continues m0 m → (∀ m', continues m0 m' → Q tt m') → (∀ m', continues m0 m' → E m') →
  cwp q (if due then now ← unix_time; _ ← on_disk (update_state batch_id state now) code; mret tt else mret tt)
    Q E m.
Proof.
  intros Hm HQ HE. destruct due; [| by apply cwp_ret, HQ].
  apply cwp_bind, cwp_unix_time. intros t. apply cwp_bind, cwp_on_disk; [apply keeps_update_state |].
  assert (∀ m', continues m m' → continues m0 m') as Ht by (intros m' Hm'; by eapply continues_trans).
  eapply fwp3_mono; [apply fwp_update_state_any | | |].
  - intros x m' (b & _ & Hr%replaced_continues). by apply cwp_ret, HQ, Ht.
  - intros m' Hv%visible_continues. by apply HE, Ht.
  - intros m' [Hv%visible_continues | [b Hr%replaced_continues]]; by apply HE, Ht.
Qed.

Lemma cwp_accept_decision (q : Prop) decision phone m :
  cwp q (accept_decision decision phone) (λ _, continues m) (continues m) m.
Proof.
  pose proof (continues_refl m) as Em. unfold accept_decision.
  apply cwp_bind, cwp_with_code; [intros _ _ | done].
  apply cwp_bind, cwp_on_disk; [apply keeps_load_batch |]. apply fwp_load_batch; [intros b _ | done].
  apply cwp_bind, cwp_refuse; [intros _ | done].
  destruct (is_terminal _); [by apply cwp_ret |].
  destruct (negb (fd_accepted decision)).
  { apply cwp_bind. eapply cwp_mono; [apply cwp_cancel | |].
    - intros u m' Hc%cancels_continues. by apply cwp_ret.
    - intros m' Hc. by eapply cancels_continues. }
  assert (∀ code m1 (f : BatchRecord → co (option FileServerMessage)), continues m m1 →
    (∀ b, cwp q (f b) (λ _, continues m) (continues m) m1) →
    cwp q (b ← on_disk (load_batch (fd_batch_id decision)) code; f b) (λ _, continues m) (continues m) m1) as Hload.
  { intros code m1 f Hm1 Hf. apply cwp_bind, cwp_on_disk; [apply keeps_load_batch |].
    by apply fwp_load_batch; [intros b' _ |]. }
  apply cwp_bind, (cwp_advance _ _ _ _ _ m); [done | intros m1 Hm1 | done]. apply Hload; [done | intros b1].
  apply cwp_bind, (cwp_advance _ _ _ _ _ m); [done | intros m2 Hm2 | done]. apply Hload; [done | intros b2].
  apply cwp_bind, (cwp_advance _ _ _ _ _ m); [done | intros m3 Hm3 | done].
  apply cwp_bind, cwp_issue_ticket; [intros reply; by apply cwp_ret | done].
Qed.

(** A condition that holds need not be kept in mind. *)
Lemma cwp_known {A} (q : Prop) (c : co A) (Q : A → filemap → Prop) (E : filemap → Prop) m :
  q → cwp True c Q E m → cwp q c Q E m.
Proof.
  intros Hq Hc s Hm Hh Hs. specialize (Hc s Hm Hh (λ _, Hs Hq)). destruct (c s) as [[a | e] s']; [| done].
  destruct Hc as (Hh' & Hs' & HQ). auto.
Qed.

(** C22. One transfer per phone. If every phone has at most one unfinished batch, whichever
    way the batches go, it has at most one after any control message: after a decision, a
    cancellation or a message that is not understood whatever fails on the disk meanwhile
    and wherever a crash stops it, after an offer when the disk answers. *)
Theorem one_batch_per_phone batch_id message phone s reply s' :
  one_active (d_files (co_disk s)) → d_halted (co_disk s) = false →
  (∀ offer, message = Some (CmFileOffer offer) → settled (co_disk s)) →
  handle_control batch_id message phone s = (reply, s') →
  one_active (d_files (co_disk s')).
Proof.
  intros Hone Hh Hs. unfold handle_control.
  match goal with |- (let '(_, _) := ?c s in _) = _ → _ => set (run := c) end.
  assert (cwp (∃ offer, message = Some (CmFileOffer offer)) run (λ _, one_active) one_active (d_files (co_disk s))) as Hwp.
  { unfold run. destruct message as [[offer | decision | cancellation]|].
    - apply cwp_bind. eapply cwp_mono; [apply cwp_known; [by exists offer | by apply cwp_accept_offer] | | done].
      intros a m' Hm'. by apply cwp_ret.
    - eapply cwp_mono; [apply cwp_accept_decision | |]; intros; by eapply one_active_continues.
    - apply cwp_bind, cwp_with_code; [intros _ _ | done].
      apply cwp_bind. eapply cwp_mono; [apply cwp_cancel | |].
      + intros u m' Hc%cancels_continues. apply cwp_ret. by eapply one_active_continues.
      + intros m' Hc%cancels_continues. by eapply one_active_continues.
    - by apply cwp_fail. }
  specialize (Hwp s eq_refl Hh (λ Hm, let 'ex_intro _ offer Ho := Hm in Hs offer Ho)).
  destruct (run s) as [[r|e] s1]; intros [= _ <-]; [apply Hwp | apply Hwp].
Qed.
End active.

(** ** On the sample *)

Lemma sample_settled : settled (sample_disk []).
Proof.
  split; [done |]. intros p q [f Hf] Hq. cbn in Hf. apply lookup_singleton_Some in Hf as [<- _].
  injection Hq as <-. cbn. set_solver.
Qed.

Lemma sample_one_active schedule : @one_active sample_coordinator_env (d_files (sample_disk schedule)).
Proof.
  assert (∀ i phone, @active sample_coordinator_env i phone (d_files (sample_disk schedule)) → i = "batch-1") as Hi.
  { intros i phone (b & (f & Hf & _) & _). cbn in Hf. apply lookup_singleton_Some in Hf as [Hp _]. by simplify_list_eq. }
  intros phone i j Ha Hb. by rewrite (Hi _ _ Ha), (Hi _ _ Hb).
Qed.

Definition sample_offer : FileOffer :=
  mkFileOffer PROTOCOL_VERSION FILE_TRANSFER_VERSION "phone-1" "batch-2" PhoneToComputer 1 1 42 ["docs"].

(** A second offer while the first batch is not finished. *)
Lemma one_batch_per_phone_witness :
  let '(reply, s') := @handle_control sample_coordinator_env "batch-2" (Some (CmFileOffer sample_offer)) "phone-1"
                        (sample_coordinator (sample_disk [])) in
  @one_active sample_coordinator_env (d_files (co_disk s')) ∧ reply = Some (SmFileError "batch-2" "transfer_busy").
Proof.
  destruct (@handle_control sample_coordinator_env "batch-2" (Some (CmFileOffer sample_offer)) "phone-1"
              (sample_coordinator (sample_disk []))) as [reply s'] eqn:Hrun.
  split.
  - exact (@one_batch_per_phone sample_coordinator_env "batch-2" (Some (CmFileOffer sample_offer)) "phone-1"
             (sample_coordinator (sample_disk [])) reply s' (sample_one_active []) eq_refl (λ _ _, sample_settled) Hrun).
  - change reply with (reply, s').1. rewrite <- Hrun. by vm_compute.
Defined.

(** Finding: a batch whose record cannot be read just then is passed over, and its phone
    begins a second one. *)
Definition second_batch : BatchRecord := mkBatchRecord 1 "batch-2" "phone-1" PhoneToComputer Queued 10 10 1 1 42 None.
Definition two_batches_env : CoordinatorEnv := {|
  coordinator_store := {|
    batch_json := table_json [sample_batch WaitingConfirmation None; sample_batch Queued None; second_batch];
    entry_json := table_json sample_entries;
    complete_json := table_json [mkManifestComplete 1 2 sample_hash];
    target_json := table_json [mkTargetRecord 0 "docs"];
    source_json := table_json [mkSourceRecord 0 "C:\src\docs"];
    sha256_hex := λ _, sample_hash; sha256_hex_valid := λ _, eq_refl;
    to_lowercase := ascii_lowercase; to_lowercase_boundary := ascii_lowercase_boundary;
    process_id := 7; store_root := ["C:"; "store"];
  |};
  base64_url := λ l, "token"; sha256 := sample_digest; sha256_length := sample_digest_length;
|}.

Lemma unreadable_batch_admits_another :
  let '(reply, s') := @handle_control two_batches_env "batch-2" (Some (CmFileOffer sample_offer)) "phone-1"
                        (sample_coordinator (sample_disk [Fine; Fine; Fails 0])) in
  @batch_on_disk (@coordinator_store two_batches_env) "batch-1" (sample_batch Queued None) (d_files (co_disk s')) ∧
  @batch_on_disk (@coordinator_store two_batches_env) "batch-2" second_batch (d_files (co_disk s')) ∧
  ¬ @one_active two_batches_env (d_files (co_disk s')).
Proof.
  destruct (@handle_control two_batches_env "batch-2" (Some (CmFileOffer sample_offer)) "phone-1"
              (sample_coordinator (sample_disk [Fine; Fine; Fails 0]))) as [reply s'] eqn:Hrun.
  assert (d_files (co_disk s') !! ["C:"; "store"; "batch-1"; "batch.json"] = Some (mkFile [101] [101])
    ∧ d_files (co_disk s') !! ["C:"; "store"; "batch-2"; "batch.json"] = Some (mkFile [102] [102])) as [H1 H2].
  { change s' with (reply, s').2. rewrite <- Hrun. split; vm_compute; reflexivity. }
  assert (@batch_on_disk (@coordinator_store two_batches_env) "batch-1" (sample_batch Queued None) (d_files (co_disk s'))) as Hb1
    by (eexists; split; [exact H1 | split_and!; [reflexivity | by vm_compute | reflexivity]]).
  assert (@batch_on_disk (@coordinator_store two_batches_env) "batch-2" second_batch (d_files (co_disk s'))) as Hb2
    by (eexists; split; [exact H2 | split_and!; [reflexivity | by vm_compute | reflexivity]]).
  split_and!; [exact Hb1 | exact Hb2 |]. intros Hone.
  by discriminate (Hone "phone-1" "batch-1" "batch-2" (ex_intro _ _ (conj Hb1 (conj eq_refl eq_refl)))
    (ex_intro _ _ (conj Hb2 (conj eq_refl eq_refl)))).
Qed.
