(* ===== verification/DataServerSafety.v ===== *)
(** * What the data connections guarantee

    Files: only what was checked is published, and nothing is overwritten.
    Bodies: how a body is cut into frames makes no difference. *)

From S2P Require Import Prelude Text Protocol FileNames FileCore Disk DiskLogic Store SampleStore StoreSafety StoreBatches Targets Coordinator Outbound DataServer SampleCoordinator DataServerLogic.
Local Open Scope string_scope.
Local Open Scope list_scope.
Local Open Scope Z_scope.

Section server.
Context `{CoordinatorEnv}.
Notation directory batch_id := (store_root ++ [batch_id]).
Notation progress_path batch_id := (store_root ++ [batch_id] ++ [PROGRESS_FILE]).

(** ** Publishing a file *)

Lemma fwp_write_progress batch_id ordinal p (Q : unit → filemap → Prop) (E : filemap → Prop) m :
  (∀ m', frame (eq (progress_path batch_id)) m m' → Q tt m') →
  (∀ m', frame (eq (progress_path batch_id)) m m' → E m') →
  fwp (write_progress batch_id ordinal p) Q E m.
Proof.
  intros HQ HE. assert (E m) as Em by apply HE, frame_refl. unfold write_progress.
  apply fwp_bind, fwp_batch_dir; [intros _ | done].
  apply fwp_bind, reader_fwp; [apply reader_read_manifest_complete | intros c _ | done].
  apply fwp_bind, fwp_check; [intros _ | done].
  apply fwp_bind, fwp_open_existing; [intros _ | done].
  apply fwp_bind, fwp_checked; [intros offset _ | done]. rewrite <- app_assoc.
  apply fwp_bind. apply (fwp_mono _ (λ _, frame (eq (progress_path batch_id)) m) _ (frame (eq (progress_path batch_id)) m));
    [apply fwp_write_at | | done].
  - by apply frame_alter.
  - intros n. by apply frame_alter.
  - apply frame_refl.
  - intros _ m1 Hm1.
    assert (∀ f, frame (eq (progress_path batch_id)) m (alter f (progress_path batch_id) m1)) as Hm2
      by (intros f; eapply frame_trans; [exact Hm1 | by apply frame_alter]).
    apply fwp_sync; [apply HQ, Hm2 | apply HE, Hm2 | by apply HE].
Qed.

(** The bytes are those that were announced. *)
Definition verified (entry : ManifestEntry) (hash : string) (f : file) : Prop :=
  zlength (f_data f) = me_size entry ∧ eq_ignore_ascii_case (sha256_hex (f_data f)) hash = true.

(** Where the body of an entry is staged, for an entry that goes to [t]. *)
Definition staging (batch_id : string) (entry : ManifestEntry) (t : path) : path :=
  default [] (parent t) ++ [part_name batch_id (me_entry_id entry)].

(** From [m] to [m'] nothing happens, but for the progress of the batch. *)
Definition only_progress (batch_id : string) : filemap → filemap → Prop := frame (eq (progress_path batch_id)).

(** The verified staged file moves to the target; where [q], nothing was there. *)
Definition moved (q : Prop) (batch_id : string) (entry : ManifestEntry) (hash : string) (t : path) (f : file)
    (m m' : filemap) : Prop :=
  (target_path batch_id (me_ordinal entry) (still m)).1 = Ok t
  ∧ m !! staging batch_id entry t = Some f ∧ verified entry hash f ∧ (q → m !! t = None)
  ∧ only_progress batch_id (<[t := f]> (delete (staging batch_id entry t) m)) m'.

(** It had been moved before. *)
Definition was_there (batch_id : string) (entry : ManifestEntry) (hash : string) (t : path) (f : file)
    (m m' : filemap) : Prop :=
  (target_path batch_id (me_ordinal entry) (still m)).1 = Ok t
  ∧ m !! t = Some f ∧ verified entry hash f ∧ only_progress batch_id m m'.

(** The record of a completed entry, after the file is in its place. *)
Lemma cwp_complete (q : Prop) batch_id ordinal p code (Q : filemap → Prop) m :
  (∀ m', only_progress batch_id m m' → Q m') →
  cwp q (on_disk (write_progress batch_id ordinal p) code) (λ _, Q) Q m.
Proof. intros HQ. apply cwp_on_disk; [apply keeps_write_progress |]. by apply fwp_write_progress. Qed.

(** The length and the hash of the file at [p]. *)
Lemma cwp_verified {A} (q : Prop) entry hash p (rest : co A) (Q : A → filemap → Prop) (E : filemap → Prop) m :
  (∀ f, m !! p = Some f → verified entry hash f → cwp q rest Q E m) → E m →
  cwp q (length ← on_disk (file_len p) "target_unavailable";
         _ ← (if negb (length =? me_size entry) then sr_fail "integrity_failed"
              else hash' ← on_disk (hash_file p) "target_unavailable";
                   refuse (negb (eq_ignore_ascii_case hash' hash)) "integrity_failed");
         rest) Q E m.
Proof.
  intros HQ Em. apply cwp_bind, cwp_on_disk; [apply keeps_file_len |].
  apply reader_fwp; [apply reader_file_len | intros len Hlen | done].
  assert (∃ f, m !! p = Some f ∧ len = zlength (f_data f)) as (f & Hf & ->).
  { unfold file_len, io_read, io_call in Hlen. cbn in Hlen. destruct (m !! p) as [f|]; [| done].
    exists f. split; [done |]. by injection Hlen. }
  apply cwp_bind. destruct (Z.eqb_spec (zlength (f_data f)) (me_size entry)) as [Hsize|]; [| by apply cwp_fail].
  cbn [negb]. apply cwp_bind, cwp_on_disk; [apply keeps_hash_file |].
  apply reader_fwp; [apply reader_hash_file | intros h Hh | done].
  assert (h = sha256_hex (f_data f)) as ->.
  { unfold hash_file, read, mbind, sr_bind, io_read, io_call in Hh. cbn in Hh. rewrite Hf in Hh. by injection Hh. }
  apply cwp_refuse; [intros Hb | done]. eapply HQ; [exact Hf |]. split; [done |]. by apply negb_false_iff.
Qed.

Lemma cwp_commit_uploaded_file (q : Prop) batch_id entry hash m :
  cwp q (commit_uploaded_file batch_id entry hash)
    (λ _ m', ∃ t f, moved q batch_id entry hash t f m m' ∨ was_there batch_id entry hash t f m m')
    (λ m', only_progress batch_id m m' ∨ ∃ t f, moved q batch_id entry hash t f m m') m.
Proof.
  set (E := λ m', only_progress batch_id m m' ∨ _).
  assert (E m) as Em by (left; apply frame_refl).
  unfold commit_uploaded_file.
  apply cwp_bind, cwp_on_disk; [apply keeps_target_path |].
  apply reader_fwp; [apply reader_target_path | intros t Ht | done].
  apply cwp_bind, cwp_with_code; [intros dir Hdir | done].
  cbv zeta. set (part := dir ++ [_]).
  assert (part = staging batch_id entry t) as Hpart.
  { unfold staging, part. destruct (parent t); [by injection Hdir as -> | done]. }
  clearbody part. subst part. set (part := staging batch_id entry t).
  apply cwp_bind, cwp_path_exists; [| intros _ | done]; cbv iota.
  - apply cwp_verified; [intros f Hf Hver | done].
    apply cwp_bind, cwp_ticket_is_active. intros active. apply cwp_bind, cwp_refuse; [intros _ | done].
    apply cwp_bind, cwp_bind, cwp_path_exists; [by apply cwp_bind, cwp_refuse | intros Hnone | done].
    apply cwp_bind, cwp_refuse; [intros _ | done].
    set (m1 := <[t := f]> (delete part m)).
    assert (∀ m', only_progress batch_id m1 m' → moved q batch_id entry hash t f m m') as Hmoved by done.
    assert (E m1) as Em1 by (right; exists t, f; apply Hmoved, frame_refl).
    apply cwp_bind, cwp_on_disk; [apply keeps_move_replace |].
    apply fwp_move_replace; [| done..]. intros f'. rewrite Hf. intros [= <-]. split; [| done].
    assert (cwp q (on_disk (write_progress batch_id (me_ordinal entry)
        (mkEntryProgress ECompleted (me_size entry))) "progress_unavailable")
      (λ _ m', ∃ t f, moved q batch_id entry hash t f m m' ∨ was_there batch_id entry hash t f m m') E m1) as Hend.
    { eapply cwp_mono; [apply (cwp_complete q _ _ _ _ (moved q batch_id entry hash t f m)); done | |].
      - intros u m' Hm'. exists t, f. by left.
      - intros m' Hm'. right. by exists t, f. }
    destruct (me_modified_at_epoch_millis entry); [by apply cwp_preserve_modified_time | by apply cwp_ret].
  - apply cwp_verified; [intros f Hf Hver | done].
    apply cwp_bind, cwp_ticket_is_active. intros active. apply cwp_bind, cwp_refuse; [intros _ | done].
    apply cwp_bind, cwp_ret. eapply cwp_mono; [apply (cwp_complete q _ _ _ _ (only_progress batch_id m)); done | |].
    + intros u m' Hm'. exists t, f. by right.
    + intros m' Hm'. by left.
Qed.

(** C6. Only verified files are published. Whatever fails and wherever the machine
    stops while an upload is completed, every file on the computer but the
    progress of the batch and the staged body stays as it was, or it is the
    target of the entry and has become the staged body, of the announced length
    and hash; on a disk without faults nothing was there before. When success is
    answered, also when it had been completed before, the target has the
    announced length and hash. *)
Theorem only_verified_files_are_published batch_id entry hash s r s' :
  let m := d_files (co_disk s) in let m' := d_files (co_disk s') in
  let target t := (target_path batch_id (me_ordinal entry) (still m)).1 = Ok t in
  d_halted (co_disk s) = false → commit_uploaded_file batch_id entry hash s = (r, s') →
  (∀ p, p ≠ progress_path batch_id → (∀ t, target t → p ≠ staging batch_id entry t) →
     m' !! p = m !! p
     ∨ target p ∧ (settled (co_disk s) → m !! p = None)
       ∧ ∃ f, m !! staging batch_id entry p = Some f ∧ m' !! p = Some f ∧ verified entry hash f)
  ∧ (r = Ok tt → ∃ t f, target t ∧ verified entry hash f
       ∧ (t ≠ progress_path batch_id → m' !! t = Some f)).
Proof.
  intros m m' target Hh Hrun.
  pose proof (cwp_commit_uploaded_file (settled (co_disk s)) batch_id entry hash m s eq_refl Hh id) as Hpost.
  rewrite Hrun in Hpost. fold m' in Hpost.
  assert (∀ p t f, moved (settled (co_disk s)) batch_id entry hash t f m m' → p ≠ progress_path batch_id →
    (∀ t, target t → p ≠ staging batch_id entry t) → m' !! p = m !! p ∨ target p
      ∧ (settled (co_disk s) → m !! p = None)
      ∧ ∃ f, m !! staging batch_id entry p = Some f ∧ m' !! p = Some f ∧ verified entry hash f) as Hmoved.
  { intros p t f (Ht & Hf & Hv & Hnone & Hfr) Hp Hs. rewrite (Hfr p) by done.
    destruct (decide (t = p)) as [<-|Hne].
    - right. rewrite lookup_insert_eq. eauto 10.
    - left. rewrite lookup_insert_ne, lookup_delete_ne by (done || (intros <-; by eapply Hs)). done. }
  split.
  - intros p Hp Hs. destruct r as [u|e].
    + destruct Hpost as (_ & _ & t & f & [Hm | (_ & _ & _ & Hfr)]); [by eapply Hmoved | left; by apply Hfr].
    + destruct Hpost as [Hfr | (t & f & Hm)]; [left; by apply Hfr | by eapply Hmoved].
  - intros ->. destruct Hpost as (_ & _ & t & f & [(Ht & _ & Hv & _ & Hfr) | (Ht & Hf & Hv & Hfr)]);
      exists t, f; (split_and!; [done.. |]); intros Hp; rewrite (Hfr t) by done; [apply lookup_insert_eq | done].
Qed.

(** ** Cutting the body of a manifest into frames *)

Notation consume pending writer := (consume_manifest_lines (length pending) pending writer).

Lemma split_once_app l k : split_once 10 (l ++ k) =
  match split_once 10 l with
  | Some (a, b) => Some (a, b ++ k)
  | None => (λ '(a, b), (l ++ a, b)) <$> split_once 10 k
  end.
Proof.
  induction l as [|c l IH]; cbn; [by destruct (split_once 10 k) as [[? ?]|] |].
  destruct (c =? 10); [done |]. rewrite IH. destruct (split_once 10 l) as [[a b]|]; [done |].
  by destruct (split_once 10 k) as [[a b]|].
Qed.

Lemma split_once_shorter l a b : split_once 10 l = Some (a, b) → (length b < length l)%nat.
Proof. intros [-> _]%split_once_Some. rewrite length_app. cbn. lia. Qed.

Lemma consume_fuel f1 f2 pending writer s :
  (length pending ≤ f1)%nat → (length pending ≤ f2)%nat →
  consume_manifest_lines f1 pending writer s = consume_manifest_lines f2 pending writer s.
Proof.
  revert f2 pending writer s. induction f1 as [|f1 IH]; intros [|f2] pending writer s H1 H2; try done.
  1, 2: destruct pending; [done | cbn in *; lia].
  cbn [consume_manifest_lines]. destruct (split_once 10 pending) as [[line rest]|] eqn:Hs; [| done].
  apply split_once_shorter in Hs. do 3 (apply sr_bind_ext; intros). apply IH; lia.
Qed.

(** One line, then the rest. *)
Definition consume_line (line : list Z) (writer : ManifestWriter) : co ManifestWriter :=
  _ ← refuse (MAX_MANIFEST_LINE_BYTES <? zlength line) "manifest_line_too_large";
  entry ← with_code (ok_or (from_slice (drop_carriage_return line)) tt) "invalid_manifest";
  on_disk (ManifestWriter_append writer entry) "invalid_manifest".

Lemma consume_step pending writer s :
  consume pending writer s
  = match split_once 10 pending with
    | None => (Ok (pending, writer), s)
    | Some (line, rest) => (writer ← consume_line line writer; consume rest writer) s
    end.
Proof.
  destruct (length pending) as [|n] eqn:Hn.
  { by destruct pending. }
  cbn [consume_manifest_lines]. destruct (split_once 10 pending) as [[line rest]|] eqn:Hs; [| done].
  apply split_once_shorter in Hs. unfold consume_line. rewrite sr_bind_assoc. apply sr_bind_ext. intros ? s1 _.
  rewrite sr_bind_assoc. do 2 (apply sr_bind_ext; intros). apply consume_fuel; lia.
Qed.

Lemma consume_app a b writer s :
  consume (a ++ b) writer s = (r ← consume a writer; consume (r.1 ++ b) r.2) s.
Proof.
  remember (length a) as n eqn:Hn. revert a Hn writer s.
  induction n as [n IH] using lt_wf_ind. intros a -> writer s.
  unfold mbind at 1, sr_bind at 1. rewrite (consume_step a), (consume_step (a ++ b)), split_once_app.
  destruct (split_once 10 a) as [[line rest]|] eqn:Hs.
  - pose proof (split_once_shorter _ _ _ Hs). unfold mbind, sr_bind.
    destruct (consume_line line writer s) as [[w|e] s1]; [| done]. by apply IH.
  - cbn [fst snd]. by rewrite (consume_step (a ++ b)), split_once_app, Hs.
Qed.

Lemma consume_rest pending writer s r s' :
  consume pending writer s = (Ok r, s') → split_once 10 r.1 = None.
Proof.
  remember (length pending) as n eqn:Hn. revert pending Hn writer s.
  induction n as [n IH] using lt_wf_ind. intros pending -> writer s. rewrite consume_step.
  destruct (split_once 10 pending) as [[line rest]|] eqn:Hs; [| by intros [= <- <-]].
  apply split_once_shorter in Hs. intros (w & s1 & _ & Hrun)%sr_bind_inv. by eapply IH.
Qed.

(** What a frame does with the bytes it brings. *)
Definition ingest_data (data : list Z) (pending : list Z) (writer : ManifestWriter) : co (list Z * ManifestWriter) :=
  r ← consume (pending ++ data) writer;
  _ ← refuse (MAX_MANIFEST_LINE_BYTES <? zlength r.1) "manifest_line_too_large";
  mret r.

(** A line that is too long is refused, now or when it ends. *)
Lemma ingest_too_large data pending writer s :
  split_once 10 pending = None → MAX_MANIFEST_LINE_BYTES < zlength pending →
  ingest_data data pending writer s = (Err "manifest_line_too_large", s).
Proof.
  intros Hnone Hlen. unfold ingest_data, mbind at 1, sr_bind at 1.
  rewrite consume_step, split_once_app, Hnone.
  assert (∀ k, MAX_MANIFEST_LINE_BYTES <? zlength (pending ++ k) = true) as Hlong.
  { intros k. apply Z.ltb_lt. rewrite zlength_app. pose proof (zlength_nonneg k). lia. }
  destruct (split_once 10 data) as [[line rest]|]; cbn [fmap option_fmap option_map fst snd].
  - unfold consume_line. rewrite Hlong. done.
  - by rewrite Hlong.
Qed.

Lemma ingest_data_app a b pending writer s :
  ingest_data (a ++ b) pending writer s = (r ← ingest_data a pending writer; ingest_data b r.1 r.2) s.
Proof.
  unfold ingest_data. rewrite app_assoc, sr_bind_assoc. unfold mbind at 1, sr_bind at 1.
  rewrite consume_app. unfold mbind at 1, sr_bind at 1. unfold mbind at 2, sr_bind at 2.
  destruct (consume (pending ++ a) writer s) as [[[rest w]|e] s1] eqn:Hrun; [| done].
  apply consume_rest in Hrun. cbn [fst snd] in *.
  destruct (Z.ltb_spec MAX_MANIFEST_LINE_BYTES (zlength rest)) as [Hlong|]; [| done].
  pose proof (ingest_too_large b rest w s1 Hrun Hlong) as Herr.
  unfold ingest_data, mbind at 1, sr_bind at 1 in Herr. by rewrite Herr.
Qed.

(** A frame with data, during which nothing else happens. *)
Definition data_event (data : list Z) : BodyEvent := mkBodyEvent id (FrData data) false.

(** The transfer may go on. *)
Definition ticket_live (batch_id : string) (s : Coordinator) : Prop :=
  ∃ grant, co_tickets s !! batch_id = Some grant
    ∧ ho_unix_time (co_host s) < tg_expires_at_epoch_seconds grant.

Lemma ticket_is_active_live batch_id s : ticket_live batch_id s → ticket_is_active batch_id s = (Ok true, s).
Proof.
  intros (grant & Hg & Hlt). unfold ticket_is_active. erewrite sr_bind_Ok by done.
  erewrite sr_bind_Ok by done. rewrite Hg. by rewrite (proj2 (Z.ltb_lt _ _) Hlt).
Qed.

(** Calls of the disk leave the rest of the coordinator alone. *)
Lemma on_disk_rest {A} (c : io A) code s :
  co_tickets (on_disk c code s).2 = co_tickets s ∧ co_host (on_disk c code s).2 = co_host s.
Proof. unfold on_disk. by destruct (c (co_disk s)) as [[a|e] d]. Qed.

Lemma consume_line_live batch_id line writer s :
  ticket_live batch_id s → ticket_live batch_id (consume_line line writer s).2.
Proof.
  intros Hl. unfold consume_line, refuse, with_code, mbind, sr_bind, sr_lift.
  destruct (_ <? _); [done |]. cbn. destruct (from_slice _) as [entry|]; cbn; [| done].
  unfold ticket_live. pose proof (on_disk_rest (ManifestWriter_append writer entry) "invalid_manifest" s) as [H1 H2].
  destruct (on_disk _ _ s) as [[w|e] s1]; cbn in *; by rewrite H1, H2.
Qed.

Lemma consume_live batch_id pending writer s :
  ticket_live batch_id s → ticket_live batch_id (consume pending writer s).2.
Proof.
  remember (length pending) as n eqn:Hn. revert pending Hn writer s.
  induction n as [n IH] using lt_wf_ind. intros pending -> writer s Hl. rewrite consume_step.
  destruct (split_once 10 pending) as [[line rest]|] eqn:Hs; [| done]. apply split_once_shorter in Hs.
  pose proof (consume_line_live batch_id line writer s Hl) as Hl1. unfold mbind, sr_bind.
  destruct (consume_line line writer s) as [[w|e] s1]; [| done]. by eapply IH.
Qed.

Lemma ingest_frame_data batch_id data pending writer s :
  ticket_live batch_id s →
  ingest_frame batch_id (data_event data) pending writer s = ingest_data data pending writer s.
Proof.
  intros Hl. unfold ingest_frame. erewrite sr_bind_Ok by done. cbn [be_frame data_event be_others].
  erewrite sr_bind_Ok by (by apply ticket_is_active_live). by erewrite sr_bind_Ok by done.
Qed.

Lemma ingest_frames_concat batch_id chunks pending writer s :
  ticket_live batch_id s → split_once 10 pending = None → zlength pending ≤ MAX_MANIFEST_LINE_BYTES →
  ingest_frames batch_id (data_event <$> chunks) pending writer s
  = ingest_data (concat chunks) pending writer s.
Proof.
  revert pending writer s. induction chunks as [|data chunks IH]; intros pending writer s Hl Hp Hlen.
  - cbn. unfold ingest_data. rewrite app_nil_r.
    erewrite sr_bind_Ok by (by rewrite consume_step, Hp). cbn [fst]. by rewrite (proj2 (Z.ltb_ge _ _)).
  - cbn [fmap list_fmap ingest_frames concat]. rewrite ingest_data_app.
    unfold mbind at 1, sr_bind at 1. rewrite ingest_frame_data by done.
    unfold mbind at 1, sr_bind at 1.
    destruct (ingest_data data pending writer s) as [[[rest w]|e] s1] eqn:Hrun; [| done]. cbn [fst snd].
    unfold ingest_data in Hrun. apply sr_bind_inv in Hrun as (r & s2 & Hc & Hrun).
    apply sr_bind_inv in Hrun as ([] & s3 & Href & Hret). injection Hret as -> ->.
    pose proof (consume_live batch_id (pending ++ data) writer s Hl) as Hl'. rewrite Hc in Hl'.
    pose proof (consume_rest _ _ _ _ _ Hc) as Hrest. cbn in *. unfold refuse in Href.
    destruct (Z.ltb_spec MAX_MANIFEST_LINE_BYTES (zlength rest)); [done |]. injection Href as ->.
    by apply IH.
Qed.

(** The frames of a manifest. However the body of an upload of a manifest is
    cut into frames, and wherever in a line it is cut, the answer and everything
    it leaves on the disk are those of the whole body in one frame, under any
    failures and stops. *)
Theorem manifest_framing_is_irrelevant batch_id chunks s :
  ticket_live batch_id s →
  ingest_manifest batch_id (data_event <$> chunks) s = ingest_manifest batch_id [data_event (concat chunks)] s.
Proof.
  intros Hl. unfold ingest_manifest. apply sr_bind_ext. intros writer s1 Hbegin.
  assert (ticket_live batch_id s1) as Hl1.
  { pose proof (on_disk_rest (begin_manifest batch_id) "manifest_already_started" s) as [H1 H2].
    rewrite Hbegin in H1, H2. unfold ticket_live. cbn in *. by rewrite H1, H2. }
  change [data_event (concat chunks)] with (data_event <$> [concat chunks]).
  unfold mbind, sr_bind, or_drop.
  rewrite !ingest_frames_concat by done. cbn [concat]. by rewrite app_nil_r.
Qed.

(** ** Serving a range *)

Lemma parse_range_Some value total first end_ :
  parse_range value total = Some (first, end_) →
  0 ≤ first ≤ end_ ∧ end_ < total ∧ end_ - first + 1 ≤ 8 * 1024 * 1024.
Proof.
  unfold parse_range. destruct (total =? 0); [done |].
  destruct (strip_prefix _ value) as [rest|]; [| done]. cbn [mbind option_bind].
  destruct (split_once 45 rest) as [[a b]|]; [| done]. cbn [mbind option_bind].
  destruct (parse_unsigned U64_MAX a) as [start|] eqn:Ha; [| done]. cbn [mbind option_bind].
  apply parse_unsigned_bound in Ha; [| done].
  destruct (Z.leb_spec total start); [done |]. unfold saturating_add64.
  assert (∀ e, e < total → (if e <? start then None
    else Some (start, Z.min e (Z.min (start + (8 * 1024 * 1024 - 1)) U64_MAX))) = Some (first, end_) →
    0 ≤ first ≤ end_ ∧ end_ < total ∧ end_ - first + 1 ≤ 8 * 1024 * 1024) as Hend.
  { intros e He. destruct (Z.ltb_spec e start); [done |]. intros [= <- <-]. lia. }
  case_bool_decide; cbn [mbind option_bind]; [apply Hend; lia |].
  destruct (parse_unsigned U64_MAX b) as [e|]; [| done]. cbn [mbind option_bind]. apply Hend. lia.
Qed.

(** The bytes of a partial response are a slice of the source of the entry. *)
Definition slice_of_source (batch_id entry_id : string) (m : filemap) (first end_ size : Z) (bytes : list Z) : Prop :=
  ∃ ordinal entry source f,
    (manifest_entry batch_id ordinal (still m)).1 = Ok entry ∧ me_entry_id entry = entry_id
    ∧ me_kind entry = File ∧ size = me_size entry
    ∧ (source_path batch_id ordinal (still m)).1 = Ok source ∧ m !! source = Some f
    ∧ bytes = take (Z.to_nat (end_ - first + 1)) (drop (Z.to_nat first) (f_data f))
    ∧ zlength bytes = end_ - first + 1.

Lemma cwp_requested_entry (q : Prop) batch_id entry_id ordinal (Q : ManifestEntry → filemap → Prop)
    (E : filemap → Prop) m :
  (∀ entry, (manifest_entry batch_id ordinal (still m)).1 = Ok entry → me_entry_id entry = entry_id →
     me_kind entry = File → Q entry m) → E m →
  cwp q (requested_entry batch_id entry_id ordinal) Q E m.
Proof.
  intros HQ HE. apply cwp_bind, cwp_at_status, cwp_reader;
    [apply reader_manifest_entry | apply keeps_manifest_entry | intros entry He | done].
  apply cwp_bind, cwp_reject_if; [intros Hb | done]. apply cwp_ret. bool_to_prop. by apply HQ.
Qed.

(** A range that is served. The bytes of a partial response are those of the
    source file between the two offsets it names, which lie within the size the
    manifest says and are at most 8 MiB apart; serving changes no file. *)
Theorem served_range_is_a_slice batch_id entry_id r s first end_ size bytes s' :
  let m := d_files (co_disk s) in
  rq_method r = GET → d_halted (co_disk s) = false →
  handle_entry batch_id entry_id ComputerToPhone r s = (Ok (ReContent first end_ size bytes), s') →
  d_files (co_disk s') = m
  ∧ 0 ≤ first ≤ end_ ∧ end_ < size ∧ end_ - first + 1 ≤ 8 * 1024 * 1024
  ∧ slice_of_source batch_id entry_id m first end_ size bytes.
Proof.
  intros m Hget Hh Hrun.
  assert (cwp False (handle_entry batch_id entry_id ComputerToPhone r)
    (λ response m', m' = m ∧ match response with
       | ReContent first end_ size bytes =>
         (0 ≤ first ≤ end_ ∧ end_ < size ∧ end_ - first + 1 ≤ 8 * 1024 * 1024)
         ∧ slice_of_source batch_id entry_id m first end_ size bytes
       | _ => True end) (λ _, True) m) as Hwp.
  2: { specialize (Hwp s eq_refl Hh (λ F, match F with end)). rewrite Hrun in Hwp. naive_solver. }
  unfold handle_entry. rewrite Hget.
  apply cwp_bind, cwp_or_reject; [intros ordinal _ | done].
  apply cwp_bind, cwp_requested_entry; [intros entry He Hid Hkind | done].
  rewrite !bool_decide_true by done. cbn [andb].
  apply cwp_bind, cwp_or_reject; [intros [a b] Hrange | done].
  apply cwp_bind, cwp_at_status, cwp_reader;
    [apply reader_source_path | apply keeps_source_path | intros source Hsource | done].
  apply cwp_bind, cwp_at_status, cwp_source_matches_entry; [intros same | done].
  apply cwp_bind, cwp_reject_if; [intros _ | done].
  apply cwp_bind, cwp_at_status, cwp_on_disk; [apply keeps_read_call |].
  apply fwp_read; [intros f Hf | done].
  apply cwp_bind, cwp_reject_if; [intros Hlen | done]. bool_to_prop.
  apply cwp_ret. split; [done |].
  destruct (header "range" r) as [value|]; [| done]. split; [by eapply parse_range_Some |].
  by exists ordinal, entry, source, f.
Qed.
End server.

(** ** On the sample *)

Lemma only_verified_files_are_published_witness :
  let '(r, s') := @commit_uploaded_file sample_coordinator_env "batch-1" sample_file sample_hash
                    (sample_coordinator sample_transfer_disk) in
  r = Ok tt ∧ ∃ f, d_files (co_disk s') !! sample_target = Some f
    ∧ @verified sample_coordinator_env sample_file sample_hash f.
Proof.
  pose proof sample_upload_commits as Hok.
  destruct (@commit_uploaded_file sample_coordinator_env "batch-1" sample_file sample_hash
              (sample_coordinator sample_transfer_disk)) as [r s'] eqn:Hrun.
  cbn [fst] in Hok. split; [exact Hok |].
  destruct (@only_verified_files_are_published sample_coordinator_env "batch-1" sample_file sample_hash
              (sample_coordinator sample_transfer_disk) r s' eq_refl Hrun) as [_ Hdone].
  destruct (Hdone Hok) as (t & f & Ht & Hv & Hf). exists f.
  assert (t = sample_target) as ->.
  { assert ((@target_path sample_env "batch-1" 1 (still (d_files sample_transfer_disk))).1 = Ok sample_target)
      as Ht' by (by vm_compute). change (me_ordinal sample_file) with 1 in Ht.
    assert (@Ok io_error _ t = Ok sample_target) as Heq by (etrans; [symmetry; exact Ht | exact Ht']).
    by injection Heq. }
  split; [apply Hf; discriminate | exact Hv].
Defined.

Lemma manifest_framing_is_irrelevant_witness :
  @ingest_manifest sample_coordinator_env "batch-1" (data_event <$> [[100]; [10; 101]; [10]])
    (sample_coordinator (sample_disk []))
  = @ingest_manifest sample_coordinator_env "batch-1" [data_event [100; 10; 101; 10]]
    (sample_coordinator (sample_disk [])).
Proof.
  apply (@manifest_framing_is_irrelevant sample_coordinator_env "batch-1" [[100]; [10; 101]; [10]]).
  exists sample_grant. split; [apply lookup_singleton_eq | reflexivity].
Defined.

Lemma served_range_is_a_slice_witness :
  @slice_of_source sample_coordinator_env "batch-1" "entry-1" (d_files sample_transfer_disk) 10 41 42
    (drop 10 sample_body).
Proof.
  pose proof sample_download_answers as Hok.
  destruct (@handle_entry sample_coordinator_env "batch-1" "entry-1" ComputerToPhone sample_download
              (sample_coordinator sample_transfer_disk)) as [r s'] eqn:Hrun.
  cbn [fst] in Hok. rewrite Hok in Hrun.
  apply (@served_range_is_a_slice sample_coordinator_env "batch-1" "entry-1" sample_download
           (sample_coordinator sample_transfer_disk) 10 41 42 (drop 10 sample_body) s' eq_refl eq_refl Hrun).
Defined.
