(* ===== verification/Listeners.v ===== *)
(** * The listener of the data connections

    [flowtype-app/src/file_transfer_server.rs run_file_transfer_server] and
    [serve_request]: who is let in, how long a handshake may take, which job works for
    which connection. What a job does is [DataServer.route_request]. *)

From S2P Require Import Prelude Text FileNames FileCore Disk Store Targets AppState Coordinator Outbound DataServer.
Local Open Scope string_scope.
Local Open Scope list_scope.
Local Open Scope Z_scope.

(** ** Answers *)

(** What is sent: what a request asked for, or a status with its body in JSON. *)
Inductive Answer := AnResponse (response : Response) | AnJson (status : Z) (body : string).

(** [app/file_transfer_server.rs json_response] *)
Definition json_response (status : Z) (body : string) : Answer := AnJson status body.

(** [app/file_transfer_server.rs serve_request] [None]: the job panicked. The window is told
    whatever the answer is. *)
Definition serve_request (post_ok : bool) (result : option (result (Z * string) Response)) (s : AppState) : Answer * AppState :=
  (match default (Err (500, "file_worker_failed")) result with
   | Ok response => AnResponse response
   | Err (status, code) => json_response status (of_bytes ([123; 34] ++ bytes_of "code" ++ [34; 58; 34] ++ bytes_of code ++ [34; 125]))
   end, notify_ui post_ok s).

(** ** Connections *)

Definition HANDSHAKE_TIMEOUT : Z := 10000.

Inductive DataConnection := Handshaking (since : Z) | Open | Working (job : Z).

Record Listener := mkListener {
  ls_slots : Z;
  ls_connections : gmap Z DataConnection;
  ls_jobs : gset Z;
  ls_next : Z;
  ls_now : Z;
}.

Definition Listener_new : Listener := mkListener MAX_DATA_CONNECTIONS ∅ ∅ 0 0.

Inductive ListenerEvent :=
| LsAccept | LsHandshake (id : Z) (ok : bool) | LsRequest (id : Z) | LsJobEnds (job : Z) | LsEnds (id : Z) | LsTick.

(** [app/file_transfer_server.rs:911-916 run_file_transfer_server] *)
Definition ls_accept (l : Listener) : Listener :=
  if ls_slots l <=? 0 then l
  else mkListener (ls_slots l - 1) (<[ls_next l := Handshaking (ls_now l)]> (ls_connections l)) (ls_jobs l) (ls_next l + 1) (ls_now l).

(** The task of a connection ends, its slot is free; a job that works for it goes on. *)
Definition ls_end (id : Z) (l : Listener) : Listener :=
  match ls_connections l !! id with
  | Some _ => mkListener (ls_slots l + 1) (delete id (ls_connections l)) (ls_jobs l) (ls_next l) (ls_now l)
  | None => l
  end.

Definition ls_become (id : Z) (c : DataConnection) (l : Listener) : Listener :=
  mkListener (ls_slots l) (<[id := c]> (ls_connections l)) (ls_jobs l) (ls_next l) (ls_now l).

(** Handshakes that took too long. *)
Definition overdue (now : Z) (c : DataConnection) : bool :=
  match c with Handshaking since => since + HANDSHAKE_TIMEOUT <=? now | _ => false end.

(** [app/file_transfer_server.rs run_file_transfer_server] *)
Definition listener_step (l : Listener) (e : ListenerEvent) : Listener :=
  match e with
  | LsAccept => ls_accept l
  | LsHandshake id ok =>
    match ls_connections l !! id with
    | Some (Handshaking _) => if ok : bool then ls_become id Open l else ls_end id l
    | _ => l
    end
  | LsRequest id =>
    match ls_connections l !! id with
    | Some Open =>
      let l := ls_become id (Working (ls_next l)) l in
      mkListener (ls_slots l) (ls_connections l) (ls_jobs l ∪ {[ ls_next l ]}) (ls_next l + 1) (ls_now l)
    | _ => l
    end
  | LsJobEnds job =>
    mkListener (ls_slots l)
      ((λ c, match c with Working j => if j =? job then Open else c | _ => c end) <$> ls_connections l)
      (ls_jobs l ∖ {[ job ]}) (ls_next l) (ls_now l)
  | LsEnds id => ls_end id l
  | LsTick =>
    let l := mkListener (ls_slots l) (ls_connections l) (ls_jobs l) (ls_next l) (ls_now l + 1) in
    foldl (λ l id, ls_end id l) l (filter (λ kv, overdue (ls_now l) kv.2 = true) (map_to_list (ls_connections l))).*1
  end.

Definition listener_run (es : list ListenerEvent) : Listener := foldl listener_step Listener_new es.

(** ** At most eight connections *)

Record listener_ok (l : Listener) : Prop := {
  lo_slots : ls_slots l + Z.of_nat (size (ls_connections l)) = MAX_DATA_CONNECTIONS;
  lo_some : 0 ≤ ls_slots l;
  lo_fresh id c : ls_connections l !! id = Some c → id < ls_next l;
}.

Lemma ls_end_ok id l : listener_ok l → listener_ok (ls_end id l).
Proof.
  intros [Hs H0 Hf]. unfold ls_end. destruct (ls_connections l !! id) eqn:Hid; [| done]. split; cbn; [| lia |].
  - rewrite map_size_delete_Some by by eexists. assert (size (ls_connections l) ≠ 0%nat) by (eapply map_size_ne_0_lookup_2; eauto). lia.
  - intros i c' [_ Hl]%lookup_delete_Some. eauto.
Qed.

Lemma ls_become_ok id c0 c l : ls_connections l !! id = Some c0 → listener_ok l → listener_ok (ls_become id c l).
Proof.
  intros Hid [Hs H0 Hf]. split; cbn; [| done |].
  - by rewrite map_size_insert_Some by by eexists.
  - intros i c' [[<- <-] | [_ Hl]]%lookup_insert_Some; eauto.
Qed.

Lemma listener_step_ok l e : listener_ok l → listener_ok (listener_step l e).
Proof.
  intros Hl. destruct e as [| id ok | id | job | id |]; cbn [listener_step].
  - unfold ls_accept. destruct (Z.leb_spec (ls_slots l) 0); [done |]. destruct Hl as [Hs H0 Hf]. split; cbn; [| lia |].
    + rewrite map_size_insert_None; [lia |]. destruct (ls_connections l !! ls_next l) eqn:E; [| done]. specialize (Hf _ _ E). lia.
    + intros i c [[<- <-] | [_ Hi]]%lookup_insert_Some; [lia |]. specialize (Hf _ _ Hi). lia.
  - destruct (ls_connections l !! id) as [[] |] eqn:Hid; try done. destruct ok; [by eapply ls_become_ok | by apply ls_end_ok].
  - destruct (ls_connections l !! id) as [[] |] eqn:Hid; try done.
    destruct (ls_become_ok id Open (Working (ls_next l)) l Hid Hl) as [Hs H0 Hf]. split; cbn in *; [done | done |].
    intros i c Hi. specialize (Hf i c Hi). lia.
  - destruct Hl as [Hs H0 Hf]. split; cbn; [by rewrite map_size_fmap | done |].
    intros i c. rewrite lookup_fmap, fmap_Some. intros (c' & Hi & _). eauto.
  - by apply ls_end_ok.
  - set (l1 := mkListener _ _ _ _ _). assert (listener_ok l1) as Hl1 by (destruct Hl; by split).
    generalize (filter (λ kv, overdue (ls_now l1) kv.2 = true) (map_to_list (ls_connections l1))).*1. revert Hl1. generalize l1.
    intros l0 Hl0 ids. revert l0 Hl0. induction ids as [|id ids IH]; intros l0 Hl0; [done |]. cbn. by apply IH, ls_end_ok.
Qed.

Lemma ends_lookup ids l i :
  ls_connections (foldl (λ l id, ls_end id l) l ids) !! i = if decide (i ∈ ids) then None else ls_connections l !! i.
Proof.
  revert l. induction ids as [|id ids IH]; intros l; [done |]. cbn [foldl]. rewrite IH. unfold ls_end.
  destruct (decide (i ∈ ids)), (decide (i ∈ id :: ids)) as [Hin | Hout]; [done | set_solver | |];
    destruct (ls_connections l !! id) eqn:Hid; cbn.
  - assert (i = id) as -> by set_solver. apply lookup_delete_eq.
  - assert (i = id) as -> by set_solver. done.
  - apply lookup_delete_ne. set_solver.
  - done.
Qed.

(** No handshake takes longer than its ten seconds. *)
Definition in_time (l : Listener) : Prop :=
  ∀ id since, ls_connections l !! id = Some (Handshaking since) → ls_now l < since + HANDSHAKE_TIMEOUT.

Lemma ls_end_in_time id l : in_time l → in_time (ls_end id l).
Proof. intros Hl. unfold ls_end. destruct (ls_connections l !! id); [| done]. intros i since. cbn. rewrite lookup_delete_Some. intros [_ Hi]. by apply (Hl i). Qed.

Lemma listener_step_in_time l e : in_time l → in_time (listener_step l e).
Proof.
  intros Hl. destruct e as [| id ok | id | job | id |]; cbn [listener_step].
  - unfold ls_accept. destruct (ls_slots l <=? 0); [done |]. intros i since; cbn; rewrite lookup_insert_Some; intros [[_ [= <-]] | [_ Hi]]; [unfold HANDSHAKE_TIMEOUT; lia | by apply (Hl i)].
  - destruct (ls_connections l !! id) as [[] |]; try done. destruct ok; [| by apply ls_end_in_time].
    intros i since'. cbn. rewrite lookup_insert_Some. intros [[_ [=]] | [_ Hi]]. by apply (Hl i).
  - destruct (ls_connections l !! id) as [[] |]; try done. intros i since'. cbn. rewrite lookup_insert_Some. intros [[_ [=]] | [_ Hi]]. by apply (Hl i).
  - intros i since. cbn. rewrite lookup_fmap, fmap_Some. intros (c & Hi & Heq). destruct c as [since' | | j]; [| discriminate | by destruct (j =? job)].
    injection Heq as ->. by apply (Hl i).
  - by apply ls_end_in_time.
  - set (l1 := mkListener _ _ _ _ _). intros i since. rewrite ends_lookup. case_decide as Hin; [done |]. intros Hi.
    assert (ls_now (foldl (λ l id, ls_end id l) l1 (filter (λ kv, overdue (ls_now l1) kv.2 = true) (map_to_list (ls_connections l1))).*1) = ls_now l1) as ->.
    { generalize (filter (λ kv, overdue (ls_now l1) kv.2 = true) (map_to_list (ls_connections l1))).*1. intros ids.
      clear. generalize l1. induction ids as [|id ids IH]; intros l0; [done |]. cbn. rewrite IH. unfold ls_end. by destruct (ls_connections l0 !! id). }
    destruct (Z.le_gt_cases (since + HANDSHAKE_TIMEOUT) (ls_now l1)) as [Hlate | Hsoon]; [| lia]. exfalso. apply Hin.
    apply list_elem_of_fmap. exists (i, Handshaking since). split; [done |]. apply list_elem_of_filter. split; [cbn; by apply Z.leb_le |].
    by apply elem_of_map_to_list.
Qed.

Lemma handshakes_end es : in_time (listener_run es).
Proof.
  unfold listener_run. assert (in_time Listener_new) as Hnew by (by intros i since).
  revert Hnew. generalize Listener_new. induction es as [|e es IH]; intros l0 Hl0; [done |]. cbn. by apply IH, listener_step_in_time.
Qed.

(** Whoever connects and leaves: there are at most eight data connections, and a stream is
    turned away only when there are eight. *)
Theorem data_connections_bounded es :
  let l := listener_run es in
  Z.of_nat (size (ls_connections l)) ≤ MAX_DATA_CONNECTIONS ∧
  (ls_accept l = l ↔ Z.of_nat (size (ls_connections l)) = MAX_DATA_CONNECTIONS).
Proof.
  intros l. assert (listener_ok l) as [Hs H0 _].
  { unfold l, listener_run. assert (listener_ok Listener_new) as Hnew by (split; cbn; [done | done | by intros i c]).
    revert Hnew. generalize Listener_new. induction es as [|e es IH]; intros l0 Hl0; [done |]. cbn. by apply IH, listener_step_ok. }
  split; [lia |]. unfold ls_accept. destruct (Z.leb_spec (ls_slots l) 0) as [Hle | Hlt]; split; intros H; [lia | done | | lia].
  apply (f_equal ls_slots) in H. cbn in H. lia.
Qed.

(** The slots do not bound the jobs: a connection that ends while its job works frees its
    slot, so that more than eight jobs work at once. *)
Lemma jobs_outlive_connections :
  ∃ es, Z.of_nat (size (ls_jobs (listener_run es))) = 9 ∧ size (ls_connections (listener_run es)) = 0%nat.
Proof.
  exists (concat ((λ k, [LsAccept; LsHandshake (2 * k) true; LsRequest (2 * k); LsEnds (2 * k)]) <$> seqZ 0 9)).
  by vm_compute.
Qed.
