(* ===== verification/UploadSafety.v ===== *)
(** * Acknowledged bytes survive

    An upload is staged in a file beside its target, and how much of it counts is
    the offset in the progress file. Wherever the machine stops, the staged file
    has the bytes that were received up to this offset. *)

From S2P Require Import Prelude Text Protocol FileNames FileCore Disk DiskLogic Store SampleStore StoreSafety StoreBatches Targets Coordinator DataServer SampleCoordinator DataServerLogic DataServerSafety.
Local Open Scope string_scope.
Local Open Scope list_scope.
Local Open Scope Z_scope.

(** ** What a stop does to a prefix and to a record *)

Lemma survives_prefix k d v r :
  take k d = take k v → (k ≤ length d)%nat → survives d v r → take k r = take k d.
Proof.
  intros Hdv Hk Hs. apply list_eq. intros x. destruct (decide (x < k)%nat) as [Hx|]; [| by rewrite !lookup_take_ge by lia].
  assert (d !! x = v !! x) as Hv.
  { apply (f_equal (.!! x)) in Hdv. by rewrite !lookup_take_lt in Hdv by done. }
  rewrite !lookup_take_lt by done.
  pose proof (Nat.div_mod_eq x 512) as Hdm. pose proof (Nat.mod_upper_bound x 512 ltac:(lia)) as Hy.
  set (q := (x / 512)%nat) in *. set (y := (x mod 512)%nat) in *.
  rewrite Hdm in Hv |- *. rewrite <- !(sector_lookup _ q y) in Hv by done.
  rewrite <- !(sector_lookup _ q y) by done.
  destruct (Hs q) as [-> | [-> | ->]]; [done | done |].
  rewrite lookup_app_l; [done |]. apply lookup_lt_is_Some. rewrite sector_lookup, <- Hdm by done.
  apply lookup_lt_is_Some. lia.
Qed.

Section record.
Context (i : nat).
Notation says l := (progress_at l i).

Definition slot (l : list Z) : list Z := take 16 (drop (16 * i) l).

Lemma slot_sector l : slot l = take 16 (drop (16 * (i mod 32)) (sector l (i / 32))).
Proof.
  unfold slot, sector. pose proof (Nat.div_mod_eq i 32) as Hdm. pose proof (Nat.mod_upper_bound i 32 ltac:(lia)).
  rewrite skipn_firstn_comm, take_take, drop_drop, Nat.min_l by lia. do 2 f_equal. lia.
Qed.

Definition slot_says (sl : list Z) : result io_error EntryProgress :=
  record ← (if zlength sl =? 0 then Ok None
            else if zlength sl =? PROGRESS_RECORD_BYTES then Ok (Some sl)
            else Err (InvalidData "incomplete progress record"));
  decode_progress (default (replicate 16 0) record).
Lemma says_slot l : says l = slot_says (slot l).
Proof.
  unfold progress_at, read_record, slot, slot_says.
  by replace (Z.to_nat (Z.of_nat i * 16)) with (16 * i)%nat by lia.
Qed.
Lemma slot_says_zeros n : slot_says (take 16 (replicate (16 * n) 0)) = Ok (mkEntryProgress EPending 0).
Proof.
  destruct n as [|n]; [done |]. rewrite take_replicate.
  replace (16 `min` (16 * S n))%nat with 16%nat by lia. done.
Qed.

(** A record is found as it was, as it was written, or empty. *)
Lemma survives_says d v r kd kv :
  length d = (16 * kd)%nat → length v = (16 * kv)%nat → survives d v r →
  says r = says d ∨ says r = says v ∨ says r = Ok (mkEntryProgress EPending 0).
Proof.
  intros Hd Hv Hs. rewrite !says_slot, !slot_sector.
  pose proof (Nat.mod_upper_bound i 32 ltac:(lia)) as Hm. set (o := (i mod 32)%nat) in *. set (q := (i / 32)%nat).
  destruct (Hs q) as [-> | [-> | ->]]; [by left | by right; left |].
  assert (∃ n, length (sector d q) = (16 * n)%nat) as [n Hn].
  { exists (32 `min` (kd - 32 * q))%nat. unfold sector. rewrite length_take, length_drop, Hd. lia. }
  assert (∃ n, length (sector v q) = (16 * n)%nat) as [n' Hn'].
  { exists (32 `min` (kv - 32 * q))%nat. unfold sector. rewrite length_take, length_drop, Hv. lia. }
  destruct (decide (o < n)%nat) as [Ho|Ho].
  - left. rewrite drop_app_le, take_app_le by (rewrite ?length_drop; lia). done.
  - right; right. rewrite drop_app_ge, drop_replicate, Hn, Hn' by lia.
    replace (16 * n' - 16 * n - (16 * o - 16 * n))%nat with (16 * (n' - o))%nat by lia. apply slot_says_zeros.
Qed.

(** ** Writing a record *)

Definition aligned (g : file) : Prop := f_durable g = f_data g ∧ ∃ k, length (f_data g) = (16 * k)%nat.

(** The progress file once the record was written, or partly, or not. *)
Definition written (p : EntryProgress) (g g' : file) : Prop :=
  let o := (16 * i)%nat in let D := overwrite (f_data g) o (encode_progress p) in
  g' = g ∨ g' = mkFile D (f_durable g) ∨ g' = mkFile D D
  ∨ ∃ n, g' = mkFile (overwrite (f_data g) o (torn n (Z.of_nat o) (encode_progress p))) (f_durable g).

(** What the file may be found to say is at most [c]. *)
Definition acks (c : Z) (g : file) : Prop :=
  ∀ r p, survives (f_durable g) (f_data g) r → says r = Ok p → ep_committed_offset p ≤ c.

Lemma written_acks p g g' c :
  aligned g → progress_ok p → 0 ≤ c → ep_committed_offset p ≤ c →
  (∀ p', says (f_data g) = Ok p' → ep_committed_offset p' ≤ c) → written p g g' → acks c g'.
Proof.
  intros [Hsync [k Hk]] Hp Hc Hpc Hold Hw. pose proof (encode_progress_length p) as Henc.
  set (o := (16 * i)%nat) in *. set (D := overwrite (f_data g) o (encode_progress p)) in *.
  assert (says D = Ok p) as HD by (unfold D, o; by rewrite (progress_at_overwrite _ _ _ k), decide_True).
  assert (length D = (16 * (k `max` S i))%nat) as HDlen by (by apply overwrite_length).
  assert (∀ v r p' kv, length v = (16 * kv)%nat →
    (∀ p', says v = Ok p' → ep_committed_offset p' ≤ c) →
    survives (f_data g) v r → says r = Ok p' → ep_committed_offset p' ≤ c) as Hcase.
  { intros v r p' kv Hv Hsays Hs Hr. destruct (survives_says _ _ _ _ _ Hk Hv Hs) as [He | [He | He]]; rewrite He in Hr; eauto.
    by injection Hr as <-. }
  assert (∀ p', says D = Ok p' → ep_committed_offset p' ≤ c) as HDc by (rewrite HD; intros p' [= <-]; done).
  intros r p' Hs Hr. unfold written in Hw. cbv zeta in Hw. fold o D in Hw. destruct Hw as [-> | [-> | [-> | [n ->]]]];
    cbn [f_data f_durable] in Hs.
  - rewrite Hsync in Hs. by apply (Hcase (f_data g) r p' k).
  - rewrite Hsync in Hs. by apply (Hcase D r p' (k `max` S i)%nat).
  - apply survives_same in Hs as ->. auto.
  - rewrite Hsync in Hs. destruct n as [|n].
    + assert (torn 0 (Z.of_nat o) (encode_progress p) = []) as Ht by done. rewrite Ht in Hs.
      destruct (decide (i < k)%nat) as [Hik|Hik].
      * assert (overwrite (f_data g) o [] = f_data g) as Hov.
        { unfold overwrite. replace (o - length (f_data g))%nat with 0%nat by lia.
          cbn [length replicate app]. rewrite app_nil_r, Nat.add_0_r. apply take_drop. }
        rewrite Hov in Hs. by apply (Hcase (f_data g) r p' k).
      * eapply (Hcase (overwrite (f_data g) o []) r p' i); [| | exact Hs | exact Hr].
        -- unfold overwrite. rewrite !length_app, length_take, length_app, length_replicate, length_drop. cbn. lia.
        -- rewrite says_slot. intros p0. replace (slot _) with (@nil Z); [by intros [= <-] |].
           unfold slot. rewrite drop_ge; [done |]. unfold overwrite.
           rewrite !length_app, length_take, length_app, length_replicate, length_drop. cbn. lia.
    + assert (torn (S n) (Z.of_nat o) (encode_progress p) = encode_progress p) as Ht.
      { unfold torn. apply take_ge. rewrite Henc, Nat2Z.id. unfold o.
        replace (16 * i)%nat with (16 * (i mod 32) + i / 32 * 512)%nat
          by (pose proof (Nat.div_mod_eq i 32); lia).
        rewrite Nat.Div0.mod_add, Nat.mod_small; pose proof (Nat.mod_upper_bound i 32 ltac:(lia)); lia. }
      rewrite Ht in Hs. by apply (Hcase D r p' (k `max` S i)%nat).
Qed.
End record.

(** ** Receiving the body *)

Lemma take_overwrite k l o data : (k ≤ o)%nat → (o ≤ length l)%nat → take k (overwrite l o data) = take k l.
Proof.
  intros Hk Ho. unfold overwrite. rewrite take_app_le.
  - rewrite take_take, Nat.min_l, take_app_le by lia. done.
  - rewrite length_take, length_app. lia.
Qed.
Lemma overwrite_app l data : overwrite l (length l) data = l ++ data.
Proof. rewrite <- (overwrite_end l data). unfold zlength. by rewrite Nat2Z.id. Qed.

Lemma drop_received (T : list Z) received data rest :
  0 ≤ received ≤ zlength T → drop (Z.to_nat received) T = data ++ rest →
  received + zlength data ≤ zlength T ∧ drop (Z.to_nat (received + zlength data)) T = rest.
Proof.
  intros Hr Hdrop. pose proof (zlength_nonneg data). pose proof (zlength_nonneg rest).
  pose proof (f_equal zlength Hdrop) as Hsize. rewrite zlength_app in Hsize. unfold zlength at 1 in Hsize.
  rewrite length_drop in Hsize. split; [unfold zlength in *; lia |].
  rewrite Z2Nat.inj_add, <- drop_drop, Hdrop by lia. unfold zlength. rewrite Nat2Z.id. apply drop_app_length.
Qed.

Section upload.
Context `{CoordinatorEnv} (batch_id : string) (entry : ManifestEntry) (i : nat).
Context (Hordinal : me_ordinal entry = Z.of_nat i).
Notation ppath := (store_root ++ [batch_id] ++ [PROGRESS_FILE]).
Notation says l := (progress_at l i).

(** The progress never says more than the bytes of [T] that are on the medium. *)
Definition acked (T : list Z) (part : path) (m : filemap) : Prop :=
  ∃ g c, m !! ppath = Some g ∧ acks i (Z.of_nat c) g
    ∧ (c = 0%nat ∨ ∃ f, m !! part = Some f ∧ (c ≤ length (f_durable f))%nat ∧ (c ≤ length T)%nat
         ∧ take c (f_durable f) = take c T ∧ take c (f_data f) = take c T).

(** The upload after some frames: what it received is in the staged file, and
    what it persisted is on the medium. *)
Record receiving (T : list Z) (u : Upload) (m : filemap) : Prop := {
  r_received : 0 ≤ up_received u ≤ zlength T;
  r_max : up_received u ≤ U64_MAX;
  r_persisted : 0 ≤ up_persisted u ≤ up_received u;
  r_apart : up_part u ≠ ppath;
  r_part : ∃ f, m !! up_part u = Some f
    ∧ f_data f = take (Z.to_nat (up_received u)) T
    ∧ take (Z.to_nat (up_persisted u)) (f_durable f) = take (Z.to_nat (up_persisted u)) T
    ∧ up_persisted u ≤ zlength (f_durable f);
  r_progress : ∃ g, m !! ppath = Some g ∧ aligned g
    ∧ ∀ p, says (f_data g) = Ok p → ep_committed_offset p ≤ up_persisted u;
}.

Lemma aligned_acks g c :
  aligned g → (∀ p, says (f_data g) = Ok p → ep_committed_offset p ≤ c) → acks i c g.
Proof. intros [Hg _] Hc r p Hs. rewrite Hg in Hs. apply survives_same in Hs as ->. apply Hc. Qed.

Lemma receiving_acked T u m : receiving T u m → acked T (up_part u) m.
Proof.
  intros [Hr _ Hp _ (f & Hf & Hdata & Hdur & Hlen) (g & Hg & Ha & Hc)].
  exists g, (Z.to_nat (up_persisted u)). unfold zlength in *. split; [done |]. split.
  - apply aligned_acks; [done |]. by rewrite Z2Nat.id by lia.
  - right. exists f. split_and!; [done | lia | lia | done |].
    rewrite Hdata, take_take. f_equal. lia.
Qed.

(** The record of the progress is written. *)
Lemma fwp_write_record p g (Q : unit → filemap → Prop) (E : filemap → Prop) m :
  m !! ppath = Some g →
  (let D := overwrite (f_data g) (16 * i) (encode_progress p) in Q tt (<[ppath := mkFile D D]> m)) →
  (∀ g', written i p g g' → E (<[ppath := g']> m)) →
  fwp (write_progress batch_id (Z.of_nat i) p) Q E m.
Proof.
  intros Hg HQ HE. assert (E m) as Em by (rewrite <- (insert_id m ppath g Hg); apply HE; by left).
  unfold write_progress.
  apply fwp_bind, fwp_batch_dir; [intros _ | done].
  apply fwp_bind, reader_fwp; [apply reader_read_manifest_complete | intros c _ | done].
  apply fwp_bind, fwp_check; [intros _ | done].
  apply fwp_bind, fwp_open_existing; [intros _ | done].
  apply fwp_bind, fwp_checked; [| done]. intros offset Hoff. rewrite <- app_assoc.
  assert (offset = Z.of_nat (16 * i)) as ->.
  { unfold checked_mul64, PROGRESS_RECORD_BYTES in Hoff. destruct (_ <? _); [done |]. injection Hoff as <-. lia. }
  assert (∀ h, alter h ppath m = <[ppath := h g]> m) as Halter.
  { intros h. rewrite <- (insert_id m ppath g Hg) at 1. apply alter_insert_eq. }
  set (D := overwrite _ _ _) in HQ.
  apply fwp_bind. apply (fwp_mono _ (λ _ m', m' = <[ppath := mkFile D (f_durable g)]> m) _ E);
    [apply fwp_write_at | | done].
  - rewrite Halter. unfold set_data. by rewrite Nat2Z.id.
  - intros n. rewrite Halter. apply HE. right; right; right. exists n. unfold set_data. by rewrite Nat2Z.id.
  - done.
  - intros _ m1 ->. apply fwp_sync; rewrite ?alter_insert_eq; cbn [f_data];
      [exact HQ | apply HE; right; right; by left | apply HE; right; by left].
Qed.

(** What other tasks do leaves the two files of the upload alone; where they stop
    is a stop of the upload's own calls. *)
Definition polite (part : path) (e : BodyEvent) : Prop := ∀ s,
  let m := d_files (co_disk s) in let m' := d_files (co_disk (be_others e s)) in
  m' !! part = m !! part ∧ m' !! ppath = m !! ppath
  ∧ d_halted (co_disk (be_others e s)) = d_halted (co_disk s).

Lemma receiving_same T u m m' :
  receiving T u m → m' !! up_part u = m !! up_part u → m' !! ppath = m !! ppath → receiving T u m'.
Proof. intros [H1 H2 H3 H4 H5 H6] Hp Hg. split; rewrite ?Hp, ?Hg; done. Qed.

Definition frame_data (e : BodyEvent) : list Z := match be_frame e with FrData data => data | _ => [] end.

(** The bytes of a frame reach the staged file, or a part of them does. *)
Lemma fwp_stage T u data rest m :
  receiving T u m → drop (Z.to_nat (up_received u)) T = data ++ rest →
  fwp (write_at (up_part u) (up_received u) data)
    (λ _ m', ∃ f, m !! up_part u = Some f
       ∧ m' = <[up_part u := mkFile (take (Z.to_nat (up_received u + zlength data)) T) (f_durable f)]> m)
    (acked T (up_part u)) m.
Proof.
  intros Hrec Hdrop. pose proof Hrec as [Hr _ Hp Hne (f & Hf & Hdata & Hdur & Hlen) (g & Hg & Ha & Hc)].
  unfold zlength in *.
  assert (∀ h, alter h (up_part u) m = <[up_part u := h f]> m) as Halter.
  { intros h. rewrite <- (insert_id m (up_part u) f Hf) at 1. apply alter_insert_eq. }
  assert (length (f_data f) = Z.to_nat (up_received u)) as Hlr by (rewrite Hdata, length_take; lia).
  apply fwp_write_at; [| | by apply receiving_acked].
  - exists f. split; [done |]. rewrite Halter. unfold set_data. do 2 f_equal.
    rewrite <- Hlr at 1. rewrite overwrite_app, Hdata. unfold zlength.
    replace (Z.to_nat (up_received u + Z.of_nat (length data))) with (Z.to_nat (up_received u) + length data)%nat by lia.
    by rewrite <- take_take_drop, Hdrop, take_app_length.
  - intros n. rewrite Halter.
    exists g, (Z.to_nat (up_persisted u)). split; [by rewrite lookup_insert_ne |]. split.
    + apply aligned_acks; [done |]. by rewrite Z2Nat.id by lia.
    + right. eexists. split; [apply lookup_insert_eq |]. cbn [f_durable f_data set_data].
      split_and!; [lia | lia | done |].
      rewrite take_overwrite by lia. rewrite Hdata, take_take. f_equal. lia.
Qed.

(** The staged file has the first [r] bytes of [T], and the first [k] are on the
    medium. *)
Lemma receiving_staged T part dir r k hasher d g m :
  0 ≤ k ≤ r → r ≤ zlength T → r ≤ U64_MAX → part ≠ ppath → m !! ppath = Some g → aligned g →
  (∀ p, says (f_data g) = Ok p → ep_committed_offset p ≤ k) →
  take (Z.to_nat k) d = take (Z.to_nat k) T → k ≤ zlength d →
  receiving T (mkUpload part dir r k hasher) (<[part := mkFile (take (Z.to_nat r) T) d]> m).
Proof.
  intros Hk Hr Hmax Hne Hg Ha Hc Hd Hlen.
  split; cbn [up_received up_persisted up_part]; [lia | done | lia | done | |].
  - eexists. by split; [apply lookup_insert_eq |].
  - exists g. by rewrite lookup_insert_ne.
Qed.

(** The staged file is synced. *)
Definition synced (u : Upload) : Upload :=
  mkUpload (up_part u) (up_parent u) (up_received u) (up_received u) (up_hasher u).

Lemma cwp_sync_part T u code m :
  receiving T u m →
  cwp False (on_disk (sync (up_part u)) code) (λ _, receiving T (synced u)) (acked T (up_part u)) m.
Proof.
  intros Hrec. pose proof (receiving_acked _ _ _ Hrec) as Em.
  destruct Hrec as [Hr Hmax Hp Hne (f & Hf & Hdata & _) (g & Hg & Ha & Hc)].
  set (full := take (Z.to_nat (up_received u)) T) in *.
  assert (alter (λ f, mkFile (f_data f) (f_data f)) (up_part u) m = <[up_part u := mkFile full full]> m) as Hsync.
  { rewrite <- (insert_id m (up_part u) f Hf) at 1. by rewrite alter_insert_eq, Hdata. }
  assert (receiving T (synced u) (<[up_part u := mkFile full full]> m)) as Hrec'.
  { apply (receiving_staged _ _ _ _ _ _ _ g); [lia | lia | done | done | done | done | | |].
    - intros p Hsays. specialize (Hc p Hsays). lia.
    - unfold full. by rewrite take_take, Nat.min_id.
    - unfold full, zlength in *. rewrite length_take. lia. }
  apply cwp_on_disk; [apply keeps_sync |].
  apply fwp_sync; rewrite ?Hsync; [done | by apply (receiving_acked _ _ _ Hrec') | done].
Qed.

(** The progress of a synced upload is recorded. *)
Definition recorded (st : EntryState) (r : Z) (m : filemap) : Prop :=
  ∃ g, m !! ppath = Some g ∧ aligned g ∧ says (f_data g) = Ok (mkEntryProgress st r).

Lemma cwp_persist T u st code m :
  receiving T u m → up_persisted u = up_received u →
  cwp False (on_disk (write_progress batch_id (me_ordinal entry) (mkEntryProgress st (up_received u))) code)
    (λ _ m', receiving T u m' ∧ recorded st (up_received u) m') (acked T (up_part u)) m.
Proof.
  intros [Hr Hmax Hp Hne (f & Hf & Hdata & Hdur & Hlen) (g & Hg & Ha & Hc)] Hall. rewrite Hall in *.
  set (p := mkEntryProgress st (up_received u)).
  assert (progress_ok p) as Hpok by (unfold p, progress_ok; cbn; lia).
  apply cwp_on_disk; [apply keeps_write_progress |]. rewrite Hordinal.
  apply (fwp_write_record _ g); [done | cbv zeta |].
  - pose proof Ha as [_ [k Hk]].
    assert (says (overwrite (f_data g) (16 * i) (encode_progress p)) = Ok p) as Hsays
      by (by rewrite (progress_at_overwrite _ _ _ k), decide_True).
    assert (aligned (let D := overwrite (f_data g) (16 * i) (encode_progress p) in mkFile D D)) as Ha'.
    { split; [done |]. exists (k `max` S i)%nat. by apply overwrite_length, encode_progress_length. }
    split; [| by eexists; split; [apply lookup_insert_eq |]].
    split; rewrite ?Hall; [done | done | done | done | |].
    + exists f. by rewrite lookup_insert_ne by done.
    + eexists. split; [apply lookup_insert_eq |]. split; [done |].
      cbn [f_data]. rewrite Hsays. by intros p' [= <-].
  - intros g' Hw. exists g', (Z.to_nat (up_received u)). unfold zlength in *.
    split; [apply lookup_insert_eq |]. split.
    + rewrite Z2Nat.id by lia. eapply written_acks; [done | done | lia | done | done | exact Hw].
    + right. exists f. rewrite lookup_insert_ne by done. split_and!; [done | lia | lia | done |].
      rewrite Hdata, take_take. by rewrite Nat.min_id.
Qed.

Lemma cwp_receive_frame T deferred_hash e u rest m :
  receiving T u m → polite (up_part u) e → drop (Z.to_nat (up_received u)) T = frame_data e ++ rest →
  cwp False (receive_frame batch_id entry deferred_hash e u)
    (λ u' m', receiving T u' m' ∧ up_part u' = up_part u ∧ drop (Z.to_nat (up_received u')) T = rest)
    (acked T (up_part u)) m.
Proof.
  intros Hrec Hpol Hdrop. unfold receive_frame. apply cwp_bind.
  intros s Hs Hh _. specialize (Hpol s). cbn zeta in Hpol. rewrite Hs, Hh in Hpol.
  destruct Hpol as (Hpart & Hprog & Hh'). cbn. split_and!; [done | done |].
  set (m1 := d_files _) in *. clearbody m1.
  apply (receiving_same _ _ _ m1) in Hrec; [| done..]. clear Hpart Hprog Hh' Hs Hh s m.
  pose proof (receiving_acked _ _ _ Hrec) as Em. unfold frame_data in Hdrop.
  destruct (be_frame e) as [| | data |]; [by apply cwp_fail | ..];
    (apply cwp_bind, cwp_ticket_is_active; intros active; apply cwp_bind, cwp_refuse; [intros _ | done]);
    [by apply cwp_fail | | by apply cwp_ret].
  apply cwp_bind, cwp_with_code; [| done]. intros received Hadd.
  apply cwp_bind, cwp_refuse; [intros _ | done].
  apply cwp_bind, cwp_disk_result; [apply keeps_write_at |].
  eapply fwp3_mono; [by eapply fwp_stage | | | done].
  2: { intros m' Hm' err. apply cwp_bind, cwp_bind. unfold has_available_space.
       apply cwp_bind, cwp_disk_ok; [apply keeps_create_dir_all |].
       eapply fwp3_mono; [by apply (fwp_create_dir_all _ (λ _, eq m') (eq m')) | | | by intros ? <-].
       - intros u0 m2 <-. apply cwp_bind, cwp_get. intros s. apply cwp_ret. by apply cwp_fail.
       - intros m2 <-. apply cwp_ret. by apply cwp_fail. }
  intros [] m' (f & Hf & ->). apply cwp_bind, cwp_ret.
  assert (received = up_received u + zlength data ∧ received ≤ U64_MAX) as [-> Hmax].
  { unfold checked_add64 in Hadd. destruct (Z.ltb_spec U64_MAX (up_received u + zlength data)); [done |].
    cbn in Hadd. by injection Hadd as <-. }
  set (received := up_received u + zlength data) in *.
  destruct Hrec as [Hr _ Hp Hne (f' & Hf' & Hdata & Hdur & Hlen) (g & Hg & Ha & Hc)].
  assert (f' = f) as -> by congruence. clear Hf'.
  destruct (drop_received T (up_received u) data rest Hr Hdrop) as [HrT Hrest]. fold received in HrT, Hrest.
  pose proof (zlength_nonneg data).
  assert (∀ hasher, receiving T (mkUpload (up_part u) (up_parent u) received (up_persisted u) hasher)
    (<[up_part u := mkFile (take (Z.to_nat received) T) (f_durable f)]> m1)) as Hstaged
    by (intros hasher; apply (receiving_staged _ _ _ _ _ _ _ g); (done || lia)).
  match goal with |- cwp _ (if ?b then _ else _) _ _ _ => destruct b end.
  - set (u' := mkUpload (up_part u) (up_parent u) received (up_persisted u)
                (if deferred_hash then up_hasher u else up_hasher u ++ data)).
    apply cwp_bind. eapply cwp_mono; [apply (cwp_sync_part T u'), Hstaged | | done].
    intros u1 m' Hrec'. apply cwp_bind. eapply cwp_mono; [by apply (cwp_persist T (synced u')) | | done].
    intros u2 m2 [Hrec2 _]. by apply cwp_ret.
  - by apply cwp_ret.
Qed.

Lemma cwp_receive_frames T deferred_hash body u m :
  receiving T u m → Forall (polite (up_part u)) body →
  drop (Z.to_nat (up_received u)) T = concat (frame_data <$> body) →
  cwp False (receive_frames batch_id entry deferred_hash body u)
    (λ u' m', receiving T u' m' ∧ up_part u' = up_part u ∧ up_received u' = zlength T)
    (acked T (up_part u)) m.
Proof.
  revert u m. induction body as [|e body IH]; intros u m Hrec Hpol Hdrop; cbn [receive_frames].
  - apply cwp_ret. split_and!; [done | done |]. destruct Hrec as [Hr _ _ _ _ _]. cbn in Hdrop.
    apply (f_equal length) in Hdrop. rewrite length_drop in Hdrop. cbn in Hdrop. unfold zlength in *. lia.
  - apply Forall_cons in Hpol as [He Hpol]. apply cwp_bind.
    eapply cwp_mono; [eapply (cwp_receive_frame T); [exact Hrec | exact He | exact Hdrop] | | done].
    intros u' m' (Hrec' & Hpart & Hdrop'). rewrite <- Hpart in *.
    eapply cwp_mono; [by apply IH | | done]. intros u2 m2 (? & -> & ?). done.
Qed.

(** What is answered is on the medium, and is the offset to go on from. *)
Definition answered (T : list Z) (part : path) (rr : ReceiveResult) (m : filemap) : Prop :=
  rr_completed rr = true
  ∨ rr_committed_offset rr = zlength T
    ∧ (∃ f, m !! part = Some f ∧ f_data f = T ∧ take (length T) (f_durable f) = T)
    ∧ ∃ st, recorded st (zlength T) m.

Lemma cwp_receive_end T deferred_hash u m :
  receiving T u m → up_received u = zlength T →
  cwp False (receive_end batch_id entry deferred_hash u)
    (λ rr m', acked T (up_part u) m' ∧ answered T (up_part u) rr m') (acked T (up_part u)) m.
Proof.
  intros Hrec Hall. unfold receive_end.
  apply cwp_bind. eapply cwp_mono; [by apply cwp_sync_part | | done]. intros u1 m1 Hrec1. cbv zeta.
  assert (∀ rr st m2, receiving T (synced u) m2 → recorded st (up_received u) m2 →
    rr_committed_offset rr = up_received u →
    acked T (up_part u) m2 ∧ answered T (up_part u) rr m2) as Hans.
  { intros rr st m2 Hrec2 Hst Hrr. split; [by apply (receiving_acked _ _ _ Hrec2) |]. right.
    rewrite Hrr, Hall. rewrite Hall in Hst. split_and!; [done | | by exists st].
    destruct Hrec2 as [_ _ _ _ (f & Hf & Hdata & Hdur & Hlen) _]. cbn [synced up_received up_persisted up_part] in *.
    rewrite Hall in *. unfold zlength in *. rewrite Nat2Z.id in *. rewrite firstn_all in Hdata, Hdur.
    by exists f. }
  assert (∀ st (rr : ReceiveResult), rr_committed_offset rr = up_received u →
    cwp False (_ ← on_disk (write_progress batch_id (me_ordinal entry) (mkEntryProgress st (up_received u)))
                     "progress_unavailable"; mret rr)
      (λ rr m', acked T (up_part u) m' ∧ answered T (up_part u) rr m') (acked T (up_part u)) m1) as Hlast.
  { intros st rr Hrr. apply cwp_bind. eapply cwp_mono; [by apply (cwp_persist T (synced u)) | | done].
    intros u2 m2 [Hrec2 Hst]. apply cwp_ret. by eapply Hans. }
  destruct (negb _); [by apply Hlast |].
  apply cwp_bind, cwp_refuse; [intros _; by apply Hlast | by apply (receiving_acked _ _ _ Hrec1)].
Qed.

(** ** Beginning where the progress says *)

Lemma fwp_read_progress (Q : EntryProgress → filemap → Prop) (E : filemap → Prop) m :
  (∀ g p, m !! ppath = Some g → says (f_data g) = Ok p → Q p m) → E m →
  fwp (read_progress batch_id (me_ordinal entry)) Q E m.
Proof.
  intros HQ HE. unfold read_progress. rewrite Hordinal.
  apply fwp_bind, fwp_batch_dir; [intros _ | done].
  apply fwp_bind, reader_fwp; [apply reader_read_manifest_complete | intros c _ | done].
  apply fwp_bind, fwp_check; [intros _ | done]. rewrite <- app_assoc.
  apply fwp_bind, fwp_read; [intros g Hg | done].
  apply fwp_bind, fwp_checked; [| done]. intros offset Hoff.
  assert (offset = Z.of_nat i * 16) as ->.
  { unfold checked_mul64, PROGRESS_RECORD_BYTES in Hoff. destruct (_ <? _); [done |]. by injection Hoff as <-. }
  apply fwp_bind, fwp_lift; [intros record Hrec | done]. apply fwp_lift; [intros p Hp | done].
  apply (HQ g); [done |]. unfold progress_at. rewrite Hrec. done.
Qed.
Lemma keeps_read_progress ordinal : keeps (read_progress batch_id ordinal).
Proof. unfold read_progress, read_manifest_complete, batch_dir. keep_going. Qed.

Lemma fwp_open_or_create (p : path) (Q : unit → filemap → Prop) (E : filemap → Prop) m :
  (is_Some (m !! p) → Q tt m) →
  (m !! p = None → Q tt (<[p := mkFile [] []]> m) ∧ E (<[p := mkFile [] []]> m)) → E m →
  fwp (open_or_create p) Q E m.
Proof.
  intros HQ Hnew HE. apply fwp_atomic; [| done]. intros d <-. cbv beta. unfold is_file.
  case_bool_decide as Hp; [auto |]. destruct (is_dir p d); [done |]. destruct (negb _); [done |].
  split; [done |]. apply Hnew. by apply eq_None_not_Some.
Qed.
Lemma fwp_set_len (p : path) n (Q : unit → filemap → Prop) (E : filemap → Prop) m :
  let m' := alter (set_data (λ l, resize (Z.to_nat n) 0 l)) p m in
  Q tt m' → E m' → E m → fwp (set_len p n) Q E m.
Proof. intros m' HQ HE1 HE. by apply fwp_atomic; [intros d <- |]. Qed.
Lemma fwp_file_len (p : path) (Q : Z → filemap → Prop) (E : filemap → Prop) m :
  (∀ f, m !! p = Some f → Q (zlength (f_data f)) m) → E m → fwp (file_len p) Q E m.
Proof.
  intros HQ HE. apply fwp_read_call; [| done]. intros d a <- Ha.
  destruct (d_files d !! p) eqn:Hp; [| done]. injection Ha as <-. by apply HQ.
Qed.

(** The staged bytes. *)
Definition staged (part : path) (m : filemap) : list Z := from_option f_data [] (m !! part).
Definition on_medium (part : path) (m : filemap) : list Z := from_option f_durable [] (m !! part).

(** The entry is at [c]: the progress says so, and as many staged bytes are on
    the medium. *)
Record resumable (part : path) (c : Z) (m : filemap) : Prop := {
  rs_bounds : 0 ≤ c ≤ U64_MAX;
  rs_progress : ∃ g p, m !! ppath = Some g ∧ aligned g ∧ says (f_data g) = Ok p ∧ ep_committed_offset p = c;
  rs_length : c ≤ zlength (on_medium part m) ∧ c ≤ zlength (staged part m);
  rs_bytes : take (Z.to_nat c) (on_medium part m) = take (Z.to_nat c) (staged part m);
}.

(** The bytes up to [c], then those of the body. *)
Definition whole (part : path) (c : Z) (m : filemap) (body : list BodyEvent) : list Z :=
  take (Z.to_nat c) (staged part m) ++ concat (frame_data <$> body).

Lemma resumable_acked part c m body : resumable part c m → acked (whole part c m body) part m.
Proof.
  intros [Hc (g & p & Hg & Ha & Hp & Hpc) [Hl1 Hl2] Hb]. exists g, (Z.to_nat c).
  split; [done |]. split.
  - apply aligned_acks; [done |]. rewrite Hp. intros p' [= <-]. lia.
  - unfold whole, on_medium, staged, zlength in *.
    destruct (m !! part) as [f|] eqn:Hf; cbn in *; [right | left; lia].
    exists f. split_and!; [done | lia | |  |].
    + rewrite length_app, length_take. lia.
    + rewrite take_app_le, take_take, Nat.min_id by (rewrite length_take; lia). done.
    + rewrite take_app_le, take_take, Nat.min_id by (rewrite length_take; lia). done.
Qed.

Lemma staging_apart t : staging batch_id entry t ≠ ppath.
Proof.
  unfold staging. rewrite app_assoc. intros Heq. apply app_inj_tail in Heq as [_ Hname].
  unfold part_name in Hname. done.
Qed.

Lemma cwp_hash_prefix fuel contents remaining hasher (Q : list Z → filemap → Prop) (E : filemap → Prop) m :
  (∀ l, Q l m) → E m → cwp False (hash_prefix fuel batch_id contents remaining hasher) Q E m.
Proof.
  intros HQ HE. revert contents remaining hasher. induction fuel as [|fuel IH]; intros contents remaining hasher;
    cbn [hash_prefix]; (destruct (remaining <=? 0); [by apply cwp_ret |]); [by apply cwp_fail |].
  apply cwp_bind, cwp_ticket_is_active. intros active. apply cwp_bind, cwp_refuse; [intros _ | done].
  apply cwp_bind, cwp_refuse; [intros _ | done]. apply IH.
Qed.

(** The staged file is opened and cut at [c]. *)
Lemma cwp_open_staged {A} part c m body g (next : co A) (Q : A → filemap → Prop) (E : filemap → Prop) :
  let T := whole part c m body in
  resumable part c m → m !! ppath = Some g → part ≠ ppath →
  (∀ m1 d, m1 !! part = Some (mkFile (take (Z.to_nat c) T) d) → take (Z.to_nat c) d = take (Z.to_nat c) T →
     c ≤ zlength d → m1 !! ppath = Some g → cwp False next Q E m1) →
  (∀ m', acked T part m' → E m') →
  cwp False (_ ← on_disk (open_or_create part) "target_unavailable";
    staged_len ← on_disk (file_len part) "target_unavailable";
    _ ← refuse (staged_len <? c) "offset_mismatch";
    _ ← (if c <? staged_len then on_disk (set_len part c) "target_unavailable" else mret tt);
    next) Q E m.
Proof.
  intros T Hres Hg Hne HQ HE. pose proof (resumable_acked _ _ _ body Hres) as Em. fold T in Em.
  assert (take (Z.to_nat c) T = take (Z.to_nat c) (staged part m)) as HT.
  { destruct Hres as [Hc _ [_ Hl] _]. unfold T, whole, zlength in *.
    rewrite take_app_le, take_take, Nat.min_id by (rewrite length_take; lia). done. }
  (* once the file is there *)
  assert (∀ m1 f, m1 !! part = Some f → m1 !! ppath = Some g → acked T part m1 →
    f_data f = staged part m → f_durable f = on_medium part m →
    cwp False (staged_len ← on_disk (file_len part) "target_unavailable";
      _ ← refuse (staged_len <? c) "offset_mismatch";
      _ ← (if c <? staged_len then on_disk (set_len part c) "target_unavailable" else mret tt);
      next) Q E m1) as Hthere.
  { intros m1 f Hf Hg1 Em1 Hdata Hdur. destruct Hres as [Hc Hprog [Hl1 Hl2] Hb].
    apply cwp_bind, cwp_on_disk; [apply keeps_read_call |]. apply fwp_file_len; [| by apply HE].
    intros f'. rewrite Hf. intros [= <-]. rewrite Hdata.
    apply cwp_bind, cwp_refuse; [intros _ | by apply HE]. apply cwp_bind.
    destruct (Z.ltb_spec c (zlength (staged part m))) as [Hlt|Hge].
    - apply cwp_on_disk; [apply keeps_set_len |].
      assert (alter (set_data (λ l, resize (Z.to_nat c) 0 l)) part m1
              = <[part := mkFile (take (Z.to_nat c) T) (f_durable f)]> m1) as Halter.
      { rewrite <- (insert_id m1 part f Hf) at 1. rewrite alter_insert_eq. unfold set_data.
        rewrite Hdata, resize_le, HT by (unfold zlength in *; lia). done. }
      apply fwp_set_len; rewrite ?Halter; [| | by apply HE].
      + eapply HQ; [apply lookup_insert_eq | by rewrite Hdur, HT | by rewrite Hdur |].
        by rewrite lookup_insert_ne.
      + apply HE. exists g, (Z.to_nat c). rewrite lookup_insert_ne by done. split; [done |].
        destruct Hprog as (g' & p & Hg' & Ha & Hp & Hpc). assert (g' = g) as -> by congruence. split.
        { apply aligned_acks; [done |]. rewrite Hp. intros p' [= <-]. lia. }
        right. eexists. split; [apply lookup_insert_eq |]. cbn [f_data f_durable]. rewrite Hdur, HT.
        unfold zlength in *. split_and!; [lia | | done | by rewrite take_take, Nat.min_id].
        unfold T, whole. rewrite length_app, length_take. lia.
    - apply cwp_ret. eapply HQ; [| by rewrite <- HT in Hb; exact Hb | done | done].
      rewrite Hf. destruct f as [data durable]. cbn in *. subst. f_equal. f_equal.
      rewrite HT, take_ge by (unfold zlength in *; lia). done. }
  apply cwp_bind, cwp_on_disk; [apply keeps_open_or_create |]. apply fwp_open_or_create; [| | by apply HE].
  - intros [f Hf]. apply (Hthere m f); [done | done | done | |]; unfold staged, on_medium; by rewrite Hf.
  - intros Hnone.
    assert (acked T part (<[part := mkFile [] []]> m)) as Em1.
    { destruct Hres as [Hc (g' & p & Hg' & Ha & Hp & Hpc) [Hl _] _]. exists g', 0%nat.
      rewrite lookup_insert_ne by done. split; [done |]. split; [| by left].
      apply aligned_acks; [done |]. rewrite Hp. intros p' [= <-]. unfold on_medium in Hl.
      rewrite Hnone in Hl. unfold zlength in Hl. cbn in Hl. lia. }
    split; [| by apply HE]. apply (Hthere _ (mkFile [] [])); [apply lookup_insert_eq | by rewrite lookup_insert_ne | done | |];
      unfold staged, on_medium; by rewrite Hnone.
Qed.

Lemma whole_rest part c m body :
  resumable part c m → drop (Z.to_nat c) (whole part c m body) = concat (frame_data <$> body).
Proof.
  intros [Hc _ [_ Hl] _]. unfold whole, zlength in *. rewrite drop_app_ge by (rewrite length_take; lia).
  rewrite length_take. by replace (_ - _)%nat with 0%nat by lia.
Qed.

Lemma receiving_hasher T part dir r k h h' m :
  receiving T (mkUpload part dir r k h) m → receiving T (mkUpload part dir r k h') m.
Proof. by intros [H1 H2 H3 H4 H5 H6]. Qed.

(** What was staged is hashed, and the upload starts. *)
Lemma cwp_start T part dir c (hashing : bool) rest m :
  receiving T (mkUpload part dir c c []) m → drop (Z.to_nat c) T = rest →
  cwp False (hasher ← (if hashing
               then contents ← on_disk (read part) "target_unavailable";
                    hash_prefix (S (length contents)) batch_id contents c []
               else mret []);
    _ ← on_disk (write_progress batch_id (me_ordinal entry) (mkEntryProgress ETransferring c)) "progress_unavailable";
    mret (inr (mkUpload part dir c c hasher) : ReceiveResult + Upload))
    (λ begun m', match begun with
       | inl rr => acked T part m' ∧ rr_completed rr = true
       | inr u => receiving T u m' ∧ up_part u = part ∧ drop (Z.to_nat (up_received u)) T = rest
       end) (acked T part) m.
Proof.
  intros Hrec Hrest. pose proof (receiving_acked _ _ _ Hrec) as Em. cbn in Em.
  assert (∀ hasher : list Z, cwp False
    (_ ← on_disk (write_progress batch_id (me_ordinal entry) (mkEntryProgress ETransferring c)) "progress_unavailable";
     mret (inr (mkUpload part dir c c hasher) : ReceiveResult + Upload))
    (λ begun m', match begun with
       | inl rr => acked T part m' ∧ rr_completed rr = true
       | inr u => receiving T u m' ∧ up_part u = part ∧ drop (Z.to_nat (up_received u)) T = rest
       end) (acked T part) m) as Hend.
  { intros hasher. apply cwp_bind.
    eapply cwp_mono; [by apply (cwp_persist T (mkUpload part dir c c [])) | | done].
    intros u m' [Hrec' _]. apply cwp_ret. split_and!; [by eapply receiving_hasher | done..]. }
  apply cwp_bind. destruct hashing; [| by apply cwp_ret].
  apply cwp_bind, cwp_on_disk; [apply keeps_read_call |]. apply fwp_read; [intros f _ | done].
  by apply cwp_hash_prefix.
Qed.

Lemma cwp_receive_begin t offset deferred_hash c body m :
  let part := staging batch_id entry t in let T := whole part c m body in
  (target_path batch_id (me_ordinal entry) (still m)).1 = Ok t → resumable part c m →
  cwp False (receive_begin batch_id entry offset deferred_hash)
    (λ begun m', match begun with
       | inl rr => acked T part m' ∧ rr_completed rr = true
       | inr u => receiving T u m' ∧ up_part u = part ∧ drop (Z.to_nat (up_received u)) T = concat (frame_data <$> body)
       end) (acked T part) m.
Proof.
  intros part T Ht Hres. pose proof (resumable_acked _ _ _ body Hres) as Em. fold T in Em.
  pose proof (whole_rest _ _ _ body Hres) as Hrest. fold T in Hrest.
  unfold receive_begin. cbv zeta.
  apply cwp_bind, cwp_refuse; [intros _ | done].
  apply cwp_bind, cwp_on_disk; [apply keeps_read_progress |].
  apply fwp_read_progress; [intros g p Hg Hp | done].
  assert (ep_committed_offset p = c ∧ aligned g) as [Hpc Ha].
  { destruct Hres as [_ (g' & p' & Hg' & Ha & Hp' & Hc) _ _]. assert (g' = g) as -> by congruence.
    assert (p' = p) as -> by congruence. done. }
  apply cwp_bind, cwp_refuse; [intros Hoff | done]. bool_to_prop. rewrite Hpc in Hoff. subst offset.
  apply cwp_bind, cwp_on_disk; [apply keeps_target_path |].
  apply reader_fwp; [apply reader_target_path | | done]. intros t'. rewrite Ht. intros [= <-].
  destruct (bool_decide (ep_state p = ECompleted)).
  { assert (∀ hash, cwp False (mret (inl (mkReceiveResult (me_size entry) true hash)) : co (ReceiveResult + Upload))
      (λ begun m', match begun with
         | inl rr => acked T part m' ∧ rr_completed rr = true
         | inr u => receiving T u m' ∧ up_part u = part
             ∧ drop (Z.to_nat (up_received u)) T = concat (frame_data <$> body) end) (acked T part) m) as Hdone
      by (intros hash; by apply cwp_ret).
    destruct deferred_hash; [apply cwp_bind, cwp_ret, Hdone |]. apply cwp_bind, cwp_bind.
    apply cwp_on_disk; [apply keeps_hash_file |]. apply reader_fwp; [apply reader_hash_file | | done].
    intros h _. apply cwp_ret, Hdone. }
  apply cwp_bind, cwp_with_code; [| done]. intros dir Hdir.
  assert (dir ++ [part_name batch_id (me_entry_id entry)] = part) as Hpart.
  { unfold part, staging. destruct (parent t); [by injection Hdir as -> | done]. }
  rewrite Hpart.
  apply cwp_bind, cwp_on_disk; [apply keeps_create_dir_all |].
  apply fwp_create_dir_all; [| done].
  apply cwp_bind, cwp_disk_ok; [apply keeps_read_call |].
  eapply fwp3_mono; [by apply (fwp_symlink_metadata part (λ _, eq m) (eq m)) | | | by intros ? <-].
  1: intros link m' <-. 2: intros m' <-.
  all: apply cwp_bind, cwp_refuse; [intros _ | done].
  all: apply (cwp_open_staged part c m body g); [done | done | apply staging_apart | | done].
  all: intros m1 d Hf Hdur Hlen Hg1; apply cwp_start; [| done].
  all: assert (zlength (take (Z.to_nat c) (staged part m)) = c ∧ c ≤ zlength T) as [_ HlT].
  1, 3: destruct Hres as [Hc _ [_ Hl] _]; unfold T, whole, zlength in *; rewrite ?length_app, length_take; lia.
  all: destruct Hres as [Hc _ _ _]; split; cbn [up_received up_persisted up_part]; [lia | lia | lia | apply staging_apart | |].
  1, 3: eexists; split; [exact Hf |]; by split_and!.
  all: exists g; split_and!; [done | done |]; rewrite Hp; intros p' [= <-]; lia.
Qed.

(** ** The whole upload *)

Lemma cwp_receive_file t c offset deferred_hash body m :
  let part := staging batch_id entry t in let T := whole part c m body in
  (target_path batch_id (me_ordinal entry) (still m)).1 = Ok t → resumable part c m →
  Forall (polite part) body →
  cwp False (receive_file batch_id entry offset deferred_hash body)
    (λ rr m', acked T part m' ∧ answered T part rr m') (acked T part) m.
Proof.
  intros part T Ht Hres Hpol. unfold receive_file. apply cwp_bind.
  eapply cwp_mono; [by apply cwp_receive_begin | | done]. fold part T.
  intros [rr | u] m1.
  - intros [Hm1 Hrr]. apply cwp_ret. split; [done | by left].
  - intros (Hrec & Hpart & Hdrop). rewrite <- Hpart in *. apply cwp_bind.
    eapply cwp_mono; [by apply (cwp_receive_frames T) | | done].
    intros u' m2 (Hrec' & Hpart' & Hall). rewrite <- Hpart'. by apply cwp_receive_end.
Qed.

(** What the restart finds. *)
Lemma acked_reboot T part sched d d'' :
  acked T part (d_files d) → reboot sched d d'' →
  ∃ g g'', d_files d !! ppath = Some g ∧ d_files d'' !! ppath = Some g''
    ∧ survives (f_durable g) (f_data g) (f_data g'')
    ∧ ∀ p, says (f_data g'') = Ok p →
         ep_committed_offset p ≤ zlength (staged part (d_files d''))
         ∧ take (Z.to_nat (ep_committed_offset p)) (staged part (d_files d''))
           = take (Z.to_nat (ep_committed_offset p)) T.
Proof.
  intros (g & c & Hg & Hacks & Hc) Hre. pose proof Hre as (_ & _ & Hdom & Hfiles & _).
  assert (∀ p f, d_files d !! p = Some f → ∃ f'', d_files d'' !! p = Some f''
    ∧ survives (f_durable f) (f_data f) (f_data f'')) as Hkept.
  { intros p f Hf. assert (p ∈ dom (d_files d'')) as [f'' Hf'']%elem_of_dom
      by (rewrite Hdom; apply elem_of_dom; by exists f).
    exists f''. split; [done |]. by apply (Hfiles p f f''). }
  destruct (Hkept _ _ Hg) as (g'' & Hg'' & Hs). exists g, g''. split_and!; [done.. |].
  intros p Hp. specialize (Hacks _ _ Hs Hp). destruct Hc as [-> | (f & Hf & Hlen & HlenT & Hdur & Hdata)].
  - pose proof (zlength_nonneg (staged part (d_files d''))). split; [lia |].
    by replace (Z.to_nat (ep_committed_offset p)) with 0%nat by lia.
  - destruct (Hkept _ _ Hf) as (f'' & Hf'' & Hsf). unfold staged. rewrite Hf''. cbn.
    assert (take c (f_data f'') = take c (f_durable f)) as Htake
      by (apply (survives_prefix _ _ (f_data f)); [congruence | done | done]).
    assert (c ≤ length (f_data f''))%nat.
    { apply (f_equal length) in Htake. rewrite !length_take in Htake. lia. }
    split; [unfold zlength; lia |].
    replace (Z.to_nat (ep_committed_offset p)) with (Z.to_nat (ep_committed_offset p) `min` c)%nat by lia.
    rewrite <- !take_take. by rewrite Htake, Hdur.
Qed.

(** C5. Acknowledged bytes survive. Let the progress of an entry be at [c], with as
    many bytes of its staged file on the medium. Whatever is received for it next,
    in whatever frames, with other tasks at work on other files in between,
    whatever fails and wherever the machine stops (also inside a write), after
    the restart the progress is at most at the staged bytes, and these are, up
    to the progress, the [c] bytes and then those of the body. When an offset is
    answered for an incomplete entry, the file and the progress are at this
    offset, and it is where the body ended. *)
Theorem acknowledged_bytes_survive t c offset deferred_hash body s r s' :
  let m := d_files (co_disk s) in
  let part := staging batch_id entry t in let T := whole part c m body in
  (target_path batch_id (me_ordinal entry) (still m)).1 = Ok t → resumable part c m →
  Forall (polite part) body → d_halted (co_disk s) = false →
  receive_file batch_id entry offset deferred_hash body s = (r, s') →
  ∀ sched d'', reboot sched (co_disk s') d'' →
  ∃ g, d_files d'' !! ppath = Some g
    ∧ (∀ p, says (f_data g) = Ok p →
         ep_committed_offset p ≤ zlength (staged part (d_files d''))
         ∧ take (Z.to_nat (ep_committed_offset p)) (staged part (d_files d''))
           = take (Z.to_nat (ep_committed_offset p)) T)
    ∧ ∀ rr, r = Ok rr → rr_completed rr = false →
        rr_committed_offset rr = zlength T ∧ (∃ st, says (f_data g) = Ok (mkEntryProgress st (zlength T)))
        ∧ take (length T) (staged part (d_files d'')) = T.
Proof.
  intros m part T Ht Hres Hpol Hh Hrun sched d'' Hre.
  pose proof (cwp_receive_file t c offset deferred_hash body m Ht Hres Hpol s eq_refl Hh (λ F, match F with end)) as Hpost.
  rewrite Hrun in Hpost. fold part T in Hpost.
  assert (acked T part (d_files (co_disk s'))) as Hacked by (destruct r; naive_solver).
  destruct (acked_reboot _ _ _ _ _ Hacked Hre) as (g & g'' & Hg & Hg'' & Hs & Hp).
  exists g''. split_and!; [done | done |]. intros rr -> Hrr.
  destruct Hpost as (_ & _ & _ & [Hc | (Hoff & (f & Hf & Hdata & Hdur) & st & g' & Hg' & [Hsync _] & Hsays)]);
    [by rewrite Hrr in Hc |].
  assert (g' = g) as -> by congruence. split_and!; [done | |].
  - exists st. rewrite Hsync in Hs. by apply survives_same in Hs as ->.
  - assert (take (length T) (f_durable f) = take (length T) (f_data f)) as Heq by (by rewrite Hdata, Hdur, firstn_all).
    destruct Hre as (_ & _ & Hdom & Hfiles & _). unfold staged.
    assert (part ∈ dom (d_files d'')) as [f'' Hf'']%elem_of_dom by (rewrite Hdom; apply elem_of_dom; by exists f).
    rewrite Hf''. cbn. destruct (Hfiles _ _ _ Hf Hf'') as [Hsf _].
    rewrite (survives_prefix _ _ _ _ Heq); [done | | done].
    apply (f_equal length) in Hdur. rewrite length_take in Hdur. lia.
Qed.
End upload.

(** ** On the sample *)

(** Twenty bytes of the file were acknowledged; the machine stops while the rest is
    written. *)
Definition sample_resume_progress : list Z :=
  encode_progress (mkEntryProgress ECompleted 0) ++ encode_progress (mkEntryProgress ETransferring 20).
Definition sample_resume_disk (schedule : list outcome) : disk :=
  with_schedule schedule
    (with_files <[sample_directory_path ++ [PROGRESS_FILE] := mkFile sample_resume_progress sample_resume_progress]>
       sample_transfer_disk).
Definition sample_resume_body : list BodyEvent := [mkBodyEvent id (FrData (drop 20 sample_body)) false].
Definition sample_stop : list outcome := replicate 16 Fine ++ [Crash 1].

Example sample_resume_runs :
  (@receive_file sample_coordinator_env "batch-1" sample_file 20 true sample_resume_body
     (sample_coordinator (sample_resume_disk []))).1 = Ok (mkReceiveResult 42 false None)
  ∧ d_halted (co_disk (@receive_file sample_coordinator_env "batch-1" sample_file 20 true sample_resume_body
     (sample_coordinator (sample_resume_disk sample_stop))).2) = true.
Proof. by vm_compute. Qed.

Lemma acknowledged_bytes_survive_witness :
  let s' := (@receive_file sample_coordinator_env "batch-1" sample_file 20 true sample_resume_body
               (sample_coordinator (sample_resume_disk sample_stop))).2 in
  d_halted (co_disk s') = true ∧ ∀ d'', reboot [] (co_disk s') d'' →
  ∃ g, d_files d'' !! (sample_directory_path ++ [PROGRESS_FILE]) = Some g
    ∧ ∀ p, progress_at (f_data g) 1 = Ok p →
        ep_committed_offset p ≤ zlength (staged sample_part (d_files d''))
        ∧ take (Z.to_nat (ep_committed_offset p)) (staged sample_part (d_files d''))
          = take (Z.to_nat (ep_committed_offset p)) (take 20 sample_body ++ drop 20 sample_body ++ []).
Proof.
  cbn zeta. split; [vm_compute; reflexivity |].
  destruct (@receive_file sample_coordinator_env "batch-1" sample_file 20 true sample_resume_body
              (sample_coordinator (sample_resume_disk sample_stop))) as [r s'] eqn:Hrun.
  cbn [snd]. intros d'' Hre.
  assert ((@target_path sample_env "batch-1" (me_ordinal sample_file)
            (still (d_files (co_disk (sample_coordinator (sample_resume_disk sample_stop)))))).1
          = Ok sample_target) as Ht by (by vm_compute).
  assert (@resumable sample_coordinator_env "batch-1" 1 sample_part 20
            (d_files (co_disk (sample_coordinator (sample_resume_disk sample_stop))))) as Hres.
  { assert (0 ≤ 20 ≤ U64_MAX) as Hb by (unfold U64_MAX; lia).
    assert (staged sample_part (d_files (sample_resume_disk sample_stop)) = sample_body) as Hst by (by vm_compute).
    assert (on_medium sample_part (d_files (sample_resume_disk sample_stop)) = sample_body) as Hom by (by vm_compute).
    cbn [co_disk sample_coordinator].
    split; [exact Hb | | rewrite Hst, Hom; split; discriminate | rewrite Hst, Hom; reflexivity].
    exists (mkFile sample_resume_progress sample_resume_progress), (mkEntryProgress ETransferring 20).
    assert (progress_at sample_resume_progress 1 = Ok (mkEntryProgress ETransferring 20)) as Hp
      by (vm_compute; reflexivity).
    assert (length sample_resume_progress = (16 * 2)%nat) as Hlen by reflexivity.
    split; [apply lookup_insert_eq |]. split; [split; [reflexivity | by exists 2%nat] |].
    split; [exact Hp | reflexivity]. }
  destruct (@acknowledged_bytes_survive sample_coordinator_env "batch-1" sample_file 1 eq_refl sample_target 20 20 true
              sample_resume_body (sample_coordinator (sample_resume_disk sample_stop)) r s' Ht Hres
              ltac:(by repeat constructor) eq_refl Hrun [] d'' Hre) as (g & Hg & Hp & _).
  exists g. split; [exact Hg |]. intros p Hsays. exact (Hp p Hsays).
Defined.
