(* ===== verification/UploadCompletes.v ===== *)
(** * An upload that nothing disturbs

    What the safety of uploads leaves open: that they succeed. On a disk without
    faults, with a ticket that is valid, an upload that begins where the progress
    is receives the whole body, in whatever frames, with the hash of the whole
    file; and the verified file is published. *)

From S2P Require Import Prelude Text Protocol FileNames FileCore Disk DiskLogic Store SampleStore StoreSafety StoreBatches Targets Coordinator DataServer SampleCoordinator DataServerLogic DataServerSafety UploadSafety.
Local Open Scope string_scope.
Local Open Scope list_scope.
Local Open Scope Z_scope.

(** [c] succeeds, with [Q]. *)
Definition runs {A} (c : co A) (Q : A → Coordinator → Prop) (s : Coordinator) : Prop :=
  match c s with (Ok a, s') => Q a s' | (Err _, _) => False end.

Section runs.
Context {A B : Type}.

Lemma runs_mono (c : co A) (Q Q' : A → Coordinator → Prop) s :
  runs c Q s → (∀ a s', Q a s' → Q' a s') → runs c Q' s.
Proof. unfold runs. destruct (c s) as [[a|e] s']; auto. Qed.
Lemma runs_ret (a : A) (Q : A → Coordinator → Prop) s : Q a s → runs (mret a) Q s.
Proof. done. Qed.
Lemma runs_bind (c : co A) (f : A → co B) (Q : B → Coordinator → Prop) s :
  runs c (λ a, runs (f a) Q) s → runs (a ← c; f a) Q s.
Proof. unfold runs, mbind, sr_bind. by destruct (c s) as [[a|e] s']. Qed.
Lemma runs_on_disk (c : io A) code (Q : A → Coordinator → Prop) s a d :
  c (co_disk s) = (Ok a, d) → Q a (set_disk d s) → runs (on_disk c code) Q s.
Proof. intros Hc HQ. unfold runs, on_disk. by rewrite Hc. Qed.
Lemma runs_disk_result (c : io A) (Q : result io_error A → Coordinator → Prop) s a d :
  c (co_disk s) = (Ok a, d) → Q (Ok a) (set_disk d s) → runs (disk_result c) Q s.
Proof. intros Hc HQ. unfold runs, disk_result. by rewrite Hc. Qed.
Lemma runs_refuse (b : bool) code (Q : unit → Coordinator → Prop) s :
  b = false → Q tt s → runs (refuse b code) Q s.
Proof. by intros ->. Qed.
Lemma runs_with_code {E} (r : result E A) code (Q : A → Coordinator → Prop) s a :
  r = Ok a → Q a s → runs (with_code r code) Q s.
Proof. by intros ->. Qed.
Lemma runs_Ok (c : co A) (Q : A → Coordinator → Prop) s a s' : c s = (Ok a, s') → Q a s' → runs c Q s.
Proof. intros Hc HQ. unfold runs. by rewrite Hc. Qed.
End runs.

(** ** Calls on disks without faults *)

Lemma create_dir_all_quiet (p : path) d :
  quiet d → existsb (λ q, is_file q d) (prefixes p) = false →
  create_dir_all p d = (Ok tt, with_dirs (λ s, list_to_set (prefixes p) ∪ s) d).
Proof. intros [Hs Hh] Hp. unfold create_dir_all, io_call. by rewrite Hh, Hs, Hp. Qed.
Lemma symlink_metadata_quiet (p : path) d :
  quiet d → symlink_metadata p d
    = (if is_dir p d || is_file p d then Ok (bool_decide (p ∈ d_links d)) else Err NotFound, d).
Proof. intros [Hs Hh]. unfold symlink_metadata, io_read, io_call. by rewrite Hh, Hs. Qed.
Lemma file_len_quiet (p : path) f d : quiet d → d_files d !! p = Some f → file_len p d = (Ok (zlength (f_data f)), d).
Proof. intros [Hs Hh] Hf. unfold file_len, io_read, io_call. by rewrite Hh, Hs, Hf. Qed.
Lemma set_len_quiet (p : path) n f d :
  quiet d → d_files d !! p = Some f →
  set_len p n d = (Ok tt, with_files <[p := set_data (λ l, resize (Z.to_nat n) 0 l) f]> d).
Proof.
  intros [Hs Hh] Hf. unfold set_len, io_atomic. rewrite Hh, Hs. f_equal.
  destruct d. unfold with_files. cbn in *. f_equal.
  rewrite <- (insert_id d_files p f Hf) at 1. by rewrite alter_insert_eq.
Qed.
Lemma write_quiet (p : path) offset data f d :
  quiet d → d_files d !! p = Some f →
  write_at p offset data d = (Ok tt, with_files <[p := set_data (λ l, overwrite l (Z.to_nat offset) data) f]> d).
Proof.
  intros Hq Hf. rewrite write_at_quiet by done. f_equal. destruct d. unfold with_files. cbn in *. f_equal.
  rewrite <- (insert_id d_files p f Hf) at 1. by rewrite alter_insert_eq.
Qed.
Lemma sync_file_quiet (p : path) f d :
  quiet d → d_files d !! p = Some f →
  sync p d = (Ok tt, with_files <[p := mkFile (f_data f) (f_data f)]> d).
Proof.
  intros Hq Hf. rewrite sync_quiet by done. f_equal. destruct d. unfold with_files. cbn in *. f_equal.
  rewrite <- (insert_id d_files p f Hf) at 1. by rewrite alter_insert_eq.
Qed.
(** The file is there afterwards, empty if it was not. *)
Lemma open_or_create_quiet (p dir : path) d :
  quiet d → parent p = Some dir → is_dir dir d = true → is_dir p d = false →
  open_or_create p d = (Ok tt, with_files (λ m, <[p := default (mkFile [] []) (m !! p)]> m) d).
Proof.
  intros [Hs Hh] Hp Hdir Hnd. unfold open_or_create, io_atomic, is_file. rewrite Hh, Hs, Hnd, Hp, Hdir. cbn [negb].
  destruct d. unfold with_files. cbn. destruct (d_files !! p) as [f|] eqn:Hf; cbn; [| done].
  by rewrite insert_id.
Qed.

Section completes.
Context `{CoordinatorEnv} (batch_id : string) (entry : ManifestEntry) (i : nat).
Context (entries : list ManifestEntry) (ls : list (list Z)).
Context (Hid : validate_batch_id batch_id = Ok tt) (Hentry : entries !! i = Some entry).
Context (Hfit : zlength entries * 16 ≤ U64_MAX).
Notation directory := (store_root ++ [batch_id]).
Notation ppath := (directory ++ [PROGRESS_FILE]).

(** A committed manifest is made of visible files. *)
Lemma readable_dotted g part f d :
  dotted part → readable batch_id entries ls g d → readable batch_id entries ls g (with_files <[part := f]> d).
Proof.
  intros Hp [Hq [H1 H2 H3 H4 H5 H6 (c & H7 & H8)]]. split; [done |].
  assert (∀ name, head (bytes_of name) ≠ Some 46 →
    <[part := f]> (d_files d) !! (directory ++ [name]) = d_files d !! (directory ++ [name])) as Hne.
  { intros name Hname. apply lookup_insert_ne. intros ->. by apply not_dotted in Hp. }
  split; try done; try (cbn; by rewrite Hne). exists c. cbn. by rewrite Hne.
Qed.

Context (part : path) (Hdotted : dotted part).

Lemma part_apart : part ≠ ppath.
Proof. intros Heq. rewrite Heq in Hdotted. by apply not_dotted in Hdotted. Qed.

(** The upload has received [r] bytes of [T]; [b]: all are on the medium. *)
Record going (T : list Z) (r : Z) (b : bool) (s : Coordinator) : Prop := {
  go_live : ticket_live batch_id s;
  go_manifest : ∃ g, readable batch_id entries ls g (co_disk s);
  go_part : ∃ f, d_files (co_disk s) !! part = Some f ∧ f_data f = take (Z.to_nat r) T
    ∧ (b = true → f_durable f = f_data f);
}.

Lemma entry_ordinal d g : readable batch_id entries ls g d → me_ordinal entry = Z.of_nat i.
Proof. intros [_ Hc]. by destruct (c_numbered _ _ _ _ _ Hc i entry Hentry). Qed.
Lemma entry_lt : (i < length entries)%nat.
Proof. by eapply lookup_lt_Some. Qed.

(** The progress of the entry reads as [p]. *)
Definition at_progress (p : EntryProgress) (s : Coordinator) : Prop :=
  ∃ g, d_files (co_disk s) !! ppath = Some g ∧ progress_at (f_data g) i = Ok p.

Lemma progress_at_written old p : progress_ok p → progress_at (overwrite old (16 * i) (encode_progress p)) i = Ok p.
Proof.
  intros Hp. rewrite says_slot. change (slot i ?l) with (record_at l i).
  rewrite record_at_overwrite by apply encode_progress_length. unfold slot_says, zlength.
  rewrite encode_progress_length. cbn [Z.of_nat]. by apply decode_encode_progress.
Qed.

Lemma runs_record T r b p code s :
  going T r b s → progress_ok p →
  runs (on_disk (write_progress batch_id (me_ordinal entry) p) code)
    (λ _ s', going T r b s' ∧ at_progress p s') s.
Proof.
  intros [Hl [g Hg] (f & Hf & Hdata)] Hp. rewrite (entry_ordinal _ _ Hg).
  destruct (write_progress_quiet batch_id entries ls Hid g i p _ Hg entry_lt Hfit) as [Hrun Hr].
  eapply runs_on_disk; [exact Hrun |]. split.
  - split; [done | by eexists | exists f]. cbn. rewrite lookup_insert_ne; [done |]. intros Heq. by apply part_apart.
  - eexists. split; [apply lookup_insert_eq |]. by apply progress_at_written.
Qed.

Lemma runs_sync T r b code s :
  going T r b s → runs (on_disk (sync part) code) (λ _, going T r true) s.
Proof.
  intros [Hl [g Hg] (f & Hf & Hdata & _)]. pose proof Hg as [Hq _].
  eapply runs_on_disk; [by apply sync_file_quiet |].
  split; [done | exists g; by apply readable_dotted |]. eexists. cbn. split; [apply lookup_insert_eq | done].
Qed.

Lemma runs_stage T r b data rest s :
  0 ≤ r ≤ zlength T → drop (Z.to_nat r) T = data ++ rest → going T r b s →
  runs (disk_result (write_at part r data)) (λ x s', x = Ok tt ∧ going T (r + zlength data) false s') s.
Proof.
  intros Hr Hdrop [Hl [g Hg] (f & Hf & Hdata & _)]. pose proof Hg as [Hq _].
  eapply runs_disk_result; [by apply write_quiet |]. split; [done |].
  split; [done | exists g; by apply readable_dotted |]. eexists. cbn. split; [apply lookup_insert_eq |].
  split; [| done]. cbn. unfold zlength in *.
  replace (Z.to_nat (r + Z.of_nat (length data))) with (Z.to_nat r + length data)%nat by lia.
  rewrite <- take_take_drop, Hdrop, take_app_length, Hdata. rewrite <- overwrite_app. f_equal.
  rewrite length_take. lia.
Qed.

(** Frames of data, while nothing else happens. *)
Definition undisturbed (e : BodyEvent) : Prop := be_others e = id ∧ be_frame e = FrData (frame_data e).

Lemma runs_frame T deferred_hash e u rest s :
  undisturbed e → up_part u = part → 0 ≤ up_received u ≤ zlength T → zlength T ≤ me_size entry →
  zlength T ≤ U64_MAX → drop (Z.to_nat (up_received u)) T = frame_data e ++ rest →
  going T (up_received u) false s →
  runs (receive_frame batch_id entry deferred_hash e u)
    (λ u' s', going T (up_received u') false s' ∧ up_part u' = part
       ∧ up_received u' = up_received u + zlength (frame_data e)
       ∧ up_hasher u' = if deferred_hash then up_hasher u else up_hasher u ++ frame_data e) s.
Proof.
  intros [Hothers Hframe] Hpart Hr Hsize Hmax Hdrop Hgo. unfold receive_frame. rewrite Hothers, Hframe, Hpart.
  destruct (drop_received T (up_received u) (frame_data e) rest Hr Hdrop) as [HrT _].
  apply runs_bind. change (runs (sr_modify id) ?Q s) with (Q tt s). cbv beta.
  apply runs_bind. eapply runs_Ok; [apply ticket_is_active_live, Hgo |].
  apply runs_bind, runs_refuse; [done |].
  apply runs_bind. eapply runs_with_code.
  { unfold checked_add64. by rewrite (proj2 (Z.ltb_ge _ _)) by lia. }
  apply runs_bind, runs_refuse; [apply Z.ltb_ge; lia |].
  apply runs_bind. eapply runs_mono; [by eapply runs_stage |]. cbv beta. intros x s1 [-> Hgo1].
  apply runs_bind, runs_ret.
  match goal with |- runs (if ?b then _ else _) _ _ => destruct b end.
  - apply runs_bind. eapply runs_mono; [by eapply runs_sync |]. cbv beta. intros ? s2 Hgo2.
    apply runs_bind. pose proof (zlength_nonneg (frame_data e)). eapply runs_mono; [eapply runs_record; [done | split; cbn; lia] |]. cbv beta. intros ? s3 [[Hl Hm (f & Hf & Hd & _)] _].
    apply runs_ret. split_and!; [| done..]. split; [done | done | by exists f].
  - by apply runs_ret.
Qed.

Lemma runs_frames T deferred_hash body u s :
  Forall undisturbed body → up_part u = part → 0 ≤ up_received u ≤ zlength T → zlength T ≤ me_size entry →
  zlength T ≤ U64_MAX → drop (Z.to_nat (up_received u)) T = concat (frame_data <$> body) →
  going T (up_received u) false s →
  runs (receive_frames batch_id entry deferred_hash body u)
    (λ u' s', going T (zlength T) false s' ∧ up_part u' = part ∧ up_received u' = zlength T
       ∧ up_hasher u' = if deferred_hash then up_hasher u else up_hasher u ++ concat (frame_data <$> body)) s.
Proof.
  revert u s. induction body as [|e body IH]; intros u s Hbody Hpart Hr Hsize Hmax Hdrop Hgo; cbn [receive_frames].
  - assert (up_received u = zlength T) as Hall.
    { cbn in Hdrop. apply (f_equal length) in Hdrop. rewrite length_drop in Hdrop. cbn in Hdrop. unfold zlength in *. lia. }
    apply runs_ret. rewrite <- Hall. split_and!; [done | done | done |]. cbn. rewrite app_nil_r. by destruct deferred_hash.
  - apply Forall_cons in Hbody as [He Hbody]. apply runs_bind. cbn [fmap list_fmap concat] in *.
    eapply runs_mono; [by eapply runs_frame |]. cbv beta. intros u' s1 (Hgo1 & Hpart1 & Hr1 & Hh1).
    destruct (drop_received T (up_received u) (frame_data e) _ Hr Hdrop) as [HrT Hrest].
    pose proof (zlength_nonneg (frame_data e)). rewrite <- Hr1 in *.
    eapply runs_mono; [apply (IH u' s1); (done || lia) |]. cbv beta. intros u2 s2 (H1 & H2 & H3 & H4).
    split_and!; [done.. |]. rewrite H4, Hh1. destruct deferred_hash; [done |]. by rewrite <- app_assoc.
Qed.

(** The hash that is answered, when the body is whole and is to be hashed. *)
Definition answer_hash (deferred_hash : bool) (T : list Z) : option string :=
  if negb (zlength T =? me_size entry) || deferred_hash then None else Some (sha256_hex T).

Lemma runs_end (T : list Z) (deferred_hash : bool) (u : Upload) (s : Coordinator) :
  up_part u = part → up_received u = zlength T →
  up_hasher u = (if deferred_hash then up_hasher u else T) →
  match answer_hash deferred_hash T, me_sha256 entry with
  | Some hash, Some expected => eq_ignore_ascii_case expected hash = true
  | _, _ => True end →
  zlength T ≤ U64_MAX → going T (zlength T) false s →
  runs (receive_end batch_id entry deferred_hash u)
    (λ rr s', rr = mkReceiveResult (zlength T) false (answer_hash deferred_hash T)
       ∧ going T (zlength T) true s'
       ∧ ∃ st, at_progress (mkEntryProgress st (zlength T)) s') s.
Proof.
  intros Hpart Hall Hhash Hexpected Hmax Hgo. pose proof (zlength_nonneg T). unfold receive_end, answer_hash in *. rewrite Hpart, Hall. cbv zeta.
  apply runs_bind. eapply runs_mono; [by eapply runs_sync |]. cbv beta. intros ? s1 Hgo1.
  destruct (zlength T =? me_size entry); cbn [negb orb] in *.
  - apply runs_bind, runs_refuse.
    { destruct deferred_hash; [done |]. rewrite Hhash. destruct (me_sha256 entry) as [expected|]; [by rewrite Hexpected | done]. }
    apply runs_bind. eapply runs_mono; [eapply runs_record; [done | split; cbn; lia] |]. cbv beta. intros ? s2 [Hgo2 Hp].
    apply runs_ret. split_and!; [| done | by eexists]. destruct deferred_hash; [done |]. by rewrite Hhash.
  - apply runs_bind. eapply runs_mono; [eapply runs_record; [done | split; cbn; lia] |]. cbv beta. intros ? s2 [Hgo2 Hp].
    apply runs_ret. by split_and!; [| | eexists].
Qed.

(** What was staged is hashed as a whole. *)
Lemma runs_hash_prefix fuel contents hasher s :
  ticket_live batch_id s → (length contents < fuel)%nat →
  hash_prefix fuel batch_id contents (zlength contents) hasher s = (Ok (hasher ++ contents), s).
Proof.
  intros Hl. revert contents hasher. induction fuel as [|fuel IH]; intros contents hasher Hf; [lia |].
  cbn [hash_prefix]. destruct (Z.leb_spec (zlength contents) 0) as [H0|H0].
  { destruct contents; [by rewrite app_nil_r | unfold zlength in H0; cbn in H0; lia]. }
  erewrite sr_bind_Ok by (by apply ticket_is_active_live). erewrite sr_bind_Ok by done.
  set (count := Z.min (Z.min (zlength contents) (512 * 1024)) (zlength contents)).
  assert (0 < count ≤ zlength contents) as Hc by (unfold count; lia). clearbody count.
  rewrite (proj2 (Z.eqb_neq count 0)) by lia. erewrite sr_bind_Ok by done.
  assert (zlength contents - count = zlength (drop (Z.to_nat count) contents)) as ->
    by (unfold zlength in *; rewrite length_drop; lia).
  rewrite IH by (unfold zlength in *; rewrite length_drop; lia). by rewrite <- app_assoc, take_drop.
Qed.

(** Where the upload begins: the progress is at [c], the bytes are staged, and
    nothing is in the way of the target. *)
Record ready (t : path) (c : Z) (s : Coordinator) : Prop := {
  rd_live : ticket_live batch_id s;
  rd_progress : ∃ g p, readable batch_id entries ls g (co_disk s)
    ∧ progress_at (f_data g) i = Ok p ∧ ep_committed_offset p = c ∧ ep_state p ≠ ECompleted;
  rd_target : target_path batch_id (me_ordinal entry) (co_disk s) = (Ok t, co_disk s);
  rd_parent : ∃ dir, parent t = Some dir ∧ dir ≠ [] ∧ existsb (λ q, is_file q (co_disk s)) (prefixes dir) = false;
  rd_part : part = staging batch_id entry t ∧ is_dir part (co_disk s) = false ∧ part ∉ d_links (co_disk s);
  rd_staged : 0 ≤ c ≤ zlength (staged part (d_files (co_disk s)));
}.

Lemma prefix_self (dir : path) : dir ≠ [] → dir ∈ prefixes dir.
Proof.
  intros Hd. unfold prefixes. apply list_elem_of_fmap. exists (length dir). split; [by rewrite firstn_all |].
  apply elem_of_seq. destruct dir; [done | cbn; lia].
Qed.
Lemma prefix_shorter (dir : path) name : dir ++ [name] ∉ prefixes dir.
Proof.
  unfold prefixes. intros (n & Heq & Hn)%list_elem_of_fmap. apply elem_of_seq in Hn.
  apply (f_equal length) in Heq. rewrite length_app, length_take in Heq. cbn in Heq. lia.
Qed.

Lemma readable_dirs g f d : readable batch_id entries ls g d → readable batch_id entries ls g (with_dirs f d).
Proof. by intros [Hq Hc]. Qed.

(** The staged file is opened, cut at [c], and read. *)
Lemma runs_open {A} T c g (next : co A) (Q : A → Coordinator → Prop) s dir :
  ticket_live batch_id s → readable batch_id entries ls g (co_disk s) →
  parent part = Some dir → is_dir dir (co_disk s) = true → is_dir part (co_disk s) = false →
  0 ≤ c ≤ zlength (staged part (d_files (co_disk s))) →
  take (Z.to_nat c) T = take (Z.to_nat c) (staged part (d_files (co_disk s))) →
  (∀ s', going T c false s' → runs next Q s') →
  runs (_ ← on_disk (open_or_create part) "target_unavailable";
    staged_len ← on_disk (file_len part) "target_unavailable";
    _ ← refuse (staged_len <? c) "offset_mismatch";
    _ ← (if c <? staged_len then on_disk (set_len part c) "target_unavailable" else mret tt);
    next) Q s.
Proof.
  intros Hl Hg Hpar Hdir Hnd Hc HT HQ. pose proof Hg as [Hq _].
  apply runs_bind. eapply runs_on_disk; [by eapply open_or_create_quiet |].
  set (f := default (mkFile [] []) (d_files (co_disk s) !! part)).
  assert (f_data f = staged part (d_files (co_disk s))) as Hdata
    by (unfold f, staged; by destruct (d_files (co_disk s) !! part)).
  set (d1 := with_files _ (co_disk s)).
  assert (d_files d1 !! part = Some f) as Hf by apply lookup_insert_eq.
  assert (readable batch_id entries ls g d1) as Hg1.
  { unfold d1. change (with_files _ (co_disk s)) with (with_files <[part := f]> (co_disk s)). by apply readable_dotted. }
  pose proof Hg1 as [Hq1 _].
  apply runs_bind. eapply runs_on_disk; [by eapply file_len_quiet |].
  rewrite Hdata. apply runs_bind, runs_refuse; [apply Z.ltb_ge; lia |]. apply runs_bind.
  destruct (Z.ltb_spec c (zlength (staged part (d_files (co_disk s))))) as [Hlt|Hge].
  - eapply runs_on_disk; [by eapply set_len_quiet |]. apply HQ.
    split; [done | exists g; by apply readable_dotted |]. eexists. cbn. split; [apply lookup_insert_eq |].
    split; [| done]. cbn. rewrite Hdata, HT, resize_le; [done | unfold zlength in *; lia].
  - apply runs_ret, HQ. split; [done | by exists g |]. exists f. split; [exact Hf |]. split; [| done].
    rewrite Hdata, HT, take_ge; [done | unfold zlength in *; lia].
Qed.

Lemma runs_begin T t c deferred_hash s :
  ready t c s → 0 ≤ c ≤ me_size entry → c ≤ U64_MAX →
  take (Z.to_nat c) T = take (Z.to_nat c) (staged part (d_files (co_disk s))) →
  runs (receive_begin batch_id entry c deferred_hash)
    (λ begun s', ∃ u, begun = inr u ∧ going T c false s' ∧ up_part u = part ∧ up_received u = c
       ∧ up_hasher u = (if deferred_hash then [] else take (Z.to_nat c) T)) s.
Proof.
  intros [Hl (g & p & Hg & Hp & Hpc & Hst) Ht (dir & Hdir & Hne & Hfiles) (Hpart & Hnd & Hlink) Hc] Hsize Hmax HT.
  pose proof Hg as [Hq _]. unfold receive_begin. cbv zeta.
  apply runs_bind, runs_refuse; [apply Z.ltb_ge; lia |].
  apply runs_bind. eapply runs_on_disk.
  { rewrite (entry_ordinal _ _ Hg). rewrite (read_progress_quiet batch_id entries ls g Hid i _ Hg entry_lt);
      [by rewrite Hp |]. pose proof entry_lt. unfold zlength in Hfit. lia. }
  apply runs_bind, runs_refuse; [by rewrite Hpc, Z.eqb_refl |].
  replace (set_disk (co_disk s) s) with s by (by destruct s).
  apply runs_bind. eapply runs_on_disk; [exact Ht |]. replace (set_disk (co_disk s) s) with s by (by destruct s).
  rewrite bool_decide_false by done.
  apply runs_bind. eapply runs_with_code; [by rewrite Hdir |].
  apply runs_bind. eapply runs_on_disk; [by apply create_dir_all_quiet |].
  assert (dir ++ [part_name batch_id (me_entry_id entry)] = part) as Hname
    by (rewrite Hpart; unfold staging; by rewrite Hdir).
  rewrite Hname. set (s1 := set_disk _ s).
  assert (readable batch_id entries ls g (co_disk s1)) as Hg1 by (by apply readable_dirs).
  pose proof Hg1 as [Hq1 _].
  assert (is_dir part (co_disk s1) = false) as Hnd1.
  { unfold is_dir in *. bool_to_prop. apply bool_decide_false. cbn. rewrite elem_of_union, elem_of_list_to_set.
    intros [Hin | Hin]; [| done]. rewrite <- Hname in Hin. by apply prefix_shorter in Hin. }
  apply runs_bind. apply runs_Ok with (a := if is_file part (co_disk s1) then Some false else None) (s' := s1).
  { unfold disk_ok, disk_result. unfold mbind, sr_bind. rewrite symlink_metadata_quiet by done. rewrite Hnd1. cbn [orb].
    replace (set_disk (co_disk s1) s1) with s1 by done.
    destruct (is_file part (co_disk s1)); [| by destruct Hq1 as [_ ->]].
    rewrite bool_decide_false by done. done. }
  apply runs_bind, runs_refuse; [by case_match |].
  apply (runs_open T c g _ _ s1 dir); [done | done | | | done | done | done |].
  { rewrite <- Hname. apply parent_snoc. }
  { unfold is_dir. apply bool_decide_true. cbn. apply elem_of_union_l, elem_of_list_to_set. by apply prefix_self. }
  intros s2 Hgo2. apply runs_bind.
  apply runs_mono with (Q := λ hasher s', hasher = (if deferred_hash then [] else take (Z.to_nat c) T) ∧ s' = s2).
  { destruct (Z.ltb_spec 0 c) as [Hpos|H0], deferred_hash; cbn [negb andb].
    1, 3: by apply runs_ret.
    2: { apply runs_ret. by replace (Z.to_nat c) with 0%nat by lia. }
    destruct Hgo2 as [Hl2 [g2 [Hq2 _]] (f & Hf & Hdata & _)].
    apply runs_bind. eapply runs_on_disk; [by eapply (read_quiet _ _ f) |]. rewrite Hdata.
    replace (set_disk (co_disk s2) s2) with s2 by (by destruct s2).
    assert (zlength (take (Z.to_nat c) T) = c) as Hlen.
    { rewrite HT. unfold zlength in *. rewrite length_take. lia. }
    pose proof (runs_hash_prefix (S (length (take (Z.to_nat c) T))) (take (Z.to_nat c) T) [] s2 Hl2 ltac:(lia)) as Hrun.
    rewrite Hlen in Hrun. by eapply runs_Ok; [exact Hrun |]. }
  intros hasher s' [-> ->]. apply runs_bind. eapply runs_mono; [eapply runs_record; [exact Hgo2 | split; cbn; lia] |].
  cbv beta. intros ? s3 [Hgo3 _]. apply runs_ret. eexists. by split_and!.
Qed.

(** C9. An upload that nothing disturbs succeeds. On a disk that answers, with a
    valid ticket, an upload that begins at the offset the progress has and brings,
    in frames of any size, no more than the entry's size, is answered with the
    offset of all its bytes; these are then in the staged file and on the medium,
    the progress is there, and, when the body is whole and hashing was not put
    off, the hash is that of the whole file, also when it was received in parts. *)
Theorem undisturbed_upload_succeeds t c deferred_hash body s :
  let T := whole part c (d_files (co_disk s)) body in
  ready t c s → Forall undisturbed body → zlength T ≤ me_size entry → me_size entry ≤ U64_MAX →
  match answer_hash deferred_hash T, me_sha256 entry with
  | Some hash, Some expected => eq_ignore_ascii_case expected hash = true
  | _, _ => True end →
  ∃ s', receive_file batch_id entry c deferred_hash body s
        = (Ok (mkReceiveResult (zlength T) false (answer_hash deferred_hash T)), s')
    ∧ d_files (co_disk s') !! part = Some (mkFile T T)
    ∧ ∃ st, read_progress batch_id (me_ordinal entry) (co_disk s')
            = (Ok (mkEntryProgress st (zlength T)), co_disk s').
Proof.
  intros T Hready Hbody Hsize Hmax Hexpected. pose proof Hready as [_ _ _ _ _ Hc].
  assert (c ≤ zlength T ∧ take (Z.to_nat c) T = take (Z.to_nat c) (staged part (d_files (co_disk s)))
          ∧ drop (Z.to_nat c) T = concat (frame_data <$> body)) as (HcT & HT & Hrest).
  { unfold T, whole, zlength in *. rewrite length_app, length_take. split_and!; [lia | |].
    - rewrite take_app_le, take_take, Nat.min_id by (rewrite length_take; lia). done.
    - rewrite drop_app_ge, length_take by (rewrite length_take; lia).
      by replace (_ - _)%nat with 0%nat by lia. }
  assert (runs (receive_file batch_id entry c deferred_hash body)
    (λ rr s', rr = mkReceiveResult (zlength T) false (answer_hash deferred_hash T)
       ∧ going T (zlength T) true s' ∧ ∃ st, at_progress (mkEntryProgress st (zlength T)) s') s) as Hruns.
  { unfold receive_file. apply runs_bind.
    eapply runs_mono; [apply (runs_begin T t c); (done || lia) |]. cbv beta.
    intros ? s1 (u & -> & Hgo & Hup & Hur & Huh). apply runs_bind.
    rewrite <- Hur in Hgo, Hrest.
    eapply runs_mono; [apply (runs_frames T); (done || lia) |]. cbv beta.
    intros u' s2 (Hgo2 & Hup2 & Hur2 & Huh2). apply runs_end; [done | done | | done | lia | done].
    rewrite Huh2, Huh. destruct deferred_hash; [done |].
    rewrite <- Hrest, Hur. apply take_drop. }
  unfold runs in Hruns. destruct (receive_file _ _ _ _ _ s) as [[rr|e] s']; [| done].
  destruct Hruns as (-> & [Hl [g Hg] (f & Hf & Hdata & Hdur)] & st & g' & Hg' & Hsays).
  exists s'. split; [done |]. split.
  - rewrite Hf. destruct f as [data durable]. cbn in *. rewrite (Hdur eq_refl), Hdata.
    unfold zlength. by rewrite Nat2Z.id, firstn_all.
  - exists st. rewrite (entry_ordinal _ _ Hg). pose proof Hg as [_ Hcom].
    rewrite (read_progress_quiet batch_id entries ls g Hid i _ Hg entry_lt).
    + assert (g' = g) as -> by (pose proof (c_progress _ _ _ _ _ Hcom); congruence). by rewrite Hsays.
    + pose proof entry_lt. unfold zlength in Hfit. lia.
Qed.

(** ** Publishing *)

Lemma path_exists_quiet (p : path) d :
  quiet d → path_exists p d = (Ok (is_dir p d || is_file p d), d).
Proof.
  intros Hq. unfold path_exists. rewrite symlink_metadata_quiet by done.
  destruct (is_dir p d || is_file p d); [done |]. by destruct Hq as [_ ->].
Qed.

Lemma runs_preserve_modified_time (p : path) t f s :
  quiet (co_disk s) → d_files (co_disk s) !! p = Some f →
  runs (preserve_modified_time p t) (λ _ s', co_disk s' = co_disk s) s.
Proof.
  intros Hq Hf. unfold preserve_modified_time. destruct (t <? 0); [by apply runs_ret |].
  unfold disk_ok. apply runs_bind, runs_bind. eapply runs_disk_result; [by eapply open_existing_quiet |].
  by apply runs_ret.
Qed.

(** A verified upload is published. On a disk that answers, with a valid ticket,
    when the staged file has the length and the hash and nothing is at the target,
    completing the upload succeeds: the file is at its target, nothing is staged,
    and the progress says that the entry is complete. *)
Theorem verified_upload_is_published t dir hash f g s :
  readable batch_id entries ls g (co_disk s) → ticket_live batch_id s →
  target_path batch_id (me_ordinal entry) (co_disk s) = (Ok t, co_disk s) →
  parent t = Some dir → dir ≠ directory → is_dir dir (co_disk s) = true →
  part = staging batch_id entry t → d_files (co_disk s) !! part = Some f → verified entry hash f →
  is_dir t (co_disk s) = false → d_files (co_disk s) !! t = None → 0 ≤ me_size entry ≤ U64_MAX →
  ∃ s', commit_uploaded_file batch_id entry hash s = (Ok tt, s')
    ∧ d_files (co_disk s') !! t = Some f ∧ d_files (co_disk s') !! part = None
    ∧ read_progress batch_id (me_ordinal entry) (co_disk s')
      = (Ok (mkEntryProgress ECompleted (me_size entry)), co_disk s').
Proof.
  intros Hg Hl Ht Hdir Hout Hisdir Hpart Hf [Hsize Hhash] Hnd Hnone Hmax. pose proof Hg as [Hq _].
  assert (set_disk (co_disk s) s = s) as Hs by (by destruct s).
  assert (is_file t (co_disk s) = false) as Hnf by (apply bool_decide_false; rewrite Hnone; by intros []).
  assert (is_file part (co_disk s) = true) as Hpf by (apply bool_decide_true; by exists f).
  assert (part ≠ t) as Hpt by congruence.
  set (m1 := λ m : filemap, <[t := f]> (delete part m)).
  assert (∀ name, t ≠ directory ++ [name]) as Htn.
  { intros name ->. rewrite parent_snoc in Hdir. congruence. }
  assert (readable batch_id entries ls g (with_files m1 (co_disk s))) as Hg1.
  { destruct Hg as [_ [H1 H2 H3 H4 H5 H6 (c & H7 & H8)]]. split; [done |].
    assert (∀ name, head (bytes_of name) ≠ Some 46 →
      m1 (d_files (co_disk s)) !! (directory ++ [name]) = d_files (co_disk s) !! (directory ++ [name])) as Hne.
    { intros name Hname. unfold m1. rewrite lookup_insert_ne, lookup_delete_ne; [done | | by apply Htn].
      intros Heq. rewrite Heq in Hdotted. by apply not_dotted in Hdotted. }
    split; try done; try (cbn; by rewrite Hne). exists c. cbn. by rewrite Hne. }
  destruct (write_progress_quiet batch_id entries ls Hid g i (mkEntryProgress ECompleted (me_size entry)) _ Hg1
              entry_lt Hfit) as [Hwrite Hg2].
  set (s2 := set_disk (with_files m1 (co_disk s)) s).
  set (d3 := with_files _ (with_files m1 (co_disk s))) in Hwrite, Hg2.
  assert (runs (commit_uploaded_file batch_id entry hash) (λ _ s', co_disk s' = d3) s) as Hruns.
  { unfold commit_uploaded_file.
    apply runs_bind. eapply runs_on_disk; [exact Ht |]. rewrite Hs.
    apply runs_bind. eapply runs_with_code; [by rewrite Hdir |]. cbv zeta.
    assert (dir ++ [part_name batch_id (me_entry_id entry)] = part) as ->
      by (rewrite Hpart; unfold staging; by rewrite Hdir).
    apply runs_bind. eapply runs_on_disk; [by apply path_exists_quiet |]. rewrite Hs, Hpf, orb_true_r. cbv iota.
    apply runs_bind. eapply runs_on_disk; [by eapply file_len_quiet |]. rewrite Hs, Hsize, Z.eqb_refl. cbn [negb].
    apply runs_bind, runs_bind. eapply runs_on_disk.
    { unfold hash_file. by erewrite sr_bind_Ok by (by eapply read_quiet). }
    rewrite Hs. apply runs_refuse; [by rewrite Hhash |].
    apply runs_bind. eapply runs_Ok; [by apply ticket_is_active_live |]. apply runs_bind, runs_refuse; [done |].
    apply runs_bind, runs_bind. eapply runs_on_disk; [by apply path_exists_quiet |]. rewrite Hs, Hnd, Hnf.
    apply runs_bind, runs_refuse; [done |].
    apply runs_bind. eapply runs_on_disk.
    { unfold rename, move_replace, io_atomic. destruct Hq as [-> ->]. by rewrite Hf, Hnd, Hdir, Hisdir. }
    fold m1. fold s2.
    apply runs_mono with (Q := λ _ s', co_disk s' = co_disk s2).
    - destruct (me_modified_at_epoch_millis entry); [| by apply runs_ret].
      eapply runs_preserve_modified_time; [done | apply lookup_insert_eq].
    - intros ? s3 Hs3. eapply runs_on_disk; [| done]. rewrite Hs3, (entry_ordinal _ _ Hg). exact Hwrite. }
  unfold runs in Hruns. destruct (commit_uploaded_file _ _ _ s) as [[[]|e] s']; [| done].
  exists s'. split; [done |]. rewrite Hruns.
  assert (ppath ≠ t ∧ ppath ≠ part) as [Hpt1 Hpt2].
  { split; [intros Heq; by eapply Htn | intros Heq; by apply part_apart]. }
  split_and!.
  - cbn. rewrite lookup_insert_ne by done. unfold m1. apply lookup_insert_eq.
  - cbn. rewrite lookup_insert_ne by done. unfold m1. rewrite lookup_insert_ne by done. apply lookup_delete_eq.
  - rewrite (entry_ordinal _ _ Hg). rewrite (read_progress_quiet batch_id entries ls _ Hid i _ Hg2 entry_lt).
    + cbn [f_data]. by rewrite progress_at_written.
    + pose proof entry_lt. unfold zlength in Hfit. lia.
Qed.
End completes.

(** ** On the sample *)

Lemma sample_resume_readable :
  @readable sample_env "batch-1" sample_entries sample_lines (mkFile sample_resume_progress sample_resume_progress)
    (sample_resume_disk []).
Proof.
  split; [done |]. split.
  - repeat constructor.
  - intros [|[|i]] e; [intros [= <-] | intros [= <-] | done]; split; by vm_compute.
  - by vm_compute.
  - by vm_compute.
  - by vm_compute.
  - apply lookup_insert_eq.
  - exists [100]. split; by vm_compute.
Qed.

Lemma sample_part_dotted : dotted sample_part.
Proof. by vm_compute. Qed.

Lemma sample_fits : zlength sample_entries * 16 ≤ U64_MAX.
Proof. by vm_compute. Qed.

Lemma sample_live d : ticket_live "batch-1" (sample_coordinator d).
Proof. exists sample_grant. split; [apply lookup_singleton_eq | reflexivity]. Qed.

Lemma sample_target_quiet :
  @target_path sample_env "batch-1" (me_ordinal sample_file) (sample_resume_disk [])
  = (Ok sample_target, sample_resume_disk []).
Proof. apply reader_quiet; [apply (@reader_target_path sample_coordinator_env) | done | by vm_compute]. Qed.

Lemma undisturbed_upload_succeeds_witness :
  ∃ s', @receive_file sample_coordinator_env "batch-1" sample_file 20 false sample_resume_body
          (sample_coordinator (sample_resume_disk []))
        = (Ok (mkReceiveResult 42 false (Some sample_hash)), s').
Proof.
  assert (staged sample_part (d_files (sample_resume_disk [])) = sample_body) as Hst by (by vm_compute).
  assert (progress_at sample_resume_progress 1 = Ok (mkEntryProgress ETransferring 20)) as Hp by (vm_compute; reflexivity).
  destruct (@undisturbed_upload_succeeds sample_coordinator_env "batch-1" sample_file 1 sample_entries sample_lines
              sample_batch_id eq_refl sample_fits sample_part sample_part_dotted
              sample_target 20 false sample_resume_body (sample_coordinator (sample_resume_disk [])))
    as (s' & Hrun & _).
  - split.
    + apply sample_live.
    + exists (mkFile sample_resume_progress sample_resume_progress), (mkEntryProgress ETransferring 20).
      split; [exact sample_resume_readable |]. split; [exact Hp | split; [reflexivity | discriminate]].
    + exact sample_target_quiet.
    + exists (sample_root ++ ["docs"]). split; [reflexivity |]. split; [discriminate | by vm_compute].
    + split; [reflexivity |]. split; [by vm_compute |]. apply not_elem_of_empty.
    + cbn [co_disk sample_coordinator]. rewrite Hst. split; discriminate.
  - repeat constructor.
  - unfold whole. cbn [co_disk sample_coordinator]. rewrite Hst. by vm_compute.
  - by vm_compute.
  - cbn [sample_file me_sha256]. by case_match.
  - unfold whole in Hrun. cbn [co_disk sample_coordinator] in Hrun. rewrite Hst in Hrun. exists s'. exact Hrun.
Defined.

Lemma verified_upload_is_published_witness :
  ∃ s', @commit_uploaded_file sample_coordinator_env "batch-1" sample_file sample_hash
          (sample_coordinator (sample_resume_disk [])) = (Ok tt, s')
    ∧ d_files (co_disk s') !! sample_target = Some (mkFile sample_body sample_body).
Proof.
  destruct (@verified_upload_is_published sample_coordinator_env "batch-1" sample_file 1 sample_entries sample_lines
              sample_batch_id eq_refl sample_fits sample_part sample_part_dotted
              sample_target (sample_root ++ ["docs"]) sample_hash (mkFile sample_body sample_body)
              (mkFile sample_resume_progress sample_resume_progress) (sample_coordinator (sample_resume_disk [])))
    as (s' & Hrun & Hf & _).
  - exact sample_resume_readable.
  - apply sample_live.
  - exact sample_target_quiet.
  - reflexivity.
  - discriminate.
  - by vm_compute.
  - reflexivity.
  - by vm_compute.
  - split; by vm_compute.
  - by vm_compute.
  - by vm_compute.
  - by vm_compute.
  - exists s'. split; [exact Hrun | exact Hf].
Defined.
