(* ===== verification/Addresses.v ===== *)
(** * Addresses of this computer

    [flowtype-app/src/network_address.rs] and the endpoints of [app/main.rs]: the
    addresses under which a phone may reach this computer, and the text of the
    pairing code. What [GetAdaptersAddresses] lists is an argument; the JSON of
    the payload and base64 are parameters. *)

From S2P Require Import Prelude Text Protocol.
Local Open Scope string_scope.
Local Open Scope list_scope.
Local Open Scope Z_scope.

(** ** IPv4 addresses *)

Record Ipv4Addr := mkIpv4 { octet1 : Z; octet2 : Z; octet3 : Z; octet4 : Z }.
#[export] Instance Ipv4Addr_eq_dec : EqDecision Ipv4Addr.
Proof. solve_decision. Defined.

Definition is_loopback (a : Ipv4Addr) : bool := octet1 a =? 127.
Definition is_unspecified (a : Ipv4Addr) : bool := bool_decide (a = mkIpv4 0 0 0 0).
Definition is_link_local (a : Ipv4Addr) : bool := (octet1 a =? 169) && (octet2 a =? 254).
Definition is_private (a : Ipv4Addr) : bool :=
  (octet1 a =? 10) || ((octet1 a =? 172) && (16 <=? octet2 a) && (octet2 a <=? 31))
  || ((octet1 a =? 192) && (octet2 a =? 168)).
Definition LOCALHOST : Ipv4Addr := mkIpv4 127 0 0 1.
Definition ip_text (a : Ipv4Addr) : string :=
  of_bytes (join_with 46 [decimal (octet1 a); decimal (octet2 a); decimal (octet3 a); decimal (octet4 a)]).

(** An adapter as Windows lists it: whether it is up, its name ([None]: a null
    pointer) and its unicast addresses ([None]: of another family). *)
Record Adapter := mkAdapter {
  ada_up : bool;
  ada_name : option string;
  ada_addresses : list (option Ipv4Addr);
}.

(** [app/network_address.rs:59-84 adapter_ipv4s] What is taken of the list. *)
Definition adapter_ipv4s (adapters : list Adapter) : list (string * Ipv4Addr) :=
  adapters ≫= λ current,
    if ada_up current
    then ada_addresses current ≫= λ unicast,
      match unicast with
      | Some address =>
        if negb (is_loopback address) && negb (is_unspecified address) && negb (is_link_local address)
        then [(default "" (ada_name current), address)] else []
      | None => []
      end
    else [].

(** [app/network_address.rs address_score] *)
Definition address_score (adapter_name : string) (address : Ipv4Addr) : Z :=
  let name := bytes_of (str_to_ascii_lowercase adapter_name) in
  let has needle := contains (bytes_of needle) name in
  if has "tailscale" then 1000
  else if has "reachops" || has "rreachcontrol" then 120
  else if has "vEthernet" || has "vethernet" || has "hyper-v" || has "wsl" || has "default switch" then 10
  else if has "ethernet" || has "wi-fi" || has "wifi" || has "wlan" then 300
  else if is_private address then 200 else 100.

(** [dedup_by_key]: of neighbours with the same key the first stays. *)
Fixpoint dedup_by_key {A K} `{EqDecision K} (key : A → K) (l : list A) : list A :=
  match l with
  | [] => []
  | x :: l =>
    match dedup_by_key key l with
    | [] => [x]
    | y :: l' => if bool_decide (key x = key y) then x :: l' else x :: y :: l'
    end
  end.

Definition score_before (left right : string * Ipv4Addr) : bool :=
  address_score right.1 right.2 <=? address_score left.1 left.2.

(** [app/network_address.rs candidate_ipv4s] *)
Definition candidate_ipv4s (adapters : list Adapter) : list Ipv4Addr :=
  let candidates := filter (λ '(name, address), 100 ≤ address_score name address) (adapter_ipv4s adapters) in
  let candidates := stable_sort score_before candidates in
  let candidates := dedup_by_key snd candidates in
  take 6 candidates.*2.

(** [app/network_address.rs preferred_ipv4] *)
Definition preferred_ipv4 (adapters : list Adapter) : Ipv4Addr :=
  default LOCALHOST (head (candidate_ipv4s adapters)).

(** ** Endpoints and the pairing code *)

Definition PORT : Z := 32187.

Definition endpoint_url (host : string) : string := "wss://" +:+ host +:+ ":" +:+ of_bytes (decimal PORT) +:+ "/v1/sync".

(** [app/main.rs endpoint_urls] *)
Definition endpoint_urls (adapters : list Adapter) (primary : option string) : list string :=
  dedup_by_key id (option_list primary ++ ((λ address, endpoint_url (ip_text address)) <$> candidate_ipv4s adapters)).

(** [app/main.rs PairingPayload] *)
Record PairingPayload := mkPairingPayload {
  pp_protocol_version : Z;
  pp_pc_id : string;
  pp_pc_name : string;
  pp_candidate_endpoint : string;
  pp_candidate_endpoints : list string;
  pp_tls_spki_sha256 : string;
  pp_one_time_pairing_token : string;
}.

Section pairing_code.
Context (payload_to_vec : PairingPayload → option (list Z)) (base64_url : list Z → string).

(** [app/main.rs pairing_uri] *)
Definition pairing_uri (pc_id spki_sha256 pc_name : string) (host : string) (token : string)
    (adapters : list Adapter) : result string string :=
  let primary_endpoint := endpoint_url host in
  let payload := mkPairingPayload PROTOCOL_VERSION pc_id pc_name primary_endpoint
                   (endpoint_urls adapters (Some primary_endpoint)) spki_sha256 token in
  bytes ← ok_or (payload_to_vec payload) "cannot write the pairing code";
  Ok ("flowtype://pair?data=" +:+ base64_url bytes).
End pairing_code.

(** ** What the list of candidates is *)

Section dedup.
Context {A K : Type} `{!EqDecision K} (key : A → K).

Lemma dedup_sublist l : dedup_by_key key l `sublist_of` l.
Proof.
  induction l as [|x l IH]; cbn; [done |].
  destruct (dedup_by_key key l) as [|y l'] eqn:E; [apply sublist_skip, IH |].
  case_bool_decide; apply sublist_skip; [| exact IH]. etrans; [| exact IH]. by apply sublist_cons.
Qed.

(** No key is lost, and of an ordered list an element that comes before stays. *)
Lemma dedup_keeps_keys (R : relation A) `{!Reflexive R} l x :
  StronglySorted R l → x ∈ l → ∃ y, y ∈ dedup_by_key key l ∧ key y = key x ∧ R y x.
Proof.
  induction 1 as [|z l Hs IH Hz]; [by intros ?%elem_of_nil |]. cbn. intros [-> | Hx]%elem_of_cons.
  - exists z. destruct (dedup_by_key key l) as [|y l']; [set_solver |]. case_bool_decide; set_solver.
  - rewrite Forall_forall in Hz. destruct (IH Hx) as (y & Hy & Hk & HR).
    destruct (dedup_by_key key l) as [|w l'] eqn:E; [by apply elem_of_nil in Hy |].
    case_bool_decide as Hwz; [| set_solver].
    apply elem_of_cons in Hy as [-> | Hy]; [exists z | exists y; set_solver].
    split; [set_solver |]. split; [congruence |]. by apply Hz.
Qed.

Lemma dedup_twice x l : dedup_by_key key (x :: x :: l) = dedup_by_key key (x :: l).
Proof.
  cbn. destruct (dedup_by_key key l) as [|y l']; [by rewrite bool_decide_eq_true_2 |].
  case_bool_decide; by rewrite bool_decide_eq_true_2.
Qed.
End dedup.

Lemma score_before_total a b : score_before a b = false → score_before b a = true.
Proof. unfold score_before. rewrite Z.leb_gt, Z.leb_le. lia. Qed.

Lemma score_before_trans : Transitive (λ a b, score_before a b = true).
Proof. intros a b c. unfold score_before. rewrite !Z.leb_le. lia. Qed.

(** An address that may be offered. *)
Definition usable (adapters : list Adapter) (name : string) (a : Ipv4Addr) : Prop :=
  (name, a) ∈ adapter_ipv4s adapters ∧ 100 ≤ address_score name a.

Lemma adapter_ipv4s_spec adapters name a :
  (name, a) ∈ adapter_ipv4s adapters ↔
  ∃ adapter, adapter ∈ adapters ∧ ada_up adapter = true ∧ Some a ∈ ada_addresses adapter ∧
    name = default "" (ada_name adapter) ∧
    is_loopback a = false ∧ is_unspecified a = false ∧ is_link_local a = false.
Proof.
  unfold adapter_ipv4s. rewrite list_elem_of_bind. split.
  - intros (ad & Hin & Had). destruct (ada_up ad) eqn:Eu; [| by apply elem_of_nil in Hin].
    apply list_elem_of_bind in Hin as ([b|] & Hb & Hbin); [| by apply elem_of_nil in Hb].
    destruct (_ && _) eqn:E; [| by apply elem_of_nil in Hb].
    apply list_elem_of_singleton in Hb as [= -> ->]. bool_to_prop. bool_to_prop. eauto 10.
  - intros (ad & Had & Hu & Ha & -> & Hl & Hun & Hll). exists ad. split; [| done].
    rewrite Hu. apply list_elem_of_bind. exists (Some a). rewrite Hl, Hun, Hll. split; [by left | done].
Qed.

Lemma sublist_StronglySorted {A} (R : relation A) l k : l `sublist_of` k → StronglySorted R k → StronglySorted R l.
Proof.
  induction 1 as [|x l k Hl IH|x l k Hl IH]; [done | |]; intros [Hs Hx]%StronglySorted_inv; [| auto].
  constructor; [auto |]. rewrite Forall_forall in *. intros y Hy. apply Hx. by eapply elem_of_sublist.
Qed.

(** The candidates with their adapters, before they are cut to six. *)
Definition ranked (adapters : list Adapter) : list (string * Ipv4Addr) :=
  dedup_by_key snd (stable_sort score_before
    (filter (λ '(name, address), 100 ≤ address_score name address) (adapter_ipv4s adapters))).

Lemma ranked_spec adapters :
  StronglySorted (λ a b, score_before a b = true) (ranked adapters) ∧
  (∀ c, c ∈ ranked adapters → usable adapters c.1 c.2) ∧
  (∀ name a, usable adapters name a → ∃ c, c ∈ ranked adapters ∧ c.2 = a ∧ score_before c (name, a) = true).
Proof.
  unfold ranked, usable. set (l := filter _ _).
  assert (∀ c, c ∈ stable_sort score_before l ↔ c ∈ adapter_ipv4s adapters ∧ 100 ≤ address_score c.1 c.2) as Hin.
  { intros [name a]. rewrite elem_of_stable_sort. unfold l. rewrite list_elem_of_filter. naive_solver. }
  assert (StronglySorted (λ a b, score_before a b = true) (stable_sort score_before l)) as Hs
    by apply (Sorted_StronglySorted score_before_trans), stable_sort_sorted, score_before_total.
  split_and!.
  - eapply sublist_StronglySorted; [apply dedup_sublist | exact Hs].
  - intros [name a] Hc. apply Hin. eapply elem_of_sublist; [exact Hc | apply dedup_sublist].
  - intros name a Ha.
    assert (Reflexive (λ a b, score_before a b = true)) as Hrefl by (intros c; apply Z.leb_refl).
    destruct (dedup_keeps_keys snd (λ a b, score_before a b = true) (stable_sort score_before l) (name, a) Hs)
      as (c & ? & ? & ?); [by apply Hin | by exists c].
Qed.

(** The addresses that are offered. At most six, each of an adapter that is up and
    with a score of a hundred or more; when there are less than six no such address
    is missing, and one that is missing has no better score than those offered. *)
Theorem candidates_are_the_best adapters :
  let cs := candidate_ipv4s adapters in
  (length cs ≤ 6)%nat
  ∧ (∀ a, a ∈ cs → ∃ name, usable adapters name a)
  ∧ (∀ name b, usable adapters name b → b ∉ cs →
       length cs = 6%nat ∧
       ∀ a, a ∈ cs → ∃ name', usable adapters name' a ∧ address_score name b ≤ address_score name' a).
Proof.
  cbn zeta. destruct (ranked_spec adapters) as (Hs & Hin & Hall).
  assert (candidate_ipv4s adapters = (take 6 (ranked adapters)).*2) as ->.
  { unfold candidate_ipv4s. by rewrite fmap_take. }
  revert Hs Hin Hall. generalize (ranked adapters). intros l Hs Hin Hall.
  rewrite length_fmap, length_take. split; [lia |]. split.
  - intros a (c & -> & Hc)%list_elem_of_fmap. exists c.1. apply Hin.
    apply (elem_of_sublist (take 6 l) l c); [done | apply sublist_take].
  - intros name b Hb Hnot. destruct (Hall name b Hb) as (c & Hc & Hcb & Hsc).
    rewrite <- (take_drop 6 l) in Hc. apply elem_of_app in Hc as [Hc | Hc].
    { exfalso. apply Hnot. rewrite list_elem_of_fmap. by exists c. }
    split.
    { destruct (decide (6 ≤ length l)%nat); [lia |]. rewrite drop_ge in Hc by lia. by apply elem_of_nil in Hc. }
    intros a (d & -> & Hd)%list_elem_of_fmap. exists d.1. split.
    { apply Hin, (elem_of_sublist (take 6 l) l d); [done | apply sublist_take]. }
    assert (score_before d c = true) as Hdc.
    { clear -Hs Hc Hd. revert Hc Hd. generalize 6%nat. intros n. revert n.
      induction Hs as [|x l Hs IH Hx]; intros [|n]; cbn; try (by intros _ ?%elem_of_nil).
      rewrite Forall_forall in Hx. intros Hc [-> | Hd]%elem_of_cons; [| by eapply IH].
      apply Hx. apply (elem_of_sublist (drop n l) l c); [done | apply sublist_drop]. }
    revert Hdc Hsc. unfold score_before. cbn. rewrite !Z.leb_le. lia.
Qed.

(** When the code is for the address that is preferred, its list of endpoints is the
    list of candidates, the preferred one first and not twice. *)
Lemma endpoints_of_preferred adapters a cs :
  candidate_ipv4s adapters = a :: cs →
  endpoint_urls adapters (Some (endpoint_url (ip_text (preferred_ipv4 adapters))))
  = endpoint_urls adapters None.
Proof.
  intros Hcs. unfold endpoint_urls, preferred_ipv4. rewrite Hcs. cbn [head default fmap list_fmap option_list app].
  apply dedup_twice.
Qed.

Definition sample_adapters : list Adapter :=
  [mkAdapter true (Some "vEthernet (WSL)") [Some (mkIpv4 172 20 0 1)];
   mkAdapter true (Some "Wi-Fi") [None; Some (mkIpv4 192 168 1 20); Some (mkIpv4 169 254 3 3)];
   mkAdapter true (Some "Tailscale") [Some (mkIpv4 100 0 0 13)];
   mkAdapter false (Some "Ethernet") [Some (mkIpv4 192 168 1 21)];
   mkAdapter true (Some "Loopback") [Some LOCALHOST]].

Example sample_candidates : candidate_ipv4s sample_adapters = [mkIpv4 100 0 0 13; mkIpv4 192 168 1 20].
Proof. vm_compute. reflexivity. Qed.
Example sample_endpoint : endpoint_url (ip_text (preferred_ipv4 sample_adapters)) = "wss://100.0.0.13:32187/v1/sync".
Proof. vm_compute. reflexivity. Qed.

(** Only neighbours are compared: an address that two adapters have with different
    scores is offered twice when another comes between. *)
Example same_address_twice :
  candidate_ipv4s [mkAdapter true (Some "Wi-Fi") [Some (mkIpv4 10 0 0 2)];
                   mkAdapter true (Some "vpn") [Some (mkIpv4 10 0 0 3); Some (mkIpv4 10 0 0 2)]]
  = [mkIpv4 10 0 0 2; mkIpv4 10 0 0 3; mkIpv4 10 0 0 2].
Proof. vm_compute. reflexivity. Qed.
