(* ===== verification/AppActions.v ===== *)
(** * What the window asks of the app

    The rest of [flowtype-app/src/main.rs AppState]: the queues of file offers,
    sending and cancelling transfers, pairing and unpairing, the name of the
    computer, the language. The parts of the state have files of their own; here
    they come together. *)

From S2P Require Import Prelude Text Protocol FileNames FileCore Disk Store Targets Coordinator Outbound AppState Pairing Addresses.
Local Open Scope string_scope.
Local Open Scope list_scope.
Local Open Scope Z_scope.

(** The queue of a connection to which files can be offered: a bounded channel, and
    whether its receiver is gone. *)
Record OfferChannel := mkOfferChannel { och_queue : list FileOffer; och_closed : bool }.

(** Offers a channel holds at most ([channel(4)]). *)
Definition OFFER_CHANNEL_CAPACITY : Z := 4.

(** [app/main.rs AppState] Its parts: what the connections share, the phones and the
    pairing token, the file transfers, and the queues of offers. *)
Record App := mkApp {
  ap_state : AppState;
  ap_pairing : PairingState;
  ap_transfers : Coordinator;
  ap_offers : gmap Z OfferChannel;
}.

Definition on_state (f : AppState → AppState) (ap : App) : App :=
  mkApp (f (ap_state ap)) (ap_pairing ap) (ap_transfers ap) (ap_offers ap).
Definition set_transfers (c : Coordinator) (ap : App) : App :=
  mkApp (ap_state ap) (ap_pairing ap) c (ap_offers ap).
Definition on_offers (f : gmap Z OfferChannel → gmap Z OfferChannel) (ap : App) : App :=
  mkApp (ap_state ap) (ap_pairing ap) (ap_transfers ap) (f (ap_offers ap)).

(** The phones that are paired; the data connections look into the same store. *)
Definition paired_ids (s : PairingState) : gset string := dom (phones (paired_phones s)).
Definition set_pairing (s : PairingState) (ap : App) : App :=
  mkApp (ap_state ap) s
    (on_host (λ h, mkHost (ho_unix_time h) (ho_instant h) (ho_free h) (ho_random h) (ho_uuids h) (ho_modified h)
                     (paired_ids s) (ho_starting h)) (ap_transfers ap)) (ap_offers ap).

(** [Sender::try_send]. *)
Definition try_send (offer : FileOffer) (ch : OfferChannel) : option OfferChannel :=
  if och_closed ch || (OFFER_CHANNEL_CAPACITY <=? zlength (och_queue ch)) then None
  else Some (mkOfferChannel (och_queue ch ++ [offer]) false).

(** ** The queues of a connection *)

(** [app/main.rs AppState::register_file_offer_channel] *)
Definition register_file_offer_channel (connection_id : Z) (ap : App) : App :=
  on_offers <[connection_id := mkOfferChannel [] false]> ap.

(** [app/main.rs AppState::clear_file_offer_channel] *)
Definition clear_file_offer_channel (connection_id : Z) (ap : App) : App := on_offers (delete connection_id) ap.

(** [let _ = sender.try_send(offer)]. *)
Definition push_offer (connection_id : Z) (offer : FileOffer) (ap : App) : App :=
  on_offers (alter (λ ch, default ch (try_send offer ch)) connection_id) ap.

Section actions.
Context `{CoordinatorEnv} (english post_ok : bool).

(** [app/network_server.rs:140-145 serve_connection] A connection that can take files
    first gets the offers that wait for its phone. *)
Definition connect_offers (connection_id : Z) (phone_id : string) (ap : App) : App :=
  let ap := register_file_offer_channel connection_id ap in
  let '(offers, c) := pending_outbound_offers phone_id (ap_transfers ap) in
  let ap := set_transfers c ap in
  match offers with
  | Ok offers => foldl (λ ap offer, push_offer connection_id offer ap) ap offers
  | Err _ => ap
  end.

(** The newest connection of a phone that is no probe. *)
Definition newest_of_phone (phone_id : string) (s : AppState) : option Z :=
  fst <$> newest (filter (λ p, oc_phone_id p.2 = phone_id ∧ oc_is_probe p.2 = false) (online_connections s)).

(** [app/main.rs AppState::send_files_to_phone] [fuel] bounds the depth of the
    directories sent. *)
Definition send_files_to_phone (fuel : nat) (phone_id : string) (paths : list path) (ap : App)
    : result string unit * App :=
  match newest_of_phone phone_id (ap_state ap) with
  | None => (Err "phone is not connected", ap)
  | Some connection_id =>
    match ap_offers ap !! connection_id with
    | None => (Err "phone connection does not support file transfer", ap)
    | Some _ =>
      match create_outbound_offer fuel phone_id paths (ap_transfers ap) with
      | (Err e, c) => (Err e, set_transfers c ap)
      | (Ok offer, c) =>
        let ap := set_transfers c ap in
        match ap_offers ap !! connection_id ≫= try_send offer with
        | Some ch => (Ok tt, on_offers <[connection_id := ch]> ap)
        | None => (Err "phone file queue is busy", ap)
        end
      end
    end
  end.

(** [app/main.rs AppState::send_files_to_connected_phone] *)
Definition send_files_to_connected_phone (fuel : nat) (paths : list path) (ap : App) : result string unit * App :=
  match connected_phone_id (ap_state ap) with
  | None => (Err "phone is not connected", ap)
  | Some phone_id => send_files_to_phone fuel phone_id paths ap
  end.

Definition file_status (text : string) (error : option string) (status : RuntimeStatus) : RuntimeStatus :=
  mkStatus text (connected_phone status) (target_shown status) error.

(** [app/main.rs:866-872 AppState::queue_files_to_connected_phone] Whether the thread is
    started. *)
Definition queue_files_to_connected_phone (paths : list path) (ap : App) : result string unit :=
  _ ← guard_err (bool_decide (paths = [])) "no files selected";
  guard_err (bool_decide (connected_phone_id (ap_state ap) = None)) "phone is not connected".

(** [app/main.rs:874-893 AppState::queue_files_to_connected_phone] The thread; [meanwhile] is
    what other threads do before it sends. *)
Definition send_files_thread (fuel : nat) (paths : list path) (meanwhile : App → App) (ap : App) : App :=
  let ap := on_state (update_status post_ok (file_status (tr english "正在准备文件" "Preparing files") None)) ap in
  let '(r, ap) := send_files_to_connected_phone fuel paths (meanwhile ap) in
  match r with
  | Ok _ => on_state (update_status post_ok (file_status (tr english "等待手机确认接收" "Waiting for phone approval") None)) ap
  | Err error =>
    on_state (update_status post_ok (file_status (tr english "文件发送失败" "File transfer failed") (Some error))) ap
  end.

(** [app/main.rs AppState::cancel_file_transfer] *)
Definition cancel_file_transfer (batch_id : string) (ap : App) : result string unit * App :=
  match connected_phone_id (ap_state ap) with
  | None => (Err "phone is not connected", ap)
  | Some phone_id =>
    match cancel batch_id phone_id (ap_transfers ap) with
    | (Err e, c) => (Err e, set_transfers c ap)
    | (Ok _, c) => (Ok tt, on_state (notify_ui post_ok) (set_transfers c ap))
    end
  end.

(** [app/main.rs AppState::set_file_receive_root] [saved] is what writing the setting
    gives. *)
Definition set_file_receive_root (saved : result string unit) (p : path) (ap : App) : result string unit * App :=
  match saved with
  | Err e => (Err e, ap)
  | Ok _ => (Ok tt, set_transfers (set_receive_root p (ap_transfers ap)) ap)
  end.

(** ** Pairing *)

Context (payload_to_vec : PairingPayload → option (list Z)) (spki_sha256 : string).

(** [app/main.rs AppState::begin_pairing] The token is random; the code shows it. *)
Definition app_begin_pairing (token host : string) (adapters : list Adapter) (ap : App) : result string string * App :=
  let ap := set_pairing (begin_pairing token (ap_pairing ap)) ap in
  (pairing_uri payload_to_vec base64_url (pc_id (ap_state ap)) spki_sha256 (pc_name (ap_state ap)) host token adapters, ap).

(** [app/main.rs AppState::current_pairing_uri] *)
Definition current_pairing_uri (host : string) (adapters : list Adapter) (ap : App) : option string :=
  token ← pairing_token (ap_pairing ap);
  match pairing_uri payload_to_vec base64_url (pc_id (ap_state ap)) spki_sha256 (pc_name (ap_state ap)) host token adapters with
  | Ok uri => Some uri
  | Err _ => None
  end.

(** [app/main.rs AppState::unpair_phone] *)
Definition unpair_phone (write_ok : bool) (phone_id : string) (ap : App) : result string unit * App :=
  match remove_phone write_ok phone_id (paired_phones (ap_pairing ap)) with
  | (Err e, _) => (Err e, ap)
  | (Ok _, store) =>
    let ap := set_pairing (mkPairing (pairing_token (ap_pairing ap)) store) ap in
    let ap := set_transfers (revoke_phone phone_id (ap_transfers ap)).2 ap in
    (Ok tt, on_state (notify_ui post_ok) ap)
  end.

(** ** Settings of the window *)

(** [app/main.rs AppState::rename_computer] [saved] is what saving the name gives. *)
Definition rename_computer (saved : result string unit) (name : string) (ap : App) : result string unit * App :=
  match saved with
  | Err e => (Err e, ap)
  | Ok _ => (Ok tt, on_state (notify_ui post_ok) (on_state (set_pc_name (of_chars (trim (chars name)))) ap))
  end.

(** [app/main.rs AppState::repair_injector] [repaired] is what connecting gives. *)
Definition repair_injector (repaired : result string unit) (ap : App) : result string unit * App :=
  match repaired with
  | Err e => (Err e, ap)
  | Ok _ =>
    (Ok tt, on_state (update_status post_ok (λ status,
       mkStatus (if bool_decide (connected_phone status = None) then waiting_summary english else summary status)
         (connected_phone status) (target_shown status) None)) ap)
  end.

(** [app/main.rs AppState::language_changed] The updater's part is its
    [refresh_language]. *)
Definition language_changed (ap : App) : App :=
  on_state (λ s, notify_ui post_ok (set_status (
    mkStatus (match connected_phone (runtime_status s) with
              | Some phone => connected_summary english phone
              | None => waiting_summary english
              end) (connected_phone (runtime_status s)) (target_shown (runtime_status s)) None) s)) ap.

(** [app/main.rs AppState::update_install_blocked] *)
Definition update_install_blocked (ap : App) : bool := has_active_input (runtime_status (ap_state ap)).
End actions.
