(* ===== verification/AppActionsSafety.v ===== *)
(** * What the parts of the app guarantee together

    Unpairing locks a phone out of every part; an offer of files reaches the newest
    connection of its phone, at once or when the phone connects. *)

From S2P Require Import Prelude Text Protocol FileNames FileCore Disk DiskLogic Store SampleStore StoreSafety StoreBatches Targets Coordinator Outbound DataServer SampleCoordinator DataServerLogic CoordinatorSafety ActiveBatch AppState Pairing Addresses AppActions.
Local Open Scope string_scope.
Local Open Scope list_scope.
Local Open Scope Z_scope.

(** The data connections look into the store of the phones. *)
Definition same_phones (ap : App) : Prop := ho_paired (co_host (ap_transfers ap)) = paired_ids (ap_pairing ap).

Section unpairing.
Context `{CoordinatorEnv} (post_ok : bool).
Context {Key Signature : Type} (base64_decode : string → option (list Z))
  (key_from_der : list Z → option Key) (signature_from_der : list Z → option Signature)
  (ecdsa_verify : Key → list Z → Signature → bool) (pc_id : string).
Notation authenticate := (authenticate_phone base64_decode key_from_der signature_from_der ecdsa_verify pc_id).

(** A phone that is not stored is not recognised. *)
Lemma unknown_phone_refused write_ok meanwhile now auth nonce s :
  public_key (paired_phones s) (am_phone_id auth) = None → am_message_type auth ≠ "pair" →
  ∃ e, authenticate write_ok meanwhile now auth nonce s = (Err e, s).
Proof.
  intros Hk Hp. unfold authenticate_phone. rewrite Hk. destruct (negb _); [by eexists |].
  rewrite (bool_decide_false (am_message_type auth = "pair")) by done. case_bool_decide; by eexists.
Qed.

Lemma wrong_token_refused write_ok meanwhile now auth nonce s :
  am_message_type auth = "pair" → (∀ t, am_pairing_token auth = Some t → pairing_token s ≠ Some t) →
  ∃ e, authenticate write_ok meanwhile now auth nonce s = (Err e, s).
Proof.
  intros Hp Ht. unfold authenticate_phone. rewrite Hp, bool_decide_true by done. destruct (negb _); [by eexists |].
  destruct (am_pairing_token auth) as [t|]; [| by eexists]. rewrite bool_decide_false by auto. by eexists.
Qed.

(** C10. A phone that is unpaired is locked out of everything at once. When unpairing
    succeeds (on a disk that may fail at any point), the phone can neither log in nor,
    without the token on offer, pair again; no bearer is entitled to a batch of it;
    the data connections do not find it among the phones that are paired; its
    unfinished batches are canceled or stay, all others read back as before; and
    every other phone keeps its key. When it fails nothing has changed. *)
Theorem unpaired_phone_is_locked_out write_ok phone ap r ap' :
  d_halted (co_disk (ap_transfers ap)) = false → same_phones ap →
  unpair_phone post_ok write_ok phone ap = (r, ap') →
  same_phones ap' ∧
  (r ≠ Ok tt → ap' = ap) ∧
  (r = Ok tt →
    (∀ ok meanwhile now auth nonce, am_phone_id auth = phone →
       (am_message_type auth = "pair" → ∀ t, am_pairing_token auth = Some t → pairing_token (ap_pairing ap) ≠ Some t) →
       ∃ e, authenticate ok meanwhile now auth nonce (ap_pairing ap') = (Err e, ap_pairing ap')) ∧
    phone ∉ ho_paired (co_host (ap_transfers ap')) ∧
    (∀ batch_id bearer, entitled batch_id bearer (ap_transfers ap') →
       ∃ batch, batch_on_disk batch_id batch (d_files (co_disk (ap_transfers ap'))) ∧ br_phone_id batch ≠ phone) ∧
    (∀ batch_id batch, batch_on_disk batch_id batch (d_files (co_disk (ap_transfers ap))) → br_phone_id batch ≠ phone →
       batch_on_disk batch_id batch (d_files (co_disk (ap_transfers ap')))) ∧
    ∀ id, id ≠ phone → public_key (paired_phones (ap_pairing ap')) id = public_key (paired_phones (ap_pairing ap)) id).
Proof.
  intros Hh Hsame. unfold unpair_phone, remove_phone, update_store.
  destruct write_ok; [| intros [= <- <-]; by split_and!]. intros [= <- <-].
  set (store := mkPhoneStore _ _). set (c := on_host _ _).
  destruct (revoke_phone_post phone c Hh) as (Ht & Hc & Hhost). cbn.
  assert (∀ id, public_key store id = public_key_spki <$> (delete phone (phones (paired_phones (ap_pairing ap)))) !! id)
    as Hkey by done.
  split; [by unfold same_phones; cbn; rewrite Hhost |]. split; [done |]. intros _. split_and!.
  - intros ok meanwhile now auth nonce Hid Hpair. destruct (decide (am_message_type auth = "pair")) as [Hp|Hp].
    + by apply wrong_token_refused; [| auto].
    + apply unknown_phone_refused; [| done]. cbn. by rewrite Hkey, Hid, lookup_delete_eq.
  - rewrite Hhost. cbn. unfold paired_ids. cbn. set_solver.
  - intros batch_id bearer. by eapply entitled_not_revoked.
  - intros batch_id batch Hb Hne. destruct (proj1 Hc _ _ Hb) as [? | [? _]]; done.
  - intros id Hid. rewrite Hkey. unfold public_key. by rewrite lookup_delete_ne.
Qed.

(** Finding: what is connected stays connected. Unpairing changes neither the
    connections, nor who owns the input, nor the queues. *)
Theorem unpairing_leaves_connections write_ok phone ap :
  let ap' := (unpair_phone post_ok write_ok phone ap).2 in
  online_connections (ap_state ap') = online_connections (ap_state ap) ∧
  active_connection (ap_state ap') = active_connection (ap_state ap) ∧
  switch_channels (ap_state ap') = switch_channels (ap_state ap) ∧ ap_offers ap' = ap_offers ap.
Proof.
  unfold unpair_phone, remove_phone, update_store. destruct write_ok; [| done]. cbn. unfold notify_ui.
  by repeat case_match.
Qed.
End unpairing.

(** ** The offers that wait *)

Section offers.
Context `{CoordinatorEnv}.

Definition listed_dirs (entries : list (string * bool)) : list string :=
  omap (λ e : string * bool, if e.2 then Some e.1 else None) entries.

Lemma load_batches_distinct entries d l d' :
  quiet d → load_batches entries d = (Ok l, d') →
  (∀ b, b ∈ l → batch_on_disk (br_batch_id b) b (d_files d) ∧ br_batch_id b ∈ listed_dirs entries)
  ∧ (NoDup (listed_dirs entries) → NoDup (br_batch_id <$> l)).
Proof.
  intros Hq. revert l d'. induction entries as [|[id []] entries IH]; intros l d'; cbn [load_batches].
  - intros [= <- <-]. split; [by intros b ?%elem_of_nil | by intros _; constructor].
  - intros (o & d1 & Hload & (l1 & d2 & Hl1 & Hret)%sr_bind_inv)%sr_bind_inv.
    injection Hret as <- <-. unfold attempt in Hload.
    destruct (load_batch id d) as [r d0] eqn:Hr.
    destruct (load_batch_quiet_inv _ _ _ _ Hq Hr) as [-> Hb0].
    assert (d1 = d ∧ ∀ b, o = Some b → batch_on_disk id b (d_files d)) as [-> Ho].
    { destruct r as [b|e]; [injection Hload as <- <-; split; [done |]; by intros b' [= <-] |].
      destruct Hq as [_ Hh]. rewrite Hh in Hload. by injection Hload as <- <-. }
    destruct (IH _ _ Hl1) as [Hin Hnd]. cbn. destruct o as [b|]; cbn.
    + specialize (Ho b eq_refl). pose proof Ho as (_ & _ & _ & _ & Hid). split.
      * intros b' [-> | Hb']%elem_of_cons; [rewrite Hid; split; [done | by left] |].
        destruct (Hin _ Hb'). split; [done | by right].
      * intros [Hnot Hn]%NoDup_cons. constructor; [| auto]. rewrite Hid. intros (b' & -> & Hb')%list_elem_of_fmap.
        by apply Hnot, Hin.
    + split; [| by intros [_ Hn]%NoDup_cons; auto]. intros b' Hb'. destruct (Hin _ Hb'). split; [done | by right].
  - intros Hl. by apply IH in Hl.
Qed.

Lemma batches_distinct d l d' :
  quiet d → batches d = (Ok l, d') →
  NoDup (br_batch_id <$> l) ∧ ∀ b, b ∈ l → batch_on_disk (br_batch_id b) b (d_files d).
Proof.
  intros Hq. unfold batches. intros (entries & d1 & Hread & Hrun)%sr_bind_inv.
  assert (d1 = d ∧ NoDup (listed_dirs entries)) as [-> Hnd].
  { revert Hread. unfold read_dir, io_read, io_call. destruct Hq as [Hsch Hh]. rewrite Hh, Hsch.
    destruct (is_dir store_root d); [| done]. intros [= <- <-]. split; [done |].
    unfold listed_dirs. rewrite omap_app.
    assert (∀ (A : Type) (f : A → string) (b : bool) (l : list A),
      omap (λ e : string * bool, if e.2 then Some e.1 else None) ((λ q, (f q, b)) <$> l) = if b then f <$> l else []) as Hmap.
    { intros A f b k. induction k as [|x k IH]; [by destruct b |]. destruct b; cbn in *; by rewrite IH. }
    rewrite !Hmap, app_nil_r. apply NoDup_fmap_2_strong; [| apply NoDup_filter, NoDup_elements].
    intros p q [Hp _]%list_elem_of_filter [Hpq _]%list_elem_of_filter.
    destruct p as [|x p _] using rev_ind; [done |]. destruct q as [|y q _] using rev_ind; [done |].
    rewrite parent_snoc in Hp, Hpq. rewrite !last_snoc. cbn. intros ->. congruence. }
  apply sr_bind_inv in Hrun as (l1 & d2 & Hl & Hret). injection Hret as <- <-.
  destruct (load_batches_distinct _ _ _ _ Hq Hl) as [Hin Hn]. split.
  - rewrite (stable_sort_perm batch_before l1). auto.
  - intros b Hb%elem_of_stable_sort. by apply Hin.
Qed.

Context (phone : string).

Definition waits (b : BatchRecord) : Prop :=
  br_phone_id b = phone ∧ br_direction b = ComputerToPhone ∧ is_terminal (br_state b) = false.

Lemma batches_answer d : settled d → is_dir store_root d = true → ∃ l, batches d = (Ok l, d).
Proof.
  intros [Hq _] Hroot. unfold batches.
  assert (∃ entries, read_dir store_root d = (Ok entries, d)) as [entries Hread].
  { unfold read_dir, io_read, io_call. destruct Hq as [Hsch Hh]. rewrite Hh, Hsch, Hroot. by eexists. }
  erewrite sr_bind_Ok by exact Hread. clear Hread Hroot.
  assert (∃ l, load_batches entries d = (Ok l, d)) as [l Hl]; [| erewrite sr_bind_Ok by exact Hl; by eexists].
  induction entries as [|[id []] entries [l IH]]; cbn [load_batches]; [by eexists | | by exists l].
  assert (∃ o, attempt (load_batch id) d = (Ok o, d)) as [o Ho].
  { unfold attempt. destruct (load_batch id d) as [[b|e] d'] eqn:Hr;
      destruct (load_batch_quiet_inv _ _ _ _ Hq Hr) as [-> _]; [by eexists |].
    rewrite (proj2 Hq). by eexists. }
  erewrite sr_bind_Ok by exact Ho. erewrite sr_bind_Ok by exact IH. by eexists.
Qed.

(** Of one phone there is at most one unfinished batch to list. *)
Lemma waiting_batches d :
  settled d → one_active (d_files d) → is_dir store_root d = true →
  ∃ l, (∀ b, b ∈ l ↔ batch_on_disk (br_batch_id b) b (d_files d) ∧ waits b) ∧ (length l ≤ 1)%nat ∧
  ∀ A (f : list BatchRecord → co A) s, co_disk s = d →
    (batches ← disk_ok recoverable_batches;
     f (filter (λ b, br_phone_id b = phone ∧ br_direction b = ComputerToPhone) (default [] batches))) s = f l s.
Proof.
  intros Hs Hone Hroot. destruct (batches_answer d Hs Hroot) as [l0 Hl0].
  destruct (batches_complete _ _ _ Hs Hl0) as [_ Hall]. destruct (batches_distinct _ _ _ (proj1 Hs) Hl0) as [Hnd Hdisk].
  set (l := filter (λ b, br_phone_id b = phone ∧ br_direction b = ComputerToPhone)
              (filter (λ b, is_terminal (br_state b) = false) l0)).
  assert (∀ b, b ∈ l ↔ batch_on_disk (br_batch_id b) b (d_files d) ∧ waits b) as Hin.
  { intros b. unfold l, waits. rewrite !list_elem_of_filter. split; [naive_solver |]. naive_solver eauto. }
  exists l. split; [exact Hin |]. split.
  - assert (NoDup (br_batch_id <$> l)) as Hn.
    { eapply sublist_NoDup; [exact Hnd |]. apply fmap_sublist. etrans; apply sublist_filter. }
    destruct l as [|b1 [|b2 l]]; cbn; [lia..|]. exfalso.
    destruct (proj1 (Hin b1)) as (Hb1 & Hp1 & _ & Ht1); [by left |].
    destruct (proj1 (Hin b2)) as (Hb2 & Hp2 & _ & Ht2); [by right; left |].
    cbn in Hn. apply NoDup_cons in Hn as [Hn _]. apply Hn, elem_of_cons. left.
    apply (Hone phone); [by exists b1 | by exists b2].
  - intros A f s Hd. unfold disk_ok, disk_result, recoverable_batches, mbind, sr_bind. rewrite Hd, Hl0. cbn.
    f_equal. destruct s; cbn in *. by subst.
Qed.

(** The names that are collected from a manifest. *)
Definition add_root (roots : list string) (entry : ManifestEntry) : list string :=
  if negb (str_is_empty (root_of entry)) && negb (bool_decide (root_of entry ∈ roots)) && (zlength roots <? 8)
  then roots ++ [root_of entry] else roots.

Lemma collect_roots entries roots d : visit_all collect_root entries roots d = (Ok (foldl add_root roots entries), d).
Proof.
  revert roots. induction entries as [|e entries IH]; intros roots; cbn [visit_all foldl]; [done |].
  erewrite sr_bind_Ok by done. apply IH.
Qed.

Lemma roots_few entries : zlength (foldl add_root [] entries) ≤ 8.
Proof.
  assert (∀ l roots, zlength roots ≤ 8 → zlength (foldl add_root roots l) ≤ 8) as H8; [| by apply H8].
  induction l as [|e l IH]; intros roots Hr; cbn [foldl]; [done |]. apply IH. unfold add_root.
  destruct (_ && _) eqn:E; [| done]. bool_to_prop. bool_to_prop. rewrite zlength_app. unfold zlength in *. cbn. lia.
Qed.

(** The offer of a batch that waits. *)
Definition offer_of (b : BatchRecord) (entries : list ManifestEntry) : FileOffer :=
  mkFileOffer PROTOCOL_VERSION FILE_TRANSFER_VERSION (br_phone_id b) (br_batch_id b) (br_direction b)
    (br_file_count b) (br_directory_count b) (br_total_bytes b) (foldl add_root [] entries).

(** Offers survive a connection. Whenever a phone connects that can take files,
    the batch that was prepared for it and not finished, if there is one, is in the
    queue of the new connection, offered with the counts of its record and at most
    eight names of its manifest; nothing else is in the queue, and the disk and the
    tickets are as they were. *)
Theorem waiting_offer_is_queued connection_id ap :
  let d := co_disk (ap_transfers ap) in
  settled d → one_active (d_files d) → is_dir store_root d = true →
  (∀ b, batch_on_disk (br_batch_id b) b (d_files d) → waits b →
     ∃ entries ls progress, readable (br_batch_id b) entries ls progress d) →
  let ap' := connect_offers connection_id phone ap in
  ap_transfers ap' = ap_transfers ap ∧
  ∃ queue, ap_offers ap' !! connection_id = Some (mkOfferChannel queue false) ∧
    (∀ b, batch_on_disk (br_batch_id b) b (d_files d) → waits b →
       ∃ entries ls progress, readable (br_batch_id b) entries ls progress d ∧ queue = [offer_of b entries]) ∧
    ((¬ ∃ b, batch_on_disk (br_batch_id b) b (d_files d) ∧ waits b) → queue = []).
Proof.
  intros d Hs Hone Hroot Hread. destruct (waiting_batches d Hs Hone Hroot) as (l & Hin & Hlen & Hrun).
  unfold connect_offers, pending_outbound_offers. cbn zeta. rewrite Hrun by done.
  destruct l as [|b [|]]; [| | cbn in Hlen; lia].
  - cbn. split; [done |]. exists []. split; [apply lookup_insert_eq |]. split; [| done].
    intros b Hb Hw. apply (conj Hb), Hin, elem_of_nil in Hw as [].
  - destruct (proj1 (Hin b)) as [Hb Hw]; [by left |]. destruct (Hread b Hb Hw) as (entries & ls & progress & Hr).
    assert (offers_of [b] (ap_transfers ap) = (Ok [offer_of b entries], ap_transfers ap)) as Hoffers.
    { cbn [offers_of]. unfold disk_ok, disk_result, mbind, sr_bind.
      pose proof Hb as (_ & _ & _ & Hv & _). fold d.
      rewrite (for_each_committed _ _ _ _ (batch_valid_id b Hv) collect_root [] _ Hr). unfold mbind, sr_bind.
      rewrite collect_roots. cbn. f_equal. subst d. by destruct (ap_transfers ap). }
    cbn [ap_transfers register_file_offer_channel on_offers]. rewrite Hoffers. cbn.
    split; [done |]. exists [offer_of b entries]. rewrite lookup_alter_eq, lookup_insert_eq. split; [done |]. split.
    + intros b' Hb' Hw'. assert (b' = b) as -> by (by apply list_elem_of_singleton, Hin).
      by exists entries, ls, progress.
    + intros Hnone. by destruct Hnone; exists b.
Qed.
End offers.

(** ** On the sample *)

Definition sample_phone : PairedPhone := mkPhone "Phone" "key" 1 (Some 2).
Definition sample_app (d : disk) : App :=
  mkApp (mkAppState "pc" "PC" None {[ 3 := mkOnlineConnection "phone-1" "Phone" false ]} ∅ None
           (mkStatus "Connected: Phone" (Some "Phone") None None) 0 false 0 4)
    (mkPairing None (mkPhoneStore {[ "phone-1" := sample_phone ]} {[ "phone-1" := sample_phone ]}))
    (sample_coordinator d) ∅.

Lemma sample_outbound_files p f :
  d_files sample_outbound_disk !! p = Some f → ∃ name, p = sample_directory_path ++ [name].
Proof.
  unfold sample_outbound_disk, sample_full_disk, sample_disk_with, with_files. cbn [d_files].
  intros [[<- _] | [_ Hf]]%lookup_insert_Some; [by eexists |].
  apply elem_of_list_to_map_2 in Hf. rewrite !elem_of_cons, elem_of_nil in Hf.
  repeat destruct Hf as [[= -> _] | Hf]; [eexists; unfold sample_directory_path; cbn; reflexivity.. | done].
Qed.

Lemma sample_outbound_settled : settled sample_outbound_disk.
Proof.
  split; [done |]. intros p q [f Hf] Hq. destruct (sample_outbound_files p f Hf) as [name ->].
  rewrite parent_snoc in Hq. injection Hq as <-. cbn. set_solver.
Qed.

Lemma sample_outbound_only id b : @batch_on_disk sample_env id b (d_files sample_outbound_disk) →
  id = "batch-1" ∧ b = sample_outbound_batch Queued.
Proof.
  intros (f & Hf & Hb & _). pose proof Hf as [name Hp]%sample_outbound_files. unfold sample_directory_path in Hp. cbn in Hp.
  injection Hp as -> _. split; [done |].
  unfold sample_outbound_disk, with_files in Hf. cbn [d_files] in Hf.
  change (@store_root sample_env ++ ["batch-1"] ++ [BATCH_FILE]) with (sample_directory_path ++ ["batch.json"]) in Hf.
  rewrite lookup_insert_eq in Hf. injection Hf as <-. cbn in Hb. by injection Hb as <-.
Qed.

Lemma sample_outbound_one_active : @one_active sample_coordinator_env (d_files sample_outbound_disk).
Proof.
  intros phone i j (b & Hb & _) (c & Hc & _).
  by destruct (sample_outbound_only _ _ Hb) as [-> _], (sample_outbound_only _ _ Hc) as [-> _].
Qed.

Lemma sample_outbound_readable :
  @readable sample_env "batch-1" sample_entries sample_lines (mkFile [] []) sample_outbound_disk.
Proof.
  destruct (sample_readable_with (mkFile [] [])) as [Hq [H1 H2 H3 H4 H5 H6 [c [H7 H8]]]]. split; [done |].
  split; try done. exists c. split; [etrans; [by apply lookup_insert_ne | exact H7] | exact H8].
Qed.

Lemma waiting_offer_is_queued_witness :
  ∃ offer, ap_offers (@connect_offers sample_coordinator_env 4 "phone-1" (sample_app sample_outbound_disk)) !! 4
           = Some (mkOfferChannel [offer] false) ∧ fo_batch_id offer = "batch-1".
Proof.
  assert (@batch_on_disk sample_env "batch-1" (sample_outbound_batch Queued) (d_files sample_outbound_disk)) as Hb.
  { exists (mkFile [119] [119]). split; [apply lookup_insert_eq |]. split; [reflexivity |].
    split; [by vm_compute | reflexivity]. }
  destruct (@waiting_offer_is_queued sample_coordinator_env "phone-1" 4 (sample_app sample_outbound_disk)
    sample_outbound_settled sample_outbound_one_active eq_refl) as (_ & queue & Hq & Hwait & _).
  { intros b Hbd _. destruct (sample_outbound_only _ _ Hbd) as [-> _].
    exists sample_entries, sample_lines, (mkFile [] []). exact sample_outbound_readable. }
  destruct (Hwait (sample_outbound_batch Queued) Hb ltac:(split_and!; reflexivity)) as (entries & ls & progress & _ & Heq).
  rewrite Heq in Hq. eexists. split; [exact Hq | reflexivity].
Defined.

Lemma unpaired_phone_is_locked_out_witness :
  let ap := sample_app (sample_disk [Fine; Fails 0]) in
  ∃ ap', @unpair_phone sample_coordinator_env true true "phone-1" ap = (Ok tt, ap') ∧
  "phone-1" ∉ ho_paired (co_host (ap_transfers ap')) ∧
  ∃ e, authenticate_phone (λ _, Some [1]) (λ _, Some tt) (λ _, Some tt) (λ _ _ _, true) "pc" true id 7
         (mkAuth PROTOCOL_VERSION "authenticate" "phone-1" "Phone" None None None [] "s") "n" (ap_pairing ap')
       = (Err e, ap_pairing ap').
Proof.
  cbn zeta. set (ap := sample_app _).
  destruct (@unpair_phone sample_coordinator_env true true "phone-1" ap) as [r ap'] eqn:Hrun.
  assert (r = Ok tt) as -> by (unfold unpair_phone in Hrun; cbn in Hrun; by injection Hrun as <- _).
  exists ap'. split; [reflexivity |].
  destruct (@unpaired_phone_is_locked_out sample_coordinator_env true unit unit (λ _, Some [1]) (λ _, Some tt)
              (λ _, Some tt) (λ _ _ _, true) "pc" true "phone-1" ap (Ok tt) ap' eq_refl ltac:(unfold same_phones; vm_compute; reflexivity) Hrun)
    as (_ & _ & Hok).
  destruct (Hok eq_refl) as (Hauth & Hnot & _). split; [exact Hnot |].
  apply Hauth; [reflexivity | discriminate].
Defined.
