(* ===== verification/Update.v ===== *)
(** * The updater

    [flowtype-app/src/update.rs]: the check for a new release, its signed
    manifest, the download, the verification of the installer and its launch.
    What an operation finds outside (network, download service, files, clock,
    signature of the installer) is an [Outside] of its own. What was verified is
    remembered in the memory of the worker and in a file; the window reads a
    third copy. *)

From S2P Require Import Prelude Text FileCore Disk.
Local Open Scope string_scope.
Local Open Scope list_scope.
Local Open Scope Z_scope.

Definition RELEASES_API_URL : string :=
  "https://api.github.com/repos/Henry10088/FlowType/releases?per_page=30".
Definition RELEASE_DOWNLOAD_PREFIX : string := "https://github.com/Henry10088/FlowType/releases/download/".
Definition RELEASE_TAG_PREFIX : string := "https://github.com/Henry10088/FlowType/releases/tag/".
Definition UPDATE_KEY_ID : string := "flowtype-update-2026-v2".
Definition UPDATE_PLATFORM : string := "windows".
Definition MAX_MANIFEST_BYTES : Z := 64 * 1024.
Definition MAX_SIGNATURE_BYTES : Z := 1024.
Definition MAX_INSTALLER_BYTES : Z := 200 * 1024 * 1024.
(** [app/update.rs:46-50 CHECK_INTERVAL_SECONDS] *)
Definition CHECK_INTERVAL_SECONDS : Z := 24 * 60 * 60.
(** [env!("CARGO_PKG_VERSION")], of windows/Cargo.toml. *)
Definition CARGO_PKG_VERSION : string := "0.3.1".

(** [app/update.rs UpdateAction] *)
Inductive UpdateAction := UaNone | UaCheck | UaDownload | UaCancel | UaInstall.
#[export] Instance UpdateAction_eq_dec : EqDecision UpdateAction.
Proof. solve_decision. Defined.

(** [app/update.rs UpdateSnapshot] *)
Record UpdateSnapshot := mkUpdateSnapshot {
  us_message : string;
  us_action : UpdateAction;
  us_action_label : string;
  us_progress : option (Z * Z);
  us_version : option string;
}.

(** [app/update.rs PlatformAsset] *)
Record PlatformAsset := mkPlatformAsset { pa_url : string; pa_sha256 : string; pa_size : Z }.
(** [app/update.rs AndroidAsset] *)
Record AndroidAsset := mkAndroidAsset { aa_version_code : Z; aa_url : string; aa_sha256 : string; aa_size : Z }.

(** [app/update.rs UpdateManifest] *)
Record UpdateManifest := mkUpdateManifest {
  um_schema : Z;
  um_key_id : string;
  um_platform : string;
  um_version : string;
  um_published_at : string;
  um_release_url : string;
  um_notes_zh_cn : string;
  um_windows : PlatformAsset;
  um_android : AndroidAsset;
  um_verified_raw : list Z;
  um_verified_signature : list Z;
}.

(** [app/update.rs ReleaseSummary] *)
Record ReleaseSummary := mkReleaseSummary { rl_tag_name : string; rl_draft : bool; rl_prerelease : bool }.

(** [app/update.rs PersistedUpdate] *)
Record PersistedUpdate := mkPersistedUpdate {
  pu_last_successful_check : Z;
  pu_highest_verified_version : option string;
  pu_job_id : option string;
  pu_manifest : option UpdateManifest;
  pu_installer_path : option path;
  pu_verified : bool;
}.
Definition PersistedUpdate_default : PersistedUpdate := mkPersistedUpdate 0 None None None None false.

(** [app/update.rs SharedUpdate] *)
Record SharedUpdate := mkSharedUpdate {
  su_snapshot : UpdateSnapshot;
  su_manifest : option UpdateManifest;
  su_installer_path : option path;
}.

(** [app/update.rs Command] *)
Inductive Command := CmdCheck | CmdDownload | CmdCancel.

(** [app/update.rs ActiveDownload] The job is its id. *)
Record ActiveDownload := mkActiveDownload { ad_job : string; ad_path : path; ad_manifest : UpdateManifest }.

(** The states of a job of the download service that the code tells apart. *)
Inductive JobState := JobQueued | JobConnecting | JobTransferring | JobSuspended | JobError
| JobTransientError | JobTransferred | JobOther.

(** ** Versions *)

Definition Version : Type := Z * Z * Z.

(** [app/update.rs parse_version] *)
Definition parse_version (value : string) : option Version :=
  match split_on 46 (bytes_of value) with
  | [major; minor; patch] =>
    major ← parse_unsigned U64_MAX major;
    minor ← parse_unsigned U64_MAX minor;
    patch ← parse_unsigned U64_MAX patch;
    Some (major, minor, patch)
  | _ => None
  end.

(** The order of triples. *)
Definition version_compare (a b : Version) : comparison :=
  let '(a1, a2, a3) := a in let '(b1, b2, b3) := b in
  match a1 ?= b1 with
  | Eq => match a2 ?= b2 with Eq => a3 ?= b3 | c => c end
  | c => c
  end.

(** [app/update.rs compare_versions] *)
Definition compare_versions (left right : string) : option comparison :=
  left ← parse_version left;
  right ← parse_version right;
  Some (version_compare left right).

Definition is_lt (c : comparison) : bool := match c with Lt => true | _ => false end.
Definition is_gt (c : comparison) : bool := match c with Gt => true | _ => false end.

(** [app/update.rs valid_sha256] *)
Definition update_valid_sha256 (value : string) : bool :=
  (str_len value =? 64) && forallb is_ascii_hexdigit (bytes_of value).

Definition str_starts_with (prefix s : string) : bool :=
  bool_decide (is_Some (strip_prefix (bytes_of prefix) (bytes_of s))).

(** The part of a release's tag that is its version. *)
Definition tag_version (tag_name : string) : option Version :=
  parse_version (from_option of_bytes "" (strip_prefix (bytes_of "windows-v") (bytes_of tag_name))).

(** The order of [sort_by], from the highest version down. *)
Definition release_before (left right : ReleaseSummary) : bool :=
  match tag_version (rl_tag_name right), tag_version (rl_tag_name left) with
  | Some r, Some l => negb (is_gt (version_compare r l))
  | Some _, None => false
  | None, _ => true
  end.

(** ** The world outside *)

(** What an operation finds: the environment variable with the manifest's URL, the
    answers of the network, the clock, the files (their bytes, or why they cannot
    be read), the signer check of the installer, whether the state file can be
    written, the directory of the application, the download service, the state of
    the job, and the launch. *)
Record Outside := mkOutside {
  o_manifest_url : option string;
  o_http_get : string → Z → result string (list Z);
  o_unix_time : Z;
  o_file : path → result string (list Z);
  o_authenticode : path → result string unit;
  o_can_save : bool;
  o_data_dir : result string path;
  o_bits_manager : result string unit;
  o_create_job : result string string;
  o_resume : result string unit;
  o_get_job : string → result string unit;
  o_job_state : result string JobState;
  o_complete : result string unit;
  o_job_progress : result string (Z * Z);
  o_shell_open : result string unit;
}.

(** The codecs and the signature scheme, from crates; the language, and a number of
    bytes in megabytes with one decimal. *)
Class UpdateEnv := {
  manifest_from_slice : list Z → option UpdateManifest;
  releases_from_slice : list Z → option (list ReleaseSummary);
  base64_decode : list Z → option (list Z);
  public_key_der_ok : list Z → bool;
  signature_der_ok : list Z → bool;
  verify_p256 : list Z → list Z → list Z → bool;
  update_public_key : list Z;
  update_sha256_hex : list Z → string;
  from_utf8_lossy : list Z → list Z;
  is_chinese : bool;
  megabytes : Z → string;
}.

(** [app/i18n.rs tr] *)
Definition tr `{UpdateEnv} (chinese english : string) : string := if is_chinese then chinese else english.

Section manifest.
Context `{UpdateEnv}.

(** [app/update.rs UpdateSnapshot::idle] *)
Definition UpdateSnapshot_idle : UpdateSnapshot :=
  mkUpdateSnapshot (tr "可检查更新" "Ready to check for updates") UaCheck
    (tr "检查更新" "Check for updates") None None.

(** [app/update.rs UpdateSnapshot::tray_label] *)
Definition tray_label (self : UpdateSnapshot) : option string :=
  match us_action self with
  | UaDownload => (λ v, tr "更新到 " "Update to " +:+ v +:+ "...") <$> us_version self
  | UaCancel => Some (us_message self)
  | UaInstall => Some (tr "更新已下载..." "Update downloaded...")
  | _ => None
  end.

(** [app/update.rs validate_manifest] *)
Definition validate_manifest (manifest : UpdateManifest) : result string unit :=
  _ ← guard_err (negb (um_schema manifest =? 2) || negb (bool_decide (um_key_id manifest = UPDATE_KEY_ID))
                 || negb (bool_decide (um_platform manifest = UPDATE_PLATFORM)))
        (tr "不支持的更新清单版本或密钥" "Unsupported update information");
  _ ← ok_or (parse_version (um_version manifest)) (tr "更新版本格式无效" "Invalid update version");
  _ ← guard_err ((40 <? str_len (um_published_at manifest)) || (8192 <? str_len (um_notes_zh_cn manifest))
                 || (2048 <? str_len (um_release_url manifest)))
        (tr "更新清单字段过长" "Update information contains an oversized field");
  let tag := "windows-v" +:+ um_version manifest in
  _ ← guard_err (negb (bool_decide (um_release_url manifest = RELEASE_TAG_PREFIX +:+ tag)))
        (tr "更新发布地址无效" "Invalid release URL");
  let expected_prefix := RELEASE_DOWNLOAD_PREFIX +:+ tag +:+ "/" in
  let asset := um_windows manifest in
  guard_err (negb (str_starts_with expected_prefix (pa_url asset)) || (2048 <? str_len (pa_url asset))
             || (pa_size asset =? 0) || (MAX_INSTALLER_BYTES <? pa_size asset)
             || negb (update_valid_sha256 (pa_sha256 asset)))
    (tr "更新资产信息无效" "Invalid update package information").

Definition with_verified (raw signature : list Z) (m : UpdateManifest) : UpdateManifest :=
  mkUpdateManifest (um_schema m) (um_key_id m) (um_platform m) (um_version m) (um_published_at m)
    (um_release_url m) (um_notes_zh_cn m) (um_windows m) (um_android m) raw signature.

(** [app/update.rs verify_manifest_with_key] *)
Definition verify_manifest_with_key (bytes signature_text public_der : list Z) : result string UpdateManifest :=
  _ ← guard_err ((MAX_MANIFEST_BYTES <? zlength bytes) || (MAX_SIGNATURE_BYTES <? zlength signature_text))
        (tr "更新清单过大" "Update information is too large");
  _ ← guard_err (negb (public_key_der_ok public_der)) (tr "更新公钥格式无效" "Invalid update key");
  signature_bytes ← ok_or (base64_decode (trim (from_utf8_lossy signature_text)))
                      (tr "更新签名格式无效" "Invalid update signature");
  _ ← guard_err (negb (signature_der_ok signature_bytes)) (tr "更新签名格式无效" "Invalid update signature");
  _ ← guard_err (negb (verify_p256 public_der bytes signature_bytes))
        (tr "更新清单签名不匹配" "Update signature mismatch");
  manifest ← ok_or (manifest_from_slice bytes) (tr "更新清单格式无效" "Invalid update information");
  _ ← validate_manifest manifest;
  Ok (with_verified bytes signature_text manifest).

(** [app/update.rs verify_manifest] The key is built in. *)
Definition verify_manifest (bytes signature_text : list Z) : result string UpdateManifest :=
  public_der ← ok_or (base64_decode (trim update_public_key)) (tr "内置更新公钥无效" "Invalid built-in update key");
  verify_manifest_with_key bytes signature_text public_der.

(** [app/update.rs UpdateManifest::placeholder] *)
Definition placeholder : UpdateManifest :=
  mkUpdateManifest 2 UPDATE_KEY_ID UPDATE_PLATFORM CARGO_PKG_VERSION ""
    "https://github.com/Henry10088/FlowType/releases" "" (mkPlatformAsset "" "" 0) (mkAndroidAsset 0 "" "" 0) [] [].

(** [app/update.rs:1258-1263 http_get] What the request itself gives is outside. *)
Definition http_get (o : Outside) (url : string) (limit : Z) : result string (list Z) :=
  if negb (str_starts_with "https://" url) || (2048 <? str_len url) then Err "invalid HTTPS URL"
  else o_http_get o url limit.

(** [app/update.rs latest_release_manifest_url] *)
Definition latest_release_manifest_url (o : Outside) : result string string :=
  bytes ← http_get o RELEASES_API_URL (512 * 1024);
  releases ← ok_or (releases_from_slice bytes) (tr "GitHub 发布信息无效" "Invalid GitHub release list");
  let releases := filter (λ release, rl_draft release = false ∧ rl_prerelease release = false
                                     ∧ is_Some (tag_version (rl_tag_name release))) releases in
  let releases := stable_sort release_before releases in
  tag ← ok_or (rl_tag_name <$> head releases) (tr "暂无 Windows 更新" "No Windows update is available");
  Ok (RELEASE_DOWNLOAD_PREFIX +:+ tag +:+ "/flowtype-update.json").

(** [app/update.rs fetch_verified_manifest] *)
Definition fetch_verified_manifest (o : Outside) : result string UpdateManifest :=
  manifest_url ← match o_manifest_url o with
                 | Some url => if bool_decide (trim (chars url) = []) then latest_release_manifest_url o else Ok url
                 | None => latest_release_manifest_url o
                 end;
  bytes ← http_get o manifest_url MAX_MANIFEST_BYTES;
  _ ← ok_or (manifest_from_slice bytes) (tr "更新清单格式无效" "Invalid update information");
  base ← ok_or (fst <$> rsplit_once 47 (bytes_of manifest_url)) (tr "更新清单地址无效" "Invalid update URL");
  signature ← http_get o (of_bytes base +:+ "/flowtype-update.json.sig") MAX_SIGNATURE_BYTES;
  verify_manifest bytes signature.

(** [app/update.rs verify_installer] *)
Definition verify_installer (o : Outside) (p : path) (asset : PlatformAsset) : result string unit :=
  contents ← o_file o p;
  _ ← guard_err (negb (zlength contents =? pa_size asset)) (tr "安装包大小不匹配" "Installer size mismatch");
  _ ← guard_err (negb (bool_decide (update_sha256_hex contents = pa_sha256 asset)))
        (tr "安装包 SHA-256 不匹配" "Installer SHA-256 mismatch");
  o_authenticode o p.

(** [app/update.rs should_auto_check] *)
Definition should_auto_check (o : Outside) (persisted : PersistedUpdate) : bool :=
  CHECK_INTERVAL_SECONDS <=? saturating_sub (o_unix_time o) (pu_last_successful_check persisted).

(** [app/update.rs friendly_update_error] *)
Definition friendly_update_error (error : string) : string :=
  if contains (bytes_of "12002") (bytes_of error)
  then tr "连接 GitHub 超时，请检查网络后重试" "GitHub timed out. Check your connection and try again."
  else if contains (bytes_of "12007") (bytes_of error)
  then tr "无法解析 GitHub 地址，请检查网络后重试" "Could not resolve GitHub. Check your connection and try again."
  else if contains (bytes_of "12029") (bytes_of error) || contains (bytes_of "12030") (bytes_of error)
  then tr "无法连接 GitHub，请检查网络后重试"
         "Could not connect to GitHub. Check your connection and try again."
  else error.

(** [app/update.rs format_progress] *)
Definition format_progress (transferred total : Z) : string :=
  if 0 <? total
  then
    let percent := Z.min (transferred * 100) U64_MAX / total in
    tr "正在下载 " "Downloading " +:+ of_bytes (decimal percent) +:+ "% · " +:+ megabytes transferred
    +:+ "/" +:+ megabytes total +:+ " MB"
  else tr "正在下载 " "Downloading " +:+ megabytes transferred +:+ " MB".

(** [app/update.rs downloading_snapshot] *)
Definition downloading_snapshot (manifest : UpdateManifest) (transferred total : Z) : UpdateSnapshot :=
  mkUpdateSnapshot (format_progress transferred total) UaCancel (tr "取消" "Cancel")
    (Some (transferred, total)) (Some (um_version manifest)).
End manifest.

(** ** The worker *)

(** What the updater did outside. *)
Inductive Effect :=
| Removed (p : path) | JobResumed (job : string) | JobCancelled (job : string) | Launched (p : path).

(** The window's view, the worker's memory (what it persists, the manifest that is
    available, the download that runs, whether the automatic check is due), the
    state file, the installation the window is at, and what was done. *)
Record Updater := mkUpdater {
  up_shared : SharedUpdate;
  up_persisted : PersistedUpdate;
  up_available : option UpdateManifest;
  up_active : option ActiveDownload;
  up_auto_pending : bool;
  up_saved : option PersistedUpdate;
  up_installing : option (UpdateManifest * path);
  up_effects : list Effect;
}.

Definition set_shared (x : SharedUpdate) (u : Updater) : Updater :=
  mkUpdater x (up_persisted u) (up_available u) (up_active u) (up_auto_pending u) (up_saved u) (up_installing u) (up_effects u).
Definition set_persisted (x : PersistedUpdate) (u : Updater) : Updater :=
  mkUpdater (up_shared u) x (up_available u) (up_active u) (up_auto_pending u) (up_saved u) (up_installing u) (up_effects u).
Definition set_available_manifest (x : option UpdateManifest) (u : Updater) : Updater :=
  mkUpdater (up_shared u) (up_persisted u) x (up_active u) (up_auto_pending u) (up_saved u) (up_installing u) (up_effects u).
Definition set_active (x : option ActiveDownload) (u : Updater) : Updater :=
  mkUpdater (up_shared u) (up_persisted u) (up_available u) x (up_auto_pending u) (up_saved u) (up_installing u) (up_effects u).
Definition set_auto_pending (x : bool) (u : Updater) : Updater :=
  mkUpdater (up_shared u) (up_persisted u) (up_available u) (up_active u) x (up_saved u) (up_installing u) (up_effects u).
Definition set_saved (x : option PersistedUpdate) (u : Updater) : Updater :=
  mkUpdater (up_shared u) (up_persisted u) (up_available u) (up_active u) (up_auto_pending u) x (up_installing u) (up_effects u).
Definition set_installing (x : option (UpdateManifest * path)) (u : Updater) : Updater :=
  mkUpdater (up_shared u) (up_persisted u) (up_available u) (up_active u) (up_auto_pending u) (up_saved u) x (up_effects u).
Definition effect (e : Effect) (u : Updater) : Updater :=
  mkUpdater (up_shared u) (up_persisted u) (up_available u) (up_active u) (up_auto_pending u) (up_saved u) (up_installing u)
    (up_effects u ++ [e]).

(** The changes of what is persisted. *)
Definition with_job (job : option string) (p : PersistedUpdate) : PersistedUpdate :=
  mkPersistedUpdate (pu_last_successful_check p) (pu_highest_verified_version p) job (pu_manifest p)
    (pu_installer_path p) (pu_verified p).
Definition with_manifest (m : option UpdateManifest) (p : PersistedUpdate) : PersistedUpdate :=
  mkPersistedUpdate (pu_last_successful_check p) (pu_highest_verified_version p) (pu_job_id p) m
    (pu_installer_path p) (pu_verified p).
Definition with_installer (i : option path) (p : PersistedUpdate) : PersistedUpdate :=
  mkPersistedUpdate (pu_last_successful_check p) (pu_highest_verified_version p) (pu_job_id p) (pu_manifest p)
    i (pu_verified p).
Definition with_is_verified (v : bool) (p : PersistedUpdate) : PersistedUpdate :=
  mkPersistedUpdate (pu_last_successful_check p) (pu_highest_verified_version p) (pu_job_id p) (pu_manifest p)
    (pu_installer_path p) v.
Definition with_last_check (t : Z) (p : PersistedUpdate) : PersistedUpdate :=
  mkPersistedUpdate t (pu_highest_verified_version p) (pu_job_id p) (pu_manifest p) (pu_installer_path p) (pu_verified p).
Definition with_highest (v : option string) (p : PersistedUpdate) : PersistedUpdate :=
  mkPersistedUpdate (pu_last_successful_check p) v (pu_job_id p) (pu_manifest p) (pu_installer_path p) (pu_verified p).

(** [app/update.rs save_persisted] The file is replaced as a whole; what is
    written is read back. *)
Definition save_persisted (o : Outside) (u : Updater) : Updater :=
  if o_can_save o then set_saved (Some (up_persisted u)) u else u.

Section worker.
Context `{UpdateEnv}.

(** [app/update.rs set_snapshot] *)
Definition set_snapshot (snapshot : UpdateSnapshot) (manifest : option UpdateManifest) (installer_path : option path)
    (u : Updater) : Updater :=
  set_shared (mkSharedUpdate snapshot
    (match manifest with Some _ => manifest | None => su_manifest (up_shared u) end)
    (match installer_path with Some _ => installer_path | None => su_installer_path (up_shared u) end)) u.

(** [app/update.rs set_available] *)
Definition set_available (manifest : UpdateManifest) : Updater → Updater :=
  set_snapshot (mkUpdateSnapshot (tr "发现新版本 " "Version " +:+ um_version manifest +:+ tr "" " is available")
                  UaDownload (tr "下载更新" "Download update") None (Some (um_version manifest)))
    (Some manifest) None.

(** [app/update.rs set_ready] *)
Definition set_ready (manifest : UpdateManifest) (p : path) : Updater → Updater :=
  set_snapshot (mkUpdateSnapshot
                  (if is_chinese then "更新 " +:+ um_version manifest +:+ " 已下载"
                   else "Update " +:+ um_version manifest +:+ " downloaded")
                  UaInstall (tr "安装更新" "Install update")
                  (Some (pa_size (um_windows manifest), pa_size (um_windows manifest))) (Some (um_version manifest)))
    (Some manifest) (Some p).

(** [app/update.rs set_failure] *)
Definition set_failure (message : string) : Updater → Updater :=
  set_snapshot (mkUpdateSnapshot message UaCheck (tr "重试检查更新" "Check again") None None) None None.

(** [app/update.rs set_download_failure] *)
Definition set_download_failure (manifest : UpdateManifest) (message : string) : Updater → Updater :=
  set_snapshot (mkUpdateSnapshot message UaDownload (tr "重试下载" "Retry download") None (Some (um_version manifest)))
    (Some manifest) None.

(** [app/update.rs set_install_failure] *)
Definition set_install_failure (manifest : UpdateManifest) (p : path) (message : string) : Updater → Updater :=
  set_snapshot (mkUpdateSnapshot message UaInstall (tr "重新安装" "Retry install")
                  (Some (pa_size (um_windows manifest), pa_size (um_windows manifest))) (Some (um_version manifest)))
    (Some manifest) (Some p).

(** The snapshot while something runs, with nothing to press. *)
Definition busy_snapshot (message : string) (version : option string) : UpdateSnapshot :=
  mkUpdateSnapshot message UaNone "" None version.
Definition check_snapshot (message : string) : UpdateSnapshot :=
  mkUpdateSnapshot message UaCheck (tr "再次检查" "Check again") None None.

(** [app/update.rs check_for_update] *)
Definition check_for_update (o : Outside) (u : Updater) : Updater :=
  let u := set_snapshot (busy_snapshot (tr "正在检查更新…" "Checking for updates...") None) None None u in
  match fetch_verified_manifest o with
  | Ok manifest =>
    let u := set_persisted (with_last_check (o_unix_time o) (up_persisted u)) u in
    let highest := pu_highest_verified_version (up_persisted u) in
    if from_option is_lt false (highest ≫= compare_versions (um_version manifest))
    then set_failure (tr "服务器返回了旧版更新清单" "The server returned an older update") u
    else
      let u := if from_option is_gt true (highest ≫= compare_versions (um_version manifest))
               then set_persisted (with_highest (Some (um_version manifest)) (up_persisted u)) u else u in
      let u := save_persisted o u in
      match compare_versions (um_version manifest) CARGO_PKG_VERSION with
      | Some Gt =>
        let u := set_available_manifest (Some manifest) u in
        let ready_path :=
          p ← pu_installer_path (up_persisted u);
          if pu_verified (up_persisted u) && is_ok (o_file o p) && is_ok (verify_installer o p (um_windows manifest))
          then Some p else None in
        match ready_path with
        | Some p =>
          let u := set_persisted (with_manifest (Some manifest) (up_persisted u)) u in
          set_ready manifest p (save_persisted o u)
        | None => set_available manifest u
        end
      | Some _ =>
        set_snapshot (check_snapshot (tr "已是最新版本" "FlowType is up to date")) None None (set_available_manifest None u)
      | None => set_failure (tr "更新版本格式无效" "Invalid update version") u
      end
  | Err error =>
    if bool_decide (error = tr "暂无 Windows 更新" "No Windows update is available")
    then set_snapshot (check_snapshot error) None None (set_available_manifest None u)
    else set_failure (tr "检查更新失败：" "Could not check for updates: " +:+ friendly_update_error error) u
  end.

(** The name of the installer's file, from its URL. *)
Definition installer_name (url : string) : option string :=
  '(_, name) ← rsplit_once 47 (bytes_of url);
  if bool_decide (name = []) || existsb (λ b, (b =? 92) || (b =? 47)) name then None else Some (of_bytes name).

(** [app/update.rs start_download] *)
Definition start_download (o : Outside) (manifest : UpdateManifest) (u : Updater)
    : result string ActiveDownload * Updater :=
  match (_ ← o_bits_manager o;
         data_dir ← o_data_dir o;
         name ← ok_or (installer_name (pa_url (um_windows manifest))) (tr "安装包文件名无效" "Invalid installer filename");
         Ok (data_dir ++ ["updates"; um_version manifest; name])) with
  | Err e => (Err e, u)
  | Ok p =>
    let u := effect (Removed p) u in
    match o_create_job o with
    | Err e => (Err e, u)
    | Ok job =>
      let u := set_persisted (with_is_verified false (with_installer (Some p) (with_manifest (Some manifest)
                 (with_job (Some job) (up_persisted u))))) u in
      if negb (o_can_save o) then (Err "save", u)
      else
        let u := save_persisted o u in
        match o_resume o with
        | Err e => (Err e, u)
        | Ok _ => (Ok (mkActiveDownload job p manifest), effect (JobResumed job) u)
        end
    end
  end.

(** [app/update.rs restore_download] An error counts as no download. *)
Definition restore_download (o : Outside) (u : Updater) : Updater :=
  let persisted := up_persisted u in
  match pu_manifest persisted, pu_installer_path persisted with
  | Some manifest, Some p =>
    if pu_verified persisted && is_ok (o_file o p) && is_ok (verify_installer o p (um_windows manifest))
    then set_ready manifest p u
    else
      match pu_job_id persisted with
      | None => u
      | Some id =>
        match (_ ← o_bits_manager o; o_get_job o id) with
        | Err _ => u
        | Ok _ =>
          set_active (Some (mkActiveDownload id p manifest))
            (set_snapshot (downloading_snapshot manifest 0 (pa_size (um_windows manifest))) (Some manifest) (Some p) u)
        end
      end
  | _, _ => u
  end.

(** [app/update.rs PollResult] *)
Inductive PollResult := PollContinue | PollReady | PollFailed (message : string).

(** [app/update.rs poll_download] *)
Definition poll_download (o : Outside) (download : ActiveDownload) (u : Updater) : PollResult * Updater :=
  let manifest := ad_manifest download in
  match o_job_state o with
  | Err error => (PollFailed (tr "无法读取下载状态：" "Could not read download status: " +:+ error), u)
  | Ok JobTransferred =>
    match o_complete o with
    | Err error => (PollFailed (tr "无法完成下载：" "Could not finish the download: " +:+ error), u)
    | Ok _ =>
      let u := set_snapshot (busy_snapshot (tr "正在校验更新…" "Verifying update...") (Some (um_version manifest)))
                 (Some manifest) (Some (ad_path download)) u in
      match verify_installer o (ad_path download) (um_windows manifest) with
      | Err error =>
        (PollFailed (tr "更新校验失败：" "Update verification failed: " +:+ error), effect (Removed (ad_path download)) u)
      | Ok _ =>
        let u := set_persisted (with_is_verified true (with_job None (up_persisted u))) u in
        (PollReady, set_ready manifest (ad_path download) (save_persisted o u))
      end
    end
  | Ok JobError => (PollFailed (tr "下载失败，请重试" "Download failed. Try again."), u)
  | Ok state =>
    match o_job_progress o with
    | Err error => (PollFailed (tr "无法读取下载进度：" "Could not read download progress: " +:+ error), u)
    | Ok (transferred, bytes_total) =>
      let total := if bytes_total =? U64_MAX then pa_size (um_windows manifest) else bytes_total in
      let message :=
        match state with
        | JobTransientError | JobSuspended => tr "等待网络，恢复后继续下载" "Waiting for a network connection"
        | JobQueued | JobConnecting | JobTransferring => format_progress transferred total
        | _ => tr "正在准备下载…" "Preparing download..."
        end in
      (PollContinue, set_snapshot (mkUpdateSnapshot message UaCancel (tr "取消" "Cancel") (Some (transferred, total))
                                     (Some (um_version manifest))) (Some manifest) (Some (ad_path download)) u)
    end
  end.

(** [app/update.rs:323-337 update_worker] The start of the worker, from the file
    that was saved. *)
Definition worker_start (o : Outside) (saved : option PersistedUpdate) : Updater :=
  let persisted := default PersistedUpdate_default saved in
  let manifest := cached ← pu_manifest persisted;
                  match verify_manifest (um_verified_raw cached) (um_verified_signature cached) with
                  | Ok m => Some m | Err _ => None end in
  let persisted := with_manifest manifest persisted in
  let u := mkUpdater (mkSharedUpdate UpdateSnapshot_idle None None) persisted None None false saved None [] in
  let u := match manifest with
           | Some _ => u
           | None => save_persisted o (set_persisted
                       (with_is_verified false (with_installer None (with_job None (up_persisted u)))) u)
           end in
  let u := restore_download o u in
  set_auto_pending (should_auto_check o (up_persisted u)) (set_available_manifest (pu_manifest (up_persisted u)) u).

Definition no_download (p : PersistedUpdate) : PersistedUpdate :=
  with_is_verified false (with_installer None (with_job None p)).

(** [app/update.rs:349-404 update_worker] A command, or the deadline of the
    automatic check when [deadline] has passed. *)
Definition worker_command (o : Outside) (command : option Command) (deadline : bool) (u : Updater) : Updater :=
  match command with
  | Some CmdCheck => check_for_update o (set_auto_pending false u)
  | Some CmdDownload =>
    match up_active u, up_available u with
    | None, Some manifest =>
      match start_download o manifest u with
      | (Ok download, u) =>
        set_active (Some download)
          (set_snapshot (downloading_snapshot manifest 0 (pa_size (um_windows manifest)))
             (Some manifest) (Some (ad_path download)) u)
      | (Err error, u) =>
        set_download_failure manifest (tr "无法开始下载：" "Could not start the download: " +:+ error) u
      end
    | _, _ => u
    end
  | Some CmdCancel =>
    let u := match up_active u with
             | Some download =>
               effect (Removed (ad_path download)) (effect (JobCancelled (ad_job download)) (set_active None u))
             | None => u
             end in
    let u := save_persisted o (set_persisted (no_download (up_persisted u)) u) in
    match up_available u with
    | Some manifest => set_available manifest u
    | None => set_snapshot UpdateSnapshot_idle None None u
    end
  | None =>
    if up_auto_pending u && deadline then check_for_update o (set_auto_pending false u) else u
  end.

(** [app/update.rs:405-421 update_worker] The download is looked at. *)
Definition worker_poll (o : Outside) (u : Updater) : Updater :=
  match up_active u with
  | None => u
  | Some download =>
    match poll_download o download u with
    | (PollContinue, u) => u
    | (PollReady, u) => set_active None u
    | (PollFailed message, u) =>
      let u := set_active None (effect (JobCancelled (ad_job download)) u) in
      let u := save_persisted o (set_persisted (with_is_verified false (with_job None (up_persisted u))) u) in
      set_download_failure (ad_manifest download) message u
    end
  end.

(** ** The window *)

(** [app/update.rs UpdateManager::perform] *)
Definition perform (action : UpdateAction) : option Command :=
  match action with
  | UaCheck => Some CmdCheck | UaDownload => Some CmdDownload | UaCancel => Some CmdCancel
  | _ => None
  end.

(** [app/update.rs:259-285 UpdateManager::install] Up to the verification, which
    takes its time. *)
Definition install_begin (u : Updater) : result string unit * Updater :=
  match su_manifest (up_shared u) with
  | None => (Err (tr "更新清单不可用" "Update information unavailable"), u)
  | Some manifest =>
    match su_installer_path (up_shared u) with
    | None => (Err (tr "安装包不可用" "Installer unavailable"), u)
    | Some p =>
      (Ok tt, set_installing (Some (manifest, p))
         (set_snapshot (busy_snapshot (tr "正在重新校验更新…" "Verifying update again...") (Some (um_version manifest)))
            (Some manifest) (Some p) u))
    end
  end.

(** [app/update.rs invalidate_persisted_installer] *)
Definition invalidate_persisted_installer (o : Outside) (version : string) (u : Updater) : Updater :=
  let persisted := default PersistedUpdate_default (up_saved u) in
  if from_option (λ m, bool_decide (um_version m = version)) false (pu_manifest persisted)
  then if o_can_save o then set_saved (Some (no_download persisted)) u else u
  else u.

(** [app/update.rs:286-314 UpdateManager::install] *)
Definition install_end (o : Outside) (u : Updater) : result string unit * Updater :=
  match up_installing u with
  | None => (Ok tt, u)
  | Some (manifest, p) =>
    let u := set_installing None u in
    match verify_installer o p (um_windows manifest) with
    | Err error =>
      let u := invalidate_persisted_installer o (um_version manifest) (effect (Removed p) u) in
      (Err error, set_download_failure manifest (tr "更新校验失败：" "Update verification failed: " +:+ error) u)
    | Ok _ =>
      match o_shell_open o with
      | Err error =>
        (Err error, set_install_failure manifest p (tr "无法启动安装程序：" "Could not start the installer: " +:+ error) u)
      | Ok _ => (Ok tt, effect (Launched p) u)
      end
    end
  end.

(** [app/update.rs UpdateManager::refresh_language] *)
Definition refresh_language (u : Updater) : Updater :=
  let snapshot := su_snapshot (up_shared u) in
  let show snapshot := set_shared (mkSharedUpdate snapshot (su_manifest (up_shared u)) (su_installer_path (up_shared u))) u in
  let relabel message label :=
    show (mkUpdateSnapshot message (us_action snapshot) label (us_progress snapshot) (us_version snapshot)) in
  match us_action snapshot with
  | UaCheck => show UpdateSnapshot_idle
  | UaDownload =>
    relabel (match us_version snapshot with
             | Some version => tr "发现新版本 " "Version " +:+ version +:+ tr "" " is available"
             | None => tr "发现新版本" "Update available"
             end) (tr "下载更新" "Download update")
  | UaCancel => relabel (tr "正在下载更新…" "Downloading update...") (tr "取消" "Cancel")
  | UaInstall => relabel (tr "更新已下载" "Update downloaded") (tr "安装更新" "Install update")
  | UaNone => relabel (tr "更新状态不可用" "Update status unavailable") ""
  end.
End worker.
