(* ===== verification/SampleUpdate.v ===== *)
(** * A sample updater

    Concrete codecs, a signature that repeats what is signed, two releases and what
    the updater finds outside, for the witnesses. *)

From S2P Require Import Prelude Text FileCore Disk Update.
Local Open Scope string_scope.
Local Open Scope list_scope.
Local Open Scope Z_scope.

Definition sample_hash : string := "00000000000000000000000000000000000000000000000000000000000000aa".

Definition sample_manifest (version : string) (verified : option (list Z)) : UpdateManifest :=
  mkUpdateManifest 2 UPDATE_KEY_ID UPDATE_PLATFORM version "2026-01-01" (RELEASE_TAG_PREFIX +:+ ("windows-v" +:+ version))
    "notes"
    (mkPlatformAsset (RELEASE_DOWNLOAD_PREFIX +:+ ("windows-v" +:+ version) +:+ "/" +:+ "setup.exe") sample_hash 3)
    (mkAndroidAsset 0 "" "" 0) (default [] verified) (default [] verified).

(** The manifest of a version is one byte; the signature is what it signs. *)
#[export] Instance sample_update_env : UpdateEnv := {
  manifest_from_slice l :=
    match l with
    | [65] => Some (sample_manifest "0.3.1" None)
    | [66] => Some (sample_manifest "0.4.0" None)
    | _ => None
    end;
  releases_from_slice l :=
    match l with
    | [80] => Some [mkReleaseSummary "android-v9.9.9" false false; mkReleaseSummary "windows-v0.4.0" false false;
                    mkReleaseSummary "windows-v1.0.0" true false; mkReleaseSummary "windows-v0.3.1" false false]
    | [81] => Some []
    | _ => None
    end;
  base64_decode := Some;
  public_key_der_ok key := bool_decide (key = [75]);
  signature_der_ok _ := true;
  verify_p256 _ message signature := bool_decide (message = signature);
  update_public_key := [75];
  update_sha256_hex contents := if bool_decide (contents = [1; 2; 3]) then sample_hash else "";
  from_utf8_lossy l := l;
  is_chinese := false;
  megabytes n := of_bytes (decimal (n / 1048576));
}.

Definition sample_installer : path := ["data"; "updates"; "0.4.0"; "setup.exe"].
Definition sample_installer_now : path := ["data"; "updates"; "0.3.1"; "setup.exe"].

(** The releases that the network lists, the state of the job. *)
Definition sample_outside (releases : list Z) (job : JobState) : Outside := mkOutside None
  (λ url _,
     if bool_decide (url = RELEASES_API_URL) then Ok releases
     else if str_starts_with (RELEASE_DOWNLOAD_PREFIX +:+ "windows-v0.4.0/flowtype-update.json") url then Ok [66]
     else Err "404")
  1000000
  (λ p, if bool_decide (p = sample_installer ∨ p = sample_installer_now) then Ok [1; 2; 3] else Err "not found")
  (λ _, Ok tt) true (Ok ["data"]) (Ok tt) (Ok "{JOB}") (Ok tt) (λ _, Ok tt) (Ok job) (Ok tt) (Ok (1, 3)) (Ok tt).

(** What the updater has verified: the manifest with the bytes it came from. *)
Definition sample_new : UpdateManifest := sample_manifest "0.4.0" (Some [66]).
Definition sample_now : UpdateManifest := sample_manifest "0.3.1" (Some [65]).

Example sample_verifies : verify_manifest [66] [66] = Ok sample_new.
Proof. vm_compute. reflexivity. Qed.
Example sample_fetches : fetch_verified_manifest (sample_outside [80] JobQueued) = Ok sample_new.
Proof. vm_compute. reflexivity. Qed.
Example sample_progress : format_progress 1048576 2097152 = "Downloading 50% · 1/2 MB".
Proof. vm_compute. reflexivity. Qed.
Example sample_versions : compare_versions "0.10.0" "0.9.12" = Some Gt.
Proof. vm_compute. reflexivity. Qed.
