(* ===== verification/UpdateSafety.v ===== *)
(** * What the updater guarantees

    Runs of the updater from any state file: every manifest it keeps was signed,
    what it launches was verified, versions only go up, and the button that is
    shown works. *)

From S2P Require Import Prelude Text FileCore Disk Update SampleUpdate.
Local Open Scope string_scope.
Local Open Scope list_scope.
Local Open Scope Z_scope.

(** ** The order of versions *)

Definition version_le (a b : Version) : Prop := version_compare a b ≠ Gt.

Lemma version_compare_spec a b :
  match version_compare a b with
  | Lt => version_le a b ∧ ¬ version_le b a
  | Eq => a = b
  | Gt => version_le b a ∧ ¬ version_le a b
  end.
Proof.
  destruct a as [[a1 a2] a3], b as [[b1 b2] b3]. unfold version_le, version_compare.
  rewrite (Z.compare_antisym b1 a1), (Z.compare_antisym b2 a2), (Z.compare_antisym b3 a3).
  destruct (Z.compare_spec b1 a1), (Z.compare_spec b2 a2), (Z.compare_spec b3 a3);
    subst; cbn; try rewrite !Z.compare_refl; cbn; naive_solver.
Qed.

Lemma version_compare_flip a b : version_compare b a = CompOpp (version_compare a b).
Proof.
  destruct a as [[a1 a2] a3], b as [[b1 b2] b3]. cbn.
  rewrite (Z.compare_antisym a1 b1), (Z.compare_antisym a2 b2), (Z.compare_antisym a3 b3).
  by destruct (a1 ?= b1), (a2 ?= b2), (a3 ?= b3).
Qed.

#[export] Instance version_le_preorder : PreOrder version_le.
Proof.
  unfold version_le. split.
  - intros [[a1 a2] a3]. cbn. by rewrite !Z.compare_refl.
  - intros [[a1 a2] a3] [[b1 b2] b3] [[c1 c2] c3]. cbn.
    destruct (Z.compare_spec a1 b1), (Z.compare_spec b1 c1), (Z.compare_spec a1 c1); try (done || lia);
    destruct (Z.compare_spec a2 b2), (Z.compare_spec b2 c2), (Z.compare_spec a2 c2); try (done || lia);
    destruct (Z.compare_spec a3 b3), (Z.compare_spec b3 c3), (Z.compare_spec a3 c3); (done || lia).
Qed.

(** The same where there may be no version yet. *)
Definition at_least (a b : option Version) : Prop :=
  match a, b with
  | None, _ => True
  | Some a, Some b => version_le a b
  | Some _, None => False
  end.

#[export] Instance at_least_preorder : PreOrder at_least.
Proof.
  split; [intros [a|]; cbn; [reflexivity | done] |].
  intros [a|] [b|] [c|]; cbn; try done. apply transitivity.
Qed.

(** ** What a verified manifest is *)

Section manifest.
Context `{UpdateEnv}.

Definition vouched (m : UpdateManifest) : Prop := ∃ raw signature, verify_manifest raw signature = Ok m.

(** The release a manifest must be of. *)
Definition names_release (m : UpdateManifest) : Prop :=
  um_schema m = 2 ∧ um_key_id m = UPDATE_KEY_ID ∧ um_platform m = UPDATE_PLATFORM ∧
  is_Some (parse_version (um_version m)) ∧
  str_len (um_published_at m) ≤ 40 ∧ str_len (um_notes_zh_cn m) ≤ 8192 ∧ str_len (um_release_url m) ≤ 2048 ∧
  um_release_url m = RELEASE_TAG_PREFIX +:+ ("windows-v" +:+ um_version m) ∧
  str_starts_with (RELEASE_DOWNLOAD_PREFIX +:+ ("windows-v" +:+ um_version m) +:+ "/") (pa_url (um_windows m)) = true ∧
  str_len (pa_url (um_windows m)) ≤ 2048 ∧
  pa_size (um_windows m) ≠ 0 ∧ pa_size (um_windows m) ≤ MAX_INSTALLER_BYTES ∧
  update_valid_sha256 (pa_sha256 (um_windows m)) = true.

Lemma validate_manifest_ok m x : validate_manifest m = Ok x ↔ names_release m.
Proof.
  unfold validate_manifest, names_release. split.
  - intros ([] & G1 & (v & G2 & ([] & G3 & ([] & G4 & G5)%result_bind_Ok)%result_bind_Ok)%result_bind_Ok)%result_bind_Ok.
    apply guard_err_Ok in G1, G3, G4, G5. bool_to_prop.
    destruct (parse_version (um_version m)) eqn:Ev; [| discriminate G2].
    repeat split; try done; try lia; eauto.
  - destruct x. intros (H1 & H2 & H3 & [v Hv] & H4 & H5 & H6 & H7 & H8 & H9 & H10 & H11 & H12).
    rewrite H1, H2, H3, H7, Hv, H8, H12, <- H7, !bool_decide_eq_true_2 by done. cbn - [str_len].
    rewrite !(proj2 (Z.ltb_ge _ _)), (proj2 (Z.eqb_neq _ _)) by done. done.
Qed.

(** A manifest is accepted exactly when manifest and signature are
    within their sizes, the built-in key signed exactly these bytes, the bytes parse,
    and what they say names a Windows release of this repository with an installer
    below it; it then remembers the bytes and the signature. *)
Theorem manifest_accepted_exactly raw signature m :
  verify_manifest raw signature = Ok m ↔
  ∃ key signed parsed,
    base64_decode (trim update_public_key) = Some key ∧
    zlength raw ≤ MAX_MANIFEST_BYTES ∧ zlength signature ≤ MAX_SIGNATURE_BYTES ∧
    public_key_der_ok key = true ∧
    base64_decode (trim (from_utf8_lossy signature)) = Some signed ∧ signature_der_ok signed = true ∧
    verify_p256 key raw signed = true ∧
    manifest_from_slice raw = Some parsed ∧ names_release parsed ∧
    m = with_verified raw signature parsed.
Proof.
  unfold verify_manifest, verify_manifest_with_key.
  split.
  - intros (key & Hk & ([] & G1 & ([] & G2 & (signed & G3 & ([] & G4 & ([] & G5 & (parsed & G6 & ([] & G7 &
      G8)%result_bind_Ok)%result_bind_Ok)%result_bind_Ok)%result_bind_Ok)%result_bind_Ok)%result_bind_Ok)%result_bind_Ok)%result_bind_Ok.
    rewrite guard_err_Ok in G1, G2, G4, G5. bool_to_prop. apply validate_manifest_ok in G7.
    unfold ok_or in Hk, G3, G6. repeat case_match; simplify_eq. eauto 20 with lia.
  - intros (key & signed & parsed & -> & ? & ? & Hd & -> & Hs & Hv & -> & Hn & ->).
    apply (validate_manifest_ok _ tt) in Hn.
    cbn. unfold guard_err. rewrite Hd, Hs, Hv, Hn, !(proj2 (Z.ltb_ge _ _)) by done. done.
Qed.

(** A manifest that was verified once is verified again from what it remembers. *)
Lemma vouched_again m : vouched m → verify_manifest (um_verified_raw m) (um_verified_signature m) = Ok m.
Proof.
  intros (raw & signature & Hm). rewrite <- Hm.
  unfold verify_manifest, verify_manifest_with_key in Hm.
  repeat (apply result_bind_Ok in Hm as (? & ? & Hm)). by injection Hm as <-.
Qed.

Lemma vouched_version m : vouched m → is_Some (parse_version (um_version m)).
Proof.
  intros (raw & signature & Hm). unfold verify_manifest, verify_manifest_with_key in Hm.
  repeat (apply result_bind_Ok in Hm as (? & ? & Hm)). injection Hm as <-.
  cbn. match goal with V : validate_manifest _ = Ok _ |- _ => by apply validate_manifest_ok in V as (_ & _ & _ & ? & _) end.
Qed.

Lemma fetched_is_vouched o m : fetch_verified_manifest o = Ok m → vouched m.
Proof.
  unfold fetch_verified_manifest. intros Hm. do 5 apply result_bind_Ok in Hm as (? & ? & Hm).
  by eexists _, _.
Qed.

Lemma verify_installer_ok o p asset x :
  verify_installer o p asset = Ok x ↔
  ∃ contents, o_file o p = Ok contents ∧ zlength contents = pa_size asset ∧
    update_sha256_hex contents = pa_sha256 asset ∧ o_authenticode o p = Ok x.
Proof.
  unfold verify_installer. split.
  - intros (contents & ? & ([] & G1 & ([] & G2 & ?)%result_bind_Ok)%result_bind_Ok)%result_bind_Ok.
    apply guard_err_Ok in G1, G2. bool_to_prop. eauto.
  - intros (contents & -> & Hl & Hh & Ha). cbn. unfold guard_err.
    by rewrite Hl, Z.eqb_refl, Hh, bool_decide_eq_true_2.
Qed.

(** ** The latest release *)

Definition eligible (r : ReleaseSummary) : Prop :=
  rl_draft r = false ∧ rl_prerelease r = false ∧ is_Some (tag_version (rl_tag_name r)).

Lemma release_before_total a b : release_before a b = false → release_before b a = true.
Proof.
  unfold release_before. destruct (tag_version (rl_tag_name a)) as [va|], (tag_version (rl_tag_name b)) as [vb|]; try done.
  rewrite (version_compare_flip va vb). by destruct (version_compare va vb).
Qed.

Lemma release_before_trans : Transitive (λ a b, release_before a b = true).
Proof.
  intros a b c. unfold release_before.
  destruct (tag_version (rl_tag_name a)) as [va|], (tag_version (rl_tag_name b)) as [vb|],
    (tag_version (rl_tag_name c)) as [vc|]; try done.
  rewrite !negb_true_iff. intros H1 H2.
  assert (version_le vc va) as Hle.
  { transitivity vb; intros Heq; [rewrite Heq in H2 | rewrite Heq in H1]; done. }
  unfold version_le in Hle. by destruct (version_compare vc va).
Qed.

(** The release that is offered is published, no preview, tagged
    with a version, and no eligible release of the list has a higher version. *)
Theorem latest_release_is_highest o url :
  latest_release_manifest_url o = Ok url →
  ∃ bytes releases r v,
    http_get o RELEASES_API_URL (512 * 1024) = Ok bytes ∧ releases_from_slice bytes = Some releases ∧
    r ∈ releases ∧ eligible r ∧ tag_version (rl_tag_name r) = Some v ∧
    url = RELEASE_DOWNLOAD_PREFIX +:+ rl_tag_name r +:+ "/flowtype-update.json" ∧
    ∀ r' v', r' ∈ releases → eligible r' → tag_version (rl_tag_name r') = Some v' → version_le v' v.
Proof.
  unfold latest_release_manifest_url.
  intros (bytes & Hget & (releases & Hrel & (tag & Htag & Hurl)%result_bind_Ok)%result_bind_Ok)%result_bind_Ok.
  unfold ok_or in Hrel, Htag. destruct (releases_from_slice bytes) as [rs|] eqn:Ers; [| done].
  injection Hrel as ->.
  pose proof (stable_sort_sorted release_before release_before_total
                (filter (λ release, rl_draft release = false ∧ rl_prerelease release = false
                                    ∧ is_Some (tag_version (rl_tag_name release))) releases)) as Hs.
  apply (Sorted_StronglySorted release_before_trans) in Hs.
  pose proof (λ r, elem_of_stable_sort release_before r
                (filter (λ release, rl_draft release = false ∧ rl_prerelease release = false
                                    ∧ is_Some (tag_version (rl_tag_name release))) releases)) as Hin.
  destruct (stable_sort _ _) as [|r sorted]; cbn in Htag; [done |].
  pose proof (proj1 (Hin r) ltac:(left)) as Hr. apply list_elem_of_filter in Hr as [[? [? [v Hv]]] Hr].
  simplify_eq. exists bytes, releases, r, v. repeat split; try done.
  intros r' v' Hr' He Hv'. apply StronglySorted_inv in Hs as [_ Hs].
  assert (r' ∈ r :: sorted) as Hr'' by (apply Hin, list_elem_of_filter; done).
  apply elem_of_cons in Hr'' as [-> | Hl]; [by simplify_eq |].
  rewrite Forall_forall in Hs. specialize (Hs r' Hl). unfold release_before in Hs.
  rewrite Hv, Hv' in Hs. unfold version_le. by destruct (version_compare v' v).
Qed.
End manifest.

(** ** Runs *)

(** The steps of the worker and of the window, each with what it finds outside. *)
Inductive Event :=
| WorkerCommand (o : Outside) (command : option Command) (deadline : bool)
| WorkerPoll (o : Outside)
| InstallBegin
| InstallEnd (o : Outside)
| RefreshLanguage.

Section runs.
Context `{UpdateEnv}.

Definition update_step (u : Updater) (e : Event) : Updater :=
  match e with
  | WorkerCommand o command deadline => worker_command o command deadline u
  | WorkerPoll o => worker_poll o u
  | InstallBegin => (install_begin u).2
  | InstallEnd o => (install_end o u).2
  | RefreshLanguage => refresh_language u
  end.

Definition run_updater (u : Updater) (events : list Event) : Updater := foldl update_step u events.

Definition vouched_if (m : option UpdateManifest) : Prop := ∀ m', m = Some m' → vouched m'.

(** Every manifest the updater keeps was verified. *)
Record trusted (u : Updater) : Prop := mkTrusted {
  tr_shared : vouched_if (su_manifest (up_shared u));
  tr_persisted : vouched_if (pu_manifest (up_persisted u));
  tr_available : vouched_if (up_available u);
  tr_active : vouched_if (ad_manifest <$> up_active u);
  tr_installing : vouched_if (fst <$> up_installing u);
}.

Definition highest_version (u : Updater) : option Version :=
  pu_highest_verified_version (up_persisted u) ≫= parse_version.

Definition saved_highest (saved : option PersistedUpdate) : option Version :=
  p ← saved; pu_highest_verified_version p ≫= parse_version.

(** Where an operation stands that started in a state with version [h] and a state file
    with version [f]: the manifests are verified, it launched nothing but [L], the highest
    version did not fall, neither did the file's, and what is available is in [A]. *)
Record going (L : path → Prop) (h f : option Version) (A : UpdateManifest → Prop) (u : Updater) : Prop := mkGoing {
  go_trusted : trusted u;
  go_launched : ∀ p, Launched p ∈ up_effects u → L p;
  go_highest : at_least h (highest_version u);
  go_floor : at_least f h;
  go_saved : at_least f (saved_highest (up_saved u));
  go_available : ∀ m, up_available u = Some m → A m;
}.

Context (L : path → Prop) (h f : option Version) (A : UpdateManifest → Prop).
Implicit Types u : Updater.

Lemma vouched_if_none : vouched_if None.
Proof. done. Qed.
Lemma vouched_if_some m : vouched m → vouched_if (Some m).
Proof. by intros ? m' [= <-]. Qed.

Lemma going_shared u x : going L h f A u → vouched_if (su_manifest x) → going L h f A (set_shared x u).
Proof. intros [[] ?????] ?. by split; [split |..]. Qed.
Lemma going_snapshot u snapshot m i :
  going L h f A u → vouched_if m → going L h f A (set_snapshot snapshot m i u).
Proof. intros Hu Hm. apply going_shared; [done |]. cbn. destruct m; [done | apply Hu]. Qed.
Lemma going_persisted u x :
  going L h f A u → vouched_if (pu_manifest x) →
  at_least (highest_version u) (pu_highest_verified_version x ≫= parse_version) →
  going L h f A (set_persisted x u).
Proof. intros [[] ? Hh ???] ??. split; [by split | done | by rewrite Hh | done..]. Qed.
Lemma going_same_manifest u x :
  going L h f A u → pu_manifest x = pu_manifest (up_persisted u) →
  pu_highest_verified_version x = pu_highest_verified_version (up_persisted u) → going L h f A (set_persisted x u).
Proof.
  intros Hu Hm Hh. apply going_persisted; [done | rewrite Hm; apply Hu | by rewrite Hh].
Qed.
Lemma going_available u m : going L h f A u → (∀ m', m = Some m' → vouched m' ∧ A m') → going L h f A (set_available_manifest m u).
Proof. intros [[] ?????] Hm. split; [split; try done | done.. |]; intros ? ?; by apply Hm. Qed.
Lemma going_active u d : going L h f A u → vouched_if (ad_manifest <$> d) → going L h f A (set_active d u).
Proof. intros [[] ?????] ?. by split; [split |..]. Qed.
Lemma going_installing u i : going L h f A u → vouched_if (fst <$> i) → going L h f A (set_installing i u).
Proof. intros [[] ?????] ?. by split; [split |..]. Qed.
Lemma going_saved u s : going L h f A u → at_least f (saved_highest s) → going L h f A (set_saved s u).
Proof. intros [[] ?????] ?. by split; [split |..]. Qed.
Lemma going_auto u b : going L h f A u → going L h f A (set_auto_pending b u).
Proof. intros [[] ?????]. by split; [split |..]. Qed.
Lemma going_save_persisted o u : going L h f A u → going L h f A (save_persisted o u).
Proof.
  intros Hu. unfold save_persisted. destruct (o_can_save o); [| done]. apply going_saved; [done |].
  etrans; apply Hu.
Qed.
Lemma going_effect u e : going L h f A u → (∀ p, e = Launched p → L p) → going L h f A (effect e u).
Proof.
  intros [[] Hl ????] He. split; [by split | | done..].
  cbn. intros p [Hp | Hp%list_elem_of_singleton]%elem_of_app; [by apply Hl | by apply He].
Qed.
Lemma going_vouched_available u m : going L h f A u → up_available u = Some m → vouched m.
Proof. intros Hu. apply Hu. Qed.
Lemma going_vouched_active u d : going L h f A u → up_active u = Some d → vouched (ad_manifest d).
Proof. intros Hu Hd. apply (tr_active _ (go_trusted _ _ _ _ _ Hu)). by rewrite Hd. Qed.
Lemma going_vouched_persisted u m : going L h f A u → pu_manifest (up_persisted u) = Some m → vouched m.
Proof. intros Hu. apply Hu. Qed.
End runs.

Create HintDb updater discriminated.
#[export] Hint Resolve vouched_if_none vouched_if_some going_shared going_snapshot going_active going_installing
  going_auto going_save_persisted : updater.

(** Go through an operation, setter by setter; what is left are the manifests. *)
Ltac going_on :=
  repeat first
    [ progress (cbn [fst snd])
    | assumption
    | apply going_snapshot; [| first [apply vouched_if_none | apply vouched_if_some; assumption]]
    | apply going_active; [| first [apply vouched_if_none | apply vouched_if_some; assumption]]
    | apply going_installing; [| first [apply vouched_if_none | apply vouched_if_some; assumption]]
    | apply going_save_persisted | apply going_auto
    | apply going_available; [| discriminate]
    | apply going_effect; [| discriminate]
    | apply going_same_manifest; [| reflexivity | reflexivity]
    | apply going_persisted; [| apply vouched_if_some; assumption | reflexivity] ].

Section operations.
Context `{UpdateEnv} (L : path → Prop) (h f : option Version) (A : UpdateManifest → Prop).
Implicit Types u : Updater.

(** What a check may make available. *)
Definition newer_than (h : option Version) (m : UpdateManifest) : Prop :=
  ∃ v now, parse_version (um_version m) = Some v ∧ parse_version CARGO_PKG_VERSION = Some now ∧
    at_least h (Some v) ∧ version_compare v now = Gt.

(** The test of the versions lets the highest one only go up. *)
Lemma highest_goes_up u m v :
  parse_version (um_version m) = Some v →
  from_option is_lt false (pu_highest_verified_version (up_persisted u) ≫= compare_versions (um_version m)) = false →
  at_least (highest_version u) (Some v).
Proof.
  unfold highest_version, compare_versions. intros Hv Hlt.
  destruct (pu_highest_verified_version (up_persisted u)) as [w|]; [| done]. cbn in *. rewrite Hv in Hlt. cbn in Hlt.
  destruct (parse_version w) as [vw|]; [| done]. cbn in *. unfold version_le.
  rewrite (version_compare_flip v vw). by destruct (version_compare v vw).
Qed.

Lemma going_available_newer o u m :
  going L h f A u → vouched m → A m →
  going L h f A
    (let u := set_available_manifest (Some m) u in
     match (p ← pu_installer_path (up_persisted u);
            if pu_verified (up_persisted u) && is_ok (o_file o p) && is_ok (verify_installer o p (um_windows m))
            then Some p else None) with
     | Some p =>
       let u := set_persisted (with_manifest (Some m) (up_persisted u)) u in
       set_ready m p (save_persisted o u)
     | None => set_available m u
     end).
Proof.
  intros Hu Hm HA. cbn zeta.
  assert (going L h f A (set_available_manifest (Some m) u)) as Hu' by (apply going_available; naive_solver).
  revert Hu'. generalize (set_available_manifest (Some m) u). intros u' Hu'.
  case_match; unfold set_ready, set_available; going_on.
Qed.

Lemma going_check o u :
  going L h f A u → (∀ m, newer_than h m → A m) → going L h f A (check_for_update o u).
Proof.
  intros Hu HA. unfold check_for_update.
  assert (going L h f A (set_snapshot (busy_snapshot (tr "正在检查更新…" "Checking for updates...") None) None None u))
    as Hu1 by going_on.
  clear Hu. revert Hu1. generalize (set_snapshot (busy_snapshot (tr "正在检查更新…" "Checking for updates...") None) None None u).
  intros u1 Hu1. destruct (fetch_verified_manifest o) as [m|e] eqn:Ef; [| case_bool_decide; unfold set_failure; going_on].
  apply fetched_is_vouched in Ef. destruct (vouched_version _ Ef) as [v Hv].
  assert (going L h f A (set_persisted (with_last_check (o_unix_time o) (up_persisted u1)) u1)) as Hu2 by going_on.
  clear Hu1. revert Hu2. generalize (set_persisted (with_last_check (o_unix_time o) (up_persisted u1)) u1).
  intros u2 Hu2. cbn zeta.
  destruct (from_option is_lt false _) eqn:Elt; [unfold set_failure; going_on |].
  pose proof (highest_goes_up _ _ _ Hv Elt) as Hup.
  assert (at_least h (Some v)) as Hh by (etrans; [apply Hu2 | done]).
  assert (going L h f A (if from_option is_gt true
      (pu_highest_verified_version (up_persisted u2) ≫= compare_versions (um_version m))
    then set_persisted (with_highest (Some (um_version m)) (up_persisted u2)) u2 else u2)) as Hu3.
  { destruct (from_option is_gt true _); [| done].
    apply going_persisted; [done | intros ? ?; by eapply going_vouched_persisted |]. cbn. by rewrite Hv. }
  apply going_save_persisted with (o := o) in Hu3. revert Hu3.
  generalize (save_persisted o (if from_option is_gt true
      (pu_highest_verified_version (up_persisted u2) ≫= compare_versions (um_version m))
    then set_persisted (with_highest (Some (um_version m)) (up_persisted u2)) u2 else u2)).
  intros u3 Hu3. destruct (compare_versions _ _) as [[]|] eqn:Ec; try (unfold set_failure; going_on).
  apply going_available_newer; [done | done |]. apply HA.
  unfold compare_versions in Ec. rewrite Hv in Ec. cbn - [version_compare CARGO_PKG_VERSION] in Ec.
  unfold newer_than. destruct (parse_version CARGO_PKG_VERSION) as [now|] eqn:En; [| done].
  exists v, now. repeat split; try done. by injection Ec.
Qed.

Lemma going_start o m u r u' :
  going L h f A u → vouched m → start_download o m u = (r, u') →
  going L h f A u' ∧ (∀ d, r = Ok d → ad_manifest d = m).
Proof.
  intros Hu Hm. unfold start_download.
  case_match; [| by intros [= <- <-]].
  assert (∀ p job, going L h f A (set_persisted (with_is_verified false (with_installer (Some p) (with_manifest (Some m)
      (with_job (Some job) (up_persisted (effect (Removed p) u)))))) (effect (Removed p) u))) as Hgo by (intros; going_on).
  repeat case_match; intros [= <- <-]; split; try (naive_solver || going_on); apply Hgo.
Qed.

Lemma going_poll_download o d u :
  going L h f A u → vouched (ad_manifest d) → going L h f A (poll_download o d u).2.
Proof. intros Hu Hd. unfold poll_download, set_ready. repeat case_match; going_on. Qed.

Lemma going_command o c deadline u :
  going L h f A u → (∀ m, newer_than h m → A m) → going L h f A (worker_command o c deadline u).
Proof.
  intros Hu HA. unfold worker_command. destruct c as [[]|].
  - apply going_check; [going_on | done].
  - destruct (up_active u); [done |]. destruct (up_available u) as [m|] eqn:Em; [| done].
    pose proof (going_vouched_available _ _ _ _ _ _ Hu Em) as Hm.
    destruct (start_download o m u) as [[d|e] u'] eqn:E; apply going_start in E as [Hu' Hd]; try done;
      [| unfold set_download_failure; going_on].
    rewrite <- (Hd d eq_refl) in *. going_on.
  - set (u1 := match up_active u with Some _ => _ | None => _ end).
    assert (going L h f A u1) as Hu1 by (subst u1; case_match; going_on). clearbody u1. cbn zeta.
    assert (going L h f A (save_persisted o (set_persisted (no_download (up_persisted u1)) u1))) as Hu2 by going_on.
    revert Hu2. generalize (save_persisted o (set_persisted (no_download (up_persisted u1)) u1)). intros u2 Hu2.
    destruct (up_available u2) as [m|] eqn:Em; [| going_on].
    pose proof (going_vouched_available _ _ _ _ _ _ Hu2 Em) as Hm. unfold set_available. going_on.
  - destruct (_ && _); [apply going_check; [going_on | done] | done].
Qed.

Lemma going_poll o u : going L h f A u → going L h f A (worker_poll o u).
Proof.
  intros Hu. unfold worker_poll. destruct (up_active u) as [d|] eqn:Ed; [| done].
  pose proof (going_vouched_active _ _ _ _ _ _ Hu Ed) as Hd.
  pose proof (going_poll_download o d u Hu Hd) as Hu'.
  destruct (poll_download o d u) as [[] u']; cbn in Hu'; unfold set_download_failure; going_on.
Qed.

Lemma going_install_begin u : going L h f A u → going L h f A (install_begin u).2.
Proof.
  intros Hu. unfold install_begin. destruct (su_manifest (up_shared u)) as [m|] eqn:Em; [| done].
  pose proof (tr_shared _ (go_trusted _ _ _ _ _ Hu) _ Em) as Hm. case_match; going_on.
Qed.

(** Only here something is launched. *)
Lemma going_install_end o u :
  going L h f A u →
  (∀ m p, up_installing u = Some (m, p) → verify_installer o p (um_windows m) = Ok tt → L p) →
  going L h f A (install_end o u).2.
Proof.
  intros Hu HL. unfold install_end. destruct (up_installing u) as [[m p]|] eqn:Ei; [| done].
  assert (vouched m) as Hm by (apply (tr_installing _ (go_trusted _ _ _ _ _ Hu)); by rewrite Ei). cbn zeta.
  destruct (verify_installer o p (um_windows m)) as [[]|e] eqn:Ev.
  - destruct (o_shell_open o); unfold set_install_failure; [| going_on].
    apply going_effect; [going_on |]. intros ? [= <-]. by eapply HL.
  - unfold invalidate_persisted_installer, set_download_failure.
    assert (at_least f (saved_highest (Some (no_download (default PersistedUpdate_default (up_saved u)))))) as Hs.
    { pose proof (go_saved _ _ _ _ _ Hu) as Hs. by destruct (up_saved u). }
    repeat case_match; going_on; apply going_saved; by going_on.
Qed.

Lemma going_refresh u : going L h f A u → going L h f A (refresh_language u).
Proof.
  intros Hu. unfold refresh_language. destruct (us_action _); cbn; apply going_shared; (done || apply Hu).
Qed.

Lemma going_restore o u : going L h f A u → going L h f A (restore_download o u).
Proof.
  intros Hu. unfold restore_download. destruct (pu_manifest (up_persisted u)) as [m|] eqn:Em; [| done].
  pose proof (going_vouched_persisted _ _ _ _ _ _ Hu Em) as Hm. unfold set_ready. repeat case_match; going_on.
Qed.
End operations.

Section whole_runs.
Context `{UpdateEnv}.

(** What a start takes from the state file: its manifest, when that verifies again. *)
Definition kept_manifest (saved : option PersistedUpdate) (m : UpdateManifest) : Prop :=
  ∃ p cached, saved = Some p ∧ pu_manifest p = Some cached ∧
    verify_manifest (um_verified_raw cached) (um_verified_signature cached) = Ok m.

Lemma restore_download_persisted o u : up_persisted (restore_download o u) = up_persisted u.
Proof. unfold restore_download, set_ready. by repeat case_match. Qed.

Lemma start_is_trusted o saved :
  going (λ _, False) (saved_highest saved) (saved_highest saved) (kept_manifest saved) (worker_start o saved).
Proof.
  unfold worker_start. set (p := default _ saved). set (m := cached ← pu_manifest p; _). cbn zeta.
  assert (∀ m', m = Some m' → vouched m' ∧ kept_manifest saved m') as Hm.
  { subst m p. intros m'. destruct saved as [p|]; [| done]. cbn. destruct (pu_manifest p) as [cached|] eqn:Ep; [| done]. cbn.
    destruct (verify_manifest _ _) as [m|] eqn:E; [| done]. intros [= <-]. split; [by eexists _, _ | by exists p, cached]. }
  assert (highest_version (mkUpdater (mkSharedUpdate UpdateSnapshot_idle None None) (with_manifest m p) None None false saved None [])
          = saved_highest saved) as Hh by (subst p; by destruct saved).
  clearbody m p.
  assert (going (λ _, False) (saved_highest saved) (saved_highest saved) (kept_manifest saved)
    (mkUpdater (mkSharedUpdate UpdateSnapshot_idle None None) (with_manifest m p) None None false saved None [])) as Hu.
  { split; [split; try done | by intros ? ?%elem_of_nil | by rewrite Hh | done..]. intros m' Hm'. by apply Hm. }
  assert (pu_manifest (up_persisted (mkUpdater (mkSharedUpdate UpdateSnapshot_idle None None) (with_manifest m p) None None false saved None [])) = m) as Hpm by done.
  revert Hu Hpm. generalize (mkUpdater (mkSharedUpdate UpdateSnapshot_idle None None) (with_manifest m p) None None false saved None []).
  intros u Hu Hpm. apply going_auto. set (u1 := match m with Some _ => u | None => _ end).
  assert (going (λ _, False) (saved_highest saved) (saved_highest saved) (kept_manifest saved) u1) as Hu1
    by (subst u1; clear Hpm; destruct m; going_on).
  assert (pu_manifest (up_persisted u1) = m) as Hpm1.
  { subst u1. destruct m; [done |]. unfold save_persisted. by destruct (o_can_save o). }
  rewrite restore_download_persisted, Hpm1. apply going_available; [by apply going_restore | done].
Qed.

Lemma going_step L h f A u e :
  going L h f A u → (∀ m, newer_than h m → A m) →
  (∀ o m p, e = InstallEnd o → up_installing u = Some (m, p) → vouched m →
    verify_installer o p (um_windows m) = Ok tt → L p) →
  going L h f A (update_step u e).
Proof.
  intros Hu HA HL. destruct e; cbn.
  - by apply going_command.
  - by apply going_poll.
  - by apply going_install_begin.
  - apply going_install_end; [done |]. intros m p Hm. apply (HL _ m p); try done.
    apply (tr_installing _ (go_trusted _ _ _ _ _ Hu)). by rewrite Hm.
  - by apply going_refresh.
Qed.

(** A launch was of an installer that verified in the step that launched it. *)
Definition launch_was_verified (start : Updater) (events : list Event) (p : path) : Prop :=
  ∃ before o after m,
    events = before ++ InstallEnd o :: after ∧ up_installing (run_updater start before) = Some (m, p) ∧
    vouched m ∧ verify_installer o p (um_windows m) = Ok tt.

Lemma launch_was_verified_app start events more p :
  launch_was_verified start events p → launch_was_verified start (events ++ more) p.
Proof. intros (b & o & a & m & -> & ?). exists b, o, (a ++ more), m. by rewrite <- app_assoc. Qed.

Lemma going_run o saved events :
  going (launch_was_verified (worker_start o saved) events) (saved_highest saved) (saved_highest saved) (λ _, True)
    (run_updater (worker_start o saved) events).
Proof.
  induction events as [|e events IH] using rev_ind.
  - destruct (start_is_trusted o saved). split; try done. naive_solver.
  - unfold run_updater in *. rewrite foldl_app. cbn. apply going_step; [| done |].
    + destruct IH. split; try done. intros p Hp. apply launch_was_verified_app. auto.
    + intros o' m p -> Hi Hm Hv. by exists events, o', [], m.
Qed.

(** C8. (safety) In every run of the worker and the window, started from any state
    file: an installer is only launched by the end of an installation, when the file at
    its path has the size and hash, and carries the signer, that a manifest asks for; and
    the built-in key signed the very bytes of that manifest, which name a Windows release
    of this repository. *)
Theorem launched_installer_was_verified o saved events p :
  Launched p ∈ up_effects (run_updater (worker_start o saved) events) →
  ∃ before o' after m contents key raw signature signed parsed,
    events = before ++ InstallEnd o' :: after ∧
    up_installing (run_updater (worker_start o saved) before) = Some (m, p) ∧
    o_file o' p = Ok contents ∧ zlength contents = pa_size (um_windows m) ∧
    update_sha256_hex contents = pa_sha256 (um_windows m) ∧ o_authenticode o' p = Ok tt ∧
    base64_decode (trim update_public_key) = Some key ∧ public_key_der_ok key = true ∧
    base64_decode (trim (from_utf8_lossy signature)) = Some signed ∧ signature_der_ok signed = true ∧
    verify_p256 key raw signed = true ∧
    manifest_from_slice raw = Some parsed ∧ names_release parsed ∧ m = with_verified raw signature parsed.
Proof.
  intros (before & o' & after & m & -> & Hi & (raw & signature & Hm) & (contents & Hv)%verify_installer_ok)%(go_launched _ _ _ _ _ (going_run _ _ _)).
  apply manifest_accepted_exactly in Hm as (key & signed & parsed & Hm).
  exists before, o', after, m, contents, key, raw, signature, signed, parsed. naive_solver.
Qed.

(** The state file after runs of the application, each from what the last one left. *)
Definition file_after : option PersistedUpdate → list (Outside * list Event) → option PersistedUpdate :=
  foldl (λ saved '(o, events), up_saved (run_updater (worker_start o saved) events)).

Lemma file_after_highest saved lives : at_least (saved_highest saved) (saved_highest (file_after saved lives)).
Proof.
  revert saved. induction lives as [|[o events] lives IH]; intros saved; [reflexivity |].
  etrans; [exact (go_saved _ _ _ _ _ (going_run o saved events)) | apply IH].
Qed.


(** ** The button *)

(** What is on the button can be done. *)
Definition button_works (u : Updater) : Prop :=
  match us_action (su_snapshot (up_shared u)) with
  | UaInstall => is_Some (su_manifest (up_shared u)) ∧ is_Some (su_installer_path (up_shared u))
  | UaCancel => is_Some (up_active u)
  | _ => True
  end.

(** Every snapshot but a running download's is good by itself. *)
Lemma button_snapshot s m i u :
  us_action s ≠ UaCancel → (us_action s = UaInstall → is_Some m ∧ is_Some i) → button_works (set_snapshot s m i u).
Proof.
  unfold button_works, set_snapshot. cbn. intros ? Hi.
  destruct (us_action s); try done. destruct (Hi eq_refl) as [[? ->] [? ->]]. by split; eexists.
Qed.

Lemma button_same u u' : up_shared u' = up_shared u → up_active u' = up_active u → button_works u → button_works u'.
Proof. unfold button_works. by intros -> ->. Qed.

Ltac pressed := apply button_snapshot; cbn; [discriminate | try discriminate; eauto].

Lemma button_check o u : button_works (check_for_update o u).
Proof. unfold check_for_update. repeat case_match; pressed. Qed.

Lemma button_command o c deadline u : button_works u → button_works (worker_command o c deadline u).
Proof.
  intros Hu. unfold worker_command. destruct c as [[]|].
  - apply button_check.
  - destruct (up_active u); [done |]. destruct (up_available u) as [m|]; [| done].
    destruct (start_download o m u) as [[d|e] u']; [by eexists | pressed].
  - case_match; pressed.
  - destruct (_ && _); [apply button_check | done].
Qed.

Lemma button_poll o u : button_works u → button_works (worker_poll o u).
Proof.
  intros Hu. unfold worker_poll. destruct (up_active u) as [d|] eqn:Ed; [| done].
  destruct (poll_download o d u) as [[] u'] eqn:E; [| | pressed].
  - unfold poll_download in E. repeat case_match; simplify_eq; unfold button_works; cbn; by eexists.
  - unfold poll_download in E. repeat case_match; simplify_eq; unfold button_works; cbn; by split; eexists.
Qed.

Lemma button_install_begin u : button_works u → button_works (install_begin u).2.
Proof. intros Hu. unfold install_begin. by repeat case_match. Qed.

Lemma button_install_end o u : button_works u → button_works (install_end o u).2.
Proof.
  intros Hu. unfold install_end. destruct (up_installing u) as [[m p]|]; [| done].
  cbn zeta. destruct (verify_installer _ _ _); [| pressed]. destruct (o_shell_open o); [| pressed].
  by apply (button_same u).
Qed.

Lemma button_refresh u : button_works u → button_works (refresh_language u).
Proof. unfold button_works, refresh_language. destruct (us_action (su_snapshot (up_shared u))); done. Qed.

Lemma button_start o saved : button_works (worker_start o saved).
Proof.
  unfold worker_start. set (m := cached ← _; _). clearbody m. cbn zeta.
  set (u := match m with Some _ => _ | None => _ end).
  assert (button_works u) as Hu.
  { subst u. destruct m; [done |]. unfold save_persisted. by destruct (o_can_save o). }
  clearbody u. apply (button_same (restore_download o u)); [done | done |].
  unfold restore_download. repeat case_match; try done; try pressed; by eexists.
Qed.

(** In every run the button that is shown can be used: Install has a
    manifest and an installer to install, Cancel has a download to cancel. *)
Theorem shown_button_works o saved events :
  let u := run_updater (worker_start o saved) events in
  (us_action (su_snapshot (up_shared u)) = UaInstall → (install_begin u).1 = Ok tt) ∧
  (us_action (su_snapshot (up_shared u)) = UaCancel →
   ∃ d, up_active u = Some d ∧
     ∀ o', JobCancelled (ad_job d) ∈ up_effects (worker_command o' (Some CmdCancel) false u)).
Proof.
  cbn zeta. assert (button_works (run_updater (worker_start o saved) events)) as Hb.
  { induction events as [|e events IH] using rev_ind; [apply button_start |].
    unfold run_updater in *. rewrite foldl_app. destruct e; cbn;
      [by apply button_command | by apply button_poll | by apply button_install_begin
      | by apply button_install_end | by apply button_refresh]. }
  revert Hb. generalize (run_updater (worker_start o saved) events). intros u Hb. unfold button_works in Hb. split.
  - intros Ha. rewrite Ha in Hb. destruct Hb as [[m Hm] [p Hp]]. unfold install_begin. by rewrite Hm, Hp.
  - intros Ha. rewrite Ha in Hb. destruct Hb as [d Hd]. exists d. split; [done |]. intros o'.
    unfold worker_command. rewrite Hd. unfold set_available, set_snapshot, set_shared, save_persisted.
    destruct (o_can_save o'); cbn; case_match; cbn; rewrite <- app_assoc; set_solver.
Qed.

(** What was saved comes back at the next start, from the state file
    alone: a verified installer is offered again when its file still verifies, and
    else the download goes on as the same job, to the same file. *)
Theorem restart_restores o saved m p :
  pu_manifest saved = Some m → pu_installer_path saved = Some p →
  verify_manifest (um_verified_raw m) (um_verified_signature m) = Ok m →
  let u := worker_start o (Some saved) in
  up_available u = Some m ∧ up_persisted u = saved ∧
  (pu_verified saved = true → verify_installer o p (um_windows m) = Ok tt →
   us_action (su_snapshot (up_shared u)) = UaInstall ∧ up_active u = None ∧
   (install_begin u).1 = Ok tt ∧ up_installing (install_begin u).2 = Some (m, p)) ∧
  (∀ job, pu_verified saved = false → pu_job_id saved = Some job →
   o_bits_manager o = Ok tt → o_get_job o job = Ok tt →
   us_action (su_snapshot (up_shared u)) = UaCancel ∧ up_active u = Some (mkActiveDownload job p m)).
Proof.
  destruct saved as [check highest job' manifest installer verified]. cbn. intros -> -> Hv. unfold worker_start.
  cbn - [verify_manifest verify_installer should_auto_check restore_download]. rewrite Hv.
  unfold restore_download. cbn - [verify_manifest verify_installer should_auto_check downloading_snapshot]. split_and!.
  - repeat case_match; done.
  - repeat case_match; done.
  - intros -> Hi. pose proof Hi as (contents & Hf & _)%verify_installer_ok.
    by rewrite Hf, Hi.
  - intros job -> -> -> Hj. by rewrite Hj.
Qed.
End whole_runs.

(** ** On the sample *)

Definition sample_check : Event := WorkerCommand (sample_outside [80] JobQueued) (Some CmdCheck) false.
Definition sample_fetch : Event := WorkerCommand (sample_outside [80] JobQueued) (Some CmdDownload) false.
Definition sample_arrived : Event := WorkerPoll (sample_outside [80] JobTransferred).
Definition sample_launch : list Event := [InstallBegin; InstallEnd (sample_outside [80] JobQueued)].
Definition sample_ready : list Event := [sample_check; sample_fetch; sample_arrived].

Lemma latest_release_is_highest_witness :
  ∃ r, eligible r ∧ RELEASE_DOWNLOAD_PREFIX +:+ "windows-v0.4.0" +:+ "/flowtype-update.json"
                    = RELEASE_DOWNLOAD_PREFIX +:+ rl_tag_name r +:+ "/flowtype-update.json".
Proof.
  assert (latest_release_manifest_url (sample_outside [80] JobQueued)
          = Ok (RELEASE_DOWNLOAD_PREFIX +:+ "windows-v0.4.0" +:+ "/flowtype-update.json")) as H
    by (vm_compute; reflexivity).
  destruct (latest_release_is_highest _ _ H) as (bytes & releases & r & v & _ & _ & _ & He & _ & Hu & _).
  exists r. split; [exact He | exact Hu].
Defined.

Lemma launched_installer_was_verified_witness :
  Launched sample_installer ∈ up_effects (run_updater (worker_start (sample_outside [80] JobQueued) None) (sample_ready ++ sample_launch)) ∧
  ∃ before o' after, sample_ready ++ sample_launch = before ++ InstallEnd o' :: after.
Proof.
  assert (Launched sample_installer ∈ up_effects (run_updater (worker_start (sample_outside [80] JobQueued) None)
    (sample_ready ++ sample_launch))) as H by (vm_compute; set_solver).
  split; [exact H |].
  destruct (launched_installer_was_verified _ _ _ _ H) as (before & o' & after & m & contents & key & raw & signature & signed & parsed & He & _).
  by exists before, o', after.
Defined.


Lemma shown_button_works_witness :
  (install_begin (run_updater (worker_start (sample_outside [80] JobQueued) None) sample_ready)).1 = Ok tt.
Proof.
  apply (proj1 (shown_button_works (sample_outside [80] JobQueued) None sample_ready)). vm_compute. reflexivity.
Defined.

(** What the updater saved when it ran as the version before. *)
Definition sample_saved (m : UpdateManifest) (p : path) : PersistedUpdate :=
  mkPersistedUpdate 1000000 (Some (um_version m)) None (Some m) (Some p) true.

Lemma restart_restores_witness :
  us_action (su_snapshot (up_shared (worker_start (sample_outside [80] JobQueued)
    (Some (sample_saved sample_new sample_installer))))) = UaInstall.
Proof.
  refine (proj1 (proj1 (proj2 (proj2 (restart_restores (sample_outside [80] JobQueued)
    (sample_saved sample_new sample_installer) sample_new sample_installer _ _ _))) _ _));
    vm_compute; reflexivity.
Defined.

(** A manifest is refused that another one's signature is put to. *)
Example sample_forged : verify_manifest [66] [65] = Err "Update signature mismatch".
Proof. vm_compute. reflexivity. Qed.

(** Finding: at a start the saved version is not compared with the running one, so the
    application that an update has just installed offers to install it again. *)
Theorem restart_offers_running_version :
  um_version sample_now = CARGO_PKG_VERSION ∧
  let u := worker_start (sample_outside [80] JobQueued) (Some (sample_saved sample_now sample_installer_now)) in
  us_action (su_snapshot (up_shared u)) = UaInstall ∧ up_auto_pending u = false ∧
  Launched sample_installer_now ∈ up_effects (run_updater u sample_launch).
Proof. split; [reflexivity |]. cbn zeta. split_and!; [vm_compute; reflexivity | vm_compute; reflexivity | vm_compute; set_solver]. Qed.

(** Finding: a check that finds no release while a download runs forgets what is
    available; when the download then fails, the button to retry it does nothing. *)
Theorem retry_download_does_nothing :
  ∃ events, let u := run_updater (worker_start (sample_outside [80] JobQueued) None) events in
    us_action (su_snapshot (up_shared u)) = UaDownload ∧
    us_action_label (su_snapshot (up_shared u)) = "Retry download" ∧
    ∀ o deadline, worker_command o (perform UaDownload) deadline u = u.
Proof.
  exists [sample_check; sample_fetch; WorkerCommand (sample_outside [81] JobQueued) (Some CmdCheck) false;
    WorkerPoll (sample_outside [81] JobError)].
  cbn zeta. split_and!; [vm_compute; reflexivity | vm_compute; reflexivity |]. intros o deadline.
  vm_compute. reflexivity.
Qed.
