(* ===== verification/Authenticode.v ===== *)
(** * The signature of an installer

    [flowtype-app/src/update.rs verify_authenticode]: what the app makes of what Windows
    says of a signed file. The trust provider and its data are the system; [Update] takes
    the result as what is outside. *)

From S2P Require Import Prelude Text.
Local Open Scope string_scope.
Local Open Scope list_scope.
Local Open Scope Z_scope.

(** ** What Windows says *)

(** [CERT_E_UNTRUSTEDROOT], a signature that is right but leads to no trusted root. *)
Definition CERT_E_UNTRUSTEDROOT : Z := -2146762487.

(** Of the file: the status of its verification, whether there is data of it, and whether
    a provider, a signer and a certificate are found in it; the property is what is written
    to the buffer of 32 bytes, with the length that is told. *)
Record Trust := mkTrust {
  ta_status : Z;
  ta_state : bool;
  ta_provider : bool;
  ta_signer : bool;
  ta_certificate : bool;
  ta_property : option (list Z * Z);
}.

Inductive TrustCall := TrustVerify | TrustProvider | TrustSigner | TrustCertificate | TrustProperty | TrustClose.

Notation trust := (sr (list TrustCall) string).

Definition says {A} (c : TrustCall) (a : A) : trust A := λ calls, (Ok a, calls ++ [c]).

(** A pointer that must not be null. *)
Definition there_is (c : TrustCall) (found : bool) (error : string) : trust unit :=
  found ← says c found; if found : bool then mret tt else sr_fail error.

Section authenticode.
Context (english : bool).
Notation tr chinese english' := (if english then english' else chinese).

(** [format!("{byte:02x}")] *)
Definition hex_digit (d : Z) : Z := if d <? 10 then 48 + d else 87 + d.
Definition hex_byte (b : Z) : list Z := [hex_digit (b / 16); hex_digit (b mod 16)].
Definition hex_text (l : list Z) : string := of_bytes (l ≫= hex_byte).

(** [app/update.rs signer_certificate_sha256] *)
Definition signer_certificate_sha256 (t : Trust) : trust string :=
  _ ← there_is TrustProvider (ta_provider t) (tr "无法读取 Authenticode 验证结果" "Could not read the Authenticode result");
  _ ← there_is TrustSigner (ta_signer t) (tr "安装包没有 Authenticode 签名者" "The installer has no Authenticode signer");
  _ ← there_is TrustCertificate (ta_certificate t) (tr "无法读取 Authenticode 签名证书" "Could not read the Authenticode certificate");
  property ← says TrustProperty (ta_property t);
  match property with
  | Some (hash, length) =>
    if negb (length =? 32) then
      sr_fail (tr "无法计算 Authenticode 证书指纹" "Could not calculate the Authenticode certificate fingerprint")
    else mret (hex_text hash)
  | None => sr_fail (tr "无法计算 Authenticode 证书指纹" "Could not calculate the Authenticode certificate fingerprint")
  end.

(** [app/update.rs authenticode_status_is_acceptable] *)
Definition authenticode_status_is_acceptable (status : Z) : bool := (status =? 0) || (status =? CERT_E_UNTRUSTEDROOT).

(** [app/update.rs:1139-1150 verify_authenticode] The certificate the build trusts, when it
    names one. *)
Definition pinned_certificate (built_in : option string) : option string :=
  match built_in with
  | Some value =>
    let digits := to_ascii_lowercase <$> filter (λ b, b ≠ 58) (bytes_of value) in
    if (zlength digits =? 64) && forallb is_ascii_hexdigit digits then Some (of_bytes digits) else None
  | None => None
  end.

Definition status_text (status : Z) : string := " (0x" +:+ of_bytes (flat_map hex_byte (rev (to_le_bytes 4 (status mod 2 ^ 32)))) +:+ ")".

(** [app/update.rs verify_authenticode] The data of the verification is closed whatever was
    found in it. *)
Definition verify_authenticode (built_in : option string) (t : Trust) : trust unit :=
  expected ← sr_lift (ok_or (pinned_certificate built_in)
    (tr "此构建未固定正式发布证书，不能安装在线更新" "This build does not trust a release certificate and cannot install online updates"));
  status ← says TrustVerify (ta_status t);
  signer_hash ← (λ calls,
    if ta_state t then let '(r, calls) := signer_certificate_sha256 t calls in (Ok r, calls) else (Ok (Err ""), calls));
  _ ← says TrustClose tt;
  if negb (authenticode_status_is_acceptable status) then
    sr_fail (tr "Authenticode 验证失败" "Authenticode verification failed" +:+ status_text status)
  else
    actual ← sr_lift signer_hash;
    if negb (bool_decide (actual = expected)) then
      sr_fail (tr "安装包签名证书不是 FlowType 正式发布证书" "The installer is not signed with the FlowType release certificate")
    else mret tt.

(** [app/update.rs verify_release_installer] *)
Definition verify_release_installer (built_in : option string) (t : Trust) : trust unit := verify_authenticode built_in t.

(** ** What is accepted *)

Lemma hex_digit_inj a b : 0 ≤ a < 16 → 0 ≤ b < 16 → hex_digit a = hex_digit b → a = b.
Proof. unfold hex_digit. destruct (Z.ltb_spec a 10), (Z.ltb_spec b 10); lia. Qed.

Lemma hex_digit_byte a : 0 ≤ a < 16 → byte_ok (hex_digit a).
Proof. unfold hex_digit, byte_ok. destruct (Z.ltb_spec a 10); lia. Qed.

Lemma nibbles b : byte_ok b → 0 ≤ b / 16 < 16 ∧ 0 ≤ b mod 16 < 16.
Proof.
  intros Hb. unfold byte_ok in Hb. split; [| by apply Z.mod_pos_bound].
  split; [apply Z.div_pos; lia | apply Z.div_lt_upper_bound; lia].
Qed.

Lemma hex_bytes_inj l k : Forall byte_ok l → Forall byte_ok k → l ≫= hex_byte = k ≫= hex_byte → l = k.
Proof.
  intros Hl. revert k. induction Hl as [|b l Hb Hl IH]; intros k Hk Heq; destruct Hk as [|c k Hc Hk]; [done.. |].
  cbn in Heq. injection Heq as H1 H2 Heq. destruct (nibbles b Hb), (nibbles c Hc).
  apply hex_digit_inj in H1, H2; [| done..]. f_equal; [| by apply IH].
  rewrite (Z.div_mod b 16), (Z.div_mod c 16) by lia. congruence.
Qed.

Lemma hex_text_inj l k : Forall byte_ok l → Forall byte_ok k → hex_text l = hex_text k → l = k.
Proof.
  assert (∀ l, Forall byte_ok l → bytes_of (hex_text l) = l ≫= hex_byte) as Hback.
  { intros l' Hl. apply bytes_of_of_bytes. induction Hl as [|b l' Hb Hl IH]; [constructor |]. cbn.
    destruct (nibbles b Hb). by repeat constructor; try apply hex_digit_byte. }
  intros Hl Hk Heq. apply (f_equal bytes_of) in Heq. rewrite !Hback in Heq by done. by apply hex_bytes_inj.
Qed.

(** What was opened for the verification is closed, once and at the end. *)
Definition closed_calls (calls : list TrustCall) : Prop :=
  calls = [] ∨ ∃ middle, calls = TrustVerify :: middle ++ [TrustClose] ∧ TrustVerify ∉ middle ∧ TrustClose ∉ middle.

(** A file is accepted exactly when its signature is right, but for the root, and the
    certificate of the signer has the digest that the build names; and the data of the
    verification is always closed. *)
Theorem accepted_exactly built_in t :
  let '(r, calls) := verify_authenticode built_in t [] in
  closed_calls calls ∧
  (r = Ok tt ↔ ∃ expected hash,
     pinned_certificate built_in = Some expected ∧ ta_state t = true ∧ ta_provider t = true ∧ ta_signer t = true ∧
     ta_certificate t = true ∧ ta_property t = Some (hash, 32) ∧ authenticode_status_is_acceptable (ta_status t) = true ∧
     expected = hex_text hash).
Proof.
  (* what is found of the signer, and the calls it takes *)
  assert (∀ calls, ∃ r middle, signer_certificate_sha256 t calls = (r, calls ++ middle) ∧ TrustVerify ∉ middle ∧ TrustClose ∉ middle ∧
    ∀ actual, r = Ok actual ↔ ta_provider t = true ∧ ta_signer t = true ∧ ta_certificate t = true ∧
      ∃ hash, ta_property t = Some (hash, 32) ∧ actual = hex_text hash) as Hsigner.
  { intros calls. unfold signer_certificate_sha256, there_is, says, mbind, sr_bind, mret, sr_ret, sr_fail.
    destruct (ta_provider t), (ta_signer t), (ta_certificate t), (ta_property t) as [[hash length] |]; cbn; rewrite <- ?app_assoc; cbn;
      try destruct (Z.eqb_spec length 32) as [-> | Hne]; cbn; do 2 eexists; (split; [reflexivity |]);
      (split; [set_solver |]); (split; [set_solver |]); naive_solver. }
  unfold verify_authenticode, says, sr_lift, mbind, sr_bind, mret, sr_ret, sr_fail. destruct (pinned_certificate built_in) as [expected |]; cbn; [| split; [by left | naive_solver]].
  destruct (ta_state t) eqn:Hstate; cbn.
  - destruct (Hsigner [TrustVerify]) as (r & middle & -> & Hv & Hc & Hr). cbn.
    assert (closed_calls (TrustVerify :: middle ++ [TrustClose])) as Hclosed by (right; by exists middle).
    destruct (authenticode_status_is_acceptable (ta_status t)); cbn; [| split; [done | naive_solver]].
    destruct r as [actual | e]; cbn; [case_bool_decide as Heq; cbn |]; (split; [done |]).
    + split; [intros _ | done]. destruct (proj1 (Hr actual) eq_refl) as (? & ? & ? & hash & ? & ->). exists expected, hash. by rewrite Heq.
    + split; [done |]. intros (? & hash & [= <-] & _ & ? & ? & ? & Hhash & _ & ->). exfalso. apply Heq.
      destruct (proj1 (Hr actual) eq_refl) as (_ & _ & _ & hash' & Hhash' & ->). congruence.
    + split; [done |]. intros (? & hash & [= <-] & _ & ? & ? & ? & ? & _ & ->). exfalso.
      assert (Err e = Ok (hex_text hash)) by (apply Hr; naive_solver). done.
  - destruct (authenticode_status_is_acceptable (ta_status t)); cbn;
      (split; [right; exists []; split_and!; [done | apply not_elem_of_nil..] | naive_solver]).
Qed.

(** One certificate only: two files that the same build accepts have the same signer. *)
Lemma one_certificate built_in t1 t2 h1 h2 calls1 calls2 :
  verify_authenticode built_in t1 [] = (Ok tt, calls1) → verify_authenticode built_in t2 [] = (Ok tt, calls2) →
  ta_property t1 = Some (h1, 32) → ta_property t2 = Some (h2, 32) → Forall byte_ok h1 → Forall byte_ok h2 → h1 = h2.
Proof.
  intros H1 H2 Hp1 Hp2 Hb1 Hb2. pose proof (accepted_exactly built_in t1) as A1. pose proof (accepted_exactly built_in t2) as A2.
  rewrite H1 in A1. rewrite H2 in A2. destruct A1 as [_ A1], A2 as [_ A2].
  destruct (proj1 A1 eq_refl) as (e1 & k1 & He1 & _ & _ & _ & _ & Hk1 & _ & ->).
  destruct (proj1 A2 eq_refl) as (e2 & k2 & He2 & _ & _ & _ & _ & Hk2 & _ & ->).
  rewrite Hp1 in Hk1. rewrite Hp2 in Hk2. injection Hk1 as ->. injection Hk2 as ->. apply hex_text_inj; [done.. | congruence].
Qed.
End authenticode.
