(* ===== verification/Identity.v ===== *)
(** * The identity of the computer

    [flowtype-app/src/identity.rs]: the file that holds the id, the name, the
    certificate and the private key of the computer. The key is kept encrypted by
    the data protection of Windows; a key an older version left in plain text is
    encrypted the first time it is read. serde_json, base64, rcgen and the two
    calls of Windows are parameters. *)

From S2P Require Import Prelude Text Disk DiskLogic.
Local Open Scope string_scope.
Local Open Scope list_scope.
Local Open Scope Z_scope.

(** [app/identity.rs PcIdentity] *)
Record PcIdentity := mkPcIdentity {
  pci_pc_id : string; pci_pc_name : string; pci_cert_der : list Z; pci_key_der : list Z;
  pci_spki_sha256 : string;
}.

(** [app/identity.rs StoredIdentity] *)
Record StoredIdentity := mkStoredIdentity {
  si_pc_id : string; si_pc_name : string; si_cert_der : string; si_key_der : option string;
  si_protected_key_der : option string; si_spki_sha256 : string;
}.

(** What [generate_simple_self_signed], the random generator and the environment
    give to one start. *)
Record Fresh := mkFresh {
  fr_cert_der : list Z; fr_key_der : list Z; fr_public_key_info : list Z; fr_uuid : string;
  fr_computer_name : option string; fr_entropy : Z;
}.

(** The two calls of Windows take what is random of them as an argument; base64 and
    JSON read back what they wrote, and what was protected can be unprotected. *)
Class IdentityEnv := {
  localappdata : option path;
  to_vec_pretty : StoredIdentity → option (list Z);
  from_slice_identity : list Z → option StoredIdentity;
  from_slice_to_vec_pretty stored l : to_vec_pretty stored = Some l → from_slice_identity l = Some stored;
  base64_encode : list Z → string;
  base64_decode : string → option (list Z);
  base64_decode_encode l : base64_decode (base64_encode l) = Some l;
  CryptProtectData : Z → list Z → option (list Z);
  CryptUnprotectData : list Z → option (list Z);
  CryptProtectData_length entropy l c : CryptProtectData entropy l = Some c → zlength c < 2 ^ 32;
  unprotect_protected entropy l c : CryptProtectData entropy l = Some c → CryptUnprotectData c = Some l;
  spki_digest : list Z → list Z;
}.

Section identity.
Context `{IdentityEnv} (process_id : Z) (english : bool).

Definition identity_error : io_error := InvalidData "identity".
Definition lift_identity {A} (o : option A) : io A := sr_lift (ok_or o identity_error).

(** [app/identity.rs data_dir] *)
Definition data_dir : io path :=
  root ← sr_lift (ok_or localappdata NotFound);
  let p := root ++ ["FlowType"] in
  _ ← create_dir_all p;
  mret p.

(** [app/identity.rs crypt_data] [None] is the error of the system. The length goes
    through 32 bits. *)
Definition crypt_data (entropy : Z) (input : list Z) (protecting : bool) : option (list Z) :=
  let input_blob := take (Z.to_nat (zlength input mod 2 ^ 32)) input in
  if protecting then CryptProtectData entropy input_blob else CryptUnprotectData input_blob.

(** [app/identity.rs protect] *)
Definition protect (entropy : Z) (plaintext : list Z) : option (list Z) := crypt_data entropy plaintext true.

(** [app/identity.rs unprotect] *)
Definition unprotect (ciphertext : list Z) : option (list Z) := crypt_data 0 ciphertext false.

Definition IDENTITY_FILE : string := "identity-v1.json".

(** [app/identity.rs:50-64 PcIdentity::load_or_create] The key of the stored identity;
    a plain one is encrypted, and the file is replaced. *)
Definition stored_key (entropy : Z) (p : path) (stored : StoredIdentity) : io (list Z) :=
  match si_protected_key_der stored with
  | Some protected =>
    ciphertext ← lift_identity (base64_decode protected);
    lift_identity (unprotect ciphertext)
  | None =>
    encoded ← lift_identity (si_key_der stored);
    plaintext ← lift_identity (base64_decode encoded);
    ciphertext ← lift_identity (protect entropy plaintext);
    let stored := mkStoredIdentity (si_pc_id stored) (si_pc_name stored) (si_cert_der stored) None
      (Some (base64_encode ciphertext)) (si_spki_sha256 stored) in
    contents ← lift_identity (to_vec_pretty stored);
    _ ← write process_id p contents;
    mret plaintext
  end.

(** [app/identity.rs:74-98 PcIdentity::load_or_create] *)
Definition create_identity (fresh : Fresh) (p : path) : io PcIdentity :=
  let spki_sha256 := base64_encode (spki_digest (fr_public_key_info fresh)) in
  let pc_name := default (if english then "Windows PC" else "Windows 电脑") (fr_computer_name fresh) in
  ciphertext ← lift_identity (protect (fr_entropy fresh) (fr_key_der fresh));
  let stored := mkStoredIdentity (fr_uuid fresh) pc_name (base64_encode (fr_cert_der fresh)) None
    (Some (base64_encode ciphertext)) spki_sha256 in
  contents ← lift_identity (to_vec_pretty stored);
  _ ← write process_id p contents;
  mret (mkPcIdentity (fr_uuid fresh) pc_name (fr_cert_der fresh) (fr_key_der fresh) spki_sha256).

(** [app/identity.rs:51-72 PcIdentity::load_or_create] *)
Definition load_identity (entropy : Z) (p : path) : io PcIdentity :=
  contents ← read p;
  stored ← lift_identity (from_slice_identity contents);
  key_der ← stored_key entropy p stored;
  cert_der ← lift_identity (base64_decode (si_cert_der stored));
  mret (mkPcIdentity (si_pc_id stored) (si_pc_name stored) cert_der key_der (si_spki_sha256 stored)).

(** [app/identity.rs PcIdentity::load_or_create] *)
Definition load_or_create (fresh : Fresh) : io PcIdentity :=
  dir ← data_dir;
  let p := dir ++ [IDENTITY_FILE] in
  found ← path_exists p;
  if found : bool then load_identity (fr_entropy fresh) p else create_identity fresh p.

(** [app/identity.rs PcIdentity::save_pc_name] *)
Definition save_pc_name (name : string) : io unit :=
  let name := trim (chars name) in
  if bool_decide (name = []) || (64 <? zlength name)
  then sr_fail (InvalidData "computer name must contain 1 to 64 characters")
  else
    dir ← data_dir;
    let p := dir ++ [IDENTITY_FILE] in
    contents ← read p;
    stored ← lift_identity (from_slice_identity contents);
    let stored := mkStoredIdentity (si_pc_id stored) (of_chars name) (si_cert_der stored) (si_key_der stored)
      (si_protected_key_der stored) (si_spki_sha256 stored) in
    contents ← lift_identity (to_vec_pretty stored);
    write process_id p contents.

(** ** What the file holds *)

Definition identity_path : option path := (λ root, root ++ ["FlowType"; IDENTITY_FILE]) <$> localappdata.

(** The file of the identity, if there is one, is on the medium as it is read. *)
Definition identity_synced (d : disk) : Prop :=
  ∀ p f, identity_path = Some p → d_files d !! p = Some f → f_durable f = f_data f.

(** [path.exists()] counts an error as no: this says that it does not come to that in
    the next [load_or_create], whose second call it is. *)
Definition exists_answers (d : disk) : Prop := ∀ n, d_schedule d !! 1%nat ≠ Some (Fails n).

(** The same computer, whatever it is called. *)
Definition same_computer (a b : PcIdentity) : Prop :=
  pci_pc_id a = pci_pc_id b ∧ pci_cert_der a = pci_cert_der b ∧ pci_key_der a = pci_key_der b ∧
  pci_spki_sha256 a = pci_spki_sha256 b.

(** The record stands for the identity, and its key is encrypted. *)
Definition stands_for (stored : StoredIdentity) (identity : PcIdentity) : Prop :=
  si_pc_id stored = pci_pc_id identity ∧
  base64_decode (si_cert_der stored) = Some (pci_cert_der identity) ∧
  si_spki_sha256 stored = pci_spki_sha256 identity ∧
  ∃ protected ciphertext, si_protected_key_der stored = Some protected ∧
    base64_decode protected = Some ciphertext ∧ unprotect ciphertext = Some (pci_key_der identity).

Definition holds_in (identity : PcIdentity) (m : filemap) : Prop :=
  ∃ p l stored, identity_path = Some p ∧ m !! p = Some (mkFile l l) ∧
    from_slice_identity l = Some stored ∧ stands_for stored identity.

(** ** Its operations *)

Lemma identity_path_visible p : identity_path = Some p → ¬ dotted p.
Proof.
  unfold identity_path. destruct localappdata as [root|]; [| done]. intros [= <-]. unfold dotted.
  change (root ++ ["FlowType"; IDENTITY_FILE]) with (root ++ (["FlowType"] ++ [IDENTITY_FILE])).
  rewrite app_assoc, last_snoc. by vm_compute.
Qed.

Lemma crypt_data_short entropy l b :
  zlength l < 2 ^ 32 →
  crypt_data entropy l b = if b then CryptProtectData entropy l else CryptUnprotectData l.
Proof.
  intros Hl. unfold crypt_data. pose proof (zlength_nonneg l).
  rewrite Z.mod_small by lia. rewrite take_ge by (unfold zlength in *; lia). done.
Qed.

Lemma unprotect_protect entropy l c :
  zlength l < 2 ^ 32 → protect entropy l = Some c → unprotect c = Some l.
Proof.
  intros Hl. unfold protect, unprotect. rewrite crypt_data_short by done. intros Hc.
  rewrite crypt_data_short by eauto using CryptProtectData_length.
  by eapply unprotect_protected.
Qed.

Lemma fwp_data_dir (m : filemap) :
  fwp data_dir (λ p m', m' = m ∧ identity_path = Some (p ++ [IDENTITY_FILE])) (eq m) m.
Proof.
  unfold data_dir. apply fwp_bind, fwp_lift; [| done]. intros root Hroot.
  apply fwp_bind, fwp_create_dir_all; [| done]. apply fwp_ret. split; [done |].
  unfold identity_path. destruct localappdata; [| done]. injection Hroot as <-.
  cbn. by rewrite <- app_assoc.
Qed.

Lemma fwp_lift_identity {A} (o : option A) (Q : A → filemap → Prop) (E C : filemap → Prop) (m : filemap) :
  (∀ a, o = Some a → Q a m) → E m → fwp3 (lift_identity o) Q E C m.
Proof. intros HQ HE. apply fwp_lift; [| done]. destruct o; [| done]. intros ? [= <-]. by apply HQ. Qed.

Lemma holds_in_frame identity (m m' : filemap) :
  (∀ p, identity_path = Some p → m' !! p = m !! p) → holds_in identity m → holds_in identity m'.
Proof. intros Hm (p & l & stored & Hp & Hl & ?). exists p, l, stored. by rewrite Hm. Qed.

Lemma holds_in_visible identity (m m' : filemap) :
  same_visible m m' → holds_in identity m → holds_in identity m'.
Proof. intros Hm. apply holds_in_frame. intros p Hp. apply Hm. by apply identity_path_visible. Qed.

(** A record that was written is held. *)
Lemma holds_in_written identity p stored l (m m' : filemap) :
  identity_path = Some p → to_vec_pretty stored = Some l → stands_for stored identity →
  same_visible (<[p := mkFile l l]> m) m' → holds_in identity m'.
Proof.
  intros Hp Hl Hs Hm. apply (holds_in_visible _ _ _ Hm).
  exists p, l, stored. rewrite lookup_insert_eq. eauto using from_slice_to_vec_pretty.
Qed.

Lemma fwp_write_identity p stored l identity (A : Type) (c : io A) (Q : A → filemap → Prop) (E C : filemap → Prop) (m : filemap) :
  identity_path = Some p → to_vec_pretty stored = Some l → stands_for stored identity →
  (∀ m', holds_in identity m' → fwp3 c Q E C m' ∧ C m') →
  (∀ m', same_visible m m' → E m' ∧ C m') →
  fwp3 (_ ← write process_id p l; c) Q E C m.
Proof.
  intros Hp Hl Hs HQ HE. apply fwp_bind, fwp_write; [| done]. intros m' Hm'.
  apply HQ. by eapply holds_in_written.
Qed.

Definition short_key (identity : PcIdentity) : Prop := zlength (pci_key_der identity) < 2 ^ 32.

Lemma fwp_stored_key entropy p stored (m : filemap) l :
  identity_path = Some p → m !! p = Some (mkFile l l) → from_slice_identity l = Some stored →
  fwp (stored_key entropy p stored)
    (λ key m', ∀ cert, base64_decode (si_cert_der stored) = Some cert → zlength key < 2 ^ 32 →
       holds_in (mkPcIdentity (si_pc_id stored) (si_pc_name stored) cert key (si_spki_sha256 stored)) m')
    (λ _, True) m.
Proof.
  intros Hp Hm Hl. unfold stored_key. destruct (si_protected_key_der stored) as [protected|] eqn:Hprot.
  - apply fwp_bind, fwp_lift_identity; [| done]. intros ciphertext Hc.
    apply fwp_lift_identity; [| done]. intros key Hkey cert Hcert _.
    exists p, l, stored. repeat split; try done. eauto.
  - apply fwp_bind, fwp_lift_identity; [| done]. intros encoded _.
    apply fwp_bind, fwp_lift_identity; [| done]. intros plaintext _.
    apply fwp_bind, fwp_lift_identity; [| done]. intros ciphertext Hc.
    apply fwp_bind, fwp_lift_identity; [| done]. intros contents Hcontents.
    apply fwp_bind, fwp_write; [| done]. intros m' Hm'. split; [| done].
    apply fwp_ret. intros cert Hcert Hshort. eapply holds_in_written; [done | exact Hcontents | | exact Hm'].
    repeat split; try done. cbn. eauto 6 using base64_decode_encode, unprotect_protect.
Qed.

(** What is read is held from then on, also a key that was in plain text. *)
Lemma fwp_load_identity entropy p (m : filemap) :
  identity_path = Some p → (∀ f, m !! p = Some f → f_durable f = f_data f) →
  fwp (load_identity entropy p) (λ identity m', short_key identity → holds_in identity m') (λ _, True) m.
Proof.
  intros Hp Hsync. unfold load_identity. apply fwp_bind, fwp_read; [| done]. intros f Hf.
  apply fwp_bind, fwp_lift_identity; [| done]. intros stored Hstored.
  apply fwp_bind. eapply fwp_mono; [eapply fwp_stored_key; [exact Hp | | exact Hstored] | | done].
  { rewrite Hf. destruct f as [data durable]. specialize (Hsync _ Hf). cbn in *. by subst. }
  intros key m' Hm'. apply fwp_bind, fwp_lift_identity; [| done]. intros cert Hcert.
  apply fwp_ret. by apply Hm'.
Qed.

Lemma fwp_create_identity fresh p (m : filemap) :
  identity_path = Some p →
  fwp (create_identity fresh p) (λ identity m', short_key identity → holds_in identity m') (λ _, True) m.
Proof.
  intros Hp. unfold create_identity.
  apply fwp_bind, fwp_lift_identity; [| done]. intros ciphertext Hc.
  apply fwp_bind, fwp_lift_identity; [| done]. intros contents Hcontents.
  apply fwp_bind, fwp_write; [| done]. intros m' Hm'. split; [| done].
  apply fwp_ret. intros Hshort. eapply holds_in_written; [done | exact Hcontents | | exact Hm'].
  repeat split; try done; cbn; eauto 6 using base64_decode_encode, unprotect_protect.
Qed.

(** What is held is what is read, and nothing is written. *)
Lemma fwp_load_held entropy p identity (m : filemap) :
  identity_path = Some p → holds_in identity m →
  fwp (load_identity entropy p) (λ identity' m', m' = m ∧ same_computer identity identity') (eq m) m.
Proof.
  intros Hp (p' & l & stored & Hp' & Hm & Hl & Hid & Hcert & Hspki & protected & ciphertext & Hprot & Hc & Hkey).
  assert (p' = p) as -> by congruence. unfold load_identity.
  apply fwp_bind, fwp_read; [| done]. intros f Hf. rewrite Hm in Hf. injection Hf as <-.
  apply fwp_bind, fwp_lift_identity; [| done]. cbn [f_data]. rewrite Hl. intros ? [= <-].
  unfold stored_key. rewrite Hprot.
  apply fwp_bind, fwp_bind, fwp_lift_identity; [| done]. rewrite Hc. intros ? [= <-].
  apply fwp_lift_identity; [| done]. rewrite Hkey. intros ? [= <-].
  apply fwp_bind, fwp_lift_identity; [| done]. rewrite Hcert. intros ? [= <-].
  by apply fwp_ret.
Qed.

Lemma fwp_save_pc_name name identity (m : filemap) :
  holds_in identity m → fwp (save_pc_name name) (λ _, holds_in identity) (holds_in identity) m.
Proof.
  intros Hheld. unfold save_pc_name. case_match; [by apply fwp_fail |].
  apply fwp_bind. eapply fwp_mono; [apply fwp_data_dir | | by intros ? <-]. intros dir m' [-> Hp].
  destruct Hheld as (p' & l & stored & Hp' & Hm & Hl & Hs) eqn:Hheld'. assert (p' = dir ++ [IDENTITY_FILE]) as -> by congruence.
  apply fwp_bind, fwp_read; [| done]. intros f Hf. rewrite Hm in Hf. injection Hf as <-.
  apply fwp_bind, fwp_lift_identity; [| done]. cbn [f_data]. rewrite Hl. intros ? [= <-].
  apply fwp_bind, fwp_lift_identity; [| done]. intros contents Hcontents.
  apply fwp_write.
  - intros m' Hm'. assert (holds_in identity m'); [| done].
    eapply holds_in_written; [exact Hp | exact Hcontents | | exact Hm'].
    destruct Hs as (? & ? & ? & ?). repeat split; done.
  - intros m' Hm'. by split; eapply holds_in_visible.
Qed.

(** ** Starts of the app *)

Lemma data_dir_schedule d dir d' :
  data_dir d = (Ok dir, d') → d_schedule d' = tail (d_schedule d).
Proof.
  unfold data_dir, create_dir_all, io_call, mbind, sr_bind, sr_lift, mret, sr_ret. destruct localappdata; [| done]. cbn.
  destruct (d_halted d); [done |]. destruct (d_schedule d) as [|[] rest] eqn:Hs; cbn; try done.
  - destruct (existsb _ _); [done |]. intros [= <- <-]. by cbn; rewrite Hs.
  - destruct (existsb _ _); [done |]. by intros [= <- <-].
Qed.

(** What [path.exists()] says: how it is, or no if the question fails; or the machine
    stops. *)
Lemma path_exists_answer (p : path) d :
  d_halted d = false →
  match path_exists p d with
  | (Ok found, d') => d_files d' = d_files d ∧ d_halted d' = false ∧
      ((∀ n, head (d_schedule d) ≠ Some (Fails n)) → found = is_dir p d || is_file p d)
  | (Err _, d') => d_files d' = d_files d
  end.
Proof.
  intros Hh. unfold path_exists, symlink_metadata, io_read, io_call. rewrite Hh.
  destruct (d_schedule d) as [|[| n | n] rest]; cbn.
  - destruct (is_dir p d || is_file p d); cbn; by rewrite ?Hh.
  - change (is_dir p (with_schedule rest d)) with (is_dir p d).
    change (is_file p (with_schedule rest d)) with (is_file p d).
    destruct (is_dir p d || is_file p d); cbn; by rewrite ?Hh.
  - rewrite Hh. split_and!; [done.. |]. intros Hs. by destruct (Hs n).
  - done.
Qed.

Lemma load_or_create_cases fresh d :
  d_halted d = false →
  (∃ e d', load_or_create fresh d = (Err e, d') ∧ d_files d' = d_files d) ∨
  ∃ p d', identity_path = Some p ∧ d_files d' = d_files d ∧ d_halted d' = false ∧
    (load_or_create fresh d = load_identity (fr_entropy fresh) p d'
     ∨ (exists_answers d → d_files d !! p = None) ∧ load_or_create fresh d = create_identity fresh p d').
Proof.
  intros Hh. pose proof (fwp_data_dir (d_files d) d eq_refl Hh) as Hdir.
  unfold load_or_create, mbind, sr_bind. destruct (data_dir d) as [[dir|e] d1] eqn:E1.
  2: { left. exists e, d1. split; [done |]. by case_match. }
  destruct Hdir as (Hh1 & Hf1 & Hp). set (p := dir ++ [IDENTITY_FILE]) in *.
  pose proof (path_exists_answer p d1 Hh1) as Hfound.
  assert (exists_answers d → ∀ n, head (d_schedule d1) ≠ Some (Fails n)) as Hs1.
  { intros Hex n. rewrite (data_dir_schedule d dir d1) by done. specialize (Hex n).
    by destruct (d_schedule d) as [|? []]. }
  destruct (path_exists p d1) as [[found|e] d2] eqn:E2.
  2: { left. exists e, d2. split; [done | congruence]. }
  destruct Hfound as (Hf2 & Hh2 & Hfound). right. exists p, d2. split_and!; [done | congruence | done |].
  destruct found; [by left | right]. split; [| done]. intros Hex. specialize (Hfound (Hs1 Hex)).
  symmetry in Hfound. apply orb_false_iff in Hfound as [_ E]. unfold is_file in E. bool_to_prop.
  rewrite <- Hf1. by apply eq_None_not_Some.
Qed.

Lemma load_or_create_holds fresh d identity d' :
  d_halted d = false → identity_synced d →
  load_or_create fresh d = (Ok identity, d') → short_key identity →
  d_halted d' = false ∧ holds_in identity (d_files d').
Proof.
  intros Hh Hsync Hload Hshort.
  destruct (load_or_create_cases fresh d Hh) as [(? & ? & E & _) | (p & d1 & Hp & Hf & Hh1 & Hcase)]; [congruence |].
  destruct Hcase as [E | [_ E]]; rewrite E in Hload.
  - pose proof (fwp_load_identity (fr_entropy fresh) p (d_files d) Hp (λ f, Hsync p f Hp) d1 Hf Hh1) as H'.
    rewrite Hload in H'. naive_solver.
  - pose proof (fwp_create_identity fresh p (d_files d) Hp d1 Hf Hh1) as H'.
    rewrite Hload in H'. naive_solver.
Qed.

Lemma load_or_create_halted fresh d : d_halted d = true → (load_or_create fresh d).2 = d.
Proof.
  intros Hh. unfold load_or_create, data_dir, create_dir_all, io_call, mbind, sr_bind, sr_lift.
  destruct localappdata; cbn; [by rewrite Hh | done].
Qed.

Lemma save_pc_name_halted name d : d_halted d = true → (save_pc_name name d).2 = d.
Proof.
  intros Hh. unfold save_pc_name, data_dir, create_dir_all, io_call, mbind, sr_bind, sr_lift.
  case_match; [done |]. destruct localappdata; cbn; [by rewrite Hh | done].
Qed.

(** A start of the app when the identity is held. *)
Lemma load_or_create_held fresh identity d :
  d_halted d = false → exists_answers d → holds_in identity (d_files d) →
  d_files (load_or_create fresh d).2 = d_files d ∧
  ∀ identity', (load_or_create fresh d).1 = Ok identity' → same_computer identity identity'.
Proof.
  intros Hh Hex Hheld.
  destruct (load_or_create_cases fresh d Hh) as [(? & ? & -> & ?) | (p & d1 & Hp & Hf & Hh1 & [-> | [Hnone _]])].
  - done.
  - pose proof (fwp_load_held (fr_entropy fresh) p identity (d_files d) Hp Hheld d1 Hf Hh1) as H'.
    destruct (load_identity _ _ d1) as [[a|e] d2]; [naive_solver |]. split; [by case_match | done].
  - specialize (Hnone Hex). destruct Hheld as (p' & l & ? & Hp' & Hm & _). congruence.
Qed.

Lemma load_identity_quiet entropy p identity d :
  quiet d → identity_path = Some p → holds_in identity (d_files d) →
  ∃ identity', (load_identity entropy p d).1 = Ok identity'.
Proof.
  intros Hq Hp (p' & l & stored & Hp' & Hm & Hl & Hid & Hcert & Hspki & protected & ciphertext & Hprot & Hc & Hkey).
  assert (p' = p) as -> by congruence. unfold load_identity, mbind, sr_bind.
  rewrite (read_quiet d p _ Hq Hm). unfold lift_identity, sr_lift, stored_key, mbind, sr_bind. cbn [f_data].
  rewrite Hl. cbn -[unprotect]. rewrite Hprot, Hc. cbn -[unprotect]. rewrite Hkey. cbn. rewrite Hcert. cbn. eauto.
Qed.

Definition data_dir_free (d : disk) : Prop :=
  ∀ root, localappdata = Some root → Forall (λ q, d_files d !! q = None) (prefixes (root ++ ["FlowType"])).

Lemma data_dir_quiet d root :
  quiet d → localappdata = Some root → data_dir_free d →
  ∃ dirs, data_dir d = (Ok (root ++ ["FlowType"]), with_dirs dirs d).
Proof.
  intros [Hs Hh] Hroot Hfree. specialize (Hfree root Hroot).
  unfold data_dir, mbind, sr_bind, sr_lift, create_dir_all, io_call. rewrite Hroot. cbn. rewrite Hh, Hs.
  destruct (existsb _ _) eqn:E; [| by eauto].
  exfalso. apply existsb_exists in E as (q & Hq%list_elem_of_In & Hfile). rewrite Forall_forall in Hfree.
  specialize (Hfree q Hq). unfold is_file in Hfile. rewrite Hfree in Hfile. bool_to_prop. by destruct Hfile.
Qed.

(** On a quiet disk the identity that is held is read. *)
Lemma load_or_create_quiet fresh identity d :
  quiet d → data_dir_free d → holds_in identity (d_files d) →
  ∃ identity', (load_or_create fresh d).1 = Ok identity'.
Proof.
  intros Hq Hfree Hheld. pose proof Hheld as (p & l & _ & Hp & Hm & _).
  pose proof Hp as Hp'. unfold identity_path in Hp'. destruct localappdata as [root|] eqn:Hroot; [| done].
  injection Hp' as Hpath. destruct (data_dir_quiet d root Hq Hroot Hfree) as [dirs Hdir].
  unfold load_or_create, mbind, sr_bind. rewrite Hdir.
  replace ((root ++ ["FlowType"]) ++ [IDENTITY_FILE]) with p by (rewrite <- Hpath, <- app_assoc; done).
  destruct Hq as [Hs Hh]. unfold path_exists, symlink_metadata, io_read, io_call. cbn. rewrite Hh, Hs.
  unfold is_file. cbn. rewrite Hm. rewrite (bool_decide_true (is_Some _)) by eauto. rewrite orb_true_r.
  by apply (load_identity_quiet _ p identity).
Qed.

End identity.

(** ** Between two starts *)

Section runs.
Context `{IdentityEnv} (english : bool).

(** Whatever happens to the computer between two starts of the app: a start, with what
    fails in it but the question whether the file is there, a new name, the machine stops
    or starts again, anything that leaves the file. *)
Inductive identity_step : disk → disk → Prop :=
| is_load pid fresh d : exists_answers d → identity_step d (load_or_create pid english fresh d).2
| is_rename pid name d : identity_step d (save_pc_name pid name d).2
| is_reboot schedule d d' : reboot schedule d d' → identity_step d d'
| is_other d d' : (∀ p, identity_path = Some p → d_files d' !! p = d_files d !! p) → identity_step d d'.

Lemma identity_step_holds identity d d' :
  identity_step d d' → holds_in identity (d_files d) → holds_in identity (d_files d').
Proof.
  intros Hstep Hheld. destruct Hstep as [pid fresh d Hex | pid name d | schedule d d' Hr | d d' Hsame].
  - destruct (d_halted d) eqn:Hh; [by rewrite load_or_create_halted |].
    by rewrite (proj1 (load_or_create_held pid english fresh identity d Hh Hex Hheld)).
  - destruct (d_halted d) eqn:Hh; [by rewrite save_pc_name_halted |].
    pose proof (fwp_save_pc_name pid name identity (d_files d) Hheld d eq_refl Hh) as H'.
    destruct (save_pc_name pid name d) as [[a|e] d2]; [naive_solver | by case_match].
  - destruct Hheld as (p & l & stored & Hp & Hm & ?). exists p, l, stored.
    split_and!; [done | by eapply reboot_synced | tauto..].
  - by eapply holds_in_frame.
Qed.

(** C23. (safety) Once a start of the app has got an identity, every later start gets
    the same id, certificate, key and key hash, or an error: across failures of any
    call, stops in the middle of it, restarts of the machine and new names, as long as
    the question of the later starts whether the file is there is answered ([path.exists()]
    takes an error for a no, and a new identity replaces the one that is there). When
    nothing fails the start gets it. *)
Theorem identity_is_stable pid pid' fresh d identity d1 d2 fresh' :
  d_halted d = false → identity_synced d →
  load_or_create pid english fresh d = (Ok identity, d1) → short_key identity →
  rtc identity_step d1 d2 → d_halted d2 = false →
  let r := (load_or_create pid' english fresh' d2).1 in
  (exists_answers d2 → ∀ identity', r = Ok identity' → same_computer identity identity') ∧
  (d_schedule d2 = [] → data_dir_free d2 → ∃ identity', r = Ok identity' ∧ same_computer identity identity').
Proof.
  intros Hh Hsync Hload Hshort Hrun Hh2 r.
  destruct (load_or_create_holds pid english fresh d identity d1 Hh Hsync Hload Hshort) as [_ Hheld].
  assert (holds_in identity (d_files d2)) as Hheld2.
  { clear -Hrun Hheld. induction Hrun as [|d d' d'' Hstep _ IH]; [done |].
    apply IH. by eapply identity_step_holds. }
  split.
  - intros Hex2. by apply load_or_create_held.
  - intros Hs Hfree. destruct (load_or_create_quiet pid' english fresh' identity d2) as [identity' Hr]; [done.. |].
    exists identity'. split; [done |]. apply (load_or_create_held pid' english fresh' identity d2); [done | | done..].
    intros n. by rewrite Hs.
Qed.
End runs.
