(* ===== verification/SampleIdentity.v ===== *)
(** * An identity on a sample disk

    Concrete functions for the parameters of [Identity], with their laws, and runs
    of the app on a small disk. *)

From S2P Require Import Prelude Text Disk DiskLogic Identity.
Local Open Scope string_scope.
Local Open Scope list_scope.
Local Open Scope Z_scope.

(** A number as a string of its bits. *)
Fixpoint bits_of (p : positive) : string :=
  match p with
  | xH => EmptyString
  | xO p => String (ascii_of_byte 48) (bits_of p)
  | xI p => String (ascii_of_byte 49) (bits_of p)
  end.
Fixpoint of_bits (s : string) : positive :=
  match s with
  | EmptyString => xH
  | String a s => if byte_of_ascii a =? 49 then xI (of_bits s) else xO (of_bits s)
  end.
Lemma of_bits_of p : of_bits (bits_of p) = p.
Proof. by induction p as [p IH|p IH|]; cbn; rewrite ?IH. Qed.

Definition stored_tuple (s : StoredIdentity) :=
  (si_pc_id s, si_pc_name s, si_cert_der s, si_key_der s, si_protected_key_der s, si_spki_sha256 s).

Definition sample_write (s : StoredIdentity) : option (list Z) := Some [Zpos (encode (stored_tuple s))].
Definition sample_read (l : list Z) : option StoredIdentity :=
  match l with
  | [Zpos p] =>
    (λ '(a, b, c, d, e, f), mkStoredIdentity a b c d e f) <$>
      (decode p : option (string * string * string * option string * option string * string))
  | _ => None
  end.
Lemma sample_read_write s l : sample_write s = Some l → sample_read l = Some s.
Proof. intros [= <-]. cbn. rewrite decode_encode. by destruct s. Qed.

Definition sample_base64 (l : list Z) : string := bits_of (encode l).
Definition sample_unbase64 (s : string) : option (list Z) := decode (of_bits s).
Lemma sample_unbase64_base64 l : sample_unbase64 (sample_base64 l) = Some l.
Proof. unfold sample_unbase64, sample_base64. by rewrite of_bits_of, decode_encode. Qed.

Definition sample_protect (entropy : Z) (l : list Z) : option (list Z) :=
  if zlength l <? 2 ^ 32 - 1 then Some (entropy :: l) else None.
Lemma sample_protect_length entropy l c : sample_protect entropy l = Some c → zlength c < 2 ^ 32.
Proof. unfold sample_protect. case_match; [| done]. intros [= <-]. bool_to_prop. rewrite zlength_cons. lia. Qed.
Lemma sample_unprotect_protect entropy l c : sample_protect entropy l = Some c → tail c = l.
Proof. unfold sample_protect. case_match; [| done]. by intros [= <-]. Qed.

#[global] Instance sample_identity_env : IdentityEnv := {|
  localappdata := Some ["C:"; "Local"];
  to_vec_pretty := sample_write;
  from_slice_identity := sample_read;
  from_slice_to_vec_pretty := sample_read_write;
  base64_encode := sample_base64;
  base64_decode := sample_unbase64;
  base64_decode_encode := sample_unbase64_base64;
  CryptProtectData := sample_protect;
  CryptUnprotectData := λ c, Some (tail c);
  CryptProtectData_length := sample_protect_length;
  unprotect_protected := λ entropy l c Hc, f_equal Some (sample_unprotect_protect entropy l c Hc);
  spki_digest := λ l, l;
|}.

Definition empty_profile : disk := mkDisk {[ []; ["C:"]; ["C:"; "Local"] ]} ∅ ∅ 0 [] false.
Definition first_start : Fresh := mkFresh [1; 2] [3; 4; 5] [6] "id-1" (Some "desk") 7.
Definition second_start : Fresh := mkFresh [9] [9] [9] "id-2" (Some "desk") 9.

Definition sample_identity : PcIdentity :=
  mkPcIdentity "id-1" "desk" [1; 2] [3; 4; 5] (sample_base64 [6]).

(** The disk after the first start. *)
Definition started : disk := (load_or_create 4 true first_start empty_profile).2.

Lemma first_start_creates :
  load_or_create 4 true first_start empty_profile = (Ok sample_identity, started).
Proof.
  assert ((load_or_create 4 true first_start empty_profile).1 = Ok sample_identity) as <- by (vm_compute; reflexivity).
  unfold started. by destruct (load_or_create _ _ _ _).
Qed.

(** A new name is its only change. *)
Example sample_second_start :
  (load_or_create 5 true second_start (save_pc_name 5 "  kitchen " started).2).1
  = Ok (mkPcIdentity "id-1" "kitchen" [1; 2] [3; 4; 5] (sample_base64 [6])).
Proof. vm_compute. reflexivity. Qed.

(** An error of [path.exists()] counts as no: the app makes a new identity and writes it
    over the one that is there. *)
Theorem failed_exists_replaces_identity :
  ∃ d identity, d_files d = d_files started ∧
    (load_or_create 5 true second_start d).1 = Ok identity ∧
    pci_pc_id identity ≠ pci_pc_id sample_identity ∧
    (load_or_create 6 true second_start (restarted (load_or_create 5 true second_start d).2)).1 = Ok identity.
Proof.
  exists (with_schedule [Fine; Fails 0] started).
  exists (mkPcIdentity "id-2" "desk" [9] [9] (sample_base64 [9])).
  split_and!; [done | vm_compute; reflexivity | by vm_compute | vm_compute; reflexivity].
Qed.

(** A private key in plain text is encrypted by the first start. *)
Example sample_migration :
  let old := mkStoredIdentity "id-0" "old" (sample_base64 [1]) (Some (sample_base64 [8])) None "" in
  let l := default [] (sample_write old) in
  let d := with_files <[["C:"; "Local"; "FlowType"; "identity-v1.json"] := mkFile l l]> empty_profile in
  let '(r, d') := load_or_create 4 true first_start d in
  (r, sample_read (default [] (f_data <$> d_files d' !! ["C:"; "Local"; "FlowType"; "identity-v1.json"])))
  = (Ok (mkPcIdentity "id-0" "old" [1] [8] ""),
     Some (mkStoredIdentity "id-0" "old" (sample_base64 [1]) None (Some (sample_base64 [7; 8])) "")).
Proof. vm_compute. reflexivity. Qed.

(** The first start, a new name, a crash of the machine, and another start. *)
Lemma identity_is_stable_witness :
  d_halted empty_profile = false ∧ short_key sample_identity ∧
  let d2 := restarted (save_pc_name 5 "kitchen" started).2 in
  rtc (identity_step true) started d2 ∧
  ((exists_answers d2 →
    ∀ identity', (load_or_create 6 true second_start d2).1 = Ok identity' → same_computer sample_identity identity') ∧
   (d_schedule d2 = [] → data_dir_free d2 →
    ∃ identity', (load_or_create 6 true second_start d2).1 = Ok identity' ∧ same_computer sample_identity identity')).
Proof.
  split; [reflexivity |]. split; [by vm_compute |].
  intros d2.
  assert (rtc (identity_step true) started d2) as Hrun.
  { eapply rtc_l; [apply (is_rename _ 5 "kitchen") |]. eapply rtc_l; [| apply rtc_refl].
    apply (is_reboot _ []), reboot_restarted. vm_compute. reflexivity. }
  split; [exact Hrun |].
  apply (identity_is_stable true 4 6 first_start empty_profile sample_identity started d2 second_start);
    [reflexivity | | apply first_start_creates | by vm_compute | | reflexivity].
  - intros p f _ Hf. unfold empty_profile in Hf. cbn in Hf. by rewrite lookup_empty in Hf.
  - exact Hrun.
Defined.
