(* ===== verification/Settings.v ===== *)
(** * Settings and language

    [flowtype-app/src/settings.rs] and [i18n.rs]: the folder for received files, the
    floating ball, the start with Windows, and the language. Each setting is a small
    text file of its own, replaced as a whole; the start with Windows is a value of
    the Run key of the registry. *)

From S2P Require Import Prelude Text Disk DiskLogic Store Identity.
Local Open Scope string_scope.
Local Open Scope list_scope.
Local Open Scope Z_scope.

(** ** Text of the files *)

(** What [String::from_utf8] accepts. *)
Definition utf8_valid (l : list Z) : bool :=
  bool_decide (Forall scalar (decode_utf8 l)) && bool_decide (decode_utf8 l ≫= encode_utf8 = l).

(** [fs::read_to_string]. *)
Definition read_to_string (p : path) : io string :=
  contents ← read p;
  if utf8_valid contents then mret (of_bytes contents) else sr_fail (InvalidData "stream did not contain valid UTF-8").

(** [value.trim()]. *)
Definition str_trim (s : string) : string := of_chars (trim (chars s)).

(** [format!("{number}")] and [str::parse::<i32>()]. *)
Definition signed_decimal (n : Z) : list Z := if n <? 0 then 45 :: decimal (- n) else decimal n.
Definition parse_i32 (l : list Z) : option Z :=
  match l with
  | [] | [43] | [45] => None
  | 45 :: digits => Z.opp <$> parse_digits (2 ^ 31) 0 digits
  | 43 :: digits => parse_digits (2 ^ 31 - 1) 0 digits
  | digits => parse_digits (2 ^ 31 - 1) 0 digits
  end.

(** ** settings.rs *)

Definition FLOATING_POSITION_FILE : string := "floating-position-v1.txt".
Definition FLOATING_ENABLED_FILE : string := "floating-enabled-v1.txt".
Definition RECEIVE_FOLDER_FILE : string := "file-receive-folder-v1.txt".

Section settings.
Context `{IdentityEnv} (userprofile : option path) (process_id : Z).

(** [app/settings.rs default_receive_folder] *)
Definition default_receive_folder : result io_error path :=
  profile ← ok_or userprofile NotFound;
  Ok (profile ++ ["Downloads"; "FlowType"]).

(** [app/settings.rs receive_folder_from] *)
Definition receive_folder_from (data_dir default : path) : io path :=
  saved ← attempt (read_to_string (data_dir ++ [RECEIVE_FOLDER_FILE]));
  match (λ value, path_of_string (str_trim value)) <$> saved with
  | Some saved => if is_absolute saved then mret saved else mret default
  | None => mret default
  end.

(** [app/settings.rs receive_folder] *)
Definition receive_folder : io path :=
  dir ← data_dir;
  default ← sr_lift default_receive_folder;
  receive_folder_from dir default.

(** [app/settings.rs set_receive_folder] *)
Definition set_receive_folder (p : path) : io unit :=
  if negb (is_absolute p) then sr_fail InvalidInput
  else
    _ ← create_dir_all p;
    dir ← data_dir;
    write process_id (dir ++ [RECEIVE_FOLDER_FILE]) (bytes_of (path_to_string p)).

(** [app/settings.rs floating_position] *)
Definition floating_position : io (option (Z * Z)) :=
  dir ← attempt data_dir;
  match dir with
  | None => mret None
  | Some dir =>
    value ← attempt (read_to_string (dir ++ [FLOATING_POSITION_FILE]));
    mret (value ← value;
          let parts := split_on 44 (trim (chars value)) in
          x ← parts !! 0%nat ≫= parse_i32;
          y ← parts !! 1%nat ≫= parse_i32;
          Some (x, y))
  end.

(** [app/settings.rs set_floating_position] *)
Definition set_floating_position (position : Z * Z) : io unit :=
  dir ← data_dir;
  write process_id (dir ++ [FLOATING_POSITION_FILE]) (signed_decimal position.1 ++ [44] ++ signed_decimal position.2).

(** [app/settings.rs floating_enabled] *)
Definition floating_enabled : io bool :=
  dir ← attempt data_dir;
  match dir with
  | None => mret true
  | Some dir =>
    value ← attempt (read_to_string (dir ++ [FLOATING_ENABLED_FILE]));
    mret (match value with Some value => negb (bool_decide (str_trim value = "0")) | None => true end)
  end.

(** [app/settings.rs set_floating_enabled] *)
Definition set_floating_enabled (enabled : bool) : io unit :=
  dir ← data_dir;
  write process_id (dir ++ [FLOATING_ENABLED_FILE]) (if enabled then [49] else [48]).
End settings.

(** ** The Run key *)

Definition VALUE_NAME : string := "FlowType".
Definition ERROR_SUCCESS : Z := 0.
Definition ERROR_FILE_NOT_FOUND : Z := 2.
Definition REG_SZ : Z := 1.

(** The values of the key, each with its type and its bytes, if the key is there; the
    codes of the next calls, where 0 lets them do what they do. *)
Record Registry := mkRegistry { rg_values : option (gmap string (Z * list Z)); rg_codes : list Z }.

Definition registry_call {A} (op : Registry → result Z A * Registry) : sr Registry Z A := λ r,
  match rg_codes r with
  | [] => op r
  | code :: codes =>
    let r := mkRegistry (rg_values r) codes in
    if code =? ERROR_SUCCESS then op r else (Err code, r)
  end.

(** [app/settings.rs wide] *)
Definition wide (value : string) : list Z := utf16_of value ++ [0].

(** [app/settings.rs open_key] The path is that of the Run key. *)
Definition open_key : sr Registry Z unit := registry_call (λ r,
  match rg_values r with Some _ => (Ok tt, r) | None => (Err ERROR_FILE_NOT_FOUND, r) end).

Definition with_values (f : gmap string (Z * list Z) → gmap string (Z * list Z)) (r : Registry) : Registry :=
  mkRegistry (f <$> rg_values r) (rg_codes r).
Definition RegQueryValueExW (name : string) : sr Registry Z (Z * list Z) := registry_call (λ r,
  (ok_or (rg_values r ≫= lookup name) ERROR_FILE_NOT_FOUND, r)).
Definition RegSetValueExW (name : string) (type : Z) (bytes : list Z) : sr Registry Z unit := registry_call (λ r,
  (Ok tt, with_values <[name := (type, bytes)]> r)).
Definition RegDeleteValueW (name : string) : sr Registry Z unit := registry_call (λ r,
  match rg_values r ≫= lookup name with
  | Some _ => (Ok tt, with_values (delete name) r)
  | None => (Err ERROR_FILE_NOT_FOUND, r)
  end).

(** [app/settings.rs auto_start_enabled] *)
Definition auto_start_enabled (r : Registry) : bool :=
  match (_ ← open_key; RegQueryValueExW VALUE_NAME) r with
  | (Ok (value_type, bytes), _) => (value_type =? REG_SZ) && (2 <=? zlength bytes)
  | (Err _, _) => false
  end.

(** The units of a command as bytes, low byte first. *)
Definition wide_bytes (l : list Z) : list Z := l ≫= λ unit, [unit mod 256; unit / 256].

(** The command: the program in quotes, without a window. *)
Definition auto_start_command (executable : string) : string :=
  of_bytes [34] +:+ executable +:+ of_bytes [34] +:+ " --background".

(** [app/settings.rs set_auto_start] [executable] is what [current_exe] gives; an error
    without a code of the system is 0. *)
Definition set_auto_start (executable : option string) (enabled : bool) : sr Registry Z unit :=
  _ ← open_key;
  if enabled then
    executable ← sr_lift (ok_or executable 0);
    RegSetValueExW VALUE_NAME REG_SZ (wide_bytes (wide (auto_start_command executable)))
  else λ r,
    match RegDeleteValueW VALUE_NAME r with
    | (Err code, r) => if code =? ERROR_FILE_NOT_FOUND then (Ok tt, r) else (Err code, r)
    | ok => ok
    end.

(** ** i18n.rs *)

(** [app/i18n.rs Language] *)
Inductive Language := Chinese | English.
#[export] Instance language_eq_dec : EqDecision Language.
Proof. solve_decision. Defined.

(** [app/i18n.rs LanguageChoice] *)
Inductive LanguageChoice := ChoiceSystem | ChoiceChinese | ChoiceEnglish.
#[export] Instance language_choice_eq_dec : EqDecision LanguageChoice.
Proof. solve_decision. Defined.

Definition LANGUAGE_FILE : string := "language-v1.txt".

(** [app/i18n.rs language_code] *)
Definition language_code (language : Language) : Z :=
  match language with Chinese => 1 | English => 2 end.

(** [app/i18n.rs language_from_id] *)
Definition language_from_id (language_id : Z) : Language :=
  if Z.land language_id 0x03ff =? 0x0004 then Chinese else English.

(** [app/i18n.rs choice_value] *)
Definition choice_value (choice : LanguageChoice) : string :=
  match choice with ChoiceSystem => "system" | ChoiceChinese => "zh-CN" | ChoiceEnglish => "en" end.

(** [app/i18n.rs parse_choice] *)
Definition parse_choice (value : string) : LanguageChoice :=
  if bool_decide (value = "zh-CN") then ChoiceChinese
  else if bool_decide (value = "en") then ChoiceEnglish
  else ChoiceSystem.

Section language.
Context `{IdentityEnv} (process_id : Z).
(** [GetUserDefaultUILanguage()]. *)
Context (ui_language : Z).

(** [app/i18n.rs language_choice] *)
Definition language_choice : io LanguageChoice :=
  dir ← attempt data_dir;
  match dir with
  | None => mret ChoiceSystem
  | Some dir =>
    value ← attempt (read_to_string (dir ++ [LANGUAGE_FILE]));
    mret (match value with Some value => parse_choice (str_trim value) | None => ChoiceSystem end)
  end.

(** [app/i18n.rs resolve] *)
Definition resolve (choice : LanguageChoice) : Language :=
  match choice with
  | ChoiceSystem => language_from_id ui_language
  | ChoiceChinese => Chinese
  | ChoiceEnglish => English
  end.

(** [app/i18n.rs current] The cell is 0 until a language was asked for. *)
Definition current (cell : Z) : io (Language * Z) :=
  if cell =? language_code Chinese then mret (Chinese, cell)
  else if cell =? language_code English then mret (English, cell)
  else
    choice ← language_choice;
    mret (resolve choice, language_code (resolve choice)).

(** [app/i18n.rs set_language_choice] The new cell; an error leaves it. *)
Definition set_language_choice (choice : LanguageChoice) : io Z :=
  dir ← data_dir;
  _ ← write process_id (dir ++ [LANGUAGE_FILE]) (bytes_of (choice_value choice));
  mret (language_code (resolve choice)).

(** [app/i18n.rs tr] *)
Definition translate (chinese english : string) (cell : Z) : io (string * Z) :=
  '(language, cell) ← current cell;
  mret (match language with Chinese => chinese | English => english end, cell).

(** [app/i18n.rs is_chinese] *)
Definition is_chinese (cell : Z) : io (bool * Z) :=
  '(language, cell) ← current cell;
  mret (bool_decide (language = Chinese), cell).

(** [app/i18n.rs product_name] *)
Definition product_name (cell : Z) : io (string * Z) := translate "说写" "FlowType" cell.
End language.

(** ** Text that reads back *)

Definition ascii (b : Z) : Prop := 0 ≤ b < 128.

Lemma decode_ascii l : Forall ascii l → decode_utf8 l = l.
Proof.
  induction 1 as [|b l Hb Hl IH]; [done |]. cbn. unfold ascii in Hb.
  rewrite (proj2 (Z.ltb_lt b 128)) by lia. by rewrite IH.
Qed.

Lemma chars_ascii l : Forall ascii l → chars (of_bytes l) = l.
Proof.
  intros Hl. unfold chars. rewrite bytes_of_of_bytes; [by apply decode_ascii |].
  eapply Forall_impl; [exact Hl |]. unfold ascii, byte_ok. lia.
Qed.

Lemma encode_decoded s : valid_str s → chars s ≫= encode_utf8 = bytes_of s.
Proof.
  intros (cs & Hcs & ->). rewrite chars_of_chars by done. unfold of_chars.
  by rewrite bytes_of_of_bytes by auto using encode_all_ok.
Qed.

Lemma utf8_valid_str s : valid_str s → utf8_valid (bytes_of s) = true.
Proof.
  intros Hs. unfold utf8_valid. change (decode_utf8 (bytes_of s)) with (chars s).
  rewrite !bool_decide_true; [done | by apply encode_decoded | by apply chars_scalar].
Qed.

Lemma valid_str_ascii l : Forall ascii l → valid_str (of_bytes l).
Proof.
  intros Hl. exists l. split; [eapply Forall_impl; [exact Hl |]; unfold ascii, scalar; lia |].
  unfold of_chars. f_equal. induction Hl as [|b l Hb Hl IH]; [done |]. cbn. rewrite <- IH.
  unfold encode_utf8, ascii in *. by rewrite (proj2 (Z.ltb_lt b 128)) by lia.
Qed.

Lemma utf8_valid_ascii l : Forall ascii l → utf8_valid l = true.
Proof.
  intros Hl. rewrite <- (bytes_of_of_bytes l); [by apply utf8_valid_str, valid_str_ascii |].
  eapply Forall_impl; [exact Hl |]. unfold ascii, byte_ok. lia.
Qed.

Lemma drop_while_nothing {A} (f : A → bool) l : Forall (λ a, f a = false) l → drop_while f l = l.
Proof. destruct 1 as [|a l Ha Hl]; [done |]. cbn. by rewrite Ha. Qed.

(** Nothing is trimmed where there is no white space. *)
Lemma trim_plain l : Forall (λ c, is_whitespace c = false) l → trim l = l.
Proof.
  intros Hl. unfold trim, trim_end. rewrite (drop_while_nothing _ l Hl).
  rewrite drop_while_nothing; [apply reverse_involutive |]. by apply Forall_reverse.
Qed.

Lemma split_on_app sep a b : sep ∉ a → split_on sep (a ++ sep :: b) = a :: split_on sep b.
Proof.
  induction a as [|c a IH]; cbn; intros Ha.
  - destruct (split_on_cons sep b) as (p & ps & ->). by rewrite Z.eqb_refl.
  - apply not_elem_of_cons in Ha as [Hc Ha]. rewrite IH by done. by rewrite (proj2 (Z.eqb_neq c sep)) by done.
Qed.

Lemma split_on_none sep a : sep ∉ a → split_on sep a = [a].
Proof.
  induction a as [|c a IH]; cbn; intros Ha; [done |].
  apply not_elem_of_cons in Ha as [Hc Ha]. rewrite IH by done. by rewrite (proj2 (Z.eqb_neq c sep)) by done.
Qed.

(** *** Numbers *)

Notation digit b := (is_ascii_digit b = true) (only parsing).

Lemma parse_digits_foldl max acc ds :
  Forall (λ b, is_ascii_digit b = true) ds → 0 ≤ acc →
  foldl (λ acc b, acc * 10 + (b - 48)) acc ds ≤ max →
  parse_digits max acc ds = Some (foldl (λ acc b, acc * 10 + (b - 48)) acc ds).
Proof.
  intros Hds. revert acc. induction Hds as [|b ds Hb Hds IH]; cbn; intros acc Hacc Hmax; [done |].
  rewrite Hb. unfold is_ascii_digit in Hb. bool_to_prop.
  assert (∀ ds acc, Forall (λ b, is_ascii_digit b = true) ds → 0 ≤ acc →
            acc ≤ foldl (λ acc b, acc * 10 + (b - 48)) acc ds) as Hmono.
  { clear. intros ds acc Hds. revert acc. induction Hds as [|b ds Hb Hds IH]; cbn; intros acc Hacc; [lia |].
    unfold is_ascii_digit in Hb. bool_to_prop. etrans; [| apply IH]; lia. }
  specialize (Hmono ds (acc * 10 + (b - 48)) Hds ltac:(lia)).
  rewrite (proj2 (Z.ltb_ge _ _)) by lia. apply IH; lia.
Qed.

Lemma parse_digits_decimal max n :
  0 ≤ n ≤ max → max < 10 ^ 20 → parse_digits max 0 (decimal n) = Some n.
Proof.
  intros Hn Hmax. destruct (decimal_spec n ltac:(lia)) as (Hv & Hd & _).
  rewrite parse_digits_foldl; [by f_equal | done | lia |]. unfold digits_value in Hv. lia.
Qed.

Lemma decimal_nonempty n : ∃ b ds, decimal n = b :: ds ∧ (0 ≤ n < 10 ^ 20 → is_ascii_digit b = true).
Proof.
  destruct (decimal n) as [|b ds] eqn:E.
  - exfalso. assert (∀ fuel acc n, acc ≠ [] ∨ fuel ≠ O → digits_fuel fuel n acc ≠ []) as Hne.
    { clear. induction fuel as [|fuel IH]; intros acc n Hacc; [naive_solver |].
      cbn [digits_fuel]. case_match; [done |]. apply IH. by left. }
    apply Hne in E; [done | by right].
  - exists b, ds. split; [done |]. intros Hn. destruct (decimal_spec n Hn) as (_ & Hd & _).
    rewrite E in Hd. by inversion Hd.
Qed.

(** A coordinate reads back. *)
Lemma parse_signed_decimal n : -2 ^ 31 ≤ n < 2 ^ 31 → parse_i32 (signed_decimal n) = Some n.
Proof.
  intros Hn. unfold signed_decimal. destruct (Z.ltb_spec n 0).
  - pose proof (parse_digits_decimal (2 ^ 31) (- n) ltac:(lia) ltac:(lia)) as Hp.
    destruct (decimal_nonempty (- n)) as (b & ds & E & _). rewrite E in *. cbn -[parse_digits Z.pow].
    rewrite Hp. cbn. f_equal. lia.
  - pose proof (parse_digits_decimal (2 ^ 31 - 1) n ltac:(lia) ltac:(lia)) as Hp.
    destruct (decimal_nonempty n) as (b & ds & E & Hb). rewrite E in *. specialize (Hb ltac:(lia)).
    unfold is_ascii_digit in Hb. bool_to_prop. unfold parse_i32.
    destruct b as [|b|]; [lia | | lia].
    do 6 (destruct b as [b|b|]; try exact Hp; try lia).
Qed.

Lemma signed_decimal_bytes n :
  -2 ^ 31 ≤ n < 2 ^ 31 → Forall (λ b, b = 45 ∨ is_ascii_digit b = true) (signed_decimal n).
Proof.
  intros Hn. unfold signed_decimal. destruct (Z.ltb_spec n 0).
  - constructor; [by left |]. destruct (decimal_spec (- n) ltac:(lia)) as (_ & Hd & _).
    eapply Forall_impl; [exact Hd |]. by right.
  - destruct (decimal_spec n ltac:(lia)) as (_ & Hd & _). eapply Forall_impl; [exact Hd |]. by right.
Qed.

Lemma position_reads_back x y :
  -2 ^ 31 ≤ x < 2 ^ 31 → -2 ^ 31 ≤ y < 2 ^ 31 →
  let l := signed_decimal x ++ [44] ++ signed_decimal y in
  Forall ascii l ∧ trim l = l ∧ split_on 44 l = [signed_decimal x; signed_decimal y].
Proof.
  intros Hx Hy l. pose proof (signed_decimal_bytes x Hx) as Dx. pose proof (signed_decimal_bytes y Hy) as Dy.
  assert (Forall (λ b, b = 44 ∨ b = 45 ∨ is_ascii_digit b = true) l) as Hl.
  { unfold l. rewrite !Forall_app, Forall_singleton. split_and!; [| by left |];
      (eapply Forall_impl; [eassumption |]; cbn; tauto). }
  split_and!.
  - eapply Forall_impl; [exact Hl |]. cbn. unfold ascii, is_ascii_digit. intros b Hb.
    destruct Hb as [-> | [-> | Hb]]; [lia.. |]. bool_to_prop. lia.
  - apply trim_plain. eapply Forall_impl; [exact Hl |]. cbn. intros b [-> | [-> | Hb]]; [done.. |].
    unfold is_ascii_digit in Hb. unfold is_whitespace. bool_to_prop.
    repeat (apply orb_false_iff; split); try (apply andb_false_iff); rewrite ?Z.leb_gt, ?Z.eqb_neq; lia.
  - assert (∀ n, Forall (λ b, b = 45 ∨ is_ascii_digit b = true) n → 44 ∉ n) as Hno.
    { intros n Hn Hin. rewrite Forall_forall in Hn. by destruct (Hn _ Hin). }
    unfold l. cbn [app]. rewrite split_on_app by eauto. rewrite split_on_none by eauto. done.
Qed.
