(* ===== verification/SettingsSafety.v ===== *)
(** * The settings are kept

    The four settings files together stand for a record of preferences. A change of
    one setting changes its field and no other, or nothing, whatever fails and
    wherever the machine stops, and what is read after a restart is that record. *)

From S2P Require Import Prelude Text Disk DiskLogic Store Identity SampleIdentity Settings.
Local Open Scope string_scope.
Local Open Scope list_scope.
Local Open Scope Z_scope.

(** What the user chose. *)
Record Preferences := mkPreferences {
  pf_folder : path; pf_position : option (Z * Z); pf_enabled : bool; pf_language : LanguageChoice;
}.

Inductive Change :=
| ChangeFolder (p : path) | ChangePosition (x y : Z) | ChangeEnabled (enabled : bool)
| ChangeLanguage (choice : LanguageChoice).

Definition apply_change (c : Change) (prefs : Preferences) : Preferences :=
  match c with
  | ChangeFolder p => mkPreferences p (pf_position prefs) (pf_enabled prefs) (pf_language prefs)
  | ChangePosition x y => mkPreferences (pf_folder prefs) (Some (x, y)) (pf_enabled prefs) (pf_language prefs)
  | ChangeEnabled b => mkPreferences (pf_folder prefs) (pf_position prefs) b (pf_language prefs)
  | ChangeLanguage l => mkPreferences (pf_folder prefs) (pf_position prefs) (pf_enabled prefs) l
  end.

(** What the types of the code ensure: the text of a folder is a text, a position is two
    32-bit numbers. *)
Definition well_typed (c : Change) : Prop :=
  match c with
  | ChangeFolder p => valid_str (path_to_string p)
  | ChangePosition x y => -2 ^ 31 ≤ x < 2 ^ 31 ∧ -2 ^ 31 ≤ y < 2 ^ 31
  | _ => True
  end.

(** A change as it is kept: a folder without the white space at the ends of its text, and
    the default one when it is not absolute then. *)
Definition kept (default : path) (c : Change) : Change :=
  match c with
  | ChangeFolder p =>
    let saved := path_of_string (str_trim (path_to_string p)) in ChangeFolder (if is_absolute saved then saved else default)
  | c => c
  end.

(** A folder as the system hands it out, that white space neither begins nor ends. *)
Definition plain (c : Change) : Prop :=
  match c with
  | ChangeFolder p =>
    is_absolute p = true ∧ str_trim (path_to_string p) = path_to_string p ∧ path_of_string (path_to_string p) = p
  | _ => True
  end.

Lemma kept_plain default c : plain c → kept default c = c.
Proof. destruct c as [p| | |]; try done. intros (Habs & Htrim & Hback). cbn. by rewrite Htrim, Hback, Habs. Qed.

Section settings.
Context `{IdentityEnv}.

Section run.
Context (pid ui_language : Z) (userprofile : option path).

(** What the window calls. *)
Definition run_change (c : Change) : io unit :=
  match c with
  | ChangeFolder p => set_receive_folder pid p
  | ChangePosition x y => set_floating_position pid (x, y)
  | ChangeEnabled b => set_floating_enabled pid b
  | ChangeLanguage l => _ ← set_language_choice pid ui_language l; mret tt
  end.

(** What a new process reads. *)
Definition read_preferences : io Preferences :=
  folder ← receive_folder userprofile;
  position ← floating_position;
  enabled ← floating_enabled;
  language ← language_choice;
  mret (mkPreferences folder position enabled language).
End run.

(** The text of a setting, and what the texts stand for. *)
Definition setting_path (name : string) : path := default [] localappdata ++ ["FlowType"; name].
Definition text_of (name : string) (m : filemap) : option string :=
  f ← m !! setting_path name;
  if utf8_valid (f_data f) then Some (of_bytes (f_data f)) else None.

Definition folder_of (default : path) (text : option string) : path :=
  match (λ value, path_of_string (str_trim value)) <$> text with
  | Some saved => if is_absolute saved then saved else default
  | None => default
  end.
Definition position_of (text : option string) : option (Z * Z) :=
  value ← text;
  let parts := split_on 44 (trim (chars value)) in
  x ← parts !! 0%nat ≫= parse_i32;
  y ← parts !! 1%nat ≫= parse_i32;
  Some (x, y).
Definition enabled_of (text : option string) : bool :=
  match text with Some value => negb (bool_decide (str_trim value = "0")) | None => true end.
Definition language_of (text : option string) : LanguageChoice :=
  match text with Some value => parse_choice (str_trim value) | None => ChoiceSystem end.

Definition shown (default : path) (m : filemap) : Preferences :=
  mkPreferences (folder_of default (text_of RECEIVE_FOLDER_FILE m)) (position_of (text_of FLOATING_POSITION_FILE m))
    (enabled_of (text_of FLOATING_ENABLED_FILE m)) (language_of (text_of LANGUAGE_FILE m)).

Definition setting_files : list string :=
  [RECEIVE_FOLDER_FILE; FLOATING_POSITION_FILE; FLOATING_ENABLED_FILE; LANGUAGE_FILE].

(** The file a change replaces, and what it writes. *)
Definition change_file (c : Change) : string :=
  match c with
  | ChangeFolder _ => RECEIVE_FOLDER_FILE | ChangePosition _ _ => FLOATING_POSITION_FILE
  | ChangeEnabled _ => FLOATING_ENABLED_FILE | ChangeLanguage _ => LANGUAGE_FILE
  end.
Definition change_text (c : Change) : list Z :=
  match c with
  | ChangeFolder p => bytes_of (path_to_string p)
  | ChangePosition x y => signed_decimal x ++ [44] ++ signed_decimal y
  | ChangeEnabled b => if b then [49] else [48]
  | ChangeLanguage l => bytes_of (choice_value l)
  end.

(** ** Reading *)

Lemma read_to_string_quiet name d :
  quiet d → attempt (read_to_string (setting_path name)) d = (Ok (text_of name (d_files d)), d).
Proof.
  intros Hq. unfold attempt, read_to_string, mbind, sr_bind, text_of.
  destruct (d_files d !! setting_path name) as [f|] eqn:E.
  - rewrite (read_quiet d _ f Hq E). cbn. by destruct (utf8_valid (f_data f)); cbn; rewrite ?(proj2 Hq).
  - rewrite (read_absent d _ Hq E). cbn. by rewrite (proj2 Hq).
Qed.

Lemma data_dir_reads d :
  quiet d → is_Some localappdata → data_dir_free d →
  ∃ dir d', data_dir d = (Ok dir, d') ∧ d_files d' = d_files d ∧ quiet d' ∧ data_dir_free d' ∧
    ∀ name, dir ++ [name] = setting_path name.
Proof.
  intros Hq [root Hroot] Hfree. destruct (data_dir_quiet d root Hq Hroot Hfree) as [dirs Hdir].
  eexists _, _. split; [exact Hdir |]. split_and!; try done. intros name.
  unfold setting_path. rewrite Hroot. cbn. by rewrite <- app_assoc.
Qed.

Lemma floating_position_quiet d dir d' :
  data_dir d = (Ok dir, d') → quiet d' → (∀ name, dir ++ [name] = setting_path name) →
  floating_position d = (Ok (position_of (text_of FLOATING_POSITION_FILE (d_files d'))), d').
Proof.
  intros Hd Hq Hpath. unfold floating_position, mbind, sr_bind. unfold attempt at 1. rewrite Hd, Hpath.
  by rewrite read_to_string_quiet by done.
Qed.

Lemma read_preferences_quiet userprofile profile d :
  quiet d → is_Some localappdata → data_dir_free d → userprofile = Some profile →
  (read_preferences userprofile d).1 = Ok (shown (profile ++ ["Downloads"; "FlowType"]) (d_files d)).
Proof.
  intros Hq Hroot Hfree ->. unfold read_preferences, mbind, sr_bind.
  destruct (data_dir_reads d Hq Hroot Hfree) as (dir & d1 & Hd1 & Hf1 & Hq1 & Hfree1 & Hpath).
  assert (receive_folder (Some profile) d = (Ok (folder_of (profile ++ ["Downloads"; "FlowType"]) (text_of RECEIVE_FOLDER_FILE (d_files d))), d1)) as ->.
  { unfold receive_folder, receive_folder_from, mbind, sr_bind. rewrite Hd1. cbn. rewrite Hpath.
    rewrite read_to_string_quiet by done. rewrite Hf1. unfold folder_of. destruct (text_of _ _); cbn; [| done].
    by case_match. }
  destruct (data_dir_reads d1 Hq1 Hroot Hfree1) as (dir2 & d2 & Hd2 & Hf2 & Hq2 & Hfree2 & Hpath2).
  assert (floating_position d1 = (Ok (position_of (text_of FLOATING_POSITION_FILE (d_files d))), d2)) as ->.
  { rewrite (floating_position_quiet d1 dir2 d2) by done. by rewrite Hf2, Hf1. }
  destruct (data_dir_reads d2 Hq2 Hroot Hfree2) as (dir3 & d3 & Hd3 & Hf3 & Hq3 & Hfree3 & Hpath3).
  assert (floating_enabled d2 = (Ok (enabled_of (text_of FLOATING_ENABLED_FILE (d_files d))), d3)) as ->.
  { unfold floating_enabled, mbind, sr_bind. unfold attempt at 1. rewrite Hd3. rewrite Hpath3.
    rewrite read_to_string_quiet by done. by rewrite Hf3, Hf2, Hf1. }
  destruct (data_dir_reads d3 Hq3 Hroot Hfree3) as (dir4 & d4 & Hd4 & Hf4 & Hq4 & Hfree4 & Hpath4).
  assert (language_choice d3 = (Ok (language_of (text_of LANGUAGE_FILE (d_files d))), d4)) as ->.
  { unfold language_choice, mbind, sr_bind. unfold attempt at 1. rewrite Hd4. rewrite Hpath4.
    rewrite read_to_string_quiet by done. by rewrite Hf4, Hf3, Hf2, Hf1. }
  done.
Qed.

(** ** Writing *)

Lemma setting_path_visible name : name ∈ setting_files → ¬ dotted (setting_path name).
Proof.
  intros Hname. unfold setting_path.
  change (default [] localappdata ++ ["FlowType"; name]) with (default [] localappdata ++ (["FlowType"] ++ [name])).
  unfold dotted. rewrite app_assoc, last_snoc. cbn [default from_option id].
  repeat (apply elem_of_cons in Hname as [-> | Hname]; [by vm_compute |]). by apply not_elem_of_nil in Hname.
Qed.

Lemma setting_path_inj name name' : setting_path name = setting_path name' → name = name'.
Proof. unfold setting_path. intros Heq%app_inv_head. congruence. Qed.

Lemma text_of_visible name (m m' : filemap) :
  name ∈ setting_files → same_visible m m' → text_of name m' = text_of name m.
Proof. intros Hname Hm. unfold text_of. by rewrite (Hm _ (setting_path_visible name Hname)). Qed.

Lemma shown_visible default (m m' : filemap) : same_visible m m' → shown default m' = shown default m.
Proof.
  intros Hm. unfold shown. by rewrite !(text_of_visible _ m m') by (done || (unfold setting_files; set_solver)).
Qed.

Lemma text_of_written name (l : list Z) (m : filemap) :
  utf8_valid l = true → text_of name (<[setting_path name := mkFile l l]> m) = Some (of_bytes l).
Proof. intros Hl. unfold text_of. rewrite lookup_insert_eq. cbn. by rewrite Hl. Qed.

Lemma text_of_other name name' f (m : filemap) :
  name' ≠ name → text_of name (<[setting_path name' := f]> m) = text_of name m.
Proof.
  intros Hne. unfold text_of. rewrite lookup_insert_ne; [done |]. intros Heq. by apply Hne, setting_path_inj.
Qed.

Lemma change_file_listed c : change_file c ∈ setting_files.
Proof. destruct c; cbn; unfold setting_files; set_solver. Qed.

(** What a change writes stands for the new value. *)
Lemma shown_changed default c (m : filemap) :
  well_typed c →
  shown default (<[setting_path (change_file c) := mkFile (change_text c) (change_text c)]> m)
  = apply_change (kept default c) (shown default m).
Proof.
  intros Hc. unfold shown. destruct c as [p | x y | b | l]; cbn [change_file change_text apply_change kept pf_folder pf_position pf_enabled pf_language].
  - rewrite text_of_written, !(text_of_other _ RECEIVE_FOLDER_FILE) by (done || by apply utf8_valid_str).
    f_equal. unfold folder_of. cbn. by rewrite of_bytes_bytes_of.
  - destruct (position_reads_back x y ltac:(apply Hc) ltac:(apply Hc)) as (Hascii & Htrim & Hsplit).
    rewrite text_of_written, !(text_of_other _ FLOATING_POSITION_FILE) by (done || by apply utf8_valid_ascii).
    f_equal. unfold position_of. cbn [mbind option_bind]. rewrite chars_ascii, Htrim, Hsplit by done.
    cbn -[parse_i32 signed_decimal]. rewrite !parse_signed_decimal by apply Hc. done.
  - rewrite text_of_written, !(text_of_other _ FLOATING_ENABLED_FILE) by (done || by destruct b).
    f_equal. by destruct b; vm_compute.
  - rewrite text_of_written, !(text_of_other _ LANGUAGE_FILE) by (done || by destruct l).
    f_equal. by destruct l; vm_compute.
Qed.

Lemma fwp_save c dir pid (m : filemap) :
  dir ++ [change_file c] = setting_path (change_file c) →
  fwp3 (write pid (dir ++ [change_file c]) (change_text c))
    (λ _ m', same_visible (<[setting_path (change_file c) := mkFile (change_text c) (change_text c)]> m) m')
    (same_visible m)
    (λ m', same_visible m m' ∨
           same_visible (<[setting_path (change_file c) := mkFile (change_text c) (change_text c)]> m) m') m.
Proof. intros ->. apply fwp_write; tauto. Qed.

Lemma fwp_settings_dir (m : filemap) :
  fwp data_dir (λ dir m', m' = m ∧ ∀ name, dir ++ [name] = setting_path name) (eq m) m.
Proof.
  unfold data_dir. apply fwp_bind, fwp_lift; [| done]. intros root Hroot.
  apply fwp_bind, fwp_create_dir_all; [| done]. apply fwp_ret. split; [done |]. intros name.
  unfold setting_path. destruct localappdata; [| done]. injection Hroot as <-. cbn. by rewrite <- app_assoc.
Qed.

(** A change replaces its file, or leaves every file. *)
Lemma fwp_run_change pid ui_language c (m : filemap) :
  fwp3 (run_change pid ui_language c)
    (λ _ m', same_visible (<[setting_path (change_file c) := mkFile (change_text c) (change_text c)]> m) m')
    (same_visible m)
    (λ m', same_visible m m' ∨
           same_visible (<[setting_path (change_file c) := mkFile (change_text c) (change_text c)]> m) m') m.
Proof.
  pose proof (fwp_settings_dir m) as Hdir.
  assert (∀ (A : Type) (k : path → io A) (Q : A → filemap → Prop),
    (∀ dir, (∀ name, dir ++ [name] = setting_path name) →
       fwp3 (k dir) Q (same_visible m)
         (λ m', same_visible m m' ∨
            same_visible (<[setting_path (change_file c) := mkFile (change_text c) (change_text c)]> m) m') m) →
    fwp3 (dir ← data_dir; k dir) Q (same_visible m)
         (λ m', same_visible m m' ∨
            same_visible (<[setting_path (change_file c) := mkFile (change_text c) (change_text c)]> m) m') m) as Hk.
  { intros A k Q Hk. apply fwp_bind. eapply fwp3_mono; [exact Hdir | | |].
    - intros dir m' [-> Hname]. by apply Hk.
    - intros m' <-. apply frame_refl.
    - intros m' <-. left. apply frame_refl. }
  destruct c as [p | x y | b | l]; cbn [run_change].
  - unfold set_receive_folder. destruct (negb _); [apply fwp_fail, frame_refl |].
    apply fwp_bind. eapply fwp3_mono;
      [by apply (fwp_create_dir_all p (λ _, eq m) (eq m)) | | intros m' <-; apply frame_refl | intros m' <-; left; apply frame_refl].
    intros _ m' <-. apply Hk. intros dir Hname. by apply (fwp_save (ChangeFolder p)).
  - unfold set_floating_position. apply Hk. intros dir Hname. by apply (fwp_save (ChangePosition x y)).
  - unfold set_floating_enabled. apply Hk. intros dir Hname. by apply (fwp_save (ChangeEnabled b)).
  - apply fwp_bind. unfold set_language_choice. apply Hk. intros dir Hname. apply fwp_bind.
    eapply fwp3_mono; [by apply (fwp_save (ChangeLanguage l)) | | done | done].
    intros u m' Hm'. apply fwp_ret. by apply fwp_ret.
Qed.

(** ** Restarts *)

(** The settings files are on the medium as they are read. *)
Definition settings_synced (m : filemap) : Prop :=
  ∀ name f, name ∈ setting_files → m !! setting_path name = Some f → f_durable f = f_data f.

Lemma settings_synced_visible (m m' : filemap) : same_visible m m' → settings_synced m → settings_synced m'.
Proof. intros Hm Hs name f Hname. rewrite (Hm _ (setting_path_visible name Hname)). by apply Hs. Qed.

Lemma settings_synced_written c (m : filemap) :
  settings_synced m → settings_synced (<[setting_path (change_file c) := mkFile (change_text c) (change_text c)]> m).
Proof. intros Hs name f Hname [[_ <-] | [_ Hf]]%lookup_insert_Some; [done |]. by eapply Hs. Qed.

Lemma shown_reboot default schedule d d' :
  settings_synced (d_files d) → reboot schedule d d' → shown default (d_files d') = shown default (d_files d).
Proof.
  intros Hs Hr. assert (∀ name, name ∈ setting_files → text_of name (d_files d') = text_of name (d_files d)) as Ht.
  { intros name Hname. unfold text_of. destruct (d_files d !! setting_path name) as [[v w]|] eqn:E.
    - pose proof (Hs name _ Hname E) as Hvw. cbn in Hvw. subst w. by rewrite (reboot_synced schedule d d' _ _ Hr E).
    - by rewrite (reboot_absent schedule d d' _ Hr E). }
  unfold shown. rewrite !Ht; [done | ..]; unfold setting_files; set_solver.
Qed.

(** What a restart shows of a change, by how the change ended. *)
Lemma shown_after_restart pid ui_language default c d r d1 schedule d2 :
  d_halted d = false → settings_synced (d_files d) → well_typed c →
  run_change pid ui_language c d = (r, d1) → reboot schedule d1 d2 →
  let before := shown default (d_files d) in
  let after := shown default (d_files d2) in
  match r with
  | Ok _ => after = apply_change (kept default c) before
  | Err _ => after = before ∨ d_halted d1 = true ∧ after = apply_change (kept default c) before
  end.
Proof.
  intros Hh Hs Hc Hrun Hr before after.
  pose proof (fwp_run_change pid ui_language c (d_files d) d eq_refl Hh) as Hm. rewrite Hrun in Hm.
  assert (∀ m, settings_synced m → same_visible m (d_files d1) → shown default (d_files d2) = shown default m) as Hshown.
  { intros m Hm' Hsame. rewrite (shown_reboot default schedule d1 d2); [by apply shown_visible | | done].
    by eapply settings_synced_visible. }
  unfold before, after. rewrite <- (shown_changed default c (d_files d) Hc).
  destruct r as [u|e].
  - destruct Hm as [_ Hm]. apply Hshown; [by apply settings_synced_written | done].
  - destruct (d_halted d1).
    + destruct Hm as [Hm | Hm]; [left | right; split; [done |]]; (apply Hshown; [| done]);
        [done | by apply settings_synced_written].
    + left. by apply Hshown.
Qed.

Lemma reboot_quiet d d' : reboot [] d d' → quiet d'.
Proof. intros (_ & _ & _ & _ & ? & ?). by split. Qed.

(** C30. (refinement) The settings files refine a record of preferences: a change that is
    reported as done is what the next start reads, one that fails leaves all
    preferences, one that a stop interrupts does one or the other, and no change
    touches another setting. A folder is kept without white space at the ends of its text;
    every other change, and a folder without such white space, is kept as it is. The next
    start reads on a disk that answers. *)
Theorem settings_refine_preferences pid ui_language profile c d r d1 d2 :
  d_halted d = false → settings_synced (d_files d) → well_typed c →
  run_change pid ui_language c d = (r, d1) →
  reboot [] d1 d2 → is_Some localappdata → data_dir_free d2 →
  let default := profile ++ ["Downloads"; "FlowType"] in
  let before := shown default (d_files d) in
  (∃ after, (read_preferences (Some profile) d2).1 = Ok after ∧
    match r with
    | Ok _ => after = apply_change (kept default c) before
    | Err _ => after = before ∨ d_halted d1 = true ∧ after = apply_change (kept default c) before
    end) ∧
  (plain c → kept default c = c).
Proof.
  intros Hh Hs Hc Hrun Hr Hroot Hfree default before. split; [| by apply kept_plain].
  exists (shown default (d_files d2)). split.
  - apply (read_preferences_quiet _ profile); [| done..]. by eapply reboot_quiet.
  - by eapply shown_after_restart.
Qed.
End settings.

(** The position left of the main screen is kept by a restart. *)
Lemma settings_refine_preferences_witness :
  let c := ChangePosition (-1200) 64 in
  let d1 := (run_change 4 0x0804 c empty_profile).2 in
  d_halted empty_profile = false ∧ well_typed c ∧ reboot [] d1 (restarted d1) ∧
  ∃ after, (read_preferences (Some ["C:"; "Users"]) (restarted d1)).1 = Ok after ∧
    after = apply_change c (shown (["C:"; "Users"] ++ ["Downloads"; "FlowType"]) (d_files empty_profile)).
Proof.
  intros c d1.
  assert (well_typed c) as Hc by (cbn; lia).
  assert (reboot [] d1 (restarted d1)) as Hr by (apply reboot_restarted; vm_compute; reflexivity).
  split; [reflexivity |]. split; [exact Hc |]. split; [exact Hr |].
  apply (settings_refine_preferences 4 0x0804 ["C:"; "Users"] c empty_profile (Ok tt) d1 (restarted d1));
    [reflexivity | | exact Hc | vm_compute; reflexivity | exact Hr | by eexists |].
  - intros name f _ Hf. unfold empty_profile in Hf. cbn in Hf. by rewrite lookup_empty in Hf.
  - intros root [= <-]. apply Forall_forall. intros q Hq. vm_compute in Hq.
    repeat (apply elem_of_cons in Hq as [-> | Hq]; [vm_compute; reflexivity |]). by apply not_elem_of_nil in Hq.
Defined.

(** A folder whose name ends with white space that Windows keeps (an ideographic space)
    is saved as it is and read back as another one. *)
Theorem trimmed_folder_is_another :
  let folder := ["D:"; "收件" +:+ of_chars [0x3000]] in
  let '(r, d) := set_receive_folder 4 folder empty_profile in
  r = Ok tt ∧ (receive_folder (Some ["C:"; "Users"]) d).1 = Ok ["D:"; "收件"].
Proof. vm_compute. by split. Qed.

(** ** The start with Windows *)

Lemma wide_bytes_long value : 2 ≤ zlength (wide_bytes (wide value)).
Proof.
  unfold wide_bytes, wide. generalize (utf16_of value). intros l. unfold zlength.
  rewrite bind_app, length_app. cbn. lia.
Qed.

(** Turning it on or off is what is found, and no other value of the key is touched. *)
Theorem auto_start_reads_back executable enabled r u r' :
  rg_codes r = [] → set_auto_start executable enabled r = (Ok u, r') →
  auto_start_enabled r' = enabled ∧
  (∀ name, name ≠ VALUE_NAME → (rg_values r' ≫= lookup name) = (rg_values r ≫= lookup name)) ∧
  (enabled = true → ∃ command, executable = Some command ∧
     (rg_values r' ≫= lookup VALUE_NAME) = Some (REG_SZ, wide_bytes (wide (auto_start_command command)))).
Proof.
  intros Hcodes. unfold set_auto_start, auto_start_enabled, open_key, RegSetValueExW, RegDeleteValueW, RegQueryValueExW,
    registry_call, mbind, sr_bind, sr_lift.
  rewrite Hcodes. destruct (rg_values r) as [values|] eqn:E; [| done]. cbn [ok_or]. destruct enabled.
  - destruct executable as [command|]; [| done]. cbn [ok_or]. rewrite Hcodes.
    pose proof (wide_bytes_long (auto_start_command command)) as Hlong.
    remember (wide_bytes (wide (auto_start_command command))) as bytes eqn:Hbytes. intros [= <- <-].
    unfold with_values. cbn [rg_codes rg_values]. rewrite Hcodes, E. cbn [fmap option_fmap option_map rg_values mbind option_bind].
    rewrite lookup_insert_eq. cbn [ok_or]. split_and!.
    + apply andb_true_iff. split; [done |]. by apply Z.leb_le.
    + intros name Hne. by rewrite lookup_insert_ne by done.
    + intros _. exists command. by rewrite Hbytes.
  - rewrite Hcodes. rewrite E. cbn [mbind option_bind]. destruct (values !! VALUE_NAME) as [v|] eqn:Ev.
    + intros [= <- <-]. unfold with_values. cbn [rg_codes rg_values]. rewrite Hcodes, E. cbn.
      rewrite lookup_delete_eq. split_and!; [done | | done].
      intros name Hne. by rewrite lookup_delete_ne by done.
    + cbn. intros [= <- <-]. rewrite Hcodes, E. cbn. rewrite Hcodes, E. cbn. rewrite Ev. split_and!; done.
Qed.
