(* ===== verification/Floating.v ===== *)
(** * The floating ball

    [flowtype-app/src/ui_floating.rs]: the messages of the ball's window, what its
    tooltip and its colors show, and where it is put. The pixels, which are computed
    with floating point numbers, are not modelled. Coordinates are [i32]. *)

From S2P Require Import Prelude Text Disk DiskLogic AppState Pairing AppActions Identity SampleIdentity Settings SettingsSafety.
Local Open Scope string_scope.
Local Open Scope list_scope.
Local Open Scope Z_scope.

(** Arithmetic of [i32]. *)
Definition i32 (z : Z) : Z := (z + 2 ^ 31) mod 2 ^ 32 - 2 ^ 31.
Notation point := (Z * Z)%type.
Definition minus (a b : point) : point := (i32 (a.1 - b.1), i32 (a.2 - b.2)).
Definition plus (a b : point) : point := (i32 (a.1 + b.1), i32 (a.2 + b.2)).

(** [app/ui_floating.rs:30-35 BALL_SIZE] *)
Definition BALL_SIZE : Z := 48.
Definition SHADOW_MARGIN : Z := 7.
Definition BALL_MARGIN : Z := 24.
Definition MENU_OPEN : Z := 1.
Definition MENU_HIDE : Z := 2.

(** [app/ui_floating.rs BallContext] With what Windows keeps for the window: its
    place, whether it has the mouse, and whether the click timer runs. *)
Record Ball := mkBall {
  drag_origin : point;
  window_origin : point;
  dragging : bool;
  pending_click : bool;
  shadow_margin : Z;
  size : Z;
  window : point;
  captured : bool;
  click_timer : bool;
}.

(** What the window procedure asks for: a message to the main window, a switch of the
    phone, a position to save. *)
Inductive BallEffect := ShowMain | HideBall | RequestSwitchToCurrent | SavePosition (p : point).
#[export] Instance BallEffect_eq_dec : EqDecision BallEffect.
Proof. solve_decision. Defined.

(** The messages, with what [GetCursorPos] or the menu gives. *)
Inductive BallMessage :=
| LButtonDown (cursor : point) | MouseMove (cursor : point) | LButtonUp | LButtonDblClk | Timer
| RButtonUp (command : Z).

Section ball.
(** [GetSystemMetrics(SM_CXDRAG)]. *)
Context (sm_cxdrag : Z).

(** [app/ui_floating.rs show_context_menu] *)
Definition show_context_menu (command : Z) : list BallEffect :=
  if command =? MENU_OPEN then [ShowMain] else if command =? MENU_HIDE then [HideBall] else [].

(** [app/ui_floating.rs window_proc] *)
Definition window_proc (message : BallMessage) (b : Ball) : Ball * list BallEffect :=
  match message with
  | RButtonUp command => (b, show_context_menu command)
  | LButtonDown cursor =>
    (mkBall cursor (window b) false (pending_click b) (shadow_margin b) (size b) (window b) true (click_timer b), [])
  | MouseMove cursor =>
    if captured b then
      let d := minus cursor (drag_origin b) in
      let threshold := Z.max sm_cxdrag 4 in
      let b :=
        if negb (dragging b) && ((threshold <=? i32 (Z.abs d.1)) || (threshold <=? i32 (Z.abs d.2)))
        then mkBall (drag_origin b) (window_origin b) true false (shadow_margin b) (size b) (window b) (captured b) false
        else b in
      (if dragging b
       then mkBall (drag_origin b) (window_origin b) true (pending_click b) (shadow_margin b) (size b)
              (plus (window_origin b) d) (captured b) (click_timer b)
       else b, [])
    else (b, [])
  | LButtonUp =>
    let released pending timer :=
      mkBall (drag_origin b) (window_origin b) (dragging b) pending (shadow_margin b) (size b) (window b) false timer in
    if dragging b
    then (released (pending_click b) (click_timer b), [SavePosition (plus (window b) (shadow_margin b, shadow_margin b))])
    else (released true true, [])
  | LButtonDblClk =>
    (mkBall (drag_origin b) (window_origin b) (dragging b) false (shadow_margin b) (size b) (window b) (captured b) false,
     [ShowMain])
  | Timer =>
    let stopped pending :=
      mkBall (drag_origin b) (window_origin b) (dragging b) pending (shadow_margin b) (size b) (window b) (captured b) false in
    if pending_click b then (stopped false, [RequestSwitchToCurrent]) else (stopped (pending_click b), [])
  end.

Fixpoint run_ball (messages : list BallMessage) (b : Ball) : Ball * list BallEffect :=
  match messages with
  | [] => (b, [])
  | message :: messages =>
    let '(b, effects) := window_proc message b in
    let '(b, effects') := run_ball messages b in
    (b, effects ++ effects')
  end.
End ball.

(** [app/ui_floating.rs default_position] Right and bottom of the work area. *)
Definition default_position (work : point) (size : Z) : point :=
  (i32 (i32 (work.1 - size) - BALL_MARGIN), i32 (i32 (work.2 - size) - BALL_MARGIN)).

(** [app/ui_floating.rs create] [scale] is the DPI of the system. *)
Definition create_ball (scale : Z) (saved : option point) (work : point) : Ball :=
  let scale := Z.max scale 96 in
  let ball_size := Z.quot (BALL_SIZE * scale) 96 in
  let shadow_margin := Z.quot (SHADOW_MARGIN * scale) 96 in
  let size := ball_size + shadow_margin * 2 in
  let p := match saved with
           | Some p => minus p (shadow_margin, shadow_margin)
           | None => default_position work size
           end in
  mkBall (0, 0) p false false shadow_margin size p false false.

(** What the app does with an effect; the main window's messages are posted to it. *)
Definition perform (english post_ok : bool) (request_id : string) (effect : BallEffect) (ap : App) : App :=
  match effect with
  | RequestSwitchToCurrent => on_state (request_switch_to_current english post_ok request_id) ap
  | _ => ap
  end.

(** ** What is shown *)

Definition no_phones (ap : App) : bool := bool_decide (phones (paired_phones (ap_pairing ap)) = ∅).
Definition phone_shown (ap : App) : option string := connected_phone (runtime_status (ap_state ap)).

(** [app/ui_floating.rs update_tooltip] The lines of the tooltip. *)
Definition tooltip_lines (english : bool) (ap : App) : list string :=
  if no_phones ap then
    [tr english "说写" "FlowType"; tr english "尚未绑定手机" "No phones paired"; tr english "双击打开主页面" "Double-click to open"]
  else match phone_shown ap with
       | Some phone =>
         [tr english "说写" "FlowType"; tr english "已连接：" "Connected: " +:+ phone;
          tr english "单击切换到此电脑" "Click to switch to this computer"; tr english "双击打开主页面" "Double-click to open"]
       | None =>
         [tr english "说写" "FlowType"; tr english "手机连接已断开" "Phone disconnected"; tr english "双击打开主页面" "Double-click to open"]
       end.

Definition COLOR_BALL_ORANGE : Z := 0x00008cff.
Definition COLOR_BALL_BLACK : Z := 0x00101214.

(** [app/ui_floating.rs ball_color] *)
Definition ball_color (ap : App) : Z * Z * Z :=
  match phone_shown ap with
  | Some _ => (54, 201, 198)
  | None =>
    let color := if no_phones ap then COLOR_BALL_BLACK else COLOR_BALL_ORANGE in
    (Z.land color 0xff, Z.land (Z.shiftr color 8) 0xff, Z.land (Z.shiftr color 16) 0xff)
  end.

(** [app/ui_floating.rs status_dot_color] *)
Definition status_dot_color (ap : App) : Z * Z * Z :=
  if no_phones ap then (145, 154, 159)
  else match phone_shown ap with Some _ => (244, 246, 247) | None => (255, 199, 111) end.

(** ** Gestures *)

(** Screen coordinates, and their differences, are far from the bounds of [i32]. *)
Definition on_screen (p : point) : Prop := -2 ^ 28 ≤ p.1 < 2 ^ 28 ∧ -2 ^ 28 ≤ p.2 < 2 ^ 28.

Lemma i32_small z : -2 ^ 31 ≤ z < 2 ^ 31 → i32 z = z.
Proof. intros Hz. unfold i32. rewrite Z.mod_small; lia. Qed.

Section gestures.
Context (sm_cxdrag : Z).
Implicit Types (b : Ball) (c : point).

(** The cursor went far enough from where the button was pressed. *)
Definition far (c0 c : point) : bool :=
  let threshold := Z.max sm_cxdrag 4 in
  (threshold <=? Z.abs (c.1 - c0.1)) || (threshold <=? Z.abs (c.2 - c0.2)).

(** Where the ball is between press and release: [cs] are the moves, [w] was its place. *)
Definition placed (c0 w : point) (cs : list point) : point :=
  if existsb (far c0) cs then let c := List.last cs c0 in (w.1 + (c.1 - c0.1), w.2 + (c.2 - c0.2)) else w.

Lemma run_ball_app messages messages' b :
  run_ball sm_cxdrag (messages ++ messages') b
  = let '(b1, e1) := run_ball sm_cxdrag messages b in
    let '(b2, e2) := run_ball sm_cxdrag messages' b1 in (b2, e1 ++ e2).
Proof.
  revert b. induction messages as [|message messages IH]; intros b; cbn.
  - by destruct (run_ball sm_cxdrag messages' b).
  - destruct (window_proc sm_cxdrag message b) as [b1 e1]. rewrite IH.
    destruct (run_ball sm_cxdrag messages b1) as [b2 e2]. destruct (run_ball sm_cxdrag messages' b2). by rewrite app_assoc.
Qed.

(** Between press and release: a pending click is kept until the drag begins, and
    nothing is asked for. *)
Lemma run_moves b c0 cs :
  on_screen c0 → on_screen (window_origin b) → Forall on_screen cs →
  drag_origin b = c0 → captured b = true →
  dragging b = false → window b = window_origin b →
  let d := existsb (far c0) cs in
  run_ball sm_cxdrag (MouseMove <$> cs) b
  = (mkBall c0 (window_origin b) d (if d then false else pending_click b) (shadow_margin b) (size b)
       (placed c0 (window_origin b) cs) true (if d then false else click_timer b), []).
Proof.
  intros Hc0 Hw Hcs Horigin Hcap Hdrag Hwin.
  induction cs as [|c cs IH] using rev_ind; cbn.
  { destruct b; cbn in *; by subst. }
  apply Forall_app in Hcs as [Hcs Hc]. rewrite Forall_singleton in Hc. specialize (IH Hcs).
  rewrite fmap_app, run_ball_app, IH. cbn [fmap list_fmap run_ball window_proc captured drag_origin window_origin dragging].
  rewrite existsb_app. cbn [existsb]. rewrite orb_false_r.
  unfold on_screen in *. assert (minus c c0 = (c.1 - c0.1, c.2 - c0.2)) as Hd by (unfold minus; rewrite !i32_small by lia; done).
  rewrite Hd. cbn [fst snd]. rewrite !(i32_small (Z.abs _)) by lia.
  assert (far c0 c = ((Z.max sm_cxdrag 4 <=? Z.abs (c.1 - c0.1)) || (Z.max sm_cxdrag 4 <=? Z.abs (c.2 - c0.2)))) as <- by done.
  unfold placed, plus. rewrite existsb_app, last_last. cbn [existsb]. rewrite orb_false_r. cbn [fst snd].
  destruct (existsb (far c0) cs) eqn:E; cbn [negb andb orb].
  - cbn. rewrite !i32_small by lia. done.
  - destruct (far c0 c); cbn; [by rewrite !i32_small by lia | done].
Qed.

Lemma last_on_screen c0 cs : on_screen c0 → Forall on_screen cs → on_screen (List.last cs c0).
Proof.
  intros Hc0 Hcs. destruct cs as [|c cs] using rev_ind; [done |]. rewrite last_last.
  apply Forall_app in Hcs as [_ Hc]. by rewrite Forall_singleton in Hc.
Qed.

(** A press, moves and a release are a drag or a click. If a move went
    further than the system's drag distance, the ball follows the cursor, its place is
    saved at the release and no click is pending, not even an earlier one. Otherwise the
    ball stays, and exactly one switch is requested when the double click time is over. *)
Theorem ball_gesture b c0 cs :
  on_screen c0 → on_screen (window b) → Forall on_screen cs → 0 ≤ shadow_margin b < 2 ^ 28 →
  let '(b', effects) := run_ball sm_cxdrag (LButtonDown c0 :: (MouseMove <$> cs) ++ [LButtonUp]) b in
  window b' = placed c0 (window b) cs ∧ captured b' = false ∧
  if existsb (far c0) cs
  then effects = [SavePosition ((window b').1 + shadow_margin b, (window b').2 + shadow_margin b)] ∧
       (run_ball sm_cxdrag [Timer; Timer] b').2 = []
  else effects = [] ∧ (run_ball sm_cxdrag [Timer; Timer] b').2 = [RequestSwitchToCurrent].
Proof.
  intros Hc0 Hw Hcs Hmargin. cbn [run_ball window_proc]. rewrite run_ball_app, (run_moves _ c0 cs) by done.
  cbn [window_origin pending_click shadow_margin size click_timer]. destruct (existsb (far c0) cs) eqn:E; cbn.
  - split_and!; try done. unfold plus, placed. rewrite E. cbn.
    pose proof (last_on_screen c0 cs Hc0 Hcs) as Hlast.
    unfold on_screen in *. by rewrite !i32_small by lia.
  - done.
Qed.

(** The click timer runs exactly while a click is pending, whatever happens: no click is
    lost, and none is left from before. *)
Definition click_ok (b : Ball) : Prop := pending_click b = click_timer b.

Lemma window_proc_click_ok message b : click_ok b → click_ok (window_proc sm_cxdrag message b).1.
Proof.
  unfold click_ok. intros Hb. destruct message; cbn; try done; repeat case_match; cbn; congruence.
Qed.

Lemma run_ball_click_ok messages b : click_ok b → click_ok (run_ball sm_cxdrag messages b).1.
Proof.
  revert b. induction messages as [|message messages IH]; intros b Hb; cbn; [done |].
  pose proof (window_proc_click_ok message b Hb) as H1. destruct (window_proc sm_cxdrag message b) as [b1 e1].
  specialize (IH b1 H1). by destruct (run_ball sm_cxdrag messages b1).
Qed.
End gestures.

(** Where the ball is dropped is where the next start of the app puts it,
    when its place was saved: the margin of the shadow is added and taken off again, and
    the text of the file reads back, left of and above the main screen too. *)
Theorem dropped_ball_comes_back `{IdentityEnv} pid ui_language sm_cxdrag b c0 cs d u d1 d2 scale work :
  on_screen c0 → on_screen (window b) → Forall on_screen cs → existsb (far sm_cxdrag c0) cs = true →
  shadow_margin b = shadow_margin (create_ball scale None work) → scale < 2 ^ 20 →
  let dropped := (run_ball sm_cxdrag (LButtonDown c0 :: (MouseMove <$> cs) ++ [LButtonUp]) b).1 in
  d_halted d = false → settings_synced (d_files d) →
  run_change pid ui_language
    (ChangePosition ((window dropped).1 + shadow_margin b) ((window dropped).2 + shadow_margin b)) d = (Ok u, d1) →
  reboot [] d1 d2 → is_Some localappdata → data_dir_free d2 →
  ∃ saved d3, floating_position d2 = (Ok saved, d3) ∧ window (create_ball scale saved work) = window dropped.
Proof.
  intros Hc0 Hw Hcs Hfar Hmargin Hscale dropped Hh Hs Hrun Hr Hroot Hfree.
  assert (0 ≤ shadow_margin b < 2 ^ 20) as Hm.
  { rewrite Hmargin. cbn. unfold SHADOW_MARGIN. split; [apply Z.quot_pos; lia |].
    apply Z.quot_lt_upper_bound; lia. }
  assert (window dropped = placed sm_cxdrag c0 (window b) cs) as Hdropped.
  { unfold dropped. cbn [run_ball window_proc]. rewrite run_ball_app, (run_moves sm_cxdrag _ c0 cs) by done.
    cbn. by rewrite Hfar. }
  clearbody dropped.
  assert (on_screen (List.last cs c0)) as Hlast by by apply last_on_screen.
  assert (-2 ^ 30 ≤ (window dropped).1 < 2 ^ 30 ∧ -2 ^ 30 ≤ (window dropped).2 < 2 ^ 30) as Hbound.
  { rewrite Hdropped. unfold placed. rewrite Hfar. unfold on_screen in *. cbn. lia. }
  destruct (data_dir_reads d2 (reboot_quiet _ _ Hr) Hroot Hfree) as (dir & d3 & Hd & Hf & Hq & _ & Hpath).
  eexists _, d3. rewrite (floating_position_quiet d2 dir d3 Hd Hq Hpath). split; [done |]. rewrite Hf.
  assert (well_typed (ChangePosition ((window dropped).1 + shadow_margin b) ((window dropped).2 + shadow_margin b))) as Hvalid
    by (cbv [well_typed]; lia).
  pose proof (shown_after_restart pid ui_language [] _ d (Ok u) d1 [] d2 Hh Hs Hvalid Hrun Hr) as Hshown.
  apply (f_equal pf_position) in Hshown. cbn [shown pf_position apply_change kept] in Hshown. rewrite Hshown.
  unfold create_ball. cbn [window]. rewrite Hmargin. cbn [create_ball shadow_margin].
  unfold create_ball in Hmargin. cbn [shadow_margin] in Hmargin. rewrite <- Hmargin.
  unfold minus. cbn [fst snd]. rewrite !i32_small by lia. destruct (window dropped). cbn. f_equal; lia.
Qed.

(** A double click opens the main window; its second release counts as a click again, so
    that the phone is switched as well. *)
Theorem double_click_also_switches sm_cxdrag b c :
  (run_ball sm_cxdrag [LButtonDown c; LButtonUp; LButtonDblClk; LButtonUp; Timer] b).2 = [ShowMain; RequestSwitchToCurrent].
Proof. done. Qed.

(** After the last phone was unpaired while it is connected, the tooltip says that no phone
    is paired and the ball is green. *)
Theorem unpaired_ball_is_green english ap phone :
  phones (paired_phones (ap_pairing ap)) = ∅ → phone_shown ap = Some phone →
  tooltip_lines english ap !! 1%nat = Some (tr english "尚未绑定手机" "No phones paired") ∧ ball_color ap = (54, 201, 198).
Proof. intros Hp Hs. unfold tooltip_lines, ball_color, no_phones. rewrite Hp, Hs. by rewrite bool_decide_true. Qed.

(** ** A ball on a screen *)

Definition sample_ball : Ball := create_ball 96 None (1920, 1040).

(** A click with a trembling hand. *)
Lemma ball_gesture_witness :
  on_screen (1860, 980) ∧ existsb (far 4 (1860, 980)) [(1861, 980); (1860, 982)] = false ∧
  let '(b', effects) :=
    run_ball 4 (LButtonDown (1860, 980) :: (MouseMove <$> [(1861, 980); (1860, 982)]) ++ [LButtonUp]) sample_ball in
  window b' = placed 4 (1860, 980) (window sample_ball) [(1861, 980); (1860, 982)] ∧ captured b' = false ∧
  if existsb (far 4 (1860, 980)) [(1861, 980); (1860, 982)]
  then effects = [SavePosition ((window b').1 + shadow_margin sample_ball, (window b').2 + shadow_margin sample_ball)] ∧
       (run_ball 4 [Timer; Timer] b').2 = []
  else effects = [] ∧ (run_ball 4 [Timer; Timer] b').2 = [RequestSwitchToCurrent].
Proof.
  split; [unfold on_screen; cbn; lia |]. split; [reflexivity |].
  apply (ball_gesture 4 sample_ball (1860, 980) [(1861, 980); (1860, 982)]).
  - unfold on_screen; cbn; lia.
  - vm_compute. intuition discriminate.
  - repeat constructor; cbn; lia.
  - vm_compute. intuition discriminate.
Defined.

(** The ball is dropped on a screen to the left. *)
Lemma dropped_ball_comes_back_witness :
  let cs := [(1000, 500); (-700, 300)] in
  let dropped := (run_ball 4 (LButtonDown (1860, 980) :: (MouseMove <$> cs) ++ [LButtonUp]) sample_ball).1 in
  let c := ChangePosition ((window dropped).1 + shadow_margin sample_ball) ((window dropped).2 + shadow_margin sample_ball) in
  let d1 := (run_change 4 0x0804 c empty_profile).2 in
  window dropped = (-726, 274) ∧
  ∃ saved d3, floating_position (restarted d1) = (Ok saved, d3) ∧
    window (create_ball 96 saved (1920, 1040)) = window dropped.
Proof.
  intros cs dropped c d1. split; [vm_compute; reflexivity |].
  apply (dropped_ball_comes_back 4 0x0804 4 sample_ball (1860, 980) cs empty_profile tt d1 (restarted d1) 96 (1920, 1040)).
  - unfold on_screen; cbn; lia.
  - vm_compute. intuition discriminate.
  - repeat constructor; cbn; lia.
  - reflexivity.
  - reflexivity.
  - lia.
  - reflexivity.
  - intros name f _ Hf. unfold empty_profile in Hf. cbn in Hf. by rewrite lookup_empty in Hf.
  - vm_compute. reflexivity.
  - apply reboot_restarted. vm_compute. reflexivity.
  - by eexists.
  - intros root [= <-]. apply Forall_forall. intros q Hq. vm_compute in Hq.
    repeat (apply elem_of_cons in Hq as [-> | Hq]; [vm_compute; reflexivity |]). by apply not_elem_of_nil in Hq.
Defined.
