(* ===== verification/Layout.v ===== *)
(** * The layout of the main window

    [flowtype-app/src/ui_layout.rs]: where the parts of the five pages are, for a
    width of the client area. A coordinate is a 32-bit floating point number; it is
    modelled exactly, as a whole number of units of 2^-23. The constants are whole,
    a width of at least 1 is a multiple of the unit, and what is computed from
    them is never finer than the width and not larger, so that sums and
    differences are not rounded. (A width below 42 gives a negative difference that
    may be rounded; it is only compared with 664.) *)

From S2P Require Import Prelude.
Local Open Scope list_scope.
Local Open Scope Z_scope.

Definition UNIT : Z := 2 ^ 23.
Notation dip n := (n * UNIT).

(** [n as f32 / d as f32] where the quotient is at least 1: the mantissa has 24 bits, ties
    go to the even one. *)
Definition round_half_even (n d : Z) : Z :=
  let q := n / d in
  match 2 * (n mod d) ?= d with Lt => q | Gt => q + 1 | Eq => if Z.even q then q else q + 1 end.
Definition f32_quotient (n d : Z) : Z :=
  let bits := 23 - Z.log2 (n / d) in
  round_half_even (n * 2 ^ bits) d * 2 ^ (23 - bits).

(** [value as i32]. *)
Definition as_i32 (v : Z) : Z := Z.quot v UNIT.

(** [app/ui_layout.rs:3-5 MIN_CLIENT_WIDTH] *)
Definition MIN_CLIENT_WIDTH : Z := 780.
Definition MIN_CLIENT_HEIGHT : Z := 600.

(** [app/ui_layout.rs Rect] *)
Record Rect := mkRect { left : Z; top : Z; right : Z; bottom : Z }.

(** [app/ui_layout.rs Rect::from_xywh] *)
Definition from_xywh (x y width height : Z) : Rect := mkRect x y (x + width) (y + height).

(** [app/ui_layout.rs Rect::width] *)
Definition rect_width (self : Rect) : Z := right self - left self.

(** A rectangle of whole numbers. *)
Definition dips (x y width height : Z) : Rect := from_xywh (dip x) (dip y) (dip width) (dip height).

(** [app/ui.rs FileTab] *)
Inductive FileTab := TabSend | TabReceived.
#[export] Instance FileTab_eq_dec : EqDecision FileTab.
Proof. solve_decision. Defined.

(** [f32::clamp] *)
Definition clamp (v low high : Z) : Z := Z.min (Z.max v low) high.

(** [app/ui_layout.rs:30-36 ShellLayout] *)
Record ShellLayout := mkShellLayout {
  content_left : Z; content_right : Z; title : Rect; language_action : Rect;
}.

(** [app/ui_layout.rs ShellLayout::new] *)
Definition ShellLayout_new (client_width : Z) : ShellLayout :=
  let content_left := dip 244 in
  let content_right := Z.max (client_width - dip 42) (content_left + dip 420) in
  mkShellLayout content_left content_right
    (from_xywh content_left (dip 75) (dip 300) (dip 36)) (dips 155 540 34 34).

(** [app/ui_layout.rs ShellLayout::action_before_language] *)
Definition action_before_language (self : ShellLayout) (width : Z) : Rect :=
  from_xywh (content_right self - width) (top (title self)) width
    (bottom (language_action self) - top (language_action self)).

(** [app/ui_layout.rs StatusLayout] *)
Record StatusLayout := mkStatusLayout {
  st_shell : ShellLayout; st_status_icon : Rect; st_summary : Rect; st_separators : list Z; st_pair_action : Rect;
}.

(** [app/ui_layout.rs StatusLayout::new] *)
Definition StatusLayout_new (client_width : Z) : StatusLayout :=
  let shell := ShellLayout_new client_width in
  mkStatusLayout shell
    (from_xywh (content_left shell + dip 22) (dip 157) (dip 53) (dip 53))
    (from_xywh (content_left shell + dip 93) (dip 154)
       (Z.min (content_right shell - content_left shell - dip 115) (dip 440)) (dip 35))
    [dip 255; dip 310; dip 365; dip 420]
    (from_xywh (content_left shell) (dip 493) (dip 136) (dip 35)).

(** [app/ui_layout.rs FilesLayout] *)
Record FilesLayout := mkFilesLayout {
  fl_destination : Rect; fl_status : Rect; fl_failures : Rect; fl_drop_hint : Rect; fl_security_note : Rect;
  fl_receive_root : Rect; fl_receive_action : Rect; fl_cancel_action : Rect;
}.

(** [app/ui_layout.rs FilesLayout::new] *)
Definition FilesLayout_new (client_width : Z) (tab : FileTab) : FilesLayout :=
  let right := content_right (ShellLayout_new client_width) in
  let text_width := right - dip 244 - dip 16 in
  let received := bool_decide (tab = TabReceived) in
  mkFilesLayout
    (from_xywh (dip 320) (dip 199) (text_width - dip 76) (dip 26))
    (from_xywh (dip 260) (if received then dip 355 else dip 434) (text_width - dip 16) (dip 32))
    (from_xywh (dip 260) (if received then dip 393 else dip 470) (text_width - dip 16) (dip 42))
    (from_xywh (dip 370) (dip 305) (text_width - dip 150) (dip 30))
    (from_xywh (dip 260) (if received then dip 492 else dip 522) (text_width - dip 16) (dip 28))
    (from_xywh (dip 350) (dip 269) (right - dip 482) (dip 28))
    (from_xywh (right - dip 120) (dip 263) (dip 108) (dip 34))
    (if received then dips 260 444 120 34 else dips 370 354 120 34).

(** [app/ui_layout.rs SettingsLayout] *)
Record SettingsLayout := mkSettingsLayout {
  se_shell : ShellLayout; se_save_action : Rect; se_name_edit : Rect; se_name_frame : Rect;
  se_service_status_dot : Rect; se_repair_action : Rect; se_separators : list Z; se_update_repository : Rect;
  se_update_history : Rect; se_update_action : Rect; se_update_status : Rect; se_update_progress : Rect;
}.

(** [app/ui_layout.rs SettingsLayout::new] *)
Definition SettingsLayout_new (client_width : Z) : SettingsLayout :=
  let shell := ShellLayout_new client_width in
  let save_action := from_xywh (content_right shell - dip 85) (dip 157) (dip 85) (dip 35) in
  let update_action := from_xywh (content_right shell - dip 108) (dip 506) (dip 108) (dip 35) in
  let update_history := from_xywh (left update_action - dip 8 - dip 112) (dip 507) (dip 112) (dip 34) in
  let update_repository := from_xywh (left update_history - dip 8 - dip 100) (dip 507) (dip 100) (dip 34) in
  let name_edit := from_xywh (dip 385) (dip 160) (clamp (content_right shell - dip 385 - dip 100) (dip 180) (dip 235)) (dip 30) in
  mkSettingsLayout shell save_action name_edit
    (from_xywh (left name_edit - dip 8) (top name_edit - dip 3) (rect_width name_edit + dip 16) (dip 36))
    (dips 385 369 8 8)
    (from_xywh (content_right shell - dip 118) (dip 355) (dip 118) (dip 35))
    [dip 310; dip 420]
    update_repository update_history update_action
    (from_xywh (dip 385) (dip 544) (content_right shell - dip 385) (dip 24))
    (from_xywh (dip 385) (dip 571) (content_right shell - dip 385) (dip 6)).

(** [app/ui_layout.rs PairingLayout] *)
Record PairingLayout := mkPairingLayout {
  pl_shell : ShellLayout; pl_back_action : Rect; pl_title : Rect; pl_qr_origin : Z * Z; pl_info_left : Z;
  pl_open_instruction : Rect; pl_scan_instruction : Rect; pl_computer : Rect; pl_waiting : Rect; pl_note : Rect;
  pl_waiting_dot : Rect;
}.

(** [app/ui_layout.rs PairingLayout::new] *)
Definition PairingLayout_new (client_width : Z) : PairingLayout :=
  let shell := ShellLayout_new client_width in
  let info_left := content_left shell + dip 288 in
  let info_width := Z.max (content_right shell - info_left - dip 30) (dip 160) in
  let row top height := from_xywh (info_left + dip 40) (dip top) (info_width - dip 40) (dip height) in
  mkPairingLayout shell
    (from_xywh (content_right shell - dip 110) (dip 78) (dip 110) (dip 32))
    (title shell) (content_left shell + dip 58, dip 225) info_left
    (row 231 36) (row 316 36) (row 265 28) (row 351 26)
    (from_xywh (content_left shell) (dip 484) (dip 480) (dip 36))
    (from_xywh (info_left + dip 40) (dip 363) (dip 7) (dip 7)).

(** [app/ui_layout.rs PhoneRowLayout] *)
Record PhoneRowLayout := mkPhoneRowLayout {
  pr_bounds : Rect; pr_icon : Rect; pr_name : Rect; pr_status : Rect; pr_status_dot : Rect; pr_action : Rect;
}.

(** [app/ui_layout.rs PhonesLayout] *)
Record PhonesLayout := mkPhonesLayout {
  ph_title : Rect; ph_pair_action : Rect; ph_language_action : Rect; ph_empty_message : Rect; ph_rows : list PhoneRowLayout;
}.

(** [app/ui_layout.rs:249-276 PhonesLayout::new] *)
Definition phone_row (content_right : Z) (index : nat) : PhoneRowLayout :=
  let top := dip 169 + Z.of_nat index * dip 94 in
  let action := from_xywh (content_right - dip 100) (top + dip 29) (dip 100) (dip 35) in
  mkPhoneRowLayout (mkRect (dip 244) top content_right (top + dip 94))
    (from_xywh (dip 244 + dip 10) (top + dip 25) (dip 43) (dip 43))
    (from_xywh (dip 244 + dip 70) (top + dip 20) (Z.max (left action - dip 244 - dip 90) (dip 120)) (dip 28))
    (from_xywh (dip 244 + dip 84) (top + dip 51) (Z.max (left action - dip 244 - dip 100) (dip 100)) (dip 24))
    (from_xywh (dip 244 + dip 70) (top + dip 58) (dip 7) (dip 7))
    action.

(** [app/ui_layout.rs PhonesLayout::new] *)
Definition PhonesLayout_new (client_width : Z) (row_count : nat) : PhonesLayout :=
  let shell := ShellLayout_new client_width in
  mkPhonesLayout (title shell) (action_before_language shell (dip 132)) (language_action shell)
    (from_xywh (dip 244 + dip 20) (dip 202) (dip 420) (dip 30))
    (phone_row (content_right shell) <$> seq 0 row_count).

(** A window of 1366 pixels at 175 %, as the processor divides. *)
Example quotient_is_exact_at_96_dpi : f32_quotient (780 * 96) 96 = dip 780.
Proof. reflexivity. Qed.
Example quotient_at_175_percent : f32_quotient (1366 * 96) 168 = 6547907584.
Proof. reflexivity. Qed.
