(* ===== verification/Pages.v ===== *)
(** * The pages of the main window

    [flowtype-app/src/ui_pages.rs] and [ui_state.rs]: the controls of each page, with
    their texts and their places in pixels, what an update of the state changes of
    them, and where a resize puts them. A control is created successfully; its handle is
    the field of the window's context that holds it, its [slot]. Pixels and DIPs
    stay far below the bounds of [i32]. *)

From S2P Require Import Prelude Text Protocol FileCore Outbound Pairing Update AppState Addresses Layout.
Local Open Scope string_scope.
Local Open Scope list_scope.
Local Open Scope Z_scope.

(** ** Controls *)

(** [app/ui.rs Page] *)
Inductive Page := PageStatus | PageFiles | PagePhones | PageSettings | PagePairing.
#[export] Instance Page_eq_dec : EqDecision Page.
Proof. solve_decision. Defined.

(** [app/ui.rs ButtonKind] *)
Inductive ButtonKind :=
| Navigation (page : Page) | Secondary | Back | Checkbox | LanguageKind | WindowMinimize | WindowClose
| FileTabKind (tab : FileTab).

Inductive ControlClass := Static | Edit | Button | Progress.
Inductive Font := TitleFont | HeadingFont | NavigationFont | BodyFont.

(** The fields of the context that hold controls of a page. *)
Inductive Slot :=
| SNameEdit | SStatusSummary | SStatusPhone | SStatusInput | SStatusTarget | SStatusAddress | SStatusError
| SPhoneStatus (index : nat) | SPhoneName (index : nat)
| SFileDestination | SFileStatus | SFileFailures | SFileDropHint | SFileSecurityNote | SFileReceiveRoot
| SFileChoose | SFileFolder | SFileCancel
| SPairOpen | SPairScan | SPairComputer | SPairWaiting | SPairNote
| SServiceStatus | SAutoStart | SShowFloating
| SUpdateStatus | SUpdateProgress | SUpdateAction | SUpdateRepository | SUpdateHistory.
#[export] Instance Slot_eq_dec : EqDecision Slot.
Proof. solve_decision. Defined.

(** A place in pixels. *)
Record Bounds := mkBounds { b_x : Z; b_y : Z; b_width : Z; b_height : Z }.

Record Control := mkControl {
  ct_class : ControlClass; ct_text : string; ct_visible : bool; ct_id : Z; ct_bounds : Bounds; ct_font : Font;
  ct_kind : option ButtonKind; ct_muted : bool; ct_slot : option Slot; ct_position : option Z;
}.

Definition set_text (value : string) (c : Control) : Control :=
  mkControl (ct_class c) value (ct_visible c) (ct_id c) (ct_bounds c) (ct_font c) (ct_kind c) (ct_muted c) (ct_slot c) (ct_position c).
Definition set_visible (visible : bool) (c : Control) : Control :=
  mkControl (ct_class c) (ct_text c) visible (ct_id c) (ct_bounds c) (ct_font c) (ct_kind c) (ct_muted c) (ct_slot c) (ct_position c).
Definition set_bounds (b : Bounds) (c : Control) : Control :=
  mkControl (ct_class c) (ct_text c) (ct_visible c) (ct_id c) b (ct_font c) (ct_kind c) (ct_muted c) (ct_slot c) (ct_position c).
Definition set_position (p : Z) (c : Control) : Control :=
  mkControl (ct_class c) (ct_text c) (ct_visible c) (ct_id c) (ct_bounds c) (ct_font c) (ct_kind c) (ct_muted c) (ct_slot c) (Some p).

(** What is done to the control of a field, if the page has one. *)
Definition at_slot (slot : Slot) (f : Control → Control) (controls : list Control) : list Control :=
  (λ c, if bool_decide (ct_slot c = Some slot) then f c else c) <$> controls.

(** [app/ui.rs set_control_text] *)
Definition set_control_text (slot : Slot) (value : string) : list Control → list Control := at_slot slot (set_text value).

(** [app/ui.rs set_control_visible] *)
Definition set_control_visible (slot : Slot) (visible : bool) : list Control → list Control :=
  at_slot slot (set_visible visible).

(** [app/ui_commands.rs:3-30 ID_NAV_STATUS] *)
Definition ID_NAV_STATUS : Z := 100.
Definition ID_NAV_PHONES : Z := 101.
Definition ID_NAV_SETTINGS : Z := 102.
Definition ID_NAV_FILES : Z := 103.
Definition ID_PAIR : Z := 110.
Definition ID_SAVE_SETTINGS : Z := 120.
Definition ID_REPAIR : Z := 121.
Definition ID_NAME : Z := 122.
Definition ID_AUTO_START : Z := 123.
Definition ID_SHOW_FLOATING : Z := 124.
Definition ID_UPDATE_ACTION : Z := 125.
Definition ID_UPDATE_REPOSITORY : Z := 126.
Definition ID_UPDATE_HISTORY : Z := 127.
Definition ID_LANGUAGE_MENU : Z := 128.
Definition ID_CHOOSE_FILES : Z := 129.
Definition ID_CHOOSE_FOLDER : Z := 130.
Definition ID_CANCEL_FILE_TRANSFER : Z := 131.
Definition ID_CHANGE_RECEIVE_FOLDER : Z := 132.
Definition ID_WINDOW_MINIMIZE : Z := 133.
Definition ID_WINDOW_CLOSE : Z := 134.
Definition ID_FILE_SEND_TAB : Z := 135.
Definition ID_FILE_RECEIVED_TAB : Z := 136.
Definition ID_PAIR_BACK : Z := 137.
Definition ID_UNPAIR_BASE : Z := 3000.
Definition ID_TRAY_OPEN : Z := 4001.
Definition ID_TRAY_PAIR : Z := 4002.
Definition ID_TRAY_EXIT : Z := 4003.
Definition ID_TRAY_UPDATE : Z := 4004.

(** [app/main.rs UiSnapshot] *)
Record UiSnapshot := mkUiSnapshot {
  ui_pc_name : string;
  ui_phones : list (string * PairedPhone);
  ui_status : RuntimeStatus;
  ui_injector_ready : bool;
  ui_update : UpdateSnapshot;
  ui_file_transfer : option FileTransferSnapshot;
}.

(** ** Texts *)

(** [Option::filter]. *)
Definition option_filter {A} (f : A → bool) (o : option A) : option A :=
  match o with Some a => if f a then Some a else None | None => None end.

(** [bytes as f64]: 53 bits of mantissa. *)
Definition f64_of_u64 (n : Z) : Z :=
  let extra := Z.log2 n - 52 in
  if extra <=? 0 then n else round_half_even n (2 ^ extra) * 2 ^ extra.

Section texts.
Context (english : bool).
Notation tr := (AppState.tr english).

(** [app/ui_pages.rs format_file_size] Divisions by 1024 are exact; [{value:.1}] rounds
    the exact value to the nearest tenth. *)
Definition format_file_size (bytes : Z) : string :=
  let value := f64_of_u64 bytes in
  let unit :=
    if value <? 1024 then 0 else if value <? 1024 ^ 2 then 1 else if value <? 1024 ^ 3 then 2
    else if value <? 1024 ^ 4 then 3 else 4 in
  let name := nth (Z.to_nat unit) ["B"; "KB"; "MB"; "GB"; "TB"] "" in
  if unit =? 0 then of_bytes (decimal bytes) +:+ " " +:+ name
  else
    let tenths := round_half_even (value * 10) (1024 ^ unit) in
    of_bytes (decimal (tenths / 10)) +:+ "." +:+ of_bytes (decimal (tenths mod 10)) +:+ " " +:+ name.

(** [app/ui_pages.rs:1041-1060 file_transfer_status] *)
Definition transfer_action (direction : TransferDirection) (state : BatchState) : string :=
  match direction, state with
  | ComputerToPhone, WaitingConfirmation => tr "等待手机确认接收" "Waiting for phone approval"
  | ComputerToPhone, Completed => tr "已发送到手机" "Sent to phone"
  | PhoneToComputer, Completed => tr "已保存到“下载\FlowType”" "Saved to Downloads\FlowType"
  | _, PartialFailure => tr "部分文件传输失败" "Some files failed"
  | _, Canceled => tr "传输已取消" "Transfer canceled"
  | PhoneToComputer, _ => tr "正在接收手机文件，可断点继续" "Receiving from phone; resumable"
  | ComputerToPhone, _ => tr "正在发送到手机，可断点继续" "Sending to phone; resumable"
  end.

(** [app/ui_pages.rs file_transfer_status] *)
Definition file_transfer_status (transfer : FileTransferSnapshot) : string :=
  let number n := of_bytes (decimal n) in
  transfer_action (fs_direction transfer) (fs_state transfer) +:+ " · "
  +:+ format_file_size (fs_completed_bytes transfer) +:+ " / " +:+ format_file_size (fs_total_bytes transfer) +:+ " · "
  +:+ number (fs_completed_entries transfer) +:+ " / " +:+ number (fs_total_entries transfer)
  +:+ (if 0 <? fs_failed_entries transfer
       then if english then " · " +:+ number (fs_failed_entries transfer) +:+ " failed"
            else " · " +:+ number (fs_failed_entries transfer) +:+ " 个失败"
       else "").

(** [app/ui_pages.rs file_failed_summary] *)
Definition file_failed_summary (transfer : option FileTransferSnapshot) : string :=
  match fs_failed_paths <$> transfer with
  | None | Some [] => ""
  | Some paths =>
    let names := String.concat " · " (take 2 paths) in
    tr "失败文件" "Failed files" +:+ "：" +:+ names
    +:+ (if (2 <? length paths)%nat then " (+" +:+ of_bytes (decimal (zlength paths - 2)) +:+ ")" else "")
  end.

(** [app/ui_state.rs FileTabContent] *)
Record FileTabContent := mkFileTabContent {
  tc_status : string; tc_failures : string; tc_can_choose : bool; tc_cancel_batch : option string;
}.

(** [app/ui_state.rs FileTabContent::new] *)
Definition FileTabContent_new (tab : FileTab) (transfer : option FileTransferSnapshot) : FileTabContent :=
  let direction := match tab with TabSend => ComputerToPhone | TabReceived => PhoneToComputer end in
  let visible := option_filter (λ value, bool_decide (fs_direction value = direction)) transfer in
  let busy := match transfer with Some value => snapshot_active value | None => false end in
  mkFileTabContent
    (match visible with
     | Some value => file_transfer_status value
     | None =>
       match tab, busy with
       | TabSend, true => tr "正在接收手机文件，请在「收到的文件」查看或取消" "Receiving files. View or cancel in Received files."
       | TabReceived, true => tr "正在发送文件，请在「发送到手机」查看或取消" "Sending files. View or cancel in Send to phone."
       | TabSend, false => tr "选择文件后，手机只需确认一次" "The phone confirms once per transfer"
       | TabReceived, false => tr "等待手机发送文件" "Waiting for files from your phone"
       end
     end)
    (file_failed_summary visible)
    (bool_decide (tab = TabSend) && negb busy)
    (fs_batch_id <$> option_filter snapshot_active visible).

(** [app/ui_actions.rs:376-392 UiContext::update_from_state] The text of a row. *)
Definition phone_status (status : RuntimeStatus) (phone : PairedPhone) : string :=
  if bool_decide (connected_phone status = Some (phone_name phone)) then tr "已连接" "Connected"
  else match last_connected phone with
       | Some _ => tr "未连接" "Offline" +:+ " · " +:+ tr "最近连接过" "Connected previously"
       | None => tr "未连接" "Offline" +:+ " · " +:+ tr "尚未连接过" "Never connected"
       end.
End texts.

Example size_b : format_file_size 1023 = "1023 B".
Proof. reflexivity. Qed.
Example size_kb : format_file_size 1280 = "1.2 KB".
Proof. reflexivity. Qed.
Example size_mb : format_file_size 209715200 = "200.0 MB".
Proof. reflexivity. Qed.

(** ** The window's size *)

Section pages.
Context (english : bool) (dpi client_width client_height : Z).
Notation tr := (AppState.tr english).

(** [app/ui.rs UiContext::scale] *)
Definition scale (value : Z) : Z := Z.quot (value * Z.max dpi 96) 96.

(** [app/ui_pages.rs UiContext::logical_client_width] The width is far below 2^17, so that
    the product is exact. *)
Definition logical_client_width : Z := f32_quotient (Z.max client_width 1 * 96) (Z.max dpi 96).
(** The same for the height. *)
Definition logical_client_height : Z := f32_quotient (Z.max client_height 1 * 96) (Z.max dpi 96).

Definition scaled (x y width height : Z) : Bounds := mkBounds (scale x) (scale y) (scale width) (scale height).

(** [app/ui_pages.rs UiContext::control] *)
Definition control (class : ControlClass) (text : string) (visible : bool) (id x y width height : Z) (font : Font) : Control :=
  mkControl class text visible id (scaled x y width height) font None false None None.

(** [app/ui_pages.rs UiContext::text] *)
Definition text (value : string) (x y width height : Z) (font : Font) : Control :=
  control Static value true 0 x y width height font.

(** [app/ui_pages.rs UiContext::muted_text] *)
Definition muted_text (value : string) (x y width height : Z) (font : Font) : Control :=
  let c := text value x y width height font in
  mkControl (ct_class c) (ct_text c) (ct_visible c) (ct_id c) (ct_bounds c) (ct_font c) (ct_kind c) true (ct_slot c) (ct_position c).

(** [app/ui_pages.rs UiContext::owner_button] *)
Definition owner_button (value : string) (id x y width height : Z) (kind : ButtonKind) : Control :=
  let c := control Button value true id x y width height BodyFont in
  mkControl (ct_class c) (ct_text c) (ct_visible c) (ct_id c) (ct_bounds c) (ct_font c) (Some kind) (ct_muted c) (ct_slot c) (ct_position c).

(** [self.slot = control]. *)
Definition kept (slot : Slot) (c : Control) : Control :=
  mkControl (ct_class c) (ct_text c) (ct_visible c) (ct_id c) (ct_bounds c) (ct_font c) (ct_kind c) (ct_muted c) (Some slot) (ct_position c).

(** A control in a rectangle of a layout: [r.left as i32, r.top as i32, ...]. *)
Definition within {A} (make : Z → Z → Z → Z → A) (r : Rect) : A :=
  make (as_i32 (left r)) (as_i32 (top r)) (as_i32 (rect_width r)) (as_i32 (bottom r - top r)).

(** [app/ui_pages.rs UiContext::label_value] *)
Definition label_value (label value : string) (slot : Slot) (y : Z) : list Control :=
  let shell := ShellLayout_new logical_client_width in
  [muted_text label (as_i32 (content_left shell)) y 120 28 BodyFont;
   kept slot (text value (as_i32 (content_left shell + dip 150)) y
     (as_i32 (content_right shell - content_left shell - dip 150)) 28 BodyFont)].

(** ** The parts around the page *)

(** [app/ui.rs create_navigation] *)
Definition create_navigation : list Control :=
  [owner_button (tr "状态" "Status") ID_NAV_STATUS 0 120 202 42 (Navigation PageStatus);
   owner_button (tr "文件传输" "File transfer") ID_NAV_FILES 0 166 202 42 (Navigation PageFiles);
   owner_button (tr "已绑定手机" "Paired phones") ID_NAV_PHONES 0 212 202 42 (Navigation PagePhones);
   owner_button (tr "设置" "Settings") ID_NAV_SETTINGS 0 258 202 42 (Navigation PageSettings)].

(** [app/ui_actions.rs:125-135 UiContext::create_language_button] *)
Definition create_language_button : Control :=
  within (λ x y w h, owner_button "语言 / Language" ID_LANGUAGE_MENU x y w h LanguageKind)
    (language_action (ShellLayout_new logical_client_width)).

(** [app/ui_pages.rs UiContext::create_shell] *)
Definition create_shell : list Control :=
  let edge := Z.quot (Z.max client_width 1 * 96) (Z.max dpi 96) in
  create_navigation ++
  [create_language_button;
   owner_button (tr "最小化" "Minimize") ID_WINDOW_MINIMIZE (edge - 94) 0 46 52 WindowMinimize;
   owner_button (tr "关闭" "Close") ID_WINDOW_CLOSE (edge - 48) 0 48 52 WindowClose].

(** [app/ui_pages.rs UiContext::refresh_shell] *)
Definition refresh_shell (shell : list Control) : list Control :=
  (λ c,
    let at_top top font label :=
      set_bounds (mkBounds 0 (scale top) (scale 202) (scale 42))
        (mkControl (ct_class c) label (ct_visible c) (ct_id c) (ct_bounds c) font (ct_kind c) (ct_muted c) (ct_slot c) (ct_position c)) in
    if ct_id c =? ID_NAV_STATUS then at_top 120 NavigationFont (tr "状态" "Status")
    else if ct_id c =? ID_NAV_FILES then at_top 166 NavigationFont (tr "文件传输" "File transfer")
    else if ct_id c =? ID_NAV_PHONES then at_top 212 NavigationFont (tr "已绑定手机" "Paired phones")
    else if ct_id c =? ID_NAV_SETTINGS then at_top 258 NavigationFont (tr "设置" "Settings")
    else if ct_id c =? ID_LANGUAGE_MENU
    then mkControl (ct_class c) (ct_text c) (ct_visible c) (ct_id c) (ct_bounds c) BodyFont (ct_kind c) (ct_muted c) (ct_slot c) (ct_position c)
    else c) <$> shell.

(** ** The pages *)

(** [app/ui_actions.rs UiContext::update_file_controls] With the batch that the cancel
    button is for. *)
Definition update_file_controls (tab : FileTab) (transfer : option FileTransferSnapshot) (controls : list Control)
    : list Control * option string :=
  let content := FileTabContent_new english tab transfer in
  (set_control_visible SFileCancel (bool_decide (is_Some (tc_cancel_batch content)))
     (set_control_visible SFileFolder (tc_can_choose content)
        (set_control_visible SFileChoose (tc_can_choose content)
           (set_control_text SFileFailures (tc_failures content)
              (set_control_text SFileStatus (tc_status content) controls)))), tc_cancel_batch content).

(** [app/ui_pages.rs UiContext::build_file_status] *)
Definition build_file_status (layout : FilesLayout) : list Control :=
  [kept SFileStatus (within (λ x y w h, muted_text "" x y w h BodyFont) (fl_status layout));
   kept SFileFailures (within (λ x y w h, muted_text "" x y w h BodyFont) (fl_failures layout));
   kept SFileCancel (within (λ x y w h, owner_button (tr "取消传输" "Cancel transfer") ID_CANCEL_FILE_TRANSFER x y w h Secondary)
     (fl_cancel_action layout));
   kept SFileSecurityNote (muted_text
     (tr "传输经过设备绑定密钥保护，支持断点继续。" "Transfers are protected by the paired device identity and can resume.")
     (as_i32 (left (fl_security_note layout))) (as_i32 (top (fl_security_note layout)))
     (as_i32 (rect_width (fl_security_note layout))) 28 BodyFont)].

(** [app/ui_pages.rs UiContext::build_files] *)
Definition build_files (snapshot : UiSnapshot) (tab : FileTab) (receive_root : option string)
    : list Control * option string :=
  let layout := FilesLayout_new logical_client_width tab in
  let head :=
    [text (tr "文件传输" "File transfer") 244 75 300 34 TitleFont;
     muted_text (tr "与已绑定手机互传文件和文件夹，断线后自动续传。"
                    "Transfer files and folders with paired phones; resume after interruption.") 244 117 560 26 BodyFont;
     owner_button (tr "发送到手机" "Send to phone") ID_FILE_SEND_TAB 244 154 110 36 (FileTabKind TabSend);
     owner_button (tr "收到的文件" "Received files") ID_FILE_RECEIVED_TAB 378 154 110 36 (FileTabKind TabReceived)] in
  let body :=
    match tab with
    | TabReceived =>
      [text (tr "手机发来的文件会自动保存" "Files sent by your phone are saved automatically") 320 226 390 30 HeadingFont;
       text (tr "保存位置" "Save location") 265 269 90 27 BodyFont;
       kept SFileReceiveRoot (muted_text (default (tr "接收位置不可用" "Receive folder unavailable") receive_root)
         (as_i32 (left (fl_receive_root layout))) (as_i32 (top (fl_receive_root layout)))
         (as_i32 (rect_width (fl_receive_root layout))) 28 BodyFont);
       owner_button (tr "更改位置" "Change") ID_CHANGE_RECEIVE_FOLDER (as_i32 (left (fl_receive_action layout)))
         (as_i32 (top (fl_receive_action layout))) 108 34 Secondary]
    | TabSend =>
      [text (tr "发送到" "Send to") 244 199 80 26 BodyFont;
       kept SFileDestination (muted_text
         (default (tr "手机未连接" "Phone is not connected") (connected_phone (ui_status snapshot)))
         (as_i32 (left (fl_destination layout))) (as_i32 (top (fl_destination layout)))
         (as_i32 (rect_width (fl_destination layout))) 26 BodyFont);
       kept SFileChoose (owner_button (tr "选择文件" "Choose files") ID_CHOOSE_FILES 370 354 120 34 Secondary);
       kept SFileFolder (owner_button (tr "选择文件夹" "Choose folder") ID_CHOOSE_FOLDER 499 354 126 34 Secondary);
       kept SFileDropHint (text (tr "也可以把文件或文件夹拖到此窗口" "You can also drop files or folders here")
         (as_i32 (left (fl_drop_hint layout))) (as_i32 (top (fl_drop_hint layout)))
         (as_i32 (rect_width (fl_drop_hint layout))) 30 BodyFont)]
    end in
  update_file_controls tab (ui_file_transfer snapshot) (head ++ body ++ build_file_status layout).

(** [app/ui_pages.rs UiContext::build_status] *)
Definition build_status (host : string) (snapshot : UiSnapshot) : list Control :=
  let layout := StatusLayout_new logical_client_width in
  let status := ui_status snapshot in
  [kept SStatusSummary (within (λ x y w h, text (summary status) x y w h HeadingFont) (st_summary layout));
   text (tr "状态" "Status") 244 75 220 36 TitleFont;
   muted_text (tr "在手机上打开说写，文字会出现在电脑当前光标处。"
                  "Open FlowType on your phone to type at the current cursor.") 337 193 480 27 BodyFont]
  ++ label_value (tr "连接手机" "Connected phone") (default (tr "尚未连接" "Not connected") (connected_phone status)) SStatusPhone 269
  ++ label_value (tr "输入状态" "Input status") (summary status) SStatusInput 324
  ++ label_value (tr "当前目标" "Current target") (default (tr "尚未选择" "Not selected") (target_shown status)) SStatusTarget 379
  ++ label_value (tr "局域网地址" "Local address") (host +:+ ":" +:+ of_bytes (decimal PORT)) SStatusAddress 434
  ++ [kept SStatusError (muted_text (default "" (last_error status)) 244 465 470 42 BodyFont);
      within (λ x y w h, owner_button (tr "绑定手机" "Pair phone") ID_PAIR x y w h Secondary) (st_pair_action layout)].

(** [app/ui_pages.rs:588-634 UiContext::build_phones] A row of the list. *)
Definition build_phone_row (status : RuntimeStatus) (layout : PhonesLayout) (index : nat) (phone : PairedPhone) : list Control :=
  match ph_rows layout !! index with
  | None => []
  | Some row =>
    [kept (SPhoneName index) (within (λ x y w h, text (phone_name phone) x y w h HeadingFont) (pr_name row));
     kept (SPhoneStatus index) (within (λ x y w h, muted_text (phone_status english status phone) x y w h BodyFont) (pr_status row));
     within (λ x y w h, owner_button (tr "解除绑定" "Unpair") (ID_UNPAIR_BASE + Z.of_nat index) x y w h Secondary) (pr_action row)]
  end.

(** [app/ui_pages.rs UiContext::build_phones] With the ids of the rows. *)
Definition build_phones (snapshot : UiSnapshot) : list Control * list string :=
  let layout := PhonesLayout_new logical_client_width (length (ui_phones snapshot)) in
  ([within (λ x y w h, text (tr "已绑定手机" "Paired phones") x y w h TitleFont) (ph_title layout);
    within (λ x y w h, owner_button (tr "绑定手机" "Pair phone") ID_PAIR x y w h Secondary) (ph_pair_action layout);
    muted_text (tr "手机绑定一次即可使用，连接断开后会自动重连。" "Pair once; your phone reconnects automatically.")
      244 119 460 30 BodyFont]
   ++ (if bool_decide (ui_phones snapshot = [])
       then [within (λ x y w h, muted_text (tr "还没有绑定手机" "No phones paired") x y w h BodyFont) (ph_empty_message layout)]
       else [])
   ++ concat (imap (λ index entry, build_phone_row (ui_status snapshot) layout index entry.2) (ui_phones snapshot)),
   fst <$> ui_phones snapshot).

(** [app/ui_actions.rs UiContext::refresh_update_controls] The controls; [blocked]
    is whether an input is going on. *)
Definition refresh_update_controls (snapshot : UpdateSnapshot) (blocked : bool) (controls : list Control) : list Control :=
  let status := if bool_decide (us_action snapshot = UaInstall) && blocked
                then tr "输入结束后可安装" "Available after input ends" else us_message snapshot in
  let controls := set_control_visible SUpdateAction (negb (bool_decide (us_action snapshot = UaNone)))
    (set_control_text SUpdateAction (us_action_label snapshot) (set_control_text SUpdateStatus status controls)) in
  match us_progress snapshot with
  | Some (transferred, total) =>
    let position := if total =? 0 then 0 else Z.min (Z.min (transferred * 1000) (2 ^ 64 - 1) / total) 1000 in
    set_control_visible SUpdateProgress true (at_slot SUpdateProgress (set_position position) controls)
  | None => set_control_visible SUpdateProgress false controls
  end.

(** [app/ui_pages.rs UiContext::build_settings] *)
Definition build_settings (snapshot : UiSnapshot) (blocked : bool) : list Control :=
  let layout := SettingsLayout_new logical_client_width in
  let wide := as_i32 (content_right (se_shell layout) - dip 385) in
  refresh_update_controls (ui_update snapshot) blocked
  [within (λ x y w h, text (tr "设置" "Settings") x y w h TitleFont) (title (se_shell layout));
   text (tr "常规" "General") 244 125 120 26 HeadingFont;
   text (tr "电脑名称" "Computer name") 244 164 125 28 BodyFont;
   kept SNameEdit (within (λ x y w h, control Edit (ui_pc_name snapshot) true ID_NAME x y w h BodyFont) (se_name_edit layout));
   kept SAutoStart (owner_button (tr "登录 Windows 后自动启动说写" "Start when you sign in to Windows")
     ID_AUTO_START 385 203 wide 34 Checkbox);
   text (tr "开机启动" "Startup") 244 206 125 28 BodyFont;
   kept SShowFloating (owner_button (tr "显示悬浮球" "Show floating ball") ID_SHOW_FLOATING 385 250 wide 34 Checkbox);
   text (tr "悬浮球" "Floating ball") 244 253 125 28 BodyFont;
   within (λ x y w h, owner_button (tr "保存设置" "Save settings") ID_SAVE_SETTINGS x y w h Secondary) (se_save_action layout);
   text (tr "输入服务" "Input service") 244 326 140 26 HeadingFont;
   kept SServiceStatus (text (if ui_injector_ready snapshot then tr "正常运行" "Running" else tr "输入服务不可用" "Input unavailable")
     403 360 180 28 BodyFont);
   text (tr "运行状态" "Status") 244 360 125 28 BodyFont;
   within (λ x y w h, owner_button (tr "修复输入服务" "Repair input") ID_REPAIR x y w h Secondary) (se_repair_action layout);
   text (tr "版本与更新" "Version & updates") 244 435 180 26 HeadingFont;
   text (tr "当前版本" "Current version" +:+ " " +:+ CARGO_PKG_VERSION +:+ " · Windows x64") 244 470 350 24 BodyFont;
   kept SUpdateStatus (within (λ x y w h, muted_text "" x y w h BodyFont) (se_update_status layout));
   kept SUpdateProgress (within (λ x y w h, control Progress "" false 0 x y w h BodyFont) (se_update_progress layout));
   kept SUpdateRepository (within (λ x y w h, owner_button (tr "GitHub 仓库" "GitHub") ID_UPDATE_REPOSITORY x y w h Secondary)
     (se_update_repository layout));
   kept SUpdateHistory (within (λ x y w h, owner_button (tr "查看更新" "Release history") ID_UPDATE_HISTORY x y w h Secondary)
     (se_update_history layout));
   kept SUpdateAction (within (λ x y w h, owner_button (tr "检查更新" "Check now") ID_UPDATE_ACTION x y w h Secondary)
     (se_update_action layout));
   text (tr "软件更新" "Updates") 244 510 125 28 BodyFont].

(** What [QrCode::new] makes of the uri: the width and the modules. *)
Notation qr_code := (Z * list bool)%type.
Inductive PairingStart := PairingFailed | QrFailed | QrShown (code : qr_code).

(** [app/ui_pages.rs UiContext::build_pairing] *)
Definition build_pairing (pc_name : string) (start : PairingStart) : list Control * option qr_code :=
  let layout := PairingLayout_new logical_client_width in
  let qr_left := as_i32 (pl_qr_origin layout).1 in
  let head :=
    [within (λ x y w h, owner_button (tr "返回手机列表" "Back to phones") ID_PAIR_BACK x y w h Back) (pl_back_action layout);
     within (λ x y w h, text (tr "绑定手机" "Pair phone") x y w h TitleFont) (pl_title layout);
     muted_text (tr "在说写 Android 应用中，打开「添加电脑」扫描二维码。" "On your phone, open Add computer and scan this QR code.")
       244 116 620 28 BodyFont;
     kept SPairOpen (within (λ x y w h, text (tr "打开手机上的说写" "Open FlowType on your phone") x y w h HeadingFont)
       (pl_open_instruction layout));
     kept SPairScan (within (λ x y w h, text (tr "扫描左侧二维码" "Scan the QR code") x y w h HeadingFont) (pl_scan_instruction layout));
     kept SPairComputer (within (λ x y w h, text (tr "此电脑：" "Computer: " +:+ pc_name) x y w h BodyFont) (pl_computer layout));
     kept SPairWaiting (within (λ x y w h, text (tr "绑定后就能输入文字和传输文件" "Start typing and transferring after pairing")
       x y w h BodyFont) (pl_waiting layout));
     kept SPairNote (within (λ x y w h, muted_text (tr "绑定长期有效，可随时手动解除。" "Pairing lasts until you unpair manually.")
       x y w h BodyFont) (pl_note layout))] in
  match start with
  | QrShown code => (head, Some code)
  | QrFailed => (head ++ [text (tr "二维码生成失败" "Could not create QR code") qr_left 140 250 30 BodyFont], None)
  | PairingFailed =>
    (head ++ [text (tr "无法开始绑定，请重新打开此页面" "Could not start pairing. Reopen this page.") qr_left 140 430 30 BodyFont], None)
  end.

(** ** Resizing *)

(** [app/ui_pages.rs UiContext::position_control] *)
Definition position_control (r : Rect) : Control → Control :=
  set_bounds (within scaled r).

(** [app/ui_pages.rs:86-155 UiContext::reposition_responsive_controls] Where a button goes. *)
Definition button_bounds (page : Page) (tab : FileTab) (phone_count : nat) (id : Z) : option Rect :=
  let width := logical_client_width in
  let shell := ShellLayout_new width in
  let files := FilesLayout_new width tab in
  let settings := SettingsLayout_new width in
  let on p n := bool_decide (page = p) && (id =? n) in
  if id =? ID_LANGUAGE_MENU then Some (from_xywh (dip 154) (logical_client_height - dip 50) (dip 34) (dip 34))
  else if id =? ID_WINDOW_MINIMIZE then Some (from_xywh (width - dip 94) 0 (dip 46) (dip 52))
  else if id =? ID_WINDOW_CLOSE then Some (from_xywh (width - dip 48) 0 (dip 48) (dip 52))
  else if on PagePhones ID_PAIR then Some (ph_pair_action (PhonesLayout_new width phone_count))
  else if on PageStatus ID_PAIR then Some (st_pair_action (StatusLayout_new width))
  else if on PageSettings ID_SAVE_SETTINGS then Some (se_save_action settings)
  else if on PageSettings ID_AUTO_START then Some (from_xywh (dip 385) (dip 203) (content_right shell - dip 385) (dip 34))
  else if on PageSettings ID_SHOW_FLOATING then Some (from_xywh (dip 385) (dip 250) (content_right shell - dip 385) (dip 34))
  else if on PageSettings ID_REPAIR then Some (se_repair_action settings)
  else if on PageSettings ID_UPDATE_REPOSITORY then Some (se_update_repository settings)
  else if on PageSettings ID_UPDATE_HISTORY then Some (se_update_history settings)
  else if on PageSettings ID_UPDATE_ACTION then Some (se_update_action settings)
  else if on PageFiles ID_CHANGE_RECEIVE_FOLDER then Some (fl_receive_action files)
  else if on PageFiles ID_CANCEL_FILE_TRANSFER then Some (fl_cancel_action files)
  else if on PagePairing ID_PAIR_BACK then Some (pl_back_action (PairingLayout_new width))
  else if bool_decide (page = PagePhones) && (ID_UNPAIR_BASE <=? id) && (id <? ID_UNPAIR_BASE + Z.of_nat phone_count)
  then pr_action <$> ph_rows (PhonesLayout_new width phone_count) !! Z.to_nat (id - ID_UNPAIR_BASE)
  else None.

(** [app/ui_pages.rs:156-198 UiContext::reposition_responsive_controls] Where the control of
    a field goes. *)
Definition slot_bounds (page : Page) (tab : FileTab) (phone_count : nat) (slot : Slot) : option Rect :=
  let width := logical_client_width in
  let files := FilesLayout_new width tab in
  let settings := SettingsLayout_new width in
  let pairing := PairingLayout_new width in
  match page, slot with
  | PageSettings, SNameEdit => Some (se_name_edit settings)
  | PageSettings, SUpdateStatus => Some (se_update_status settings)
  | PageSettings, SUpdateProgress => Some (se_update_progress settings)
  | PageFiles, SFileDestination => Some (fl_destination files)
  | PageFiles, SFileStatus => Some (fl_status files)
  | PageFiles, SFileFailures => Some (fl_failures files)
  | PageFiles, SFileDropHint => Some (fl_drop_hint files)
  | PageFiles, SFileSecurityNote => Some (fl_security_note files)
  | PageFiles, SFileReceiveRoot => Some (fl_receive_root files)
  | PagePhones, SPhoneName index => pr_name <$> ph_rows (PhonesLayout_new width phone_count) !! index
  | PagePhones, SPhoneStatus index => pr_status <$> ph_rows (PhonesLayout_new width phone_count) !! index
  | PagePairing, SPairOpen => Some (pl_open_instruction pairing)
  | PagePairing, SPairScan => Some (pl_scan_instruction pairing)
  | PagePairing, SPairComputer => Some (pl_computer pairing)
  | PagePairing, SPairWaiting => Some (pl_waiting pairing)
  | PagePairing, SPairNote => Some (pl_note pairing)
  | _, _ => None
  end.

(** [app/ui_pages.rs UiContext::reposition_responsive_controls] *)
Definition reposition (page : Page) (tab : FileTab) (phone_count : nat) (c : Control) : Control :=
  let c := match ct_kind c ≫= λ _, button_bounds page tab phone_count (ct_id c) with
           | Some r => position_control r c
           | None => c
           end in
  match ct_slot c ≫= slot_bounds page tab phone_count with
  | Some r => position_control r c
  | None => c
  end.
End pages.
