(* ===== verification/PagesLayout.v ===== *)
(** * The pages fit the window

    In a window of at least the minimum size the buttons a page shows are apart from each
    other, at every scaling of the display, and inside of the window, if the rows of the
    phones are. *)

From S2P Require Import Prelude Text Protocol FileCore Outbound Pairing Update AppState Addresses Layout Pages.
Local Open Scope string_scope.
Local Open Scope list_scope.
Local Open Scope Z_scope.

(** ** Numbers *)

Lemma as_i32_dip n : as_i32 (dip n) = n.
Proof. apply Z.quot_mul. done. Qed.

Lemma as_i32_nonneg v : 0 ≤ v → 0 ≤ as_i32 v ∧ UNIT * as_i32 v ≤ v < UNIT * as_i32 v + UNIT.
Proof.
  intros Hv. unfold as_i32, UNIT. rewrite Z.quot_div_nonneg by lia. Z.to_euclidean_division_equations. lia.
Qed.

(** Whole numbers come out of [as i32]. *)
Lemma as_i32_sub v n : dip n ≤ v → 0 ≤ n → as_i32 (v - dip n) = as_i32 v - n.
Proof.
  unfold as_i32, UNIT. intros Hv Hn. rewrite !Z.quot_div_nonneg by lia. Z.to_euclidean_division_equations. lia.
Qed.

Lemma as_i32_mono v w : 0 ≤ v ≤ w → as_i32 v ≤ as_i32 w.
Proof. intros Hv. unfold as_i32, UNIT. rewrite !Z.quot_div_nonneg by lia. apply Z.div_le_mono; lia. Qed.

Section scaling.
Context (dpi : Z).

Lemma scale_div v : 0 ≤ v → scale dpi v = v * Z.max dpi 96 / 96.
Proof. intros Hv. unfold scale. by rewrite Z.quot_div_nonneg by lia. Qed.

Lemma scale_mono v w : 0 ≤ v ≤ w → scale dpi v ≤ scale dpi w.
Proof. intros Hv. rewrite !scale_div by lia. apply Z.div_le_mono; nia. Qed.

Lemma scale_nonneg v : 0 ≤ v → 0 ≤ scale dpi v.
Proof. intros Hv. rewrite scale_div by lia. apply Z.div_pos; nia. Qed.

(** The scaled parts are not longer than the scaled whole. *)
Lemma scale_add v w : 0 ≤ v → 0 ≤ w → scale dpi v + scale dpi w ≤ scale dpi (v + w).
Proof.
  intros Hv Hw. rewrite !scale_div by lia. rewrite Z.mul_add_distr_r.
  generalize (v * Z.max dpi 96) (w * Z.max dpi 96). intros a b. Z.to_euclidean_division_equations. lia.
Qed.

Lemma scale_le v w x : 0 ≤ v → 0 ≤ w → v + w ≤ x → scale dpi v + scale dpi w ≤ scale dpi x.
Proof. intros Hv Hw Hx. etrans; [by apply scale_add | apply scale_mono; lia]. Qed.
End scaling.

(** The quotient in floating point is off by less than one in 2^23. *)
Lemma f32_quotient_bounds n d :
  0 < d ≤ n → n / d < 2 ^ 23 → n * UNIT - n ≤ f32_quotient n d * d ≤ n * UNIT + n.
Proof.
  intros Hd Hq. unfold f32_quotient. set (e := Z.log2 (n / d)).
  assert (1 ≤ n / d) as Hq1 by (apply Z.div_le_lower_bound; lia).
  assert (0 ≤ e < 23) as He.
  { split; [apply Z.log2_nonneg |]. apply Z.log2_lt_pow2; lia. }
  assert (2 ^ e ≤ n / d) as Hlow by (apply Z.log2_spec; lia).
  replace (23 - (23 - e)) with e by lia.
  assert (UNIT = 2 ^ (23 - e) * 2 ^ e) as HU.
  { unfold UNIT. rewrite <- Z.pow_add_r by lia. f_equal. lia. }
  assert (2 ^ e * d ≤ n) as Hed.
  { etrans; [apply Z.mul_le_mono_nonneg_r; [lia | exact Hlow] |]. pose proof (Z.mul_div_le n d). lia. }
  assert (∀ m, m - d ≤ round_half_even m d * d ≤ m + d) as Hr.
  { intros m. unfold round_half_even. pose proof (Z.div_mod m d ltac:(lia)) as Hm.
    pose proof (Z.mod_pos_bound m d ltac:(lia)). repeat case_match; lia. }
  specialize (Hr (n * 2 ^ (23 - e))). rewrite HU. pose proof (Z.pow_pos_nonneg 2 e ltac:(lia) ltac:(lia)).
  set (r := round_half_even (n * 2 ^ (23 - e)) d) in *.
  replace (r * 2 ^ e * d) with (r * d * 2 ^ e) by lia.
  replace (n * (2 ^ (23 - e) * 2 ^ e)) with (n * 2 ^ (23 - e) * 2 ^ e) by lia.
  nia.
Qed.

(** ** Windows of at least the minimum size *)

(** What [WM_GETMINMAXINFO] asks for, on a screen. *)
Record window_ok (dpi client_width client_height : Z) : Prop := {
  wo_dpi : dpi ≤ 2 ^ 10;
  wo_min_width : scale dpi MIN_CLIENT_WIDTH ≤ client_width;
  wo_max_width : client_width ≤ 2 ^ 16;
  wo_min_height : scale dpi MIN_CLIENT_HEIGHT ≤ client_height;
}.

(** The right edge of the content and of the window, in whole DIPs. *)
Definition content_edge (dpi client_width : Z) : Z :=
  as_i32 (content_right (ShellLayout_new (logical_client_width dpi client_width))).
Definition window_edge (dpi client_width : Z) : Z := Z.quot (Z.max client_width 1 * 96) (Z.max dpi 96).

Section window.
Context (dpi client_width client_height : Z) (Hok : window_ok dpi client_width client_height).
Notation R := (content_right (ShellLayout_new (logical_client_width dpi client_width))).
Notation D := (Z.max dpi 96).

Lemma min_width : 780 * D - 95 ≤ client_width * 96.
Proof.
  destruct Hok as [_ Hw _ _]. rewrite scale_div in Hw by done. unfold MIN_CLIENT_WIDTH in Hw.
  Z.to_euclidean_division_equations. lia.
Qed.

Lemma logical_width_bounds :
  client_width * 96 * (UNIT - 1) ≤ logical_client_width dpi client_width * D ≤ client_width * 96 * (UNIT + 1).
Proof.
  pose proof min_width. destruct Hok as [Hd _ Hmax _]. unfold logical_client_width.
  rewrite (Z.max_l client_width) by lia.
  pose proof (f32_quotient_bounds (client_width * 96) D ltac:(lia)) as Hq.
  assert (client_width * 96 / D < 2 ^ 23) as Hlt by (apply Z.div_lt_upper_bound; lia).
  specialize (Hq Hlt). lia.
Qed.

Lemma content_right_wide : dip 736 ≤ R ∧ R = logical_client_width dpi client_width - dip 42.
Proof.
  pose proof min_width as Hmin. pose proof logical_width_bounds as [Hlow _]. destruct Hok as [Hd _ Hmax _].
  assert (dip 778 ≤ logical_client_width dpi client_width) as Hl.
  { apply (Z.mul_le_mono_pos_r _ _ D); [lia |]. etrans; [| exact Hlow]. unfold UNIT. nia. }
  unfold ShellLayout_new. cbn [content_right]. unfold UNIT in *. rewrite Z.max_l by lia. lia.
Qed.

Lemma content_edge_wide : 736 ≤ content_edge dpi client_width.
Proof. unfold content_edge. rewrite <- (as_i32_dip 736). apply as_i32_mono. pose proof content_right_wide. unfold UNIT in *. lia. Qed.

(** The content ends before the window does, and a scaled edge is inside of it. *)
Lemma edges : content_edge dpi client_width + 41 ≤ window_edge dpi client_width.
Proof.
  pose proof content_right_wide as [Hwide HR]. pose proof logical_width_bounds as [_ Hup]. pose proof min_width.
  destruct Hok as [Hd _ Hmax _].
  destruct (as_i32_nonneg R) as (_ & Hr & _); [unfold UNIT in *; lia |]. fold (content_edge dpi client_width) in Hr.
  unfold window_edge. rewrite (Z.max_l client_width), Z.quot_div_nonneg by lia.
  apply Z.div_le_lower_bound; [lia |].
  apply (Z.mul_le_mono_pos_r _ _ UNIT); [done |]. unfold UNIT in *. nia.
Qed.

Lemma window_edge_inside v : 0 ≤ v ≤ window_edge dpi client_width → scale dpi v ≤ client_width.
Proof.
  intros Hv. pose proof min_width. etrans; [apply (scale_mono dpi v (window_edge dpi client_width)); lia |].
  rewrite scale_div by lia. unfold window_edge. rewrite (Z.max_l client_width), Z.quot_div_nonneg by lia.
  apply Z.div_le_upper_bound; [lia |]. rewrite (Z.mul_comm _ D). pose proof (Z.mul_div_le (client_width * 96) D). lia.
Qed.

(** ** Places *)

Notation place := (Z * Z * Z * Z)%type.
Definition bounds_of (p : place) : Bounds := let '(x, y, w, h) := p in scaled dpi x y w h.
Definition place_fits (p : place) : Prop :=
  let '(x, y, w, h) := p in
  0 ≤ x ∧ 0 ≤ y ∧ 0 ≤ w ∧ 0 ≤ h ∧ x + w ≤ window_edge dpi client_width.
(** It ends above the bottom of a window of the minimum height. *)
Definition place_is_high (p : place) : Prop := let '(_, y, _, h) := p in y + h ≤ MIN_CLIENT_HEIGHT.
Definition places_apart (p q : place) : Prop :=
  let '(x, y, w, h) := p in let '(x', y', w', h') := q in
  x + w ≤ x' ∨ x' + w' ≤ x ∨ y + h ≤ y' ∨ y' + h' ≤ y.

Definition inside (b : Bounds) : Prop :=
  0 ≤ b_x b ∧ 0 ≤ b_y b ∧ b_x b + b_width b ≤ client_width ∧ b_y b + b_height b ≤ client_height.
Definition apart (b b' : Bounds) : Prop :=
  b_x b + b_width b ≤ b_x b' ∨ b_x b' + b_width b' ≤ b_x b ∨ b_y b + b_height b ≤ b_y b' ∨ b_y b' + b_height b' ≤ b_y b.

(** A place that fits is inside of the window if it ends above its bottom. *)
Lemma place_inside p :
  place_fits p → inside (bounds_of p) ↔ b_y (bounds_of p) + b_height (bounds_of p) ≤ client_height.
Proof.
  destruct p as [[[x y] w] h]. intros (Hx & Hy & Hw & Hh & Hright). unfold inside. cbn.
  assert (scale dpi x + scale dpi w ≤ client_width).
  { etrans; [by apply scale_add |]. apply window_edge_inside. lia. }
  pose proof (scale_nonneg dpi x Hx). pose proof (scale_nonneg dpi y Hy). tauto.
Qed.

Lemma high_place_inside p : place_fits p → place_is_high p → inside (bounds_of p).
Proof.
  intros Hfits Hhigh. apply place_inside; [done |]. destruct p as [[[x y] w] h]. destruct Hfits as (_ & Hy & _ & Hh & _).
  cbn in *. destruct Hok as [_ _ _ Hmin]. etrans; [by apply scale_add |]. etrans; [| exact Hmin]. apply scale_mono. lia.
Qed.

Lemma high_places_inside places :
  Forall place_fits places → Forall place_is_high places → Forall inside (bounds_of <$> places).
Proof.
  intros Hfits Hhigh. apply Forall_fmap. rewrite Forall_forall in *. intros p Hp. apply high_place_inside; eauto.
Qed.

Lemma places_apart_scaled p q : place_fits p → place_fits q → places_apart p q → apart (bounds_of p) (bounds_of q).
Proof.
  destruct p as [[[x y] w] h], q as [[[x' y'] w'] h']. intros (? & ? & ? & ? & _) (? & ? & ? & ? & _) Hapart.
  unfold apart. cbn. destruct Hapart as [Ha | [Ha | [Ha | Ha]]];
    [left | right; left | right; right; left | do 3 right]; by apply scale_le.
Qed.

(** Places that are apart make bounds that are. *)
Lemma laid_out places :
  Forall place_fits places → ForallOrdPairs places_apart places → ForallOrdPairs apart (bounds_of <$> places).
Proof.
  intros Hfits Hapart. induction Hapart as [|p places Hp Hapart IH]; cbn; [constructor |].
  apply Forall_cons in Hfits as [Hfp Hfits]. constructor; [| by apply IH].
  apply Forall_fmap. apply Forall_forall. intros q Hq. rewrite Forall_forall in Hp, Hfits.
  apply places_apart_scaled; eauto.
Qed.
End window.

(** ** What can be clicked *)

(** A button or a field that is shown. *)
Definition clickable (c : Control) : bool :=
  ct_visible c && (bool_decide (is_Some (ct_kind c)) || match ct_class c with Edit => true | _ => false end).
Definition clickable_bounds (controls : list Control) : list Bounds :=
  ct_bounds <$> List.filter clickable controls.

(** The controls of a page, without the batch or the ids that come with them. *)
Definition page_controls (english : bool) (dpi client_width : Z) (page : Page) (tab : FileTab) (snapshot : UiSnapshot)
    (host : string) (receive_root : option string) (blocked : bool) (start : PairingStart) : list Control :=
  match page with
  | PageStatus => build_status english dpi client_width host snapshot
  | PageFiles => (build_files english dpi client_width snapshot tab receive_root).1
  | PagePhones => (build_phones english dpi client_width snapshot).1
  | PageSettings => build_settings english dpi client_width snapshot blocked
  | PagePairing => (build_pairing english dpi client_width (ui_pc_name snapshot) start).1
  end.

Lemma rect_width_xywh x y w h : rect_width (from_xywh x y w h) = w.
Proof. unfold rect_width. cbn. lia. Qed.
Lemma rect_height_xywh x y w h : bottom (from_xywh x y w h) - top (from_xywh x y w h) = h.
Proof. cbn. lia. Qed.
Lemma left_xywh x y w h : left (from_xywh x y w h) = x.
Proof. done. Qed.
Lemma top_xywh x y w h : top (from_xywh x y w h) = y.
Proof. done. Qed.
Lemma dip_add a b : dip a + dip b = dip (a + b).
Proof. lia. Qed.
Lemma dip_sub v a b : v - dip a - dip b = v - dip (a + b).
Proof. lia. Qed.
Lemma within_xywh {A} (make : Z → Z → Z → Z → A) x y w h :
  within make (from_xywh x y w h) = make (as_i32 x) (as_i32 y) (as_i32 w) (as_i32 h).
Proof. unfold within. by rewrite rect_width_xywh, rect_height_xywh. Qed.

Section pages.
Context (english : bool) (dpi client_width client_height : Z) (Hok : window_ok dpi client_width client_height).
Notation R := (content_right (ShellLayout_new (logical_client_width dpi client_width))).
Notation r := (content_edge dpi client_width).
Notation e := (window_edge dpi client_width).

Lemma edge_sub n : 0 ≤ n ≤ 736 → as_i32 (R - dip n) = r - n.
Proof. intros Hn. apply as_i32_sub; [| lia]. pose proof (content_right_wide _ _ _ Hok). unfold UNIT in *. lia. Qed.

Definition shell_places : list (Z * Z * Z * Z) :=
  [(0, 120, 202, 42); (0, 166, 202, 42); (0, 212, 202, 42); (0, 258, 202, 42); (155, 540, 34, 34);
   (e - 94, 0, 46, 52); (e - 48, 0, 48, 52)].

Lemma shell_clickable :
  clickable_bounds (create_shell english dpi client_width) = bounds_of dpi <$> shell_places.
Proof. unfold create_shell, create_language_button. cbn [language_action ShellLayout_new]. unfold dips. rewrite within_xywh, !as_i32_dip. done. Qed.

Lemma status_clickable host snapshot :
  clickable_bounds (build_status english dpi client_width host snapshot) = bounds_of dpi <$> [(244, 493, 136, 35)].
Proof.
  unfold build_status, StatusLayout_new, label_value. cbn [st_summary st_pair_action content_left ShellLayout_new].
  rewrite !within_xywh, !as_i32_dip. done.
Qed.

Lemma pairing_clickable pc_name start :
  clickable_bounds (build_pairing english dpi client_width pc_name start).1 = bounds_of dpi <$> [(r - 110, 78, 110, 32)].
Proof.
  unfold build_pairing, PairingLayout_new. cbn [pl_back_action pl_title].
  rewrite within_xywh, !as_i32_dip, edge_sub by done. by destruct start.
Qed.

(** The width of the field of the name. *)
Definition name_width : Z := as_i32 (clamp (R - dip 385 - dip 100) (dip 180) (dip 235)).
Lemma name_width_bounds : 180 ≤ name_width ≤ 235.
Proof.
  unfold name_width. pose proof (as_i32_dip 180) as H1. pose proof (as_i32_dip 235) as H2.
  pose proof (as_i32_mono (dip 180) (clamp (R - dip 385 - dip 100) (dip 180) (dip 235))) as H3.
  pose proof (as_i32_mono (clamp (R - dip 385 - dip 100) (dip 180) (dip 235)) (dip 235)) as H4.
  unfold clamp, UNIT in *. lia.
Qed.

Definition settings_places (action : UpdateAction) : list (Z * Z * Z * Z) :=
  [(385, 160, name_width, 30); (385, 203, r - 385, 34); (385, 250, r - 385, 34); (r - 85, 157, 85, 35);
   (r - 118, 355, 118, 35); (r - 336, 507, 100, 34); (r - 228, 507, 112, 34)]
  ++ if bool_decide (action = UaNone) then [] else [(r - 108, 506, 108, 35)].

Lemma settings_clickable snapshot blocked :
  clickable_bounds (build_settings english dpi client_width snapshot blocked)
  = bounds_of dpi <$> settings_places (us_action (ui_update snapshot)).
Proof.
  unfold build_settings, SettingsLayout_new, settings_places.
  cbn [se_shell se_save_action se_name_edit se_repair_action se_update_repository se_update_history se_update_action
       se_update_status se_update_progress].
  rewrite !within_xywh, !left_xywh, !dip_sub, !as_i32_dip, !edge_sub by done.
  change (dip (385 + 100)) with (dip 385 + dip 100). rewrite Z.sub_add_distr. fold name_width.
  unfold refresh_update_controls.
  destruct (ui_update snapshot) as [message action label [[transferred total]|] version]; by destruct action.
Qed.

Definition files_places (tab : FileTab) (choose cancel : bool) : list (Z * Z * Z * Z) :=
  [(244, 154, 110, 36); (378, 154, 110, 36)]
  ++ match tab with
     | TabSend => if choose then [(370, 354, 120, 34); (499, 354, 126, 34)] else []
     | TabReceived => [(r - 120, 263, 108, 34)]
     end
  ++ if cancel then [match tab with TabSend => (370, 354, 120, 34) | TabReceived => (260, 444, 120, 34) end] else [].

Lemma files_clickable snapshot tab receive_root :
  let content := FileTabContent_new english tab (ui_file_transfer snapshot) in
  clickable_bounds (build_files english dpi client_width snapshot tab receive_root).1
  = bounds_of dpi <$> files_places tab (tc_can_choose content) (bool_decide (is_Some (tc_cancel_batch content))).
Proof.
  intros content. unfold build_files, update_file_controls. fold content. cbn [fst].
  destruct content as [status failures choose cancel]. cbn [tc_status tc_failures tc_can_choose tc_cancel_batch].
  unfold FilesLayout_new, build_file_status, dips. destruct tab; cbn [bool_decide decide];
    cbn [fl_status fl_failures fl_cancel_action fl_receive_action fl_receive_root fl_security_note fl_destination fl_drop_hint].
  - rewrite !(bool_decide_false (TabSend = TabReceived)) by done. rewrite !within_xywh, !left_xywh, !top_xywh, !as_i32_dip.
    by destruct choose, (bool_decide (is_Some cancel)).
  - rewrite !(bool_decide_true (TabReceived = TabReceived)) by done.
    rewrite !within_xywh, !left_xywh, !top_xywh, !as_i32_dip, edge_sub by done.
    by destruct (bool_decide (is_Some cancel)).
Qed.

Definition row_place (index : nat) : Z * Z * Z * Z := (r - 100, 198 + Z.of_nat index * 94, 100, 35).
Definition phones_places (count : nat) : list (Z * Z * Z * Z) := [(r - 132, 75, 132, 34)] ++ (row_place <$> seq 0 count).

Lemma phone_row_place status index phone count :
  (index < count)%nat →
  clickable_bounds (build_phone_row english dpi status (PhonesLayout_new (logical_client_width dpi client_width) count) index phone)
  = [bounds_of dpi (row_place index)].
Proof.
  intros Hindex. unfold build_phone_row, PhonesLayout_new. cbn [ph_rows].
  rewrite list_lookup_fmap, lookup_seq_lt by done. cbn [fmap option_fmap option_map]. unfold phone_row.
  cbn [pr_name pr_status pr_action]. rewrite !within_xywh, !left_xywh, edge_sub, !as_i32_dip by done.
  replace (dip 169 + Z.of_nat (0 + index) * dip 94 + dip 29) with (dip (198 + Z.of_nat index * 94))
    by (unfold UNIT; lia).
  by rewrite as_i32_dip.
Qed.

Lemma clickable_app l k : clickable_bounds (l ++ k) = clickable_bounds l ++ clickable_bounds k.
Proof. unfold clickable_bounds. by rewrite List.filter_app, fmap_app. Qed.

Lemma phone_rows_clickable status count phones :
  (length phones ≤ count)%nat →
  clickable_bounds (concat (imap (λ index (entry : string * PairedPhone),
    build_phone_row english dpi status (PhonesLayout_new (logical_client_width dpi client_width) count) index entry.2) phones))
  = bounds_of dpi <$> (row_place <$> seq 0 (length phones)).
Proof.
  induction phones as [|phone phones IH] using rev_ind; intros Hcount; [done |].
  rewrite length_app in *. cbn [length] in *. rewrite imap_app, concat_app, clickable_app, IH by lia.
  rewrite seq_app, !fmap_app. f_equal. cbn [imap concat seq fmap list_fmap]. rewrite app_nil_r, phone_row_place by (cbn; lia).
  cbn. by rewrite Nat.add_0_r.
Qed.

Lemma phones_clickable snapshot :
  clickable_bounds (build_phones english dpi client_width snapshot).1
  = bounds_of dpi <$> phones_places (length (ui_phones snapshot)).
Proof.
  unfold build_phones. cbn [fst]. rewrite !clickable_app, phone_rows_clickable by done.
  unfold PhonesLayout_new at 1 2. cbn [ph_title ph_pair_action action_before_language].
  unfold action_before_language. rewrite within_xywh, edge_sub, as_i32_dip by done.
  assert (clickable_bounds
    (if bool_decide (ui_phones snapshot = [])
     then [within (λ x y w h, muted_text dpi (AppState.tr english "还没有绑定手机" "No phones paired") x y w h BodyFont)
             (ph_empty_message (PhonesLayout_new (logical_client_width dpi client_width) (length (ui_phones snapshot))))]
     else []) = []) as -> by (by case_bool_decide).
  cbn [app]. unfold phones_places. cbn [language_action title ShellLayout_new top bottom dips from_xywh].
  replace (dip 540 + dip 34 - dip 540) with (dip 34) by lia. rewrite !as_i32_dip. done.
Qed.

(** The cancel button and the buttons that choose files share a place. *)
Lemma choose_or_cancel tab transfer :
  let content := FileTabContent_new english tab transfer in
  tc_can_choose content = true → tc_cancel_batch content = None.
Proof.
  cbn. intros [_ Hbusy]%andb_true_iff. destruct transfer as [value|]; [| done]. cbn in *.
  case_bool_decide; [| done]. cbn. by destruct (snapshot_active value).
Qed.

Ltac place_facts := pose proof (edges dpi client_width client_height Hok); pose proof (content_edge_wide _ _ _ Hok);
  pose proof name_width_bounds.
Ltac each_place :=
  cbn [app];
  repeat match goal with
  | |- Forall _ [] => constructor
  | |- Forall _ (_ :: _) => constructor
  | |- ForallOrdPairs _ [] => constructor
  | |- ForallOrdPairs _ (_ :: _) => constructor
  end; cbn -[Z.add Z.sub name_width content_edge window_edge]; unfold MIN_CLIENT_HEIGHT; lia.

(** The places of a page. *)
Definition page_places (page : Page) (tab : FileTab) (snapshot : UiSnapshot) : list (Z * Z * Z * Z) :=
  match page with
  | PageStatus => [(244, 493, 136, 35)]
  | PageFiles =>
    let content := FileTabContent_new english tab (ui_file_transfer snapshot) in
    files_places tab (tc_can_choose content) (bool_decide (is_Some (tc_cancel_batch content)))
  | PagePhones => phones_places (length (ui_phones snapshot))
  | PageSettings => settings_places (us_action (ui_update snapshot))
  | PagePairing => [(r - 110, 78, 110, 32)]
  end.

(** The rows of the phones: one below the other, right of what is around the page. *)
Lemma row_fits index : place_fits dpi client_width (row_place index).
Proof. place_facts. cbn. lia. Qed.
Lemma rows_apart start count : ForallOrdPairs places_apart (row_place <$> seq start count).
Proof.
  revert start. induction count as [|count IH]; intros start; cbn; constructor; [| apply IH].
  apply Forall_fmap, Forall_seq. intros index Hindex. cbn. lia.
Qed.
Lemma apart_from_rows places count :
  Forall (λ p : Z * Z * Z * Z, let '(x, y, w, h) := p in x + w ≤ r - 100 ∨ y + h ≤ 198) places →
  ForallOrdPairs places_apart places → ForallOrdPairs places_apart (places ++ (row_place <$> seq 0 count)).
Proof.
  intros Hclear Hapart. induction Hapart as [|p places Hp Hapart IH]; [apply rows_apart |].
  apply Forall_cons in Hclear as [Hclear Hrest]. cbn. constructor; [| by apply IH].
  apply Forall_app. split; [done |]. apply Forall_fmap, Forall_seq. intros index Hindex.
  destruct p as [[[x y] w] h]. cbn. lia.
Qed.

Lemma page_places_ok page tab snapshot :
  let places := shell_places ++ page_places page tab snapshot in
  Forall (place_fits dpi client_width) places ∧ ForallOrdPairs places_apart places
  ∧ (page ≠ PagePhones → Forall place_is_high places).
Proof.
  intros places. unfold places, shell_places. place_facts. destruct page; cbn [page_places].
  - split_and!; [each_place.. | intros _; each_place].
  - pose proof (choose_or_cancel tab (ui_file_transfer snapshot)) as Hone. cbn zeta in Hone.
    destruct (FileTabContent_new english tab (ui_file_transfer snapshot)) as [status failures choose cancel].
    cbn [tc_can_choose tc_cancel_batch] in *. unfold files_places.
    assert (choose = true → bool_decide (is_Some cancel) = false) as Hone' by (intros Hc; by rewrite (Hone Hc)).
    destruct tab, choose, (bool_decide (is_Some cancel)); try (by specialize (Hone' eq_refl));
      (split_and!; [each_place.. | intros _; each_place]).
  - unfold phones_places. rewrite app_assoc. split_and!; [| | done].
    + apply Forall_app. split; [each_place |]. apply Forall_fmap, Forall_true, row_fits.
    + apply apart_from_rows; each_place.
  - unfold settings_places. case_bool_decide; (split_and!; [each_place.. | intros _; each_place]).
  - split_and!; [each_place.. | intros _; each_place].
Qed.

(** The button of the last phone ends above the bottom of the window. *)
Definition last_row_fits (count : nat) : Prop :=
  scale dpi (198 + (Z.of_nat count - 1) * 94) + scale dpi 35 ≤ client_height.

Lemma four_rows_fit count : (count ≤ 4)%nat → last_row_fits count.
Proof.
  intros Hcount. unfold last_row_fits. destruct Hok as [_ _ _ Hmin]. etrans; [| exact Hmin]. unfold MIN_CLIENT_HEIGHT.
  etrans; [apply scale_add | apply scale_mono]; lia.
Qed.

Lemma rows_inside count :
  Forall (inside client_width client_height) (bounds_of dpi <$> (row_place <$> seq 0 count)) ↔ last_row_fits count.
Proof.
  rewrite !Forall_fmap, Forall_seq. unfold last_row_fits. split.
  - intros Hrows. destruct count as [|count]; [by apply (four_rows_fit 0); lia |].
    specialize (Hrows count ltac:(lia)). apply (place_inside _ _ _ Hok) in Hrows; [| apply row_fits].
    cbn in Hrows. by replace (Z.of_nat (S count) - 1) with (Z.of_nat count) by lia.
  - intros Hlast index Hindex. apply (place_inside _ _ _ Hok); [apply row_fits |]. cbn.
    etrans; [| exact Hlast]. apply Z.add_le_mono_r, scale_mono. lia.
Qed.

Lemma phones_inside tab snapshot :
  Forall (inside client_width client_height) (bounds_of dpi <$> (shell_places ++ page_places PagePhones tab snapshot))
  ↔ (PagePhones = PagePhones → last_row_fits (length (ui_phones snapshot))).
Proof.
  cbn [page_places]. unfold phones_places. rewrite (app_assoc shell_places), fmap_app, Forall_app, rows_inside.
  split; [tauto |]. intros Hlast. split; [| by apply Hlast]. place_facts.
  apply (high_places_inside _ _ _ Hok); unfold shell_places; each_place.
Qed.

Lemma page_clickable page tab snapshot host receive_root blocked start :
  clickable_bounds (create_shell english dpi client_width
    ++ page_controls english dpi client_width page tab snapshot host receive_root blocked start)
  = bounds_of dpi <$> (shell_places ++ page_places page tab snapshot).
Proof.
  rewrite clickable_app, shell_clickable, fmap_app. f_equal. destruct page; cbn [page_controls page_places].
  - apply status_clickable.
  - apply files_clickable.
  - apply phones_clickable.
  - apply settings_clickable.
  - apply pairing_clickable.
Qed.

(** C32. (bounds) In a window of at least the minimum size, at every scaling of the display,
    no two of the buttons and fields that are shown overlap, those around the page included;
    and all of them are inside of the window, on the page of the phones exactly if the
    button of the last phone ends above the bottom of the window: for up to four phones it
    always does, for more the window has to be higher. *)
Theorem buttons_fit page tab snapshot host receive_root blocked start :
  let shown := clickable_bounds (create_shell english dpi client_width
    ++ page_controls english dpi client_width page tab snapshot host receive_root blocked start) in
  let phones := length (ui_phones snapshot) in
  ForallOrdPairs apart shown
  ∧ (Forall (inside client_width client_height) shown ↔ (page = PagePhones → last_row_fits phones))
  ∧ ((page = PagePhones → phones ≤ 4)%nat → Forall (inside client_width client_height) shown).
Proof.
  intros shown phones. unfold shown. rewrite page_clickable.
  destruct (page_places_ok page tab snapshot) as (Hfits & Hapart & Hhigh).
  assert (Forall (inside client_width client_height) (bounds_of dpi <$> (shell_places ++ page_places page tab snapshot))
    ↔ (page = PagePhones → last_row_fits phones)) as Hinside.
  { destruct (decide (page = PagePhones)) as [->|Hpage].
    - apply phones_inside.
    - split; [done |]. intros _. apply (high_places_inside _ _ _ Hok); auto. }
  split_and!; [by apply (laid_out dpi client_width) | exact Hinside |].
  intros Hfour. apply Hinside. intros Hpage. by apply four_rows_fit, Hfour.
Qed.
End pages.
