(* ===== verification/PagesResize.v ===== *)
(** * A resize puts the controls where building the page anew would

    [flowtype-app/src/ui_pages.rs reposition_responsive_controls] moves the controls of
    the page that is shown. On all pages but the first this gives exactly the page
    that would be built for the new size; on the first one the values keep their
    old width. *)

From S2P Require Import Prelude Text Protocol FileCore Outbound Pairing Update AppState Addresses Layout Pages PagesLayout.
Local Open Scope string_scope.
Local Open Scope list_scope.
Local Open Scope Z_scope.

Section resize.
Context (english : bool) (dpi : Z).

Section commute.
Context (w h : Z) (page : Page) (tab : FileTab) (count : nat).
Notation place := (reposition dpi w h page tab count).

Lemma reposition_slot c : ct_slot (place c) = ct_slot c.
Proof. unfold reposition. repeat case_match; done. Qed.

(** What changes neither the id, the kind nor the field of a control. *)
Definition harmless (f : Control → Control) : Prop := ∀ c, place (f c) = f (place c).
Lemma harmless_text value : harmless (set_text value).
Proof. intros c. unfold reposition. cbn. destruct (mbind _ (ct_kind c)), c as [? ? ? ? ? ? ? ? slot ?]; cbn; by destruct (mbind _ slot). Qed.
Lemma harmless_visible b : harmless (set_visible b).
Proof. intros c. unfold reposition. cbn. destruct (mbind _ (ct_kind c)), c as [? ? ? ? ? ? ? ? slot ?]; cbn; by destruct (mbind _ slot). Qed.
Lemma harmless_position p : harmless (set_position p).
Proof. intros c. unfold reposition. cbn. destruct (mbind _ (ct_kind c)), c as [? ? ? ? ? ? ? ? slot ?]; cbn; by destruct (mbind _ slot). Qed.

Lemma reposition_at_slot slot f controls :
  harmless f → place <$> at_slot slot f controls = at_slot slot f (place <$> controls).
Proof.
  intros Hf. unfold at_slot. rewrite <- !list_fmap_compose. apply list_fmap_ext. intros i c _. cbn.
  rewrite reposition_slot. by case_bool_decide.
Qed.

Lemma reposition_file_controls transfer controls :
  place <$> (update_file_controls english tab transfer controls).1
  = (update_file_controls english tab transfer (place <$> controls)).1.
Proof.
  unfold update_file_controls, set_control_visible, set_control_text. cbn [fst].
  by rewrite !reposition_at_slot by eauto using harmless_text, harmless_visible.
Qed.

Lemma reposition_update_controls snapshot blocked controls :
  place <$> refresh_update_controls english snapshot blocked controls
  = refresh_update_controls english snapshot blocked (place <$> controls).
Proof.
  unfold refresh_update_controls, set_control_visible, set_control_text.
  destruct (us_progress snapshot) as [[transferred total]|];
    by rewrite !reposition_at_slot by eauto using harmless_text, harmless_visible, harmless_position.
Qed.
End commute.

(** Where a control of which the button and the field are known goes. *)
Definition put (r : option Rect) (c : Control) : Control :=
  match r with Some r => position_control dpi r c | None => c end.

Section put.
Context (w h : Z) (page : Page) (tab : FileTab) (count : nat).
Notation place := (reposition dpi w h page tab count).

Lemma place_static c : ct_kind c = None → ct_slot c = None → place c = c.
Proof. intros Hk Hs. unfold reposition. rewrite Hk. cbn. by rewrite Hs. Qed.
Lemma place_field c slot : ct_kind c = None → ct_slot c = Some slot → place c = put (slot_bounds dpi w page tab count slot) c.
Proof. intros Hk Hs. unfold reposition. rewrite Hk. cbn. by rewrite Hs. Qed.
Lemma place_button c kind :
  ct_kind c = Some kind → ct_slot c = None → place c = put (button_bounds dpi w h page tab count (ct_id c)) c.
Proof. intros Hk Hs. unfold reposition. rewrite Hk. cbn. destruct (button_bounds _ _ _ _ _ _ _); cbn; by rewrite Hs. Qed.
Lemma place_kept_button c kind slot :
  ct_kind c = Some kind → ct_slot c = Some slot → slot_bounds dpi w page tab count slot = None →
  place c = put (button_bounds dpi w h page tab count (ct_id c)) c.
Proof. intros Hk Hs Hb. unfold reposition. rewrite Hk. cbn. destruct (button_bounds _ _ _ _ _ _ _); cbn; by rewrite Hs; cbn; rewrite Hb. Qed.
End put.

(** Makers of controls that only give the control its place. *)
Definition placing (make : Z → Z → Z → Z → Control) : Prop :=
  ∀ x y w h x' y' w' h', set_bounds (scaled dpi x' y' w' h') (make x y w h) = make x' y' w' h'.
Lemma placing_text v f : placing (λ x y w h, text dpi v x y w h f).
Proof. done. Qed.
Lemma placing_muted v f : placing (λ x y w h, muted_text dpi v x y w h f).
Proof. done. Qed.
Lemma placing_button v id k : placing (λ x y w h, owner_button dpi v id x y w h k).
Proof. done. Qed.
Lemma placing_control class v b id f : placing (λ x y w h, control dpi class v b id x y w h f).
Proof. done. Qed.

Lemma put_within make r r' : placing make → put (Some r) (within make r') = within make r.
Proof. intros Hmake. unfold put, position_control, within. apply Hmake. Qed.
Lemma put_kept_within make slot r r' : placing make → put (Some r) (kept slot (within make r')) = kept slot (within make r).
Proof. intros Hmake. rewrite <- (put_within make r r' Hmake). done. Qed.
Lemma put_text v f slot x y w h x' y' w' h' r :
  scaled dpi x' y' w' h' = within (scaled dpi) r →
  put (Some r) (kept slot (text dpi v x y w h f)) = kept slot (text dpi v x' y' w' h' f).
Proof. intros Hb. unfold put, position_control. by rewrite <- Hb. Qed.
Lemma put_muted v f slot x y w h x' y' w' h' r :
  scaled dpi x' y' w' h' = within (scaled dpi) r →
  put (Some r) (kept slot (muted_text dpi v x y w h f)) = kept slot (muted_text dpi v x' y' w' h' f).
Proof. intros Hb. unfold put, position_control. by rewrite <- Hb. Qed.
Lemma put_button v id k x y w h x' y' w' h' r :
  scaled dpi x' y' w' h' = within (scaled dpi) r →
  put (Some r) (owner_button dpi v id x y w h k) = owner_button dpi v id x' y' w' h' k.
Proof. intros Hb. unfold put, position_control. by rewrite <- Hb. Qed.
Lemma put_kept_button v id k slot x y w h x' y' w' h' r :
  scaled dpi x' y' w' h' = within (scaled dpi) r →
  put (Some r) (kept slot (owner_button dpi v id x y w h k)) = kept slot (owner_button dpi v id x' y' w' h' k).
Proof. intros Hb. unfold put, position_control. by rewrite <- Hb. Qed.

(** Places written out in whole numbers. *)
Lemma scaled_dips x y w h : scaled dpi x y (as_i32 w) h = within (scaled dpi) (from_xywh (dip x) (dip y) w (dip h)).
Proof. by rewrite within_xywh, !as_i32_dip. Qed.
Lemma scaled_height r n :
  bottom r - top r = dip n → scaled dpi (as_i32 (left r)) (as_i32 (top r)) (as_i32 (rect_width r)) n = within (scaled dpi) r.
Proof. intros Hn. unfold within. by rewrite Hn, as_i32_dip. Qed.
Lemma scaled_size r n k :
  rect_width r = dip n → bottom r - top r = dip k →
  scaled dpi (as_i32 (left r)) (as_i32 (top r)) n k = within (scaled dpi) r.
Proof. intros Hn Hk. unfold within. by rewrite Hn, Hk, !as_i32_dip. Qed.

(** Control after control: it stays, or it goes into a rectangle. *)
Ltac next := apply (f_equal2 cons).
Ltac stays :=
  first [ rewrite place_static by reflexivity
        | first [ erewrite place_field by reflexivity | erewrite place_button by reflexivity | erewrite place_kept_button by reflexivity ];
          match goal with |- put ?b _ = _ => change b with (@None Rect) end ];
  reflexivity.
Ltac put_in :=
  first [ apply put_within | apply put_kept_within | apply put_muted | apply put_text | apply put_button | apply put_kept_button ];
  first [ apply placing_text | apply placing_muted | apply placing_button | apply placing_control | apply scaled_dips
        | apply scaled_height; apply rect_height_xywh | apply scaled_size; [apply rect_width_xywh | apply rect_height_xywh] ].
Ltac goes rect :=
  first [erewrite place_field by reflexivity | erewrite place_button by reflexivity | erewrite place_kept_button by reflexivity];
  match goal with |- put ?b _ = _ => change b with (Some rect) end; put_in.

Lemma resize_pairing w1 w2 h tab count pc_name start :
  reposition dpi w2 h PagePairing tab count <$> (build_pairing english dpi w1 pc_name start).1
  = (build_pairing english dpi w2 pc_name start).1.
Proof.
  unfold build_pairing. set (l1 := PairingLayout_new (logical_client_width dpi w1)).
  assert (pl_qr_origin l1 = pl_qr_origin (PairingLayout_new (logical_client_width dpi w2))) as Hqr by done.
  assert (pl_title l1 = pl_title (PairingLayout_new (logical_client_width dpi w2))) as -> by done.
  rewrite Hqr. clear Hqr. clearbody l1. set (l2 := PairingLayout_new (logical_client_width dpi w2)).
  destruct start; cbn [fst app fmap list_fmap].
  all: next; [goes (pl_back_action l2) |].
  all: next; [stays |]. all: next; [stays |].
  all: next; [goes (pl_open_instruction l2) |].
  all: next; [goes (pl_scan_instruction l2) |].
  all: next; [goes (pl_computer l2) |].
  all: next; [goes (pl_waiting l2) |].
  all: next; [goes (pl_note l2) |].
  - next; [stays | reflexivity].
  - next; [stays | reflexivity].
  - reflexivity.
Qed.

Lemma resize_settings w1 w2 h tab count snapshot blocked :
  reposition dpi w2 h PageSettings tab count <$> build_settings english dpi w1 snapshot blocked
  = build_settings english dpi w2 snapshot blocked.
Proof.
  unfold build_settings. rewrite reposition_update_controls. apply (f_equal (refresh_update_controls english _ _)).
  set (l1 := SettingsLayout_new (logical_client_width dpi w1)).
  assert (title (se_shell l1) = title (se_shell (SettingsLayout_new (logical_client_width dpi w2)))) as -> by done.
  generalize (as_i32 (content_right (se_shell l1) - dip 385)) as wide1. intros wide1. clearbody l1.
  set (shell := ShellLayout_new (logical_client_width dpi w2)).
  change (se_shell (SettingsLayout_new (logical_client_width dpi w2))) with shell.
  set (l2 := SettingsLayout_new (logical_client_width dpi w2)).
  cbn [fmap list_fmap].
  do 3 (next; [stays |]).
  next; [goes (se_name_edit l2) |].
  next; [goes (from_xywh (dip 385) (dip 203) (content_right shell - dip 385) (dip 34))|].
  next; [stays |].
  next; [goes (from_xywh (dip 385) (dip 250) (content_right shell - dip 385) (dip 34))|].
  next; [stays |].
  next; [goes (se_save_action l2) |].
  do 3 (next; [stays |]).
  next; [goes (se_repair_action l2) |].
  do 2 (next; [stays |]).
  next; [goes (se_update_status l2) |].
  next; [goes (se_update_progress l2) |].
  next; [goes (se_update_repository l2) |].
  next; [goes (se_update_history l2) |].
  next; [goes (se_update_action l2) |].
  next; [stays | reflexivity].
Qed.

Lemma resize_files w1 w2 h count snapshot tab receive_root :
  reposition dpi w2 h PageFiles tab count <$> (build_files english dpi w1 snapshot tab receive_root).1
  = (build_files english dpi w2 snapshot tab receive_root).1.
Proof.
  unfold build_files, build_file_status. rewrite reposition_file_controls.
  apply (f_equal (λ l, (update_file_controls english tab (ui_file_transfer snapshot) l).1)).
  set (l1 := FilesLayout_new (logical_client_width dpi w1) tab). clearbody l1.
  set (l2 := FilesLayout_new (logical_client_width dpi w2) tab).
  destruct tab; cbn [fmap list_fmap app].
  - do 5 (next; [stays |]).
    next; [goes (fl_destination l2)|].
    next; [stays |].
    next; [stays |].
    next; [goes (fl_drop_hint l2)|].
    next; [goes (fl_status l2) |].
    next; [goes (fl_failures l2) |].
    next; [goes (fl_cancel_action l2) |].
    next; [goes (fl_security_note l2)| reflexivity].
  - do 6 (next; [stays |]).
    next; [goes (fl_receive_root l2)|].
    next; [goes (fl_receive_action l2)|].
    next; [goes (fl_status l2) |].
    next; [goes (fl_failures l2) |].
    next; [goes (fl_cancel_action l2) |].
    next; [goes (fl_security_note l2)| reflexivity].
Qed.

Lemma unpair_bounds w h tab count index :
  (index < count)%nat →
  button_bounds dpi w h PagePhones tab count (ID_UNPAIR_BASE + Z.of_nat index)
  = Some (pr_action (phone_row (content_right (ShellLayout_new (logical_client_width dpi w))) index)).
Proof.
  intros Hindex. unfold button_bounds.
  assert (∀ n, n < 3000 → (ID_UNPAIR_BASE + Z.of_nat index =? n) = false) as Hid by (intros n Hn; apply Z.eqb_neq; unfold ID_UNPAIR_BASE; lia).
  rewrite !Hid by done. rewrite !andb_false_r. rewrite bool_decide_true by done.
  rewrite (proj2 (Z.leb_le _ _)), (proj2 (Z.ltb_lt _ _)) by lia. cbn [andb].
  replace (Z.to_nat (ID_UNPAIR_BASE + Z.of_nat index - ID_UNPAIR_BASE)) with index by lia.
  unfold PhonesLayout_new. cbn [ph_rows]. by rewrite list_lookup_fmap, lookup_seq_lt.
Qed.

Lemma row_of w count index :
  (index < count)%nat →
  ph_rows (PhonesLayout_new w count) !! index = Some (phone_row (content_right (ShellLayout_new w)) index).
Proof. intros Hindex. unfold PhonesLayout_new. cbn [ph_rows]. by rewrite list_lookup_fmap, lookup_seq_lt. Qed.

Lemma resize_row w1 w2 h tab count status index phone :
  (index < count)%nat →
  reposition dpi w2 h PagePhones tab count
    <$> build_phone_row english dpi status (PhonesLayout_new (logical_client_width dpi w1) count) index phone
  = build_phone_row english dpi status (PhonesLayout_new (logical_client_width dpi w2) count) index phone.
Proof.
  intros Hindex. unfold build_phone_row. rewrite !row_of by done. cbn [fmap list_fmap].
  set (row1 := phone_row (content_right (ShellLayout_new (logical_client_width dpi w1))) index). clearbody row1.
  set (row2 := phone_row (content_right (ShellLayout_new (logical_client_width dpi w2))) index).
  assert (slot_bounds dpi w2 PagePhones tab count (SPhoneName index) = Some (pr_name row2)) as Hname
    by (cbn [slot_bounds]; by rewrite row_of).
  assert (slot_bounds dpi w2 PagePhones tab count (SPhoneStatus index) = Some (pr_status row2)) as Hstatus
    by (cbn [slot_bounds]; by rewrite row_of).
  next; [rewrite (place_field _ _ _ _ _ _ (SPhoneName index)), Hname by reflexivity; put_in |].
  next; [rewrite (place_field _ _ _ _ _ _ (SPhoneStatus index)), Hstatus by reflexivity; put_in |].
  next; [| reflexivity]. rewrite (place_button _ _ _ _ _ _ Secondary) by reflexivity.
  change (ct_id (within _ _)) with (ID_UNPAIR_BASE + Z.of_nat index). rewrite unpair_bounds by done. put_in.
Qed.

Lemma resize_rows w1 w2 h tab count status phones :
  (length phones ≤ count)%nat →
  reposition dpi w2 h PagePhones tab count <$> concat (imap (λ index (entry : string * PairedPhone),
    build_phone_row english dpi status (PhonesLayout_new (logical_client_width dpi w1) count) index entry.2) phones)
  = concat (imap (λ index (entry : string * PairedPhone),
    build_phone_row english dpi status (PhonesLayout_new (logical_client_width dpi w2) count) index entry.2) phones).
Proof.
  induction phones as [|phone phones IH] using rev_ind; intros Hcount; [done |].
  rewrite length_app in Hcount. cbn [length] in Hcount. rewrite !imap_app, !concat_app, fmap_app, IH by lia. f_equal.
  cbn [imap concat]. rewrite !app_nil_r. apply resize_row. lia.
Qed.

Lemma resize_phones w1 w2 h tab snapshot :
  reposition dpi w2 h PagePhones tab (length (ui_phones snapshot)) <$> (build_phones english dpi w1 snapshot).1
  = (build_phones english dpi w2 snapshot).1.
Proof.
  unfold build_phones. cbn [fst]. rewrite !fmap_app, resize_rows by done.
  set (l2 := PhonesLayout_new (logical_client_width dpi w2) (length (ui_phones snapshot))).
  set (l1 := PhonesLayout_new (logical_client_width dpi w1) (length (ui_phones snapshot))).
  assert (ph_title l1 = ph_title l2) as -> by done. assert (ph_empty_message l1 = ph_empty_message l2) as -> by done.
  clearbody l1. apply (f_equal2 app); [| apply (f_equal2 app); [| reflexivity]].
  - cbn [fmap list_fmap]. next; [stays |]. next; [goes (ph_pair_action l2) |]. next; [stays | reflexivity].
  - case_bool_decide; [| done]. cbn [fmap list_fmap]. next; [stays | reflexivity].
Qed.

(** Of the first page only the values depend on the width of the window. *)
Definition status_values : list Slot := [SStatusSummary; SStatusPhone; SStatusInput; SStatusTarget; SStatusAddress].

(** Up to the width of such a value, a control is another one. *)
Definition same_but_width (moved rebuilt : Control) : Prop :=
  let b := ct_bounds rebuilt in
  (∃ slot, ct_slot rebuilt = Some slot ∧ slot ∈ status_values)
  ∧ moved = set_bounds (mkBounds (b_x b) (b_y b) (b_width (ct_bounds moved)) (b_height b)) rebuilt.

Lemma resize_status w1 w2 h tab count host snapshot :
  reposition dpi w2 h PageStatus tab count <$> build_status english dpi w1 host snapshot
  = build_status english dpi w1 host snapshot.
Proof.
  unfold build_status, label_value. set (l2 := StatusLayout_new (logical_client_width dpi w2)).
  assert (st_pair_action (StatusLayout_new (logical_client_width dpi w1)) = st_pair_action l2) as Hpair by done.
  rewrite Hpair. cbn [fmap list_fmap app]. do 12 (next; [stays |]). next; [goes (st_pair_action l2) | reflexivity].
Qed.

Lemma status_but_width w1 w2 host snapshot :
  Forall2 (λ built rebuilt, built = rebuilt ∨ same_but_width built rebuilt)
    (build_status english dpi w1 host snapshot) (build_status english dpi w2 host snapshot).
Proof.
  unfold build_status, label_value. cbn [app].
  repeat (apply Forall2_cons_2;
    [first [by left | right; split; [eexists; split; [reflexivity | unfold status_values; set_solver] | reflexivity]] |]).
  constructor.
Qed.

(** C31. (equivalence) Moving the controls after a resize gives the page that would be built
    for the new size; on the first page nothing moves, and what was built differs from what
    would be built by nothing but the width of the five values. *)
Theorem resize_is_rebuild w1 w2 h page tab snapshot host receive_root blocked start :
  let built w := page_controls english dpi w page tab snapshot host receive_root blocked start in
  let moved := reposition dpi w2 h page tab (length (ui_phones snapshot)) <$> built w1 in
  (page ≠ PageStatus → moved = built w2)
  ∧ (page = PageStatus → moved = built w1
     ∧ Forall2 (λ m rebuilt, m = rebuilt ∨ same_but_width m rebuilt) moved (built w2)).
Proof.
  intros built moved. subst built moved. destruct page; cbn [page_controls]; (split; [try done | try done]).
  - intros _. rewrite resize_status. split; [done | apply status_but_width].
  - intros _. apply resize_files.
  - intros _. apply resize_phones.
  - intros _. apply resize_settings.
  - intros _. apply resize_pairing.
Qed.
End resize.

Definition empty_snapshot : UiSnapshot :=
  mkUiSnapshot "desk" [] (mkStatus "" None None None) true (mkUpdateSnapshot "" UaCheck "" None None) None.

(** The minimum size at 100 %. *)
Lemma minimum_window_ok : window_ok 96 780 600.
Proof. split; vm_compute; discriminate. Qed.

Lemma buttons_fit_witness :
  window_ok 96 780 600 ∧
  let shown := clickable_bounds (create_shell true 96 780
    ++ page_controls true 96 780 PageSettings TabSend empty_snapshot "" None false PairingFailed) in
  ForallOrdPairs apart shown
  ∧ (Forall (inside 780 600) shown ↔ (PageSettings = PagePhones → last_row_fits 96 600 0))
  ∧ ((PageSettings = PagePhones → 0 ≤ 4)%nat → Forall (inside 780 600) shown).
Proof.
  split; [exact minimum_window_ok |].
  apply (buttons_fit true 96 780 600 minimum_window_ok PageSettings TabSend empty_snapshot "" None false PairingFailed).
Defined.

(** ** What does not fit *)

(** The values of the first page keep the width they were built with: after the window
    of the first start is made as small as it may be, they reach beyond its edge. *)
Theorem narrowed_status_overflows :
  let page w := page_controls true 96 w PageStatus TabSend empty_snapshot "" None false PairingFailed in
  let shown := reposition 96 780 600 PageStatus TabSend 0 <$> page 980 in
  shown ≠ page 780 ∧ existsb (λ c, 780 <? b_x (ct_bounds c) + b_width (ct_bounds c)) shown = true.
Proof. split; [| vm_compute; reflexivity]. intros H. apply (f_equal (fmap ct_bounds)) in H. vm_compute in H. discriminate. Qed.

(** The lower part of the area of the error is under the button that pairs a phone. *)
Theorem error_text_is_covered english dpi w host snapshot :
  ∃ error button, error ∈ build_status english dpi w host snapshot ∧ button ∈ build_status english dpi w host snapshot ∧
    ct_slot error = Some SStatusError ∧ ct_id button = ID_PAIR ∧
    ct_bounds error = scaled dpi 244 465 470 42 ∧ ct_bounds button = scaled dpi 244 493 136 35.
Proof.
  eexists _, _. split; [| split].
  - unfold build_status. rewrite !app_assoc. apply elem_of_app. right. apply elem_of_cons. by left.
  - unfold build_status. rewrite !app_assoc. apply elem_of_app. right. apply elem_of_cons. right. apply elem_of_cons. by left.
  - unfold StatusLayout_new. cbn [st_pair_action content_left ShellLayout_new]. rewrite within_xywh, !as_i32_dip. done.
Qed.

(** A window of the minimum size does not show the button of a fifth phone, and the page
    does not scroll. *)
Definition five_phones : UiSnapshot :=
  mkUiSnapshot "desk" ((λ id, (id, mkPhone id "" 0 None)) <$> ["a"; "b"; "c"; "d"; "e"]) (mkStatus "" None None None) true
    (mkUpdateSnapshot "" UaCheck "" None None) None.
Theorem fifth_phone_is_below_the_window :
  existsb (λ c, (ct_id c =? ID_UNPAIR_BASE + 4) && (600 <? b_y (ct_bounds c) + b_height (ct_bounds c)))
    (page_controls true 96 780 PagePhones TabSend five_phones "" None false PairingFailed) = true.
Proof. vm_compute. reflexivity. Qed.
