(* ===== verification/Window.v ===== *)
(** * The main window

    [flowtype-app/src/ui.rs], [ui_actions.rs], [ui_commands.rs], [ui_tray.rs]: the
    state behind the window and what each of its messages does to it and to the
    app. Painting, menus and dialogs are the system's; what they answer is an
    argument. *)

From S2P Require Import Prelude Text Protocol FileNames FileCore Disk Store Targets Coordinator Outbound Pairing Update AppState Addresses AppActions Settings Layout Pages.
Local Open Scope string_scope.
Local Open Scope list_scope.
Local Open Scope Z_scope.

(** ** State *)

(** [app/ui.rs SaveNotice] *)
Record SaveNotice := mkSaveNotice { sn_success : bool; sn_text : string }.

(** What the window shows beside its controls, in order. *)
Inductive UiEvent :=
| TrayNotification (title message : string) (warning : bool)
| MessageBox (value : string) (error : bool)
| Destroyed
| UpdateCommand (action : UpdateAction)
| QueuedFiles (paths : list path).

(** [app/ui.rs UiContext] The controls of the page and of the shell, and what the window
    remembers. [ui_ball]: the floating ball is there. *)
Record UiContext := mkUi {
  ui_page : Page;
  ui_file_tab : FileTab;
  ui_shell : list Control;
  ui_controls : list Control;
  ui_phone_ids : list string;
  ui_qr : option (Z * list bool);
  ui_cancel_batch : option string;
  ui_auto_start_checked : bool;
  ui_floating_checked : bool;
  ui_ball : bool;
  ui_notice : option SaveNotice;
  ui_last_transfer : option (string * BatchState);
  ui_visible : bool;
  ui_events : list UiEvent;
}.

(** With the language the window is shown in. *)
Record World := mkWorld { w_ui : UiContext; w_app : App; w_english : bool }.

(** What the system and the other parts of the app answer while a message is handled. *)
Record Answers := mkAnswers {
  an_dpi : Z; an_width : Z; an_height : Z;
  an_host : string; an_adapters : list Adapter; an_token : string; an_qr : string → option (Z * list bool);
  an_order : phone_map → list (string * PairedPhone);
  an_auto_start_enabled : bool; an_floating_enabled : bool; an_injector_ready : bool; an_update : UpdateSnapshot;
  an_name : string; an_renamed : result string unit; an_auto_start_saved : result string unit;
  an_floating_saved : result string unit; an_folder_saved : result string unit; an_repaired : result string unit;
  an_paired_saved : bool; an_paths : result string (list path); an_yes : bool; an_installed : bool; an_language : option bool; an_language_saved : bool;
}.

Section ui_fields.
Implicit Types u : UiContext.
Definition set_page_field p u := mkUi p (ui_file_tab u) (ui_shell u) (ui_controls u) (ui_phone_ids u) (ui_qr u) (ui_cancel_batch u)
  (ui_auto_start_checked u) (ui_floating_checked u) (ui_ball u) (ui_notice u) (ui_last_transfer u) (ui_visible u) (ui_events u).
Definition set_tab_field t u := mkUi (ui_page u) t (ui_shell u) (ui_controls u) (ui_phone_ids u) (ui_qr u) (ui_cancel_batch u)
  (ui_auto_start_checked u) (ui_floating_checked u) (ui_ball u) (ui_notice u) (ui_last_transfer u) (ui_visible u) (ui_events u).
Definition set_shell s u := mkUi (ui_page u) (ui_file_tab u) s (ui_controls u) (ui_phone_ids u) (ui_qr u) (ui_cancel_batch u)
  (ui_auto_start_checked u) (ui_floating_checked u) (ui_ball u) (ui_notice u) (ui_last_transfer u) (ui_visible u) (ui_events u).
Definition set_built controls ids qr batch u := mkUi (ui_page u) (ui_file_tab u) (ui_shell u) controls ids qr batch
  (ui_auto_start_checked u) (ui_floating_checked u) (ui_ball u) (ui_notice u) (ui_last_transfer u) (ui_visible u) (ui_events u).
Definition set_checks a f u := mkUi (ui_page u) (ui_file_tab u) (ui_shell u) (ui_controls u) (ui_phone_ids u) (ui_qr u) (ui_cancel_batch u)
  a f (ui_ball u) (ui_notice u) (ui_last_transfer u) (ui_visible u) (ui_events u).
Definition set_ball b u := mkUi (ui_page u) (ui_file_tab u) (ui_shell u) (ui_controls u) (ui_phone_ids u) (ui_qr u) (ui_cancel_batch u)
  (ui_auto_start_checked u) (ui_floating_checked u) b (ui_notice u) (ui_last_transfer u) (ui_visible u) (ui_events u).
Definition set_notice n u := mkUi (ui_page u) (ui_file_tab u) (ui_shell u) (ui_controls u) (ui_phone_ids u) (ui_qr u) (ui_cancel_batch u)
  (ui_auto_start_checked u) (ui_floating_checked u) (ui_ball u) n (ui_last_transfer u) (ui_visible u) (ui_events u).
Definition set_last_transfer t u := mkUi (ui_page u) (ui_file_tab u) (ui_shell u) (ui_controls u) (ui_phone_ids u) (ui_qr u) (ui_cancel_batch u)
  (ui_auto_start_checked u) (ui_floating_checked u) (ui_ball u) (ui_notice u) t (ui_visible u) (ui_events u).
Definition set_shown v u := mkUi (ui_page u) (ui_file_tab u) (ui_shell u) (ui_controls u) (ui_phone_ids u) (ui_qr u) (ui_cancel_batch u)
  (ui_auto_start_checked u) (ui_floating_checked u) (ui_ball u) (ui_notice u) (ui_last_transfer u) v (ui_events u).
Definition event e u := mkUi (ui_page u) (ui_file_tab u) (ui_shell u) (ui_controls u) (ui_phone_ids u) (ui_qr u) (ui_cancel_batch u)
  (ui_auto_start_checked u) (ui_floating_checked u) (ui_ball u) (ui_notice u) (ui_last_transfer u) (ui_visible u) (ui_events u ++ [e]).
End ui_fields.

Definition on_ui (f : UiContext → UiContext) (w : World) : World := mkWorld (f (w_ui w)) (w_app w) (w_english w).
Definition on_app (f : App → App) (w : World) : World := mkWorld (w_ui w) (f (w_app w)) (w_english w).

(** ** Commands *)

(** [app/ui_commands.rs UiCommand] *)
Inductive UiCommand :=
| Navigate (page : Page) | Pair | SaveSettings | ToggleAutoStart | ToggleFloating | RepairInjector | DoUpdateAction
| OpenUpdateRepository | OpenUpdateHistory | OpenLanguageMenu | ChooseFiles | ChooseFolder | CancelFileTransfer
| ChangeReceiveFolder | MinimizeWindow | CloseWindow | FileSendTab | FileReceivedTab | Exit | Unpair (index : nat).

(** [app/ui_commands.rs command_for_id] *)
Definition command_for_id (id : Z) : option UiCommand :=
  let one_of l := existsb (Z.eqb id) l in
  if one_of [ID_NAV_STATUS; ID_TRAY_OPEN] then Some (Navigate PageStatus)
  else if one_of [ID_NAV_PHONES; ID_PAIR_BACK] then Some (Navigate PagePhones)
  else if one_of [ID_NAV_SETTINGS; ID_TRAY_UPDATE] then Some (Navigate PageSettings)
  else if one_of [ID_NAV_FILES] then Some (Navigate PageFiles)
  else if one_of [ID_PAIR; ID_TRAY_PAIR] then Some Pair
  else if one_of [ID_SAVE_SETTINGS] then Some SaveSettings
  else if one_of [ID_AUTO_START] then Some ToggleAutoStart
  else if one_of [ID_SHOW_FLOATING] then Some ToggleFloating
  else if one_of [ID_REPAIR] then Some RepairInjector
  else if one_of [ID_UPDATE_ACTION] then Some DoUpdateAction
  else if one_of [ID_UPDATE_REPOSITORY] then Some OpenUpdateRepository
  else if one_of [ID_UPDATE_HISTORY] then Some OpenUpdateHistory
  else if one_of [ID_LANGUAGE_MENU] then Some OpenLanguageMenu
  else if one_of [ID_CHOOSE_FILES] then Some ChooseFiles
  else if one_of [ID_CHOOSE_FOLDER] then Some ChooseFolder
  else if one_of [ID_CANCEL_FILE_TRANSFER] then Some CancelFileTransfer
  else if one_of [ID_CHANGE_RECEIVE_FOLDER] then Some ChangeReceiveFolder
  else if one_of [ID_WINDOW_MINIMIZE] then Some MinimizeWindow
  else if one_of [ID_WINDOW_CLOSE] then Some CloseWindow
  else if one_of [ID_FILE_SEND_TAB] then Some FileSendTab
  else if one_of [ID_FILE_RECEIVED_TAB] then Some FileReceivedTab
  else if one_of [ID_TRAY_EXIT] then Some Exit
  else if (ID_UNPAIR_BASE <=? id) && (id <? ID_UNPAIR_BASE + 1000) then Some (Unpair (Z.to_nat (id - ID_UNPAIR_BASE)))
  else None.

(** ** Reading the app *)

(** [app/pairing_store.rs PairedPhoneStore::snapshot] The order in which the map iterates is
    arbitrary; the sort by name is stable. *)
Definition name_leb (a b : string * PairedPhone) : bool :=
  match String.compare (phone_name a.2) (phone_name b.2) with Gt => false | _ => true end.
Definition phones_snapshot (an : Answers) (store : PairedPhoneStore) : list (string * PairedPhone) :=
  stable_sort name_leb (an_order an (phones store)).

Section window.
Context `{CoordinatorEnv} (post_ok : bool).
Context (payload_to_vec : PairingPayload → option (list Z)) (spki_sha256 : string).
Implicit Types (an : Answers) (w : World).

(** [app/main.rs AppState::snapshot] Reading the transfer of the connected phone is a use of
    the disk. *)
Definition snapshot an (ap : App) : UiSnapshot * App :=
  let '(transfer, c) :=
    match connected_phone_id (ap_state ap) with
    | Some phone_id =>
      let '(r, c) := transfer_snapshot phone_id (ap_transfers ap) in
      (match r with Ok t => t | Err _ => None end, c)
    | None => (None, ap_transfers ap)
    end in
  (mkUiSnapshot (pc_name (ap_state ap)) (phones_snapshot an (paired_phones (ap_pairing ap))) (runtime_status (ap_state ap))
     (an_injector_ready an) (an_update an) transfer, set_transfers c ap).

Definition take_snapshot an w : UiSnapshot * World :=
  let '(snapshot, ap) := snapshot an (w_app w) in (snapshot, on_app (λ _, ap) w).

Definition uri an (ap : App) : option string := current_pairing_uri payload_to_vec spki_sha256 (an_host an) (an_adapters an) ap.

(** ** Pages *)

(** [app/ui_pages.rs UiContext::rebuild_page] *)
Definition rebuild_page an w : World :=
  let english := w_english w in
  let dpi := an_dpi an in
  let width := an_width an in
  let '(snapshot, w) := take_snapshot an w in
  let u := w_ui w in
  let w :=
    match ui_page u with
    | PageStatus => on_ui (set_built (build_status english dpi width (an_host an) snapshot) [] None None) w
    | PageFiles =>
      let '(controls, batch) := build_files english dpi width snapshot (ui_file_tab u)
                                  (Some (path_to_string (co_receive_root (ap_transfers (w_app w))))) in
      on_ui (set_built controls [] None batch) w
    | PagePhones =>
      let '(controls, ids) := build_phones english dpi width snapshot in
      on_ui (set_built controls ids None None) w
    | PageSettings =>
      on_ui (set_checks (an_auto_start_enabled an) (an_floating_enabled an))
        (on_ui (set_built (build_settings english dpi width snapshot (update_install_blocked (w_app w))) [] None None) w)
    | PagePairing =>
      let '(r, ap) := app_begin_pairing payload_to_vec spki_sha256 (an_token an) (an_host an) (an_adapters an) (w_app w) in
      let start := match r with
                   | Ok uri => match an_qr an uri with Some code => QrShown code | None => QrFailed end
                   | Err _ => PairingFailed
                   end in
      let '(controls, qr) := build_pairing english dpi width (ui_pc_name snapshot) start in
      on_ui (set_built controls [] qr None) (on_app (λ _, ap) w)
    end in
  on_ui (λ u, set_shell (refresh_shell english dpi (ui_shell u)) u) w.

(** [app/ui_actions.rs UiContext::set_page] *)
Definition set_page an (page : Page) w : World :=
  if bool_decide (ui_page (w_ui w) = page) then w
  else
    let w := if bool_decide (ui_page (w_ui w) = PagePairing) && negb (bool_decide (page = PagePairing))
             then on_app (λ ap, set_pairing (cancel_pairing (ap_pairing ap)) ap) w else w in
    rebuild_page an (on_ui (set_page_field page) w).

(** [app/ui_actions.rs UiContext::set_file_tab] *)
Definition set_file_tab an (tab : FileTab) w : World :=
  if bool_decide (ui_file_tab (w_ui w) = tab) then w else rebuild_page an (on_ui (set_tab_field tab) w).

(** [app/ui_actions.rs UiContext::show_save_notice] *)
Definition show_save_notice (success : bool) (text : string) : World → World :=
  on_ui (set_notice (Some (mkSaveNotice success text))).

(** ** Files *)

Definition could_not_send (english : bool) (error : string) : string :=
  AppState.tr english "无法发送文件" "Could not send files" +:+ ": " +:+ error.
Definition requested (english : bool) : string := AppState.tr english "已发送文件请求" "File transfer requested".

(** [app/ui_actions.rs UiContext::choose_and_send_files] *)
Definition choose_and_send_files an w : World :=
  let english := w_english w in
  let result :=
    paths ← an_paths an;
    if bool_decide (paths = []) then Ok None
    else _ ← queue_files_to_connected_phone paths (w_app w); Ok (Some paths) in
  match result with
  | Ok queued =>
    let w := match queued with Some paths => on_ui (event (QueuedFiles paths)) w | None => w end in
    show_save_notice true (requested english) w
  | Err error => if bool_decide (error = "canceled") then w else show_save_notice false (could_not_send english error) w
  end.

(** [app/ui_actions.rs UiContext::send_dropped_paths] *)
Definition send_dropped_paths (paths : list path) w : World :=
  let english := w_english w in
  if negb (bool_decide (ui_page (w_ui w) = PageFiles))
  then show_save_notice false (AppState.tr english "请先打开文件传输页面" "Open File transfer first") w
  else if bool_decide (paths = []) then w
  else match queue_files_to_connected_phone paths (w_app w) with
       | Ok _ => show_save_notice true (requested english) (on_ui (event (QueuedFiles paths)) w)
       | Err error => show_save_notice false (could_not_send english error) w
       end.

Definition update_files an w : World :=
  let '(snapshot, w) := take_snapshot an w in
  on_ui (λ u, let '(controls, batch) := update_file_controls (w_english w) (ui_file_tab u) (ui_file_transfer snapshot) (ui_controls u) in
              set_built controls (ui_phone_ids u) (ui_qr u) batch u) w.

(** [app/ui_actions.rs:75-84 UiContext::cancel_file_transfer] *)
Definition ui_cancel_file_transfer an w : World :=
  match ui_cancel_batch (w_ui w) with
  | None => w
  | Some batch_id =>
    let '(r, ap) := cancel_file_transfer post_ok batch_id (w_app w) in
    let w := on_app (λ _, ap) w in
    let w := match r with
             | Ok _ => show_save_notice true (AppState.tr (w_english w) "文件传输已取消" "File transfer canceled") w
             | Err error => show_save_notice false error w
             end in
    update_files an w
  end.

(** [app/ui_actions.rs UiContext::change_receive_folder] *)
Definition change_receive_folder an w : World :=
  let english := w_english w in
  let result :=
    paths ← an_paths an;
    p ← ok_or (head paths) "canceled";
    _ ← an_folder_saved an;
    Ok p in
  match result with
  | Ok p =>
    let w := on_app (λ ap, (set_file_receive_root (an_folder_saved an) p ap).2) w in
    let root := path_to_string (co_receive_root (ap_transfers (w_app w))) in
    show_save_notice true (AppState.tr english "接收位置已更新" "Receive folder updated")
      (on_ui (λ u, set_built (set_control_text SFileReceiveRoot root (ui_controls u)) (ui_phone_ids u) (ui_qr u) (ui_cancel_batch u) u) w)
  | Err error =>
    if bool_decide (error = "canceled") then w
    else show_save_notice false (AppState.tr english "无法更改接收位置" "Could not change receive folder" +:+ ": " +:+ error) w
  end.

(** ** Settings *)

(** [app/ui_actions.rs UiContext::apply_language] *)
Definition apply_language an (new_english : bool) w : World :=
  if negb (an_language_saved an)
  then on_ui (event (MessageBox (AppState.tr (w_english w) "无法保存语言设置" "Could not save the language setting") true)) w
  else
    let w := mkWorld (w_ui w) (language_changed new_english post_ok (w_app w)) new_english in
    rebuild_page an w.

(** [app/ui_actions.rs UiContext::show_language_menu] *)
Definition show_language_menu an w : World :=
  match an_language an with Some new_english => apply_language an new_english w | None => w end.

(** [app/ui_actions.rs UiContext::apply_floating_visibility] *)
Definition apply_floating_visibility w : World := on_ui (λ u, set_ball (ui_floating_checked u) u) w.

(** [app/ui_actions.rs UiContext::save_settings] *)
Definition save_settings an w : World :=
  let english := w_english w in
  let '(renamed, ap) := rename_computer post_ok (an_renamed an) (an_name an) (w_app w) in
  let w := on_app (λ _, ap) w in
  let result := _ ← renamed; _ ← an_auto_start_saved an; an_floating_saved an in
  let w := if is_ok result then apply_floating_visibility w else w in
  let w := rebuild_page an w in
  if is_ok result then show_save_notice true (AppState.tr english "设置已保存" "Settings saved") w
  else show_save_notice false (AppState.tr english "设置保存失败，请检查电脑名称" "Could not save settings. Check the computer name.") w.

(** [app/ui_actions.rs:287-307 UiContext::repair_injector] *)
Definition ui_repair_injector an w : World :=
  let english := w_english w in
  let '(r, ap) := repair_injector english post_ok (an_repaired an) (w_app w) in
  let w := on_app (λ _, ap) w in
  let w := on_ui (event (if is_ok r then MessageBox (AppState.tr english "输入服务已恢复" "Input service repaired") false
                         else MessageBox (AppState.tr english "无法启动输入服务，请重新运行安装程序"
                                "Could not start the input service. Run the installer again.") true)) w in
  rebuild_page an w.

(** [app/ui_actions.rs UiContext::confirm_unpair] *)
Definition confirm_unpair an (index : nat) w : World :=
  match ui_phone_ids (w_ui w) !! index with
  | None => w
  | Some phone_id =>
    let '(_, w) := take_snapshot an w in
    if an_yes an
    then rebuild_page an (on_app (λ ap, (unpair_phone post_ok (an_paired_saved an) phone_id ap).2) w)
    else w
  end.

(** [app/ui_actions.rs UiContext::refresh_update_controls] *)
Definition ui_refresh_update_controls an w : World :=
  if negb (bool_decide (ui_page (w_ui w) = PageSettings)) then w
  else
    let '(snapshot, w) := take_snapshot an w in
    on_ui (λ u, set_built (refresh_update_controls (w_english w) (ui_update snapshot) (update_install_blocked (w_app w)) (ui_controls u))
                  (ui_phone_ids u) (ui_qr u) (ui_cancel_batch u) u) w.

(** [app/ui_actions.rs UiContext::handle_update_action] The updater's part is an event;
    when an installer was started the window is destroyed. *)
Definition handle_update_action an w : World :=
  let '(snapshot, w) := take_snapshot an w in
  let action := us_action (ui_update snapshot) in
  if bool_decide (action = UaInstall) then
    if update_install_blocked (w_app w)
    then show_save_notice false (AppState.tr (w_english w) "请先完成当前输入，再安装更新" "Finish the current input before installing") w
    else
      let w := on_ui (event (UpdateCommand UaInstall)) w in
      if an_installed an then on_ui (event Destroyed) w else w
  else on_ui (event (UpdateCommand action)) w.

(** ** The state changed *)

(** [app/ui_tray.rs UiContext::notify_transfer_transition] *)
Definition notify_transfer_transition (transfer : option FileTransferSnapshot) w : World :=
  let english := w_english w in
  let next := (λ value, (fs_batch_id value, fs_state value)) <$> transfer in
  let w :=
    if bool_decide (next = ui_last_transfer (w_ui w)) then w
    else match fs_state <$> transfer with
         | Some Completed =>
           on_ui (event (TrayNotification (AppState.tr english "文件传输完成" "File transfer complete")
             (AppState.tr english "文件已安全传输完成。" "The files were transferred securely.") false)) w
         | Some PartialFailure =>
           on_ui (event (TrayNotification (AppState.tr english "部分文件传输失败" "Some files were not transferred")
             (AppState.tr english "打开说写查看传输状态。" "Open FlowType to review the transfer.") true)) w
         | _ => w
         end in
  on_ui (set_last_transfer next) w.

Definition set_texts (texts : list (Slot * string)) (controls : list Control) : list Control :=
  foldl (λ controls '(slot, value), set_control_text slot value controls) controls texts.

(** [app/ui_actions.rs:348-418 UiContext::update_from_state] The texts of the page. *)
Definition page_texts (english : bool) (host : string) (page : Page) (snapshot : UiSnapshot) : list (Slot * string) :=
  let tr := AppState.tr english in
  let status := ui_status snapshot in
  match page with
  | PageStatus =>
    [(SStatusSummary, summary status); (SStatusInput, summary status);
     (SStatusPhone, default (tr "尚未连接" "Not connected") (connected_phone status));
     (SStatusTarget, default (tr "尚未选择" "Not selected") (target_shown status));
     (SStatusAddress, host +:+ ":" +:+ of_bytes (decimal PORT));
     (SStatusError, default "" (last_error status))]
  | PagePhones => imap (λ index entry, (SPhoneStatus index, phone_status english status entry.2)) (ui_phones snapshot)
  | PageFiles => [(SFileDestination, default (tr "手机未连接" "Phone is not connected") (connected_phone status))]
  | PageSettings =>
    [(SServiceStatus, if ui_injector_ready snapshot then tr "正常运行" "Running" else tr "输入服务不可用" "Input unavailable")]
  | PagePairing => []
  end.

(** [app/ui_actions.rs UiContext::update_from_state] The number of rows is the number of
    status controls. *)
Definition update_from_state an w : World :=
  let english := w_english w in
  if bool_decide (ui_page (w_ui w) = PagePairing) && bool_decide (uri an (w_app w) = None)
  then rebuild_page an (on_ui (set_page_field PageStatus) w)
  else
    let '(snapshot, w) := take_snapshot an w in
    let w := notify_transfer_transition (ui_file_transfer snapshot) w in
    let page := ui_page (w_ui w) in
    if bool_decide (page = PagePhones) && negb (bool_decide (length (ui_phone_ids (w_ui w)) = length (ui_phones snapshot)))
    then rebuild_page an w
    else
      let w := on_ui (λ u, set_built (set_texts (page_texts english (an_host an) page snapshot) (ui_controls u))
                             (ui_phone_ids u) (ui_qr u) (ui_cancel_batch u) u) w in
      match page with
      | PageFiles =>
        on_ui (λ u, let '(controls, batch) := update_file_controls english (ui_file_tab u) (ui_file_transfer snapshot) (ui_controls u) in
                    set_built controls (ui_phone_ids u) (ui_qr u) batch u) w
      | PageSettings => ui_refresh_update_controls an w
      | _ => w
      end.

(** ** Messages *)

(** [app/main.rs AppState::set_ui_hwnd] *)
Definition set_ui_hwnd (hwnd : Z) (s : AppState) : AppState :=
  mkAppState (pc_id s) (pc_name s) (active_connection s) (online_connections s) (switch_channels s) (pending_switch s)
    (runtime_status s) hwnd (ui_update_pending s) (ui_posted s) (next_connection_id s).

Inductive Message :=
| WmCreate | WmCommand (id : Z) | WmAppState | WmAppUpdate | WmNoticeTimer | WmAppShow | WmFloatingHide
| WmTrayDoubleClick | WmTrayMenu (command : Z) | WmDropFiles (paths : list path) | WmSize (minimized : bool)
| WmExitSizeMove | WmDpiChanged | WmClose | WmDestroy.

(** [app/ui.rs show_window] *)
Definition show_window (w : World) : World := on_ui (set_shown true) w.

(** [app/ui_pages.rs:80-201 UiContext::reposition_responsive_controls] Of the page and of the
    shell. *)
Definition reposition_controls an w : World :=
  on_ui (λ u,
    let place := reposition (an_dpi an) (an_width an) (an_height an) (ui_page u) (ui_file_tab u) (length (ui_phone_ids u)) in
    set_shell (place <$> ui_shell u) (set_built (place <$> ui_controls u) (ui_phone_ids u) (ui_qr u) (ui_cancel_batch u) u)) w.

(** [app/ui.rs:635-642 window_proc] *)
Definition close_window w : World :=
  let w := if bool_decide (ui_page (w_ui w) = PagePairing)
           then on_app (λ ap, set_pairing (cancel_pairing (ap_pairing ap)) ap) w else w in
  on_ui (set_shown false) w.

(** [app/ui.rs:463-510 window_proc] *)
Definition do_command an (command : UiCommand) w : World :=
  match command with
  | Navigate page =>
    let w := set_page an page w in
    if bool_decide (page = PageStatus) then show_window w else w
  | Pair => show_window (set_page an PagePairing w)
  | SaveSettings => save_settings an w
  | ToggleAutoStart => on_ui (λ u, set_checks (negb (ui_auto_start_checked u)) (ui_floating_checked u) u) w
  | ToggleFloating => on_ui (λ u, set_checks (ui_auto_start_checked u) (negb (ui_floating_checked u)) u) w
  | RepairInjector => ui_repair_injector an w
  | DoUpdateAction => handle_update_action an w
  | OpenUpdateRepository | OpenUpdateHistory => w
  | OpenLanguageMenu => show_language_menu an w
  | ChooseFiles | ChooseFolder => choose_and_send_files an w
  | CancelFileTransfer => ui_cancel_file_transfer an w
  | ChangeReceiveFolder => change_receive_folder an w
  | MinimizeWindow => w
  | CloseWindow => close_window w
  | FileSendTab => set_file_tab an TabSend w
  | FileReceivedTab => set_file_tab an TabReceived w
  | Exit => on_ui (event Destroyed) w
  | Unpair index => confirm_unpair an index w
  end.

Definition handle_command an (id : Z) w : World :=
  match command_for_id id with Some command => do_command an command w | None => w end.

(** [app/ui.rs window_proc] *)
Definition window_proc an (message : Message) w : World :=
  match message with
  | WmCreate =>
    let w := on_ui (set_shell (create_shell (w_english w) (an_dpi an) (an_width an))) w in
    let w := rebuild_page an w in
    if ui_floating_checked (w_ui w) then on_ui (set_ball true) w else w
  | WmCommand id => handle_command an id w
  | WmAppState => update_from_state an (on_app (on_state begin_ui_update) w)
  | WmAppUpdate => ui_refresh_update_controls an w
  | WmNoticeTimer => on_ui (set_notice None) w
  | WmAppShow | WmTrayDoubleClick => show_window (set_page an PageStatus w)
  | WmFloatingHide =>
    let w := apply_floating_visibility (on_ui (λ u, set_checks (ui_auto_start_checked u) false u) w) in
    if bool_decide (ui_page (w_ui w) = PageSettings) then rebuild_page an w else w
  | WmTrayMenu command => if command =? 0 then w else handle_command an command w
  | WmDropFiles paths => send_dropped_paths paths w
  | WmSize minimized => if minimized then w else reposition_controls an w
  | WmExitSizeMove => reposition_controls an w
  | WmDpiChanged =>
    rebuild_page an (on_ui (λ u, set_shell (refresh_shell (w_english w) (an_dpi an) (ui_shell u)) u) w)
  | WmClose => close_window w
  | WmDestroy => on_app (on_state (set_ui_hwnd 0)) (on_ui (event Destroyed) (on_ui (set_ball false) w))
  end.
End window.
