(* ===== verification/WindowSafety.v ===== *)
(** * What the window shows is what it acts on

    Whatever messages the window gets and whatever the rest of the app does in
    between, a pairing code that can be used is the one on show, unless a phone that could
    not be saved gave it back, and the button of a row unpairs the phone the row names. *)

From S2P Require Import Prelude Text Protocol FileNames FileCore Disk Store Targets Coordinator Outbound Pairing Update AppState Addresses AppActions Settings Layout Pages PagesLayout PagesResize Window.
Local Open Scope string_scope.
Local Open Scope list_scope.
Local Open Scope Z_scope.

(** ** Controls by their fields *)

Section slots.
Context {A : Type} (g : Control → A).
Implicit Types (cs : list Control).

(** What the control of a field shows. *)
Definition slot_get (slot : Slot) cs : option A := head (g <$> filter (λ c, ct_slot c = Some slot) cs).

Lemma slot_get_cons slot c cs :
  slot_get slot (c :: cs) = if bool_decide (ct_slot c = Some slot) then Some (g c) else slot_get slot cs.
Proof. unfold slot_get. case_bool_decide; [by rewrite filter_cons_True | by rewrite filter_cons_False]. Qed.

Lemma slot_get_map slot (f : Control → Control) cs :
  (∀ c, ct_slot (f c) = ct_slot c) → (∀ c, ct_slot c = Some slot → g (f c) = g c) →
  slot_get slot (f <$> cs) = slot_get slot cs.
Proof.
  intros Hs Hg. induction cs as [|c cs IH]; [done |]. rewrite fmap_cons, !slot_get_cons, Hs, IH.
  case_bool_decide; [by rewrite Hg | done].
Qed.

Definition keeps_slot (f : Control → Control) : Prop := ∀ c, ct_slot (f c) = ct_slot c.

Lemma slot_get_at slot slot' (f : Control → Control) cs :
  keeps_slot f → (slot = slot' → ∀ c, g (f c) = g c) →
  slot_get slot (at_slot slot' f cs) = slot_get slot cs.
Proof.
  intros Hs Hg. apply slot_get_map; [intros c; by case_bool_decide |].
  intros c Hc. case_bool_decide; [| done]. apply Hg. congruence.
Qed.

End slots.

Lemma keeps_slot_text value : keeps_slot (set_text value).
Proof. done. Qed.
Lemma keeps_slot_visible b : keeps_slot (set_visible b).
Proof. done. Qed.
Lemma keeps_slot_position p : keeps_slot (set_position p).
Proof. done. Qed.
#[export] Hint Resolve keeps_slot_text keeps_slot_visible keeps_slot_position : flow.

Notation shown_text := (slot_get ct_text).

Lemma texts_other slot english host page snapshot cs :
  (∀ value, (slot, value) ∉ page_texts english host page snapshot) →
  shown_text slot (set_texts (page_texts english host page snapshot) cs) = shown_text slot cs.
Proof.
  unfold set_texts. generalize (page_texts english host page snapshot). intros texts. revert cs.
  induction texts as [|[slot' value] texts IH]; intros cs Hno; [done |]. cbn [foldl].
  rewrite IH by (intros v Hv; apply (Hno v), elem_of_cons; by right).
  unfold set_control_text. apply slot_get_at; [done |]. intros ->. exfalso. apply (Hno value), elem_of_cons. by left.
Qed.

Lemma update_controls_text english slot snapshot blocked cs :
  slot ≠ SUpdateStatus → slot ≠ SUpdateAction →
  shown_text slot (refresh_update_controls english snapshot blocked cs) = shown_text slot cs.
Proof.
  intros H1 H2. unfold refresh_update_controls, set_control_visible, set_control_text.
  destruct (us_progress snapshot) as [[transferred total]|];
    by rewrite !slot_get_at by (done || by intros).
Qed.

Lemma reposition_shown {A} (g : Control → A) slot dpi w h page tab count cs :
  (∀ b c, g (set_bounds b c) = g c) →
  slot_get g slot (reposition dpi w h page tab count <$> cs) = slot_get g slot cs.
Proof.
  intros Hg. apply slot_get_map; [by intros; apply reposition_slot |]. intros c _.
  unfold reposition, position_control. repeat case_match; by rewrite ?Hg.
Qed.

Lemma file_controls_text english tab transfer i cs :
  shown_text (SPhoneName i) (update_file_controls english tab transfer cs).1 = shown_text (SPhoneName i) cs.
Proof.
  unfold update_file_controls, set_control_visible, set_control_text. cbn [fst].
  by rewrite !slot_get_at by (done || by intros).
Qed.

Lemma phone_texts_other english host page snapshot i cs :
  shown_text (SPhoneName i) (set_texts (page_texts english host page snapshot) cs) = shown_text (SPhoneName i) cs.
Proof.
  apply texts_other. intros value Hin. destruct page; cbn in Hin; try set_solver.
  apply list_elem_of_lookup in Hin as [k Hk]. rewrite list_lookup_imap in Hk.
  by destruct (ui_phones snapshot !! k); inversion Hk.
Qed.

(** The rows that are built name the phones, in their order. *)
Lemma slot_get_app {A} (g : Control → A) slot cs cs' :
  slot_get g slot (cs ++ cs') = match slot_get g slot cs with Some a => Some a | None => slot_get g slot cs' end.
Proof.
  induction cs as [|c cs IH]; [done |]. rewrite <- app_comm_cons, !slot_get_cons, IH. by case_bool_decide.
Qed.

Lemma row_names english dpi status layout phones from i :
  (length phones <= length (ph_rows layout) - from)%nat →
  shown_text (SPhoneName i)
    (concat (imap (λ index (entry : string * PairedPhone), build_phone_row english dpi status layout (from + index) entry.2) phones))
  = if bool_decide (from <= i)%nat then (λ entry, phone_name entry.2) <$> phones !! (i - from)%nat else None.
Proof.
  revert from. induction phones as [|[id phone] phones IH]; intros from Hlen; [by case_bool_decide |].
  cbn [length] in Hlen. rewrite imap_cons, concat_cons, slot_get_app, Nat.add_0_r.
  rewrite (imap_ext _ (λ index (entry : string * PairedPhone), build_phone_row english dpi status layout (S from + index) entry.2))
    by (intros index entry ?; cbn; by rewrite Nat.add_succ_r).
  rewrite IH by lia. unfold build_phone_row.
  destruct (lookup_lt_is_Some_2 (ph_rows layout) from) as [row ->]; [lia |].
  rewrite slot_get_cons. cbn [ct_slot kept ct_text].
  destruct (decide (from = i)) as [-> | Hne].
  - rewrite !bool_decide_true by done. by rewrite Nat.sub_diag.
  - rewrite bool_decide_false by congruence. rewrite !slot_get_cons. cbn [ct_slot kept within muted_text owner_button text control].
    rewrite !bool_decide_false by done. cbn. do 2 case_bool_decide; [| lia | lia | done].
    by replace (i - from)%nat with (S (i - S from)) by lia.
Qed.

Lemma build_phones_names english dpi width snapshot i :
  shown_text (SPhoneName i) (build_phones english dpi width snapshot).1
  = (λ entry, phone_name entry.2) <$> ui_phones snapshot !! i.
Proof.
  unfold build_phones. cbn [fst]. rewrite !slot_get_app.
  assert (∀ l, Forall (λ c, ct_slot c = None) l → shown_text (SPhoneName i) l = None) as Hnone.
  { induction 1 as [|c l Hc _ IH]; [done |]. rewrite slot_get_cons, Hc. by rewrite bool_decide_false. }
  rewrite (Hnone [_; _; _]) by repeat constructor.
  rewrite (Hnone (if bool_decide (ui_phones snapshot = []) then _ else _)) by (case_bool_decide; repeat constructor).
  rewrite (row_names english dpi (ui_status snapshot) _ (ui_phones snapshot) 0 i).
  - rewrite bool_decide_true by lia. by rewrite Nat.sub_0_r.
  - unfold PhonesLayout_new. cbn [ph_rows]. rewrite length_fmap, length_seq. lia.
Qed.

(** ** What a message leaves as it is *)

Section window_safety.
Context `{CoordinatorEnv} (post_ok : bool).
Context (payload_to_vec : PairingPayload → option (list Z)) (spki_sha256 : string).
(** The QR code of a text, and which phone was ever paired under which name. *)
Context (qr_code_of : string → option (Z * list bool)) (named : string → string → Prop).
(** JSON can be written for every pairing code. *)
Hypothesis payload_written : ∀ payload, is_Some (payload_to_vec payload).

Definition phones_named (m : phone_map) : Prop := ∀ id phone, m !! id = Some phone → named id (phone_name phone).
Notation app_phones ap := (phones (paired_phones (ap_pairing ap))).
Notation app_token ap := (pairing_token (ap_pairing ap)).

(** A code can be taken back or used up, but only [begin_pairing] makes one. A code that a
    phone used is put back when the phone cannot be saved; that is a step of its own below. *)
Record app_goes_on (ap ap' : App) : Prop := {
  go_token : app_token ap' = app_token ap ∨ app_token ap' = None;
  go_pc_id : pc_id (ap_state ap') = pc_id (ap_state ap);
  go_named : phones_named (app_phones ap) → phones_named (app_phones ap');
}.
#[export] Instance app_goes_on_pre : PreOrder app_goes_on.
Proof.
  split; [by split; [left | |] |]. intros a b c [T1 P1 N1] [T2 P2 N2]. split; [| congruence | auto].
  destruct T2 as [-> | ->]; auto.
Qed.

(** The page, its rows and the code on it are the same. *)
Record same_page (w w' : World) : Prop := {
  sp_app : app_goes_on (w_app w) (w_app w');
  sp_page : ui_page (w_ui w') = ui_page (w_ui w);
  sp_qr : ui_qr (w_ui w') = ui_qr (w_ui w);
  sp_ids : ui_phone_ids (w_ui w') = ui_phone_ids (w_ui w);
  sp_names i : shown_text (SPhoneName i) (ui_controls (w_ui w')) = shown_text (SPhoneName i) (ui_controls (w_ui w));
}.
#[export] Instance same_page_pre : PreOrder same_page.
Proof.
  split; [by split |]. intros a b c [] []. split; [etrans; eassumption | congruence.. |].
  intros i. etrans; [eauto | eauto].
Qed.

Lemma same_page_app f w : app_goes_on (w_app w) (f (w_app w)) → same_page w (on_app f w).
Proof. by split. Qed.
Lemma goes_on_state f ap : pc_id (f (ap_state ap)) = pc_id (ap_state ap) → app_goes_on ap (on_state f ap).
Proof. split; [by left | done | done]. Qed.
Lemma goes_on_transfers c ap : app_goes_on ap (set_transfers c ap).
Proof. split; [by left | done | done]. Qed.
Lemma goes_on_cancel ap : app_goes_on ap (set_pairing (cancel_pairing (ap_pairing ap)) ap).
Proof. split; [by right | done | done]. Qed.
Lemma same_page_ui f w :
  ui_page (f (w_ui w)) = ui_page (w_ui w) → ui_qr (f (w_ui w)) = ui_qr (w_ui w) →
  ui_phone_ids (f (w_ui w)) = ui_phone_ids (w_ui w) →
  (∀ i, shown_text (SPhoneName i) (ui_controls (f (w_ui w))) = shown_text (SPhoneName i) (ui_controls (w_ui w))) →
  same_page w (on_ui f w).
Proof. by split. Qed.

Lemma pc_id_notify s : pc_id (notify_ui post_ok s) = pc_id s.
Proof. unfold notify_ui. by repeat case_match. Qed.

Hint Resolve goes_on_transfers goes_on_cancel : core.

Lemma take_snapshot_same an w : same_page w (take_snapshot an w).2 ∧ w_english (take_snapshot an w).2 = w_english w
  ∧ w_ui (take_snapshot an w).2 = w_ui w.
Proof.
  unfold take_snapshot, snapshot. repeat case_match; simplify_eq/=; (split; [apply same_page_app; auto | done]).
Qed.

(** ** What holds of the window *)

Section held.
(** The codes that were put back after a phone had used them. *)
Context (returned : list string).

(** [shows_code]: a code that can be used is the one on show, or was put back. *)
Definition shows_code (w : World) : Prop :=
  ∀ token, app_token (w_app w) = Some token → token ∉ returned →
  ui_page (w_ui w) = PagePairing ∧
  ∃ pc_name host adapters uri,
    pairing_uri payload_to_vec base64_url (pc_id (ap_state (w_app w))) spki_sha256 pc_name host token adapters = Ok uri ∧
    ui_qr (w_ui w) = qr_code_of uri.

(** [names_rows]: a row shows a name of the phone its button is for. *)
Definition names_rows (w : World) : Prop :=
  ui_page (w_ui w) = PagePhones →
  ∀ i name, shown_text (SPhoneName i) (ui_controls (w_ui w)) = Some name →
  ∃ id, ui_phone_ids (w_ui w) !! i = Some id ∧ named id name.

Record truthful (w : World) : Prop := {
  tr_code : shows_code w;
  tr_named : phones_named (app_phones (w_app w));
  tr_rows : names_rows w;
}.

(** Enough to build a page. *)
Definition can_build (w : World) : Prop :=
  (∀ token, app_token (w_app w) = Some token → token ∉ returned → ui_page (w_ui w) = PagePairing) ∧ phones_named (app_phones (w_app w)).

Lemma truthful_same w w' : same_page w w' → truthful w → truthful w'.
Proof.
  intros [[T P N] Hpage Hqr Hids Hnames] [Hcode Hn Hrows]. split.
  - intros token Ht Hr. destruct T as [T | T]; rewrite T in Ht; [| discriminate].
    destruct (Hcode _ Ht Hr) as (? & pc & host & adapters & uri & ? & ?). split; [congruence |].
    exists pc, host, adapters, uri. rewrite P, Hqr. auto.
  - auto.
  - intros Hp i name. rewrite Hpage in Hp. rewrite Hnames, Hids. by apply Hrows.
Qed.

Lemma truthful_can_build w : truthful w → can_build w.
Proof. intros [Hcode Hn _]. split; [| done]. intros token Ht Hr. by apply (Hcode token). Qed.

Lemma can_build_same w w' : same_page w w' → can_build w → can_build w'.
Proof.
  intros [[T P N] Hpage _ _ _] [Hcode Hn]. split; [| auto].
  intros token Ht Hr. rewrite Hpage. destruct T as [T | T]; rewrite T in Ht; [eauto | discriminate].
Qed.

(** Answers that are the system's: QR codes are of the text, and a map is read in some
    order. *)
Definition answers_ok (an : Answers) : Prop :=
  an_qr an = qr_code_of ∧ ∀ m, an_order an m ≡ₚ map_to_list m.

Lemma phones_shown an w entry :
  answers_ok an → entry ∈ ui_phones (take_snapshot an w).1 → app_phones (w_app w) !! entry.1 = Some entry.2.
Proof.
  intros [_ Horder]. unfold take_snapshot, snapshot. destruct entry as [id phone].
  assert (ui_phones (mkUiSnapshot "" (phones_snapshot an (paired_phones (ap_pairing (w_app w)))) (runtime_status (ap_state (w_app w)))
     (an_injector_ready an) (an_update an) None) = phones_snapshot an (paired_phones (ap_pairing (w_app w)))) as _ by done.
  repeat case_match; simplify_eq/=; unfold phones_snapshot;
    rewrite elem_of_stable_sort, (Horder _), elem_of_map_to_list; done.
Qed.

Lemma built_truthful controls ids qr batch w :
  can_build w → ui_page (w_ui w) ≠ PagePairing →
  (ui_page (w_ui w) = PagePhones → ∀ i name, shown_text (SPhoneName i) controls = Some name →
     ∃ id, ids !! i = Some id ∧ named id name) →
  truthful (on_ui (set_built controls ids qr batch) w).
Proof. intros [Hcode Hn] Hpage Hrows. split; [by intros token Ht Hr%Hcode | done | done]. Qed.

Lemma begin_pairing_truthful an controls ids batch w code :
  answers_ok an → phones_named (app_phones (w_app w)) → ui_page (w_ui w) = PagePairing →
  let '(r, ap) := app_begin_pairing payload_to_vec spki_sha256 (an_token an) (an_host an) (an_adapters an) (w_app w) in
  (∀ uri, r = Ok uri → code = qr_code_of uri) →
  truthful (on_ui (set_built controls ids code batch) (on_app (λ _, ap) w)).
Proof.
  intros Han Hn Hpage. unfold app_begin_pairing.
  destruct (pairing_uri _ _ _ _ _ _ _ _) as [uri | e] eqn:Euri.
  - intros Hcode. split; [| done | by intros ?; cbn in *; congruence].
    intros token [= <-] _. split; [done |]. eexists _, _, _, uri. split; [exact Euri | by apply Hcode].
  - exfalso. unfold pairing_uri in Euri.
    match type of Euri with context [payload_to_vec ?p] => destruct (payload_written p) as [bytes Hb] end.
    by rewrite Hb in Euri.
Qed.

(** A page that is built is truthful. *)
Lemma rebuild_truthful an w : answers_ok an → can_build w → truthful (rebuild_page payload_to_vec spki_sha256 an w).
Proof.
  intros Han Hw. unfold rebuild_page.
  pose proof (take_snapshot_same an w) as (Hsame & _ & Hui). pose proof (λ entry, phones_shown an w entry Han) as Hshown.
  destruct (take_snapshot an w) as [snapshot w1] eqn:E. cbn [fst snd] in *.
  assert (can_build w1) as Hw1 by (by eapply can_build_same).
  assert (∀ w2, truthful w2 → truthful (on_ui (λ u, set_shell (refresh_shell (w_english w) (an_dpi an) (ui_shell u)) u) w2))
    as Hshell by (intros w2; by apply truthful_same, same_page_ui).
  apply Hshell. destruct (ui_page (w_ui w1)) eqn:Hpage.
  - apply built_truthful; [done | by rewrite Hpage.. ].
  - destruct (build_files _ _ _ _ _ _) as [controls batch]. apply built_truthful; [done | by rewrite Hpage.. ].
  - pose proof (build_phones_names (w_english w) (an_dpi an) (an_width an) snapshot) as Hnames.
    destruct (build_phones _ _ _ _) as [controls ids] eqn:Eb. cbn [fst] in Hnames.
    apply built_truthful; [done | by rewrite Hpage |]. intros _ i name. rewrite Hnames.
    intros ([id phone] & Hi & Hname)%fmap_Some. exists id. split.
    + unfold build_phones in Eb. injection Eb as _ <-. by rewrite list_lookup_fmap, Hi.
    + subst name. apply (proj2 Hw). apply (Hshown (id, phone)). by eapply list_elem_of_lookup_2.
  - apply (truthful_same (on_ui (set_built (build_settings (w_english w) (an_dpi an) (an_width an) snapshot
      (update_install_blocked (w_app w1))) [] None None) w1)); [by apply same_page_ui |].
    apply built_truthful; [done | by rewrite Hpage.. ].
  - pose proof (begin_pairing_truthful an) as Hbegin.
    destruct (app_begin_pairing _ _ _ _ _ _) as [r ap] eqn:Eb.
    destruct (build_pairing _ _ _ _ _) as [controls qr] eqn:Ep.
    specialize (Hbegin controls [] None w1 qr Han (proj2 Hw1) Hpage). rewrite Eb in Hbegin. apply Hbegin.
    intros uri ->. destruct Han as [Hqr _]. rewrite Hqr in Ep. unfold build_pairing in Ep. destruct (qr_code_of uri); by injection Ep as _ <-.
Qed.

(** ** The messages *)

Notation rebuild_page := (rebuild_page payload_to_vec spki_sha256).
Notation set_page := (set_page payload_to_vec spki_sha256).

Lemma rebuild_same an w w' : answers_ok an → same_page w w' → truthful w → truthful (rebuild_page an w').
Proof. intros Han Hs Hw. apply rebuild_truthful; [done |]. eapply can_build_same, truthful_can_build; done. Qed.

Lemma set_page_truthful an page w : answers_ok an → truthful w → truthful (set_page an page w).
Proof.
  intros Han Hw. unfold Window.set_page. case_bool_decide as Hp; [done |].
  apply rebuild_truthful; [done |]. destruct (truthful_can_build w Hw) as [Hcode Hn].
  destruct (bool_decide (ui_page (w_ui w) = PagePairing)) eqn:E1, (bool_decide (page = PagePairing)) eqn:E2; cbn [andb negb];
    (split; [intros token Ht Hr; cbn in Ht |- * | done]).
  - apply bool_decide_eq_true in E1, E2. congruence.
  - discriminate.
  - by apply bool_decide_eq_true in E2.
  - apply bool_decide_eq_false in E1. by apply Hcode in Hr.
Qed.

Lemma texts_same english host page snapshot w :
  same_page w (on_ui (λ u, set_built (set_texts (page_texts english host page snapshot) (ui_controls u))
                             (ui_phone_ids u) (ui_qr u) (ui_cancel_batch u) u) w).
Proof. apply same_page_ui; [done.. |]. intros i. apply phone_texts_other. Qed.

Lemma file_controls_same english transfer w :
  same_page w (on_ui (λ u, let '(controls, batch) := update_file_controls english (ui_file_tab u) transfer (ui_controls u) in
                    set_built controls (ui_phone_ids u) (ui_qr u) batch u) w).
Proof.
  pose proof (file_controls_text english (ui_file_tab (w_ui w)) transfer) as Ht.
  apply same_page_ui; destruct (update_file_controls _ _ _ _) as [controls batch] eqn:E; try done.
  intros i. specialize (Ht i (ui_controls (w_ui w))). by rewrite E in Ht.
Qed.

Lemma notify_transfer_same transfer w : same_page w (notify_transfer_transition transfer w).
Proof. unfold notify_transfer_transition. repeat case_match; by split. Qed.

Lemma snapshot_same an w : same_page w (take_snapshot an w).2.
Proof. apply take_snapshot_same. Qed.

Lemma update_controls_same an w : same_page w (ui_refresh_update_controls an w).
Proof.
  unfold ui_refresh_update_controls. case_bool_decide; [| done]. cbn [negb].
  pose proof (snapshot_same an w) as Hs. destruct (take_snapshot an w) as [snapshot w1]. cbn in Hs.
  etrans; [exact Hs |]. apply same_page_ui; [done.. |]. intros i. by apply update_controls_text.
Qed.

Lemma reposition_same an w : same_page w (reposition_controls an w).
Proof. unfold reposition_controls. apply same_page_ui; [done.. |]. intros i. by apply reposition_shown. Qed.

Lemma notice_same success value w : same_page w (show_save_notice success value w).
Proof. by apply same_page_ui. Qed.

Lemma event_same e w : same_page w (on_ui (event e) w).
Proof. by apply same_page_ui. Qed.

Lemma choose_and_send_same an w : same_page w (choose_and_send_files an w).
Proof. unfold choose_and_send_files. repeat case_match; first [done | by apply same_page_ui | by split]. Qed.

Lemma send_dropped_same paths w : same_page w (send_dropped_paths paths w).
Proof. unfold send_dropped_paths. repeat case_match; first [done | by apply same_page_ui | by split]. Qed.

Lemma cancel_transfer_same an w : same_page w (ui_cancel_file_transfer post_ok an w).
Proof.
  unfold ui_cancel_file_transfer. destruct (ui_cancel_batch (w_ui w)) as [batch |]; [| done].
  assert (app_goes_on (w_app w) (cancel_file_transfer post_ok batch (w_app w)).2) as Hgo.
  { unfold cancel_file_transfer. repeat case_match; simplify_eq/=; auto; [| done].
    etrans; [apply goes_on_transfers | by apply goes_on_state, pc_id_notify]. }
  destruct (cancel_file_transfer post_ok batch (w_app w)) as [r ap]. cbn in Hgo.
  unfold update_files.
  match goal with |- context [take_snapshot an ?w1] =>
    assert (same_page w w1) as H1 by (destruct r; by split);
    pose proof (snapshot_same an w1) as H2; destruct (take_snapshot an w1) as [snapshot w2] end.
  cbn in H2. etrans; [exact H1 |]. etrans; [exact H2 |]. apply file_controls_same.
Qed.

Lemma change_folder_same an w : same_page w (change_receive_folder an w).
Proof.
  unfold change_receive_folder. destruct (_ ≫= _) as [p | e]; [| by case_bool_decide; [| apply notice_same]].
  etrans; [| apply notice_same].
  assert (app_goes_on (w_app w) (set_file_receive_root (an_folder_saved an) p (w_app w)).2) as Hgo
    by (unfold set_file_receive_root; case_match; cbn; auto; done).
  split; [exact Hgo | done.. |]. intros i. cbn. unfold set_control_text. by apply slot_get_at.
Qed.

Lemma update_action_same an w : same_page w (handle_update_action an w).
Proof.
  unfold handle_update_action. pose proof (snapshot_same an w) as Hs. destruct (take_snapshot an w) as [snapshot w1].
  cbn in Hs. etrans; [exact Hs |].
  repeat case_match; try apply notice_same; try apply event_same. etrans; apply event_same.
Qed.

Lemma close_same w : same_page w (close_window w).
Proof.
  unfold close_window. trans (if bool_decide (ui_page (w_ui w) = PagePairing)
    then on_app (λ ap, set_pairing (cancel_pairing (ap_pairing ap)) ap) w else w);
  [case_bool_decide; [by apply same_page_app | done] | by apply same_page_ui].
Qed.

Lemma status_goes_on update ap : app_goes_on ap (on_state (update_status post_ok update) ap).
Proof.
  apply goes_on_state. unfold update_status, update_runtime_status. cbn beta iota zeta.
  case_match; [by rewrite pc_id_notify | done].
Qed.

Lemma repair_goes_on english r ap : app_goes_on ap (repair_injector english post_ok r ap).2.
Proof. unfold repair_injector. case_match; cbn [snd]; [apply status_goes_on | done]. Qed.

Lemma rename_goes_on r name ap : app_goes_on ap (rename_computer post_ok r name ap).2.
Proof. unfold rename_computer. case_match; cbn [snd]; [| done]. etrans; apply goes_on_state; [done | apply pc_id_notify]. Qed.

Lemma language_goes_on english ap : app_goes_on ap (language_changed english post_ok ap).
Proof. unfold language_changed. apply goes_on_state. by rewrite pc_id_notify. Qed.

Lemma unpair_goes_on saved id ap : app_goes_on ap (unpair_phone post_ok saved id ap).2.
Proof.
  unfold unpair_phone, remove_phone, update_store. destruct saved; [| done]. cbn [snd].
  etrans; [| apply goes_on_state, pc_id_notify]. etrans; [| apply goes_on_transfers].
  split; [by left | done |]. intros Hn id' phone Hid. cbn in Hid. apply lookup_delete_Some in Hid as [_ Hid]. eauto.
Qed.

Lemma save_settings_truthful an w : answers_ok an → truthful w → truthful (save_settings post_ok payload_to_vec spki_sha256 an w).
Proof.
  intros Han Hw. unfold save_settings. pose proof (rename_goes_on (an_renamed an) (an_name an) (w_app w)) as Hgo.
  destruct (rename_computer _ _ _ _) as [renamed ap]. cbn [snd] in Hgo. cbn beta iota zeta.
  assert (∀ success value w1, truthful w1 → truthful (show_save_notice success value w1)) as Hnotice
    by (intros; by eapply truthful_same; [apply notice_same |]).
  case_match; apply Hnotice; (apply (rebuild_same an w); [done | by split | done]).
Qed.

Lemma repair_truthful an w : answers_ok an → truthful w → truthful (ui_repair_injector post_ok payload_to_vec spki_sha256 an w).
Proof.
  intros Han Hw. unfold ui_repair_injector. pose proof (repair_goes_on (w_english w) (an_repaired an) (w_app w)) as Hgo.
  destruct (repair_injector _ _ _ _) as [r ap]. cbn [snd] in Hgo.
  apply (rebuild_same an w); [done | by split | done].
Qed.

Lemma language_truthful an w : answers_ok an → truthful w → truthful (show_language_menu post_ok payload_to_vec spki_sha256 an w).
Proof.
  intros Han Hw. unfold show_language_menu, apply_language. destruct (an_language an); [| done].
  case_match; [eapply truthful_same; [apply event_same | done] |].
  apply (rebuild_same an w); [done | | done]. split; [apply language_goes_on | done..].
Qed.

Lemma unpair_truthful an index w : answers_ok an → truthful w → truthful (confirm_unpair post_ok payload_to_vec spki_sha256 an index w).
Proof.
  intros Han Hw. unfold confirm_unpair. destruct (ui_phone_ids (w_ui w) !! index) as [id |]; [| done].
  pose proof (snapshot_same an w) as Hs. destruct (take_snapshot an w) as [snapshot w1]. cbn in Hs.
  assert (truthful w1) as Hw1 by (by eapply truthful_same).
  destruct (an_yes an); [| done]. apply (rebuild_same an w1); [done | | done]. apply same_page_app, unpair_goes_on.
Qed.

Lemma update_from_state_truthful an w :
  answers_ok an → truthful w → truthful (update_from_state payload_to_vec spki_sha256 an w).
Proof.
  intros Han Hw. unfold update_from_state.
  match goal with |- truthful (if ?b then _ else _) => destruct b eqn:Euri end.
  - apply andb_true_iff in Euri as [Hpage Huri]. apply bool_decide_eq_true in Hpage, Huri.
    apply rebuild_truthful; [done |]. split; [| apply Hw]. intros token Ht _. exfalso. cbn in Ht.
    unfold uri, current_pairing_uri in Huri. rewrite Ht in Huri. cbn in Huri. unfold pairing_uri in Huri.
    match type of Huri with context [payload_to_vec ?p] => destruct (payload_written p) as [bytes Hb] end.
    by rewrite Hb in Huri.
  - pose proof (snapshot_same an w) as Hs. destruct (take_snapshot an w) as [snapshot w1]. cbn in Hs.
    pose proof (notify_transfer_same (ui_file_transfer snapshot) w1) as Hn.
    assert (same_page w (notify_transfer_transition (ui_file_transfer snapshot) w1)) as Hwn by (by etrans).
    match goal with |- truthful (if ?b then _ else _) => destruct b end; [by apply (rebuild_same an w) |].
    eapply truthful_same; [| exact Hw]. etrans; [exact Hwn |].
    case_match; try apply texts_same; (etrans; [apply texts_same |]); [apply file_controls_same | apply update_controls_same].
Qed.

Lemma command_truthful an command w :
  answers_ok an → truthful w → truthful (do_command post_ok payload_to_vec spki_sha256 an command w).
Proof.
  intros Han Hw. assert (∀ w1, truthful w1 → truthful (show_window w1)) as Hshow
    by (intros w1; by apply truthful_same, same_page_ui).
  assert (∀ w1, same_page w w1 → truthful w1) as Hsame by (intros; by eapply truthful_same).
  destruct command; cbn [do_command]; try exact Hw; try (apply Hsame; by apply same_page_ui).
  - case_bool_decide; [apply Hshow |]; by apply set_page_truthful.
  - by apply Hshow, set_page_truthful.
  - by apply save_settings_truthful.
  - by apply repair_truthful.
  - apply Hsame, update_action_same.
  - by apply language_truthful.
  - apply Hsame, choose_and_send_same.
  - apply Hsame, choose_and_send_same.
  - apply Hsame, cancel_transfer_same.
  - apply Hsame, change_folder_same.
  - apply Hsame, close_same.
  - unfold set_file_tab. case_bool_decide; [done |]. apply (rebuild_same an w); [done | by apply same_page_ui | done].
  - unfold set_file_tab. case_bool_decide; [done |]. apply (rebuild_same an w); [done | by apply same_page_ui | done].
  - by apply unpair_truthful.
Qed.

Lemma handle_command_truthful an id w :
  answers_ok an → truthful w → truthful (handle_command post_ok payload_to_vec spki_sha256 an id w).
Proof. intros. unfold handle_command. case_match; [by apply command_truthful | done]. Qed.

Lemma message_truthful an message w :
  answers_ok an → truthful w → truthful (window_proc post_ok payload_to_vec spki_sha256 an message w).
Proof.
  intros Han Hw. assert (∀ w1, same_page w w1 → truthful w1) as Hsame by (intros; by eapply truthful_same).
  assert (∀ w1, truthful w1 → truthful (show_window w1)) as Hshow
    by (intros w1; by apply truthful_same, same_page_ui).
  destruct message; cbn [window_proc]; try (apply Hsame; by apply same_page_ui).
  - assert (truthful (rebuild_page an (on_ui (set_shell (create_shell (w_english w) (an_dpi an) (an_width an))) w))) as Hbuilt
      by (apply (rebuild_same an w); [done | by apply same_page_ui | done]).
    case_match; [| done]. eapply truthful_same; [| exact Hbuilt]. by apply same_page_ui.
  - by apply handle_command_truthful.
  - apply update_from_state_truthful; [done |]. apply Hsame, same_page_app. by apply goes_on_state.
  - apply Hsame, update_controls_same.
  - by apply Hshow, set_page_truthful.
  - case_match; [| apply Hsame; by split]. apply (rebuild_same an w); [done | by split | done].
  - by apply Hshow, set_page_truthful.
  - case_match; [done |]. by apply handle_command_truthful.
  - apply Hsame, send_dropped_same.
  - case_match; [done |]. apply Hsame, reposition_same.
  - apply Hsame, reposition_same.
  - apply (rebuild_same an w); [done | by apply same_page_ui | done].
  - apply Hsame, close_same.
  - apply Hsame. split; [by apply goes_on_state | done..].
Qed.

End held.
Notation rebuild_page := (rebuild_page payload_to_vec spki_sha256).

(** ** The button of a row *)

Lemma unpair_command i : (i < 1000)%nat → command_for_id (ID_UNPAIR_BASE + Z.of_nat i) = Some (Unpair i).
Proof.
  intros Hi. unfold command_for_id, ID_UNPAIR_BASE. cbn [existsb].
  repeat match goal with |- context [?a =? ?b] =>
    replace (a =? b) with false by (symmetry; apply Z.eqb_neq; vm_compute (b); lia) end. cbn [orb].
  rewrite (proj2 (Z.leb_le _ _)), (proj2 (Z.ltb_lt _ _)) by lia. cbn [andb]. by replace (3000 + Z.of_nat i - 3000) with (Z.of_nat i) by lia; rewrite Nat2Z.id.
Qed.

Lemma snapshot_phones an w : app_phones (w_app (take_snapshot an w).2) = app_phones (w_app w).
Proof. unfold take_snapshot, snapshot. by repeat case_match; simplify_eq/=. Qed.

Lemma rebuild_phones an w : app_phones (w_app (rebuild_page an w)) = app_phones (w_app w).
Proof.
  unfold Window.rebuild_page. rewrite <- (snapshot_phones an w). destruct (take_snapshot an w) as [snapshot w1].
  cbn [snd]. destruct (ui_page (w_ui w1)); [done | by destruct (build_files _ _ _ _ _ _) | done | done |].
  unfold app_begin_pairing. by destruct (build_pairing _ _ _ _ _).
Qed.

Lemma unpair_phones an i id w :
  ui_phone_ids (w_ui w) !! i = Some id → an_yes an = true → an_paired_saved an = true →
  app_phones (w_app (confirm_unpair post_ok payload_to_vec spki_sha256 an i w)) = delete id (app_phones (w_app w)).
Proof.
  intros Hid Hyes Hsaved. unfold confirm_unpair. rewrite Hid, <- (snapshot_phones an w).
  destruct (take_snapshot an w) as [snapshot w1]. by rewrite Hyes, rebuild_phones, Hsaved.
Qed.

(** ** The life of the window *)

(** The window and the app, with the codes that phones used and whose pairing is being
    saved, and the codes that were put back. *)
Record Watched := mkWatched { wt_world : World; wt_claimed : list string; wt_returned : list string }.

Definition with_token (token : option string) (w : World) : World :=
  on_app (λ ap, set_pairing (mkPairing token (paired_phones (ap_pairing ap))) ap) w.

(** A step: a message is handled, or the rest of the app does something, in particular what
    [authenticate_phone] does with the code without holding its lock all the time: it takes
    the code; the phone is saved; or it is not, and the code is put back when there is no
    other ([authenticate_in_steps]). *)
Inductive window_step : Watched → Watched → Prop :=
| handles an message w claimed returned :
    answers_ok an →
    window_step (mkWatched w claimed returned)
      (mkWatched (window_proc post_ok payload_to_vec spki_sha256 an message w) claimed returned)
| elsewhere w ap claimed returned :
    app_goes_on (w_app w) ap →
    window_step (mkWatched w claimed returned) (mkWatched (mkWorld (w_ui w) ap (w_english w)) claimed returned)
| claims w token claimed returned :
    app_token (w_app w) = Some token →
    window_step (mkWatched w claimed returned) (mkWatched (with_token None w) (token :: claimed) returned)
| claim_ends w before token after returned :
    window_step (mkWatched w (before ++ token :: after) returned) (mkWatched w (before ++ after) returned)
| returns w before token after returned :
    app_token (w_app w) = None →
    window_step (mkWatched w (before ++ token :: after) returned)
      (mkWatched (with_token (Some token) w) (before ++ after) (token :: returned)).

(** [authenticate_phone] in these steps: of a pairing either nothing is changed, or the code
    was claimed, and after what happened [meanwhile] to the token the phone is paired, or the
    phones are as they were and the code is put back when there is no other. *)
Lemma authenticate_in_steps {Key Signature} base64 (key_of : list Z → option Key) (signature_of : list Z → option Signature)
    verify id write_ok meanwhile now auth nonce s r s' :
  authenticate_phone base64 key_of signature_of verify id write_ok meanwhile now auth nonce s = (r, s') →
  am_message_type auth = "pair" →
  (s' = s ∧ r ≠ Ok tt) ∨
  ∃ token, pairing_token s = Some token ∧
    ((r = Ok tt ∧ pairing_token s' = meanwhile None) ∨
     (r = Err "cannot save phone" ∧ phones (paired_phones s') = phones (paired_phones s) ∧
      pairing_token s' = match meanwhile None with None => Some token | other => other end)).
Proof.
  unfold authenticate_phone. intros Hr Hpair. rewrite Hpair, (bool_decide_eq_true_2 ("pair" = "pair")) in Hr by done.
  destruct (negb (_ =? _)); [left; by simplify_eq |].
  destruct (am_pairing_token auth) as [supplied|]; [| left; by simplify_eq].
  destruct (bool_decide_reflect (pairing_token s = Some supplied)) as [Ht|]; cbn [negb] in Hr; [| left; by simplify_eq].
  destruct (am_public_key_spki auth); [| left; by simplify_eq].
  destruct (verify_signature _ _ _ _ _ _ _ _) as [[]|]; [| left; by simplify_eq].
  right. exists supplied. split; [done |]. unfold upsert, update_store in Hr.
  destruct write_ok; simplify_eq/=; [by left | right]. by destruct (meanwhile None).
Qed.

(** The window is created while there is no code, or to show one; a code may be used
    already. *)
Inductive window_reachable : Watched → Prop :=
| window_created an w claimed :
    answers_ok an → (app_token (w_app w) = None ∨ ui_page (w_ui w) = PagePairing) → phones_named (app_phones (w_app w)) →
    window_reachable (mkWatched (window_proc post_ok payload_to_vec spki_sha256 an WmCreate w) claimed [])
| window_goes_on w w' : window_reachable w → window_step w w' → window_reachable w'.

Lemma truthful_returned token returned w : truthful returned w → truthful (token :: returned) w.
Proof. intros [Hcode Hn Hrows]. split; [| done..]. intros t Ht Hr. apply Hcode; [done | set_solver]. Qed.

Lemma reachable_truthful wt : window_reachable wt → truthful (wt_returned wt) (wt_world wt).
Proof.
  induction 1 as [an w claimed Han Ht Hn | w w' _ IH Hstep]; [| destruct Hstep as [an message w ?? Han | w ap ?? Hgo | w token ?? Ht | | w before token after returned Ht]];
    cbn [wt_world wt_returned] in *.
  - cbn [window_proc]. match goal with |- context [rebuild_page an ?w1] => assert (truthful [] (rebuild_page an w1)) as Hbuilt end.
    { apply rebuild_truthful; [done |]. split; [| done]. intros token. cbn. destruct Ht as [Ht | Ht]; congruence. }
    case_match; [| done]. eapply truthful_same; [| exact Hbuilt]. by apply same_page_ui.
  - by apply message_truthful.
  - eapply truthful_same; [| exact IH]. by split.
  - eapply truthful_same; [| exact IH]. apply same_page_app. by split; [right | |].
  - done.
  - apply (truthful_returned token) in IH as [_ Hn Hrows]. split; [| done..].
    intros t [= <-] Hr. destruct Hr. by left.
Qed.

(** Whatever messages the window handled and whatever else the app did
    since the window was created: a pairing code that a phone could use is one the window
    shows, on the pairing page, as the QR code of an address of this computer that
    carries the code, but for a code that was put back. *)
Theorem pairing_code_is_on_show wt token :
  window_reachable wt → pairing_token (ap_pairing (w_app (wt_world wt))) = Some token → token ∉ wt_returned wt →
  ui_page (w_ui (wt_world wt)) = PagePairing ∧
  ∃ pc_name host adapters uri,
    pairing_uri payload_to_vec base64_url (pc_id (ap_state (w_app (wt_world wt)))) spki_sha256 pc_name host token adapters = Ok uri ∧
    ui_qr (w_ui (wt_world wt)) = qr_code_of uri.
Proof. intros Hw. apply (tr_code _ _ (reachable_truthful wt Hw)). Qed.

(** The button beside a name on the page of phones takes the pairing of a
    phone that was paired under that name, and of no other phone, whatever phones were
    paired or unpaired since the page was built. *)
Theorem unpair_button_unpairs_the_named wt i name an :
  let w := wt_world wt in
  window_reachable wt → answers_ok an → ui_page (w_ui w) = PagePhones →
  shown_text (SPhoneName i) (ui_controls (w_ui w)) = Some name → (i < 1000)%nat →
  an_yes an = true → an_paired_saved an = true →
  ∃ id, named id name ∧
    phones (paired_phones (ap_pairing (w_app (window_proc post_ok payload_to_vec spki_sha256 an
      (WmCommand (ID_UNPAIR_BASE + Z.of_nat i)) w))))
    = delete id (phones (paired_phones (ap_pairing (w_app w)))).
Proof.
  intros w Hw Han Hpage Hname Hi Hyes Hsaved.
  destruct (tr_rows _ _ (reachable_truthful wt Hw) Hpage i name Hname) as (id & Hid & Hnamed).
  exists id. split; [done |]. cbn [window_proc]. unfold handle_command. rewrite unpair_command by done.
  by apply unpair_phones.
Qed.
End window_safety.
