(* ===== verification/SampleWindow.v ===== *)
(** * A sample window

    A window over the sample app, for the witnesses; and what the window shows that is
    not so. *)

From S2P Require Import Prelude Text Protocol FileNames FileCore Disk Store SampleStore Targets Coordinator SampleCoordinator Outbound Pairing Update AppState Addresses AppActions AppActionsSafety Settings Layout Pages Window WindowSafety.
Local Open Scope string_scope.
Local Open Scope list_scope.
Local Open Scope Z_scope.

Definition sample_ui : UiContext :=
  mkUi PageStatus TabSend [] [] [] None None false false false None None false [].
Definition sample_window (d : disk) : World := mkWorld sample_ui (sample_app d) true.

Definition sample_qr (uri : string) : option (Z * list bool) := Some (zlength (bytes_of uri), []).
Definition sample_answers (token : string) (yes : bool) : Answers :=
  mkAnswers 96 980 660 "192.168.1.5" [] token sample_qr map_to_list false false true
    (mkUpdateSnapshot "" UaCheck "" None None) "desk" (Ok tt) (Ok tt) (Ok tt) (Ok tt) (Ok tt) true (Ok []) yes false None true.
Lemma sample_answers_ok token yes : answers_ok sample_qr (sample_answers token yes).
Proof. by split. Qed.

Definition sample_payload (p : PairingPayload) : option (list Z) := Some [123].
Lemma sample_payload_written p : is_Some (sample_payload p).
Proof. by eexists. Qed.

Definition sample_named (id name : string) : Prop := id = "phone-1" ∧ name = "Phone".
Lemma sample_phones_named d : phones_named sample_named (phones (paired_phones (ap_pairing (sample_app d)))).
Proof. intros id phone. cbn. rewrite lookup_singleton_Some. by intros [<- <-]. Qed.

Notation sample_proc := (@window_proc sample_coordinator_env true sample_payload "spki").

Lemma sample_reachable m d :
  @window_reachable sample_coordinator_env true sample_payload "spki" sample_qr sample_named
    (mkWatched (sample_proc (sample_answers "code" true) m (sample_proc (sample_answers "" true) WmCreate (sample_window d))) [] []).
Proof.
  apply (window_goes_on _ _ _ _ _ (mkWatched (sample_proc (sample_answers "" true) WmCreate (sample_window d)) [] [])); [| by apply handles, sample_answers_ok].
  apply window_created; [apply sample_answers_ok | by left | apply sample_phones_named].
Qed.

Definition quiet_disk : disk := sample_disk [].

Lemma pairing_code_is_on_show_witness :
  let w := sample_proc (sample_answers "code" true) (WmCommand ID_PAIR)
             (sample_proc (sample_answers "" true) WmCreate (sample_window quiet_disk)) in
  pairing_token (ap_pairing (w_app w)) = Some "code" ∧
  ui_page (w_ui w) = PagePairing ∧ is_Some (ui_qr (w_ui w)).
Proof.
  cbn zeta. split; [vm_compute; reflexivity |].
  destruct (@pairing_code_is_on_show sample_coordinator_env true sample_payload "spki" sample_qr sample_named
    sample_payload_written _ "code" (sample_reachable (WmCommand ID_PAIR) quiet_disk)) as (Hp & pc & host & adapters & uri & _ & Hq).
  - vm_compute. reflexivity.
  - apply not_elem_of_nil.
  - split; [exact Hp |]. cbn [wt_world] in Hq. rewrite Hq. by eexists.
Defined.

Lemma unpair_button_unpairs_the_named_witness :
  let w := sample_proc (sample_answers "code" true) (WmCommand ID_NAV_PHONES)
             (sample_proc (sample_answers "" true) WmCreate (sample_window quiet_disk)) in
  shown_text (SPhoneName 0) (ui_controls (w_ui w)) = Some "Phone" ∧
  phones (paired_phones (ap_pairing (w_app (sample_proc (sample_answers "" true) (WmCommand (ID_UNPAIR_BASE + 0)) w))))
  = delete "phone-1" (phones (paired_phones (ap_pairing (w_app w)))).
Proof.
  cbn zeta. split; [vm_compute; reflexivity |].
  destruct (@unpair_button_unpairs_the_named sample_coordinator_env true sample_payload "spki" sample_qr sample_named
    sample_payload_written _ 0 "Phone" (sample_answers "" true) (sample_reachable (WmCommand ID_NAV_PHONES) quiet_disk))
    as (id & [-> _] & Hphones).
  - apply sample_answers_ok.
  - vm_compute. reflexivity.
  - vm_compute. reflexivity.
  - lia.
  - reflexivity.
  - reflexivity.
  - exact Hphones.
Defined.

(** ** What is shown and is not so *)

(** Finding: a phone uses the code on show, the user leaves the page while the phone is
    being saved, and it cannot be saved: the code is put back, and from then on a phone can
    pair with it although the window does not show it. *)
Theorem returned_code_is_open_off_its_page :
  let w1 := sample_proc (sample_answers "code" true) (WmCommand ID_PAIR)
              (sample_proc (sample_answers "" true) WmCreate (sample_window quiet_disk)) in
  let w2 := sample_proc (sample_answers "" true) (WmCommand ID_NAV_STATUS) (with_token None w1) in
  let w3 := with_token (Some "code") w2 in
  @window_reachable sample_coordinator_env true sample_payload "spki" sample_qr sample_named (mkWatched w3 [] ["code"]) ∧
  pairing_token (ap_pairing (w_app w3)) = Some "code" ∧ ui_page (w_ui w3) = PageStatus.
Proof.
  intros w1 w2 w3. split; [| split; vm_compute; reflexivity].
  apply (window_goes_on _ _ _ _ _ (mkWatched w2 ["code"] [])).
  - apply (window_goes_on _ _ _ _ _ (mkWatched (with_token None w1) ["code"] [])).
    + apply (window_goes_on _ _ _ _ _ (mkWatched w1 [] [])); [apply (sample_reachable (WmCommand ID_PAIR) quiet_disk) |].
      apply claims. vm_compute. reflexivity.
    + apply handles, sample_answers_ok.
  - apply (returns _ _ _ _ _ w2 [] "code" [] []). vm_compute. reflexivity.
Qed.

Section window_findings.
Context `{CoordinatorEnv} (post_ok : bool) (payload_to_vec : PairingPayload → option (list Z)) (spki_sha256 : string).
Notation proc := (window_proc post_ok payload_to_vec spki_sha256).

(** The pairing page is closed and opened again from the tray: the window shows the QR
    code it showed before, and no phone can use it. *)
Theorem reopened_page_shows_a_dead_code an an' w :
  ui_page (w_ui w) = PagePairing →
  let w' := proc an' (WmTrayMenu ID_TRAY_PAIR) (proc an WmClose w) in
  ui_visible (w_ui w') = true ∧ ui_page (w_ui w') = PagePairing ∧ ui_qr (w_ui w') = ui_qr (w_ui w) ∧
  pairing_token (ap_pairing (w_app w')) = None.
Proof.
  intros Hpage. cbn zeta. cbn [window_proc]. unfold close_window. rewrite bool_decide_true by done.
  change (ID_TRAY_PAIR =? 0) with false. cbn iota. unfold handle_command.
  change (command_for_id ID_TRAY_PAIR) with (Some Pair). cbn [do_command]. unfold set_page.
  by rewrite bool_decide_true by done.
Qed.

(** A batch that is done is announced again whenever the phone comes back. *)
Theorem reconnecting_announces_again w transfer :
  fs_state transfer = Completed → ui_last_transfer (w_ui w) = None →
  let seen t w := notify_transfer_transition t w in
  ∃ e, ui_events (w_ui (seen (Some transfer) (seen None (seen (Some transfer) w)))) = ui_events (w_ui w) ++ [e; e].
Proof.
  intros Hstate Hlast. cbn zeta. unfold notify_transfer_transition. cbn [fmap option_fmap option_map].
  rewrite Hlast, Hstate. rewrite !bool_decide_false by done. cbn. eexists. by rewrite <- app_assoc.
Qed.
End window_findings.

(** The rows keep their names when the phones are sorted anew: after the phone of the
    first row reconnects under a later name, the row shows the status of the second. *)
Definition two_phones (first : string) : list (string * PairedPhone) :=
  let a := ("phone-1", mkPhone first "" 0 None) in
  let b := ("phone-2", mkPhone "Mi" "" 0 (Some 1)) in
  stable_sort name_leb [a; b].
Definition two_snapshot (first connected : string) : UiSnapshot :=
  mkUiSnapshot "desk" (two_phones first) (mkStatus "" (Some connected) None None) true (mkUpdateSnapshot "" UaCheck "" None None) None.

Theorem renamed_phone_shows_the_others_status :
  let built := (build_phones true 96 980 (two_snapshot "A50" "A50")).1 in
  let updated := set_texts (page_texts true "host" PagePhones (two_snapshot "Pixel" "Pixel")) built in
  (build_phones true 96 980 (two_snapshot "A50" "A50")).2 = ["phone-1"; "phone-2"] ∧
  shown_text (SPhoneStatus 0) built = Some "Connected" ∧
  shown_text (SPhoneStatus 0) updated = Some "Offline · Connected previously" ∧
  shown_text (SPhoneStatus 1) updated = Some "Connected".
Proof. vm_compute. auto. Qed.

(** Two phones of one name are both shown as connected when one of them is. *)
Theorem namesakes_are_both_connected english status phone other :
  connected_phone status = Some (phone_name phone) → phone_name other = phone_name phone →
  phone_status english status other = phone_status english status phone.
Proof. intros Hc Hn. unfold phone_status. by rewrite Hn, Hc, !bool_decide_true. Qed.
