(* ===== verification/Clipboard.v ===== *)
(** * The clipboard

    [flowtype-app/src/clipboard.rs]: an image is decoded, written as a device-independent
    bitmap and put on the clipboard. The memory of the calls and who owns it are the
    state; which calls fail is the environment's. *)

From S2P Require Import Prelude Text.
Local Open Scope string_scope.
Local Open Scope list_scope.
Local Open Scope Z_scope.

(** ** The bitmap *)

(** [app/clipboard.rs MAX_PIXELS] *)
Definition MAX_PIXELS : Z := 40000000.
(** [app/clipboard.rs CF_DIB] *)
Definition CF_DIB : Z := 8.

(** [&l[from..from + n]]. *)
Definition slice (l : list Z) (from n : nat) : list Z := take n (drop from l).

(** [chunks_exact]. *)
Definition chunks_exact (n : nat) (l : list Z) : list (list Z) := (λ i, slice l (i * n) n) <$> seq 0 (length l / n).

(** A pixel of the picture in the order of the bitmap. *)
Definition bgra (pixel : list Z) : list Z :=
  match pixel with [r; g; b; a] => [b; g; r; a] | _ => [] end.

Definition dib_row (rgba : list Z) (width row : nat) : list Z :=
  concat (bgra <$> chunks_exact 4 (slice rgba (row * width * 4) (width * 4))).

(** [app/clipboard.rs make_dib] *)
Definition make_dib (rgba : list Z) (width height : Z) : list Z :=
  let image_size := width * height * 4 in
  to_le_bytes 4 40 ++ to_le_bytes 4 width ++ to_le_bytes 4 height ++ to_le_bytes 2 1 ++ to_le_bytes 2 32
  ++ to_le_bytes 4 0 ++ to_le_bytes 4 (image_size mod 2 ^ 32) ++ to_le_bytes 4 0 ++ to_le_bytes 4 0 ++ to_le_bytes 4 0
  ++ to_le_bytes 4 0
  ++ concat (dib_row rgba (Z.to_nat width) <$> reverse (seq 0 (Z.to_nat height))).

(** ** The calls *)

(** The memory the process owns, by handle, and whether the clipboard is open by it; what
    the clipboard holds; which of the next calls succeed, all when there is no more. *)
Record Clipboard := mkClipboard {
  cb_open : bool;
  cb_formats : list (Z * list Z);
  cb_memory : gmap Z (list Z);
  cb_next : Z;
  cb_answers : list bool;
}.

Notation clip := (sr Clipboard string).

(** The answer of a call. *)
Definition answer (cb : Clipboard) : bool * Clipboard :=
  match cb_answers cb with
  | [] => (true, cb)
  | b :: rest => (b, mkClipboard (cb_open cb) (cb_formats cb) (cb_memory cb) (cb_next cb) rest)
  end.
Definition call (f : Clipboard → Clipboard) : clip bool := λ cb,
  let '(ok, cb) := answer cb in (Ok ok, if ok then f cb else cb).

Definition set_open (b : bool) (cb : Clipboard) : Clipboard :=
  mkClipboard b (cb_formats cb) (cb_memory cb) (cb_next cb) (cb_answers cb).
Definition set_formats (f : list (Z * list Z) → list (Z * list Z)) (cb : Clipboard) : Clipboard :=
  mkClipboard (cb_open cb) (f (cb_formats cb)) (cb_memory cb) (cb_next cb) (cb_answers cb).
Definition set_memory (f : gmap Z (list Z) → gmap Z (list Z)) (cb : Clipboard) : Clipboard :=
  mkClipboard (cb_open cb) (cb_formats cb) (f (cb_memory cb)) (cb_next cb) (cb_answers cb).

Definition OpenClipboard : clip bool := call (set_open true).
Definition CloseClipboard : clip unit := sr_modify (set_open false).
Definition EmptyClipboard : clip bool := call (set_formats (λ _, [])).
Definition GlobalAlloc (size : nat) : clip (option Z) := λ cb,
  let '(ok, cb) := answer cb in
  if ok : bool
  then (Ok (Some (cb_next cb)),
        mkClipboard (cb_open cb) (cb_formats cb) (<[cb_next cb := replicate size 0]> (cb_memory cb)) (cb_next cb + 1) (cb_answers cb))
  else (Ok None, cb).
Definition GlobalLock (memory : Z) : clip bool := call (λ cb, cb).
Definition GlobalFree (memory : Z) : clip unit := sr_modify (set_memory (delete memory)).
Definition copy_to (memory : Z) (bytes : list Z) : clip unit := sr_modify (set_memory (alter (λ _, bytes) memory)).
(** The clipboard takes the memory when the call succeeds. *)
Definition SetClipboardData (format memory : Z) : clip bool :=
  call (λ cb, set_memory (delete memory) (set_formats (λ l, l ++ [(format, default [] (cb_memory cb !! memory))]) cb)).

(** [app/clipboard.rs set_clipboard_bytes] *)
Definition set_clipboard_bytes (format : Z) (bytes : list Z) : clip unit :=
  memory ← GlobalAlloc (length bytes);
  match memory with
  | None => sr_fail "cannot allocate clipboard memory"
  | Some memory =>
    locked ← GlobalLock memory;
    if negb locked then _ ← GlobalFree memory; sr_fail "cannot lock clipboard memory"
    else
      _ ← copy_to memory bytes;
      taken ← SetClipboardData format memory;
      if negb taken then _ ← GlobalFree memory; sr_fail "cannot set clipboard data" else mret tt
  end.

(** [app/clipboard.rs open_clipboard] Between two tries 15 ms pass. *)
Fixpoint open_clipboard_loop (tries : nat) : clip unit :=
  match tries with
  | O => sr_fail "clipboard is busy"
  | S tries => opened ← OpenClipboard; if opened : bool then mret tt else open_clipboard_loop tries
  end.
(** [app/clipboard.rs open_clipboard] *)
Definition open_clipboard : clip unit := open_clipboard_loop 6.

(** [app/clipboard.rs ClipboardGuard] Dropped whatever comes of the scope. *)
Definition with_clipboard_guard {A} (c : clip A) : clip A := λ cb,
  let '(r, cb) := c cb in (r, (CloseClipboard cb).2).

Inductive ImageFormat := Jpeg | Png.

Section set_image.
(** [image::load_from_memory_with_format]: the size of the picture and its pixels. *)
Context (decode : ImageFormat → list Z → option (Z * Z * list Z)).
(** The number of the format named PNG. *)
Context (png_format : Z).

Definition RegisterClipboardFormatW : clip Z := λ cb, let '(ok, cb) := answer cb in (Ok (if ok : bool then png_format else 0), cb).

(** [c] for its effect: [let _ = c]. *)
Definition ignored {A} (c : clip A) : clip unit := λ cb, (Ok tt, (c cb).2).

(** [app/clipboard.rs set_image] *)
Definition set_image (bytes : list Z) (mime_type : string) : clip unit :=
  format ← sr_lift (if bool_decide (mime_type = "image/jpeg") then Ok Jpeg
                    else if bool_decide (mime_type = "image/png") then Ok Png else Err "unsupported image format");
  '(width, height, rgba) ← sr_lift (ok_or (decode format bytes) "cannot decode image");
  _ ← sr_lift (guard_err ((width =? 0) || (height =? 0) || (MAX_PIXELS <? width * height)) "invalid image dimensions");
  let dib := make_dib rgba width height in
  _ ← open_clipboard;
  with_clipboard_guard (
    emptied ← EmptyClipboard;
    if negb emptied then sr_fail "cannot clear clipboard"
    else
      _ ← set_clipboard_bytes CF_DIB dib;
      if bool_decide (mime_type = "image/png")
      then
        format ← RegisterClipboardFormatW;
        if negb (format =? 0) then ignored (set_clipboard_bytes format bytes) else mret tt
      else mret tt).
End set_image.

(** ** The bitmap shows the picture *)

Lemma slice_length l from n : (from + n <= length l)%nat → length (slice l from n) = n.
Proof. intros Hn. unfold slice. rewrite length_take, length_drop. lia. Qed.

Lemma slice_app_r l k from n : slice (l ++ k) (length l + from) n = slice k from n.
Proof. unfold slice. by rewrite drop_app_add. Qed.

Lemma slice_slice l from n from' n' :
  (from' + n' <= n)%nat → slice (slice l from n) from' n' = slice l (from + from') n'.
Proof. intros Hn. unfold slice. rewrite skipn_firstn_comm, take_take, drop_drop. f_equal. lia. Qed.

(** Pieces of one length lie one after another. *)
Lemma slice_concat (n : nat) (ls : list (list Z)) i l :
  Forall (λ l, length l = n) ls → ls !! i = Some l → slice (concat ls) (i * n) n = l.
Proof.
  intros Hls. revert i. induction Hls as [|k ls Hk Hls IH]; intros i Hi; [done |]. cbn [concat].
  destruct i as [|i]; cbn in Hi.
  - injection Hi as <-. unfold slice. rewrite Nat.mul_0_l, drop_0. by rewrite <- Hk, take_app_length.
  - replace (S i * n)%nat with (length k + i * n)%nat by lia. rewrite slice_app_r. by apply IH.
Qed.

Lemma concat_length (n : nat) (ls : list (list Z)) : Forall (λ l, length l = n) ls → length (concat ls) = (length ls * n)%nat.
Proof. induction 1 as [|l ls Hl Hls IH]; [done |]. cbn. rewrite length_app, IH. lia. Qed.

Lemma chunks_lookup n l i : (i < length l / n)%nat → chunks_exact n l !! i = Some (slice l (i * n) n).
Proof. intros Hi. unfold chunks_exact. rewrite list_lookup_fmap, lookup_seq_lt by done. done. Qed.

Lemma bgra_length pixel : length pixel = 4%nat → length (bgra pixel) = 4%nat.
Proof. destruct pixel as [|? [|? [|? [|? [|? ?]]]]]; cbn; lia. Qed.

Lemma four_bytes (l : list Z) : length l = 4%nat → ∃ a b c d, l = [a; b; c; d].
Proof. destruct l as [|a [|b [|c [|d [|e l]]]]]; cbn; try lia. by exists a, b, c, d. Qed.

Section picture.
Context (rgba : list Z) (width height : nat).
Hypothesis (Hsize : length rgba = (width * height * 4)%nat).

Lemma row_slice row : (row < height)%nat → length (slice rgba (row * width * 4) (width * 4)) = (width * 4)%nat.
Proof. intros Hrow. apply slice_length. nia. Qed.

Lemma row_pixels row : (row < height)%nat →
  Forall (λ l, length l = 4%nat) (bgra <$> chunks_exact 4 (slice rgba (row * width * 4) (width * 4))) ∧
  length (bgra <$> chunks_exact 4 (slice rgba (row * width * 4) (width * 4))) = width.
Proof.
  intros Hrow. pose proof (row_slice row Hrow) as Hlen. split.
  - apply Forall_fmap, Forall_forall. intros pixel (i & -> & Hi)%list_elem_of_fmap. apply bgra_length, slice_length.
    apply elem_of_seq in Hi. rewrite Hlen in *. rewrite Nat.div_mul in Hi by done. lia.
  - unfold chunks_exact. by rewrite !length_fmap, length_seq, Hlen, Nat.div_mul.
Qed.

Lemma dib_row_length row : (row < height)%nat → length (dib_row rgba width row) = (width * 4)%nat.
Proof. intros Hrow. destruct (row_pixels row Hrow) as [H4 Hlen]. unfold dib_row. by rewrite (concat_length 4), Hlen. Qed.

Lemma dib_row_pixel row x : (row < height)%nat → (x < width)%nat →
  slice (dib_row rgba width row) (x * 4) 4 = bgra (slice rgba ((row * width + x) * 4) 4).
Proof.
  intros Hrow Hx. destruct (row_pixels row Hrow) as [H4 _]. unfold dib_row. apply slice_concat; [done |].
  rewrite list_lookup_fmap, chunks_lookup by (rewrite row_slice, Nat.div_mul; done).
  cbn. rewrite slice_slice by nia. do 3 f_equal. lia.
Qed.

Lemma dib_body_pixel row x : (row < height)%nat → (x < width)%nat →
  slice (concat (dib_row rgba width <$> reverse (seq 0 height))) (((height - 1 - row) * width + x) * 4) 4
  = bgra (slice rgba ((row * width + x) * 4) 4).
Proof.
  intros Hrow Hx. rewrite <- (dib_row_pixel row x) by done.
  rewrite <- (slice_concat (width * 4) (dib_row rgba width <$> reverse (seq 0 height)) (height - 1 - row) (dib_row rgba width row)).
  - rewrite slice_slice by nia. f_equal. lia.
  - apply Forall_fmap, Forall_forall. intros r Hr. apply dib_row_length. rewrite elem_of_reverse, elem_of_seq in Hr. lia.
  - rewrite list_lookup_fmap, reverse_lookup by (rewrite length_seq; lia). rewrite length_seq.
    rewrite lookup_seq_lt by lia. by replace (0 + (height - S (height - 1 - row)))%nat with row by lia.
Qed.

Lemma dib_body_length : length (concat (dib_row rgba width <$> reverse (seq 0 height))) = (height * (width * 4))%nat.
Proof.
  rewrite (concat_length (width * 4)); [by rewrite length_fmap, length_reverse, length_seq |].
  apply Forall_fmap, Forall_forall. intros r Hr. apply dib_row_length. rewrite elem_of_reverse, elem_of_seq in Hr. lia.
Qed.
End picture.

(** C39. (roundtrip) The bitmap holds the size of the picture and every pixel of it, the rows
    from the bottom up and of each pixel the bytes of blue, green, red and the opacity;
    none of its numbers overflows. *)
Theorem bitmap_shows_picture rgba width height :
  0 < width → 0 < height → width * height ≤ MAX_PIXELS → zlength rgba = width * height * 4 →
  let dib := make_dib rgba width height in
  zlength dib = 40 + width * height * 4 ∧
  from_le_bytes (slice dib 4 4) = width ∧ from_le_bytes (slice dib 8 4) = height ∧
  from_le_bytes (slice dib 20 4) = width * height * 4 ∧
  ∀ x y, 0 ≤ x < width → 0 ≤ y < height → ∃ red green blue alpha,
    slice rgba (Z.to_nat ((y * width + x) * 4)) 4 = [red; green; blue; alpha] ∧
    slice dib (Z.to_nat (40 + ((height - 1 - y) * width + x) * 4)) 4 = [blue; green; red; alpha].
Proof.
  intros Hw Hh Hmax Hsize. cbn zeta. unfold make_dib, MAX_PIXELS in *. rewrite Z.mod_small by lia.
  pose proof (dib_body_length rgba (Z.to_nat width) (Z.to_nat height)) as Hlen.
  pose proof (dib_body_pixel rgba (Z.to_nat width) (Z.to_nat height)) as Hpixel.
  unfold zlength in Hsize. specialize (Hlen ltac:(nia)). specialize (Hpixel ltac:(nia)).
  set (body := concat _) in *.
  assert (∀ n z from, slice (to_le_bytes n z ++ from) 0 n = to_le_bytes n z) as Hfirst.
  { intros n z from. unfold slice. rewrite drop_0. by rewrite take_app_length' by by rewrite to_le_bytes_length. }
  assert (∀ n z from m k, slice (to_le_bytes n z ++ from) (n + m) k = slice from m k) as Hnext.
  { intros n z from m k. rewrite <- (to_le_bytes_length n z) at 2. by rewrite slice_app_r. }
  split; [| split; [| split; [| split]]].
  - unfold zlength. rewrite !length_app, !to_le_bytes_length, Hlen. nia.
  - rewrite (Hnext 4%nat _ _ 0%nat), Hfirst, from_to_le_bytes by nia. done.
  - rewrite (Hnext 4%nat _ _ 4%nat), (Hnext 4%nat _ _ 0%nat), Hfirst, from_to_le_bytes by nia. done.
  - rewrite (Hnext 4%nat _ _ 16%nat), (Hnext 4%nat _ _ 12%nat), (Hnext 4%nat _ _ 8%nat), (Hnext 2%nat _ _ 6%nat), (Hnext 2%nat _ _ 4%nat),
      (Hnext 4%nat _ _ 0%nat), Hfirst, from_to_le_bytes by nia. done.
  - intros x y Hx Hy. specialize (Hpixel (Z.to_nat y) (Z.to_nat x) ltac:(lia) ltac:(lia)).
    replace (Z.to_nat ((y * width + x) * 4)) with ((Z.to_nat y * Z.to_nat width + Z.to_nat x) * 4)%nat by nia.
    assert (length (slice rgba ((Z.to_nat y * Z.to_nat width + Z.to_nat x) * 4) 4) = 4%nat) as H4 by (apply slice_length; nia).
    destruct (four_bytes _ H4) as (red & green & blue & alpha & E). rewrite E in *. cbn [bgra] in Hpixel.
    exists red, green, blue, alpha. split; [done |]. rewrite <- Hpixel.
    replace (Z.to_nat (40 + ((height - 1 - y) * width + x) * 4))
      with (40 + ((Z.to_nat height - 1 - Z.to_nat y) * Z.to_nat width + Z.to_nat x) * 4)%nat by nia.
    generalize (((Z.to_nat height - 1 - Z.to_nat y) * Z.to_nat width + Z.to_nat x) * 4)%nat. intros m.
    rewrite (Hnext 4%nat _ _ (36 + m)%nat), (Hnext 4%nat _ _ (32 + m)%nat), (Hnext 4%nat _ _ (28 + m)%nat), (Hnext 2%nat _ _ (26 + m)%nat),
      (Hnext 2%nat _ _ (24 + m)%nat), (Hnext 4%nat _ _ (20 + m)%nat), (Hnext 4%nat _ _ (16 + m)%nat), (Hnext 4%nat _ _ (12 + m)%nat),
      (Hnext 4%nat _ _ (8 + m)%nat), (Hnext 4%nat _ _ (4 + m)%nat), (Hnext 4%nat _ _ m). done.
Qed.

(** ** Memory is neither lost nor freed twice *)

Lemma answer_spec cb : let '(ok, cb') := answer cb in
  cb_open cb' = cb_open cb ∧ cb_formats cb' = cb_formats cb ∧ cb_memory cb' = cb_memory cb ∧ cb_next cb' = cb_next cb.
Proof. unfold answer. by destruct (cb_answers cb). Qed.

Lemma set_clipboard_bytes_spec format bytes cb :
  cb_memory cb = ∅ →
  let '(r, cb') := set_clipboard_bytes format bytes cb in
  cb_open cb' = cb_open cb ∧ cb_memory cb' = ∅ ∧
  cb_formats cb' = match r with Ok _ => cb_formats cb ++ [(format, bytes)] | Err _ => cb_formats cb end.
Proof.
  intros Hm. unfold set_clipboard_bytes, GlobalAlloc, GlobalLock, GlobalFree, copy_to, SetClipboardData, call, mbind, sr_bind.
  pose proof (answer_spec cb) as H1. destruct (answer cb) as [[|] cb1]; destruct H1 as (O1 & F1 & M1 & N1); cbn; [| by rewrite O1, F1, M1].
  match goal with |- context [answer ?c] => pose proof (answer_spec c) as H2; destruct (answer c) as [[|] cb2] end;
    destruct H2 as (O2 & F2 & M2 & N2); cbn in *.
  - match goal with |- context [answer ?c] => pose proof (answer_spec c) as H3; destruct (answer c) as [[|] cb3] end;
      destruct H3 as (O3 & F3 & M3 & N3); cbn in *; rewrite ?O3, ?O2, ?O1, ?F3, ?F2, ?F1, ?M3, ?M2, ?M1, ?Hm.
    + rewrite lookup_alter_eq, lookup_insert_eq. cbn. split; [done |]. split; [| done].
      apply map_eq. intros i. rewrite lookup_empty. destruct (decide (cb_next cb1 = i)) as [-> | Hi]; [by rewrite lookup_delete_eq |].
      by rewrite lookup_delete_ne, lookup_alter_ne, lookup_insert_ne.
    + split; [done |]. split; [| done]. apply map_eq. intros i. rewrite lookup_empty.
      destruct (decide (cb_next cb1 = i)) as [-> | Hi]; [by rewrite lookup_delete_eq |].
      by rewrite lookup_delete_ne, lookup_alter_ne, lookup_insert_ne.
  - rewrite O2, F2, M2, O1, F1, M1, Hm. split; [done |]. split; [| done]. apply map_eq. intros i. rewrite lookup_empty.
    destruct (decide (cb_next cb1 = i)) as [-> | Hi]; [by rewrite lookup_delete_eq | by rewrite lookup_delete_ne, lookup_insert_ne].
Qed.

Lemma open_clipboard_spec tries cb :
  let '(r, cb') := open_clipboard_loop tries cb in
  cb_formats cb' = cb_formats cb ∧ cb_memory cb' = cb_memory cb ∧ cb_open cb' = (if is_ok r then true else cb_open cb).
Proof.
  revert cb. induction tries as [|tries IH]; intros cb; [done |]. cbn [open_clipboard_loop].
  unfold mbind, sr_bind, OpenClipboard, call. pose proof (answer_spec cb) as H1.
  destruct (answer cb) as [[|] cb1]; destruct H1 as (O1 & F1 & M1 & N1); cbn; [by rewrite F1, M1 |].
  specialize (IH cb1). destruct (open_clipboard_loop tries cb1) as [r cb2]. by rewrite <- O1, <- F1, <- M1.
Qed.

Section left_clean.
Context (decode : ImageFormat → list Z → option (Z * Z * list Z)) (png_format : Z).

(** What the clipboard holds of a picture. *)
Definition picture_formats (bytes : list Z) (mime_type : string) (l : list (Z * list Z)) : Prop :=
  ∃ format width height rgba, decode format bytes = Some (width, height, rgba) ∧
    width ≠ 0 ∧ height ≠ 0 ∧ width * height ≤ MAX_PIXELS ∧
    (l = [(CF_DIB, make_dib rgba width height)] ∨
     mime_type = "image/png" ∧ l = [(CF_DIB, make_dib rgba width height); (png_format, bytes)]).

(** Whatever call fails, afterwards the clipboard is closed, every piece of
    memory was given to it or freed, and it holds the picture, or what it held, or
    nothing; only the picture is reported as a success. *)
Theorem clipboard_is_left_clean bytes mime_type cb :
  cb_open cb = false → cb_memory cb = ∅ →
  let '(r, cb') := set_image decode png_format bytes mime_type cb in
  cb_open cb' = false ∧ cb_memory cb' = ∅ ∧
  match r with
  | Ok _ => picture_formats bytes mime_type (cb_formats cb')
  | Err _ => cb_formats cb' = cb_formats cb ∨ cb_formats cb' = []
  end.
Proof.
  intros Hopen Hm. unfold set_image, sr_lift. unfold mbind, sr_bind.
  destruct (if bool_decide (mime_type = "image/jpeg") then _ else _) as [format | e]; [| by cbn; auto].
  destruct (decode format bytes) as [[[width height] rgba] |] eqn:Hdecode; [| by cbn; auto]. cbn [ok_or].
  destruct ((width =? 0) || (height =? 0) || (MAX_PIXELS <? width * height)) eqn:Hdims; [by cbn; auto |]. cbn [guard_err].
  apply orb_false_iff in Hdims as [Hdims Hmax]. apply orb_false_iff in Hdims as [Hw Hh].
  apply Z.eqb_neq in Hw, Hh. apply Z.ltb_ge in Hmax.
  unfold open_clipboard. pose proof (open_clipboard_spec 6 cb) as H0.
  destruct (open_clipboard_loop 6 cb) as [[u | e] cb0]; destruct H0 as (F0 & M0 & O0); cbn in O0; [| cbn; rewrite O0, M0, F0; by auto].
  unfold with_clipboard_guard, EmptyClipboard, CloseClipboard, call. pose proof (answer_spec cb0) as H1.
  destruct (answer cb0) as [[|] cb1]; destruct H1 as (O1 & F1 & M1 & N1); cbn; [| rewrite M1, F1, M0, F0; auto].
  pose proof (set_clipboard_bytes_spec CF_DIB (make_dib rgba width height) (set_formats (λ _, []) cb1)) as H2.
  cbn in H2. specialize (H2 ltac:(by rewrite M1, M0)).
  destruct (set_clipboard_bytes _ _ _) as [[u2 | e] cb2]; destruct H2 as (O2 & M2 & F2); cbn; [| auto].
  assert (∀ l, l = [(CF_DIB, make_dib rgba width height)] ∨
     mime_type = "image/png" ∧ l = [(CF_DIB, make_dib rgba width height); (png_format, bytes)] → picture_formats bytes mime_type l) as Hpicture
    by (intros l Hl; exists format, width, height, rgba; auto).
  case_bool_decide as Hpng; [| cbn; split; [done | split; [done | apply Hpicture; auto]]].
  unfold RegisterClipboardFormatW. pose proof (answer_spec cb2) as H3.
  destruct (answer cb2) as [ok cb3]; destruct H3 as (O3 & F3 & M3 & N3).
  destruct (negb ((if ok then png_format else 0) =? 0)) eqn:Hnz; cbn.
  - destruct ok; [| done].
    pose proof (set_clipboard_bytes_spec png_format bytes cb3 ltac:(by rewrite M3, M2)) as H4.
    destruct (set_clipboard_bytes png_format bytes cb3) as [r cb4]; destruct H4 as (O4 & M4 & F4). cbn.
    split; [done |]. split; [done |]. apply Hpicture. rewrite F4, F3, F2. destruct r; auto.
  - split; [done |]. split; [by rewrite M3, M2 |]. apply Hpicture. rewrite F3, F2. auto.
Qed.
End left_clean.

Definition sample_decode (format : ImageFormat) (bytes : list Z) : option (Z * Z * list Z) :=
  Some (1, 2, [255; 0; 0; 255; 0; 255; 0; 128]).

Lemma clipboard_is_left_clean_witness :
  let cb := mkClipboard false [(1, [65])] ∅ 0 [false; true; true; true; true; true; true; true; false] in
  let '(r, cb') := set_image sample_decode 50000 [137] "image/png" cb in
  r = Ok tt ∧ cb_open cb' = false ∧ cb_memory cb' = ∅ ∧ length (cb_formats cb') = 1%nat.
Proof.
  cbn zeta. set (cb := mkClipboard _ _ _ _ _).
  pose proof (clipboard_is_left_clean sample_decode 50000 [137] "image/png" cb eq_refl eq_refl) as H.
  destruct (set_image sample_decode 50000 [137] "image/png" cb) as [r cb'] eqn:E. vm_compute in E. injection E as <- <-.
  destruct H as (Ho & Hm & _). split; [reflexivity |]. split; [exact Ho |]. split; [exact Hm |]. reflexivity.
Defined.

Lemma bitmap_shows_picture_witness :
  let rgba := [255; 0; 0; 255; 0; 255; 0; 128] in
  zlength rgba = 1 * 2 * 4 ∧ ∃ red green blue alpha,
    slice rgba (Z.to_nat ((1 * 1 + 0) * 4)) 4 = [red; green; blue; alpha] ∧
    slice (make_dib rgba 1 2) (Z.to_nat (40 + ((2 - 1 - 1) * 1 + 0) * 4)) 4 = [blue; green; red; alpha].
Proof.
  cbn zeta. split; [reflexivity |].
  apply (bitmap_shows_picture [255; 0; 0; 255; 0; 255; 0; 128] 1 2); [lia | lia | unfold MAX_PIXELS; lia | reflexivity | lia | lia].
Defined.
