(* ===== verification/Fetch.v ===== *)
(** * Waiting for answers

    The two loops of the desktop app that read what may be late, endless or cut off:
    [flowtype-app/src/update.rs http_get] over WinHTTP, and
    [flowtype-app/src/injector.rs read_response_with_timeout] over the pipe. *)

From S2P Require Import Prelude Text Protocol Ipc.
Local Open Scope string_scope.
Local Open Scope list_scope.
Local Open Scope Z_scope.

(** ** A file over HTTPS *)

(** What [WinHttpCrackUrl] finds; [uc_scheme] is 2 for HTTPS. *)
Record UrlComponents := mkUrlComponents { uc_scheme : Z; uc_host : string; uc_path : string; uc_extra : string; uc_port : Z }.

(** The handles that are open, and which of the next calls succeed, all when there is no
    more; the status and what each read gives are of the server. *)
Record Http := mkHttp { ht_open : list Z; ht_next : Z; ht_answers : list bool; ht_requests : list (string * Z * string) }.

Notation http := (sr Http string).

Definition http_answer (s : Http) : bool * Http :=
  match ht_answers s with
  | [] => (true, s)
  | b :: rest => (b, mkHttp (ht_open s) (ht_next s) rest (ht_requests s))
  end.

(** A call that must not be 0. *)
Definition must : http unit := λ s, let '(ok, s) := http_answer s in (if ok : bool then Ok tt else Err "last error", s).

(** [app/update.rs HttpHandle] A handle, [ensure]d, that is closed at the end of its scope. *)
Definition with_handle {A} (c : http A) : http A := λ s,
  let '(ok, s) := http_answer s in
  if ok : bool
  then
    let handle := ht_next s in
    let '(r, s) := c (mkHttp (handle :: ht_open s) (handle + 1) (ht_answers s) (ht_requests s)) in
    (r, mkHttp (filter (λ h, h ≠ handle) (ht_open s)) (ht_next s) (ht_answers s) (ht_requests s))
  else (Err "last error", s).

Section http_get.
Context (crack : string → option UrlComponents) (status : option Z).
(** What the reads give, at most 8192 bytes each, none at the end. *)
Context (reads : nat → option (list Z)).

(** [app/update.rs:1351-1378 http_get] *)
Fixpoint read_body (fuel : nat) (k : nat) (limit : Z) (result : list Z) : option (Prelude.result string (list Z)) :=
  match fuel with
  | O => None
  | S fuel =>
    match reads k with
    | None => Some (Err "last error")
    | Some [] => Some (Ok result)
    | Some chunk =>
      if limit <? zlength result + zlength chunk then Some (Err "response is too large")
      else read_body fuel (S k) limit (result ++ chunk)
    end
  end.

(** More reads than a body within the limit has bytes. *)
Definition READ_FUEL (limit : Z) : nat := Z.to_nat limit + 2.

Definition status_text (status : Z) : string := "HTTP " +:+ of_bytes (decimal status).

(** [app/update.rs http_get] *)
Definition http_get (url : string) (limit : Z) : http (list Z) :=
  if negb (bool_decide (take 8 (bytes_of url) = bytes_of "https://")) || (2048 <? str_len url) then sr_fail "invalid HTTPS URL"
  else
    components ← sr_lift (ok_or (crack url) "last error");
    if negb (uc_scheme components =? 2) then sr_fail "last error"
    else
      with_handle (
        _ ← must;
        with_handle (
          with_handle (
            _ ← must;
            _ ← sr_modify (λ s, mkHttp (ht_open s) (ht_next s) (ht_answers s)
                                  (ht_requests s ++ [(uc_host components, uc_port components, uc_path components +:+ uc_extra components)]));
            _ ← must;
            status ← sr_lift (ok_or status "last error");
            if negb (status =? 200) then sr_fail (status_text status)
            else sr_lift (default (Err "out of fuel") (read_body (READ_FUEL limit) 0 limit []))))).
End http_get.

(** ** An answer on the pipe *)

Section response.
Context {A : Type} (decode : list Z → option A).
(** At the k-th look: what has arrived on the pipe, unless it is broken; and the clock,
    in milliseconds, after it. Between two looks 10 ms pass. *)
Context (arrived : nat → option (list Z)) (clock : nat → Z).

Inductive ResponseError := PipeBroken | ResponseTooLarge | TimedOut | ReadFailed (e : io_error).

(** [app/injector.rs read_response_with_timeout] *)
Fixpoint read_response (fuel : nat) (k : nat) (deadline : Z) : option (result ResponseError (A * list Z)) :=
  match fuel with
  | O => None
  | S fuel =>
    match arrived k with
    | None => Some (Err PipeBroken)
    | Some stream =>
      let wait := if deadline <=? clock k then Some (Err TimedOut) else read_response fuel (S k) deadline in
      let header := take 4 stream in
      if zlength header =? 4 then
        let payload_len := from_le_bytes header in
        if MAX_MESSAGE_BYTES <? payload_len then Some (Err ResponseTooLarge)
        else if 4 + payload_len <=? zlength stream
        then Some (match read_message decode stream with Ok r => Ok r | Err e => Err (ReadFailed e) end)
        else wait
      else wait
    end
  end.
End response.

(** ** The body is bounded and nothing stays open *)

Section fetch.
Context (crack : string → option UrlComponents) (status : option Z) (reads : nat → option (list Z)).

(** The bytes of the reads from the k-th on. *)
Fixpoint received (k n : nat) : list Z :=
  match n with O => [] | S n => default [] (reads k) ++ received (S k) n end.

Lemma read_body_total fuel k limit result :
  0 ≤ zlength result ≤ limit → (Z.to_nat (limit - zlength result) + 2 <= fuel)%nat →
  ∃ r, read_body reads fuel k limit result = Some r ∧
    match r with
    | Ok body => ∃ n, body = result ++ received k n ∧ reads (k + n)%nat = Some [] ∧ zlength body ≤ limit
    | Err e => e = "last error" ∨ e = "response is too large"
    end.
Proof.
  revert k result. induction fuel as [|fuel IH]; intros k result Hlen Hfuel; [lia |]. cbn [read_body].
  destruct (reads k) as [[|b chunk] |] eqn:Hk.
  - eexists. split; [done |]. exists 0%nat. rewrite Nat.add_0_r, app_nil_r. split; [done |]. split; [done | lia].
  - destruct (Z.ltb_spec limit (zlength result + zlength (b :: chunk))) as [Hbig | Hfits]; [eexists; split; [done |]; by right |].
    destruct (IH (S k) (result ++ b :: chunk)) as (r & Hr & Hspec).
    { rewrite zlength_app. pose proof (zlength_nonneg (b :: chunk)). lia. }
    { rewrite zlength_app, zlength_cons in *. pose proof (zlength_nonneg chunk). lia. }
    exists r. split; [done |]. destruct r as [body | e]; [| done].
    destruct Hspec as (n & Hbody & Hend & Hle). exists (S n). cbn [received]. rewrite Hk. cbn [default].
    rewrite app_assoc. replace (k + S n)%nat with (S k + n)%nat by lia. done.
  - eexists. split; [done |]. by left.
Qed.

Definition handles_fresh (s : Http) : Prop := Forall (λ h, h < ht_next s) (ht_open s).

(** A scope that opens a handle closes it, if what it runs closes its own. *)
Definition closes {A} (c : http A) : Prop :=
  ∀ s, handles_fresh s → ht_open (c s).2 = ht_open s ∧ ht_next s ≤ ht_next (c s).2.

Lemma closes_must : closes must.
Proof. intros s Hs. unfold must, http_answer. by destruct (ht_answers s) as [|b rest]. Qed.

Lemma closes_bind {A B} (c : http A) (f : A → http B) : closes c → (∀ a, closes (f a)) → closes (a ← c; f a).
Proof.
  intros Hc Hf s Hs. destruct (Hc s Hs) as [Ho Hn]. unfold mbind, sr_bind. destruct (c s) as [[a | e] s1]; [| done]. cbn in Ho, Hn.
  destruct (Hf a s1) as [Ho' Hn']; [| split; [congruence | lia]].
  unfold handles_fresh in *. rewrite Ho. eapply Forall_impl; [exact Hs |]. cbn. lia.
Qed.

Lemma closes_lift {A} (r : result string A) : closes (sr_lift r).
Proof. by intros s Hs. Qed.
Lemma closes_fail {A} e : closes (sr_fail e : http A).
Proof. by intros s Hs. Qed.

Lemma closes_with_handle {A} (c : http A) : closes c → closes (with_handle c).
Proof.
  intros Hc s Hs. unfold with_handle.
  assert (let '(ok, s1) := http_answer s in ht_open s1 = ht_open s ∧ ht_next s1 = ht_next s) as Ha
    by (unfold http_answer; by destruct (ht_answers s)).
  destruct (http_answer s) as [[|] s1]; destruct Ha as [Ho Hn]; cbn [snd]; [| rewrite Ho, Hn; split; [done | lia]].
  destruct (Hc (mkHttp (ht_next s1 :: ht_open s1) (ht_next s1 + 1) (ht_answers s1) (ht_requests s1))) as [Ho' Hn'].
  { unfold handles_fresh in *. cbn. rewrite Ho, Hn. apply Forall_cons. split; [lia |].
    eapply Forall_impl; [exact Hs |]. cbn. lia. }
  destruct (c _) as [r s2]. cbn in *. split; [| lia]. rewrite Ho', filter_cons_False by (intros H; by apply H).
  rewrite Ho. apply filter_all. eapply Forall_impl; [exact Hs |]. cbn. intros h Hh. lia.
Qed.

(** What a program answers, whatever the calls do. *)
Definition answers {A} (c : http A) (Q : result string A → Prop) : Prop := ∀ s, Q (c s).1.

Lemma answers_bind {A B} (c : http A) (f : A → http B) Q (R : result string B → Prop) :
  answers c Q → (∀ a, Q (Ok a) → answers (f a) R) → (∀ e, Q (Err e) → R (Err e)) → answers (a ← c; f a) R.
Proof.
  intros Hc Hf He s. specialize (Hc s). unfold mbind, sr_bind. destruct (c s) as [[a | e] s1]; cbn in *; [by apply Hf | auto].
Qed.

Lemma answers_with_handle {A} (c : http A) (Q : result string A → Prop) :
  Q (Err "last error") → answers c Q → answers (with_handle c) Q.
Proof.
  intros He Hc s. unfold with_handle. destruct (http_answer s) as [[|] s1]; [| done].
  specialize (Hc (mkHttp (ht_next s1 :: ht_open s1) (ht_next s1 + 1) (ht_answers s1) (ht_requests s1))).
  by destruct (c _).
Qed.

Lemma answers_must : answers must (λ r, r = Ok tt ∨ r = Err "last error").
Proof. intros s. unfold must. destruct (http_answer s) as [[|] s1]; cbn; auto. Qed.

(** What [http_get] may answer. *)
Definition fetched (url : string) (limit : Z) (r : result string (list Z)) : Prop :=
  match r with
  | Ok body =>
    take 8 (bytes_of url) = bytes_of "https://" ∧ (uc_scheme <$> crack url) = Some 2 ∧ status = Some 200 ∧ zlength body ≤ limit ∧
    ∃ n, body = received 0 n ∧ reads n = Some []
  | Err e => e ≠ "out of fuel"
  end.

Lemma status_text_other n : status_text n ≠ "out of fuel".
Proof. unfold status_text. intros H. by injection H. Qed.

Lemma http_get_fetched url limit : 0 ≤ limit → answers (http_get crack status reads url limit) (fetched url limit).
Proof.
  intros Hlimit. unfold http_get.
  destruct (negb _ || _) eqn:Hurl; [by intros s |]. apply orb_false_iff in Hurl as [Hurl _].
  apply negb_false_iff, bool_decide_eq_true in Hurl.
  assert (fetched url limit (Err "last error")) as Hlast by done.
  destruct (crack url) as [components |] eqn:Hcrack; [| by intros s]. cbn [ok_or].
  assert (∀ (f : UrlComponents → http (list Z)) Q, answers (f components) Q → answers (c ← sr_lift (Ok components); f c) Q) as Hbind
    by (intros f Q Hf s; apply Hf).
  apply Hbind. destruct (Z.eqb_spec (uc_scheme components) 2) as [Hscheme |]; [cbn [negb] | by intros s].
  assert (∀ A (f : unit → http A) (R : result string A → Prop), R (Err "last error") → answers (f tt) R → answers (u ← must; f u) R) as Hmust.
  { intros A f R He Hf. eapply answers_bind; [apply answers_must | |]; cbn; [by intros [] _ | intros e [|[= ->]]; done]. }
  apply answers_with_handle; [done |]. apply Hmust; [done |].
  apply answers_with_handle; [done |]. apply answers_with_handle; [done |]. apply Hmust; [done |].
  eapply (answers_bind _ _ (λ r, r = Ok tt)); [by intros s | | done]. intros u _. apply Hmust; [done |].
  destruct status as [code |] eqn:Hstatus; [| by intros s]. cbn [ok_or].
  intros s. unfold sr_lift, mbind, sr_bind. destruct (Z.eqb_spec code 200) as [-> |]; cbn [negb]; [| apply status_text_other].
  destruct (read_body_total (READ_FUEL limit) 0 limit []) as (r & -> & Hr).
  { unfold zlength. cbn. lia. }
  { unfold READ_FUEL, zlength. cbn. lia. }
  cbn. destruct r as [body | e]; [| by destruct Hr as [-> | ->]].
  destruct Hr as (n & -> & Hend & Hle). cbn. rewrite Hcrack. cbn. rewrite Hscheme. eauto 8.
Qed.

Lemma http_get_closes url limit : closes (http_get crack status reads url limit).
Proof.
  unfold http_get. case_match; [apply closes_fail |]. apply closes_bind; [apply closes_lift | intros components].
  case_match; [apply closes_fail |]. apply closes_with_handle, closes_bind; [apply closes_must | intros _].
  do 2 apply closes_with_handle. apply closes_bind; [apply closes_must | intros _].
  apply closes_bind; [by intros s | intros _]. apply closes_bind; [apply closes_must | intros _].
  apply closes_bind; [apply closes_lift | intros code]. case_match; [apply closes_fail | apply closes_lift].
Qed.

(** C35. (bounds) However long the server sends and whichever call fails: fetching a file
    ends, holds at most the limit, closes every handle it opened, and a body that is
    given is the whole of what the server sent with status 200 over HTTPS. *)
Theorem fetch_is_bounded url limit s :
  0 ≤ limit → Forall (λ h, h < ht_next s) (ht_open s) →
  let '(r, s') := http_get crack status reads url limit s in
  ht_open s' = ht_open s ∧ fetched url limit r.
Proof.
  intros Hlimit Hs. pose proof (http_get_fetched url limit Hlimit s) as Hr.
  destruct (http_get_closes url limit s Hs) as [Ho _]. by destruct (http_get crack status reads url limit s).
Qed.
End fetch.

(** ** An answer is read as a whole or not at all *)

Section whole.
Context {A : Type} (decode : list Z → option A) (arrived : nat → option (list Z)) (clock : nat → Z).
Hypothesis later : ∀ k, clock k + 10 ≤ clock (S k).
Hypothesis bytes : ∀ k stream, arrived k = Some stream → Forall byte_ok stream.

(** A frame is there from its header to its end. *)
Definition frame_arrived (stream : list Z) : Prop :=
  4 ≤ zlength stream ∧ 4 + from_le_bytes (take 4 stream) ≤ zlength stream.

Lemma read_message_whole stream :
  Forall byte_ok stream → frame_arrived stream → from_le_bytes (take 4 stream) ≤ MAX_MESSAGE_BYTES →
  match read_message decode stream with Ok _ => True | Err e => e = BadPayload end.
Proof.
  intros Hbytes [H4 Hlen] Hmax. unfold read_message, read_exact, zlength in *.
  rewrite decide_False by lia. cbn. rewrite (proj2 (Z.ltb_ge _ _)) by lia.
  pose proof (from_le_bytes_bound (take 4 stream) ltac:(by apply Forall_take)).
  rewrite decide_False by (rewrite length_drop; lia). cbn. by destruct (decode _).
Qed.

(** What is given at the n-th look. *)
Definition answered (deadline : Z) (n : nat) (r : result ResponseError (A * list Z)) : Prop :=
  match r with
  | Ok m => ∃ stream, arrived n = Some stream ∧ frame_arrived stream ∧ read_message decode stream = Ok m
  | Err TimedOut => deadline ≤ clock n ∧ ∃ stream, arrived n = Some stream ∧ ¬ frame_arrived stream
  | Err (ReadFailed e) => e = BadPayload
  | Err PipeBroken => arrived n = None
  | Err ResponseTooLarge => ∃ stream, arrived n = Some stream ∧ MAX_MESSAGE_BYTES < from_le_bytes (take 4 stream)
  end.

Lemma read_response_total fuel k deadline :
  (Z.to_nat ((deadline - clock k + 9) / 10) + 1 <= fuel)%nat →
  ∃ r, read_response decode arrived clock fuel k deadline = Some r ∧
    ∃ n, (k <= n)%nat ∧ (∀ i, (k <= i < n)%nat → clock i < deadline) ∧
    answered deadline n r.
Proof.
  unfold answered. revert k. induction fuel as [|fuel IH]; intros k Hfuel; [lia |]. cbn [read_response].
  destruct (arrived k) as [stream |] eqn:Hk; [| eexists; split; [done |]; exists k; split; [done |]; split; [lia | done]].
  assert (¬ frame_arrived stream → ∃ r, (if deadline <=? clock k then Some (Err TimedOut)
      else read_response decode arrived clock fuel (S k) deadline) = Some r ∧
    ∃ n, (k <= n)%nat ∧ (∀ i, (k <= i < n)%nat → clock i < deadline) ∧
    answered deadline n r) as Hwait.
  { unfold answered. intros Hpart. destruct (Z.leb_spec deadline (clock k)) as [Hlate | Hearly].
    - eexists. split; [done |]. exists k. split; [done |]. split; [lia |]. eauto.
    - destruct (IH (S k)) as (r & Hr & n & Hn & Hbefore & Hspec).
      { pose proof (later k).
        pose proof (Z.div_le_mono (deadline - clock (S k) + 9) (deadline - clock k + 9 + (-1) * 10) 10 ltac:(lia) ltac:(lia)) as Hstep.
        rewrite Z.div_add in Hstep by lia.
        assert (1 ≤ (deadline - clock k + 9) / 10) by (apply Z.div_le_lower_bound; lia). lia. }
      exists r. split; [done |]. exists n. split; [lia |]. split; [| done].
      intros i Hi. destruct (decide (i = k)) as [-> |]; [done | apply Hbefore; lia]. }
  destruct (Z.eqb_spec (zlength (take 4 stream)) 4) as [H4 | H4].
  - destruct (Z.ltb_spec MAX_MESSAGE_BYTES (from_le_bytes (take 4 stream))) as [Hbig | Hok].
    { eexists. split; [done |]. exists k. split; [done |]. split; [lia | eauto]. }
    assert (4 ≤ zlength stream) as Hlen by (unfold zlength in *; rewrite length_take in H4; lia).
    destruct (Z.leb_spec (4 + from_le_bytes (take 4 stream)) (zlength stream)) as [Hwhole | Hpart];
      [| apply Hwait; intros [_ ?]; lia].
    eexists. split; [done |]. exists k. split; [done |]. split; [lia |].
    pose proof (read_message_whole stream (bytes k stream Hk) (conj Hlen Hwhole) Hok) as Hread.
    destruct (read_message decode stream) as [m | e] eqn:E; [exists stream; by unfold frame_arrived | done].
  - apply Hwait. intros [Hlen _]. unfold zlength in *. rewrite length_take in H4. lia.
Qed.

(** C36. (termination) Waiting for an answer of the injector ends soon after its deadline,
    whatever arrives; an answer is read only when the whole of it is there, so that the
    read does not wait; and time is up only when it is not there. *)
Theorem response_is_read_whole (timeout : Z) :
  0 ≤ timeout → let deadline := clock 0%nat + timeout in
  ∃ r, read_response decode arrived clock (Z.to_nat (timeout / 10) + 2) 0 deadline = Some r ∧
    ∃ n, (∀ i, (i < n)%nat → clock i < deadline) ∧
    answered deadline n r.
Proof.
  intros Ht. cbn zeta. destruct (read_response_total (Z.to_nat (timeout / 10) + 2) 0 (clock 0%nat + timeout))
    as (r & Hr & n & _ & Hbefore & Hspec).
  { replace (clock 0%nat + timeout - clock 0%nat + 9) with (timeout + 9) by lia.
    pose proof (Z.div_le_mono (timeout + 9) (timeout + 1 * 10) 10 ltac:(lia) ltac:(lia)) as Hround.
    rewrite Z.div_add in Hround by lia. lia. }
  exists r. split; [done |]. exists n. split; [| done]. intros i Hi. apply Hbefore. lia.
Qed.
End whole.

Lemma fetch_is_bounded_witness :
  ∃ s', http_get (λ _, Some (mkUrlComponents 2 "example.org" "/latest.json" "" 443)) (Some 200)
    (λ k, nth k [Some [1; 2]; Some [3]; Some []] None) "https://example.org/latest.json" 4 (mkHttp [] 0 [] [])
    = (Ok [1; 2; 3], s') ∧ ht_open s' = [].
Proof.
  pose proof (fetch_is_bounded (λ _, Some (mkUrlComponents 2 "example.org" "/latest.json" "" 443)) (Some 200)
    (λ k, nth k [Some [1; 2]; Some [3]; Some []] None) "https://example.org/latest.json" 4 (mkHttp [] 0 [] [])
    ltac:(lia) ltac:(constructor)) as [Ho _].
  eexists. split; [vm_compute; reflexivity | exact Ho].
Defined.

Lemma response_is_read_whole_witness :
  ∃ r, read_response (λ b, Some b) (λ k, if (k <? 3)%nat then Some (take k [1; 0; 0; 0]) else Some [1; 0; 0; 0; 7])
      (λ k, 10 * Z.of_nat k) (Z.to_nat (100 / 10) + 2) 0 100 = Some r ∧ r = Ok ([7], []).
Proof.
  destruct (response_is_read_whole (λ b, Some b) (λ k, if (k <? 3)%nat then Some (take k [1; 0; 0; 0]) else Some [1; 0; 0; 0; 7])
      (λ k, 10 * Z.of_nat k)) with (timeout := 100) as (r & Hr & _).
  - lia.
  - intros k stream H. destruct (k <? 3)%nat; injection H as <-; try apply Forall_take; repeat (constructor; [unfold byte_ok; lia |]); constructor.
  - lia.
  - exists r. split; [exact Hr |]. vm_compute in Hr. by injection Hr as <-.
Defined.
