(* ===== verification/Service.v ===== *)
(** * The injector process

    [flowtype-injector/src/main.rs]: the start of the process, its single instance, the
    security of its pipe, the check of each client and the loop that serves one client
    after the other; and [speech.rs], which makes the text service the active speech
    profile. What is done with the requests of a client is [Injector.serve_requests]. *)

From S2P Require Import Prelude Text Protocol Ipc Windows TipBroker Injector InjectorSafety.
Local Open Scope string_scope.
Local Open Scope list_scope.
Local Open Scope Z_scope.

(** ** What the process holds of the system *)

(** A block is memory that the system allocated for the process. *)
Inductive HandleKind := Token | Mutex | PipeInstance | ProcessHandle | Block.
#[global] Instance HandleKind_eq_dec : EqDecision HandleKind.
Proof. solve_decision. Defined.
Notation Handle := (HandleKind * Z)%type (only parsing).

(** The calls that only succeed or fail. *)
Inductive Call :=
| CallCoInitialize | CallConvertDescriptor | CallCreateMutex | CallConnectPipe | CallOpenProcessToken
| CallTokenLength | CallTokenUser | CallSidString | CallTokenElevation | CallCloseHandle | CallLocalFree | CallProfileManager.

Class ServiceSystem (W : Type) := {
  call : Call → W → W * bool;
  (* [GetLastError] *)
  last_error : W → Z;
  (* [CreateNamedPipeW] for one instance, which this process has or has not *)
  create_pipe : bool → W → W * bool;
  client_process_id : W → W * option Z;
  open_process : Z → W → W * bool;
  query_image : W → W * option string;
  user_sid : W → string;
  token_elevated : W → bool;
  process_id : W → Z;
  unix_nanos : W → option Z;
  (* [GetProfile] and [ActivateProfile]: the flags of the profile, or an error code *)
  get_profile : W → W * result Z Z;
  activate_profile : Z → W → W * result Z unit;
}.

Definition ERROR_ACCESS_DENIED : Z := 5.
Definition ERROR_ALREADY_EXISTS : Z := 183.
Definition ERROR_PIPE_BUSY : Z := 231.
Definition ERROR_PIPE_CONNECTED : Z := 535.
Definition E_FAIL : Z := 0x80004005.

Inductive IoError := OsError (code : Z) | KindError (kind text : string).

(** [error.kind() == PermissionDenied], of a file or pipe call. *)
Definition is_permission_denied (e : IoError) : bool :=
  match e with OsError code => code =? ERROR_ACCESS_DENIED | KindError kind _ => bool_decide (kind = "PermissionDenied") end.

(** What is seen of the process, newest first: the lines of its log, a client's image
    path next to the expected one, a client being served, a profile being activated. *)
Inductive Event := EvLog (line : string) | EvChecked (actual expected : string) | EvServed | EvActivated (flags : Z).

Definition holds_pipe (hs : list Handle) : bool := existsb (λ h, bool_decide (h.1 = PipeInstance)) hs.

Section service.
Context {W : Type} `{DW : Win32 W} `{TP : TipPipes W} `{HI : InjectorHost W} `{SY : ServiceSystem W}.
(** No client makes more requests. *)
Context (requests : nat).

Record Service := mkService {
  sv_injector : injector W;
  sv_handles : list Handle;
  sv_next : Z;
  sv_accept_failure_logged : bool;
  sv_events : list Event;
}.

Notation svc := (sr Service IoError).

Definition with_injector (i : injector W) (s : Service) : Service :=
  mkService i (sv_handles s) (sv_next s) (sv_accept_failure_logged s) (sv_events s).
Definition with_handles (hs : list Handle) (s : Service) : Service :=
  mkService (sv_injector s) hs (sv_next s) (sv_accept_failure_logged s) (sv_events s).
Definition set_accept_failure_logged (b : bool) : svc unit :=
  sr_modify (λ s, mkService (sv_injector s) (sv_handles s) (sv_next s) b (sv_events s)).
Definition emit (e : Event) : svc unit :=
  sr_modify (λ s, mkService (sv_injector s) (sv_handles s) (sv_next s) (sv_accept_failure_logged s) (e :: sv_events s)).

(** What the system says without being changed. *)
Definition ask {A} (f : W → A) : svc A := λ s, (Ok (f (world (sv_injector s))), s).

(** [injector/diagnostics.rs log] *)
Definition log (line : string) : svc unit := emit (EvLog line).

(** A call, and the hooks of the inputs that came meanwhile. *)
Definition sys {A} (f : W → W * A) : svc A := λ s,
  let '(w, a) := f (world (sv_injector s)) in (Ok a, with_injector (settle_world w (sv_injector s)) s).

Definition last_os_error {A} : svc A := λ s, (Err (OsError (last_error (world (sv_injector s)))), s).

(** A call whose failure is the error. *)
Definition ensured (c : Call) : svc unit := ok ← sys (call c); if ok : bool then mret tt else last_os_error.

Definition hold (kind : HandleKind) : svc Handle := λ s,
  let h := (kind, sv_next s) in
  (Ok h, mkService (sv_injector s) (h :: sv_handles s) (sv_next s + 1) (sv_accept_failure_logged s) (sv_events s)).

(** [CloseHandle], [LocalFree] *)
Definition release (h : Handle) : svc unit :=
  _ ← sys (call (if decide (h.1 = Block) then CallLocalFree else CallCloseHandle));
  sr_modify (λ s, with_handles (filter (λ g, g ≠ h) (sv_handles s)) s).

(** [let result = (|| ...)(); CloseHandle(h); result], and the drop of an owner of [h]. *)
Definition releasing {A} (h : Handle) (c : svc A) : svc A := λ s,
  let '(r, s) := c s in let '(_, s) := release h s in (r, s).

(** ** The start of the process *)

(** [injector/main.rs pipe_security_sddl] The user, the system and administrators. *)
Definition pipe_security_sddl : svc string :=
  _ ← ensured CallOpenProcessToken;
  token ← hold Token;
  releasing token (
    (* the first call only tells the length *)
    enough ← sys (call CallTokenLength);
    if negb enough then last_os_error
    else
      _ ← ensured CallTokenUser;
      _ ← ensured CallSidString;
      sid_text ← hold Block;
      sid ← ask user_sid;
      _ ← release sid_text;
      mret ("D:P(A;;GA;;;" +:+ sid +:+ ")(A;;GA;;;SY)(A;;GA;;;BA)")).

(** [injector/main.rs InjectorInstance::acquire] *)
Definition InjectorInstance_acquire (sddl : string) : svc (option Handle) :=
  _ ← ensured CallConvertDescriptor;
  descriptor ← hold Block;
  created ← sys (call CallCreateMutex);
  (* the handle exists as soon as the call succeeded *)
  handle ← (if created : bool then h ← hold Mutex; mret (Some h) else mret None);
  code ← ask last_error;
  _ ← release descriptor;
  match handle with
  | None => sr_fail (OsError code)
  | Some handle =>
    if code =? ERROR_ALREADY_EXISTS then _ ← release handle; mret None
    else mret (Some handle)
  end.

(** [injector/main.rs is_elevated] *)
Definition is_elevated : svc bool :=
  _ ← ensured CallOpenProcessToken;
  token ← hold Token;
  releasing token (
    _ ← ensured CallTokenElevation;
    ask token_elevated).

(** [injector/main.rs service_instance_id] *)
Definition service_instance_id (w : W) : string :=
  of_bytes (decimal (process_id w)) +:+ "-" +:+ of_bytes (decimal (default 0 (unix_nanos w))).

(** *** The speech profile *)

Definition TF_IPP_FLAG_ACTIVE : Z := 1.
Definition TF_IPP_FLAG_ENABLED : Z := 2.
Definition TF_IPPMF_ENABLEPROFILE : Z := 1.
Definition TF_IPPMF_DONTCARECURRENTINPUTLANGUAGE : Z := 4.
Definition TF_IPPMF_FORSESSION : Z := 0x20000000.

(** [injector/speech.rs:19-19 ACTIVATE_FLAGS] *)
Definition ACTIVATE_FLAGS : Z := Z.lor TF_IPPMF_FORSESSION TF_IPPMF_DONTCARECURRENTINPUTLANGUAGE.

(** [injector/speech.rs flowtype_profile] *)
Definition flowtype_profile : svc Z := λ s,
  match sys get_profile s with
  | (Ok (Ok flags), s) => (Ok flags, s)
  | (Ok (Err code), s) => (Err (OsError code), s)
  | (Err e, s) => (Err e, s)
  end.

(** [injector/speech.rs ensure_flowtype_active] *)
Definition ensure_flowtype_active : svc unit :=
  _ ← ensured CallProfileManager;
  flags ← flowtype_profile;
  if negb (Z.land flags TF_IPP_FLAG_ACTIVE =? 0) then mret tt
  else
    let repair_disabled_profile := if Z.land flags TF_IPP_FLAG_ENABLED =? 0 then TF_IPPMF_ENABLEPROFILE else 0 in
    _ ← emit (EvActivated (Z.lor ACTIVATE_FLAGS repair_disabled_profile));
    activated ← sys (activate_profile (Z.lor ACTIVATE_FLAGS repair_disabled_profile));
    _ ← (match activated with Ok _ => mret tt | Err code => sr_fail (OsError code) end);
    flags ← flowtype_profile;
    if Z.land flags TF_IPP_FLAG_ACTIVE =? 0 then sr_fail (OsError E_FAIL) else mret tt.

(** ** One client after the other *)

(** [path.parent().join(name)] of the path of an executable. *)
Definition sibling (path name : string) : option string :=
  match rsplit_once 92 (bytes_of path) with
  | Some (directory, _) => Some (of_bytes (directory ++ 92 :: bytes_of name))
  | None => if str_is_empty path then None else Some name
  end.

(** [injector/main.rs is_expected_client] *)
Definition is_expected_client : svc bool :=
  pid ← sys client_process_id;
  match pid with
  | None => last_os_error
  | Some pid =>
    opened ← sys (open_process pid);
    if negb opened then last_os_error
    else
      process ← hold ProcessHandle;
      image ← sys query_image;
      _ ← release process;
      match image with
      | None => last_os_error
      | Some actual =>
        exe ← ask current_exe;
        match exe with
        | None => sr_fail (KindError "NotFound" "current_exe")
        | Some exe =>
          match sibling exe "flowtype.exe" with
          | None => sr_fail (KindError "NotFound" "input service path has no parent")
          | Some expected =>
            _ ← emit (EvChecked actual expected);
            mret (eq_ignore_ascii_case actual expected)
          end
        end
      end
  end.


(** [injector/main.rs accept_pipe] When the check of the client fails, rather than
    refuses, the handle stays open. *)
Definition accept_pipe (sddl : string) : svc Handle :=
  _ ← ensured CallConvertDescriptor;
  descriptor ← hold Block;
  existing ← (λ s, (Ok (holds_pipe (sv_handles s)), s));
  created ← sys (create_pipe existing);
  handle ← (if created : bool then h ← hold PipeInstance; mret (Some h) else mret None);
  _ ← release descriptor;
  match handle with
  | None => last_os_error
  | Some handle =>
    connected ← sys (call CallConnectPipe);
    code ← ask last_error;
    if negb connected && negb (code =? ERROR_PIPE_CONNECTED) then _ ← release handle; last_os_error
    else
      expected ← is_expected_client;
      if negb expected then _ ← release handle; sr_fail (KindError "PermissionDenied" "unexpected pipe client")
      else mret handle
  end.

(** [injector/main.rs:92-110 main] The requests of a client until its pipe fails; what it
    leaves is ended before its pipe is closed. *)
Definition serve_client (instance_id : string) (elevated : bool) (pipe : Handle) : svc unit :=
  releasing pipe (
    _ ← emit EvServed;
    sr_modify (λ s, with_injector
      (set_completed None (end_failed_session (serve_requests instance_id elevated requests (sv_injector s)))) s)).

Definition denied_text (e : IoError) : string :=
  "injector pipe accept denied: " +:+ match e with OsError code => of_bytes (decimal code) | KindError _ text => text end.

(** [injector/main.rs:77-111 main] The body of the loop. *)
Definition accept_round (sddl instance_id : string) (elevated : bool) : svc unit := λ s,
  match accept_pipe sddl s with
  | (Ok pipe, s) => (_ ← set_accept_failure_logged false; serve_client instance_id elevated pipe) s
  | (Err e, s) =>
    if is_permission_denied e then
      if sv_accept_failure_logged s then (Ok tt, s)
      else (_ ← log (denied_text e); set_accept_failure_logged true) s
    else (Err e, s)
  end.

(** The first rounds of the loop, which is left by an error only. *)
Fixpoint accept_rounds (n : nat) (sddl instance_id : string) (elevated : bool) : svc unit :=
  match n with
  | O => mret tt
  | S n => _ ← accept_round sddl instance_id elevated; accept_rounds n sddl instance_id elevated
  end.

Definition logging (text : string) (c : svc unit) : svc unit := λ s,
  match c s with (Ok _, s) => (Ok tt, s) | (Err _, s) => log text s end.

(** [injector/main.rs main] Up to the given round. *)
Definition main (n : nat) : svc unit :=
  _ ← log "startup";
  initialized ← sys (call CallCoInitialize);
  if negb initialized then _ ← log "speech com init failed"; sr_fail (KindError "Other" "com")
  else
    pipe_sddl ← pipe_security_sddl;
    instance ← InjectorInstance_acquire pipe_sddl;
    match instance with
    | None => log "startup existing_instance"
    | Some instance =>
      releasing instance (
        _ ← logging "speech profile activation failed" ensure_flowtype_active;
        instance_id ← ask service_instance_id;
        elevated ← is_elevated;
        _ ← log ("service instance=" +:+ instance_id);
        accept_rounds n pipe_sddl instance_id elevated)
    end.
End service.
Arguments Service : clear implicits.

(** ** Rules for its programs

    Between two clients the injector is idle. [runs hs es c Q]: from handles [hs] and
    events [es], [c] ends with a result, handles and events of [Q], the injector idle. *)

Section rules.
Context {W : Type} `{DW : Win32 W} `{TP : TipPipes W} `{HI : InjectorHost W} `{SY : ServiceSystem W}.
Notation svc := (sr (Service W) IoError).
Implicit Types (s : Service W) (hs : list Handle) (es : list Event).

Definition idle (i : injector W) : Prop := in_session i = None ∧ in_completed i = None ∧ monitored i.

Definition holding hs es s : Prop :=
  sv_handles s = hs ∧ sv_events s = es ∧ Forall (λ h, h.2 < sv_next s) hs ∧ NoDup hs.*2 ∧ idle (sv_injector s).

Definition runs {A} hs es (c : svc A) (Q : result IoError A → list Handle → list Event → Prop) : Prop :=
  ∀ s, holding hs es s → ∃ hs' es', holding hs' es' (c s).2 ∧ Q (c s).1 hs' es'.

Lemma idle_settle w (i : injector W) : idle i → idle (settle_world w i).
Proof.
  intros (Hs & Hc & Hm). unfold idle, monitored, settle_world in *.
  set (b := mkBroker _ _ _). destruct (settle_monitor b i) as [Hm' Hs']. rewrite Hm', Hs'. split_and!; [done | | done].
  unfold settle. by destruct (take_inputs _).
Qed.

Lemma serve_requests_monitored instance_id elevated fuel (i : injector W) :
  monitored i → monitored (serve_requests instance_id elevated fuel i).
Proof.
  assert (∀ w (j : injector W), monitored j → monitored (settle_world w j)) as Hsettle.
  { intros w j Hj. unfold monitored, settle_world in *. by destruct (settle_monitor (mkBroker w (br_registry (in_broker j)) (br_log (in_broker j))) j) as [-> ->]. }
  revert i. induction fuel as [|fuel IH]; intros i Hi; cbn [serve_requests]; [done |].
  destruct (read_request (world i)) as [w request]. specialize (Hsettle w i Hi) as Hread.
  destruct request as [request |]; [| done].
  pose proof (monitor_while_session instance_id elevated request _ Hread) as Hr.
  destruct (handle_request instance_id elevated request (settle_world w i)) as [response j]. cbn [snd] in Hr.
  destruct (write_response (world j) response) as [w' written]. destruct written; auto.
Qed.

(** Whatever a client did, nothing of it is left. *)
Lemma idle_after_client instance_id elevated fuel (i : injector W) :
  idle i → idle (set_completed None (end_failed_session (serve_requests instance_id elevated fuel i))).
Proof.
  intros (_ & _ & Hm). apply (serve_requests_monitored instance_id elevated fuel) in Hm.
  destruct (end_failed_session_monitored _ Hm) as [Hm' Hs]. split; [done |]. done.
Qed.

Lemma svc_ret {A} hs es (a : A) Q : Q (Ok a) hs es → runs hs es (mret a) Q.
Proof. intros HQ s Hs. by exists hs, es. Qed.

Lemma svc_fail {A} hs es (e : IoError) (Q : result IoError A → _) : Q (Err e) hs es → runs hs es (sr_fail e) Q.
Proof. intros HQ s Hs. by exists hs, es. Qed.

Lemma svc_last_error {A} hs es (Q : result IoError A → _) : (∀ code, Q (Err (OsError code)) hs es) → runs hs es last_os_error Q.
Proof. intros HQ s Hs. exists hs, es. split; [done | apply HQ]. Qed.

Lemma svc_bind {A B} hs es (c : svc A) (f : A → svc B) R Q :
  runs hs es c R → (∀ a hs' es', R (Ok a) hs' es' → runs hs' es' (f a) Q) →
  (∀ e hs' es', R (Err e) hs' es' → Q (Err e) hs' es') → runs hs es (a ← c; f a) Q.
Proof.
  intros Hc Hf He s Hs. destruct (Hc s Hs) as (hs' & es' & Hs' & HR). unfold mbind, sr_bind.
  destruct (c s) as [[a | e] t]; cbn [fst snd] in *; [by eapply Hf | by eauto].
Qed.

Lemma svc_sys {A B} hs es (f : W → W * A) (k : A → svc B) Q :
  (∀ w, runs hs es (k (f w).2) Q) → runs hs es (a ← sys f; k a) Q.
Proof.
  intros Hk s (Hh & He & Hf & Hn & Hi). specialize (Hk (world (sv_injector s))). unfold mbind, sr_bind, sys.
  destruct (f (world (sv_injector s))) as [w a]. apply Hk. unfold holding. cbn. split_and!; [done.. | by apply idle_settle].
Qed.

Lemma svc_ask {A B} hs es (f : W → A) (k : A → svc B) Q :
  (∀ w, runs hs es (k (f w)) Q) → runs hs es (a ← ask f; k a) Q.
Proof. intros Hk s Hs. by apply (Hk (world (sv_injector s))). Qed.

Lemma svc_holds_pipe {B} hs es (k : bool → svc B) Q :
  runs hs es (k (holds_pipe hs)) Q → runs hs es (a ← (λ s, (Ok (holds_pipe (sv_handles s)), s)); k a) Q.
Proof. intros Hk s Hs. destruct (Hs) as (<- & _). by apply Hk. Qed.

Lemma svc_ensured {B} hs es (c : Call) (k : unit → svc B) Q :
  (∀ code, Q (Err (OsError code)) hs es) → runs hs es (k tt) Q → runs hs es (a ← ensured c; k a) Q.
Proof.
  intros He Hk. eapply (svc_bind _ _ _ _ (λ r hs' es', hs' = hs ∧ es' = es ∧ match r with Ok _ => True | Err e => ∃ code, e = OsError code end)).
  - unfold ensured. apply svc_sys. intros w. destruct (call c w).2; [by apply svc_ret | apply svc_last_error; eauto].
  - by intros [] ? ? (-> & -> & _).
  - by intros e ? ? (-> & -> & code & ->).
Qed.

Lemma svc_emit {B} hs es e (k : unit → svc B) Q : runs hs (e :: es) (k tt) Q → runs hs es (a ← emit e; k a) Q.
Proof. intros Hk s (Hh & He & Hf & Hn & Hi). apply Hk. unfold holding. cbn. rewrite He. by split_and!. Qed.

Lemma svc_log hs es e Q : Q (Ok tt) hs (e :: es) → runs hs es (emit e) Q.
Proof.
  intros HQ s (Hh & He & Hf & Hn & Hi). exists hs, (e :: es). split; [| done]. split_and!; try done. cbn. by rewrite He.
Qed.

Lemma svc_hold {B} hs es kind (k : Handle → svc B) Q :
  (∀ n, n ∉ hs.*2 → runs ((kind, n) :: hs) es (k (kind, n)) Q) → runs hs es (h ← hold kind; k h) Q.
Proof.
  intros Hk s (Hh & He & Hf & Hn & Hi).
  assert (sv_next s ∉ hs.*2) as Hfresh.
  { rewrite list_elem_of_fmap. intros ([kd n] & Heq & Hin). rewrite Forall_forall in Hf. specialize (Hf _ Hin). cbn in *. lia. }
  apply (Hk (sv_next s) Hfresh). unfold holding. cbn. rewrite Hh. split_and!; [done | done | | by constructor | done].
  constructor; [cbn; lia |]. eapply Forall_impl; [exact Hf |]. cbn. lia.
Qed.

Lemma svc_hold_if {B} hs es kind (b : bool) (k : option Handle → svc B) Q :
  (b = true → ∀ n, n ∉ hs.*2 → runs ((kind, n) :: hs) es (k (Some (kind, n))) Q) → (b = false → runs hs es (k None) Q) →
  runs hs es (h ← (if b then h ← hold kind; mret (Some h) else mret None); k h) Q.
Proof.
  intros Ht Hf. destruct b; [| by apply Hf]. specialize (Ht eq_refl). intros s Hs.
  destruct (svc_hold hs es kind (λ h, k (Some h)) Q Ht s Hs) as (hs' & es' & H'). exists hs', es'. exact H'.
Qed.

Lemma NoDup_fmap_filter h hs : NoDup hs.*2 → NoDup (filter (λ g, g ≠ h) hs).*2.
Proof.
  induction hs as [|g hs IH]; [done |]. rewrite fmap_cons, filter_cons. intros [Hg Hn]%NoDup_cons.
  destruct (decide (g ≠ h)); [| by apply IH]. cbn. constructor; [| by apply IH].
  contradict Hg. rewrite list_elem_of_fmap in *. destruct Hg as (x & Hx & [_ Hin]%list_elem_of_filter). eauto.
Qed.

Lemma holding_filter hs es s h : holding hs es s → holding (filter (λ g, g ≠ h) hs) es (with_handles (filter (λ g, g ≠ h) (sv_handles s)) s).
Proof.
  intros (Hh & He & Hf & Hn & Hi). unfold holding. cbn. rewrite Hh. split_and!; [done | done | | | done].
  - rewrite Forall_forall in *. intros x [_ Hx]%list_elem_of_filter. by apply Hf.
  - by apply NoDup_fmap_filter.
Qed.

Lemma svc_release {B} hs es h (k : unit → svc B) Q :
  runs (filter (λ g, g ≠ h) hs) es (k tt) Q → runs hs es (a ← release h; k a) Q.
Proof.
  intros Hk. unfold release. intros s Hs. rewrite sr_bind_assoc. revert s Hs. apply svc_sys. intros _ s Hs.
  apply Hk. by apply holding_filter.
Qed.

Lemma svc_releasing {A} hs es h (c : svc A) Q :
  runs hs es c (λ r hs' es', NoDup hs'.*2 → Q r (filter (λ g, g ≠ h) hs') es') → runs hs es (releasing h c) Q.
Proof.
  intros Hc s Hs. destruct (Hc s Hs) as (hs' & es' & Hs' & HQ). unfold releasing. destruct (c s) as [r t]. cbn [fst snd] in *.
  assert (runs hs' es' (a ← release h; mret a) (λ _ hs'' es'', hs'' = filter (λ g, g ≠ h) hs' ∧ es'' = es')) as Hrel.
  { apply svc_release. by apply svc_ret. }
  destruct (Hrel t Hs') as (hs'' & es'' & Ht & -> & ->). unfold mbind, sr_bind in Ht. destruct (release h t) as [rr u] eqn:E.
  assert (rr = Ok tt) as ->.
  { revert E. unfold release, mbind, sr_bind, sys. destruct (call _ _). by intros [= <- _]. }
  exists (filter (λ g, g ≠ h) hs'), es'. split; [done |]. apply HQ. by destruct Hs' as (_ & _ & _ & ? & _).
Qed.

Lemma drop_fresh kind n hs : n ∉ hs.*2 → filter (λ g, g ≠ (kind, n)) ((kind, n) :: hs) = hs.
Proof.
  intros Hn. rewrite filter_cons_False by (intros Hne; by apply Hne). apply filter_all, Forall_forall. intros g Hg ->.
  apply Hn, list_elem_of_fmap. by exists (kind, n).
Qed.

Lemma drop_under kind n kind' n' hs : n ∉ hs.*2 → n' ∉ ((kind, n) :: hs).*2 →
  filter (λ g, g ≠ (kind, n)) ((kind', n') :: (kind, n) :: hs) = (kind', n') :: hs.
Proof.
  intros Hn Hn'. rewrite filter_cons_True, drop_fresh; [done | done |]. intros [= _ ->]. apply Hn'. cbn. by left.
Qed.

(** ** What its programs do *)

Definition unchanged {A} hs es (_ : result IoError A) hs' es' : Prop := hs' = hs ∧ es' = es.

Lemma pipe_security_sddl_runs hs es : runs hs es pipe_security_sddl (unchanged hs es).
Proof.
  apply svc_ensured; [done |]. apply svc_hold. intros n Hn. apply svc_releasing.
  assert (∀ (r : result IoError string), unchanged hs es r (filter (λ g, g ≠ (Token, n)) ((Token, n) :: hs)) es) as Hend
    by (intros r; unfold unchanged; by rewrite drop_fresh).
  apply svc_sys. intros w. case_match; [apply svc_last_error; auto |].
  apply svc_ensured; [auto |]. apply svc_ensured; [auto |]. apply svc_hold. intros m Hm. apply svc_ask. intros w'.
  apply svc_release. rewrite drop_fresh by done. apply svc_ret. auto.
Qed.

Lemma is_elevated_runs hs es : runs hs es is_elevated (unchanged hs es).
Proof.
  apply svc_ensured; [done |]. apply svc_hold. intros n Hn. apply svc_releasing.
  apply svc_ensured; [intros; split; [by rewrite drop_fresh | done] |].
  intros s Hs. exists ((Token, n) :: hs), es. split; [done |]. intros _. split; [by rewrite drop_fresh | done].
Qed.

Lemma acquire_runs sddl hs es :
  runs hs es (InjectorInstance_acquire sddl) (λ r hs' es', es' = es ∧
    match r with Ok (Some h) => hs' = h :: hs ∧ h.1 = Mutex | _ => hs' = hs end).
Proof.
  apply svc_ensured; [done |]. apply svc_hold. intros d Hd. apply svc_sys. intros w.
  apply svc_hold_if; intros _; [intros m Hm |]; apply svc_ask; intros w'; apply svc_release.
  - rewrite drop_under by done. assert (m ∉ hs.*2) as Hm' by (contradict Hm; by right).
    case_match; [| by apply svc_ret]. apply svc_release. rewrite drop_fresh by done. by apply svc_ret.
  - rewrite drop_fresh by done. by apply svc_fail.
Qed.

Section app.
(** The image of the desktop app next to the service; one instance of the pipe at a time. *)
Context (exe app : string).
Hypothesis exe_is : ∀ w x, current_exe (W:=W) w = Some x → x = exe.
Hypothesis app_is : sibling exe "flowtype.exe" = Some app.
Hypothesis one_instance : ∀ w, (create_pipe (W:=W) true w).2 = false.

(** Each client that was served had just been checked to be the app. *)
Fixpoint served_the_app (es : list Event) : Prop :=
  match es with
  | [] => True
  | EvServed :: es =>
    match es with EvChecked actual _ :: _ => eq_ignore_ascii_case actual app = true | _ => False end ∧ served_the_app es
  | _ :: es => served_the_app es
  end.

Definition served_count (es : list Event) : nat :=
  length (List.filter (λ e, match e with EvServed => true | _ => false end) es).

Lemma is_expected_client_runs hs es :
  runs hs es is_expected_client (λ r hs' es', hs' = hs ∧
    match r with
    | Ok b => ∃ actual, es' = EvChecked actual app :: es ∧ b = eq_ignore_ascii_case actual app
    | Err _ => es' = es
    end).
Proof.
  apply svc_sys. intros w. destruct (client_process_id w).2 as [pid |]; [| by apply svc_last_error].
  apply svc_sys. intros w'. case_match; [by apply svc_last_error |]. apply svc_hold. intros n Hn. apply svc_sys. intros w2.
  apply svc_release. rewrite drop_fresh by done. destruct (query_image w2).2 as [actual |]; [| by apply svc_last_error].
  apply svc_ask. intros w3. destruct (current_exe w3) as [x |] eqn:Hx; [| by apply svc_fail].
  apply exe_is in Hx as ->. rewrite app_is. apply svc_emit, svc_ret. eauto.
Qed.

(** A pipe is given for the app only; a client that was refused leaves nothing. *)
Lemma accept_pipe_runs sddl hs es :
  runs hs es (accept_pipe sddl) (λ r hs' es',
    match r with
    | Ok pipe => holds_pipe hs = false ∧ hs' = pipe :: hs ∧ pipe.1 = PipeInstance ∧ pipe.2 ∉ hs.*2 ∧
        ∃ actual, es' = EvChecked actual app :: es ∧ eq_ignore_ascii_case actual app = true
    | Err _ => (es' = es ∨ ∃ actual, es' = EvChecked actual app :: es) ∧
        (hs' = hs ∨ holds_pipe hs = false ∧ ∃ n, n ∉ hs.*2 ∧ hs' = (PipeInstance, n) :: hs)
    end).
Proof.
  apply svc_ensured; [auto |]. apply svc_hold. intros d Hd. apply svc_holds_pipe. cbn [holds_pipe existsb orb bool_decide].
  fold (holds_pipe hs). change (existsb _ hs) with (holds_pipe hs). cbn.
  apply svc_sys. intros w. apply svc_hold_if; [intros Hc n Hn | intros Hc]; apply svc_release.
  2: { rewrite drop_fresh by done. apply svc_last_error. auto. }
  rewrite drop_under by done. assert (n ∉ hs.*2) as Hn' by (contradict Hn; by right).
  assert (holds_pipe hs = false) as Hnone by (destruct (holds_pipe hs); [by rewrite one_instance in Hc | done]).
  apply svc_sys. intros w'. apply svc_ask. intros w2. case_match.
  { apply svc_release. rewrite drop_fresh by done. apply svc_last_error. auto. }
  eapply svc_bind; [apply is_expected_client_runs | |].
  - intros b ? ? [-> (actual & -> & ->)]. destruct (eq_ignore_ascii_case actual app) eqn:Heq; cbn [negb].
    + apply svc_ret. eauto 10.
    + apply svc_release. rewrite drop_fresh by done. apply svc_fail. eauto.
  - intros e ? ? [-> ->]. eauto 10.
Qed.

Lemma serve_client_runs requests instance_id elevated kind n hs es : n ∉ hs.*2 →
  runs ((kind, n) :: hs) es (serve_client requests instance_id elevated (kind, n)) (λ r hs' es', r = Ok tt ∧ hs' = hs ∧ es' = EvServed :: es).
Proof.
  intros Hn. apply svc_releasing, svc_emit. intros s (Hh & He & Hf & Hd & Hi). exists ((kind, n) :: hs), (EvServed :: es).
  split; [split_and!; try done; by apply idle_after_client |]. intros _. by rewrite drop_fresh.
Qed.

(** After any part of the loop: what is held besides [hs] is at most an instance of the
    pipe, and nobody is served while one was left. *)
Definition rounds_post hs es (r : result IoError unit) hs' es' : Prop :=
  served_the_app es' ∧
  (hs' = hs ∨ holds_pipe hs = false ∧ ∃ n, n ∉ hs.*2 ∧ hs' = (PipeInstance, n) :: hs) ∧
  (holds_pipe hs = true → served_count es' = served_count es).

Lemma accept_round_runs requests sddl instance_id elevated hs es :
  served_the_app es → runs hs es (accept_round requests sddl instance_id elevated) (rounds_post hs es).
Proof.
  intros Hes s Hs. destruct (accept_pipe_runs sddl hs es s Hs) as (hs' & es' & Hs' & Hspec). unfold accept_round.
  destruct (accept_pipe sddl s) as [[[kind n] | e] t]; cbn [fst snd] in Hs', Hspec.
  - destruct Hspec as (Hnone & -> & _ & Hn & actual & -> & Heq).
    destruct (serve_client_runs requests instance_id elevated kind n hs (EvChecked actual app :: es) Hn
      (mkService (sv_injector t) (sv_handles t) (sv_next t) false (sv_events t)) Hs') as (hs2 & es2 & Hs2 & Hr & -> & ->).
    eexists _, _. split; [exact Hs2 |]. split; [done |]. split; [by left | congruence].
  - destruct Hspec as [Hev Hh].
    assert (served_the_app es' ∧ served_count es' = served_count es) as [Hes' Hcount]
      by (destruct Hev as [-> | [actual ->]]; done).
    assert (∀ r, rounds_post hs es r hs' es') as Hpost by (intros r; split; [done |]; split; [exact Hh | done]).
    case_match; [| by exists hs', es']. case_match; [by exists hs', es' |].
    destruct Hs' as (? & ? & ? & ? & ?). exists hs', (EvLog (denied_text e) :: es'). split; [| exact (Hpost (Ok tt))].
    unfold holding. split_and!; try done. by apply (f_equal (cons (EvLog (denied_text e)))).
Qed.

Lemma accept_rounds_runs requests n sddl instance_id elevated hs es :
  served_the_app es → runs hs es (accept_rounds requests n sddl instance_id elevated) (rounds_post hs es).
Proof.
  revert hs es. induction n as [|n IH]; intros hs es Hes; [apply svc_ret; split_and!; auto |].
  cbn [accept_rounds]. eapply svc_bind; [by apply accept_round_runs | | done].
  intros [] hs1 es1 (Hes1 & Hh1 & Hc1) s Hs. destruct (IH hs1 es1 Hes1 s Hs) as (hs2 & es2 & Hs2 & Hes2 & Hh2 & Hc2).
  exists hs2, es2. split; [done |]. split; [done |]. destruct Hh1 as [-> | (Hnone & k & Hk & ->)].
  - split; [done |]. intros Ht. by rewrite Hc2, Hc1.
  - split; [| congruence]. right. split; [done |]. exists k. split; [done |].
    destruct Hh2 as [-> | [[=] _]]. done.
Qed.

Lemma ensure_flowtype_active_runs hs es :
  runs hs es ensure_flowtype_active (λ _ hs' es', hs' = hs ∧ (es' = es ∨ ∃ flags, es' = EvActivated flags :: es)).
Proof.
  assert (∀ es1 (k : Z → svc unit) (Q : result IoError unit → _),
    (∀ code, Q (Err (OsError code)) hs es1) → (∀ flags, runs hs es1 (k flags) Q) →
    runs hs es1 (flags ← flowtype_profile; k flags) Q) as Hprofile.
  { intros es1 k Q He Hk. eapply (svc_bind _ _ _ _ (λ r hs' es', hs' = hs ∧ es' = es1 ∧ match r with Ok _ => True | Err e => ∃ code, e = OsError code end)).
    - assert (runs hs es1 (r ← sys get_profile; match r with Ok flags => mret flags | Err code => sr_fail (OsError code) end)
        (λ r hs' es', hs' = hs ∧ es' = es1 ∧ match r with Ok _ => True | Err e => ∃ code, e = OsError code end)) as Hget.
      { apply svc_sys. intros w. destruct (get_profile w).2 as [flags | code]; [by apply svc_ret | apply svc_fail; eauto]. }
      intros s Hs. destruct (Hget s Hs) as (hs' & es' & Hget'). exists hs', es'. unfold flowtype_profile, mbind, sr_bind in *.
      by destruct (sys get_profile s) as [[[flags | code] |] t].
    - by intros flags ? ? (-> & -> & _).
    - by intros e ? ? (-> & -> & code & ->). }
  apply svc_ensured; [auto |]. apply Hprofile; [auto |]. intros flags. case_match; [apply svc_ret; auto |].
  apply svc_emit, svc_sys. intros w. destruct (activate_profile _ w).2; [| by apply svc_fail; eauto].
  apply Hprofile; [eauto |]. intros flags'.
  destruct (Z.land flags' TF_IPP_FLAG_ACTIVE =? 0); [apply svc_fail | apply svc_ret]; eauto.
Qed.

Lemma main_runs requests n : runs [] [] (main requests n) (λ _ hs' es',
  served_the_app es' ∧ (hs' = [] ∨ ∃ k, hs' = [(PipeInstance, k)])).
Proof.
  apply svc_emit, svc_sys. intros w. destruct (call CallCoInitialize w).2; [| apply svc_emit, svc_fail; split; [done | by left]].
  eapply svc_bind; [apply pipe_security_sddl_runs | | intros e ? ? [-> ->]; split; [done | by left]].
  intros sddl ? ? [-> ->]. eapply svc_bind; [apply acquire_runs | | intros e ? ? [-> ->]; split; [done | by left]].
  intros [[kind k] |] hs' es' [-> Hh]; [| subst hs'; apply svc_log; split; [done | by left]].
  destruct Hh as [-> Hkind]. cbn in Hkind. subst kind.
  assert (∀ es (c : svc unit) , runs [(Mutex, k)] es c (λ _ hs' es', served_the_app es' ∧ (hs' = [(Mutex, k)] ∨ ∃ j, hs' = [(PipeInstance, j); (Mutex, k)])) →
    runs [(Mutex, k)] es (releasing (Mutex, k) c) (λ _ hs' es', served_the_app es' ∧ (hs' = [] ∨ ∃ k, hs' = [(PipeInstance, k)]))) as Hinstance.
  { intros es c Hc. apply svc_releasing. intros s Hs. destruct (Hc s Hs) as (hs1 & es1 & Hs1 & Hes1 & Hhs1). exists hs1, es1.
    split; [done |]. intros _. split; [done |]. destruct Hhs1 as [-> | [j ->]]; [left | right; exists j].
    - by rewrite drop_fresh by set_solver.
    - rewrite filter_cons_True by done. by rewrite drop_fresh by set_solver. }
  apply Hinstance. eapply (svc_bind _ _ _ _ (λ r hs' es', r = Ok tt ∧ hs' = [(Mutex, k)] ∧ served_the_app es')); [| | by intros e ? ? [? _]].
  { intros s Hs. destruct (ensure_flowtype_active_runs _ _ s Hs) as (hs1 & es1 & Hs1 & -> & Hes1). unfold logging.
    destruct (ensure_flowtype_active s) as [[[] | e] t]; cbn [fst snd] in *.
    - exists [(Mutex, k)], es1. split; [done |]. split; [done |]. split; [done |]. by destruct Hes1 as [-> | [flags ->]].
    - destruct Hs1 as (? & ? & ? & ? & ?). exists [(Mutex, k)], (EvLog "speech profile activation failed" :: es1).
      split; [| split; [done |]; split; [done |]; by destruct Hes1 as [-> | [flags ->]]].
      unfold holding. split_and!; try done. by apply (f_equal (cons (EvLog _))). }
  intros [] hs1 es1 (_ & -> & Hes1). apply svc_ask. intros w'.
  eapply svc_bind; [apply is_elevated_runs | | intros e ? ? [-> ->]; split; [done | by left]]. intros elevated ? ? [-> ->]. apply svc_emit.
  intros s Hs. destruct (accept_rounds_runs requests n sddl (service_instance_id w') elevated _ (EvLog _ :: es1) Hes1 s Hs)
    as (hs2 & es2 & Hs2 & Hes2 & Hhs2 & _). exists hs2, es2. split; [done |]. split; [done |].
  destruct Hhs2 as [-> | (_ & j & _ & ->)]; eauto.
Qed.

(** C18. (invariant) The injector process serves one client after the other, each only
    when its image was just found to be the desktop app next to the process; between two
    it has no session, no finished one and no hooks; and of all it opened, at the end at
    most an instance of the pipe is not closed. *)
Theorem service_serves_only_the_app requests n s :
  holding [] [] s →
  let '(_, s') := main requests n s in
  idle (sv_injector s') ∧ served_the_app (sv_events s') ∧ (sv_handles s' = [] ∨ ∃ k, sv_handles s' = [(PipeInstance, k)]).
Proof.
  intros Hs. destruct (main_runs requests n s Hs) as (hs' & es' & (Hh & He & _ & _ & Hi) & Hes & Hhs).
  destruct (main requests n s) as [r s']. cbn in *. by rewrite Hh, He.
Qed.

(** When the check of a client fails, the instance of the pipe stays open, and
    whatever happens then no client is served any more. *)
Theorem left_pipe_serves_nobody requests n sddl instance_id elevated hs es s :
  served_the_app es → holds_pipe hs = true → holding hs es s →
  let '(_, s') := accept_rounds requests n sddl instance_id elevated s in
  served_count (sv_events s') = served_count es ∧ sv_handles s' = hs.
Proof.
  intros Hes Hpipe Hs. destruct (accept_rounds_runs requests n sddl instance_id elevated hs es Hes s Hs)
    as (hs' & es' & (Hh & He & _) & _ & Hh' & Hc).
  destruct (accept_rounds _ _ _ _ _ s) as [r s']. cbn in Hh, He. rewrite Hh, He. split; [auto |].
  destruct Hh' as [-> | [? _]]; [done | congruence].
Qed.
End app.
End rules.

(** ** A computer to run it on *)

Definition service_path : string := "C:\FlowType\flowtype-injector.exe".

#[local] Instance office_host : InjectorHost (desk false) := {|
  install_hooks w := (w, true); take_inputs w := ([], w); current_exe _ := Some service_path;
  accept_client w := w; read_request w := (w, None); write_response w _ := (w, true);
|}.

(** The image of the client, and whether its process can be opened. *)
Definition office (client : string) (readable : bool) : ServiceSystem (desk false) := {|
  call c w := (w, true); last_error _ := if readable then 0 else ERROR_ACCESS_DENIED;
  create_pipe existing w := (w, negb existing);
  client_process_id w := (w, Some 9); open_process _ w := (w, readable); query_image w := (w, Some client);
  user_sid _ := "S-1-5-21"; token_elevated _ := true; process_id _ := 3; unix_nanos _ := Some 17;
  get_profile w := (w, Ok 3); activate_profile _ w := (w, Ok tt);
|}.

Definition at_start : Service (desk false) := mkService (idle_injector false) [] 0 false [].

Lemma at_start_holding : holding [] [] at_start.
Proof.
  unfold holding, idle. split; [reflexivity |]. split; [reflexivity |]. split; [constructor |]. split; [constructor |].
  by vm_compute.
Qed.

Lemma service_serves_only_the_app_witness :
  let '(_, s') := main (SY := office "c:\flowtype\FLOWTYPE.EXE" true) 1 2 at_start in
  served_count (sv_events s') = 2%nat ∧ served_the_app "C:\FlowType\flowtype.exe" (sv_events s') ∧ sv_handles s' = [].
Proof.
  pose proof (service_serves_only_the_app (SY := office "c:\flowtype\FLOWTYPE.EXE" true)
    service_path "C:\FlowType\flowtype.exe") as Hall.
  specialize (Hall ltac:(by intros w x [= <-]) ltac:(by vm_compute) ltac:(done) 1%nat 2%nat at_start).
  specialize (Hall at_start_holding). destruct (main 1 2 at_start) as [r s'] eqn:E. destruct Hall as (_ & Hserved & _).
  vm_compute in E. injection E as _ <-. split; [by vm_compute |]. split; [exact Hserved | done].
Defined.

(** The client's process could not be opened. *)
Definition denied : Service (desk false) := (main (SY := office "C:\FlowType\flowtype.exe" false) 1 1 at_start).2.

Lemma denied_holding : holding [(PipeInstance, 6)] (sv_events denied) denied.
Proof.
  unfold holding, idle. split; [by vm_compute |]. split; [reflexivity |]. split; [repeat constructor; by vm_compute |].
  split; [repeat constructor; set_solver |]. by vm_compute.
Qed.

Lemma left_pipe_serves_nobody_witness :
  let '(_, s') := accept_rounds (SY := office "C:\FlowType\flowtype.exe" true) 1 3 "sddl" "3-17" true denied in
  served_count (sv_events s') = served_count (sv_events denied) ∧ sv_handles s' = [(PipeInstance, 6)].
Proof.
  apply (left_pipe_serves_nobody (SY := office "C:\FlowType\flowtype.exe" true) service_path "C:\FlowType\flowtype.exe").
  - by intros w x [= <-].
  - by vm_compute.
  - done.
  - by vm_compute.
  - done.
  - exact denied_holding.
Defined.
