(* ===== verification/Registration.v ===== *)
(** * Registering the text service

    [flowtype-tip/src/registration.rs] and the entry points of [lib.rs] and [factory.rs]
    that the system calls: what installing the text service writes to the registry and
    tells the Text Services Framework, what removing it takes away, and which requests for
    an object are answered. The framework may do anything to the registry. *)

From S2P Require Import Prelude Text TipModel TipService TipWorker.
Local Open Scope string_scope.
Local Open Scope list_scope.
Local Open Scope Z_scope.

(** ** The registry *)

(** A key by its path; its values by their names, [None] for the unnamed one. *)
Notation Key := (list string) (only parsing).
Notation Hive := (gmap (list string) (gmap (option string) string)) (only parsing).

(** The key and its parents, from the root of the hive. *)
Definition ancestors (key : Key) : list Key := (λ n, take n key) <$> seq 1 (length key).

Definition create_missing (keys : list Key) (h : Hive) : Hive :=
  foldl (λ (h : Hive) (k : Key), match h !! k with Some _ => h | None => <[k := ∅]> h end) h keys.

Definition delete_keys (P : Key → bool) (h : Hive) : Hive := filter (λ kv, P kv.1 = false) h.

Definition under (root key : Key) : bool := bool_decide (root `prefix_of` key).

(** A hive is a tree: a key is there when it has a key below it. *)
Definition has_key (path : Key) (h : Hive) : bool := existsb (λ kv, under path kv.1) (map_to_list h).

Inductive Root := LocalMachine | CurrentUser.

(** What the framework and COM are asked. *)
Inductive Category := TipKeyboard | TipSpeech | ImmersiveSupport | SystraySupport.
Inductive TsfCall :=
| CoInitialize | CoUninitialize | CreateProfiles | CreateCategories
| RegisterProfile (description icon_path : string) | UnregisterProfile
| RegisterCategory (c : Category) | UnregisterCategory (c : Category).
#[global] Instance Category_eq_dec : EqDecision Category.
Proof. solve_decision. Defined.
#[global] Instance TsfCall_eq_dec : EqDecision TsfCall.
Proof. solve_decision. Defined.

Definition ERROR_SUCCESS : Z := 0.
Definition ERROR_FILE_NOT_FOUND : Z := 2.
Definition E_FAIL : Z := 0x80004005.
Definition RPC_E_CHANGED_MODE : Z := 0x80010106.

(** The registry, the depth of [CoInitializeEx], the calls so far (newest first) and the
    number of the next. *)
Record Machine := mkMachine {
  m_local : Hive; m_user : Hive; m_com : Z; m_calls : list TsfCall; m_step : nat }.

(** The library's module, and its file unless that fails; the status of each call; what
    a failed call has done before it failed; what COM answers; and what the framework
    answers and makes of the registry. *)
Class RegistrySystem := {
  module_instance : Z;
  module_file_name : result Z string;
  reg_status : nat → Z;
  created_before : nat → nat;
  deleted_before : nat → Key → bool;
  com_status : nat → Z;
  tsf : TsfCall → nat → Hive * Hive → Z * (Hive * Hive);
}.

Definition CLSID_TEXT : string := "{9A50B266-9E86-4FF4-871B-8D47AD8C658B}".
Definition KEYBOARD_CATEGORY_TEXT : string := "{34745C63-B2F0-4784-8B67-5E12C8701A31}".
Definition DESCRIPTION : string := "FlowType Input Service".

Definition class_key : Key := ["Software"; "Classes"; "CLSID"; CLSID_TEXT].
Definition server_key : Key := class_key ++ ["InProcServer32"].
Definition tip_root : Key := ["Software"; "Microsoft"; "CTF"; "TIP"; CLSID_TEXT].

Section registration.
Context {RS : RegistrySystem}.
Notation reg := (sr Machine Z).

Definition with_local (h : Hive) (m : Machine) : Machine := mkMachine h (m_user m) (m_com m) (m_calls m) (m_step m).
Definition with_user (h : Hive) (m : Machine) : Machine := mkMachine (m_local m) h (m_com m) (m_calls m) (m_step m).
Definition with_com (n : Z) (m : Machine) : Machine := mkMachine (m_local m) (m_user m) n (m_calls m) (m_step m).
Definition on_hive (root : Root) (f : Hive → Hive) (m : Machine) : Machine :=
  match root with LocalMachine => with_local (f (m_local m)) m | CurrentUser => with_user (f (m_user m)) m end.
Definition hive_of (root : Root) (m : Machine) : Hive :=
  match root with LocalMachine => m_local m | CurrentUser => m_user m end.
Definition next_step (m : Machine) : Machine := mkMachine (m_local m) (m_user m) (m_com m) (m_calls m) (S (m_step m)).

(** [tip/registration.rs win32_error] with [HRESULT::from_win32]. *)
Definition win32_error (code : Z) : Z :=
  if (code <=? 0) || (2 ^ 31 <=? code) then code else Z.lor (Z.land code 0xFFFF) 0x80070000.

(** [tip/registration.rs module_path] *)
Definition module_path : reg string :=
  if module_instance =? 0 then sr_fail E_FAIL else sr_lift module_file_name.

(** [RegCreateKeyExW] *)
Definition reg_create (key : Key) : reg unit := λ m,
  let status := reg_status (m_step m) in
  if status =? ERROR_SUCCESS then (Ok tt, next_step (on_hive LocalMachine (create_missing (ancestors key)) m))
  else (Err (win32_error status), next_step (on_hive LocalMachine (create_missing (take (created_before (m_step m)) (ancestors key))) m)).

(** [RegSetValueExW] on the open key, which exists. *)
Definition reg_set (key : Key) (name : option string) (value : string) : reg unit := λ m,
  let status := reg_status (m_step m) in
  if status =? ERROR_SUCCESS then (Ok tt, next_step (on_hive LocalMachine (alter <[name := value]> key) m))
  else (Err (win32_error status), next_step m).

(** [tip/registration.rs set_registry_string] *)
Definition set_registry_string (path : Key) (name : option string) (value : string) : reg unit :=
  _ ← reg_create path; reg_set path name value.

(** [RegDeleteTreeW] *)
Definition reg_delete_tree (root : Root) (path : Key) : sr Machine Z Z := λ m,
  if has_key path (hive_of root m) then
    let status := reg_status (m_step m) in
    (Ok status, next_step (on_hive root (delete_keys (λ k, under path k &&
       ((status =? ERROR_SUCCESS) || deleted_before (m_step m) k))) m))
  else (Ok ERROR_FILE_NOT_FOUND, next_step m).

(** [tip/registration.rs delete_registry_tree] *)
Definition delete_registry_tree (root : Root) (path : Key) : reg unit :=
  status ← reg_delete_tree root path;
  if (status =? ERROR_SUCCESS) || (status =? ERROR_FILE_NOT_FOUND) then mret tt else sr_fail (win32_error status).

(** A call of the framework, negative for an error. *)
Definition tsf_call (c : TsfCall) : sr Machine Z Z := λ m,
  let '(hr, (l, u)) := tsf c (m_step m) (m_local m, m_user m) in
  (Ok hr, next_step (mkMachine l u (m_com m) (c :: m_calls m) (m_step m))).

(** COM is entered or left. *)
Definition com_call (c : TsfCall) : sr Machine Z Z := λ m,
  (Ok (com_status (m_step m)), next_step (mkMachine (m_local m) (m_user m) (m_com m) (c :: m_calls m) (m_step m))).
Definition failed (hr : Z) : bool := 2 ^ 31 <=? hr.
Definition tsf_ensured (c : TsfCall) : reg unit := hr ← tsf_call c; if failed hr then sr_fail hr else mret tt.
Definition ignoring (c : reg unit) : reg unit := λ m, (Ok tt, (c m).2).

(** [tip/registration.rs ComScope::initialize] Whether it must be undone. *)
Definition ComScope_initialize : reg bool :=
  hr ← com_call CoInitialize;
  if hr =? RPC_E_CHANGED_MODE then mret false
  else if failed hr then sr_fail hr
  else _ ← sr_modify (λ m, with_com (m_com m + 1) m); mret true.

(** [tip/registration.rs ComScope::drop] *)
Definition ComScope_drop (scope : bool) : reg unit :=
  if scope then _ ← com_call CoUninitialize; sr_modify (λ m, with_com (m_com m - 1) m) else mret tt.

Definition in_scope {A} (scope : bool) (c : reg A) : reg A := λ m,
  let '(r, m) := c m in (r, (ComScope_drop scope m).2).

(** ** Registering *)

(** [tip/registration.rs register_com_server] *)
Definition register_com_server : reg unit :=
  path ← module_path;
  _ ← set_registry_string class_key None "FlowType Speech Text Service";
  _ ← set_registry_string server_key None path;
  set_registry_string server_key (Some "ThreadingModel") "Apartment".

(** [tip/registration.rs unregister_com_server] *)
Definition unregister_com_server : reg unit := delete_registry_tree LocalMachine class_key.

(** [tip/registration.rs remove_keyboard_category_registry] *)
Definition remove_keyboard_category_registry : reg unit :=
  _ ← delete_registry_tree LocalMachine (tip_root ++ ["Category"; "Category"; KEYBOARD_CATEGORY_TEXT]);
  delete_registry_tree LocalMachine (tip_root ++ ["Category"; "Item"; CLSID_TEXT; KEYBOARD_CATEGORY_TEXT]).

(** [tip/registration.rs remove_tip_registry] *)
Definition remove_tip_registry : reg unit :=
  _ ← delete_registry_tree LocalMachine tip_root; delete_registry_tree CurrentUser tip_root.

(** [tip/registration.rs register_tsf_profile] *)
Definition register_tsf_profile : reg unit :=
  scope ← ComScope_initialize;
  in_scope scope (
    _ ← tsf_ensured CreateProfiles;
    icon_path ← module_path;
    _ ← tsf_ensured (RegisterProfile DESCRIPTION icon_path);
    _ ← tsf_ensured CreateCategories;
    _ ← ignoring (tsf_ensured (UnregisterCategory TipKeyboard));
    _ ← remove_keyboard_category_registry;
    _ ← tsf_ensured (RegisterCategory TipSpeech);
    _ ← tsf_ensured (RegisterCategory ImmersiveSupport);
    tsf_ensured (RegisterCategory SystraySupport)).

Definition succeeded (c : reg unit) : reg bool := λ m, match c m with (Ok _, m) => (Ok true, m) | (Err _, m) => (Ok false, m) end.

(** [tip/registration.rs unregister_tsf_profile] *)
Definition unregister_tsf_profile : reg unit :=
  scope ← (λ m, match ComScope_initialize m with (Ok b, m) => (Ok b, m) | (Err _, m) => (Ok false, m) end);
  in_scope scope (
    categories ← succeeded (tsf_ensured CreateCategories);
    _ ← (if categories : bool
         then
           _ ← ignoring (tsf_ensured (UnregisterCategory TipSpeech));
           _ ← ignoring (tsf_ensured (UnregisterCategory TipKeyboard));
           _ ← ignoring (tsf_ensured (UnregisterCategory ImmersiveSupport));
           ignoring (tsf_ensured (UnregisterCategory SystraySupport))
         else mret tt);
    profiles ← succeeded (tsf_ensured CreateProfiles);
    _ ← (if profiles : bool then ignoring (tsf_ensured UnregisterProfile) else mret tt);
    remove_tip_registry).

(** [if let Err(error) = c { let _ = undo; return Err(error); }] *)
Definition undoing (c undo : reg unit) : reg unit := λ m,
  match c m with (Err error, m) => (Err error, (undo m).2) | (Ok _, m) => (Ok tt, m) end.

(** [tip/registration.rs register] *)
Definition register : reg unit :=
  _ ← register_com_server;
  undoing register_tsf_profile unregister_com_server.

(** [tip/registration.rs unregister] Both parts are tried. *)
Definition unregister : reg unit := λ m,
  let '(tsf_result, m) := unregister_tsf_profile m in
  let '(com_result, m) := unregister_com_server m in
  (match tsf_result with Ok _ => com_result | Err e => Err e end, m).

(** [tip/lib.rs DllRegisterServer] *)
Definition DllRegisterServer (m : Machine) : Z * Machine :=
  let '(r, m) := register m in (match r with Ok _ => 0 | Err code => code end, m).

(** [tip/lib.rs DllUnregisterServer] *)
Definition DllUnregisterServer (m : Machine) : Z * Machine :=
  let '(r, m) := unregister m in (match r with Ok _ => 0 | Err code => code end, m).
End registration.

(** ** What is left of it *)

Definition ours (root : Root) (k : Key) : bool :=
  match root with LocalMachine => under class_key k || under tip_root k | CurrentUser => under tip_root k end.

Section frame.
Context {RS : RegistrySystem}.
Notation reg := (sr Machine Z).
Implicit Types (m : Machine) (h : Hive).

(** A key that is not ours, and that no call of the framework writes. *)
Definition foreign (root : Root) (k : Key) : Prop :=
  ours root k = false ∧
  ∀ c n (h : Hive * Hive), match root with
           | LocalMachine => (tsf c n h).2.1 !! k = h.1 !! k
           | CurrentUser => (tsf c n h).2.2 !! k = h.2 !! k
           end.

(** No foreign key has changed, and time has not gone back. *)
Definition frame m m' : Prop :=
  (∀ root k, foreign root k → hive_of root m' !! k = hive_of root m !! k) ∧ (m_step m <= m_step m')%nat.

#[global] Instance frame_preorder : PreOrder frame.
Proof.
  split; [by intros m; split | intros m1 m2 m3 [H1 S1] [H2 S2]; split; [| lia]].
  intros root k Hk. by rewrite H2, H1.
Qed.

(** A program that leaves foreign keys and COM as they were. *)
Definition framed {A} (c : sr Machine Z A) : Prop := ∀ m, frame m (c m).2 ∧ m_com (c m).2 = m_com m.

Lemma framed_bind {A B} (c : sr Machine Z A) (f : A → sr Machine Z B) :
  framed c → (∀ a, framed (f a)) → framed (a ← c; f a).
Proof.
  intros Hc Hf m. specialize (Hc m). unfold mbind, sr_bind. destruct (c m) as [[a | e] m1]; [| done].
  cbn [snd] in Hc. destruct Hc as [H1 C1]. destruct (Hf a m1) as [H2 C2]. split; [by etrans | congruence].
Qed.

Lemma framed_ret {A} (a : A) : framed (mret a).
Proof. by intros m. Qed.
Lemma framed_fail {A} e : framed (sr_fail e : sr Machine Z A).
Proof. by intros m. Qed.

Lemma create_missing_cons k keys h :
  create_missing (k :: keys) h = create_missing keys (match h !! k with Some _ => h | None => <[k := ∅]> h end).
Proof. done. Qed.

Lemma create_missing_other keys h k : k ∉ keys → create_missing keys h !! k = h !! k.
Proof.
  revert h. induction keys as [|k' keys IH]; intros h; [done |]. intros [Hk Hks]%not_elem_of_cons. rewrite create_missing_cons. rewrite IH by done. destruct (h !! k'); [done |]. by rewrite lookup_insert_ne.
Qed.

Lemma create_missing_present keys h k : is_Some (h !! k) → create_missing keys h !! k = h !! k.
Proof.
  revert h. induction keys as [|k' keys IH]; intros h Hk; [done |]. rewrite create_missing_cons.
  destruct (h !! k') eqn:E; [by apply IH |]. assert (k' ≠ k) by (intros ->; rewrite E in Hk; by destruct Hk).
  rewrite IH; by rewrite lookup_insert_ne.
Qed.

Lemma delete_keys_other P h k : P k = false → delete_keys P h !! k = h !! k.
Proof.
  intros HP. unfold delete_keys. destruct (h !! k) eqn:E; [by apply map_lookup_filter_Some | by apply map_lookup_filter_None; left].
Qed.

(** The parents of the class key are there. *)
Definition parents m : Prop := Forall (λ k, is_Some (m_local m !! k)) [["Software"]; ["Software"; "Classes"]; ["Software"; "Classes"; "CLSID"]].

(** A part of registering the class: the parents stay. *)
Definition classed {A} (c : sr Machine Z A) : Prop :=
  ∀ m, parents m → frame m (c m).2 ∧ m_com (c m).2 = m_com m ∧ parents (c m).2.

Lemma classed_bind {A B} (c : sr Machine Z A) (f : A → sr Machine Z B) :
  classed c → (∀ a, classed (f a)) → classed (a ← c; f a).
Proof.
  intros Hc Hf m Hm. specialize (Hc m Hm). unfold mbind, sr_bind. destruct (c m) as [[a | e] m1]; [| done].
  cbn [snd] in Hc. destruct Hc as (H1 & C1 & P1). destruct (Hf a m1 P1) as (H2 & C2 & P2). split_and!; [by etrans | congruence | done].
Qed.

(** What is created at a key of the text service's class keeps to it. *)
Lemma class_key_frame h keys k : parents (mkMachine h ∅ 0 [] 0) →
  keys ⊆ ancestors server_key → ours LocalMachine k = false → create_missing keys h !! k = h !! k.
Proof.
  intros Hp Hkeys Hk. destruct (decide (k ∈ keys)) as [Hin |]; [| by apply create_missing_other].
  apply create_missing_present. apply Hkeys in Hin. unfold parents in Hp. rewrite Forall_forall in Hp. apply Hp.
  change (ancestors server_key) with [["Software"]; ["Software"; "Classes"]; ["Software"; "Classes"; "CLSID"]; class_key; server_key] in Hin.
  rewrite !elem_of_cons in Hin.
  destruct Hin as [-> | [-> | [-> | [-> | [-> | []%not_elem_of_nil]]]]]; [set_solver.. | |]; by vm_compute in Hk.
Qed.

(** What changes only keys of ours in the local hive. *)
Lemma local_step (f : Hive → Hive) m :
  (∀ k, ours LocalMachine k = false → f (m_local m) !! k = m_local m !! k) → parents m →
  frame m (next_step (on_hive LocalMachine f m)) ∧ m_com (next_step (on_hive LocalMachine f m)) = m_com m
  ∧ parents (next_step (on_hive LocalMachine f m)).
Proof.
  intros Hf Hm. split_and!; [split; [intros [|] k [Hk _]; [by apply Hf | done] | cbn; lia] | done |].
  unfold parents in *. rewrite Forall_forall in *. intros k Hk. cbn. rewrite Hf; [by apply Hm |].
  rewrite !elem_of_cons in Hk. destruct Hk as [-> | [-> | [-> | []%not_elem_of_nil]]]; by vm_compute.
Qed.

Lemma classed_create key : key = class_key ∨ key = server_key → classed (reg_create key).
Proof.
  intros Hkey m Hm. unfold reg_create.
  assert (∀ keys, keys ⊆ ancestors server_key → ∀ k, ours LocalMachine k = false →
    create_missing keys (m_local m) !! k = m_local m !! k) as Hkeep by (intros keys Hkeys k Hk; by apply class_key_frame).
  assert (ancestors key ⊆ ancestors server_key) as Hkeys
    by (change (ancestors server_key) with (ancestors class_key ++ [server_key]); destruct Hkey as [-> | ->];
        [intros k Hk; apply elem_of_app; by left | done]).
  case_match; (apply local_step; [apply Hkeep | done]); [done |]. intros k Hk. apply Hkeys. eapply subseteq_take; exact Hk.
Qed.

Lemma classed_set key name value : ours LocalMachine key = true → classed (reg_set key name value).
Proof.
  intros Hkey m Hm. unfold reg_set. case_match; [| split_and!; [split; [done | cbn; lia] | done | done]].
  apply local_step; [| done]. intros k Hk. apply lookup_alter_ne. congruence.
Qed.

Lemma classed_set_registry_string key name value :
  key = class_key ∨ key = server_key → classed (set_registry_string key name value).
Proof.
  intros Hkey. apply classed_bind; [by apply classed_create | intros _; apply classed_set]. by destruct Hkey as [-> | ->].
Qed.

Lemma classed_register_com : classed register_com_server.
Proof.
  apply classed_bind; [intros m Hm; unfold module_path; by case_match | intros path].
  apply classed_bind; [apply classed_set_registry_string; by left | intros _].
  apply classed_bind; [| intros _]; apply classed_set_registry_string; by right.
Qed.

Lemma under_trans root root' k : under root root' = true → under root' k = true → under root k = true.
Proof. unfold under. rewrite !bool_decide_eq_true. intros; by etrans. Qed.

Lemma framed_delete root path : (∀ k, under path k = true → ours root k = true) → framed (delete_registry_tree root path).
Proof.
  intros Hpath. apply framed_bind.
  - intros m. unfold reg_delete_tree. destruct (has_key path (hive_of root m)); [| split; [split; [done | cbn; lia] | done]].
    assert (∀ (Q : Key → bool) k, ours root k = false → delete_keys (λ k, under path k && Q k) (hive_of root m) !! k = hive_of root m !! k) as Hdel.
    { intros Q k Hk. apply delete_keys_other. destruct (under path k) eqn:E; [| done]. apply Hpath in E. congruence. }
    split; [| by destruct root]. split; [| destruct root; cbn; lia]. intros root' k [Hk _]. destruct root, root'; cbn; try done; by apply Hdel.
  - intros status. case_match; [apply framed_ret | apply framed_fail].
Qed.

Lemma framed_tsf_call c : framed (tsf_call c).
Proof.
  intros m. unfold tsf_call. destruct (tsf c (m_step m) (m_local m, m_user m)) as [hr [l u]] eqn:E. split; [| done].
  split; [| cbn; lia]. intros root k [_ Hk]. specialize (Hk c (m_step m) (m_local m, m_user m)). rewrite E in Hk. by destruct root.
Qed.

Lemma framed_com_call c : framed (com_call c).
Proof. intros m. split; [split; [by intros [] | cbn; lia] | done]. Qed.

Lemma framed_tsf_ensured c : framed (tsf_ensured c).
Proof. apply framed_bind; [apply framed_tsf_call | intros hr]. case_match; [apply framed_fail | apply framed_ret]. Qed.

Lemma framed_ignoring c : framed c → framed (ignoring c).
Proof. intros Hc m. exact (Hc m). Qed.

Lemma framed_module_path : framed module_path.
Proof. intros m. unfold module_path. by case_match. Qed.

(** What COM was started for is undone. *)
Lemma ComScope_initialize_frame m :
  let '(r, m') := ComScope_initialize m in frame m m' ∧ m_com m' = m_com m + (match r with Ok true => 1 | _ => 0 end).
Proof.
  pose proof (framed_com_call CoInitialize m) as [Hf Hc]. unfold ComScope_initialize, mbind, sr_bind.
  destruct (com_call CoInitialize m) as [[hr | e] m']; cbn [snd] in *; [| split; [done | lia]].
  destruct (hr =? RPC_E_CHANGED_MODE); [split; [done | cbn; lia] |]. destruct (failed hr); [split; [done | cbn; lia] |].
  split; [done | cbn; lia].
Qed.

Lemma in_scope_frame {A} b (c : sr Machine Z A) m : framed c →
  frame m (in_scope b c m).2 ∧ m_com (in_scope b c m).2 = m_com m - (if b then 1 else 0).
Proof.
  intros Hc. specialize (Hc m). unfold in_scope. destruct (c m) as [r m1]. cbn [snd] in Hc. destruct Hc as [Hf Hcom].
  destruct b; [| cbn; split; [done | lia]].
  unfold ComScope_drop, mbind, sr_bind. cbn. split; [| lia]. etrans; [exact Hf |]. split; [by intros [] | cbn; lia].
Qed.

Lemma framed_remove_keyboard : framed remove_keyboard_category_registry.
Proof.
  assert (∀ key k, under (tip_root ++ key) k = true → ours LocalMachine k = true) as Hours.
  { intros key k Hk. cbn. apply orb_true_iff. right. eapply under_trans; [| exact Hk]. apply bool_decide_eq_true. by exists key. }
  apply framed_bind; [apply framed_delete, Hours | intros _; apply framed_delete, Hours].
Qed.

Lemma framed_remove_tip : framed remove_tip_registry.
Proof.
  apply framed_bind; [apply framed_delete | intros _; apply framed_delete]; intros k Hk; cbn; rewrite Hk; by rewrite ?orb_true_r.
Qed.

Lemma framed_unregister_com : framed unregister_com_server.
Proof. apply framed_delete. intros k Hk. cbn. by rewrite Hk. Qed.

Lemma framed_scoped {A} (start : sr Machine Z bool) (c : sr Machine Z A) :
  (∀ m, let '(r, m') := start m in frame m m' ∧ m_com m' = m_com m + (match r with Ok true => 1 | _ => 0 end)) →
  framed c → framed (scope ← start; in_scope scope c).
Proof.
  intros Hstart Hc m. specialize (Hstart m). unfold mbind, sr_bind.
  destruct (start m) as [[b | e] m1]; destruct Hstart as [Hf Hcom]; [| cbn in *; split; [done | lia]].
  destruct (in_scope_frame b c m1 Hc) as [Hf' Hcom'].
  split; [by etrans | etrans; [exact Hcom' | destruct b; lia]].
Qed.

Ltac framed_step :=
  first [ apply framed_tsf_ensured | apply framed_module_path | apply framed_ignoring, framed_tsf_ensured
        | apply framed_remove_keyboard | apply framed_remove_tip | apply framed_ret ].
Ltac framed_steps := repeat (apply framed_bind; [framed_step | intros ?]); framed_step.

Lemma framed_register_tsf : framed register_tsf_profile.
Proof. apply framed_scoped; [exact ComScope_initialize_frame | framed_steps]. Qed.

Lemma framed_succeeded c : framed c → framed (succeeded c).
Proof. intros Hc m. specialize (Hc m). unfold succeeded. by destruct (c m) as [[] ?]. Qed.

Lemma register_frame m : parents m → frame m (register m).2 ∧ m_com (register m).2 = m_com m.
Proof.
  intros Hm. unfold register, mbind, sr_bind. destruct (classed_register_com m Hm) as (H1 & C1 & _).
  destruct (register_com_server m) as [[[]|] m1]; cbn [snd] in *; [| done]. unfold undoing.
  pose proof (framed_register_tsf m1) as [H2 C2]. destruct (register_tsf_profile m1) as [[] m2]; cbn [snd] in *.
  - split; [by etrans | congruence].
  - destruct (framed_unregister_com m2) as [H3 C3]. split; [by do 2 (etrans; [eassumption |]) | congruence].
Qed.

Lemma framed_unregister_tsf : framed unregister_tsf_profile.
Proof.
  apply framed_scoped.
  - intros m. pose proof (ComScope_initialize_frame m) as Hi. by destruct (ComScope_initialize m) as [[] m1].
  - apply framed_bind; [apply framed_succeeded, framed_tsf_ensured | intros categories].
    apply framed_bind; [destruct categories; [framed_steps | framed_step] | intros _].
    apply framed_bind; [apply framed_succeeded, framed_tsf_ensured | intros profiles].
    apply framed_bind; [destruct profiles; framed_step | intros _]. framed_step.
Qed.

(** ** Unregistering leaves nothing of it *)

(** From now on no call of the registry fails. *)
Definition registry_works m : Prop := ∀ n, (m_step m <= n)%nat → reg_status n = ERROR_SUCCESS.

Lemma frame_works m m' : frame m m' → registry_works m → registry_works m'.
Proof. intros [_ Hs] Hw n Hn. apply Hw. lia. Qed.

Lemma has_key_false path h k : has_key path h = false → under path k = true → h !! k = None.
Proof.
  unfold has_key. intros Hno Hk. destruct (h !! k) as [v |] eqn:E; [| done].
  assert (existsb (λ kv, under path kv.1) (map_to_list h) = true) as Hyes; [| congruence].
  apply existsb_exists. exists (k, v). split; [| done]. by apply list_elem_of_In, elem_of_map_to_list.
Qed.

Lemma delete_keys_none P h k : P k = true → delete_keys P h !! k = None.
Proof. intros HP. apply map_lookup_filter_None. right. intros x _. cbn. congruence. Qed.

Lemma delete_registry_tree_works root path m : registry_works m →
  let '(r, m') := delete_registry_tree root path m in
  r = Ok tt ∧ (∀ k, hive_of root m' !! k = if under path k then None else hive_of root m !! k)
  ∧ (∀ root', root' ≠ root → hive_of root' m' = hive_of root' m) ∧ m_step m' = S (m_step m) ∧ m_com m' = m_com m.
Proof.
  intros Hw. unfold delete_registry_tree, mbind, sr_bind, reg_delete_tree. destruct (has_key path (hive_of root m)) eqn:Hkey.
  - rewrite (Hw (m_step m)) by lia. cbn [orb Z.eqb ERROR_SUCCESS].
    split; [done |]. split; [| split; [by intros [|] ?; destruct root | by destruct root]].
    intros k. destruct (under path k) eqn:Hk.
    + destruct root; apply delete_keys_none; by rewrite Hk.
    + destruct root; apply delete_keys_other; by rewrite Hk.
  - split; [done |]. split; [| done]. intros k. destruct (under path k) eqn:Hk; [by eapply has_key_false | done].
Qed.

(** The framework's key of the text service is gone. *)
Definition tip_gone m : Prop := ∀ root k, under tip_root k = true → hive_of root m !! k = None.

Definition erases (c : reg unit) : Prop := ∀ m, registry_works m → (c m).1 = Ok tt ∧ tip_gone (c m).2.

Lemma erases_bind {A} (c : sr Machine Z A) (f : A → reg unit) :
  (∀ m, frame m (c m).2) → (∀ m, ∃ a, (c m).1 = Ok a) → (∀ a, erases (f a)) → erases (a ← c; f a).
Proof.
  intros Hc Hok Hf m Hw. destruct (Hok m) as [a Ha]. pose proof (Hc m) as Hfr. unfold mbind, sr_bind.
  destruct (c m) as [r m1]. cbn in *. subst r. apply Hf; by eapply frame_works.
Qed.

Lemma erases_remove_tip : erases remove_tip_registry.
Proof.
  intros m Hw. unfold remove_tip_registry, mbind, sr_bind. pose proof (delete_registry_tree_works LocalMachine tip_root m Hw) as H1.
  destruct (delete_registry_tree LocalMachine tip_root m) as [r1 m1]. destruct H1 as (-> & Hl & Hother & Hs & _).
  assert (registry_works m1) as Hw1 by (intros n Hn; apply Hw; lia).
  pose proof (delete_registry_tree_works CurrentUser tip_root m1 Hw1) as H2.
  destruct (delete_registry_tree CurrentUser tip_root m1) as [r2 m2]. destruct H2 as (-> & Hu & Hother' & _).
  split; [done |]. intros [|] k Hk; cbn [snd].
  - rewrite (Hother' LocalMachine) by done. by rewrite Hl, Hk.
  - by rewrite Hu, Hk.
Qed.

Lemma erases_in_scope b c : erases c → erases (in_scope b c).
Proof.
  intros Hc m Hw. destruct (Hc m Hw) as [Hr Hg]. unfold in_scope. destruct (c m) as [r m1]. cbn in *. split; [done |].
  destruct b; [exact Hg | done].
Qed.

Lemma erases_unregister_tsf : erases unregister_tsf_profile.
Proof.
  assert (∀ c m, ∃ b, (succeeded c m).1 = Ok b) as Hs by (intros c m; unfold succeeded; destruct (c m) as [[] ?]; eauto).
  assert (∀ A (c : sr Machine Z A), framed c → ∀ m, frame m (c m).2) as Hkeep by (intros A c Hc m; by apply Hc).
  apply erases_bind.
  - intros m. pose proof (ComScope_initialize_frame m) as Hi. by destruct (ComScope_initialize m) as [[] m1]; destruct Hi.
  - intros m. destruct (ComScope_initialize m) as [[] m1]; eauto.
  - intros b. apply erases_in_scope, erases_bind; [apply Hkeep, framed_succeeded, framed_tsf_ensured | apply Hs | intros categories].
    apply erases_bind; [apply Hkeep; destruct categories; [framed_steps | framed_step] | by destruct categories; eexists | intros _].
    apply erases_bind; [apply Hkeep, framed_succeeded, framed_tsf_ensured | apply Hs | intros profiles].
    apply erases_bind; [apply Hkeep; destruct profiles; framed_step | by destruct profiles; eexists | intros _]. apply erases_remove_tip.
Qed.

Lemma unregister_erases m : registry_works m →
  let '(r, m') := unregister m in
  r = Ok tt ∧ frame m m' ∧ m_com m' = m_com m ∧ ∀ root k, ours root k = true → hive_of root m' !! k = None.
Proof.
  intros Hw. unfold unregister. destruct (erases_unregister_tsf m Hw) as [Hr Hgone].
  destruct (framed_unregister_tsf m) as [Hf Hcom]. destruct (unregister_tsf_profile m) as [r m1]. cbn in Hr, Hgone, Hf, Hcom. subst r.
  pose proof (delete_registry_tree_works LocalMachine class_key m1 (frame_works _ _ Hf Hw)) as Hdel.
  destruct (framed_unregister_com m1) as [Hf' _]. unfold unregister_com_server in *.
  destruct (delete_registry_tree LocalMachine class_key m1) as [r m2]. destruct Hdel as (-> & Hl & Hu & _ & Hcom').
  split_and!; [done | by etrans | congruence |]. intros [|] k; cbn [ours]; intros Ho.
  - rewrite Hl. destruct (under class_key k) eqn:Hc; [done |]. by apply Hgone.
  - rewrite (Hu CurrentUser) by done. by apply Hgone.
Qed.

(** C19. (roundtrip) Whatever failed while the text service was registered, and whatever
    was there before: unregistering it, when the registry then works, succeeds and leaves
    nothing at or below its class and its key of the framework, for the machine and for the
    user; every other key that the framework itself does not write is as it was before the
    registration, and COM is left as often as it was entered. The parents of the class key
    are there, as on every machine. *)
Theorem unregister_undoes_register m :
  parents m →
  let '(_, m1) := register m in
  registry_works m1 →
  let '(r, m2) := unregister m1 in
  r = Ok tt ∧ m_com m2 = m_com m ∧
  (∀ root k, ours root k = true → hive_of root m2 !! k = None) ∧
  (∀ root k, foreign root k → hive_of root m2 !! k = hive_of root m !! k).
Proof.
  intros Hm. destruct (register_frame m Hm) as [Hf Hcom]. destruct (register m) as [r1 m1]. cbn in Hf, Hcom. intros Hw.
  pose proof (unregister_erases m1 Hw) as Hu. destruct (unregister m1) as [r2 m2].
  destruct Hu as (-> & Hf' & Hcom' & Hk). split_and!; [done | congruence | done |].
  apply (transitivity Hf Hf').
Qed.
End frame.

(** ** A machine to register on *)

(** The framework writes the profile below its key; the calls of [refused] fail, and so
    does the registry at the steps of [broken]. *)
Definition sample_tsf (refused : list TsfCall) (c : TsfCall) (h : Hive * Hive) : Z * (Hive * Hive) :=
  if bool_decide (c ∈ refused) then (E_FAIL, h)
  else (0, match c with
           | RegisterProfile description _ => (<[tip_root ++ ["LanguageProfile"] := {[ Some "Description" := description ]}]> h.1, h.2)
           | UnregisterProfile => (delete (tip_root ++ ["LanguageProfile"]) h.1, h.2)
           | _ => h
           end).

Definition sample_registry (refused : list TsfCall) (broken : list nat) : RegistrySystem := {|
  module_instance := 0x10000; module_file_name := Ok "C:\FlowType\flowtype_tip.dll";
  reg_status n := if bool_decide (n ∈ broken) then 5 else 0;
  com_status _ := 0; created_before _ := 0%nat; deleted_before _ _ := false; tsf c _ h := sample_tsf refused c h;
|}.

(** A key that is not the profile's is not written. *)
Lemma sample_foreign refused broken root k :
  ours root k = false → foreign (RS := sample_registry refused broken) root k.
Proof.
  intros Hk. split; [done |]. intros c n h. cbn. unfold sample_tsf.
  assert (root = LocalMachine → k ≠ tip_root ++ ["LanguageProfile"]) as Hne by (intros -> ->; by vm_compute in Hk).
  destruct root; case_bool_decide; try done; destruct c; try done; cbn;
    [apply lookup_insert_ne | apply lookup_delete_ne]; intros Heq; by apply Hne.
Qed.

Definition clean_machine : Machine :=
  mkMachine (create_missing (ancestors ["Software"; "Classes"; "CLSID"]) ∅) ∅ 0 [] 0.

Lemma clean_parents : parents clean_machine.
Proof. repeat constructor; eexists; by vm_compute. Qed.

(** Registered before, registered again with a failure, and unregistered. *)
Definition registered_machine : Machine := (register (RS := sample_registry [] []) clean_machine).2.

Lemma unregister_undoes_register_witness :
  is_Some (m_local registered_machine !! class_key) ∧
  let '(r1, m1) := register (RS := sample_registry [RegisterCategory ImmersiveSupport] []) registered_machine in
  r1 = Err E_FAIL ∧
  let '(r, m2) := unregister (RS := sample_registry [RegisterCategory ImmersiveSupport] []) m1 in
  r = Ok tt ∧ m_com m2 = 0 ∧ m_local m2 !! class_key = None ∧ m_local m2 !! ["Software"; "Classes"] = Some ∅.
Proof.
  split; [vm_compute; eexists; reflexivity |].
  assert (parents registered_machine) as Hp by (repeat constructor; vm_compute; eexists; reflexivity).
  pose proof (unregister_undoes_register (RS := sample_registry [RegisterCategory ImmersiveSupport] []) registered_machine Hp) as Hall.
  destruct (register registered_machine) as [r1 m1] eqn:E.
  assert (r1 = Err E_FAIL) as -> by (change r1 with (r1, m1).1; rewrite <- E; by vm_compute). split; [done |].
  specialize (Hall ltac:(by intros n Hn)).
  destruct (unregister m1) as [r2 m2]. destruct Hall as (Hr & Hc & Ho & Hf).
  split; [exact Hr |]. split; [exact Hc |]. split; [by apply (Ho LocalMachine) |].
  refine (eq_trans (Hf LocalMachine ["Software"; "Classes"] _) _); [apply sample_foreign |]; vm_compute; reflexivity.
Defined.

(** When a category is refused the class is removed again, but the profile that names it
    stays registered; when the key of the server cannot be created nothing is removed. *)
Definition present (k : Key) (m : Machine) : bool := bool_decide (is_Some (m_local m !! k)).

Lemma failed_registration_is_left :
  (let '(r, m) := register (RS := sample_registry [RegisterCategory ImmersiveSupport] []) clean_machine in
   (r, present class_key m, present (tip_root ++ ["LanguageProfile"]) m)) = (Err E_FAIL, false, true)
  ∧ (let '(r, m) := register (RS := sample_registry [] [2%nat]) clean_machine in
     (r, present class_key m, present server_key m)) = (Err 0x80070005, true, false).
Proof. by vm_compute. Qed.

(** ** What the system asks the library for *)

(** [core/tip.rs:4-4 CLSID_FLOWTYPE_TIP_VALUE] *)
Definition CLSID_FLOWTYPE_TIP_VALUE : Z := 0x9a50b2669e864ff4871b8d47ad8c658b.
Definition E_POINTER : Z := 0x80004003.
Definition CLASS_E_CLASSNOTAVAILABLE : Z := 0x80040111.
Definition CLASS_E_NOAGGREGATION : Z := 0x80040110.
Definition DLL_PROCESS_ATTACH : Z := 1.

Section entry_points.
Context {H C R K : Type} `{Host : TsfHost H C R K}.
Notation process := (Process H C R K).

(** [tip/lib.rs DllMain] The module that is remembered. *)
Definition DllMain (instance reason module : Z) : Z := if reason =? DLL_PROCESS_ATTACH then instance else module.

(** [tip/factory.rs query_factory] [query] is the answer of the new factory, which is
    dropped unless its interface was given out. *)
Definition query_factory (interface_null object_null : bool) (query : Z) (p : process) : Z * process :=
  if interface_null || object_null then (E_POINTER, p)
  else
    let p := ClassFactory_new p in
    if failed query then (query, ClassFactory_drop p) else (query, p).

(** [tip/lib.rs DllGetClassObject] *)
Definition DllGetClassObject (class_id : option Z) (interface_null object_null : bool) (query : Z) (p : process) : Z * process :=
  if negb (bool_decide (class_id = Some CLSID_FLOWTYPE_TIP_VALUE)) then (CLASS_E_CLASSNOTAVAILABLE, p)
  else query_factory interface_null object_null query p.

(** [tip/factory.rs ClassFactory_Impl::CreateInstance] *)
Definition ClassFactory_CreateInstance (outer_null interface_null object_null : bool) (query : Z) (h : Controller H C R K) (p : process)
    : Z * process :=
  if negb outer_null then (CLASS_E_NOAGGREGATION, p)
  else if interface_null || object_null then (E_POINTER, p)
  else
    let service := pr_next p in
    let p := TextService_new h p in
    if failed query then (query, TextService_drop service [] false p) else (0, p).

(** [tip/lib.rs DllCanUnloadNow] *)
Definition DllCanUnloadNow (p : process) : Z := if can_unload p then 0 else 1.

(** A request that fails keeps nothing alive. *)
Lemma failed_request_keeps_nothing class_id interface_null object_null query (p : process) :
  0 ≤ pr_others p → 0 ≤ pr_objects p < 2 ^ 32 →
  let '(hr, p') := DllGetClassObject class_id interface_null object_null query p in
  failed hr = true → pr_objects p' = pr_objects p ∧ DllCanUnloadNow p' = DllCanUnloadNow p.
Proof.
  intros Hf Ho. unfold DllGetClassObject, query_factory. destruct (bool_decide _); [cbn [negb] | done]. destruct (_ || _); [done |].
  destruct (failed query) eqn:Hq; [| congruence]. intros _. unfold ClassFactory_drop, ClassFactory_new, DllCanUnloadNow, can_unload.
  cbn [pr_others counted ObjectGuard_new]. rewrite (proj2 (Z.ltb_lt _ _)) by lia. cbn.
  assert (((pr_objects p + 1) mod 2 ^ 32 - 1) mod 2 ^ 32 = pr_objects p) as ->; [| done].
  rewrite Zminus_mod_idemp_l. replace (pr_objects p + 1 - 1) with (pr_objects p) by lia. by apply Z.mod_small.
Qed.
End entry_points.
