(* ===== verification/Gdi.v ===== *)
(** * Drawing on a device context

    [flowtype-app/src/ui_paint.rs]: the helpers that draw with pens, brushes, regions and
    fonts of GDI, over a model of its objects: what is created must be deleted, what is
    selected must be selected back, an object cannot be deleted while it is selected. And
    [ui_components.rs]: the parts that the window's renderers share. *)

From S2P Require Import Prelude Text Layout Pages.
Local Open Scope list_scope.
Local Open Scope Z_scope.

(** ** Objects and contexts *)

Record RECT := mkRECT { r_left : Z; r_top : Z; r_right : Z; r_bottom : Z }.

Inductive GdiObject := OBrush (color : Z) | OPen (color : Z) | OFont | OBitmap | ORegion (rect : RECT) (ellipse : Z).

(** What is selected into a context; negative handles are stock objects. *)
Record Dc := mkDc { dc_brush : Z; dc_pen : Z; dc_font : Z; dc_bitmap : Z }.

(** What appears on a context: the colours are those of the objects used, none for a
    hollow brush. *)
Inductive Mark :=
| MFill (rect : RECT) (color : Z)
| MRegion (rect : RECT) (ellipse color : Z)
| MRound (rect : RECT) (radius pen : Z) (brush : option Z)
| MEllipse (rect : RECT) (pen : Z) (brush : option Z)
| MLine (x1 y1 x2 y2 pen : Z)
| MText (value : string) (rect : RECT) (font color : Z) (centered : bool)
| MBlit (source : Z).

(** The handle 0 is no object. The answers are of the calls that create; when there is no
    more, they succeed. *)
Record Gdi := mkGdi {
  g_dcs : gmap Z Dc; g_objects : gmap Z GdiObject; g_next : Z; g_answers : list bool; g_marks : list (Z * Mark);
}.

Notation gdi := (sr Gdi Empty_set).

Definition STOCK_BRUSH : Z := -1.
Definition STOCK_PEN : Z := -2.
Definition STOCK_FONT : Z := -3.
Definition STOCK_BITMAP : Z := -4.
(** [GetStockObject(5)]: the hollow brush. *)
Definition NULL_BRUSH : Z := -6.

Definition with_dcs (d : gmap Z Dc) (g : Gdi) : Gdi := mkGdi d (g_objects g) (g_next g) (g_answers g) (g_marks g).
Definition with_objects (o : gmap Z GdiObject) (g : Gdi) : Gdi := mkGdi (g_dcs g) o (g_next g) (g_answers g) (g_marks g).

(** Whether the next call that creates succeeds. *)
Definition answer (g : Gdi) : bool * Gdi :=
  match g_answers g with
  | [] => (true, g)
  | b :: rest => (b, mkGdi (g_dcs g) (g_objects g) (g_next g) rest (g_marks g))
  end.

(** [CreateSolidBrush], [CreatePen], [CreateRoundRectRgn], [CreateCompatibleBitmap]. *)
Definition create (o : GdiObject) : gdi Z := λ g,
  let '(made, g) := answer g in
  if made : bool
  then (Ok (g_next g), mkGdi (g_dcs g) (<[g_next g := o]> (g_objects g)) (g_next g + 1) (g_answers g) (g_marks g))
  else (Ok 0, g).

Definition selected (d : Dc) (h : Z) : bool := (dc_brush d =? h) || (dc_pen d =? h) || (dc_font d =? h) || (dc_bitmap d =? h).
Definition in_use (h : Z) (g : Gdi) : bool := existsb (λ kv, selected kv.2 h) (map_to_list (g_dcs g)).

(** [DeleteObject] *)
Definition delete_object (h : Z) : gdi unit := sr_modify (λ g,
  if in_use h g then g else with_objects (delete h (g_objects g)) g).

Inductive SelectKind := SBrush | SPen | SFont | SBitmap.

(** As what a handle can be selected. *)
Definition kind_of (h : Z) (objects : gmap Z GdiObject) : option SelectKind :=
  match objects !! h with
  | Some (OBrush _) => Some SBrush | Some (OPen _) => Some SPen | Some OFont => Some SFont | Some OBitmap => Some SBitmap
  | Some (ORegion _ _) => None
  | None => if (h =? STOCK_BRUSH) || (h =? NULL_BRUSH) then Some SBrush
            else if h =? STOCK_PEN then Some SPen else if h =? STOCK_FONT then Some SFont
            else if h =? STOCK_BITMAP then Some SBitmap else None
  end.

Definition get_selected (k : SelectKind) (d : Dc) : Z :=
  match k with SBrush => dc_brush d | SPen => dc_pen d | SFont => dc_font d | SBitmap => dc_bitmap d end.
Definition set_selected (k : SelectKind) (h : Z) (d : Dc) : Dc :=
  match k with
  | SBrush => mkDc h (dc_pen d) (dc_font d) (dc_bitmap d)
  | SPen => mkDc (dc_brush d) h (dc_font d) (dc_bitmap d)
  | SFont => mkDc (dc_brush d) (dc_pen d) h (dc_bitmap d)
  | SBitmap => mkDc (dc_brush d) (dc_pen d) (dc_font d) h
  end.

(** [SelectObject]: the object that was selected, 0 when it fails. *)
Definition select_object (dc h : Z) : gdi Z := λ g,
  match g_dcs g !! dc, kind_of h (g_objects g) with
  | Some d, Some k => (Ok (get_selected k d), with_dcs (<[dc := set_selected k h d]> (g_dcs g)) g)
  | _, _ => (Ok 0, g)
  end.

Definition pen_color (h : Z) (g : Gdi) : Z := match g_objects g !! h with Some (OPen c) => c | _ => 0 end.
Definition brush_color (h : Z) (g : Gdi) : option Z := match g_objects g !! h with Some (OBrush c) => Some c | _ => None end.

(** A mark on an existing context. *)
Definition mark (dc : Z) (f : Dc → Gdi → option Mark) : gdi unit := sr_modify (λ g,
  match g_dcs g !! dc ≫= λ d, f d g with
  | Some m => mkGdi (g_dcs g) (g_objects g) (g_next g) (g_answers g) (g_marks g ++ [(dc, m)])
  | None => g
  end).

(** [FillRect], with a brush that exists. *)
Definition fill_rect (dc : Z) (rect : RECT) (brush : Z) : gdi unit :=
  mark dc (λ _ g, c ← brush_color brush g; Some (MFill rect c)).

(** ** The helpers *)

(** [app/ui_paint.rs fill] *)
Definition fill (dc : Z) (rect : RECT) (color : Z) : gdi unit :=
  brush ← create (OBrush color);
  _ ← fill_rect dc rect brush;
  delete_object brush.

(** [app/ui_paint.rs fill_ellipse] *)
Definition fill_ellipse (dc : Z) (rect : RECT) (color : Z) : gdi unit :=
  brush ← create (OBrush color);
  pen ← create (OPen color);
  old_brush ← select_object dc brush;
  old_pen ← select_object dc pen;
  _ ← mark dc (λ d g, Some (MEllipse rect (pen_color (dc_pen d) g) (brush_color (dc_brush d) g)));
  _ ← select_object dc old_brush;
  _ ← select_object dc old_pen;
  _ ← delete_object brush;
  delete_object pen.

(** [app/ui_paint.rs outline_round_rect] *)
Definition outline_round_rect (dc : Z) (rect : RECT) (color radius : Z) : gdi unit :=
  pen ← create (OPen color);
  old_pen ← select_object dc pen;
  old_brush ← select_object dc NULL_BRUSH;
  _ ← mark dc (λ d g, Some (MRound rect radius (pen_color (dc_pen d) g) (brush_color (dc_brush d) g)));
  _ ← select_object dc old_pen;
  _ ← select_object dc old_brush;
  delete_object pen.

(** [app/ui_paint.rs fill_round_rect] *)
Definition fill_round_rect (dc : Z) (rect : RECT) (color radius : Z) : gdi unit :=
  brush ← create (OBrush color);
  region ← create (ORegion rect (Z.max radius 1 * 2));
  _ ← mark dc (λ _ g,
        c ← brush_color brush g;
        match g_objects g !! region with Some (ORegion r e) => Some (MRegion r e c) | _ => None end);
  _ ← delete_object region;
  delete_object brush.

(** [app/ui_paint.rs draw_line] *)
Definition draw_line (dc x1 y1 x2 y2 color : Z) : gdi unit :=
  pen ← create (OPen color);
  old_pen ← select_object dc pen;
  _ ← mark dc (λ d g, Some (MLine x1 y1 x2 y2 (pen_color (dc_pen d) g)));
  _ ← select_object dc old_pen;
  delete_object pen.

(** [app/ui_paint.rs draw_label] In one line, in the middle of its height. *)
Definition draw_label (dc : Z) (value : string) (rect : RECT) (font color : Z) (centered : bool) : gdi unit :=
  old_font ← select_object dc font;
  _ ← mark dc (λ d _, Some (MText value rect (dc_font d) color centered));
  _ ← select_object dc old_font;
  mret tt.

(** ** They leave the objects and contexts as they found them *)

(** Handles are positive and were given out, and what is selected is of its kind. *)
Definition gdi_ok (g : Gdi) : Prop :=
  0 < g_next g ∧ (∀ h o, g_objects g !! h = Some o → 0 < h < g_next g) ∧
  ∀ c d k, g_dcs g !! c = Some d → kind_of (get_selected k d) (g_objects g) = Some k.

(** The same contexts with the same selections, and the same objects. *)
Definition same_gdi (g g' : Gdi) : Prop :=
  g_dcs g' = g_dcs g ∧ g_objects g' = g_objects g ∧ g_next g ≤ g_next g'.

#[global] Instance same_gdi_preorder : PreOrder same_gdi.
Proof. split; [intros g; split_and!; done || lia | intros a b c (?&?&?) (?&?&?); split_and!; [congruence | congruence | lia]]. Qed.

Lemma same_gdi_ok g g' : same_gdi g g' → gdi_ok g → gdi_ok g'.
Proof.
  intros (Hd & Ho & Hn) (Hpos & Hobj & Hsel). split; [lia |]. split.
  - intros h o. rewrite Ho. intros Hh. specialize (Hobj h o Hh). lia.
  - intros c d k. rewrite Hd, Ho. apply Hsel.
Qed.

(** A program that always ends well and restores everything. *)
Definition tidy {A} (c : gdi A) : Prop := ∀ g, gdi_ok g → same_gdi g (c g).2 ∧ is_Some (match (c g).1 with Ok a => Some a | Err _ => None end).

Lemma tidy_ret {A} (a : A) : tidy (mret a).
Proof. intros g Hg. split; [done | by eexists]. Qed.

Lemma tidy_bind {A B} (c : gdi A) (f : A → gdi B) : tidy c → (∀ a, tidy (f a)) → tidy (a ← c; f a).
Proof.
  intros Hc Hf g Hg. specialize (Hc g Hg). unfold mbind, sr_bind. destruct (c g) as [[a | []] g1].
  destruct Hc as [H1 _]. cbn in H1. destruct (Hf a g1) as [H2 Hok]; [by eapply same_gdi_ok |]. split; [by etrans | done].
Qed.

Lemma kind_of_old h objects n o k : kind_of h objects = Some k → (∀ i x, objects !! i = Some x → 0 < i < n) → 0 < n →
  h ≠ n ∧ kind_of h (<[n := o]> objects) = Some k.
Proof.
  intros Hk Hobj Hn. assert (h ≠ n) as Hne.
  { intros ->. destruct (objects !! n) as [x |] eqn:E; [specialize (Hobj n x E); lia |].
    unfold kind_of, STOCK_BRUSH, NULL_BRUSH, STOCK_PEN, STOCK_FONT, STOCK_BITMAP in Hk. rewrite E in Hk.
    repeat (rewrite (proj2 (Z.eqb_neq n _)) in Hk by lia). done. }
  split; [done |]. unfold kind_of in *. by rewrite lookup_insert_ne.
Qed.

Lemma kind_of_zero objects : (∀ i x, objects !! i = Some x → 0 < i) → kind_of 0 objects = None.
Proof. intros Hobj. unfold kind_of. destruct (objects !! 0) eqn:E; [specialize (Hobj 0 _ E); lia | done]. Qed.

Lemma selected_spec d h : selected d h = true ↔ ∃ k, get_selected k d = h.
Proof.
  unfold selected. rewrite !orb_true_iff, !Z.eqb_eq. split.
  - intros [[[<- | <-] | <-] | <-]; [by exists SBrush | by exists SPen | by exists SFont | by exists SBitmap].
  - intros [[] <-]; cbn; auto.
Qed.

Lemma fresh_not_in_use g h : gdi_ok g → h = 0 ∨ g_next g ≤ h → in_use h g = false.
Proof.
  intros (Hpos & Hobj & Hsel) Hh. apply not_true_is_false. unfold in_use. rewrite existsb_exists.
  intros ([c d] & Hin & [k Hk]%selected_spec). apply list_elem_of_In, elem_of_map_to_list in Hin. cbn in Hk.
  specialize (Hsel c d k Hin). rewrite Hk in Hsel. unfold kind_of, STOCK_BRUSH, NULL_BRUSH, STOCK_PEN, STOCK_FONT, STOCK_BITMAP in Hsel.
  destruct (g_objects g !! h) as [x |] eqn:E; [specialize (Hobj h x E); lia |].
  repeat (rewrite (proj2 (Z.eqb_neq h _)) in Hsel by lia). done.
Qed.

(** [h] is a new object, or 0. *)
Definition made (o : GdiObject) (h : Z) (g g1 : Gdi) : Prop :=
  g_dcs g1 = g_dcs g ∧ ((h = 0 ∧ g_objects g1 = g_objects g ∧ g_next g1 = g_next g)
    ∨ (h = g_next g ∧ g_objects g1 = <[h := o]> (g_objects g) ∧ g_next g1 = g_next g + 1)).

Lemma create_made o g : ∃ h g1, create o g = (Ok h, g1) ∧ made o h g g1.
Proof.
  unfold create, answer. destruct (g_answers g) as [|[] rest]; eexists _, _; (split; [reflexivity |]); split; auto.
Qed.

Lemma made_ok o h g g1 : gdi_ok g → made o h g g1 → gdi_ok g1 ∧ (h = 0 ∨ h = g_next g ∧ g_objects g1 !! h = Some o).
Proof.
  intros (Hpos & Hobj & Hsel) [Hd [(-> & Ho & Hn) | (-> & Ho & Hn)]].
  - split; [| by left]. split; [lia |]. rewrite Ho, Hn, Hd. done.
  - split; [| right; by rewrite Ho, lookup_insert_eq]. split; [lia |]. rewrite Ho, Hn, Hd. split.
    + intros h x [[<- _] | [_ Hh]]%lookup_insert_Some; [lia |]. specialize (Hobj h x Hh). lia.
    + intros c d k Hc. by apply kind_of_old; [apply (Hsel c) | |].
Qed.

(** A drawing call changes no object and no selection. *)
Definition draws (m : gdi unit) : Prop := ∀ g, ∃ g', m g = (Ok tt, g') ∧ g_dcs g' = g_dcs g ∧ g_objects g' = g_objects g ∧ g_next g' = g_next g.

Lemma draws_mark dc f : draws (mark dc f).
Proof. intros g. unfold mark, sr_modify. eexists. split; [reflexivity |]. by destruct (_ ≫= _). Qed.

Lemma set_get_selected k d : set_selected k (get_selected k d) d = d.
Proof. by destruct k, d. Qed.

Lemma get_set_other k k' h d : k ≠ k' → get_selected k (set_selected k' h d) = get_selected k d.
Proof. by destruct k, k'. Qed.

Lemma restored_both k1 k2 h1 h2 d : k1 ≠ k2 →
  set_selected k2 (get_selected k2 d) (set_selected k1 (get_selected k1 d) (set_selected k2 h2 (set_selected k1 h1 d))) = d.
Proof. by destruct k1, k2, d. Qed.

Lemma set_selected_twice k h h' d : set_selected k h (set_selected k h' d) = set_selected k h d.
Proof. by destruct k. Qed.

Lemma select_some dc h k d g : g_dcs g !! dc = Some d → kind_of h (g_objects g) = Some k →
  select_object dc h g = (Ok (get_selected k d), with_dcs (<[dc := set_selected k h d]> (g_dcs g)) g).
Proof. intros Hd Hk. unfold select_object. by rewrite Hd, Hk. Qed.

Lemma select_none dc h g : g_dcs g !! dc = None ∨ kind_of h (g_objects g) = None → select_object dc h g = (Ok 0, g).
Proof. unfold select_object. intros [-> | ->]; [done | by destruct (g_dcs g !! dc)]. Qed.

(** One object selected, used and selected back. *)
Lemma selection_restored {B} dc h k (m : gdi unit) (rest : gdi B) g :
  gdi_ok g → kind_of h (g_objects g) = None ∨ kind_of h (g_objects g) = Some k → draws m →
  ∃ g', (old ← select_object dc h; _ ← m; _ ← select_object dc old; rest) g = rest g'
    ∧ g_dcs g' = g_dcs g ∧ g_objects g' = g_objects g ∧ g_next g' = g_next g.
Proof.
  intros (Hpos & Hobj & Hsel) Hh Hm.
  assert (kind_of 0 (g_objects g) = None) as Hzero by (apply kind_of_zero; intros i x Hi; specialize (Hobj i x Hi); lia).
  assert ((g_dcs g !! dc = None ∨ kind_of h (g_objects g) = None) ∨ ∃ d, g_dcs g !! dc = Some d ∧ kind_of h (g_objects g) = Some k) as [Hno | (d & Hd & Hk)]
    by (destruct (g_dcs g !! dc); naive_solver).
  - destruct (Hm g) as (g1 & Hm1 & Hd1 & Ho1 & Hn1). exists g1. split; [| done]. unfold mbind, sr_bind.
    rewrite select_none, Hm1, select_none; [done | right; by rewrite Ho1 | done].
  - destruct (Hm (with_dcs (<[dc := set_selected k h d]> (g_dcs g)) g)) as (g1 & Hm1 & Hd1 & Ho1 & Hn1). cbn in Hd1, Ho1, Hn1.
    eexists. split; [| split_and!]. { unfold mbind, sr_bind. rewrite (select_some dc h k d g Hd Hk), Hm1.
      rewrite (select_some dc _ k (set_selected k h d) g1); [reflexivity | rewrite Hd1; apply lookup_insert_eq | rewrite Ho1; by apply (Hsel dc)]. }
    + cbn. by rewrite Hd1, insert_insert_eq, set_selected_twice, set_get_selected, insert_id.
    + by cbn.
    + by cbn.
Qed.

(** Two objects of different kinds, selected back in the order they were selected. *)
Lemma selections_restored {B} dc h1 k1 h2 k2 (m : gdi unit) (rest : gdi B) g :
  gdi_ok g → k1 ≠ k2 → kind_of h1 (g_objects g) = None ∨ kind_of h1 (g_objects g) = Some k1 →
  kind_of h2 (g_objects g) = None ∨ kind_of h2 (g_objects g) = Some k2 → draws m →
  ∃ g', (old1 ← select_object dc h1; old2 ← select_object dc h2; _ ← m; _ ← select_object dc old1; _ ← select_object dc old2; rest) g = rest g'
    ∧ g_dcs g' = g_dcs g ∧ g_objects g' = g_objects g ∧ g_next g' = g_next g.
Proof.
  intros Hok Hne H1 H2 Hm. pose proof Hok as (Hpos & Hobj & Hsel).
  assert (kind_of 0 (g_objects g) = None) as Hzero by (apply kind_of_zero; intros i x Hi; specialize (Hobj i x Hi); lia).
  assert ((g_dcs g !! dc = None ∨ kind_of h1 (g_objects g) = None) ∨ ∃ d, g_dcs g !! dc = Some d ∧ kind_of h1 (g_objects g) = Some k1) as [Hno | (d & Hd & Hk)]
    by (destruct (g_dcs g !! dc); naive_solver).
  - destruct (selection_restored dc h2 k2 m rest g Hok H2 Hm) as (g' & Hrun & Hsame). exists g'. split; [| done].
    rewrite <- Hrun. unfold mbind, sr_bind. rewrite (select_none dc h1) by done.
    destruct (select_object dc h2 g) as [[old2 | []] g2] eqn:E2.
    destruct (Hm g2) as (g3 & Hm3 & Hd3 & Ho3 & _). rewrite Hm3. rewrite (select_none dc 0 g3); [done |]. right.
    rewrite Ho3. revert E2. unfold select_object. by repeat case_match; intros [= _ <-].
  - set (g1 := with_dcs (<[dc := set_selected k1 h1 d]> (g_dcs g)) g).
    assert ((kind_of h2 (g_objects g) = None) ∨ kind_of h2 (g_objects g) = Some k2) as [Hno2 | Hk2] by done.
    + destruct (Hm g1) as (g2 & Hm2 & Hd2 & Ho2 & Hn2). cbn in Hd2, Ho2, Hn2. eexists. split; [| split_and!].
      { unfold mbind, sr_bind. rewrite (select_some dc h1 k1 d g Hd Hk). fold g1. rewrite (select_none dc h2 g1), Hm2 by by right.
        rewrite (select_some dc _ k1 (set_selected k1 h1 d) g2); [| rewrite Hd2; apply lookup_insert_eq | rewrite Ho2; by apply (Hsel dc)].
        rewrite select_none; [reflexivity | right; cbn; by rewrite Ho2]. }
      * cbn. by rewrite Hd2, insert_insert_eq, set_selected_twice, set_get_selected, insert_id.
      * by cbn.
      * by cbn.
    + set (g2 := with_dcs (<[dc := set_selected k2 h2 (set_selected k1 h1 d)]> (g_dcs g1)) g1).
      destruct (Hm g2) as (g3 & Hm3 & Hd3 & Ho3 & Hn3). cbn in Hd3, Ho3, Hn3. eexists. split; [| split_and!].
      { unfold mbind, sr_bind. rewrite (select_some dc h1 k1 d g Hd Hk). fold g1.
        rewrite (select_some dc h2 k2 (set_selected k1 h1 d) g1); [| apply lookup_insert_eq | done]. fold g2. rewrite Hm3.
        rewrite (select_some dc _ k1 (set_selected k2 h2 (set_selected k1 h1 d)) g3);
          [| rewrite Hd3; apply lookup_insert_eq | rewrite Ho3; by apply (Hsel dc)].
        rewrite (select_some dc _ k2 (set_selected k1 (get_selected k1 d) (set_selected k2 h2 (set_selected k1 h1 d)))); [reflexivity | apply lookup_insert_eq |].
        cbn. rewrite Ho3, get_set_other by done. by apply (Hsel dc). }
      * cbn. rewrite Hd3, !insert_insert_eq, (get_set_other k2 k1) by done.
        rewrite restored_both by done. by apply insert_id.
      * by cbn.
      * by cbn.
Qed.

Lemma delete_object_new h g g' : gdi_ok g → g_dcs g' = g_dcs g → h = 0 ∨ g_next g ≤ h →
  delete_object h g' = (Ok tt, with_objects (delete h (g_objects g')) g').
Proof.
  intros Hok Hd Hh. unfold delete_object, sr_modify. replace (in_use h g') with (in_use h g) by (unfold in_use; by rewrite Hd).
  by rewrite fresh_not_in_use.
Qed.

Lemma made_fresh o h g g1 : gdi_ok g → made o h g g1 → (h = 0 ∨ g_next g ≤ h) ∧ delete h (g_objects g1) = g_objects g ∧ g_next g ≤ g_next g1.
Proof.
  intros (Hpos & Hobj & _) [_ [(-> & -> & ->) | (-> & -> & ->)]].
  - split_and!; [by left | | lia]. apply delete_id. destruct (g_objects g !! 0) eqn:E; [specialize (Hobj 0 _ E); lia | done].
  - split_and!; [right; lia | | lia]. rewrite delete_insert_eq. apply delete_id.
    destruct (g_objects g !! g_next g) eqn:E; [specialize (Hobj _ _ E); lia | done].
Qed.

(** What was created is deleted again. *)
Lemma delete_one o h g g1 g2 : gdi_ok g → made o h g g1 →
  g_dcs g2 = g_dcs g1 → g_objects g2 = g_objects g1 → g_next g2 = g_next g1 →
  same_gdi g (delete_object h g2).2 ∧ (delete_object h g2).1 = Ok tt.
Proof.
  intros Hok Hmade Hd Ho Hn. destruct (made_fresh _ _ _ _ Hok Hmade) as (Hh & Hdel & Hle). destruct Hmade as [Hd1 _].
  rewrite (delete_object_new h g g2) by (try done; congruence). split; [| done]. split_and!; cbn; [congruence | by rewrite Ho | lia].
Qed.

Lemma delete_two o1 h1 o2 h2 g g1 g2 g3 : gdi_ok g → made o1 h1 g g1 → made o2 h2 g1 g2 →
  g_dcs g3 = g_dcs g2 → g_objects g3 = g_objects g2 → g_next g3 = g_next g2 →
  (∀ a b, a = h1 ∧ b = h2 ∨ a = h2 ∧ b = h1 →
   same_gdi g ((_ ← delete_object a; delete_object b) g3).2 ∧ ((_ ← delete_object a; delete_object b) g3).1 = Ok tt).
Proof.
  intros Hok M1 M2 Hd Ho Hn a b Hab. destruct (made_fresh _ _ _ _ Hok M1) as (Hh1 & Hdel1 & Hle1).
  destruct (made_ok _ _ _ _ Hok M1) as [Hok1 _]. destruct (made_fresh _ _ _ _ Hok1 M2) as (Hh2 & Hdel2 & Hle2).
  assert (g_dcs g3 = g_dcs g) as Hd3 by (destruct M1, M2; congruence).
  assert ((a = 0 ∨ g_next g ≤ a) ∧ (b = 0 ∨ g_next g ≤ b)) as [Ha Hb] by (destruct Hab as [[-> ->] | [-> ->]]; split; lia).
  unfold mbind, sr_bind. rewrite (delete_object_new a g g3) by done. rewrite (delete_object_new b g) by done. split; [| done].
  split_and!; cbn; [done | | lia]. rewrite Ho.
  destruct Hab as [[-> ->] | [-> ->]]; [by rewrite delete_delete, Hdel2, Hdel1 | by rewrite Hdel2, Hdel1].
Qed.

Definition object_kind (o : GdiObject) : option SelectKind :=
  match o with OBrush _ => Some SBrush | OPen _ => Some SPen | OFont => Some SFont | OBitmap => Some SBitmap | ORegion _ _ => None end.

(** 0, or an object that is there. *)
Definition there (h : Z) (o : GdiObject) (g : Gdi) : Prop := h = 0 ∨ g_objects g !! h = Some o.

Lemma there_kind h o g k : gdi_ok g → there h o g → object_kind o = Some k →
  kind_of h (g_objects g) = None ∨ kind_of h (g_objects g) = Some k.
Proof.
  intros (Hpos & Hobj & _) [-> | Hh] Hk.
  - left. apply kind_of_zero. intros i x Hi. specialize (Hobj i x Hi). lia.
  - right. unfold kind_of. rewrite Hh. by destruct o.
Qed.

Lemma made_there o h g g1 : gdi_ok g → made o h g g1 → gdi_ok g1 ∧ there h o g1.
Proof. intros Hok M. destruct (made_ok _ _ _ _ Hok M) as [Hok1 Hh]. split; [done |]. destruct Hh as [-> | [_ Hh]]; [by left | by right]. Qed.

Lemma there_later h o o' h' g g1 : gdi_ok g → there h o g → made o' h' g g1 → there h o g1.
Proof.
  intros (_ & Hobj & _) [-> | Hh] [_ [(_ & Ho & _) | (-> & Ho & _)]]; [by left | by left | right; by rewrite Ho |].
  right. rewrite Ho, lookup_insert_ne; [done |]. specialize (Hobj h o Hh). lia.
Qed.

Lemma tidy_from (c : gdi unit) : (∀ g, gdi_ok g → same_gdi g (c g).2 ∧ (c g).1 = Ok tt) → tidy c.
Proof. intros Hc g Hg. destruct (Hc g Hg) as [? ->]. split; [done | by eexists]. Qed.

Lemma fill_tidy dc rect color : tidy (fill dc rect color).
Proof.
  apply tidy_from. intros g Hok. unfold fill, mbind, sr_bind. destruct (create_made (OBrush color) g) as (h & g1 & -> & M).
  destruct (draws_mark dc (λ _ g, c ← brush_color h g; Some (MFill rect c)) g1) as (g2 & Hm & Hd & Ho & Hn). unfold fill_rect.
  rewrite Hm. by eapply delete_one.
Qed.

Lemma fill_ellipse_tidy dc rect color : tidy (fill_ellipse dc rect color).
Proof.
  apply tidy_from. intros g Hok. unfold fill_ellipse. destruct (create_made (OBrush color) g) as (b & g1 & E1 & M1).
  destruct (create_made (OPen color) g1) as (p & g2 & E2 & M2). rewrite (sr_bind_Ok _ _ _ _ _ E1), (sr_bind_Ok _ _ _ _ _ E2).
  destruct (made_there _ _ _ _ Hok M1) as [Hok1 Hb]. destruct (made_there _ _ _ _ Hok1 M2) as [Hok2 Hp].
  apply (there_later _ _ _ _ _ _ Hok1 Hb) in M2 as Hb2.
  destruct (selections_restored dc b SBrush p SPen _ (_ ← delete_object b; delete_object p) g2 Hok2 ltac:(done)
    (there_kind _ _ _ _ Hok2 Hb2 eq_refl) (there_kind _ _ _ _ Hok2 Hp eq_refl)
    (draws_mark dc (λ d g, Some (MEllipse rect (pen_color (dc_pen d) g) (brush_color (dc_brush d) g))))) as (g3 & -> & Hd & Ho & Hn).
  apply (delete_two _ _ _ _ _ _ _ _ Hok M1 M2 Hd Ho Hn). auto.
Qed.

Lemma outline_round_rect_tidy dc rect color radius : tidy (outline_round_rect dc rect color radius).
Proof.
  apply tidy_from. intros g Hok. unfold outline_round_rect. destruct (create_made (OPen color) g) as (p & g1 & E1 & M1).
  rewrite (sr_bind_Ok _ _ _ _ _ E1). destruct (made_there _ _ _ _ Hok M1) as [Hok1 Hp].
  assert (kind_of NULL_BRUSH (g_objects g1) = Some SBrush) as Hnull.
  { unfold kind_of. destruct (g_objects g1 !! NULL_BRUSH) eqn:E; [| done]. destruct Hok1 as (_ & Hobj & _). specialize (Hobj _ _ E). unfold NULL_BRUSH in Hobj. lia. }
  destruct (selections_restored dc p SPen NULL_BRUSH SBrush _ (delete_object p) g1 Hok1 ltac:(done)
    (there_kind _ _ _ _ Hok1 Hp eq_refl) (or_intror Hnull)
    (draws_mark dc (λ d g, Some (MRound rect radius (pen_color (dc_pen d) g) (brush_color (dc_brush d) g))))) as (g2 & -> & Hd & Ho & Hn).
  by eapply delete_one.
Qed.

Lemma fill_round_rect_tidy dc rect color radius : tidy (fill_round_rect dc rect color radius).
Proof.
  apply tidy_from. intros g Hok. unfold fill_round_rect. destruct (create_made (OBrush color) g) as (b & g1 & E1 & M1).
  destruct (create_made (ORegion rect (Z.max radius 1 * 2)) g1) as (r & g2 & E2 & M2).
  rewrite (sr_bind_Ok _ _ _ _ _ E1), (sr_bind_Ok _ _ _ _ _ E2).
  edestruct (draws_mark dc) as (g3 & Hm & Hd & Ho & Hn). rewrite (sr_bind_Ok _ _ _ _ _ Hm).
  apply (delete_two _ _ _ _ _ _ _ _ Hok M1 M2 Hd Ho Hn). auto.
Qed.

Lemma draw_line_tidy dc x1 y1 x2 y2 color : tidy (draw_line dc x1 y1 x2 y2 color).
Proof.
  apply tidy_from. intros g Hok. unfold draw_line. destruct (create_made (OPen color) g) as (p & g1 & E1 & M1).
  rewrite (sr_bind_Ok _ _ _ _ _ E1). destruct (made_there _ _ _ _ Hok M1) as [Hok1 Hp].
  destruct (selection_restored dc p SPen _ (delete_object p) g1 Hok1 (there_kind _ _ _ _ Hok1 Hp eq_refl)
    (draws_mark dc (λ d g, Some (MLine x1 y1 x2 y2 (pen_color (dc_pen d) g))))) as (g2 & -> & Hd & Ho & Hn).
  by eapply delete_one.
Qed.

(** The font is one of the window's, which was created before, or missing. *)
Lemma draw_label_tidy dc value rect font color centered g : gdi_ok g → there font OFont g →
  same_gdi g (draw_label dc value rect font color centered g).2 ∧ (draw_label dc value rect font color centered g).1 = Ok tt.
Proof.
  intros Hok Hfont. unfold draw_label.
  destruct (selection_restored dc font SFont _ (mret tt) g Hok (there_kind _ _ _ _ Hok Hfont eq_refl)
    (draws_mark dc (λ d _, Some (MText value rect (dc_font d) color centered)))) as (g2 & -> & Hd & Ho & Hn).
  split; [| done]. split_and!; cbn; [done | done | lia].
Qed.
