(* ===== verification/Components.v ===== *)
(** * The parts of the window's pictures

    [flowtype-app/src/ui_components.rs] and [ui_theme.rs]: the colours, the section bounds
    of the pages that both renderers share, the picture of an action in each of its
    states, and the hovering of a button. A picture is the list of what the helpers of
    [Gdi] are asked to draw. *)

From S2P Require Import Prelude Text Layout Pages Gdi.
Local Open Scope list_scope.
Local Open Scope Z_scope.

(** [app/ui_theme.rs:1-16 COLOR_WHITE] *)
Definition COLOR_WHITE : Z := 0x00ffffff.
Definition COLOR_SIDEBAR : Z := 0x00f9f9f7.
Definition COLOR_TEXT : Z := 0x001f1f1f.
Definition COLOR_MUTED : Z := 0x00707070.
Definition COLOR_LINE : Z := 0x00e9e5e2.
Definition COLOR_TEAL : Z := 0x00b8ba00.
Definition COLOR_PRIMARY : Z := 0x00918f00.
Definition COLOR_TEAL_PALE : Z := 0x00f8f9ea.
Definition COLOR_HOVER : Z := 0x00f5f3f1.
Definition COLOR_PRESSED : Z := 0x00eeebe8.
Definition COLOR_TEAL_HOVER : Z := 0x00a7a800.
Definition COLOR_TEAL_PRESSED : Z := 0x00969700.
Definition COLOR_DISABLED : Z := 0x00a6a19c.
Definition COLOR_DANGER : Z := 0x003f3fd1.

(** ** Pictures *)

Inductive RenderFont := IconFont | BodyText | HeadingText | NavigationText.

Inductive Draw :=
| Fill (rect : RECT) (color : Z)
| FillRound (rect : RECT) (color radius : Z)
| OutlineRound (rect : RECT) (color radius : Z)
| FillEllipse (rect : RECT) (color : Z)
| DrawLine (x1 y1 x2 y2 color : Z)
| DrawLabel (value : string) (rect : RECT) (font : RenderFont) (color : Z) (centered : bool).

(** The handles of the window's fonts. *)
Definition perform (fonts : RenderFont → Z) (dc : Z) (d : Draw) : gdi unit :=
  match d with
  | Fill rect color => fill dc rect color
  | FillRound rect color radius => fill_round_rect dc rect color radius
  | OutlineRound rect color radius => outline_round_rect dc rect color radius
  | FillEllipse rect color => fill_ellipse dc rect color
  | DrawLine x1 y1 x2 y2 color => draw_line dc x1 y1 x2 y2 color
  | DrawLabel value rect font color centered => draw_label dc value rect (fonts font) color centered
  end.

Fixpoint perform_all (fonts : RenderFont → Z) (dc : Z) (ds : list Draw) : gdi unit :=
  match ds with [] => mret tt | d :: ds => _ ← perform fonts dc d; perform_all fonts dc ds end.

(** A picture leaves no object behind, whatever cannot be created on the way. *)
Lemma perform_all_tidy fonts dc ds g : gdi_ok g → (∀ f, there (fonts f) OFont g) →
  same_gdi g (perform_all fonts dc ds g).2 ∧ (perform_all fonts dc ds g).1 = Ok tt.
Proof.
  revert g. induction ds as [|d ds IH]; intros g Hok Hfonts; [done |]. cbn [perform_all].
  assert (same_gdi g (perform fonts dc d g).2 ∧ (perform fonts dc d g).1 = Ok tt) as [Hsame Hr].
  { assert (∀ c : gdi unit, tidy c → same_gdi g (c g).2 ∧ (c g).1 = Ok tt) as Htidy.
    { intros c Hc. destruct (Hc g Hok) as [Hs [x Hx]]. split; [done |]. by destruct (c g).1 as [[] | []]. }
    destruct d; cbn [perform]; [apply Htidy.. | by apply draw_label_tidy].
    - apply fill_tidy.
    - apply fill_round_rect_tidy.
    - apply outline_round_rect_tidy.
    - apply fill_ellipse_tidy.
    - apply draw_line_tidy. }
  unfold mbind, sr_bind. destruct (perform fonts dc d g) as [r g1]. cbn in Hsame, Hr. subst r.
  destruct (IH g1) as [Hsame' Hr']; [by eapply same_gdi_ok | | split; [by etrans | done]].
  intros f. destruct (Hfonts f) as [Hz | Hf]; [by left | right]. by rewrite (proj1 (proj2 Hsame)).
Qed.

(** ** Rounding to pixels *)

(** [n / d] units as a 32-bit float, where the quotient is at least 2. *)
Definition f32_round (n d : Z) : Z :=
  let bits := Z.log2 (n / d) - 23 in
  if bits <? 0 then n / d else round_half_even n (d * 2 ^ bits) * 2 ^ bits.

(** [f32::round] and [as i32]: half away from zero. *)
Definition round_to_pixel (v : Z) : Z :=
  if 0 <=? v then (v + UNIT / 2) / UNIT else - ((- v + UNIT / 2) / UNIT).

(** [app/ui_components.rs device_rect] *)
Definition device_rect (dpi : Z) (rect : Rect) : RECT :=
  let scale value := round_to_pixel (f32_round (f32_round (value * dpi) 1) 96) in
  mkRECT (scale (left rect)) (scale (top rect)) (scale (right rect)) (scale (bottom rect)).

Example device_rect_at_150_percent : device_rect 144 (dips 266 157 53 53) = mkRECT 399 236 479 315.
Proof. reflexivity. Qed.

(** ** The shared parts *)

Definition CORNER_RADIUS : Z := 7.
Definition NAV_INSET : Z := 12.

(** [app/ui_components.rs page_panels] *)
Definition page_panels (page : Page) (client_width : Z) (phone_count : nat) : list Rect :=
  let right := content_right (ShellLayout_new client_width) in
  let panel top bottom := mkRect (dip 244) (dip top) right (dip bottom) in
  match page with
  | PageStatus => [panel 132 240]
  | PagePhones => if (phone_count =? 0)%nat then [panel 169 263] else []
  | PagePairing => [panel 166 465]
  | PageFiles => [panel 229 420]
  | PageSettings => []
  end.

(** [app/ui_components.rs ActionStyle] *)
Inductive ActionStyle := Primary | SecondaryStyle | Subtle.

(** [app/ui_components.rs ButtonVisual] *)
Record ButtonVisual := mkVisual { pressed : bool; hovered : bool; focused : bool; disabled : bool }.

(** [app/ui_components.rs draw_action] *)
Definition draw_action (rect : RECT) (style : ActionStyle) (state : ButtonVisual) (radius : Z) : list Draw :=
  let background :=
    match style, disabled state, pressed state, hovered state with
    | Primary, true, _, _ => COLOR_DISABLED
    | Primary, false, true, _ => COLOR_TEAL_PRESSED
    | Primary, false, false, true => COLOR_TEAL_HOVER
    | Primary, false, false, false => COLOR_PRIMARY
    | _, true, _, _ => COLOR_SIDEBAR
    | _, false, true, _ => COLOR_PRESSED
    | _, false, false, true => COLOR_HOVER
    | SecondaryStyle, false, false, false => COLOR_WHITE
    | Subtle, false, false, false => COLOR_SIDEBAR
    end in
  [FillRound rect background radius]
  ++ (match style with SecondaryStyle => [OutlineRound rect COLOR_LINE (radius * 2)] | _ => [] end)
  ++ (if focused state then
        let inset := Z.max (Z.quot radius 3) 2 in
        [OutlineRound (mkRECT (r_left rect + inset) (r_top rect + inset) (r_right rect - inset) (r_bottom rect - inset))
           COLOR_TEAL (radius * 2)]
      else []).

(** [app/ui_components.rs action_text_color] *)
Definition action_text_color (style : ActionStyle) (disabled : bool) : Z :=
  if disabled then COLOR_MUTED else match style with Primary => COLOR_WHITE | _ => COLOR_TEXT end.

(** [app/ui_components.rs draw_panel] *)
Definition draw_panel (rect : RECT) (radius : Z) : list Draw :=
  [FillRound rect COLOR_WHITE radius; OutlineRound rect COLOR_LINE (radius * 2)].

(** ** Hovering *)

(** A button's user data, whether the system will tell that the mouse left it, and how
    often it was asked to be drawn. *)
Record Hover := mkHover { hv_hovered : bool; hv_tracked : bool; hv_subclassed : bool; hv_invalidated : nat }.

Inductive HoverMessage := MouseMove (track : bool) | MouseLeave | NcDestroy | OtherMessage.

(** [app/ui_components.rs button_subclass] [track]: [TrackMouseEvent] succeeds. *)
Definition button_subclass (message : HoverMessage) (h : Hover) : Hover :=
  match message with
  | MouseMove track =>
    if hv_hovered h then h else mkHover true (hv_tracked h || track) (hv_subclassed h) (S (hv_invalidated h))
  | MouseLeave => mkHover false false (hv_subclassed h) (S (hv_invalidated h))
  | NcDestroy => mkHover (hv_hovered h) (hv_tracked h) false (hv_invalidated h)
  | OtherMessage => h
  end.

(** [app/ui_components.rs track_button_hover] *)
Definition track_button_hover : Hover := mkHover false false true 0.

(** While every request to be told succeeds, a button that is shown as hovered will hear
    that the mouse left it; and it is drawn again whenever that changes. *)
Lemma hover_ends ms h : (hv_hovered h = true → hv_tracked h = true) → Forall (λ m, m ≠ MouseMove false) ms →
  let h' := foldl (λ h m, button_subclass m h) h ms in
  (hv_hovered h' = true → hv_tracked h' = true) ∧ (hv_hovered h' ≠ hv_hovered h → (hv_invalidated h < hv_invalidated h')%nat).
Proof.
  revert h. induction ms as [|m ms IH]; intros h Hh Hms; [done |]. apply Forall_cons in Hms as [Hm Hms]. cbn [foldl].
  assert (hv_hovered (button_subclass m h) = true → hv_tracked (button_subclass m h) = true) as Hh1.
  { destruct m as [[] | | |]; cbn; try done. destruct (hv_hovered h) eqn:E; [by rewrite E in * | by rewrite orb_true_r]. }
  destruct (IH (button_subclass m h) Hh1 Hms) as [Ht Hi]. split; [done |]. intros Hne.
  assert (hv_invalidated h <= hv_invalidated (button_subclass m h))%nat as Hle by (destruct m as [[]| | |]; cbn; try case_match; cbn; lia).
  destruct (decide (hv_hovered (button_subclass m h) = hv_hovered h)) as [Heq | Hch]; [rewrite <- Heq in Hne; specialize (Hi Hne); lia |].
  assert (hv_invalidated h < hv_invalidated (button_subclass m h))%nat as Hlt
    by (destruct m as [[]| | |]; cbn in *; try case_match; cbn in *; try done; lia).
  assert (hv_invalidated (button_subclass m h) <= hv_invalidated (foldl (λ h m, button_subclass m h) (button_subclass m h) ms))%nat; [| lia].
  clear. revert h m. assert (∀ h, (hv_invalidated h <= hv_invalidated (foldl (λ h m, button_subclass m h) h ms))%nat) as Hmono; [| auto].
  induction ms as [|m ms IH]; intros h; [done |]. cbn. etrans; [| apply IH]. destruct m; cbn; try case_match; cbn; lia.
Qed.
