(* ===== verification/Render.v ===== *)
(** * The pictures of the window

    [flowtype-app/src/ui_render.rs] and [ui_direct2d.rs]: what is drawn behind the controls
    of a page, by Direct2D and, when that fails, by GDI; the pictures of the owner-drawn
    buttons; and the painting of the window, which falls back from one to the other. *)

From S2P Require Import Prelude Text Protocol FileCore Outbound Pairing AppState Layout Pages Window Gdi Components.
Local Open Scope string_scope.
Local Open Scope list_scope.
Local Open Scope Z_scope.

(** A character of the icon font. *)
Definition icon (c : Z) : string := of_chars [c].

(** [app/ui_render.rs draw_navigation_icon] *)
Definition draw_navigation_icon (page : Page) (bounds : RECT) (color unit : Z) : list Draw :=
  let x := Z.quot (r_left bounds + r_right bounds) 2 in
  let y := Z.quot (r_top bounds + r_bottom bounds) 2 in
  let s n := n * unit in
  match page with
  | PageStatus =>
    [OutlineRound (mkRECT (x - s 10) (y - s 9) (x + s 10) (y + s 5)) color (s 2);
     DrawLine x (y + s 5) x (y + s 10) color;
     DrawLine (x - s 5) (y + s 10) (x + s 5) (y + s 10) color]
  | PageFiles =>
    [DrawLine (x - s 9) (y - s 5) (x + s 9) (y - s 5) color;
     DrawLine (x + s 9) (y - s 5) (x + s 5) (y - s 9) color;
     DrawLine (x + s 9) (y - s 5) (x + s 5) (y - s 1) color;
     DrawLine (x + s 9) (y + s 5) (x - s 9) (y + s 5) color;
     DrawLine (x - s 9) (y + s 5) (x - s 5) (y + s 1) color;
     DrawLine (x - s 9) (y + s 5) (x - s 5) (y + s 9) color]
  | PagePhones | PagePairing =>
    [OutlineRound (mkRECT (x - s 7) (y - s 11) (x + s 7) (y + s 11)) color (s 3);
     FillEllipse (mkRECT (x - s 1) (y + s 7) (x + s 2) (y + s 10)) color]
  | PageSettings => []
  end.

(** ** Buttons *)

Section buttons.
Context (dpi : Z).
Notation s := (scale dpi).

(** [app/ui_render.rs UiContext::selected_navigation] *)
Definition selected_navigation (page : Page) : Page :=
  match page with PagePairing => PagePhones | _ => page end.

(** [app/ui_render.rs:26-100 draw_button] *)
Definition draw_navigation_button (page target : Page) (rect : RECT) (value : string) (visual : ButtonVisual) : list Draw :=
  let selected := bool_decide (selected_navigation page = target) in
  let selection := mkRECT (r_left rect + s NAV_INSET) (r_top rect + s 2) (r_right rect - s NAV_INSET) (r_bottom rect - s 2) in
  let icon_rect := mkRECT (s 26) (r_top rect) (s 54) (r_bottom rect) in
  let icon_color := if selected then COLOR_TEAL else COLOR_MUTED in
  [Fill rect COLOR_SIDEBAR]
  ++ (if selected then [FillRound selection COLOR_TEAL_PALE (s CORNER_RADIUS)]
      else if hovered visual || pressed visual
      then [FillRound selection (if pressed visual then COLOR_PRESSED else COLOR_HOVER) (s CORNER_RADIUS)] else [])
  ++ (if selected
      then [FillRound (mkRECT (r_left selection) (r_top selection + s 9) (r_left selection + s 3) (r_bottom selection - s 9)) COLOR_TEAL (s 2)]
      else [])
  ++ (if focused visual && negb (hovered visual) then [OutlineRound selection COLOR_TEAL (s (CORNER_RADIUS * 2))] else [])
  ++ (if bool_decide (target = PageSettings) then [DrawLabel (icon 0xe713) icon_rect IconFont icon_color true]
      else draw_navigation_icon target icon_rect icon_color (s 1))
  ++ [DrawLabel value (mkRECT (s 65) (r_top rect) (r_right rect) (r_bottom rect)) NavigationText
        (if disabled visual then COLOR_MUTED else if selected then COLOR_TEAL else COLOR_MUTED) false].

(** [app/ui_render.rs:101-140 draw_button] *)
Definition draw_secondary_button (id : Z) (rect : RECT) (value : string) (visual : ButtonVisual) : list Draw :=
  let style := if (id =? ID_PAIR) || (id =? ID_SAVE_SETTINGS) || (id =? ID_CHOOSE_FILES) then Primary else SecondaryStyle in
  draw_action rect style visual (s CORNER_RADIUS)
  ++ (if id =? ID_PAIR
      then [DrawLabel (icon 0xe8ea) (mkRECT (r_left rect + s 10) (r_top rect) (r_left rect + s 38) (r_bottom rect)) IconFont
              (match style with Primary => COLOR_WHITE | _ => COLOR_TEAL end) true]
      else [])
  ++ [DrawLabel value (mkRECT (if id =? ID_PAIR then r_left rect + s 26 else r_left rect) (r_top rect) (r_right rect) (r_bottom rect))
        BodyText (action_text_color style (disabled visual)) true].

(** [app/ui_render.rs:141-172 draw_button] *)
Definition draw_back_button (rect : RECT) (value : string) (visual : ButtonVisual) : list Draw :=
  draw_action rect Subtle visual (s CORNER_RADIUS)
  ++ [DrawLabel "←" (mkRECT (r_left rect) (r_top rect) (r_left rect + s 30) (r_bottom rect)) IconFont COLOR_TEAL true;
      DrawLabel value (mkRECT (r_left rect + s 28) (r_top rect) (r_right rect) (r_bottom rect)) BodyText COLOR_TEAL false].

(** [app/ui_render.rs:173-221 draw_button] With the rectangle that is left for the text. *)
Definition draw_checkbox (checked : bool) (rect : RECT) (value : string) (visual : ButtonVisual) : list Draw * RECT :=
  let box_size := s 20 in
  let top := Z.quot (r_top rect + r_bottom rect - box_size) 2 in
  let box_rect := mkRECT (r_right rect - s 38) top (r_right rect - s 3) (top + box_size) in
  let knob_left := if checked then r_right box_rect - s 18 else r_left box_rect + s 2 in
  let text_rect := mkRECT (r_left rect) (r_top rect) (r_left box_rect - s 12) (r_bottom rect) in
  ([Fill rect COLOR_WHITE]
   ++ (if hovered visual then [FillRound rect COLOR_HOVER (s CORNER_RADIUS)] else [])
   ++ [FillRound box_rect (if checked then COLOR_TEAL else COLOR_DISABLED) (s 11);
       FillEllipse (mkRECT knob_left (top + s 2) (knob_left + s 16) (top + s 18)) COLOR_WHITE;
       DrawLabel value text_rect BodyText COLOR_TEXT false], text_rect).

(** [app/ui_render.rs:290-301 draw_button] *)
Definition draw_checkbox_focus (text_width : Z) (rect : RECT) : list Draw :=
  let text_height := s 20 in
  [OutlineRound (mkRECT (r_left rect - s 2) (Z.quot (r_top rect + r_bottom rect - text_height) 2)
     (r_left rect + text_width + s 2) (Z.quot (r_top rect + r_bottom rect + text_height) 2)) COLOR_TEAL (s (CORNER_RADIUS * 2))].

(** [app/ui_render.rs:222-261 draw_button] *)
Definition draw_language_button (rect : RECT) (visual : ButtonVisual) : list Draw :=
  draw_action rect SecondaryStyle visual (s CORNER_RADIUS) ++ [DrawLabel (icon 0xe774) rect IconFont COLOR_TEAL true].

Definition draw_window_button (close : bool) (rect : RECT) (visual : ButtonVisual) : list Draw :=
  [Fill rect (if hovered visual then COLOR_HOVER else COLOR_WHITE);
   DrawLabel (if close then "×" else "−") rect NavigationText COLOR_MUTED true].

(** [app/ui_render.rs:262-288 draw_button] *)
Definition draw_file_tab (selected : bool) (rect : RECT) (value : string) (visual : ButtonVisual) : list Draw :=
  [Fill rect COLOR_WHITE; DrawLabel value rect BodyText (if selected then COLOR_TEAL else COLOR_MUTED) false]
  ++ (if selected then [Fill (mkRECT (r_left rect) (r_bottom rect - s 2) (r_right rect - s 6) (r_bottom rect)) COLOR_TEAL] else [])
  ++ (if focused visual then [OutlineRound rect COLOR_TEAL (s 7)] else []).

(** [app/ui_render.rs:5-25 draw_button] [text_width] measures a text. *)
Definition draw_button (text_width : string → Z) (u : UiContext) (kind : ButtonKind) (id : Z) (rect : RECT) (value : string)
    (visual : ButtonVisual) : list Draw :=
  match kind with
  | Navigation target => draw_navigation_button (ui_page u) target rect value visual
  | Secondary => draw_secondary_button id rect value visual
  | Back => draw_back_button rect value visual
  | Checkbox =>
    let checked := if id =? ID_SHOW_FLOATING then ui_floating_checked u else ui_auto_start_checked u in
    let '(picture, text_rect) := draw_checkbox checked rect value visual in
    picture ++ (if focused visual then draw_checkbox_focus (text_width value) text_rect else [])
  | LanguageKind => draw_language_button rect visual
  | WindowMinimize => draw_window_button false rect visual
  | WindowClose => draw_window_button true rect visual
  | FileTabKind tab => draw_file_tab (bool_decide (tab = ui_file_tab u)) rect value visual
  end.
End buttons.

(** What the renderers read of the window: the context, the app, whether the name field has
    the focus, the size of the client area. *)
Record Shown := mkShown {
  sh_ui : UiContext; sh_snapshot : UiSnapshot; sh_name_focused : bool; sh_english : bool;
  sh_dpi : Z; sh_width : Z; sh_height : Z;
}.

Definition is_connected (v : Shown) (phone : PairedPhone) : bool :=
  bool_decide (connected_phone (ui_status (sh_snapshot v)) = Some (phone_name phone)).
Definition client_dips (v : Shown) : Z := logical_client_width (sh_dpi v) (sh_width v).

(** [app/ui_pages.rs UiContext::phones_layout] *)
Definition phones_layout (v : Shown) : PhonesLayout := PhonesLayout_new (client_dips v) (length (ui_phone_ids (sh_ui v))).

(** [app/ui_render.rs:318-327 paint] *)
Definition panels (v : Shown) : list Rect :=
  let width := client_dips v in
  let u := sh_ui v in
  if bool_decide (ui_page u = PageFiles) && bool_decide (ui_file_tab u = TabReceived)
  then [mkRect (dip 244) (dip 210) (content_right (ShellLayout_new width)) (dip 326)]
  else page_panels (ui_page u) width (length (ui_phone_ids u)).

(** ** The picture by GDI *)

Section gdi_picture.
Context (v : Shown).
Notation s := (scale (sh_dpi v)).
Notation tr := (AppState.tr (sh_english v)).
Notation device := (device_rect (Z.max (sh_dpi v) 96)).
Let u := sh_ui v.
Let width := client_dips v.

(** A layout's rectangle with its whole numbers scaled. *)
Definition scaled_rect (r : Rect) : RECT := mkRECT (s (as_i32 (left r))) (s (as_i32 (top r))) (s (as_i32 (right r))) (s (as_i32 (bottom r))).

(** [app/ui_render.rs:416-516 paint] *)
Definition gdi_shell : list Draw :=
  let bottom := sh_height v in
  let right := sh_width v in
  let brand := mkRECT (s 21) (s 12) (s 48) (s 39) in
  let foot := Z.quot (bottom * 96) (Z.max (sh_dpi v) 96) - 50 in
  [Fill (mkRECT 0 0 right bottom) COLOR_WHITE;
   Fill (mkRECT 0 (s 52) (s 202) bottom) COLOR_SIDEBAR;
   DrawLine 0 (s 52) right (s 52) COLOR_LINE;
   DrawLine (s 202) (s 52) (s 202) bottom COLOR_LINE;
   FillRound brand COLOR_TEAL (s 7);
   DrawLabel (icon 0xe70f) brand IconFont COLOR_WHITE true;
   DrawLabel (tr "说写" "FlowType") (mkRECT (s 57) (s 8) (s 137) (s 43)) HeadingText COLOR_TEXT false]
  ++ (if sh_english v then []
      else [DrawLabel "FlowType" (mkRECT (s 112) (s 11) (s 180) (s 40)) BodyText COLOR_MUTED false])
  ++ [DrawLabel (tr "工作空间" "WORKSPACE") (mkRECT (s 25) (s 76) (s 188) (s 100)) BodyText COLOR_MUTED false;
      DrawLabel (tr "已加密连接" "Encrypted connection") (mkRECT (s 24) (s foot) (s 152) (s (foot + 34))) BodyText COLOR_MUTED false]
  ++ (panels v ≫= λ panel, draw_panel (device panel) (s CORNER_RADIUS)).

(** A line across the content at a height of the layout. *)
Definition gdi_separator (shell : ShellLayout) (y : Z) : Draw :=
  DrawLine (s 244) (s (as_i32 y)) (s (as_i32 (content_right shell))) (s (as_i32 y)) COLOR_LINE.

(** [app/ui_render.rs:545-595 paint] *)
Definition gdi_phone_row (phone : string * PairedPhone) (row : PhoneRowLayout) : list Draw :=
  [DrawLine (s (as_i32 (left (pr_bounds row)))) (s (as_i32 (bottom (pr_bounds row))))
     (s (as_i32 (right (pr_bounds row)))) (s (as_i32 (bottom (pr_bounds row)))) COLOR_LINE;
   FillRound (device (pr_icon row)) COLOR_HOVER (s 9);
   DrawLabel (icon 0xe8ea) (scaled_rect (pr_icon row)) IconFont COLOR_TEXT true;
   FillEllipse (scaled_rect (pr_status_dot row)) (if is_connected v phone.2 then COLOR_TEAL else COLOR_MUTED)].

(** [app/ui_render.rs:652-688 paint] *)
Definition gdi_pairing : list Draw :=
  let layout := PairingLayout_new width in
  [OutlineRound (device (from_xywh (content_left (pl_shell layout) + dip 30) (dip 194) (dip 220) (dip 243))) COLOR_LINE (s 14)]
  ++ ([("1", 230); ("2", 315)] ≫= λ '(number, y),
        let bubble := device (from_xywh (pl_info_left layout) (dip y) (dip 24) (dip 24)) in
        [FillEllipse bubble COLOR_TEAL_PALE; DrawLabel number bubble BodyText COLOR_TEAL true])
  ++ [FillEllipse (device (pl_waiting_dot layout)) COLOR_TEAL].

(** [app/ui_render.rs:518-689 paint] *)
Definition gdi_page : list Draw :=
  match ui_page u with
  | PageStatus =>
    let layout := StatusLayout_new width in
    let circle := device (st_status_icon layout) in
    [FillRound circle COLOR_TEAL_PALE (s 12); DrawLabel (icon 0xe73e) circle IconFont COLOR_TEAL true]
    ++ (gdi_separator (st_shell layout) <$> st_separators layout)
  | PagePhones => zip (ui_phones (sh_snapshot v)) (ph_rows (phones_layout v)) ≫= λ '(phone, row), gdi_phone_row phone row
  | PageFiles =>
    match ui_file_tab u with
    | TabSend =>
      let center := Z.quot (dip 244 + content_right (ShellLayout_new width)) 2 in
      let drop := device (from_xywh (center - dip 20) (dip 256) (dip 41) (dip 41)) in
      [FillRound drop COLOR_TEAL_PALE (s 9); DrawLabel (icon 0xe898) drop IconFont COLOR_TEAL true]
    | TabReceived => []
    end
  | PageSettings =>
    let layout := SettingsLayout_new width in
    (gdi_separator (se_shell layout) <$> se_separators layout)
    ++ [OutlineRound (device (se_name_frame layout)) (if sh_name_focused v then COLOR_TEAL else COLOR_LINE) (s 12);
        FillEllipse (device (se_service_status_dot layout)) (if ui_injector_ready (sh_snapshot v) then COLOR_TEAL else COLOR_DANGER)]
  | PagePairing => gdi_pairing
  end.

(** [app/ui_render.rs:728-782 paint] *)
Definition gdi_notice : list Draw :=
  match ui_notice u with
  | None => []
  | Some notice =>
    let notice_right := s (as_i32 width) - s 18 in
    let toast_left := notice_right - s 222 in
    let icon_rect := mkRECT (toast_left + s 10) (s 76 + s 10) (toast_left + s 34) (s 76 + s 34) in
    [FillRound (mkRECT toast_left (s 76) notice_right (s 120)) (if sn_success notice then COLOR_TEAL_PALE else 0x00e4e4f1) (s 8);
     FillEllipse icon_rect (if sn_success notice then COLOR_TEAL else COLOR_DANGER);
     DrawLabel (if sn_success notice then icon 0xe73e else "!") icon_rect IconFont COLOR_WHITE true;
     DrawLabel (sn_text notice) (mkRECT (toast_left + s 46) (s 76) (notice_right - s 10) (s 120)) BodyText COLOR_TEXT false]
  end.
End gdi_picture.

(** *** The QR code *)

(** [app/ui_render.rs:706-708 paint] The left edge of a module, the quiet zone counted. *)
Definition edge (width total index : Z) : Z := Z.quot (index * total + Z.quot (width + 8) 2) (width + 8).

(** [app/ui_render.rs:690-722 paint] The black cells, from the corner of the code. *)
Definition qr_cells (width total : Z) (modules : list bool) : list RECT :=
  let cell row column := mkRECT (edge width total (column + 4)) (edge width total (row + 4))
                           (edge width total (column + 4 + 1)) (edge width total (row + 4 + 1)) in
  seqZ 0 width ≫= λ row, seqZ 0 width ≫= λ column,
    if nth (Z.to_nat (row * width + column)) modules false then [cell row column] else [].

Definition moved (x y : Z) (r : RECT) : RECT := mkRECT (r_left r + x) (r_top r + y) (r_right r + x) (r_bottom r + y).

Fixpoint fill_rects (dc brush : Z) (rects : list RECT) : gdi unit :=
  match rects with [] => mret tt | r :: rects => _ ← fill_rect dc r brush; fill_rects dc brush rects end.

(** [app/ui_render.rs:690-727 paint] *)
Definition gdi_qr (v : Shown) (dc : Z) : gdi unit :=
  match ui_qr (sh_ui v) with
  | None => mret tt
  | Some (width, modules) =>
    let s := scale (sh_dpi v) in
    let origin := pl_qr_origin (PairingLayout_new (client_dips v)) in
    let origin_x := s (as_i32 origin.1) in
    let origin_y := s (as_i32 origin.2) in
    let total := s 168 in
    white ← create (OBrush COLOR_WHITE);
    black ← create (OBrush 0);
    _ ← fill_rect dc (mkRECT origin_x origin_y (origin_x + total) (origin_y + total)) white;
    _ ← fill_rects dc black (moved origin_x origin_y <$> qr_cells width total modules);
    _ ← delete_object white;
    delete_object black
  end.

(** ** The picture by Direct2D *)

Notation rgb := (Z * Z * Z)%type.

(** A brush is made before it is used; making one and ending the picture may fail. *)
Inductive D2d :=
| Brush (color : rgb)
| BeginDraw
| Clear (color : rgb)
| FillRectangle (rect : Rect) (color : rgb)
| FillRounded (rect : Rect) (radius : Z) (color : rgb)
| DrawRounded (rect : Rect) (radius : Z) (color : rgb)
| FillEllipseD (rect : Rect) (color : rgb)
| DrawTextD (value : string) (rect : Rect) (icon_format : bool) (color : rgb)
| EndDraw.

Section d2d_picture.
Context (v : Shown).
(** The width that the target says it has, in DIPs. *)
Context (target_width : Z).
Notation tr := (AppState.tr (sh_english v)).
Let u := sh_ui v.
Let width := client_dips v.

(** [app/ui_render.rs:316-317 paint] *)
Definition logical_height : Z := f32_quotient (sh_height v * 96) (Z.max (sh_dpi v) 96).

Definition LINE : rgb := (231, 237, 237).

(** [app/ui_direct2d.rs Direct2dPainter::notice_brushes] *)
Definition notice_background (notice : SaveNotice) : rgb := if sn_success notice then (234, 249, 248) else (241, 228, 228).
Definition notice_accent (notice : SaveNotice) : rgb := if sn_success notice then (0, 186, 184) else (209, 63, 63).
Definition notice_brushes : list D2d :=
  match ui_notice u with
  | None => []
  | Some notice => [Brush (notice_background notice); Brush (notice_accent notice); Brush (31, 31, 31); Brush (255, 255, 255)]
  end.

(** [app/ui_direct2d.rs Direct2dPainter::draw_notice] *)
Definition draw_notice : list D2d :=
  match ui_notice u with
  | None => []
  | Some notice =>
    let right := target_width - dip 18 in
    let icon_rect := from_xywh (right - dip 212) (dip 86) (dip 24) (dip 24) in
    [FillRounded (mkRect (right - dip 222) (dip 76) right (dip 120)) 8 (notice_background notice);
     FillEllipseD icon_rect (notice_accent notice);
     DrawTextD (if sn_success notice then icon 0xe73e else "!") icon_rect true (255, 255, 255);
     DrawTextD (sn_text notice) (from_xywh (right - dip 176) (dip 76) (dip 166) (dip 44)) false (31, 31, 31)]
  end.

(** [app/ui_direct2d.rs Direct2dPainter::begin_shell] *)
Definition begin_shell : list D2d :=
  [Brush (247, 249, 249); Brush LINE; Brush (255, 255, 255); Brush (0, 186, 184); Brush (255, 255, 255);
   Brush (34, 49, 52); Brush (130, 147, 149);
   BeginDraw; Clear (255, 255, 255);
   FillRectangle (mkRect 0 (dip 52) (dip 202) logical_height) (247, 249, 249);
   FillRectangle (mkRect (dip 202 - UNIT / 2) (dip 52) (dip 202 + UNIT / 2) logical_height) LINE;
   FillRectangle (mkRect 0 (dip 52 - UNIT / 2) target_width (dip 52 + UNIT / 2)) LINE;
   FillRounded (mkRect (dip 21) (dip 12) (dip 48) (dip 39)) 7 (0, 186, 184);
   DrawTextD (icon 0xe70f) (dips 22 13 25 25) true (255, 255, 255);
   DrawTextD (if sh_english v then "FlowType" else "说写") (dips 57 9 73 34) false (34, 49, 52)]
  ++ (if sh_english v then [] else [DrawTextD "FlowType" (dips 112 11 70 30) false (130, 147, 149)])
  ++ [DrawTextD (tr "工作空间" "WORKSPACE") (dips 25 77 152 23) false (130, 147, 149);
      DrawTextD (tr "已加密连接" "Encrypted connection") (from_xywh (dip 24) (logical_height - dip 50) (dip 132) (dip 34)) false (130, 147, 149)]
  ++ (panels v ≫= λ panel, [FillRounded panel 9 (255, 255, 255); DrawRounded panel 9 LINE]).

(** [app/ui_direct2d.rs Direct2dPainter::paint_phones] *)
Definition paint_phones : list D2d :=
  [Brush (105, 124, 126); Brush (0, 186, 184); Brush (171, 185, 186)] ++ notice_brushes ++ begin_shell
  ++ (zip (ui_phones (sh_snapshot v)) (ph_rows (phones_layout v)) ≫= λ '(phone, row),
        [Brush LINE;
         FillRectangle (mkRect (left (pr_bounds row)) (bottom (pr_bounds row) - dip 1) (right (pr_bounds row)) (bottom (pr_bounds row))) LINE;
         Brush (241, 245, 245);
         FillRounded (pr_icon row) 9 (241, 245, 245);
         DrawTextD (icon 0xe8ea) (pr_icon row) true (105, 124, 126);
         FillEllipseD (pr_status_dot row) (if is_connected v phone.2 then (0, 186, 184) else (171, 185, 186))])
  ++ draw_notice ++ [EndDraw].

(** [app/ui_direct2d.rs Direct2dPainter::paint_status] *)
Definition paint_status : list D2d :=
  let layout := StatusLayout_new width in
  [Brush (0, 143, 145); Brush (227, 244, 242)] ++ notice_brushes ++ begin_shell
  ++ ((λ y, FillRectangle (mkRect (content_left (st_shell layout)) (y - UNIT / 2) (content_right (st_shell layout)) (y + UNIT / 2)) LINE)
        <$> st_separators layout)
  ++ [FillRounded (st_status_icon layout) 12 (227, 244, 242); DrawTextD (icon 0xe7f4) (st_status_icon layout) true (0, 143, 145)]
  ++ draw_notice ++ [EndDraw].

(** [app/ui_direct2d.rs Direct2dPainter::paint_files] *)
Definition paint_files (sending : bool) : list D2d :=
  notice_brushes ++ begin_shell
  ++ (if sending then
        let center := Z.quot (dip 244 + target_width - dip 42) 2 in
        let drop_icon := from_xywh (center - dip 20) (dip 256) (dip 41) (dip 41) in
        [Brush (232, 245, 243); FillRounded drop_icon 9 (232, 245, 243);
         Brush (0, 155, 155); DrawTextD (icon 0xe898) drop_icon true (0, 155, 155)]
      else [])
  ++ draw_notice ++ [EndDraw].

(** [app/ui_direct2d.rs Direct2dPainter::paint_settings] *)
Definition paint_settings : list D2d :=
  let layout := SettingsLayout_new width in
  let color : rgb := if ui_injector_ready (sh_snapshot v) then (0, 186, 184) else (209, 63, 63) in
  let field_border : rgb := if sh_name_focused v then (0, 186, 184) else (226, 229, 233) in
  [Brush color; Brush field_border] ++ notice_brushes ++ begin_shell
  ++ (se_separators layout ≫= λ y,
        [Brush LINE; FillRectangle (mkRect (content_left (se_shell layout)) y (content_right (se_shell layout)) (y + dip 1)) LINE])
  ++ [DrawRounded (se_name_frame layout) 6 field_border; FillEllipseD (se_service_status_dot layout) color]
  ++ draw_notice ++ [EndDraw].

(** A coordinate of the code: [(origin + index as f32 * module).round()], in DIPs. *)
Definition d2d_edge (origin width index : Z) : Z :=
  let module := f32_quotient 168 (width + 8) in
  round_to_pixel (f32_round (origin + f32_round (index * module) 1) 1).

(** The modules of a code no wider than 160. *)
Definition paint_qr (layout : PairingLayout) (width : Z) (modules : list bool) : list D2d :=
  seqZ 0 width ≫= λ row, seqZ 0 width ≫= λ column,
    if nth (Z.to_nat (row * width + column)) modules false then
      [FillRectangle (mkRect (dip (d2d_edge (pl_qr_origin layout).1 width (column + 4))) (dip (d2d_edge (pl_qr_origin layout).2 width (row + 4)))
                        (dip (d2d_edge (pl_qr_origin layout).1 width (column + 4 + 1))) (dip (d2d_edge (pl_qr_origin layout).2 width (row + 4 + 1)))) (0, 0, 0)]
    else [].

(** [app/ui_direct2d.rs Direct2dPainter::paint_pairing] *)
Definition paint_pairing : list D2d :=
  let layout := PairingLayout_new width in
  let content_left := content_left (pl_shell layout) in
  [Brush (0, 186, 184)] ++ (match ui_qr u with Some _ => [Brush (0, 0, 0)] | None => [] end) ++ notice_brushes ++ begin_shell
  ++ [Brush LINE; DrawRounded (mkRect (content_left + dip 30) (dip 194) (content_left + dip 250) (dip 437)) 7 LINE]
  ++ ([("1", 230); ("2", 315)] ≫= λ '(number, y),
        let bubble := from_xywh (pl_info_left layout) (dip y) (dip 24) (dip 24) in
        [Brush (225, 243, 241); FillEllipseD bubble (225, 243, 241); DrawTextD number bubble false (0, 186, 184)])
  ++ [FillEllipseD (pl_waiting_dot layout) (0, 186, 184)]
  ++ (match ui_qr u with Some (width, modules) => paint_qr layout width modules | None => [] end)
  ++ draw_notice ++ [EndDraw].

(** [app/ui_render.rs:338-389 paint] *)
Definition d2d_picture : list D2d :=
  match ui_page u with
  | PageStatus => paint_status
  | PageFiles => paint_files (bool_decide (ui_file_tab u = TabSend))
  | PagePhones => paint_phones
  | PageSettings => paint_settings
  | PagePairing => paint_pairing
  end.
End d2d_picture.

(** The steps of a picture, up to the first that fails: whether it was ended. *)
Fixpoint run_d2d (answers : list bool) (ops : list D2d) : bool :=
  match ops with
  | [] => true
  | (Brush _ | EndDraw) :: ops =>
    match answers with
    | [] => run_d2d [] ops
    | true :: answers => run_d2d answers ops
    | false :: _ => false
    end
  | _ :: ops => run_d2d answers ops
  end.

(** ** Painting the window *)

Inductive Presented := ByDirect2D (picture : list D2d) | ByGdi.

(** [CreateCompatibleDC]; 0 when it fails. *)
Definition create_dc : gdi Z := λ g,
  let '(made, g) := answer g in
  if made : bool
  then (Ok (g_next g), mkGdi (<[g_next g := mkDc STOCK_BRUSH STOCK_PEN STOCK_FONT STOCK_BITMAP]> (g_dcs g)) (g_objects g)
                         (g_next g + 1) (g_answers g) (g_marks g))
  else (Ok 0, g).

Definition delete_dc (dc : Z) : gdi unit := sr_modify (λ g, with_dcs (delete dc (g_dcs g)) g).

Definition when (b : bool) (c : gdi unit) : gdi unit := if b then c else mret tt.

(** [app/ui_render.rs:400-415 paint] And what lines 783-806 undo. *)
Definition gdi_paint (fonts : RenderFont → Z) (output_dc : Z) (v : Shown) : gdi unit :=
  buffer_dc ← create_dc;
  bitmap ← (if negb (buffer_dc =? 0) then create OBitmap else mret 0);
  old_bitmap ← (if negb (bitmap =? 0) then select_object buffer_dc bitmap else mret 0);
  let dc := if old_bitmap =? 0 then output_dc else buffer_dc in
  _ ← perform_all fonts dc (gdi_shell v ++ gdi_page v);
  _ ← gdi_qr v dc;
  _ ← perform_all fonts dc (gdi_notice v);
  _ ← when (negb (old_bitmap =? 0))
        (_ ← mark output_dc (λ _ _, Some (MBlit dc)); _ ← select_object buffer_dc old_bitmap; mret tt);
  _ ← when (negb (bitmap =? 0)) (delete_object bitmap);
  when (negb (buffer_dc =? 0)) (delete_dc buffer_dc).

(** [app/ui_render.rs:328-399 paint] [painter]: there is a Direct2D painter; whether there
    still is, and what was presented. *)
Definition paint (fonts : RenderFont → Z) (output_dc target_width : Z) (d2d_answers : list bool) (painter : bool) (v : Shown)
    : gdi (bool * Presented) :=
  let picture := d2d_picture v target_width in
  if painter && run_d2d d2d_answers picture then mret (true, ByDirect2D picture)
  else _ ← gdi_paint fonts output_dc v; mret (false, ByGdi).
