(* ===== verification/RenderSafety.v ===== *)
(** * What the pictures of the window promise

    The two renderers tell the same; the QR code that is drawn is the code; and painting
    leaves nothing behind. *)

From S2P Require Import Prelude Text Protocol FileCore Outbound Pairing Update AppState Layout Pages Window Gdi Components Render.
Local Open Scope string_scope.
Local Open Scope list_scope.
Local Open Scope Z_scope.

(** ** The renderers agree *)

(** What a picture tells: its texts, and the lights that are on or off. *)
Inductive Told := Says (value : string) | Light (on : bool).

Definition gdi_tells (d : Draw) : list Told :=
  match d with
  | DrawLabel value _ _ _ _ => [Says value]
  | FillEllipse _ color =>
    if color =? COLOR_TEAL then [Light true]
    else if (color =? COLOR_MUTED) || (color =? COLOR_DANGER) then [Light false] else []
  | _ => []
  end.

Definition d2d_tells (d : D2d) : list Told :=
  match d with
  | DrawTextD value _ _ _ => [Says value]
  | FillEllipseD _ color =>
    if bool_decide (color = (0, 186, 184)) then [Light true]
    else if bool_decide (color = (171, 185, 186)) || bool_decide (color = (209, 63, 63)) then [Light false] else []
  | _ => []
  end.

Definition gdi_told (v : Shown) : list Told := (gdi_shell v ++ gdi_page v ++ gdi_notice v) ≫= gdi_tells.
Definition d2d_told (v : Shown) (target_width : Z) : list Told := d2d_picture v target_width ≫= d2d_tells.

Lemma tells_panels v : (panels v ≫= λ panel, draw_panel (device_rect (Z.max (sh_dpi v) 96) panel) (scale (sh_dpi v) CORNER_RADIUS)) ≫= gdi_tells = [].
Proof. induction (panels v) as [|p ps IH]; [done |]. cbn. exact IH. Qed.

Lemma d2d_tells_panels v : (panels v ≫= λ panel, [FillRounded panel 9 (255, 255, 255); DrawRounded panel 9 LINE]) ≫= d2d_tells = [].
Proof. induction (panels v) as [|p ps IH]; [done |]. cbn. exact IH. Qed.

Definition shell_told (v : Shown) : list Told :=
  let tr := AppState.tr (sh_english v) in
  [Says (icon 0xe70f); Says (tr "说写" "FlowType")] ++ (if sh_english v then [] else [Says "FlowType"])
  ++ [Says (tr "工作空间" "WORKSPACE"); Says (tr "已加密连接" "Encrypted connection")].

Definition notice_told (v : Shown) : list Told :=
  match ui_notice (sh_ui v) with
  | None => []
  | Some notice => [Light (sn_success notice); Says (if sn_success notice then icon 0xe73e else "!"); Says (sn_text notice)]
  end.

Lemma gdi_shell_told v : gdi_shell v ≫= gdi_tells = shell_told v.
Proof. unfold gdi_shell. rewrite !bind_app, tells_panels, app_nil_r. unfold shell_told. by destruct (sh_english v). Qed.

Lemma begin_shell_told v tw : begin_shell v tw ≫= d2d_tells = shell_told v.
Proof. unfold begin_shell. rewrite !bind_app, d2d_tells_panels, app_nil_r. unfold shell_told. by destruct (sh_english v). Qed.

Lemma gdi_notice_told v : gdi_notice v ≫= gdi_tells = notice_told v.
Proof. unfold gdi_notice, notice_told. destruct (ui_notice (sh_ui v)) as [[[] text] |]; done. Qed.

Lemma draw_notice_told v tw : draw_notice v tw ≫= d2d_tells = notice_told v.
Proof. unfold draw_notice, notice_told. destruct (ui_notice (sh_ui v)) as [[[] text] |]; done. Qed.

Lemma notice_brushes_told v : notice_brushes v ≫= d2d_tells = [].
Proof. unfold notice_brushes. by destruct (ui_notice (sh_ui v)). Qed.

Lemma paint_qr_told layout width modules : paint_qr layout width modules ≫= d2d_tells = [].
Proof.
  assert (∀ A (f : A → list D2d) l, (∀ x, f x ≫= d2d_tells = []) → (l ≫= f) ≫= d2d_tells = []) as Hnone.
  { intros A f l Hf. induction l as [|x l IH]; [done |]. cbn [mbind list_bind]. by rewrite bind_app, Hf. }
  apply Hnone. intros row. apply Hnone. intros column. by case_match.
Qed.

(** What a page tells, beside its controls: a phone for each row of the page. *)
Definition page_told (status_icon : string) (v : Shown) : list Told :=
  let u := sh_ui v in
  match ui_page u with
  | PageStatus => [Says status_icon]
  | PageFiles => match ui_file_tab u with TabSend => [Says (icon 0xe898)] | TabReceived => [] end
  | PagePhones => take (length (ui_phone_ids u)) (ui_phones (sh_snapshot v)) ≫= λ phone, [Says (icon 0xe8ea); Light (is_connected v phone.2)]
  | PageSettings => [Light (ui_injector_ready (sh_snapshot v))]
  | PagePairing => [Says "1"; Says "2"; Light true]
  end.

Definition shown_told (status_icon : string) (v : Shown) : list Told := shell_told v ++ page_told status_icon v ++ notice_told v.

Lemma told_rows {A} (f : (string * PairedPhone) * PhoneRowLayout → list A) (tells : A → list Told) (g : string * PairedPhone → list Told) phones rows :
  (∀ phone row, f (phone, row) ≫= tells = g phone) →
  (zip phones rows ≫= f) ≫= tells = take (length rows) phones ≫= g.
Proof.
  intros Hf. revert rows. induction phones as [|phone phones IH]; intros [|row rows]; [done.. |].
  cbn [zip zip_with length take mbind list_bind]. rewrite bind_app, Hf. f_equal. apply IH.
Qed.

Lemma gdi_page_told v : gdi_page v ≫= gdi_tells = page_told (icon 0xe73e) v.
Proof.
  unfold gdi_page, page_told. destruct (ui_page (sh_ui v)).
  - done.
  - by destruct (ui_file_tab (sh_ui v)).
  - erewrite (told_rows _ gdi_tells (λ phone, [Says (icon 0xe8ea); Light (is_connected v phone.2)])).
    + unfold phones_layout, PhonesLayout_new. cbn [ph_rows]. by rewrite length_fmap, length_seq.
    + intros phone row. cbn. by destruct (is_connected v phone.2).
  - cbn. by destruct (ui_injector_ready (sh_snapshot v)).
  - done.
Qed.

Lemma d2d_page_told v tw : d2d_picture v tw ≫= d2d_tells = shown_told (icon 0xe7f4) v.
Proof.
  unfold d2d_picture, shown_told, page_told. destruct (ui_page (sh_ui v)).
  - unfold paint_status. rewrite !bind_app, begin_shell_told, notice_brushes_told, draw_notice_told. cbn. by rewrite ?app_nil_r.
  - unfold paint_files. rewrite !bind_app, begin_shell_told, notice_brushes_told, draw_notice_told. cbn.
    destruct (ui_file_tab (sh_ui v)); cbn; by rewrite ?app_nil_r.
  - unfold paint_phones. rewrite !bind_app, begin_shell_told, notice_brushes_told, draw_notice_told.
    erewrite (told_rows _ d2d_tells (λ phone, [Says (icon 0xe8ea); Light (is_connected v phone.2)])).
    + unfold phones_layout, PhonesLayout_new. cbn [ph_rows]. rewrite length_fmap, length_seq. cbn. by rewrite ?app_nil_r.
    + intros phone row. cbn. by destruct (is_connected v phone.2).
  - unfold paint_settings. rewrite !bind_app, begin_shell_told, notice_brushes_told, draw_notice_told. cbn.
    destruct (ui_injector_ready (sh_snapshot v)); cbn; by rewrite ?app_nil_r.
  - unfold paint_pairing. rewrite !bind_app, begin_shell_told, notice_brushes_told, draw_notice_told.
    destruct (ui_qr (sh_ui v)) as [[w ms] |]; rewrite ?paint_qr_told; cbn; by rewrite ?app_nil_r.
Qed.

(** C38. (equivalence) Whether Direct2D or GDI draws the window: it tells the same texts and
    the same lights in the same order, on every page and in every state, but for the icon
    of the status page. *)
Theorem renderers_tell_the_same v target_width :
  gdi_told v = shown_told (icon 0xe73e) v ∧ d2d_told v target_width = shown_told (icon 0xe7f4) v.
Proof.
  split; [| apply d2d_page_told]. unfold gdi_told, shown_told.
  by rewrite !bind_app, gdi_shell_told, gdi_page_told, gdi_notice_told.
Qed.

(** ** The QR code *)

Definition inside (x y : Z) (r : RECT) : Prop := r_left r ≤ x < r_right r ∧ r_top r ≤ y < r_bottom r.

Section qr.
Context (width total : Z).
Hypothesis width_pos : 0 < width.
Hypothesis total_nonneg : 0 ≤ total.
Notation edge := (edge width total).

Lemma edge_div i : 0 ≤ i → edge i = (i * total + (width + 8) / 2) / (width + 8).
Proof.
  intros Hi. unfold Render.edge. assert (0 ≤ (width + 8) / 2) by (apply Z.div_pos; lia).
  rewrite (Z.quot_div_nonneg (width + 8) 2) by lia. apply Z.quot_div_nonneg; [| lia]. nia.
Qed.

Lemma edge_mono i j : 0 ≤ i ≤ j → edge i ≤ edge j.
Proof. intros Hij. rewrite !edge_div by lia. apply Z.div_le_mono; nia. Qed.

Lemma edge_step i : 0 ≤ i → width + 8 ≤ total → edge i < edge (i + 1).
Proof.
  intros Hi Ht. rewrite !edge_div by lia. replace ((i + 1) * total + (width + 8) / 2) with (i * total + (width + 8) / 2 + total) by lia.
  pose proof (Z.div_le_mono (i * total + (width + 8) / 2 + 1 * (width + 8)) (i * total + (width + 8) / 2 + total) (width + 8) ltac:(lia) ltac:(lia)) as H.
  rewrite Z.div_add in H by lia. lia.
Qed.

(** Between two edges there is a module. *)
Lemma edge_between p (n : nat) : edge 4 ≤ p < edge (Z.of_nat n + 4) → ∃ i, 0 ≤ i < Z.of_nat n ∧ edge (i + 4) ≤ p < edge (i + 4 + 1).
Proof.
  induction n as [|n IH]; intros Hp; [change (Z.of_nat 0 + 4) with 4 in Hp; lia |].
  destruct (Z.lt_ge_cases p (edge (Z.of_nat n + 4))) as [Hlt | Hge].
  - destruct IH as (i & Hi & Hc); [lia |]. exists i. split; [lia | done].
  - exists (Z.of_nat n). split; [lia |]. split; [done |]. replace (Z.of_nat n + 4 + 1) with (Z.of_nat (S n) + 4) by lia. lia.
Qed.

Lemma edge_unique p i j : 0 ≤ i → 0 ≤ j → edge (i + 4) ≤ p < edge (i + 4 + 1) → edge (j + 4) ≤ p < edge (j + 4 + 1) → i = j.
Proof.
  intros Hi Hj Hp Hq. destruct (Z.lt_trichotomy i j) as [Hlt | [-> | Hgt]]; [| done |].
  - pose proof (edge_mono (i + 4 + 1) (j + 4) ltac:(lia)). lia.
  - pose proof (edge_mono (j + 4 + 1) (i + 4) ltac:(lia)). lia.
Qed.

Lemma elem_of_qr_cells modules r : r ∈ qr_cells width total modules ↔
  ∃ row column, 0 ≤ row < width ∧ 0 ≤ column < width ∧ nth (Z.to_nat (row * width + column)) modules false = true ∧
    r = mkRECT (edge (column + 4)) (edge (row + 4)) (edge (column + 4 + 1)) (edge (row + 4 + 1)).
Proof.
  unfold qr_cells. rewrite list_elem_of_bind. setoid_rewrite list_elem_of_bind. setoid_rewrite elem_of_seqZ. split.
  - intros (row & (column & Hr & Hc) & Hrow). destruct (nth _ _ _) eqn:Hn; [| by apply not_elem_of_nil in Hr].
    apply list_elem_of_singleton in Hr. exists row, column. split_and!; try lia; done.
  - intros (row & column & Hrow & Hc & Hn & ->). exists row. split; [| lia]. exists column. split; [| lia]. rewrite Hn. by apply list_elem_of_singleton.
Qed.
End qr.

(** The QR code by GDI is the code: each pixel of the square of modules
    belongs to exactly one module, and is black exactly when that module is dark; outside
    of it nothing is black; and no module is lost when the square has a pixel for each. *)
Theorem qr_is_drawn_exactly width total modules x y :
  0 < width → 0 ≤ total →
  let e i := edge width total (i + 4) in
  let black := ∃ r, r ∈ qr_cells width total modules ∧ inside x y r in
  (e 0 ≤ x < e width ∧ e 0 ≤ y < e width → ∃ column row,
     0 ≤ column < width ∧ 0 ≤ row < width ∧
     (∀ c r, 0 ≤ c → 0 ≤ r → e c ≤ x < e (c + 1) ∧ e r ≤ y < e (r + 1) ↔ c = column ∧ r = row) ∧
     (black ↔ nth (Z.to_nat (row * width + column)) modules false = true)) ∧
  (black → e 0 ≤ x < e width ∧ e 0 ≤ y < e width) ∧
  (width + 8 ≤ total → ∀ i, 0 ≤ i → e i < e (i + 1)).
Proof.
  intros Hw Ht e black. assert (∀ i, edge width total (i + 4 + 1) = e (i + 1)) as He by (intros i; unfold e; f_equal; lia).
  assert (∀ r c, r = mkRECT (e c.1) (e c.2) (e (c.1 + 1)) (e (c.2 + 1)) → inside x y r ↔ e c.1 ≤ x < e (c.1 + 1) ∧ e c.2 ≤ y < e (c.2 + 1)) as Hcell
    by (intros r c ->; done).
  assert (black ↔ ∃ row column, 0 ≤ row < width ∧ 0 ≤ column < width ∧ nth (Z.to_nat (row * width + column)) modules false = true ∧
    e column ≤ x < e (column + 1) ∧ e row ≤ y < e (row + 1)) as Hblack.
  { unfold black. setoid_rewrite elem_of_qr_cells; [| done..]. split.
    - intros (r & (row & column & Hr & Hc & Hn & Heq) & Hin). rewrite !He in Heq.
      apply (Hcell r (column, row) Heq) in Hin as [Hx Hy]. by exists row, column.
    - intros (row & column & Hr & Hc & Hn & Hx & Hy). eexists. split; [by exists row, column |]. by rewrite !He. }
  split_and!.
  - intros [Hx Hy]. destruct (edge_between width total x (Z.to_nat width)) as (column & Hc & Hcx); [rewrite Z2Nat.id by lia; done |].
    destruct (edge_between width total y (Z.to_nat width)) as (row & Hr & Hry); [rewrite Z2Nat.id by lia; done |].
    rewrite Z2Nat.id in Hc, Hr by lia. rewrite He in Hcx, Hry. exists column, row. split; [done |]. split; [done |].
    assert (∀ c r, 0 ≤ c → 0 ≤ r → e c ≤ x < e (c + 1) ∧ e r ≤ y < e (r + 1) ↔ c = column ∧ r = row) as Huniq.
    { intros c r Hc0 Hr0. split; [| by intros [-> ->]]. rewrite <- !He. intros [H1 H2]. rewrite <- He in Hcx, Hry.
      split; [apply (edge_unique width total Hw Ht x) | apply (edge_unique width total Hw Ht y)]; done || lia. }
    split; [done |]. rewrite Hblack. split; [| by intros Hn; exists row, column].
    intros (r & c & Hr' & Hc' & Hn & Hin). apply Huniq in Hin as [-> ->]; [done | lia | lia].
  - rewrite Hblack. intros (row & column & Hr & Hc & _ & Hx & Hy).
    assert (∀ i j, 0 ≤ i ≤ j → e i ≤ e j) as Hmono by (intros i j Hij; apply edge_mono; lia).
    pose proof (Hmono 0 column ltac:(lia)). pose proof (Hmono (column + 1) width ltac:(lia)).
    pose proof (Hmono 0 row ltac:(lia)). pose proof (Hmono (row + 1) width ltac:(lia)). lia.
  - intros Hbig i Hi. rewrite <- He. apply edge_step; lia.
Qed.

(** ** Painting leaves nothing behind *)

Lemma draws_fill_rects dc brush rects : draws (fill_rects dc brush rects).
Proof.
  induction rects as [|r rects IH]; intros g; [by exists g |]. cbn [fill_rects].
  destruct (draws_mark dc (λ _ g, c ← brush_color brush g; Some (MFill r c)) g) as (g1 & Hm & Hd & Ho & Hn).
  destruct (IH g1) as (g2 & Hr & Hd2 & Ho2 & Hn2). exists g2. unfold fill_rect. rewrite (sr_bind_Ok _ _ _ _ _ Hm), Hr. split_and!; congruence.
Qed.

Lemma gdi_qr_tidy v dc : tidy (gdi_qr v dc).
Proof.
  unfold gdi_qr. destruct (ui_qr (sh_ui v)) as [[width modules] |]; [| apply tidy_ret]. apply tidy_from. intros g Hok.
  destruct (create_made (OBrush COLOR_WHITE) g) as (w & g1 & E1 & M1). destruct (create_made (OBrush 0) g1) as (b & g2 & E2 & M2).
  rewrite (sr_bind_Ok _ _ _ _ _ E1), (sr_bind_Ok _ _ _ _ _ E2).
  match goal with |- context [fill_rect dc ?r w] => destruct (draws_mark dc (λ _ g, c ← brush_color w g; Some (MFill r c)) g2) as (g3 & Hm & Hd & Ho & Hn) end.
  match goal with |- context [fill_rects dc b ?rs] => destruct (draws_fill_rects dc b rs g3) as (g4 & Hr & Hd4 & Ho4 & Hn4) end.
  unfold fill_rect. rewrite (sr_bind_Ok _ _ _ _ _ Hm), (sr_bind_Ok _ _ _ _ _ Hr).
  apply (delete_two _ _ _ _ _ _ _ g4 Hok M1 M2); [congruence.. |]. auto.
Qed.

Definition fonts_there (fonts : RenderFont → Z) (g : Gdi) : Prop := ∀ f, there (fonts f) OFont g.

Lemma fonts_same fonts g g' : g_objects g' = g_objects g → fonts_there fonts g → fonts_there fonts g'.
Proof. intros Ho Hf f. destruct (Hf f) as [Hz | Hh]; [by left | right; by rewrite Ho]. Qed.

(** The picture itself, on whichever context. *)
Lemma picture_same {B} fonts dc v (rest : gdi B) g : gdi_ok g → fonts_there fonts g →
  ∃ g', (_ ← perform_all fonts dc (gdi_shell v ++ gdi_page v); _ ← gdi_qr v dc; _ ← perform_all fonts dc (gdi_notice v); rest) g = rest g'
    ∧ same_gdi g g'.
Proof.
  intros Hok Hf. destruct (perform_all_tidy fonts dc (gdi_shell v ++ gdi_page v) g Hok Hf) as [H1 R1].
  destruct (perform_all _ _ _ g) as [r1 g1] eqn:E1. cbn in H1, R1. subst r1. rewrite (sr_bind_Ok _ _ _ _ _ E1).
  pose proof (same_gdi_ok _ _ H1 Hok) as Hok1. destruct (gdi_qr_tidy v dc g1 Hok1) as [H2 [[] R2]].
  destruct (gdi_qr v dc g1) as [[[] | []] g2] eqn:E2. cbn in H2. rewrite (sr_bind_Ok _ _ _ _ _ E2).
  pose proof (same_gdi_ok _ _ H2 Hok1) as Hok2.
  destruct (perform_all_tidy fonts dc (gdi_notice v) g2 Hok2) as [H3 R3].
  { apply (fonts_same _ g1); [apply H2 |]. apply (fonts_same _ g); [apply H1 | done]. }
  destruct (perform_all _ _ _ g2) as [r3 g3] eqn:E3. cbn in H3, R3. subst r3. rewrite (sr_bind_Ok _ _ _ _ _ E3).
  exists g3. split; [done |]. by etrans; [| etrans].
Qed.

(** Contexts were given out like objects. *)
Definition contexts_ok (g : Gdi) : Prop := ∀ c d, g_dcs g !! c = Some d → 0 < c < g_next g.

Lemma same_fields_ok g g' : g_dcs g' = g_dcs g → g_objects g' = g_objects g → g_next g' = g_next g → same_gdi g g'.
Proof. intros. split_and!; [done | done | lia]. Qed.

Lemma create_dc_made g : gdi_ok g → contexts_ok g → ∃ c g1, create_dc g = (Ok c, g1) ∧ gdi_ok g1 ∧ g_objects g1 = g_objects g ∧
  ((c = 0 ∧ g_dcs g1 = g_dcs g ∧ g_next g1 = g_next g)
   ∨ (c = g_next g ∧ g_dcs g1 = <[c := mkDc STOCK_BRUSH STOCK_PEN STOCK_FONT STOCK_BITMAP]> (g_dcs g) ∧ g_next g1 = g_next g + 1)).
Proof.
  intros (Hpos & Hobj & Hsel) Hctx. unfold create_dc, answer.
  assert (∀ n a, gdi_ok (mkGdi (<[n := mkDc STOCK_BRUSH STOCK_PEN STOCK_FONT STOCK_BITMAP]> (g_dcs g)) (g_objects g) (g_next g + 1) a (g_marks g))) as Hok1.
  { intros n a. split; [cbn; lia |]. cbn. split; [intros h o Hh; specialize (Hobj h o Hh); lia |].
    intros c d k [[_ <-] | [_ Hc]]%lookup_insert_Some; [| by apply (Hsel c)].
    assert (∀ h, h < 0 → g_objects g !! h = None) as Hneg by (intros h Hh; destruct (g_objects g !! h) eqn:E; [specialize (Hobj h _ E); lia | done]).
    destruct k; cbn; unfold kind_of; by rewrite Hneg. }
  destruct (g_answers g) as [|[] rest]; eexists _, _; (split; [reflexivity |]).
  - split; [apply Hok1 |]. split; [done |]. by right.
  - split; [apply Hok1 |]. split; [done |]. by right.
  - split; [by split_and! |]. split; [done |]. by left.
Qed.

(** With no buffer the picture is drawn on the window itself. *)
Lemma paint_directly fonts output v (rest : gdi unit) g g1 : gdi_ok g1 → fonts_there fonts g1 → same_gdi g g1 →
  (∀ g2, same_gdi g1 g2 → same_gdi g (rest g2).2) →
  same_gdi g ((_ ← perform_all fonts output (gdi_shell v ++ gdi_page v); _ ← gdi_qr v output; _ ← perform_all fonts output (gdi_notice v); rest) g1).2.
Proof. intros Hok Hf Hs Hrest. destruct (picture_same fonts output v rest g1 Hok Hf) as (g2 & -> & H2). by apply Hrest. Qed.

Lemma gdi_paint_same fonts output v g : gdi_ok g → contexts_ok g → fonts_there fonts g →
  same_gdi g (gdi_paint fonts output v g).2.
Proof.
  intros Hok Hctx Hf. destruct (create_dc_made g Hok Hctx) as (c & g1 & E1 & Hok1 & Ho1 & Hc). unfold gdi_paint.
  rewrite (sr_bind_Ok _ _ _ _ _ E1). pose proof (fonts_same _ _ _ Ho1 Hf) as Hf1.
  assert (0 < g_next g) as Hpos by apply Hok.
  assert (g_dcs g !! g_next g = None) as Hfresh by (destruct (g_dcs g !! g_next g) as [d |] eqn:E; [specialize (Hctx _ _ E); lia | done]).
  destruct Hc as [(-> & Hd1 & Hn1) | (-> & Hd1 & Hn1)].
  - rewrite (sr_bind_Ok _ _ g1 0 g1) by done. rewrite (sr_bind_Ok _ _ g1 0 g1) by done. cbn [Z.eqb negb].
    destruct (picture_same fonts output v (_ ← when false (_ ← mark output (λ _ _, Some (MBlit output)); _ ← select_object 0 0; mret tt);
      _ ← when false (delete_object 0); when false (delete_dc 0)) g1 Hok1 Hf1) as (g2 & -> & Hd2 & Ho2 & Hn2).
    change (same_gdi g g2). split_and!; [congruence | congruence | lia].
  - rewrite (proj2 (Z.eqb_neq (g_next g) 0)) by lia. cbn [negb].
    destruct (create_made OBitmap g1) as (b & g2 & E2 & M2). rewrite (sr_bind_Ok _ _ _ _ _ E2).
    destruct (made_there _ _ _ _ Hok1 M2) as [Hok2 Hb]. pose proof M2 as [Hd2 Hcase].
    destruct Hcase as [(-> & Ho2 & Hn2) | (-> & Ho2 & Hn2)].
    + rewrite (sr_bind_Ok _ _ g2 0 g2) by done. cbn [Z.eqb negb].
      pose proof (fonts_same _ _ _ Ho2 Hf1) as Hf2.
      destruct (picture_same fonts output v (_ ← when false (_ ← mark output (λ _ _, Some (MBlit output)); _ ← select_object (g_next g) 0; mret tt);
        _ ← when false (delete_object 0); when true (delete_dc (g_next g))) g2 Hok2 Hf2) as (g3 & -> & Hd3 & Ho3 & Hn3).
      change (delete (g_next g) (g_dcs g3) = g_dcs g ∧ g_objects g3 = g_objects g ∧ g_next g ≤ g_next g3).
      split; [| split; [congruence | lia]]. rewrite Hd3, Hd2, Hd1. by apply delete_insert_id.
    + rewrite Hn1. assert (g_dcs g2 !! g_next g = Some (mkDc STOCK_BRUSH STOCK_PEN STOCK_FONT STOCK_BITMAP)) as Hbuf
        by (rewrite Hd2, Hd1; apply lookup_insert_eq).
      assert (kind_of (g_next g + 1) (g_objects g2) = Some SBitmap) as Hkb by (unfold kind_of; by rewrite Ho2, Hn1, lookup_insert_eq).
      rewrite (proj2 (Z.eqb_neq (g_next g + 1) 0)) by lia. cbn [negb].
      rewrite (sr_bind_Ok _ _ _ _ _ (select_some _ _ _ _ _ Hbuf Hkb)). cbn [get_selected set_selected dc_bitmap dc_brush dc_pen dc_font].
      change (STOCK_BITMAP =? 0) with false. cbn [negb].
      set (g3 := with_dcs _ g2). assert (gdi_ok g3) as Hok3.
      { destruct Hok2 as (P2 & O2 & S2). split; [done |]. split; [done |]. intros c d k. cbn.
        intros [[_ <-] | [_ Hc]]%lookup_insert_Some; [| by apply (S2 c)].
        destruct k; cbn; [apply (S2 _ _ SBrush Hbuf) | apply (S2 _ _ SPen Hbuf) | apply (S2 _ _ SFont Hbuf) | done]. }
      assert (fonts_there fonts g3) as Hf3.
      { intros f. destruct (Hf1 f) as [Hz | Hh]; [by left | right]. cbn. rewrite Ho2, lookup_insert_ne; [done |].
        destruct Hok1 as (_ & O1 & _). specialize (O1 _ _ Hh). lia. }
      match goal with |- context [_ ← perform_all fonts (g_next g) (gdi_notice v); ?rest] =>
        destruct (picture_same fonts (g_next g) v rest g3 Hok3 Hf3) as (g4 & -> & Hd4 & Ho4 & Hn4) end.
      destruct (draws_mark output (λ _ _, Some (MBlit (g_next g))) g4) as (g5 & Hm & Hd5 & Ho5 & Hn5). change (g_objects g3) with (g_objects g2) in Ho4.
      assert (kind_of STOCK_BITMAP (g_objects g5) = Some SBitmap) as Hstock.
      { replace (g_objects g5) with (g_objects g2) by congruence. destruct Hok2 as (_ & _ & S2). apply (S2 _ _ SBitmap Hbuf). }
      assert (g_dcs g5 !! g_next g = Some (mkDc STOCK_BRUSH STOCK_PEN STOCK_FONT (g_next g + 1))) as Hbuf5
        by (rewrite Hd5, Hd4; apply lookup_insert_eq).
      set (g6 := with_dcs (<[g_next g := mkDc STOCK_BRUSH STOCK_PEN STOCK_FONT STOCK_BITMAP]> (g_dcs g5)) g5).
      assert (g_dcs g6 = g_dcs g1) as Hd6 by (cbn; rewrite Hd5, Hd4; cbn; by rewrite insert_insert_eq, Hd2, Hd1, insert_insert_eq).
      assert ((when true (_ ← mark output (λ _ _, Some (MBlit (g_next g))); _ ← select_object (g_next g) STOCK_BITMAP; mret tt)) g4 = (Ok tt, g6)) as Hwhen.
      { cbn [when]. rewrite (sr_bind_Ok _ _ _ _ _ Hm), (sr_bind_Ok _ _ _ _ _ (select_some _ _ _ _ _ Hbuf5 Hstock)). done. }
      rewrite (sr_bind_Ok _ _ _ _ _ Hwhen). cbn [when].
      assert (g_next g + 1 = 0 ∨ g_next g1 ≤ g_next g + 1) as Hnew by lia.
      rewrite (sr_bind_Ok _ _ _ _ _ (delete_object_new _ _ _ Hok1 Hd6 Hnew)).
      change (delete (g_next g) (g_dcs g6) = g_dcs g ∧ delete (g_next g + 1) (g_objects g5) = g_objects g ∧ g_next g ≤ g_next g5).
      split; [| split; [| change (g_next g3) with (g_next g2) in Hn4; lia]].
      * rewrite Hd6, Hd1. by apply delete_insert_id.
      * destruct (made_fresh _ _ _ _ Hok1 M2) as (_ & Hdel & _). rewrite Hn1 in Hdel.
        replace (g_objects g5) with (g_objects g2) by congruence. congruence.
Qed.

(** C37. (safety) However often the window is painted, by whichever renderer, and whatever
    brush, pen, region, bitmap or context cannot be created on the way: afterwards the
    same objects exist and the same are selected into the same contexts, and the painter
    is kept only if its picture was shown. *)
Theorem painting_leaks_nothing fonts output target_width d2d_answers painter v g :
  gdi_ok g → contexts_ok g → fonts_there fonts g →
  let '(r, g') := paint fonts output target_width d2d_answers painter v g in
  g_dcs g' = g_dcs g ∧ g_objects g' = g_objects g ∧
  ∃ presented, r = Ok (match presented with ByGdi => false | _ => true end, presented) ∧
    (presented = ByDirect2D (d2d_picture v target_width) ∧ painter = true ∨ presented = ByGdi).
Proof.
  intros Hok Hctx Hf. unfold paint. destruct (painter && run_d2d d2d_answers (d2d_picture v target_width)) eqn:Hd.
  - split; [done |]. split; [done |]. apply andb_true_iff in Hd as [-> _].
    eexists. split; [| by left]. done.
  - pose proof (gdi_paint_same fonts output v g Hok Hctx Hf) as (H1 & H2 & _). unfold mbind, sr_bind.
    destruct (gdi_paint fonts output v g) as [[[] | []] g']. cbn in *.
    split; [done |]. split; [done |]. exists ByGdi. auto.
Qed.

(** ** A window to paint *)

Definition pairing_shown : Shown :=
  mkShown (mkUi PagePairing TabSend [] [] [] (Some (2, [true; false; false; true])) None false false false
             (Some (mkSaveNotice false "Could not save")) None true [])
    (mkUiSnapshot "desk" [] (mkStatus "" None None None) true (mkUpdateSnapshot "" UaCheck "" None None) None)
    true true 144 1470 930.

(** The context 1 of the window, its fonts 2 to 5; the third and the fifth call fail. *)
Definition some_gdi : Gdi :=
  mkGdi {[ 1 := mkDc STOCK_BRUSH STOCK_PEN STOCK_FONT STOCK_BITMAP ]} {[ 2 := OFont; 3 := OFont; 4 := OFont; 5 := OFont ]} 6
    [true; true; false; true; false] [].
Definition some_fonts (f : RenderFont) : Z := match f with IconFont => 2 | BodyText => 3 | HeadingText => 4 | NavigationText => 5 end.

Lemma some_gdi_ok : gdi_ok some_gdi.
Proof.
  split; [done |]. split.
  - intros h o Hh. cbn in Hh. rewrite !lookup_insert_Some, lookup_singleton_Some in Hh. cbn. lia.
  - intros c d k Hc. cbn in Hc. apply lookup_singleton_Some in Hc as [_ <-]. by destruct k.
Qed.

Lemma painting_leaks_nothing_witness :
  let '(r, g') := paint some_fonts 1 (dip 980) [true; false] true pairing_shown some_gdi in
  r = Ok (false, ByGdi) ∧ g_objects g' = g_objects some_gdi ∧ g_dcs g' = g_dcs some_gdi.
Proof.
  pose proof (painting_leaks_nothing some_fonts 1 (dip 980) [true; false] true pairing_shown some_gdi some_gdi_ok) as Hall.
  assert (contexts_ok some_gdi) as Hctx by (intros c d Hc; cbn in Hc; apply lookup_singleton_Some in Hc as [<- _]; cbn; lia).
  assert (fonts_there some_fonts some_gdi) as Hf by (intros []; right; reflexivity).
  specialize (Hall Hctx Hf). destruct (paint some_fonts 1 (dip 980) [true; false] true pairing_shown some_gdi) as [r g'] eqn:E.
  destruct Hall as (Hd & Ho & _). split; [| split; [exact Ho | exact Hd]].
  change r with (r, g').1. rewrite <- E. vm_compute. reflexivity.
Defined.

(** The module of the second column and row, at 168 pixels. *)
Lemma qr_is_drawn_exactly_witness :
  ∃ column row, 0 ≤ column < 2 ∧ 0 ≤ row < 2 ∧
    ((∃ r, r ∈ qr_cells 2 168 [true; false; false; true] ∧ inside 90 90 r)
     ↔ nth (Z.to_nat (row * 2 + column)) [true; false; false; true] false = true).
Proof.
  destruct (qr_is_drawn_exactly 2 168 [true; false; false; true] 90 90 ltac:(lia) ltac:(lia)) as (Hin & _ & _).
  destruct Hin as (column & row & Hc & Hr & _ & Hblack); [split; vm_compute; split; congruence |].
  exists column, row. split; [exact Hc |]. split; [exact Hr | exact Hblack].
Defined.
