(* ===== verification/Fonts.v ===== *)
(** * The fonts of the window and the surface of the ball

    [flowtype-app/src/ui_pages.rs rebuild_fonts], [ui.rs] and [ui_floating.rs
    LayeredSurface]: the objects of GDI that are kept between two paintings, over the
    model of [Gdi]. *)

From S2P Require Import Prelude Text Layout Pages Window Gdi Components Render RenderSafety.
Local Open Scope list_scope.
Local Open Scope Z_scope.

(** ** Fonts *)

(** [app/ui_paint.rs create_font] A handle, or 0; which font it is does not matter here. *)
Definition create_font : gdi Z := create OFont.

(** The handles of the window: title, heading, navigation, body and icons. *)
Record Fonts := mkFonts { title_font : Z; heading_font : Z; navigation_font : Z; body_font : Z; icon_font : Z }.
Definition no_fonts : Fonts := mkFonts 0 0 0 0 0.
Definition handles (f : Fonts) : list Z := [title_font f; heading_font f; navigation_font f; body_font f; icon_font f].

Fixpoint delete_all (hs : list Z) : gdi unit :=
  match hs with
  | [] => mret tt
  | h :: hs => _ ← (if h =? 0 then mret tt else delete_object h); delete_all hs
  end.

(** [app/ui.rs:655-667 window_proc] *)
Definition delete_fonts (f : Fonts) : gdi unit := delete_all (handles f).

(** [app/ui_pages.rs UiContext::rebuild_fonts] *)
Definition rebuild_fonts (f : Fonts) : gdi Fonts :=
  _ ← delete_all (handles f);
  title ← create_font;
  heading ← create_font;
  navigation ← create_font;
  body ← create_font;
  icon ← create_font;
  mret (mkFonts title heading navigation body icon).

(** ** What the window keeps *)

(** [keeps base hs g]: beside the objects of [base] there are the fonts [hs], which are
    selected nowhere; 0 is none. *)
Record keeps (base : gmap Z GdiObject) (hs : list Z) (g : Gdi) : Prop := {
  kp_ok : gdi_ok g;
  kp_fonts h : h ∈ hs → h ≠ 0 → g_objects g !! h = Some OFont ∧ base !! h = None ∧ in_use h g = false;
  kp_others h : h = 0 ∨ h ∉ hs → g_objects g !! h = base !! h;
}.

Lemma delete_ok h g : gdi_ok g → in_use h g = false → gdi_ok (with_objects (delete h (g_objects g)) g).
Proof.
  intros (Hpos & Hobj & Hsel) Huse. split; [done |]. split; cbn.
  - intros h' o [_ Hh]%lookup_delete_Some. by eapply Hobj.
  - intros c d k Hc. specialize (Hsel c d k Hc). assert (get_selected k d ≠ h) as Hne.
    { intros Heq. apply not_true_iff_false in Huse. apply Huse. apply existsb_exists. exists (c, d).
      split; [by apply list_elem_of_In, elem_of_map_to_list | apply selected_spec; by exists k]. }
    unfold kind_of in *. by rewrite lookup_delete_ne.
Qed.

(** The order of the handles is of no matter, nor is 0 among them. *)
Lemma keeps_handles base hs ks g : (∀ h, h ≠ 0 → h ∈ hs ↔ h ∈ ks) → keeps base hs g → keeps base ks g.
Proof.
  intros Heq [Hok Hf Ho]. split; [done | |].
  - intros h Hh H0. apply Hf; [by apply Heq | done].
  - intros h Hh. apply Ho. destruct (decide (h = 0)) as [-> | H0]; [by left | right]. rewrite Heq by done. by destruct Hh.
Qed.

Lemma delete_all_keeps base hs g : NoDup (filter (λ h, h ≠ 0) hs) → keeps base hs g →
  ∃ g', delete_all hs g = (Ok tt, g') ∧ keeps base [] g' ∧ g_dcs g' = g_dcs g ∧ g_next g' = g_next g.
Proof.
  revert g. induction hs as [|h hs IH]; intros g Hnodup Hk; [exists g; split_and!; auto |]. cbn [delete_all].
  destruct (Z.eqb_spec h 0) as [-> | H0].
  - destruct (IH g) as (g' & E & H); [by rewrite filter_cons_False in Hnodup by auto | |].
    { eapply keeps_handles; [| exact Hk]. set_solver. }
    exists g'. rewrite (sr_bind_Ok _ _ _ tt g) by done. auto.
  - rewrite filter_cons_True in Hnodup by done. apply NoDup_cons in Hnodup as [Hnew Hnodup].
    destruct Hk as [Hok Hf Ho]. destruct (Hf h) as (Hh & Hbase & Huse); [set_solver | done |].
    set (g1 := with_objects (delete h (g_objects g)) g).
    assert (delete_object h g = (Ok tt, g1)) as E1 by (unfold delete_object, sr_modify; by rewrite Huse).
    rewrite (sr_bind_Ok _ _ _ _ _ E1). destruct (IH g1) as (g' & E & Hk' & Hd & Hn); [done | |].
    + split; [by apply delete_ok | |].
      * intros h' Hh' H0'. destruct (Hf h') as (? & ? & ?); [set_solver | done |]. assert (h' ≠ h) as Hne.
        { intros ->. apply Hnew. by apply list_elem_of_filter. }
        split_and!; [| done | done]. cbn. by rewrite lookup_delete_ne.
      * intros h' Hh'. cbn. destruct (decide (h' = h)) as [-> | Hne]; [by rewrite lookup_delete_eq |].
        rewrite lookup_delete_ne by done. apply Ho. destruct Hh' as [-> | ?]; [by left | right; set_solver].
    + exists g'. split_and!; done.
Qed.

Lemma create_font_keeps base hs g : keeps base hs g → (∀ h, g_next g ≤ h → base !! h = None) → Forall (λ h, h < g_next g) hs →
  ∃ h g', create_font g = (Ok h, g') ∧ keeps base (h :: hs) g' ∧ g_dcs g' = g_dcs g ∧ (h = 0 ∨ h ∉ hs) ∧
    (∀ h', g_next g' ≤ h' → base !! h' = None) ∧ Forall (λ h, h < g_next g') (h :: hs) ∧ g_next g ≤ g_next g'.
Proof.
  intros [Hok Hf Ho] Hbase Hlt. destruct (create_made OFont g) as (h & g' & E & M). exists h, g'. split; [exact E |].
  destruct (made_ok _ _ _ _ Hok M) as [Hok' Hh]. assert (0 < g_next g) as Hpos by apply Hok.
  destruct M as [Hd [(-> & Hobj & Hn) | (-> & Hobj & Hn)]].
  - split; [| split_and!; [done | by left | by rewrite Hn | rewrite Hn; constructor; [lia | done] | lia]].
    apply (keeps_handles _ hs); [set_solver |]. split; [done | |].
    + intros h Hh' H0. rewrite Hobj. unfold in_use. rewrite Hd. by apply Hf.
    + intros h Hh'. rewrite Hobj. by apply Ho.
  - split; [| split_and!; [done | right | intros; apply Hbase; lia | | lia]].
    + split; [done | |].
      * intros h' [-> | Hh']%elem_of_cons H0.
        -- split; [by rewrite Hobj, lookup_insert_eq |]. split; [apply Hbase; lia |]. unfold in_use. rewrite Hd.
           apply (fresh_not_in_use g); [done | right; lia].
        -- rewrite Forall_forall in Hlt. specialize (Hlt _ Hh'). destruct (Hf h' Hh' H0) as (? & ? & ?).
           split; [by rewrite Hobj, lookup_insert_ne by lia |]. unfold in_use. rewrite Hd. by split.
      * intros h' Hh'. rewrite Hobj, lookup_insert_ne by (destruct Hh' as [-> | Hh']; [lia | set_solver]).
        apply Ho. destruct Hh' as [-> | Hh']; [by left | right; set_solver].
    + rewrite Forall_forall in Hlt. intros Hin. specialize (Hlt _ Hin). lia.
    + rewrite Hn. constructor; [lia |]. eapply Forall_impl; [exact Hlt |]. cbn. lia.
Qed.

(** Handles of the window: some of the objects it made, each once. *)
Definition window_keeps (base : gmap Z GdiObject) (f : Fonts) (g : Gdi) : Prop :=
  keeps base (handles f) g ∧ NoDup (filter (λ h, h ≠ 0) (handles f)) ∧ (∀ h, g_next g ≤ h → base !! h = None).

Lemma nodup_handle h hs : h = 0 ∨ h ∉ hs → NoDup (filter (λ h, h ≠ 0) hs) → NoDup (filter (λ h, h ≠ 0) (h :: hs)).
Proof.
  intros Hh Hn. destruct (decide (h = 0)) as [-> | H0]; [by rewrite filter_cons_False by auto |].
  rewrite filter_cons_True by done. apply NoDup_cons. split; [| done]. rewrite list_elem_of_filter. by destruct Hh; [| intros [_ ?]].
Qed.

Lemma rebuild_keeps base f g : window_keeps base f g →
  ∃ f' g', rebuild_fonts f g = (Ok f', g') ∧ window_keeps base f' g' ∧ g_dcs g' = g_dcs g ∧ g_next g ≤ g_next g'.
Proof.
  intros (Hk & Hnodup & Hbase). destruct (delete_all_keeps _ _ _ Hnodup Hk) as (g0 & E0 & H0 & D0 & N0).
  unfold rebuild_fonts. rewrite (sr_bind_Ok _ _ _ _ _ E0). rewrite <- N0 in Hbase.
  destruct (create_font_keeps base [] g0) as (h1 & g1 & E1 & H1 & D1 & F1 & B1 & L1 & N1); [done | done | constructor |].
  rewrite (sr_bind_Ok _ _ _ _ _ E1).
  destruct (create_font_keeps base _ g1 H1 B1 L1) as (h2 & g2 & E2 & H2 & D2 & F2 & B2 & L2 & N2). rewrite (sr_bind_Ok _ _ _ _ _ E2).
  destruct (create_font_keeps base _ g2 H2 B2 L2) as (h3 & g3 & E3 & H3 & D3 & F3 & B3 & L3 & N3). rewrite (sr_bind_Ok _ _ _ _ _ E3).
  destruct (create_font_keeps base _ g3 H3 B3 L3) as (h4 & g4 & E4 & H4 & D4 & F4 & B4 & L4 & N4). rewrite (sr_bind_Ok _ _ _ _ _ E4).
  destruct (create_font_keeps base _ g4 H4 B4 L4) as (h5 & g5 & E5 & H5 & D5 & F5 & B5 & L5 & N5). rewrite (sr_bind_Ok _ _ _ _ _ E5).
  exists (mkFonts h1 h2 h3 h4 h5), g5. split; [done |]. split; [split_and! | split; [congruence | lia]].
  - apply (keeps_handles _ [h5; h4; h3; h2; h1]); [| done]. intros h _. unfold handles. cbn.
    rewrite !elem_of_cons, elem_of_nil. clear. tauto.
  - change (handles _) with (reverse [h5; h4; h3; h2; h1]). rewrite reverse_Permutation.
    apply nodup_handle; [exact F5 |]. apply nodup_handle; [exact F4 |]. apply nodup_handle; [exact F3 |].
    apply nodup_handle; [exact F2 |]. apply nodup_handle; [exact F1 | constructor].
  - done.
Qed.

(** ** The life of the window *)

(** [RenderFont] by its handle. *)
Definition fonts_of (f : Fonts) (r : RenderFont) : Z :=
  match r with IconFont => icon_font f | BodyText => body_font f | HeadingText => heading_font f | NavigationText => navigation_font f end.

Inductive WindowEvent :=
| Repaint (output_dc target_width : Z) (d2d_answers : list bool) (painter : bool) (v : Shown)
| NewResolution.

(** [app/ui.rs:398-670 window_proc] What the messages of the window do to the objects of GDI. *)
Definition life_step (e : WindowEvent) (f : Fonts) : gdi Fonts :=
  match e with
  | Repaint output_dc target_width d2d_answers painter v =>
    _ ← paint (fonts_of f) output_dc target_width d2d_answers painter v; mret f
  | NewResolution => rebuild_fonts f
  end.
Fixpoint life_steps (es : list WindowEvent) (f : Fonts) : gdi Fonts :=
  match es with
  | [] => mret f
  | e :: es => f ← life_step e f; life_steps es f
  end.
Definition window_life (es : list WindowEvent) : gdi unit :=
  f ← rebuild_fonts no_fonts;
  f ← life_steps es f;
  delete_fonts f.

Lemma window_fonts_there base f g : window_keeps base f g → fonts_there (fonts_of f) g.
Proof.
  intros [[_ Hf _] _] r. destruct (decide (fonts_of f r = 0)) as [H0 | H0]; [by left | right].
  apply Hf; [| done]. destruct r; cbn; set_solver.
Qed.

Lemma life_step_keeps base e f g : window_keeps base f g → contexts_ok g →
  ∃ f' g', life_step e f g = (Ok f', g') ∧ window_keeps base f' g' ∧ g_dcs g' = g_dcs g ∧ g_next g ≤ g_next g'.
Proof.
  intros Hk Hctx. destruct e as [output_dc target_width answers painter v |]; [| by apply rebuild_keeps]. cbn [life_step].
  pose proof (window_fonts_there _ _ _ Hk) as Hf. destruct Hk as ([Hok Hfonts Hothers] & Hnodup & Hbase).
  assert (∃ r g', paint (fonts_of f) output_dc target_width answers painter v g = (Ok r, g') ∧ same_gdi g g') as (r & g' & E & Hsame).
  { unfold paint. destruct (painter && _); [eexists _, g; split; [reflexivity | done] |].
    pose proof (gdi_paint_same (fonts_of f) output_dc v g Hok Hctx Hf) as Hs.
    destruct (gdi_paint (fonts_of f) output_dc v g) as [[[] | []] g'] eqn:E. eexists _, g'.
    split; [by rewrite (sr_bind_Ok _ _ _ _ _ E) | done]. }
  exists f, g'. rewrite (sr_bind_Ok _ _ _ _ _ E). split; [done |]. pose proof (same_gdi_ok _ _ Hsame Hok) as Hok'.
  destruct Hsame as (Hd & Ho & Hn). split; [| done]. split_and!; [| done | intros; apply Hbase; lia].
  split; [done | |]; rewrite Ho; [| done]. intros h Hh H0. unfold in_use. rewrite Hd. by apply Hfonts.
Qed.

Lemma life_steps_keep base es f g : window_keeps base f g → contexts_ok g →
  ∃ f' g', life_steps es f g = (Ok f', g') ∧ window_keeps base f' g' ∧ g_dcs g' = g_dcs g.
Proof.
  revert f g. induction es as [|e es IH]; intros f g Hk Hctx; [by exists f, g |]. cbn [life_steps].
  destruct (life_step_keeps base e f g Hk Hctx) as (f1 & g1 & E1 & Hk1 & Hd1 & Hn1). rewrite (sr_bind_Ok _ _ _ _ _ E1).
  destruct (IH f1 g1 Hk1) as (f' & g' & E & Hk' & Hd'); [| exists f', g'; split_and!; congruence].
  intros c d. rewrite Hd1. intros Hc. specialize (Hctx c d Hc). lia.
Qed.

(** However often the window is painted and whatever resolution it comes to, and whatever
    cannot be created on the way: when it is destroyed all its fonts are given back, and
    nothing else was touched. *)
Theorem window_gives_its_fonts_back es g :
  gdi_ok g → contexts_ok g →
  ∃ g', window_life es g = (Ok tt, g') ∧ g_objects g' = g_objects g ∧ g_dcs g' = g_dcs g.
Proof.
  intros Hok Hctx. assert (window_keeps (g_objects g) no_fonts g) as H0.
  { split_and!; [| by constructor |].
    - split; [done | | done]. intros h Hh H0. cbn in Hh. set_solver.
    - intros h Hh. destruct Hok as (_ & Hobj & _). destruct (g_objects g !! h) eqn:E; [specialize (Hobj h _ E); lia | done]. }
  unfold window_life. destruct (rebuild_keeps _ _ _ H0) as (f1 & g1 & E1 & Hk1 & Hd1 & Hn1). rewrite (sr_bind_Ok _ _ _ _ _ E1).
  destruct (life_steps_keep (g_objects g) es f1 g1 Hk1) as (f2 & g2 & E2 & (Hk2 & Hnodup2 & _) & Hd2).
  { intros c d. rewrite Hd1. intros Hc. specialize (Hctx c d Hc). lia. }
  rewrite (sr_bind_Ok _ _ _ _ _ E2). destruct (delete_all_keeps _ _ _ Hnodup2 Hk2) as (g3 & E3 & [_ _ Hothers] & Hd3 & _).
  exists g3. split; [exact E3 |]. split; [| congruence]. apply map_eq. intros h. apply Hothers. right. apply not_elem_of_nil.
Qed.

(** ** The surface of the ball *)

(** [app/ui_floating.rs LayeredSurface] *)
Record LayeredSurface := mkSurface { su_dc : Z; su_bitmap : Z; su_old_bitmap : Z }.

(** [app/ui_floating.rs create_surface] A bitmap comes with its bits. *)
Definition create_surface : gdi (option LayeredSurface) :=
  dc ← create_dc;
  if dc =? 0 then mret None
  else
    bitmap ← create OBitmap;
    if bitmap =? 0 then _ ← delete_dc dc; mret None
    else old_bitmap ← select_object dc bitmap; mret (Some (mkSurface dc bitmap old_bitmap)).

(** [app/ui_floating.rs LayeredSurface::drop] *)
Definition drop_surface (s : LayeredSurface) : gdi unit :=
  _ ← select_object (su_dc s) (su_old_bitmap s);
  _ ← delete_object (su_bitmap s);
  delete_dc (su_dc s).

(** The surface is a context with the bitmap selected, or nothing was kept of it; dropping
    it gives all back. *)
Lemma surface_is_given_back g : gdi_ok g → contexts_ok g →
  let '(r, g1) := create_surface g in
  match r with
  | Ok (Some s) => in_use (su_bitmap s) g1 = true ∧
                   (drop_surface s g1).1 = Ok tt ∧ g_dcs (drop_surface s g1).2 = g_dcs g ∧ g_objects (drop_surface s g1).2 = g_objects g
  | Ok None => g_dcs g1 = g_dcs g ∧ g_objects g1 = g_objects g
  | Err _ => False
  end.
Proof.
  intros Hok Hctx. destruct (create_dc_made g Hok Hctx) as (c & g1 & E1 & Hok1 & Ho1 & Hc). unfold create_surface.
  rewrite (sr_bind_Ok _ _ _ _ _ E1). assert (0 < g_next g) as Hpos by apply Hok.
  assert (g_dcs g !! g_next g = None) as Hfresh by (destruct (g_dcs g !! g_next g) as [d |] eqn:E; [specialize (Hctx _ _ E); lia | done]).
  destruct Hc as [(-> & Hd1 & Hn1) | (-> & Hd1 & Hn1)]; [by cbn |]. rewrite (proj2 (Z.eqb_neq (g_next g) 0)) by lia.
  destruct (create_made OBitmap g1) as (b & g2 & E2 & M2). rewrite (sr_bind_Ok _ _ _ _ _ E2).
  destruct (made_there _ _ _ _ Hok1 M2) as [Hok2 _]. pose proof M2 as [Hd2 Hcase].
  destruct Hcase as [(-> & Ho2 & Hn2) | (-> & Ho2 & Hn2)].
  - change (delete (g_next g) (g_dcs g2) = g_dcs g ∧ g_objects g2 = g_objects g). split; [| by rewrite Ho2].
    rewrite Hd2, Hd1. by apply delete_insert_id.
  - rewrite Hn1 in *. rewrite (proj2 (Z.eqb_neq (g_next g + 1) 0)) by lia.
    assert (g_dcs g2 !! g_next g = Some (mkDc STOCK_BRUSH STOCK_PEN STOCK_FONT STOCK_BITMAP)) as Hbuf by (rewrite Hd2, Hd1; apply lookup_insert_eq).
    assert (kind_of (g_next g + 1) (g_objects g2) = Some SBitmap) as Hkb by (unfold kind_of; by rewrite Ho2, lookup_insert_eq).
    rewrite (sr_bind_Ok _ _ _ _ _ (select_some _ _ _ _ _ Hbuf Hkb)). cbn [get_selected set_selected dc_bitmap dc_brush dc_pen dc_font].
    set (g3 := with_dcs _ g2). cbn. assert (kind_of STOCK_BITMAP (g_objects g3) = Some SBitmap) as Hstock.
    { destruct Hok2 as (_ & _ & S2). apply (S2 _ _ SBitmap Hbuf). }
    assert (g_dcs g3 !! g_next g = Some (mkDc STOCK_BRUSH STOCK_PEN STOCK_FONT (g_next g + 1))) as Hsel by apply lookup_insert_eq.
    split.
    { apply existsb_exists. eexists. split; [by apply list_elem_of_In, elem_of_map_to_list |]. apply selected_spec. by exists SBitmap. }
    unfold drop_surface. cbn [su_dc su_old_bitmap su_bitmap].
    rewrite (sr_bind_Ok _ _ _ _ _ (select_some _ _ _ _ _ Hsel Hstock)). cbn [set_selected dc_bitmap dc_brush dc_pen dc_font].
    set (g4 := with_dcs _ g3). assert (g_dcs g4 = g_dcs g1) as Hd4 by (cbn; by rewrite !insert_insert_eq, Hd2, Hd1, insert_insert_eq).
    assert (g_next g + 1 = 0 ∨ g_next g1 ≤ g_next g + 1) as Hnew by lia.
    rewrite (sr_bind_Ok _ _ _ _ _ (delete_object_new _ _ _ Hok1 Hd4 Hnew)). split; [done |].
    change (delete (g_next g) (g_dcs g4) = g_dcs g ∧ delete (g_next g + 1) (g_objects g2) = g_objects g). split.
    + rewrite Hd4, Hd1. by apply delete_insert_id.
    + destruct (made_fresh _ _ _ _ Hok1 M2) as (_ & Hdel & _). congruence.
Qed.
