(* ===== verification/Pixels.v ===== *)
(** * The pixels of the floating ball

    [flowtype-app/src/ui_floating.rs]: the surface that the ball is drawn on, pixel by
    pixel, in premultiplied 32-bit colours. The arithmetic is that of the code, in single
    precision ([SpecFloat] with 24 bits and the exponents of binary32); an access outside
    of a slice, which would panic, is [None]. *)

From Stdlib Require Import SpecFloat.
From S2P Require Import Prelude Text Floating.
Local Open Scope list_scope.
Local Open Scope Z_scope.

(** ** Single precision *)

Notation f32 := spec_float.
Definition fadd : f32 → f32 → f32 := SFadd 24 128.
Definition fsub : f32 → f32 → f32 := SFsub 24 128.
Definition fmul : f32 → f32 → f32 := SFmul 24 128.
Definition fdiv : f32 → f32 → f32 := SFdiv 24 128.
Definition fsqrt : f32 → f32 := SFsqrt 24 128.

(** [n as f32]; [n / d] for a literal of the code. *)
Definition of_i32 (n : Z) : f32 := binary_normalize 24 128 n 0 false.
Definition lit (n d : Z) : f32 := fdiv (of_i32 n) (of_i32 d).
Definition is_nan (x : f32) : bool := match x with S754_nan => true | _ => false end.

(** [f32::min], [f32::max]: the other one, when one is not a number. *)
Definition fmin (x y : f32) : f32 := if is_nan x then y else if is_nan y then x else if SFltb y x then y else x.
Definition fmax (x y : f32) : f32 := if is_nan x then y else if is_nan y then x else if SFltb x y then y else x.
(** [f32::clamp] *)
Definition fclamp (x low high : f32) : f32 := if SFltb x low then low else if SFltb high x then high else x.
(** [powi(2)] *)
Definition square (x : f32) : f32 := fmul x x.

(** The whole numbers at a number: down, up and the nearest, half away from zero. They are
    floats themselves. Infinity is beyond every integer type. *)
Inductive Rounding := Floor | Ceil | Nearest.
Definition magnitude (r : Rounding) (negative : bool) (m e : Z) : Z :=
  if 0 <=? e then m * 2 ^ e
  else
    let d := 2 ^ (- e) in
    match r with
    | Nearest => (m + d / 2) / d
    | Floor => if negative then (m + d - 1) / d else m / d
    | Ceil => if negative then m / d else (m + d - 1) / d
    end.
Definition whole (r : Rounding) (x : f32) : option Z :=
  match x with
  | S754_nan => None
  | S754_zero _ => Some 0
  | S754_infinity negative => Some (if negative then - 2 ^ 128 else 2 ^ 128)
  | S754_finite negative m e => let v := magnitude r negative (Z.pos m) e in Some (if negative then - v else v)
  end.

(** The casts of whole floats saturate; what is not a number gives 0. *)
Definition saturate (low high : Z) (v : option Z) : Z := match v with Some v => Z.max low (Z.min high v) | None => 0 end.
Definition as_i32 : option Z → Z := saturate (- 2 ^ 31) (2 ^ 31 - 1).
Definition as_u8 : option Z → Z := saturate 0 255.

Example half_is_rounded_away : whole Nearest (lit 5 2) = Some 3 ∧ whole Floor (lit (-5) 2) = Some (-3) ∧ whole Ceil (lit (-5) 2) = Some (-2).
Proof. vm_compute. done. Qed.
Example a_tenth_is_rounded : lit 1 10 = S754_finite false 13421773 (-27).
Proof. reflexivity. Qed.

(** ** Drawing *)

(** [app/ui_floating.rs Paint] *)
Record Paint := mkPaint { paint_color : Z * Z * Z; paint_alpha : f32 }.

Notation pixels := (list Z) (only parsing).

(** An index out of the slice panics. *)
Definition read_pixel (p : pixels) (index : Z) : option Z := if index <? 0 then None else p !! Z.to_nat index.
Definition write_pixel (index v : Z) (p : pixels) : option pixels :=
  if (0 <=? index) && (index <? zlength p) then Some (<[Z.to_nat index := v]> p) else None.

(** [app/ui_floating.rs blend_pixel] *)
Definition blend_pixel (p : pixels) (width x y : Z) (color : Z * Z * Z) (alpha : f32) : option pixels :=
  if (x <? 0) || (y <? 0) || (width <=? x) || (width <=? y) || SFleb alpha (of_i32 0) then Some p
  else
    let alpha := fmin alpha (of_i32 1) in
    let index := (y * width + x) * 4 in
    a ← read_pixel p (index + 3);
    let destination_alpha := fdiv (of_i32 a) (of_i32 255) in
    let rest := fsub (of_i32 1) alpha in
    let output_alpha := fadd alpha (fmul destination_alpha rest) in
    if SFleb output_alpha (of_i32 0) then Some p
    else
      let source c := fmul (fdiv (of_i32 c) (of_i32 255)) alpha in
      let over c old := as_u8 (whole Nearest (fmul (fadd (source c) (fmul (fdiv (of_i32 old) (of_i32 255)) rest)) (of_i32 255))) in
      let '(red, green, blue) := color in
      b ← read_pixel p index;
      p ← write_pixel index (over blue b) p;
      g ← read_pixel p (index + 1);
      p ← write_pixel (index + 1) (over green g) p;
      r ← read_pixel p (index + 2);
      p ← write_pixel (index + 2) (over red r) p;
      write_pixel (index + 3) (as_u8 (whole Nearest (fmul output_alpha (of_i32 255)))) p.

(** [for i in low..=high] *)
Definition for_each (low high : Z) (f : Z → pixels → option pixels) (p : pixels) : option pixels :=
  foldl (λ acc i, acc ≫= f i) (Some p) (seqZ low (high - low + 1)).

(** The square of the pixels around a circle. *)
Definition around (cx cy outer : f32) (f : Z → Z → pixels → option pixels) : pixels → option pixels :=
  let low c := as_i32 (whole Floor (fsub (fsub c outer) (of_i32 1))) in
  let high c := as_i32 (whole Ceil (fadd (fadd c outer) (of_i32 1))) in
  for_each (low cy) (high cy) (λ y, for_each (low cx) (high cx) (λ x, f x y)).

Definition distance (x y : Z) (cx cy : f32) : f32 :=
  let from i c := square (fsub (fadd (of_i32 i) (lit 1 2)) c) in
  fsqrt (fadd (from x cx) (from y cy)).

(** [app/ui_floating.rs draw_circle] *)
Definition draw_circle (p : pixels) (width : Z) (cx cy radius : f32) (paint : Paint) : option pixels :=
  around cx cy radius (λ x y p,
    let coverage := fclamp (fsub (fadd radius (lit 65 100)) (distance x y cx cy)) (of_i32 0) (of_i32 1) in
    blend_pixel p width x y (paint_color paint) (fmul (paint_alpha paint) coverage)) p.

(** [app/ui_floating.rs draw_soft_circle] *)
Definition draw_soft_circle (p : pixels) (width : Z) (cx cy radius blur : f32) (paint : Paint) : option pixels :=
  around cx cy (fadd radius blur) (λ x y p,
    let distance := distance x y cx cy in
    if SFleb distance radius then Some p
    else
      let coverage := square (fmax (fsub (of_i32 1) (fdiv (fsub distance radius) blur)) (of_i32 0)) in
      blend_pixel p width x y (paint_color paint) (fmul (paint_alpha paint) coverage)) p.

(** [app/ui_floating.rs draw_ring] *)
Definition draw_ring (p : pixels) (width : Z) (cx cy radius thickness : f32) (paint : Paint) : option pixels :=
  let outer := fadd radius (fdiv thickness (of_i32 2)) in
  let inner := fsub radius (fdiv thickness (of_i32 2)) in
  around cx cy outer (λ x y p,
    let distance := distance x y cx cy in
    let outer_coverage := fclamp (fsub (fadd outer (lit 65 100)) distance) (of_i32 0) (of_i32 1) in
    let inner_coverage := fclamp (fadd (fsub distance inner) (lit 65 100)) (of_i32 0) (of_i32 1) in
    blend_pixel p width x y (paint_color paint) (fmul (paint_alpha paint) (fmin outer_coverage inner_coverage))) p.

Definition SOURCE_SIZE : Z := 32.

(** [app/ui_floating.rs draw_android_edit_icon] [source]: the pixels of the icon that is
    embedded in the program, four bytes each. *)
Definition draw_android_edit_icon (source : list Z) (p : pixels) (width : Z) (center : f32) (size : Z) : option pixels :=
  let left := as_i32 (whole Floor (fsub center (fdiv (of_i32 size) (of_i32 2)))) in
  let nearest i := saturate 0 (SOURCE_SIZE - 1) (whole Nearest
    (fsub (fdiv (fmul (fadd (of_i32 i) (lit 1 2)) (of_i32 SOURCE_SIZE)) (of_i32 size)) (lit 1 2))) in
  for_each 0 (size - 1) (λ y, for_each 0 (size - 1) (λ x p,
    a ← source !! Z.to_nat ((nearest y * SOURCE_SIZE + nearest x) * 4 + 3);
    blend_pixel p width (left + x) (left + y) (244, 246, 247) (fdiv (of_i32 a) (of_i32 255)))) p.

Definition BALL_BORDER : Z * Z * Z := (255, 255, 255).

(** [app/ui_floating.rs render_surface] On a surface that could be created; the context's
    sizes, and the colours of the ball and its dot. *)
Definition render_surface (icon : list Z) (size ball_size shadow_margin : Z) (color dot_color : Z * Z * Z) : option pixels :=
  let p := replicate (Z.to_nat (size * size) * 4) 0 in
  let center := fdiv (of_i32 size) (of_i32 2) in
  let radius := fdiv (of_i32 ball_size) (of_i32 2) in
  p ← draw_soft_circle p size center (fadd center (lit 14 10)) radius (fmul (of_i32 shadow_margin) (lit 15 10)) (mkPaint (0, 0, 0) (lit 42 100));
  p ← draw_circle p size center center radius (mkPaint color (lit 45 100));
  p ← draw_ring p size center center (fsub radius (lit 25 100)) (lit 11 10) (mkPaint BALL_BORDER (lit 2 10));
  let icon_size := Z.max (Z.quot (ball_size * 28) 56) 1 in
  p ← draw_android_edit_icon icon p size center icon_size;
  let dot_scale := fdiv (of_i32 ball_size) (of_i32 56) in
  let dot_center := fsub (fadd center radius) (lit 105 10) in
  p ← draw_circle p size dot_center dot_center (fmul (lit 47 10) dot_scale) (mkPaint dot_color (of_i32 1));
  draw_ring p size dot_center dot_center (fmul (lit 52 10) dot_scale) (lit 13 10) (mkPaint (15, 28, 30) (lit 45 100)).

(** ** It stays on the surface *)

Definition surface_ok (width : Z) (p : pixels) : Prop := zlength p = width * width * 4 ∧ Forall byte_ok p.

(** A step that cannot fail on a surface and gives one again. *)
Definition on_surface (width : Z) (f : pixels → option pixels) : Prop :=
  ∀ p, surface_ok width p → ∃ p', f p = Some p' ∧ surface_ok width p'.

Lemma as_u8_byte v : byte_ok (as_u8 v).
Proof. unfold as_u8, saturate, byte_ok. destruct v; lia. Qed.

Lemma write_pixel_ok width p index v : surface_ok width p → 0 ≤ index < width * width * 4 → byte_ok v →
  ∃ p', write_pixel index v p = Some p' ∧ surface_ok width p'.
Proof.
  intros [Hl Hb] Hi Hv. unfold write_pixel. rewrite (proj2 (Z.leb_le _ _)), (proj2 (Z.ltb_lt _ _)) by lia. cbn [andb]. eexists. split; [done |].
  split; [unfold zlength in *; by rewrite length_insert | by apply Forall_insert].
Qed.

Lemma read_pixel_ok width p index : surface_ok width p → 0 ≤ index < width * width * 4 → ∃ v, read_pixel p index = Some v ∧ byte_ok v.
Proof.
  intros [Hl Hb] Hi. unfold read_pixel. rewrite (proj2 (Z.ltb_ge _ _)) by lia. destruct (p !! Z.to_nat index) as [v |] eqn:E.
  - exists v. split; [done |]. rewrite Forall_lookup in Hb. by eapply Hb.
  - apply lookup_ge_None in E. unfold zlength in Hl. lia.
Qed.

Lemma blend_pixel_ok width x y color alpha : on_surface width (λ p, blend_pixel p width x y color alpha).
Proof.
  intros p Hp. unfold blend_pixel. destruct (_ || _) eqn:Hout; [eauto |].
  rewrite !orb_false_iff in Hout. destruct Hout as [[[[Hx Hy] Hxw] Hyw] _].
  apply Z.ltb_ge in Hx, Hy. apply Z.leb_gt in Hxw, Hyw. set (index := (y * width + x) * 4).
  assert (∀ i, 0 ≤ i ≤ 3 → 0 ≤ index + i < width * width * 4) as Hindex by (intros i Hi; unfold index; nia).
  destruct (read_pixel_ok width p (index + 3) Hp (Hindex 3 ltac:(lia))) as (a & -> & _). cbn [mbind option_bind].
  case_match; [eauto |]. destruct color as [[red green] blue].
  pose proof (Hindex 0 ltac:(lia)) as H0. rewrite Z.add_0_r in H0.
  destruct (read_pixel_ok width p index Hp H0) as (b & -> & _). cbn [mbind option_bind].
  match goal with |- context [write_pixel index ?v p] => destruct (write_pixel_ok width p index v Hp H0 (as_u8_byte _)) as (p1 & -> & Hp1) end. cbn [mbind option_bind].
  destruct (read_pixel_ok width p1 (index + 1) Hp1 (Hindex 1 ltac:(lia))) as (g & -> & _). cbn [mbind option_bind].
  match goal with |- context [write_pixel (index + 1) ?v p1] => destruct (write_pixel_ok width p1 (index + 1) v Hp1 (Hindex 1 ltac:(lia)) (as_u8_byte _)) as (p2 & -> & Hp2) end. cbn [mbind option_bind].
  destruct (read_pixel_ok width p2 (index + 2) Hp2 (Hindex 2 ltac:(lia))) as (r & -> & _). cbn [mbind option_bind].
  match goal with |- context [write_pixel (index + 2) ?v p2] => destruct (write_pixel_ok width p2 (index + 2) v Hp2 (Hindex 2 ltac:(lia)) (as_u8_byte _)) as (p3 & -> & Hp3) end. cbn [mbind option_bind].
  apply (write_pixel_ok width); [done | apply Hindex; lia | apply as_u8_byte].
Qed.

Lemma for_each_ok width low high f : (∀ i, low ≤ i ≤ high → on_surface width (f i)) → on_surface width (for_each low high f).
Proof.
  intros Hf. unfold for_each.
  assert (∀ l, (∀ i, i ∈ l → on_surface width (f i)) → ∀ p, surface_ok width p →
    ∃ p', foldl (λ acc i, acc ≫= f i) (Some p) l = Some p' ∧ surface_ok width p') as Hl.
  { induction l as [|i l IH]; intros Hin p Hp; [eauto |]. cbn [foldl].
    destruct (Hin i ltac:(set_solver) p Hp) as (p1 & Hp1 & Hok). cbn [mbind option_bind]. rewrite Hp1. apply IH; [set_solver | done]. }
  intros p Hp. apply Hl; [| done]. intros i Hi%elem_of_seqZ. apply Hf. lia.
Qed.

Lemma around_ok width cx cy outer f : (∀ x y, on_surface width (f x y)) → on_surface width (around cx cy outer f).
Proof. intros Hf. apply for_each_ok. intros y _. apply for_each_ok. intros x _. apply Hf. Qed.

Lemma draw_circle_ok width cx cy radius paint : on_surface width (λ p, draw_circle p width cx cy radius paint).
Proof. apply around_ok. intros x y. apply blend_pixel_ok. Qed.

Lemma draw_soft_circle_ok width cx cy radius blur paint : on_surface width (λ p, draw_soft_circle p width cx cy radius blur paint).
Proof. apply around_ok. intros x y p Hp. cbn zeta. destruct (SFleb _ _); [eauto | by apply blend_pixel_ok]. Qed.

Lemma draw_ring_ok width cx cy radius thickness paint : on_surface width (λ p, draw_ring p width cx cy radius thickness paint).
Proof. apply around_ok. intros x y. apply blend_pixel_ok. Qed.

Lemma draw_android_edit_icon_ok source width center size : zlength source = SOURCE_SIZE * SOURCE_SIZE * 4 →
  on_surface width (λ p, draw_android_edit_icon source p width center size).
Proof.
  intros Hsource. apply for_each_ok. intros y _. apply for_each_ok. intros x _ p Hp. cbn beta zeta.
  assert (∀ v, 0 ≤ saturate 0 (SOURCE_SIZE - 1) v ≤ 31) as Hnear by (intros v; unfold saturate, SOURCE_SIZE; destruct v; lia).
  match goal with |- context [(?ny * SOURCE_SIZE + ?nx) * 4 + 3] => set (ny' := ny); set (nx' := nx) end.
  assert (0 ≤ nx' ≤ 31 ∧ 0 ≤ ny' ≤ 31) as [Hx Hy] by (split; apply Hnear).
  destruct (source !! Z.to_nat ((ny' * SOURCE_SIZE + nx') * 4 + 3)) as [a |] eqn:E.
  - cbn [mbind option_bind]. by apply blend_pixel_ok.
  - apply lookup_ge_None in E. unfold zlength, SOURCE_SIZE in *. lia.
Qed.

(** C40. (safety) Drawing the ball never reads or writes outside of its surface or of its
    icon, whatever its size, resolution and colours: it always ends with a surface of the
    same size, whose bytes are bytes. *)
Theorem ball_stays_on_its_surface icon size ball_size shadow_margin color dot_color :
  0 ≤ size → zlength icon = SOURCE_SIZE * SOURCE_SIZE * 4 →
  ∃ p, render_surface icon size ball_size shadow_margin color dot_color = Some p ∧ surface_ok size p.
Proof.
  intros Hsize Hicon. unfold render_surface. set (p0 := replicate _ 0).
  assert (surface_ok size p0) as H0.
  { split; [unfold zlength, p0; rewrite length_replicate; nia | unfold p0; apply Forall_replicate; unfold byte_ok; lia]. }
  match goal with |- context [draw_soft_circle p0 size ?a ?b ?c ?d ?e] => destruct (draw_soft_circle_ok size a b c d e p0 H0) as (p1 & -> & H1) end. cbn [mbind option_bind].
  match goal with |- context [draw_circle p1 size ?a ?b ?c ?d] => destruct (draw_circle_ok size a b c d p1 H1) as (p2 & -> & H2) end. cbn [mbind option_bind].
  match goal with |- context [draw_ring p2 size ?a ?b ?c ?d ?e] => destruct (draw_ring_ok size a b c d e p2 H2) as (p3 & -> & H3) end. cbn [mbind option_bind].
  match goal with |- context [draw_android_edit_icon icon p3 size ?a ?b] => destruct (draw_android_edit_icon_ok icon size a b Hicon p3 H3) as (p4 & -> & H4) end. cbn [mbind option_bind].
  match goal with |- context [draw_circle p4 size ?a ?b ?c ?d] => destruct (draw_circle_ok size a b c d p4 H4) as (p5 & -> & H5) end. cbn [mbind option_bind].
  by apply draw_ring_ok.
Qed.

Lemma ball_stays_on_its_surface_witness :
  zlength (replicate 4096 7) = 4096 ∧ ∃ p, render_surface (replicate 4096 7) 62 48 7 (16, 18, 20) (0, 186, 184) = Some p ∧ surface_ok 62 p.
Proof.
  split; [reflexivity |]. apply (ball_stays_on_its_surface (replicate 4096 7) 62 48 7 (16, 18, 20) (0, 186, 184)); [lia | reflexivity].
Defined.
