(* ===== verification/Startup.v ===== *)
(** * The start of the app

    [flowtype-app/src/main.rs main], [SingleInstance] and [ui.rs run]: what a process of
    the app does from its command line to its window, as a program that calls the
    system; and the processes of a session, whose calls are interleaved. *)

From S2P Require Import Prelude Text Protocol FileNames FileCore Disk Store Targets Coordinator Outbound Pairing Update AppState Addresses AppActions Settings Identity Layout Pages Window WindowSafety.
Local Open Scope string_scope.
Local Open Scope list_scope.
Local Open Scope Z_scope.

(** ** Programs that call the system *)

Inductive Syscall : Type → Type :=
| SysLog (line : string) : Syscall unit
| SysVerifyInstaller (installer : string) : Syscall (result string unit)
| SysSetAutoStart (enabled : bool) : Syscall (result string unit)
| SysProcessId : Syscall Z
(* [CreateMutexW]: [None] when it failed, else whether the name existed *)
| SysCreateMutex (name : string) : Syscall (option bool)
| SysCloseMutex : Syscall unit
(* [FindWindowW] of the class of the main window, and [PostMessageW] to it *)
| SysFindWindow : Syscall (option Z)
| SysPostShow (hwnd : Z) : Syscall unit
| SysSleep (ms : Z) : Syscall unit
| SysLoadIdentity : Syscall (result string PcIdentity)
| SysLoadPhones : Syscall (result string PairedPhoneStore)
| SysRandomToken : Syscall string
| SysConnectInjector : Syscall bool
(* what [FLOWTYPE_ENDPOINT_HOST] is, when it is an address *)
| SysEndpointHost : Syscall (option string)
| SysAdapters : Syscall (list Adapter)
| SysStartUpdater : Syscall (result string unit)
| SysLoadTransfers : Syscall (result string Coordinator)
(* from here on other threads have the app *)
| SysShare (ap : App) : Syscall unit
| SysSpawnNetwork : Syscall (result string unit)
(* the app as the other threads left it, and the transfer of the connected phone *)
| SysSnapshot : Syscall (App * option (string * BatchState))
| SysRegisterClass : Syscall bool
| SysPreviewPage : Syscall (option string)
| SysFloatingEnabled : Syscall bool
| SysCreateWindow (w : World) (host : string) : Syscall bool
| SysShowWindow : Syscall unit
| SysMessageLoop : Syscall unit.

Inductive Prog (A : Type) : Type :=
| Done (a : A)
| Ask {B : Type} (c : Syscall B) (k : B → Prog A).
Arguments Done {A} a.
Arguments Ask {A B} c k.

#[global] Instance prog_ret : MRet Prog := @Done.
#[global] Instance prog_bind : MBind Prog := λ A B f,
  fix bind p := match p with Done a => f a | Ask c k => Ask c (λ b, bind (k b)) end.

Definition ask {B} (c : Syscall B) : Prog B := Ask c Done.

(** The [?] operator. *)
Definition try_prog {A B} (p : Prog (result string A)) (k : A → Prog (result string B)) : Prog (result string B) :=
  r ← p; match r with Ok a => k a | Err e => Done (Err e) end.
Notation "x ←? p ; k" := (try_prog p (λ x, k)) (at level 20, p at level 100, k at level 200).

(** ** The start *)

Definition has_flag (flag : string) (arguments : list string) : bool := existsb (λ a, bool_decide (a = flag)) arguments.

(** What follows the first [flag], when it is there. *)
Fixpoint after_flag (flag : string) (arguments : list string) : option (option string) :=
  match arguments with
  | [] => None
  | a :: rest => if bool_decide (a = flag) then Some (head rest) else after_flag flag rest
  end.

Definition MAIN_APP : string := "Local\FlowType.MainApp".
Definition preview_name (pid : Z) : string := "Local\FlowType.UiPreview." +:+ of_bytes (decimal pid).

(** [app/main.rs SingleInstance::acquire] *)
Definition SingleInstance_acquire (preview : bool) : Prog (result string bool) :=
  name ← (if preview then pid ← ask SysProcessId; mret (preview_name pid) else mret MAIN_APP);
  handle ← ask (SysCreateMutex name);
  match handle with
  | None => mret (Err "last error")
  | Some true => _ ← ask SysCloseMutex; mret (Ok false)
  | Some false => mret (Ok true)
  end.

(** The rest of [main] while [_instance] is there; it is dropped whatever the rest gives. *)
Definition holding_instance {A} (body : Prog A) : Prog A := r ← body; _ ← ask SysCloseMutex; mret r.

Fixpoint look_for_window (tries : nat) : Prog unit :=
  match tries with
  | O => mret tt
  | S tries =>
    hwnd ← ask SysFindWindow;
    match hwnd with
    | Some hwnd => ask (SysPostShow hwnd)
    | None => _ ← ask (SysSleep 50); look_for_window tries
    end
  end.

(** [app/ui.rs show_existing_window] *)
Definition show_existing_window : Prog unit := look_for_window 20.

(** [app/main.rs:372-396 main] *)
Definition new_state (english : bool) (identity : PcIdentity) (pairing_token : option string)
    (paired_phones : PairedPhoneStore) (file_transfers : Coordinator) : App :=
  set_pairing (mkPairing pairing_token paired_phones)
    (mkApp (mkAppState (pci_pc_id identity) (pci_pc_name identity) None ∅ ∅ None
              (mkStatus (tr english "等待手机连接" "Waiting for phone") None None None) 0 false 0 1)
       (mkPairing pairing_token paired_phones) file_transfers ∅).

(** [app/ui.rs UiContext::new] *)
Definition UiContext_new (page : Page) (floating_enabled : bool) (last : option (string * BatchState)) : UiContext :=
  mkUi page TabSend [] [] [] None None false floating_enabled false None last false [].

Definition preview_page (name : option string) : Page :=
  match name with
  | Some name =>
    if bool_decide (name = "files") then PageFiles else if bool_decide (name = "phones") then PagePhones
    else if bool_decide (name = "settings") then PageSettings else if bool_decide (name = "pairing") then PagePairing
    else PageStatus
  | None => PageStatus
  end.

(** [app/ui.rs run] *)
Definition run (english : bool) (host : string) (visible pairing_preview preview : bool) : Prog (result string unit) :=
  registered ← ask SysRegisterClass;
  if negb registered then mret (Err "last error")
  else
    (* the phones are looked at only when it matters *)
    unpaired ← (if pairing_preview then mret true
                else if visible && negb preview then
                  s ← ask SysSnapshot; mret (bool_decide (phones (paired_phones (ap_pairing s.1)) = ∅))
                else mret false);
    page ← (if unpaired : bool then mret PagePairing
            else if preview then name ← ask SysPreviewPage; mret (preview_page name)
            else mret PageStatus);
    s ← ask SysSnapshot;
    floating ← ask SysFloatingEnabled;
    created ← ask (SysCreateWindow (mkWorld (UiContext_new page floating s.2) s.1 english) host);
    if negb created then mret (Err "last error")
    else
      _ ← (if visible then ask SysShowWindow else mret tt);
      _ ← ask SysMessageLoop;
      mret (Ok tt).

(** What a start makes of its command line. *)
Record Flags := mkFlags {
  f_verify : option (option string); f_enable : bool; f_disable : bool;
  f_ui_preview : bool; f_pairing_preview : bool; f_show : bool;
}.
Definition flags_of (arguments : list string) : Flags :=
  mkFlags (after_flag "--verify-release-installer" arguments) (has_flag "--enable-auto-start" arguments)
    (has_flag "--disable-auto-start" arguments) (has_flag "--ui-preview" arguments)
    (has_flag "--ui-preview-pairing" arguments) (has_flag "--show" arguments).

(** A preview starts no network. *)
Definition is_preview (f : Flags) : bool := f_pairing_preview f || f_ui_preview f.

(** [app/main.rs:360-457 main] Once this is the only instance. *)
Definition main_instance (english : bool) (f : Flags) : Prog (result string unit) :=
  identity ←? ask SysLoadIdentity;
  paired_phones ←? ask SysLoadPhones;
  let first_run := bool_decide (phones paired_phones = ∅) in
  pairing_token ← (if first_run then token ← ask SysRandomToken; mret (Some token) else mret None);
  _ ← ask SysConnectInjector;
  host ← ask SysEndpointHost;
  endpoint_host ← (match host with
                   | Some host => mret host
                   | None => adapters ← ask SysAdapters; mret (ip_text (preferred_ipv4 adapters))
                   end);
  _ ←? ask SysStartUpdater;
  file_transfers ←? ask SysLoadTransfers;
  _ ← ask (SysShare (new_state english identity pairing_token paired_phones file_transfers));
  _ ←? (if is_preview f then mret (Ok tt) else ask SysSpawnNetwork);
  _ ← ask (SysLog "ui run");
  result ← run english endpoint_host (first_run || f_show f || f_pairing_preview f) (f_pairing_preview f) (f_ui_preview f);
  _ ← ask (SysLog (match result with Ok _ => "ui exit result=Ok(())" | Err e => "ui exit result=Err(" +:+ e +:+ ")" end));
  mret result.

(** [app/main.rs main] *)
Definition main (english : bool) (arguments : list string) : Prog (result string unit) :=
  let f := flags_of arguments in
  match f_verify f with
  | Some None => mret (Err "missing installer path for release verification")
  | Some (Some installer) =>
    r ← ask (SysVerifyInstaller installer);
    mret (map_err (λ error, "release installer verification failed: " +:+ error) r)
  | None =>
    _ ← ask (SysLog "startup");
    if f_enable f then ask (SysSetAutoStart true)
    else if f_disable f then ask (SysSetAutoStart false)
    else
      instance ←? SingleInstance_acquire (is_preview f);
      if negb instance then
        _ ← ask (SysLog "startup existing_instance");
        _ ← (if is_preview f then mret tt else show_existing_window);
        mret (Ok tt)
      else holding_instance (main_instance english f)
  end.

(** ** What a process holds *)

(** Its mutex with whether it made it; whether its network thread was started; the app
    and the window it has. *)
Record View := mkView {
  v_mutex : option (string * bool);
  v_network : bool;
  v_app : option App;
  v_window : option World;
}.
Definition nothing : View := mkView None false None None.

(** What a call that gives [b] changes. *)
Definition after {B} (c : Syscall B) : B → View → View :=
  match c in Syscall B return B → View → View with
  | SysCreateMutex name => λ b v,
    match b with Some existed => mkView (Some (name, negb existed)) (v_network v) (v_app v) (v_window v) | None => v end
  | SysCloseMutex => λ _ v, mkView None (v_network v) (v_app v) (v_window v)
  | SysShare ap => λ _ v, mkView (v_mutex v) (v_network v) (Some ap) (v_window v)
  | SysSpawnNetwork => λ b v, mkView (v_mutex v) (v_network v || is_ok b) (v_app v) (v_window v)
  | SysSnapshot => λ b v, mkView (v_mutex v) (v_network v) (Some b.1) (v_window v)
  | SysCreateWindow w _ => λ b v, mkView (v_mutex v) (v_network v) (v_app v) (if b : bool then Some w else None)
  (* the loop ends when the window is destroyed *)
  | SysMessageLoop => λ _ v, mkView (v_mutex v) (v_network v) (v_app v) None
  | _ => λ _ v, v
  end.

(** What other threads make of the app while no code was shown: they make no code, and
    pair a phone only by using the code up; one that was taken while nobody is paired may be
    put back. *)
Record app_before_window (ap ap' : App) : Prop := {
  bw_pc_id : pc_id (ap_state ap') = pc_id (ap_state ap);
  bw_code : pairing_token (ap_pairing ap') ≠ None →
    phones (paired_phones (ap_pairing ap')) = phones (paired_phones (ap_pairing ap)) ∧
    (pairing_token (ap_pairing ap') = pairing_token (ap_pairing ap)
     ∨ pairing_token (ap_pairing ap) = None ∧ phones (paired_phones (ap_pairing ap)) = ∅);
}.

(** The answers there can be. *)
Definition answers {B} (pid : Z) (c : Syscall B) (v : View) : B → Prop :=
  match c in Syscall B return B → Prop with
  | SysProcessId => λ b, b = pid
  | SysSnapshot => λ b, ∀ ap, v_app v = Some ap → app_before_window ap b.1
  | _ => λ _, True
  end.

(** ** The processes of a session *)

Record Process := mkProcess { pr_flags : Flags; pr_program : Prog (result string unit); pr_view : View }.

(** [holds name p]: the process has a handle of the mutex. *)
Definition holds (name : string) (p : Process) : bool :=
  match v_mutex (pr_view p) with Some (n, _) => bool_decide (n = name) | None => false end.

(** What an answer says of the other processes: a mutex exists as long as one of them
    holds it; a window is found when there is one. *)
Definition possible {B} (procs : gmap Z Process) (c : Syscall B) : B → Prop :=
  match c in Syscall B return B → Prop with
  | SysCreateMutex name => λ b, ∀ existed, b = Some existed → existed = existsb (λ p, holds name p.2) (map_to_list procs)
  | SysFindWindow => λ b, match b with
                          | Some hwnd => ∃ p, procs !! hwnd = Some p ∧ is_Some (v_window (pr_view p))
                          | None => map_Forall (λ _ p, v_window (pr_view p) = None) procs
                          end
  | _ => λ _, True
  end.

Inductive session_step : gmap Z Process → gmap Z Process → Prop :=
| starts procs pid english arguments :
    0 ≤ pid ≤ U32_MAX → procs !! pid = None →
    session_step procs (<[pid := mkProcess (flags_of arguments) (main english arguments) nothing]> procs)
| calls procs pid f B (c : Syscall B) k v b :
    procs !! pid = Some (mkProcess f (Ask c k) v) → answers pid c v b → possible procs c b →
    session_step procs (<[pid := mkProcess f (k b) (after c b v)]> procs)
(* it has returned, or it is killed *)
| ends procs pid p : procs !! pid = Some p → session_step procs (delete pid procs).

Definition session_reachable (procs : gmap Z Process) : Prop := star session_step ∅ procs.
