(* ===== verification/StartupSafety.v ===== *)
(** * The start of the app: its properties

    What a process of the app may call and when; the processes of a session keep out of
    each other's way; and the window that a start makes. *)

From S2P Require Import Prelude Text Protocol FileNames FileCore Disk Store SampleStore Targets Coordinator SampleCoordinator Outbound Pairing Update AppState Addresses AppActions Settings Identity Layout Pages Window WindowSafety SampleWindow Startup.
Local Open Scope string_scope.
Local Open Scope list_scope.
Local Open Scope Z_scope.

(** ** What a program may call, and when *)

Definition owner (v : View) : Prop := ∃ name, v_mutex v = Some (name, true).

(** A window whose first message finds no code it does not show. *)
Definition may_create (f : Flags) (w : World) : Prop :=
  is_preview f = true ∨ pairing_token (ap_pairing (w_app w)) = None ∨ ui_page (w_ui w) = PagePairing.

Definition allowed {B} (pid : Z) (f : Flags) (c : Syscall B) (v : View) : Prop :=
  match c with
  | SysCreateMutex name => v_mutex v = None ∧ v_network v = false ∧
                           name = (if is_preview f then preview_name pid else MAIN_APP)
  | SysSpawnNetwork => v_mutex v = Some (MAIN_APP, true) ∧ is_preview f = false
  | SysSetAutoStart _ | SysVerifyInstaller _ | SysFindWindow | SysPostShow _ => v_mutex v = None ∧ v_network v = false ∧ v_window v = None
  | SysLoadIdentity | SysLoadPhones | SysLoadTransfers | SysStartUpdater | SysShare _ | SysSnapshot => owner v
  | SysCreateWindow w _ => owner v ∧ may_create f w
  | SysCloseMutex => v_window v = None ∧ is_Some (v_mutex v)
  | _ => True
  end.

(** [respects pid f p Q v]: from [v] on the program makes only calls that are allowed, and
    ends with [Q]. *)
Fixpoint respects {A} (pid : Z) (f : Flags) (p : Prog A) (Q : A → View → Prop) (v : View) : Prop :=
  match p with
  | Done a => Q a v
  | Ask c k => allowed pid f c v ∧
    ∀ b, answers pid c v b → respects pid f (k b) Q (after c b v)
  end.

Section rules.
Context (pid : Z) (f : Flags).
Notation respects := (respects pid f).

Lemma respects_bind {A B} (p : Prog A) (k : A → Prog B) Q v :
  respects p (λ a, respects (k a) Q) v → respects (a ← p; k a) Q v.
Proof.
  revert v. induction p as [a | C c m IH]; intros v; [done |]. intros [Hc Hm]. split; [done |].
  intros b Hb. by apply IH, Hm.
Qed.

Lemma respects_try {A B} (p : Prog (result string A)) (k : A → Prog (result string B)) Q v :
  respects p (λ r, match r with Ok a => respects (k a) Q | Err e => Q (Err e) end) v → respects (try_prog p k) Q v.
Proof.
  intros Hp. apply respects_bind. revert v Hp. induction p as [r | C c m IH]; intros v; cbn; [by destruct r |].
  intros [Hc Hm]. split; [done |]. intros b Hb. by apply IH, Hm.
Qed.

Lemma respects_mono {A} (p : Prog A) (Q R : A → View → Prop) v :
  (∀ a v, Q a v → R a v) → respects p Q v → respects p R v.
Proof.
  intros HQ. revert v. induction p as [a | C c m IH]; intros v; cbn; [apply HQ |].
  intros [Hc Hm]. split; [done |]. intros b Hb. by apply IH, Hm.
Qed.

Lemma respects_ask {B} (c : Syscall B) (Q : B → View → Prop) v :
  allowed pid f c v → (∀ b, answers pid c v b → Q b (after c b v)) → respects (ask c) Q v.
Proof. by split. Qed.

(** The instance that [f] asks for. *)
Definition instance_name : string := if is_preview f then preview_name pid else MAIN_APP.

Lemma acquire_respects (Q : result string bool → View → Prop) :
  Q (Err "last error") nothing → Q (Ok false) nothing → Q (Ok true) (mkView (Some (instance_name, true)) false None None) →
  respects (SingleInstance_acquire (is_preview f)) Q nothing.
Proof.
  intros H1 H2 H3. apply respects_bind.
  assert (respects (handle ← ask (SysCreateMutex instance_name);
    match handle with None => mret (Err "last error") | Some true => _ ← ask SysCloseMutex; mret (Ok false) | Some false => mret (Ok true) end) Q nothing) as Hrest.
  { apply respects_bind, respects_ask; [by cbn; split_and! |]. intros [[|] |] _; [| done | done].
    apply respects_bind, respects_ask; [split; [done | by eexists] |]. done. }
  unfold instance_name in Hrest. destruct (is_preview f); [| done].
  apply respects_bind, respects_ask; [done |]. by intros _ ->.
Qed.

Lemma look_respects tries v (Q : unit → View → Prop) :
  v_mutex v = None → v_network v = false → v_window v = None → Q () v → respects (look_for_window tries) Q v.
Proof.
  intros Hm Hn Hw HQ. induction tries as [|tries IH]; [done |]. cbn [look_for_window]. apply respects_bind, respects_ask; [by cbn |].
  intros [hwnd |] _; [by apply respects_ask; [cbn | intros []] |]. by apply respects_bind, respects_ask.
Qed.

Notation token_of ap := (pairing_token (ap_pairing ap)).
Notation phones_of ap := (phones (paired_phones (ap_pairing ap))).

#[export] Instance app_before_window_refl : Reflexive app_before_window.
Proof. split; [done |]. auto. Qed.

(** Where somebody is paired and there is no code, there will be none. *)
Lemma no_code_stays ap ap' :
  app_before_window ap ap' → token_of ap = None → phones_of ap ≠ ∅ → token_of ap' = None.
Proof.
  intros [_ Hcode] Hn Hp. destruct (token_of ap') eqn:Ht; [| done]. exfalso.
  destruct Hcode as (_ & [Hsame | [_ ?]]); [done | congruence | done].
Qed.

(** A code that is there after the phones were looked at: none was paired then. *)
Lemma code_means_unpaired ap ap1 ap2 :
  app_before_window ap ap1 → app_before_window ap1 ap2 → phones_of ap = ∅ → token_of ap2 ≠ None → phones_of ap1 = ∅.
Proof.
  intros [_ H1] [_ H2] Hp Ht. destruct (H2 Ht) as (_ & [Hsame | [_ ?]]); [| done].
  destruct H1 as [-> _]; [congruence | done].
Qed.

(** Creating the window of this instance: the page is the pairing page, or there is no code. *)
Lemma run_respects english host visible pairing_preview v ap :
  owner v → v_app v = Some ap → v_window v = None →
  (is_preview f = false → pairing_preview = false ∧ f_ui_preview f = false
     ∧ (token_of ap = None ∧ phones_of ap ≠ ∅ ∨ visible = true ∧ phones_of ap = ∅)) →
  respects (run english host visible pairing_preview (f_ui_preview f)) (λ _ v', v_mutex v' = v_mutex v ∧ v_window v' = None) v.
Proof.
  intros Hown Hap Hw Hcode. apply respects_bind, respects_ask; [done |]. intros [|] _; [| done]. cbn [negb].
  (* the rest, once the page is chosen from what was seen *)
  assert (∀ page v1 ap1, v_mutex v1 = v_mutex v → v_window v1 = None → v_app v1 = Some ap1 →
    (is_preview f = false → page ≠ PagePairing → ∀ ap2, app_before_window ap1 ap2 → token_of ap2 = None) →
    respects (s ← ask SysSnapshot; floating ← ask SysFloatingEnabled;
      created ← ask (SysCreateWindow (mkWorld (UiContext_new page floating s.2) s.1 english) host);
      if negb created then mret (Err "last error")
      else _ ← (if visible then ask SysShowWindow else mret tt); _ ← ask SysMessageLoop; mret (Ok tt))
      (λ _ v', v_mutex v' = v_mutex v ∧ v_window v' = None) v1) as Hrest.
  { intros page v1 ap1 Hm1 Hw1 Hap1 Hpage. assert (owner v1) as Hown1 by (destruct Hown as [n Hn]; exists n; congruence).
    apply respects_bind, respects_ask; [done |]. intros [ap2 last] Hs. cbn in Hs. specialize (Hs ap1 Hap1).
    apply respects_bind, respects_ask; [done |]. intros floating _.
    apply respects_bind, respects_ask.
    { split; [done |]. unfold may_create. cbn. destruct (is_preview f); [by left | right].
      destruct (decide (page = PagePairing)) as [| Hne]; [by right | left; by apply Hpage]. }
    intros [|] _; [| done]. cbn [negb]. apply respects_bind. destruct visible; [apply respects_ask; [done | intros [] _] |];
      (apply respects_bind, respects_ask; [done | by intros [] _]). }
  apply respects_bind. destruct pairing_preview.
  { apply respects_bind. apply (Hrest _ _ ap); [done.. |]. intros [? _]%Hcode. done. }
  destruct (visible && negb (f_ui_preview f)) eqn:Hlook.
  - apply respects_bind, respects_ask; [done |]. intros [ap1 last] Hs. specialize (Hs ap Hap). cbn in Hs.
    apply andb_true_iff in Hlook as [-> Hnp]. apply negb_true_iff in Hnp.
    case_bool_decide as Hempty; apply respects_bind; rewrite ?Hnp; (apply (Hrest _ _ ap1); [done | done | done |]); [done |].
    intros Hp _ ap2 H2. destruct (Hcode Hp) as (_ & _ & [[Hnone Hpaired] | [_ Hunpaired]]).
    + pose proof (no_code_stays ap ap1 Hs Hnone Hpaired) as Hn1. by apply (no_code_stays ap1 ap2 H2).
    + destruct (token_of ap2) eqn:Ht2; [| done]. destruct Hempty. apply (code_means_unpaired ap ap1 ap2 Hs H2 Hunpaired). congruence.
  - apply respects_bind. destruct (f_ui_preview f) eqn:Hup.
    + apply respects_bind, respects_ask; [done |]. intros name _. apply (Hrest _ _ ap); [done.. |].
      intros Hp. unfold is_preview in Hp. rewrite Hup, orb_true_r in Hp. discriminate.
    + apply (Hrest _ _ ap); [done.. |]. intros Hp _ ap2 H2.
      destruct (Hcode Hp) as (_ & _ & [[Hnone Hpaired] | [-> _]]); [by apply (no_code_stays ap ap2) | discriminate].
Qed.

Notation started := (mkView (Some (instance_name, true)) false None None).

Lemma main_instance_respects english :
  respects (main_instance english f) (λ _ v, v_mutex v = v_mutex started ∧ v_window v = None) started.
Proof.
  assert (owner started) as Hown by by eexists.
  apply respects_try, respects_ask; [done |]. intros [identity | e] _; [| done].
  apply respects_try, respects_ask; [done |]. intros [paired_phones | e] _; [| done]. set (first_run := bool_decide _).
  assert (∀ token, (token = None ∧ first_run = false ∨ first_run = true) → respects (
    _ ← ask SysConnectInjector; host ← ask SysEndpointHost;
    endpoint_host ← (match host with
                     | Some host => mret host
                     | None => adapters ← ask SysAdapters; mret (ip_text (preferred_ipv4 adapters))
                     end);
    _ ←? ask SysStartUpdater;
    file_transfers ←? ask SysLoadTransfers;
    _ ← ask (SysShare (new_state english identity token paired_phones file_transfers));
    _ ←? (if is_preview f then mret (Ok tt) else ask SysSpawnNetwork);
    _ ← ask (SysLog "ui run");
    result ← run english endpoint_host (first_run || f_show f || f_pairing_preview f) (f_pairing_preview f) (f_ui_preview f);
    _ ← ask (SysLog (match result with Ok _ => "ui exit result=Ok(())" | Err e => "ui exit result=Err(" +:+ e +:+ ")" end));
    mret result) (λ _ v, v_mutex v = v_mutex started ∧ v_window v = None) started) as Hrest.
  { intros token Htoken. apply respects_bind, respects_ask; [done |]. intros ready _. apply respects_bind, respects_ask; [done |].
    intros host _. apply respects_bind. destruct host as [host |]; [| apply respects_bind, respects_ask; [done |]; intros adapters _];
    (apply respects_try, respects_ask; [done |]; intros [u | e] _; [| done];
     apply respects_try, respects_ask; [done |]; intros [transfers | e] _; [| done];
     apply respects_bind, respects_ask; [done |]; intros [] _; apply respects_try;
     set (v1 := after (SysShare _) () _)).
    all: assert (∀ n host, respects (_ ← ask (SysLog "ui run");
      result ← run english host (first_run || f_show f || f_pairing_preview f) (f_pairing_preview f) (f_ui_preview f);
      _ ← ask (SysLog (match result with Ok _ => "ui exit result=Ok(())" | Err e => "ui exit result=Err(" +:+ e +:+ ")" end));
      mret result) (λ _ v, v_mutex v = v_mutex started ∧ v_window v = None)
      (mkView (Some (instance_name, true)) n (Some (new_state english identity token paired_phones transfers)) None)) as Hrun.
    1, 3: intros n host'; apply respects_bind, respects_ask; [done |]; intros [] _; apply respects_bind;
      eapply respects_mono; [| eapply run_respects; [by eexists | done | done |]];
      [intros r v [Hm Hw]; apply respects_bind, respects_ask; [done |]; by intros [] _ |];
      intros Hp; unfold is_preview in Hp; apply orb_false_iff in Hp as [-> ->]; split_and!; [done | done |];
      destruct Htoken as [[-> Hfirst] | Hfirst]; [left; split; [done |]; by apply bool_decide_eq_false in Hfirst
        | right; rewrite Hfirst; split; [done |]; by apply bool_decide_eq_true in Hfirst].
    all: destruct (is_preview f) eqn:Hp; [exact (Hrun false _) |]; apply respects_ask;
      [by unfold v1, instance_name; cbn; rewrite Hp |]; intros [[] | e] _; [exact (Hrun true _) | done]. }
  apply respects_bind. destruct first_run eqn:Hfirst; [| exact (Hrest None (or_introl (conj eq_refl eq_refl)))].
  apply respects_bind, respects_ask; [done |]. intros token _. apply (Hrest (Some token)). by right.
Qed.

Lemma holding_respects {A} (body : Prog A) v :
  respects body (λ _ v', is_Some (v_mutex v') ∧ v_window v' = None) v →
  respects (holding_instance body) (λ _ v', v_mutex v' = None ∧ v_window v' = None) v.
Proof.
  intros Hbody. apply respects_bind. eapply respects_mono; [| exact Hbody]. intros a v' [Hm Hw].
  apply respects_bind, respects_ask; [done |]. intros [] _. done.
Qed.
End rules.

Lemma main_respects pid english arguments :
  respects pid (flags_of arguments) (main english arguments) (λ _ v, v_mutex v = None ∧ v_window v = None) nothing.
Proof.
  unfold main. set (f := flags_of arguments). destruct (f_verify f) as [[installer |] |]; [| done |].
  { by apply respects_bind, respects_ask. }
  apply respects_bind, respects_ask; [done |]. intros [] _. destruct (f_enable f); [by apply respects_ask |].
  destruct (f_disable f); [by apply respects_ask |]. apply respects_try, acquire_respects; [done | |].
  - apply respects_bind, respects_ask; [done |]. intros [] _. apply respects_bind.
    destruct (is_preview f); [done | by apply look_respects].
  - apply holding_respects. eapply respects_mono; [| apply main_instance_respects]. intros r v [-> ->]. split; [by eexists | done].
Qed.

(** ** What holds of the processes of a session *)

(** What a process has fits how it was started. *)
Record view_ok (pid : Z) (f : Flags) (v : View) : Prop := {
  vo_name name made : v_mutex v = Some (name, made) → name = instance_name pid f;
  vo_network : v_network v = true → is_preview f = false ∧ (v_mutex v = None ∨ v_mutex v = Some (MAIN_APP, true));
  vo_window w : v_window v = Some w → owner v ∧ may_create f w;
}.

Lemma nothing_ok pid f : view_ok pid f nothing.
Proof. by split. Qed.

Lemma after_ok {B} pid f (c : Syscall B) v b :
  allowed pid f c v → view_ok pid f v → view_ok pid f (after c b v).
Proof.
  intros Hc [Hname Hnet Hwin]. destruct c; cbn in Hc |- *; try (by split).
  - destruct b as [existed |]; [| by split]. destruct Hc as (Hm & Hn & ->). split; cbn.
    + by intros n made [= <- <-].
    + congruence.
    + intros w Hw. destruct (Hwin w Hw) as [[n Hn'] _]. congruence.
  - destruct Hc as [Hw _]. split; cbn; [done | | congruence]. intros Hn. destruct (Hnet Hn). auto.
  - destruct Hc as [Hm Hp]. split; cbn; [done | | done]. intros _. by rewrite Hm; auto.
  - destruct Hc as [Hown Hmay]. split; cbn; [done | done |]. destruct b; [by intros w' [= <-] | done].
Qed.

Record process_ok (pid : Z) (p : Process) : Prop := {
  po_pid : 0 ≤ pid ≤ U32_MAX;
  po_program : respects pid (pr_flags p) (pr_program p) (λ _ v, v_mutex v = None ∧ v_window v = None) (pr_view p);
  po_view : view_ok pid (pr_flags p) (pr_view p);
}.

(** [one_owner procs]: a mutex is made by one of the processes that hold it. *)
Definition one_owner (procs : gmap Z Process) : Prop :=
  ∀ p1 p2 P1 P2 name, procs !! p1 = Some P1 → procs !! p2 = Some P2 →
  v_mutex (pr_view P1) = Some (name, true) → v_mutex (pr_view P2) = Some (name, true) → p1 = p2.

Lemma held_exists (procs : gmap Z Process) pid P name made :
  procs !! pid = Some P → v_mutex (pr_view P) = Some (name, made) →
  existsb (λ p, holds name p.2) (map_to_list procs) = true.
Proof.
  intros HP Hm. apply existsb_exists. exists (pid, P). split.
  - by apply list_elem_of_In, elem_of_map_to_list.
  - cbn. unfold holds. rewrite Hm. by apply bool_decide_eq_true.
Qed.

Lemma held_by_none (procs : gmap Z Process) name :
  map_Forall (λ _ p, holds name p = false) procs → existsb (λ p, holds name p.2) (map_to_list procs) = false.
Proof.
  intros Hnone. apply not_true_iff_false. intros ([pid P] & Hin & Hh)%existsb_exists.
  apply list_elem_of_In, elem_of_map_to_list in Hin. specialize (Hnone pid P Hin). cbn in *. congruence.
Qed.

(** A call changes whose a mutex is only by making one that nobody holds. *)
Lemma after_mutex {B} (c : Syscall B) b v (procs : gmap Z Process) name :
  possible procs c b → v_mutex (after c b v) = Some (name, true) →
  v_mutex v = Some (name, true) ∨ existsb (λ p, holds name p.2) (map_to_list procs) = false.
Proof.
  destruct c; cbn; try (by auto). destruct b as [existed |]; cbn; [| by auto].
  intros Hp [= -> Hmade]. right. rewrite <- (Hp existed eq_refl). by destruct existed.
Qed.

Lemma session_invariant procs : session_reachable procs → map_Forall process_ok procs ∧ one_owner procs.
Proof.
  intros Hr. unfold session_reachable in Hr.
  assert (∀ procs0, star session_step procs0 procs → map_Forall process_ok procs0 ∧ one_owner procs0 →
    map_Forall process_ok procs ∧ one_owner procs) as Hstar; [| apply (Hstar ∅ Hr); split; [apply map_Forall_empty | by intros p1 p2 P1 P2 name H]].
  clear Hr. induction 1 as [s | s t u Hstep _ IH]; [done |]. intros [Hok Hone]. apply IH. clear IH.
  destruct Hstep as [procs1 pid english arguments Hpid Hnew | procs1 pid f B c k v b Hp Ha Hposs | procs1 pid P HP].
  - split; [apply map_Forall_insert_2; [| done]; split; [done | apply main_respects | apply nothing_ok] |].
    intros p1 p2 P1 P2 name [[<- <-] | [? ?]]%lookup_insert_Some [[<- <-] | [? ?]]%lookup_insert_Some; [done.. |]. by apply Hone.
  - destruct (Hok pid _ Hp) as [Hpid [Hallowed Hk] Hv]. cbn in Hallowed, Hk, Hv.
    split; [apply map_Forall_insert_2; [| done]; split; [done | by apply Hk | by apply after_ok] |].
    assert (∀ p2 P2 name, p2 ≠ pid → procs1 !! p2 = Some P2 → v_mutex (pr_view P2) = Some (name, true) →
      v_mutex (after c b v) = Some (name, true) → False) as Hother.
    { intros p2 P2 name Hne HP2 Hm2 Hm. destruct (after_mutex c b v procs1 name Hposs Hm) as [Hm1 | Hfree].
      - apply Hne. by apply (Hone p2 pid _ _ name HP2 Hp).
      - rewrite (held_exists _ _ _ _ _ HP2 Hm2) in Hfree. discriminate. }
    intros p1 p2 P1 P2 name [[<- <-] | [? ?]]%lookup_insert_Some [[<- <-] | [? ?]]%lookup_insert_Some; cbn; intros Hm1 Hm2;
      [done | exfalso; eauto | exfalso; eauto | by apply (Hone p1 p2 P1 P2 name)].
  - split; [by apply map_Forall_delete |]. intros p1 p2 P1 P2 name [_ Hp1]%lookup_delete_Some [_ Hp2]%lookup_delete_Some. by apply Hone.
Qed.


(** The instance of a preview is its own: its start never finds another. *)
Lemma preview_is_never_refused procs pid P B (c : Syscall B) k name b :
  session_reachable procs → procs !! pid = Some P → pr_program P = Ask c k → is_preview (pr_flags P) = true →
  match c in Syscall B return B → Prop with SysCreateMutex n => λ b, n = name ∧ b = Some true | _ => λ _, False end b →
  possible procs c b → False.
Proof.
  intros Hr HP Hprog Hp Hb Hposs. destruct (session_invariant procs Hr) as [Hok _].
  destruct (Hok pid P HP) as [Hpid Hresp _]. rewrite Hprog in Hresp. destruct Hresp as [Hallowed _].
  destruct c; try contradiction. destruct Hb as [-> ->], Hallowed as (Hm & _ & Hname). rewrite Hp in Hname.
  pose proof (Hposs true eq_refl) as Hheld. symmetry in Hheld. apply existsb_exists in Hheld as ([q Q] & Hin & Hholds).
  apply list_elem_of_In, elem_of_map_to_list in Hin. destruct (Hok q Q Hin) as [Hq _ [Hqname _ _]].
  cbn in Hholds. unfold holds in Hholds. destruct (v_mutex (pr_view Q)) as [[n made] |] eqn:HQ; [| discriminate].
  apply bool_decide_eq_true in Hholds as ->. specialize (Hqname _ _ eq_refl). subst name. unfold instance_name in Hqname.
  assert (pid = q) as ->; [| congruence].
  destruct (is_preview (pr_flags Q)); [| discriminate].
  unfold preview_name in Hqname.
  assert (∀ n, 0 ≤ n ≤ U32_MAX → bytes_of (of_bytes (decimal n)) = decimal n) as Hback.
  { intros n Hn. apply bytes_of_of_bytes. destruct (decimal_spec n) as (_ & Hd & _); [unfold U32_MAX in Hn; lia |].
    eapply Forall_impl; [exact Hd |]. intros d. unfold is_ascii_digit, byte_ok. lia. }
  apply (f_equal bytes_of) in Hqname. rewrite !bytes_of_app, !Hback in Hqname by done.
  apply app_inv_head in Hqname. apply decimal_inj; [unfold U32_MAX in *; lia.. | done].
Qed.

(** ** From the start a code that can be used is on show *)

Section shown.
Context `{CoordinatorEnv} (post_ok : bool) (payload_to_vec : PairingPayload → option (list Z)) (spki_sha256 : string).
Context (qr_code_of : string → option (Z * list bool)).
Hypothesis payload_written : ∀ payload, is_Some (payload_to_vec payload).

(** C11. (refinement) Also when the app starts with a pairing code because no phone is
    paired: in every session the window of a process that is no preview starts as one of
    which [WindowSafety] speaks, so that after any messages, and whatever the rest of the
    app did, phones that use the code at the same time included, a code that can be used is
    the one on show on the pairing page; but for a code that a phone has used and that was
    put back because the phone could not be saved. *)
Theorem code_is_on_show_from_the_start procs pid P w an claimed wt token :
  session_reachable procs → procs !! pid = Some P → is_preview (pr_flags P) = false → v_window (pr_view P) = Some w →
  answers_ok qr_code_of an →
  star (window_step post_ok payload_to_vec spki_sha256 qr_code_of (λ _ _, True))
    (mkWatched (window_proc post_ok payload_to_vec spki_sha256 an WmCreate w) claimed []) wt →
  pairing_token (ap_pairing (w_app (wt_world wt))) = Some token →
  token ∈ wt_returned wt ∨
  ui_page (w_ui (wt_world wt)) = PagePairing ∧
  ∃ pc_name host adapters uri,
    pairing_uri payload_to_vec base64_url (pc_id (ap_state (w_app (wt_world wt)))) spki_sha256 pc_name host token adapters = Ok uri ∧
    ui_qr (w_ui (wt_world wt)) = qr_code_of uri.
Proof.
  intros Hr HP Hp Hw Han Hstar Htoken. destruct (session_invariant procs Hr) as [Hok _].
  destruct (Hok pid P HP) as [_ _ [_ _ Hwin]]. destruct (Hwin w Hw) as [_ [Hpreview | Hcode]]; [congruence |].
  assert (window_reachable post_ok payload_to_vec spki_sha256 qr_code_of (λ _ _, True) wt) as Hreach.
  { assert (window_reachable post_ok payload_to_vec spki_sha256 qr_code_of (λ _ _, True)
      (mkWatched (window_proc post_ok payload_to_vec spki_sha256 an WmCreate w) claimed [])) as H0
      by (apply window_created; [done | done | by intros ? ?]).
    clear -Hstar H0. induction Hstar; [done |]. apply IHHstar. by eapply window_goes_on. }
  destruct (decide (token ∈ wt_returned wt)) as [| Hr']; [by left | right].
  by apply (reachable_truthful post_ok payload_to_vec spki_sha256 qr_code_of (λ _ _, True) payload_written wt Hreach).
Qed.
End shown.

(** ** A start while the app ends *)

(** A process runs alone for a while. *)
Inductive solo (procs : gmap Z Process) (pid : Z) (A : Type) : Prog A → View → Prog A → View → Prop :=
| solo_stays p v : solo procs pid A p v p v
| solo_calls B (c : Syscall B) k v b p v' :
    answers pid c v b → (∀ P, pr_view P = v → possible (<[pid := P]> procs) c b) →
    solo procs pid A (k b) (after c b v) p v' → solo procs pid A (Ask c k) v p v'.

Lemma solo_steps procs pid f p v p' v' :
  solo procs pid (result string unit) p v p' v' →
  star session_step (<[pid := mkProcess f p v]> procs) (<[pid := mkProcess f p' v']> procs).
Proof.
  induction 1 as [p v | B c k v b p v' Ha Hp _ IH]; [apply star_refl |]. eapply star_step; [| exact IH].
  rewrite <- (insert_insert_eq procs pid (mkProcess f (k b) (after c b v)) (mkProcess f (Ask c k) v)).
  apply calls; [by rewrite lookup_insert_eq | done | by apply Hp].
Qed.

Lemma solo_bind procs pid A B (p : Prog A) (q : A → Prog B) v v1 a p' v' :
  solo procs pid A p v (Done a) v1 → solo procs pid B (q a) v1 p' v' → solo procs pid B (a ← p; q a) v p' v'.
Proof.
  intros Hp Hq. remember (Done a) as d eqn:Hd. induction Hp as [p v | C c k v b p v1 Ha Hposs _ IH]; subst.
  - done.
  - eapply solo_calls; [done | done | by apply IH].
Qed.

Lemma solo_looks_in_vain procs pid tries v :
  v_window v = None → map_Forall (λ _ p, v_window (pr_view p) = None) procs →
  solo procs pid unit (look_for_window tries) v (Done tt) v.
Proof.
  intros Hv Hprocs. induction tries as [|tries IH]; [apply solo_stays |]. eapply (solo_calls _ _ _ _ SysFindWindow _ _ None); [done | |].
  - intros P HP. cbn. apply map_Forall_insert_2; [congruence | done].
  - by eapply (solo_calls _ _ _ _ (SysSleep 50) _ _ tt).
Qed.

(** The window of the app is gone but its process has not ended: a start finds its mutex,
    looks for the window in vain, and ends as if all was well; then nobody runs. *)
Lemma start_during_the_end_is_lost pid1 P1 pid2 :
  v_mutex (pr_view P1) = Some (MAIN_APP, true) → v_window (pr_view P1) = None → pid1 ≠ pid2 → 0 ≤ pid2 ≤ U32_MAX →
  ∃ procs, star session_step {[ pid1 := P1 ]} procs ∧
    procs !! pid2 = Some (mkProcess (flags_of ["flowtype.exe"]) (Done (Ok tt)) nothing) ∧
    star session_step procs ∅.
Proof.
  intros Hm Hw Hne Hpid. exists (<[pid2 := mkProcess (flags_of ["flowtype.exe"]) (Done (Ok tt)) nothing]> {[ pid1 := P1 ]}).
  split; [| split; [by rewrite lookup_insert_eq |]].
  - eapply star_step; [apply (starts _ pid2 true ["flowtype.exe"]); [done | by rewrite lookup_singleton_ne] |].
    apply solo_steps. eapply (solo_calls _ _ _ _ (SysLog "startup") _ _ tt); [done | done |].
    eapply (solo_calls _ _ _ _ (SysCreateMutex MAIN_APP) _ _ (Some true)); [done | |].
    { intros P HP existed [= <-]. symmetry. eapply (held_exists _ pid1 P1); [| done]. by rewrite lookup_insert_ne, lookup_singleton_eq. }
    eapply (solo_calls _ _ _ _ SysCloseMutex _ _ tt); [done | done |].
    eapply (solo_calls _ _ _ _ (SysLog "startup existing_instance") _ _ tt); [done | done |].
    eapply solo_bind; [apply solo_looks_in_vain; [done | by apply map_Forall_singleton] | apply solo_stays].
  - eapply star_step; [eapply (ends _ pid2); by rewrite lookup_insert_eq |]. rewrite delete_insert_id by by rewrite lookup_singleton_ne.
    eapply star_step; [eapply (ends _ pid1); by rewrite lookup_singleton_eq |]. rewrite delete_singleton_eq. apply star_refl.
Qed.

(** ** A session *)

Definition first_app : App :=
  new_state true (mkPcIdentity "pc" "desk" [] [] "spki") (Some "first") (mkPhoneStore ∅ ∅) (sample_coordinator quiet_disk).
Definition first_window : World := mkWorld (UiContext_new PagePairing true None) first_app true.

(** The first start, on a computer with no phone, up to its window. *)
Lemma first_start p2 P2 :
  p2 ≠ 7 → v_mutex (pr_view P2) = None → 
  ∃ k, star session_step {[ p2 := P2 ]} (<[7 := mkProcess (flags_of ["flowtype.exe"]) k
    (mkView (Some (MAIN_APP, true)) true (Some first_app) (Some first_window))]> {[ p2 := P2 ]}).
Proof.
  intros Hne Hm. eexists. eapply star_step; [apply (starts _ 7 true ["flowtype.exe"]); [done | by rewrite lookup_singleton_ne] |].
  apply solo_steps.
  eapply (solo_calls _ _ _ _ (SysLog "startup") _ _ tt); [done | done |].
  eapply (solo_calls _ _ _ _ (SysCreateMutex MAIN_APP) _ _ (Some false)); [done | |].
  { intros P HP existed [= <-]. symmetry. apply held_by_none. unfold holds.
    apply map_Forall_insert_2; [by rewrite HP | apply map_Forall_singleton; by rewrite Hm]. }
  eapply (solo_calls _ _ _ _ SysLoadIdentity _ _ (Ok (mkPcIdentity "pc" "desk" [] [] "spki"))); [done | done |].
  eapply (solo_calls _ _ _ _ SysLoadPhones _ _ (Ok (mkPhoneStore ∅ ∅))); [done | done |].
  eapply (solo_calls _ _ _ _ SysRandomToken _ _ "first"); [done | done |].
  eapply (solo_calls _ _ _ _ SysConnectInjector _ _ true); [done | done |].
  eapply (solo_calls _ _ _ _ SysEndpointHost _ _ None); [done | done |].
  eapply (solo_calls _ _ _ _ SysAdapters _ _ []); [done | done |].
  eapply (solo_calls _ _ _ _ SysStartUpdater _ _ (Ok tt)); [done | done |].
  eapply (solo_calls _ _ _ _ SysLoadTransfers _ _ (Ok (sample_coordinator quiet_disk))); [done | done |].
  eapply (solo_calls _ _ _ _ (SysShare first_app) _ _ tt); [done | done |].
  eapply (solo_calls _ _ _ _ SysSpawnNetwork _ _ (Ok tt)); [done | done |].
  eapply (solo_calls _ _ _ _ (SysLog "ui run") _ _ tt); [done | done |].
  eapply (solo_calls _ _ _ _ SysRegisterClass _ _ true); [done | done |].
  eapply (solo_calls _ _ _ _ SysSnapshot _ _ (first_app, None)); [by intros ap [= <-] | done |].
  eapply (solo_calls _ _ _ _ SysSnapshot _ _ (first_app, None)); [by intros ap [= <-] | done |].
  eapply (solo_calls _ _ _ _ SysFloatingEnabled _ _ true); [done | done |].
  eapply (solo_calls _ _ _ _ (SysCreateWindow first_window _) _ _ true); [done | done |].
  apply solo_stays.
Qed.

Definition first_process (k : Prog (result string unit)) : Process :=
  mkProcess (flags_of ["flowtype.exe"]) k (mkView (Some (MAIN_APP, true)) true (Some first_app) (Some first_window)).
Definition preview_arguments : list string := ["flowtype.exe"; "--ui-preview"].
Definition preview_process : Process := mkProcess (flags_of preview_arguments) (main true preview_arguments) nothing.

(** A preview was started before it. *)
Lemma sample_session : ∃ k, session_reachable (<[7 := first_process k]> {[ 8 := preview_process ]}).
Proof.
  destruct (first_start 8 preview_process) as [k Hk]; [done.. |]. exists k. eapply star_step; [| exact Hk].
  by apply (starts ∅ 8 true preview_arguments).
Qed.


Lemma code_is_on_show_from_the_start_witness :
  let w := sample_proc (sample_answers "code" true) WmCreate first_window in
  pairing_token (ap_pairing (w_app first_window)) = Some "first" ∧
  pairing_token (ap_pairing (w_app w)) = Some "code" ∧ ui_page (w_ui w) = PagePairing ∧ is_Some (ui_qr (w_ui w)).
Proof.
  cbn zeta. split; [reflexivity |]. split; [vm_compute; reflexivity |]. destruct sample_session as [k Hr].
  destruct (@code_is_on_show_from_the_start sample_coordinator_env true sample_payload "spki" sample_qr
    sample_payload_written _ 7 (first_process k) first_window (sample_answers "code" true) [] _ "code" Hr eq_refl eq_refl eq_refl
    (sample_answers_ok _ _) (star_refl _ _)) as [Hret | (Hp & pc & host & adapters & uri & _ & Hq)].
  - vm_compute. reflexivity.
  - exfalso. by apply elem_of_nil in Hret.
  - split; [exact Hp |]. cbn [wt_world] in Hq. rewrite Hq. by eexists.
Defined.
